(* ===== verification/_CoqProject ===== *)
-Q . S2P
Prelude.v
Bswap.v
Arrays.v
Bitmap.v
Queue.v
Spl.v
Threadlist.v
Sched.v
SchedInv.v
SchedThm.v
Synch.v
Cv.v
Kmalloc.v
KmallocInv.v
KmallocRep.v
Dumbvm.v
DumbvmThm.v
KmallocThm.v
Copyinout.v
Uio.v
Vfs.v
DevVnode.v
VfsThm.v
FileTable.v
SfsDisk.v
Runprogram.v
Device.v
Lhd.v
Sfs.v
SfsInv.v
SfsFile.v
SfsVol.v
SfsThm.v
LoadElf.v
Emu.v
EmuThm.v
EmuExec.v
Proc.v
ProcThm.v
ProcIso.v
Lamebus.v
Trap.v
Console.v
ConsoleThm.v
ConsoleIo.v
Autoconf.v
Devices.v
Kgets.v
Menu.v
Kprintf.v
Catmouse.v
