(* ===== verification/Prelude.v ===== *)
(** * A verification library for an OS/161 kernel

    The program under src/ is a teaching kernel for a MIPS machine: a thread
    system with spinlocks, run queues and wait channels, synchronisation
    objects, a kernel heap, a simple VM system, copying between kernel and user
    memory, a VFS layer with device vnodes, the file system SFS on a LAMEbus
    disk and one on the files of the emulator, processes and the system calls of
    a course assignment, trap handling, the bus with its devices and their
    configuration, the console, and a menu of commands.  The library is written
    for the configuration ASST2 (src/compile/ASST2: OPT_A1, OPT_A2 and
    OPT_DUMBVM set, UW defined, assertions compiled in); Catmouse.v is about a
    simulation that only ASST1 has.

    The parts build on one another: processes use address spaces, the VFS and
    file tables; the file systems use uio transfers and, through a block
    device, the disk driver; drivers sit on the bus, which the trap handler
    calls; the console is on the serial port, and kprintf, kgets and the menu
    on the console.  A client is proved against a class that says what it needs
    of the part below, and that part's file has the instance.

    ** How the code is modelled

    Every C function is a Rocq function of the same name.  One that changes
    state is a computation [M S A] in the monad below, over a record [S] of the
    variables it reaches: it returns a value, returns an error number with
    whatever was done before, or crashes.  A crash is [Panicked] (a failed
    KASSERT or a call of panic), [Wild] (a NULL or dangling pointer, an index
    out of range) or [Hung] (a loop that used up its fuel), so that a theorem
    of the form [runs (f s) Q R] excludes all three: [Q] holds if [f] returns
    and [R] if it fails.  Integers are [Z] with the wrap-around of their C type
    written out; arrays are lists indexed by [Z]; pointers are numbers, and
    structures that are shared live in a map, so that a freed one is gone.
    What a function needs of another part is a type class, and the part that
    does it is an instance.

    ** Files

    - Prelude.v: machine integers, error numbers, the monad, its reasoning rules
      and tactics, lists indexed by [Z].
    - Bswap.v, Arrays.v, Bitmap.v, Queue.v: src/lib/bswap.c, array.c, bitmap.c and
      queue.c.  [Arrays.Kmalloc] is what they rely on of the allocator.
    - Spl.v: src/thread/spl.c and spinlock.c, for one processor.
    - Threadlist.v: src/thread/threadlist.c, as linked nodes in a heap;
      [ThreadLists] is the interface to the scheduler, with its instance.
    - Sched.v, SchedInv.v, SchedThm.v: src/thread/thread.c and clock.c on any
      number of processors: the operations, their invariant, the theorems.
    - Synch.v, Cv.v: src/thread/synch.c.  Threads interleave between any two
      spinlock operations.  Semaphores and locks are two instances of the
      class [Resource]; [Cv.Objects] is creation and destruction.
    - Kmalloc.v, KmallocInv.v, KmallocRep.v, KmallocThm.v: src/vm/kmalloc.c over
      the class [KPages] of page allocators; the invariant of its pages and
      free lists, the map of live blocks it stands for, and the contract.
    - Dumbvm.v, DumbvmThm.v: src/arch/mips/vm/ram.c and dumbvm.c, an instance of
      [KPages]; what a process can reach through the TLB.
    - Copyinout.v, Uio.v: src/vm/copyinout.c and src/lib/uio.c.
    - Vfs.v, VfsThm.v: src/vfs/vfslist.c, vfslookup.c, vfscwd.c and vfspath.c
      over the class [FileSystems] of what lies behind vnode.h and fs.h.
    - DevVnode.v: src/vfs/device.c, devnull.c and vnode.c, an instance of
      [FileSystems].
    - FileTable.v: src/syscall/file.c and file_syscalls.c, and the file table
      of a forked process, over [FileIO], an extension of [FileSystems].
    - Runprogram.v: the argument block of src/syscall/runprogram.c.
    - LoadElf.v: src/syscall/loadelf.c, from the bytes of a file (the class
      [ExecFile], with SFS files as an instance) to the memory of a process.
    - Proc.v, ProcThm.v, ProcIso.v: src/proc/proc.c, proc_syscalls.c, the system
      call dispatcher, the rest of runprogram, shutdown and sys_reboot, over the
      VM system, the VFS and the file tables; their invariant; isolation.
    - Device.v, Lhd.v: the class [BlockDevice] and the disk driver
      src/dev/lamebus/lhd.c, an instance over the class [LhdCard] of cards.
    - SfsDisk.v, Sfs.v, SfsInv.v, SfsFile.v, SfsVol.v, SfsThm.v: the format in
      src/include/kern/sfs.h, src/fs/sfs/, the volume invariant, file I/O, an
      example volume and the theorems, over any [BlockDevice].
    - Emu.v, EmuThm.v, EmuExec.v: src/dev/lamebus/emu.c over the class [EmuCard];
      its files are an instance of [ExecFile].
    - Lamebus.v: src/dev/lamebus/lamebus.c and lamebus_machdep.c over the class
      [LbMachine] of registers and interrupt handlers.
    - Trap.v: src/arch/mips/locore/trap.c and the interrupt dispatcher, over the
      kernel of Proc.v and the bus.
    - Console.v, ConsoleThm.v, ConsoleIo.v: src/dev/generic/console.c,
      lser.c and con_lser.c over the class [SerialCard]; interleavings of threads
      and interrupts; single calls.
    - Autoconf.v: src/compile/ASST2/autoconf.c and the attach routines.
    - Devices.v: src/dev/lamebus/ltimer.c, lrandom.c and ltrace.c, and
      src/dev/generic/rtclock.c, beep.c and random.c.
    - Kgets.v: src/lib/kgets.c over the class [Terminal]; the console and the
      timer's speaker are an instance.
    - Menu.v: src/startup/menu.c over the class [Kernel] of what commands call.
    - Kprintf.v: src/lib/kprintf.c; the bus is an instance of what it masks.
    - Catmouse.v: src/synchprobs/catmouse.c and catmouse_synch.c.

    ** What the theorems show

    - Threads: from a started system, every interleaving of scheduler
      operations keeps every thread in exactly one place and all interrupt
      levels and locks accounted for; wakeups are fair, migration loses
      nothing, exited threads are reaped, shootdowns are delivered
      (SchedThm).  Nested spinlocks and spl calls restore interrupts (Spl).
    - Synchronisation: semaphores count, locks exclude, and when no thread can
      move none waits for something that is free (Synch, Cv).
    - Memory: kmalloc and kfree keep blocks apart for any number of threads
      (KmallocThm); vm_fault gives a process its own frames and no others, and
      as_copy a copy of them (DumbvmThm); user copies touch exactly the memory
      they were asked for or fail with EFAULT (Copyinout).
    - Files: an SFS file behaves as one array of bytes, whatever the block
      layout, and a write changes no other file (SfsThm); every VFS call gives
      back the references it takes (VfsThm); descriptors, entries and open
      files agree (FileTable); path names and device names mean what they
      should (VfsThm); program arguments are laid out for main (Runprogram).
      The emulator's handles are open exactly while a vnode needs them (EmuThm).
    - Processes: a fork makes a copy, identifiers and memory stay apart, a
      program is loaded to where its headers say, and no system call changes the
      memory of another process (ProcThm, ProcIso, LoadElf).
    - Traps and the bus: a TLB miss ends in the entry that vm_fault makes or in
      the process being killed; an interrupt calls the handlers of the slots that
      raised it, once each, and changes nothing else; the bus keeps its types
      whatever it is asked (Trap, Lamebus).  Configuration ends and attaches
      every card that has a driver (Autoconf); the clock's reading is one moment's
      (Devices).
    - Console: in every interleaving of printing and reading threads with
      interrupts and polled output, the bytes on the line are those printed, each
      once and in each thread's order, and the input ring is a queue (ConsoleThm);
      user reads and writes, kprintf and the menu's lines are exact (ConsoleIo,
      Kprintf, Kgets, Menu); panic goes through its steps whatever fails in them
      (Kprintf).
    - Cats and mice: bowls are not shared and every execution ends (Catmouse).
    - Data structures: arrays, bitmaps, queues and thread lists refine lists and
      sets.
    - Defects: bswap64 loses bytes, the growth of an array may not terminate,
      shootdowns can overrun their array, cv_wait can lose a signal, a process
      with one region panics the kernel on a fault, large kmalloc requests and
      segments wrap around, a forked process uses file entries that were freed, a
      fork without memory panics, a failed load of an emulator vnode keeps the
      big lock, cats starve without mice and eat together with them, and the locks
      of the bowls overrun their array.  Each is a theorem about what the code
      does.

    ** Bounds and fuel

    A loop over a list or a bounded counter is a structural Fixpoint.  Other
    loops have fuel, and the theorems show it never runs out: 257 turns for the
    lists of the 256 page references of kmalloc, the number of bytes and
    iovecs of a transfer for uiomove, the number of bytes for uiomovezeros, the
    capacity of the ring for queue loops, 64 turns for doublings, the length of
    the victim list for migration, the number of slots for the search for
    devices, the length of a line for its words and commands, the number of keys
    for a line of input, and six nested calls for panic.  What waits for an
    interrupt is given time by the card's [sending] count; what waits for
    another thread is a step of that thread in an interleaving, and the
    theorems there are about every interleaving.  Numeric hypotheses (fewer than
    2^31 elements, files below the maximal SFS size, and the like) keep sums
    within the C types; where the code goes wrong past them a theorem says so.

    ** Not modelled

    - Assembly (exception entry, context switch, TLB instructions, start.S):
      hardware state is not part of the model.  A context switch is an effect on
      the scheduler's state, a trap begins with its trap frame, and a fault in
      user memory is the EFAULT that copyinout.c turns it into.
    - Bootstrap: the order of calls in main.c, thread_bootstrap, cpu_create and
      cpu_hatch.  The theorems on threads start from any consistent state; that
      bootstrap leads to one is not shown, and it does so only when the first
      thread has been switched out once, since until then its state is S_READY.
      The start of processors is in Lamebus.v as far as the bus sees it.
    - The screen and the network card, which no configuration includes; the
      registration of the disk and the random device with the VFS.
    - Formatting of output and strings, whose code is not under src/, and the
      table of error messages; cmd_pwd and the help texts of the menu.
    - The VM statistics, which nothing updates, the whale mating frame, whose
      functions are empty, and the tests in src/test, which only call what is
      modelled.  Older copies that are not compiled (menu_old.c and the like).
    - Spinlocks around data of one process (its current directory, its file
      table), where a model of one call at a time is enough; the theorems on
      those parts are about sequences of whole calls. *)

From stdpp Require Export base numbers list option gmap.
From Stdlib Require Export ZArith Lia.
#[global] Open Scope Z_scope.
#[export] Set Warnings "-clear-no-such-hyp".

Declare Scope kernel_scope.
Delimit Scope kernel_scope with kernel.
#[global] Open Scope kernel_scope.

(** ** Machine integers

    A w-bit unsigned C integer is a [Z] in [0, 2^w); the wrap-around of an
    operation is written out with the functions below. *)

Definition u8 (z : Z) : Z := z mod 2 ^ 8.
Definition u16 (z : Z) : Z := z mod 2 ^ 16.
Definition u32 (z : Z) : Z := z mod 2 ^ 32.
Definition u64 (z : Z) : Z := z mod 2 ^ 64.
Definition s32 (z : Z) : Z := (z + 2 ^ 31) mod 2 ^ 32 - 2 ^ 31.
Definition s64 (z : Z) : Z := (z + 2 ^ 63) mod 2 ^ 64 - 2 ^ 63.

Definition is_u8 (z : Z) : Prop := 0 <= z < 2 ^ 8.
Definition is_u16 (z : Z) : Prop := 0 <= z < 2 ^ 16.
Definition is_u32 (z : Z) : Prop := 0 <= z < 2 ^ 32.
Definition is_u64 (z : Z) : Prop := 0 <= z < 2 ^ 64.

Lemma s32_small z : - 2 ^ 31 <= z < 2 ^ 31 -> s32 z = z.
Proof. intros. unfold s32. rewrite Z.mod_small; lia. Qed.

(** [DIVROUNDUP] and [ROUNDUP] of include/lib.h, on 32-bit operands. *)
Definition DIVROUNDUP (a b : Z) : Z := u32 (u32 (a + b) - 1) / b.

(** ** Error numbers (include/kern/errno.h) *)

Definition ENOSYS : Z := 1.
Definition EUNIMP : Z := 2.
Definition ENOMEM : Z := 3.
Definition EAGAIN : Z := 4.
Definition EFAULT : Z := 6.
Definition ENAMETOOLONG : Z := 7.
Definition EINVAL : Z := 8.
Definition ENOEXEC : Z := 13.
Definition ENOTDIR : Z := 17.
Definition EISDIR : Z := 18.
Definition ENOENT : Z := 19.
Definition EEXIST : Z := 22.
Definition EXDEV : Z := 24.
Definition ENODEV : Z := 25.
Definition ENXIO : Z := 26.
Definition EBUSY : Z := 27.
Definition EMFILE : Z := 28.
Definition EBADF : Z := 30.
Definition EIOCTL : Z := 31.
Definition EIO : Z := 32.
Definition ESPIPE : Z := 33.
Definition ENOSPC : Z := 36.
Definition EFBIG : Z := 38.

(** ** The kernel monad

    A C function that may return an error code, call [panic] (directly or
    through a failed [KASSERT]), or run off an object, is a function from the
    state it can reach to an [outcome].  [Err e s] keeps the state: a C
    function that returns an error has still done whatever it did before. *)

Inductive crash : Set :=
| Panicked   (** [panic()] was called, or a [KASSERT] failed *)
| Wild       (** a pointer outside its object was dereferenced *)
| Hung.      (** the fuel of a loop without an a-priori bound ran out *)

Inductive outcome (S A : Type) : Type :=
| Ret (a : A) (s : S)      (** normal return; result code 0 *)
| Err (e : Z) (s : S)      (** the error code [e] was returned *)
| Crash (c : crash).
Arguments Ret {S A} a s.
Arguments Err {S A} e s.
Arguments Crash {S A} c.

Definition M (S A : Type) : Type := S -> outcome S A.

Section Monad.
Context {S : Type}.

Definition ret {A} (a : A) : M S A := fun s => Ret a s.
Definition bind {A B} (m : M S A) (k : A -> M S B) : M S B :=
  fun s => match m s with
           | Ret a s' => k a s'
           | Err e s' => Err e s'
           | Crash c => Crash c
           end.
Definition err {A} (e : Z) : M S A := fun s => Err e s.
Definition crashed {A} (c : crash) : M S A := fun _ => Crash c.
Definition panic {A} : M S A := crashed Panicked.
Definition KASSERT (b : bool) : M S unit := if b then ret tt else panic.
Definition gets {A} (f : S -> A) : M S A := fun s => Ret (f s) s.
Definition get : M S S := fun s => Ret s s.
Definition modify (f : S -> S) : M S unit := fun s => Ret tt (f s).
Definition of_option {A} (c : crash) (o : option A) : M S A :=
  match o with Some a => ret a | None => crashed c end.
(** [try m] is [result = m(); ...] where the caller looks at the code itself. *)
Definition try {A} (m : M S A) : M S (A + Z) :=
  fun s => match m s with
           | Ret a s' => Ret (inl a) s'
           | Err e s' => Ret (inr e) s'
           | Crash c => Crash c
           end.
(** [for (i = start; i < start + n; i++) body(i)], left by the first error. *)
Fixpoint for_ (n : nat) (i : Z) (body : Z -> M S unit) : M S unit :=
  match n with
  | O => ret tt
  | Datatypes.S n' => bind (body i) (fun _ => for_ n' (i + 1) body)
  end.
End Monad.

Notation "'let*' x := m 'in' k" := (bind m (fun x => k))
  (at level 10, x name, m at level 100, k at level 200,
   format "'[v' let*  x  :=  m  in '/' k ']'") : kernel_scope.
Notation "'let*' ' p := m 'in' k" := (bind m (fun x => match x with p => k end))
  (at level 10, p strict pattern, m at level 100, k at level 200) : kernel_scope.
Notation "m ;; k" := (bind m (fun _ => k))
  (at level 100, k at level 200, right associativity) : kernel_scope.
Notation "'if*' b 'then' m" := (if b then m else ret tt)
  (at level 95, b at level 99, m at level 94) : kernel_scope.

(** Running a computation on a part of a larger state. *)
Definition zoom {S T A} (get : S -> T) (put : T -> S -> S) (m : M T A) : M S A :=
  fun s => match m (get s) with
           | Ret a t => Ret a (put t s)
           | Err e t => Err e (put t s)
           | Crash c => Crash c
           end.

(** *** Weakest preconditions

    [runs o Q R]: the outcome [o] is no crash; a normal return satisfies [Q],
    an error return satisfies [R]. *)
Definition runs {S A} (o : outcome S A) (Q : A -> S -> Prop) (R : Z -> S -> Prop) : Prop :=
  match o with
  | Ret a s => Q a s
  | Err e s => R e s
  | Crash _ => False
  end.

(** [returns o Q]: no crash and no error. *)
Abbreviation returns o Q := (runs o Q (fun _ _ => False)).

Lemma returns_runs {S' A} (o : outcome S' A) Q R : returns o Q -> runs o Q R.
Proof. by destruct o. Qed.

Section Runs.
Context {S : Type}.
Implicit Types (s : S).

Lemma runs_ret {A} (a : A) s Q R : Q a s -> runs (ret a s) Q R.
Proof. done. Qed.

Lemma runs_gets {A} (f : S -> A) s (Q : A -> S -> Prop) R : Q (f s) s -> runs (gets f s) Q R.
Proof. done. Qed.

Lemma runs_get s (Q : S -> S -> Prop) R : Q s s -> runs (get s) Q R.
Proof. done. Qed.

Lemma runs_modify (f : S -> S) s (Q : unit -> S -> Prop) R :
  Q tt (f s) -> runs (modify f s) Q R.
Proof. done. Qed.

Lemma runs_err {A} e s (Q : A -> S -> Prop) (R : Z -> S -> Prop) : R e s -> runs (err e s) Q R.
Proof. done. Qed.

Lemma runs_Ret {A} (a : A) s (Q : A -> S -> Prop) R : Q a s -> runs (Ret a s) Q R.
Proof. done. Qed.

Lemma runs_Err {A} e s (Q : A -> S -> Prop) (R : Z -> S -> Prop) : R e s -> runs (Err e s) Q R.
Proof. done. Qed.

Lemma runs_bind {A B} (m : M S A) (k : A -> M S B) s Q R :
  runs (m s) (fun a s' => runs (k a s') Q R) R -> runs (bind m k s) Q R.
Proof. unfold bind. by destruct (m s). Qed.

Lemma runs_bind_inv {A B} (m : M S A) (k : A -> M S B) s Q R :
  runs (bind m k s) Q R -> runs (m s) (fun a s' => runs (k a s') Q R) R.
Proof. unfold bind. by destruct (m s). Qed.

Lemma bind_crash {A B} (m : M S A) (k : A -> M S B) s c :
  runs (m s) (fun a s' => k a s' = Crash c) (fun _ _ => False) -> bind m k s = Crash c.
Proof. unfold bind. by destruct (m s). Qed.

Lemma bind_Ret {A B} (m : M S A) (k : A -> M S B) s a s' :
  m s = Ret a s' -> bind m k s = k a s'.
Proof. unfold bind. by intros ->. Qed.

Lemma runs_bind_with {A B} (m : M S A) (k : A -> M S B) s Q1 Q R :
  runs (m s) Q1 R -> (forall a s', Q1 a s' -> runs (k a s') Q R) ->
  runs (bind m k s) Q R.
Proof. unfold bind. destruct (m s); simpl; auto. Qed.

Lemma runs_mono {A} (o : outcome S A) (Q Q' : A -> S -> Prop) (R R' : Z -> S -> Prop) :
  runs o Q R -> (forall a s, Q a s -> Q' a s) -> (forall e s, R e s -> R' e s) ->
  runs o Q' R'.
Proof. destruct o; simpl; auto. Qed.

(** The state a computation that returns leaves behind. *)
Definition after {A} (m : M S A) (s : S) : S := match m s with Ret _ s' => s' | _ => s end.

Lemma returns_after {A} (m : M S A) s (Q : S -> Prop) :
  returns (m s) (fun _ s' => Q s') -> Q (after m s).
Proof. unfold after. by destruct (m s). Qed.

Definition is_ret {A} (o : outcome S A) : bool := match o with Ret _ _ => true | _ => false end.

Lemma ret_after (m : M S unit) s : is_ret (m s) = true -> m s = Ret tt (after m s).
Proof. unfold after. by destruct (m s) as [[] ?|?|]. Qed.

Lemma runs_KASSERT (b : bool) s (Q : unit -> S -> Prop) R :
  b = true -> Q tt s -> runs (KASSERT b s) Q R.
Proof. by intros ->. Qed.

Lemma runs_try {A} (m : M S A) s (Q : A + Z -> S -> Prop) R :
  runs (m s) (fun a s' => Q (inl a) s') (fun e s' => Q (inr e) s') ->
  runs (try m s) Q R.
Proof. unfold try. by destruct (m s). Qed.

Lemma runs_of_option {A} c (o : option A) a s (Q : A -> S -> Prop) R :
  o = Some a -> Q a s -> runs (of_option c o s) Q R.
Proof. by intros ->. Qed.

Lemma runs_zoom {T A} (get : S -> T) (put : T -> S -> S) (m : M T A) s
    (Q : A -> S -> Prop) (R : Z -> S -> Prop) :
  runs (m (get s)) (fun a t => Q a (put t s)) (fun e t => R e (put t s)) ->
  runs (zoom get put m s) Q R.
Proof. unfold zoom. by destruct (m (get s)). Qed.

(** The loop rule: [I i] holds when the counter is [i]. *)
Lemma runs_for (I : Z -> S -> Prop) (R : Z -> S -> Prop) (n : nat) (i : Z)
    (body : Z -> M S unit) s :
  I i s ->
  (forall j s', i <= j < i + Z.of_nat n -> I j s' ->
     runs (body j s') (fun _ s'' => I (j + 1) s'') R) ->
  runs (for_ n i body s) (fun _ s' => I (i + Z.of_nat n) s') R.
Proof.
  revert i s. induction n as [|n IH]; intros i s HI Hb.
  - apply runs_ret. by rewrite Z.add_0_r.
  - simpl. apply (runs_bind_with _ _ _ (fun _ s' => I (i + 1) s')); [apply Hb; [lia|done]|].
    intros _ s' HI'. replace (i + Z.of_nat (Datatypes.S n)) with (i + 1 + Z.of_nat n) by lia.
    apply IH; [done|]. intros j s'' Hj. apply Hb. lia.
Qed.
End Runs.

(** [runs_step] takes one monadic step of a [runs] goal. *)
Ltac runs_step :=
  lazymatch goal with
  | |- runs (bind _ _ _) _ _ => apply runs_bind
  | |- runs (ret _ _) _ _ => apply runs_ret
  | |- runs (gets _ _) _ _ => apply runs_gets
  | |- runs (get _) _ _ => apply runs_get
  | |- runs (modify _ _) _ _ => apply runs_modify
  | |- runs (err _ _) _ _ => apply runs_err
  | |- runs (try _ _) _ _ => apply runs_try
  | |- runs (zoom _ _ _ _) _ _ => apply runs_zoom
  | |- runs (Ret _ _) _ _ => apply runs_Ret
  | |- runs (Err _ _) _ _ => apply runs_Err
  end; cbv beta.
Ltac runs_steps := repeat runs_step.

(** ** Lists indexed by machine integers *)

Definition zlen {A} (l : list A) : Z := Z.of_nat (length l).
Definition zlookup {A} (l : list A) (i : Z) : option A :=
  if bool_decide (0 <= i) then l !! Z.to_nat i else None.
(** [a[i] = x]; the caller checks the range. *)
Definition zinsert {A} (l : list A) (i : Z) (x : A) : list A :=
  if bool_decide (0 <= i) then <[Z.to_nat i := x]> l else l.
Definition ztake {A} (n : Z) (l : list A) : list A := take (Z.to_nat n) l.
Definition zdrop {A} (n : Z) (l : list A) : list A := drop (Z.to_nat n) l.
Definition zrep {A} (n : Z) (x : A) : list A := replicate (Z.to_nat n) x.
(** [memcpy(&l[off], new, length new)] into an object [l]. *)
Definition zsplice {A} (l : list A) (off : Z) (new : list A) : list A :=
  ztake off l ++ new ++ zdrop (off + zlen new) l.

Section ZLists.
Context {A : Type}.
Implicit Types (l k : list A) (i j n : Z) (x : A).

Lemma zlen_nonneg l : 0 <= zlen l.
Proof. unfold zlen. lia. Qed.

Lemma zlen_app l k : zlen (l ++ k) = zlen l + zlen k.
Proof. unfold zlen. rewrite length_app. lia. Qed.

Lemma zlen_cons x l : zlen (x :: l) = zlen l + 1.
Proof. unfold zlen. simpl. lia. Qed.

Lemma zlen_zinsert l i x : zlen (zinsert l i x) = zlen l.
Proof. unfold zlen, zinsert. case_bool_decide; [by rewrite length_insert|done]. Qed.

Lemma zlen_zrep n x : 0 <= n -> zlen (zrep n x) = n.
Proof. intros. unfold zlen, zrep. rewrite length_replicate. lia. Qed.

Lemma zlen_ztake n l : 0 <= n <= zlen l -> zlen (ztake n l) = n.
Proof. unfold zlen, ztake. intros. rewrite length_take. lia. Qed.

Lemma zlen_zdrop n l : 0 <= n <= zlen l -> zlen (zdrop n l) = zlen l - n.
Proof. unfold zlen, zdrop. intros. rewrite length_drop. lia. Qed.

Lemma zlen_zsplice l i k : 0 <= i -> i + zlen k <= zlen l -> zlen (zsplice l i k) = zlen l.
Proof.
  intros. pose proof (zlen_nonneg k). unfold zsplice. rewrite !zlen_app.
  rewrite zlen_ztake, zlen_zdrop by lia. lia.
Qed.

Lemma zlookup_Some_range l i x : zlookup l i = Some x -> 0 <= i < zlen l.
Proof.
  unfold zlookup, zlen. case_bool_decide; [|done].
  intros Hl%lookup_lt_Some. lia.
Qed.

Lemma zlookup_is_Some l i : 0 <= i < zlen l -> exists x, zlookup l i = Some x.
Proof.
  unfold zlookup, zlen. intros Hi. rewrite bool_decide_true by lia.
  apply lookup_lt_is_Some. lia.
Qed.

Lemma zlookup_None l i : zlookup l i = None <-> i < 0 \/ zlen l <= i.
Proof.
  unfold zlookup, zlen. case_bool_decide; [|naive_solver lia].
  rewrite lookup_ge_None. lia.
Qed.

Lemma zlookup_zinsert_eq l i x : 0 <= i < zlen l -> zlookup (zinsert l i x) i = Some x.
Proof.
  unfold zlookup, zinsert, zlen. intros Hi. rewrite !bool_decide_true by lia.
  apply list_lookup_insert_eq. lia.
Qed.

Lemma zlookup_zinsert_ne l i j x : i <> j -> zlookup (zinsert l i x) j = zlookup l j.
Proof.
  unfold zlookup, zinsert. intros Hne. repeat case_bool_decide; try done.
  apply list_lookup_insert_ne. lia.
Qed.

Lemma zlookup_zinsert l i j x :
  0 <= i < zlen l ->
  zlookup (zinsert l i x) j = if bool_decide (i = j) then Some x else zlookup l j.
Proof.
  intros. case_bool_decide; subst; [by apply zlookup_zinsert_eq|by apply zlookup_zinsert_ne].
Qed.

Lemma zlookup_zrep n x i : 0 <= i < n -> zlookup (zrep n x) i = Some x.
Proof.
  unfold zlookup, zrep. intros. rewrite bool_decide_true by lia.
  apply lookup_replicate_2. lia.
Qed.

Lemma zlookup_app_l l k i : i < zlen l -> zlookup (l ++ k) i = zlookup l i.
Proof.
  unfold zlookup, zlen. intros. case_bool_decide; [|done]. apply lookup_app_l. lia.
Qed.

Lemma zlookup_app_r l k i : zlen l <= i -> zlookup (l ++ k) i = zlookup k (i - zlen l).
Proof.
  unfold zlookup, zlen. intros. rewrite !bool_decide_true by lia.
  rewrite lookup_app_r by lia. f_equal. lia.
Qed.

Lemma zlookup_ztake l n i : i < n -> zlookup (ztake n l) i = zlookup l i.
Proof.
  unfold zlookup, ztake. intros. case_bool_decide; [|done]. apply lookup_take_lt. lia.
Qed.

Lemma zlookup_zdrop l n i : 0 <= n -> 0 <= i -> zlookup (zdrop n l) i = zlookup l (n + i).
Proof.
  unfold zlookup, zdrop. intros. rewrite !bool_decide_true by lia.
  rewrite lookup_drop. f_equal. lia.
Qed.

Lemma zlookup_zsplice l off k i :
  0 <= off -> off + zlen k <= zlen l -> 0 <= i ->
  zlookup (zsplice l off k) i =
  if bool_decide (off <= i < off + zlen k) then zlookup k (i - off) else zlookup l i.
Proof.
  intros. pose proof (zlen_nonneg k). unfold zsplice.
  assert (zlen (ztake off l) = off) as Hl by (apply zlen_ztake; lia).
  case_bool_decide.
  - rewrite zlookup_app_r, zlookup_app_l by lia. by rewrite Hl.
  - destruct (decide (i < off)).
    + rewrite zlookup_app_l by lia. by apply zlookup_ztake.
    + rewrite !zlookup_app_r by lia. rewrite zlookup_zdrop by lia. f_equal. lia.
Qed.

Lemma zlist_eq l k :
  zlen l = zlen k -> (forall i, 0 <= i < zlen l -> zlookup l i = zlookup k i) -> l = k.
Proof.
  unfold zlen. intros Hlen Hl. apply list_eq. intros i.
  destruct (decide (i < length l)%nat).
  - specialize (Hl (Z.of_nat i) ltac:(lia)). unfold zlookup in Hl.
    rewrite !bool_decide_true in Hl by lia. by rewrite !Nat2Z.id in Hl.
  - rewrite !lookup_ge_None_2 by lia. done.
Qed.

Lemma ztake_zdrop n l : ztake n l ++ zdrop n l = l.
Proof. apply take_drop. Qed.

Lemma ztake_all n l : zlen l <= n -> ztake n l = l.
Proof. unfold zlen, ztake. intros. apply take_ge. lia. Qed.

Lemma zdrop_0 l : zdrop 0 l = l.
Proof. done. Qed.

Lemma zdrop_zdrop m n l : 0 <= m -> 0 <= n -> zdrop m (zdrop n l) = zdrop (n + m) l.
Proof. intros. unfold zdrop. rewrite drop_drop. f_equal. lia. Qed.

Lemma ztake_add m n l : 0 <= m -> 0 <= n -> ztake (m + n) l = ztake m l ++ ztake n (zdrop m l).
Proof.
  intros. unfold ztake, zdrop. rewrite Z2Nat.inj_add by lia.
  by rewrite take_take_drop.
Qed.

Lemma Forall_zinsert (P : A -> Prop) l i x : Forall P l -> P x -> Forall P (zinsert l i x).
Proof. unfold zinsert. intros. case_bool_decide; [by apply Forall_insert|done]. Qed.

Lemma Forall_zlookup (P : A -> Prop) l i x : Forall P l -> zlookup l i = Some x -> P x.
Proof. unfold zlookup. case_bool_decide; [|done]. intros. by eapply Forall_lookup_1. Qed.

Lemma Forall_zrep (P : A -> Prop) n x : P x -> Forall P (zrep n x).
Proof. intros. by apply Forall_replicate. Qed.
End ZLists.

(** ** Automation *)

Create HintDb kernel.
Create Rewrite HintDb zlist.
#[export] Hint Resolve zlen_nonneg Forall_zinsert Forall_zrep : kernel.
#[export] Hint Rewrite @zlen_zinsert @zlen_app : zlist.

(** [lia] for goals with division and remainder by constants. *)
Ltac dlia := Z.div_mod_to_equations; lia.

(** Resolve the boolean tests the code branches on. *)
Ltac bool_case :=
  match goal with
  | |- context [?a =? ?b] => destruct (Z.eqb_spec a b)
  | |- context [?a <? ?b] => destruct (Z.ltb_spec a b)
  | |- context [?a <=? ?b] => destruct (Z.leb_spec a b)
  | |- context [bool_decide ?P] => destruct (bool_decide_reflect P)
  end.

(** ** Bits of machine integers *)

Lemma u32_small z : is_u32 z -> u32 z = z.
Proof. apply Z.mod_small. Qed.

Lemma s64_small z : - 2 ^ 63 <= z < 2 ^ 63 -> s64 z = z.
Proof. intros. unfold s64. rewrite Z.mod_small; lia. Qed.

Lemma u32_range z : is_u32 (u32 z).
Proof. apply Z.mod_pos_bound. lia. Qed.

Lemma testbit_high (w z i : Z) : 0 <= z < 2 ^ w -> 0 <= w <= i -> Z.testbit z i = false.
Proof.
  intros Hz Hi. rewrite <- (Z.mod_small z (2 ^ w)) by done.
  apply Z.mod_pow2_bits_high. lia.
Qed.

Lemma eq_by_bits (w x y : Z) :
  0 <= w -> 0 <= x < 2 ^ w -> 0 <= y < 2 ^ w ->
  (forall i, 0 <= i < w -> Z.testbit x i = Z.testbit y i) -> x = y.
Proof.
  intros Hw Hx Hy Heq. apply Z.bits_inj'. intros i Hi.
  destruct (decide (i < w)); [apply Heq; lia|].
  rewrite !(testbit_high w) by lia. done.
Qed.

Lemma range_by_bits (w z : Z) :
  0 <= w -> 0 <= z -> (forall i, w <= i -> Z.testbit z i = false) -> 0 <= z < 2 ^ w.
Proof.
  intros Hw Hz Hb. split; [done|].
  assert (z mod 2 ^ w = z) as <-; [|apply Z.mod_pos_bound; lia].
  apply Z.bits_inj'. intros i Hi. destruct (decide (i < w)).
  - by rewrite Z.mod_pow2_bits_low by lia.
  - rewrite Z.mod_pow2_bits_high by lia. symmetry. apply Hb. lia.
Qed.

Lemma lor_bound (w x y : Z) :
  0 <= w -> 0 <= x < 2 ^ w -> 0 <= y < 2 ^ w -> 0 <= Z.lor x y < 2 ^ w.
Proof.
  intros Hw Hx Hy. apply range_by_bits; [done|apply Z.lor_nonneg; lia|].
  intros i Hi. rewrite Z.lor_spec, !(testbit_high w) by lia. done.
Qed.

Lemma mod_bound (w z : Z) : 0 <= w -> 0 <= z mod 2 ^ w < 2 ^ w.
Proof. intros. apply Z.mod_pos_bound. lia. Qed.

(** ** Pages (src/arch/mips/include/vm.h) *)

Definition PAGE_SIZE : Z := 4096.
Definition PAGE_FRAME : Z := 0xfffff000.
(** [~PAGE_FRAME] as a 32-bit mask *)
Definition NOT_PAGE_FRAME : Z := 0xfff.
Definition MIPS_KSEG0 : Z := 0x80000000.
Definition MIPS_KSEG1 : Z := 0xa0000000.

Lemma land_frame a : is_u32 a -> Z.land a PAGE_FRAME = a - a mod PAGE_SIZE.
Proof.
  intros Ha. assert (a - a mod PAGE_SIZE = Z.shiftl (Z.shiftr a 12) 12) as ->.
  { rewrite Z.shiftl_mul_pow2, Z.shiftr_div_pow2 by lia. unfold PAGE_SIZE. dlia. }
  change PAGE_FRAME with (Z.shiftl (Z.ones 20) 12). apply Z.bits_inj'. intros i Hi.
  rewrite Z.land_spec, !Z.shiftl_spec by done. destruct (decide (i < 12)).
  - rewrite !(Z.testbit_neg_r _ (i - 12)) by lia. apply andb_false_r.
  - rewrite Z.shiftr_spec, Z.testbit_ones_nonneg by lia. replace (i - 12 + 12) with i by lia.
    destruct (Z.ltb_spec (i - 12) 20); [apply andb_true_r|]. rewrite andb_false_r. symmetry. apply (testbit_high 32); [done|lia].
Qed.

Lemma land_not_frame a : Z.land a NOT_PAGE_FRAME = a mod PAGE_SIZE.
Proof. change NOT_PAGE_FRAME with (Z.ones 12). by rewrite Z.land_ones by lia. Qed.

(** The mask [1 << o] picks, sets and clears bit [o]. *)
Definition bit_mask (o : Z) : Z := Z.shiftl 1 o.

Lemma bit_mask_spec (o i : Z) : 0 <= o -> 0 <= i -> Z.testbit (bit_mask o) i = bool_decide (i = o).
Proof.
  intros. unfold bit_mask. rewrite Z.shiftl_1_l. bool_case; subst.
  - apply Z.pow2_bits_true; lia.
  - apply Z.pow2_bits_false; lia.
Qed.

Lemma land_mask_zero (w o : Z) : 0 <= o -> (Z.land w (bit_mask o) =? 0) = negb (Z.testbit w o).
Proof.
  intros Ho. destruct (Z.testbit w o) eqn:Hb; simpl.
  - apply Z.eqb_neq. intros Hz. assert (Z.testbit (Z.land w (bit_mask o)) o = false) as Hf.
    { by rewrite Hz, Z.bits_0. }
    rewrite Z.land_spec, bit_mask_spec, bool_decide_true, Hb in Hf by lia. done.
  - apply Z.eqb_eq. apply Z.bits_inj'. intros i Hi.
    rewrite Z.land_spec, bit_mask_spec, Z.bits_0 by lia. bool_case; subst; [by rewrite Hb|].
    apply andb_false_r.
Qed.

Lemma testbit_set (w o i : Z) :
  0 <= o -> 0 <= i -> Z.testbit (Z.lor w (bit_mask o)) i = bool_decide (i = o) || Z.testbit w i.
Proof. intros. rewrite Z.lor_spec, bit_mask_spec by lia. apply orb_comm. Qed.

Lemma testbit_clear (w o i : Z) :
  0 <= o -> 0 <= i ->
  Z.testbit (Z.land w (Z.lnot (bit_mask o))) i = negb (bool_decide (i = o)) && Z.testbit w i.
Proof.
  intros. rewrite Z.land_spec, Z.lnot_spec, bit_mask_spec by lia. apply andb_comm.
Qed.

Lemma bit_mask_u8 (o : Z) : 0 <= o < 8 -> u8 (bit_mask o) = bit_mask o.
Proof.
  intros. apply Z.mod_small. unfold bit_mask. rewrite Z.shiftl_1_l.
  split; [lia|]. apply Z.pow_lt_mono_r; lia.
Qed.

Lemma set_range (w o k : Z) : 0 <= o < k -> 0 <= w < 2 ^ k -> 0 <= Z.lor w (bit_mask o) < 2 ^ k.
Proof.
  intros. apply lor_bound; [lia|done|]. unfold bit_mask. rewrite Z.shiftl_1_l.
  split; [lia|]. apply Z.pow_lt_mono_r; lia.
Qed.

Lemma clear_range (w o k : Z) :
  0 <= o -> 0 <= k -> 0 <= w < 2 ^ k -> 0 <= Z.land w (Z.lnot (bit_mask o)) < 2 ^ k.
Proof.
  intros. apply range_by_bits; [done|apply Z.land_nonneg; lia|].
  intros i Hi. rewrite testbit_clear, (testbit_high k w) by lia. apply andb_false_r.
Qed.
