(* ===== verification/Bswap.v ===== *)
(** * Byte-order conversions: src/lib/bswap.c

    [Bswap] holds the unconditional byte swaps, the network-order conversions
    (identities on a big-endian machine) and the two functions that glue and
    split 64-bit values.  The reference notion is [byte_at i v], the i-th
    least significant byte of [v]. *)

From S2P Require Import Prelude.

Module Bswap.

(** The three unconditional swaps, operand masks and shifts as in the code;
    the result is truncated to the return type. *)
Definition bswap16 (val : Z) : Z :=
  u16 (Z.lor (Z.shiftl (Z.land val 0x00ff) 8)
             (Z.shiftr (Z.land val 0xff00) 8)).

Definition bswap32 (val : Z) : Z :=
  Z.lor (Z.lor (Z.lor
    (u32 (Z.shiftl (Z.land val 0x000000ff) 24))
    (u32 (Z.shiftl (Z.land val 0x0000ff00) 8)))
    (Z.shiftr (Z.land val 0x00ff0000) 8))
    (Z.shiftr (Z.land val 0xff000000) 24).

Definition bswap64 (val : Z) : Z :=
  Z.lor (Z.lor (Z.lor (Z.lor (Z.lor (Z.lor (Z.lor
    (u64 (Z.shiftl (Z.land val 0x00000000000000ff) 56))
    (u64 (Z.shiftl (Z.land val 0x000000000000ff00) 40)))
    (u64 (Z.shiftl (Z.land val 0x0000000000ff0000) 24)))
    (u64 (Z.shiftl (Z.land val 0x00000000ff000000) 8)))
    (u64 (Z.shiftl (Z.land val 0x000000ff00000000) 8)))
    (u64 (Z.shiftl (Z.land val 0x0000ff0000000000) 24)))
    (Z.shiftr (Z.land val 0x00ff000000000000) 40))
    (Z.shiftr (Z.land val 0xff00000000000000) 56).

(** Network order is the byte order of the (big-endian) target. *)
Definition ntohs (val : Z) : Z := val.
Definition htons (val : Z) : Z := val.
Definition ntohl (val : Z) : Z := val.
Definition htonl (val : Z) : Z := val.
Definition ntohll (val : Z) : Z := val.
Definition htonll (val : Z) : Z := val.

(** The big-endian branches of [join32to64] and [split64to32]. *)
Definition join32to64 (x1 x2 : Z) : Z := Z.lor (u64 (Z.shiftl x1 32)) x2.
Definition split64to32 (x : Z) : Z * Z := (u32 (Z.shiftr x 32), Z.land x 0xffffffff).

(** ** The reference notion and its bits *)

Definition byte_at (i v : Z) : Z := Z.land (Z.shiftr v (8 * i)) 0xff.

Lemma testbit_mask8 (k i : Z) :
  0 <= k -> 0 <= i ->
  Z.testbit (Z.shiftl 0xff k) i = bool_decide (k <= i < k + 8).
Proof.
  intros Hk Hi. rewrite Z.shiftl_spec by done. change 0xff with (Z.ones 8).
  bool_case; [by apply Z.ones_spec_low; lia|].
  destruct (decide (i < k)); [apply Z.testbit_neg_r; lia|apply Z.ones_spec_high; lia].
Qed.

Lemma testbit_byte_at (j v i : Z) :
  0 <= j -> 0 <= i < 8 -> Z.testbit (byte_at j v) i = Z.testbit v (8 * j + i).
Proof.
  intros. unfold byte_at. rewrite Z.land_spec, Z.shiftr_spec by lia.
  change 0xff with (Z.ones 8). rewrite Z.ones_spec_low by lia.
  rewrite andb_true_r. f_equal. lia.
Qed.

Lemma byte_at_range (j v : Z) : is_u8 (byte_at j v).
Proof.
  unfold byte_at. change 0xff with (Z.ones 8).
  rewrite Z.land_ones by lia. apply Z.mod_pos_bound. lia.
Qed.

(** Rewrites every mask of the file as a shifted [0xff]. *)
Ltac mask8 m k := change m with (Z.shiftl 0xff k).

(** The bit of one summand: a masked byte moved left or right. *)
Lemma testbit_moved_left (w v k s i : Z) :
  0 <= k -> 0 <= s -> 0 <= i < w ->
  Z.testbit (Z.shiftl (Z.land v (Z.shiftl 0xff k)) s mod 2 ^ w) i =
  bool_decide (k + s <= i < k + s + 8) && Z.testbit v (i - s).
Proof.
  intros. rewrite Z.mod_pow2_bits_low, Z.shiftl_spec by lia.
  rewrite Z.land_spec. destruct (decide (s <= i)).
  - rewrite testbit_mask8 by lia. rewrite andb_comm. f_equal.
    apply bool_decide_ext. lia.
  - rewrite (Z.testbit_neg_r v) by lia. rewrite bool_decide_false by lia. done.
Qed.

Lemma testbit_moved_right (v k s i : Z) :
  0 <= k -> 0 <= s -> 0 <= i ->
  Z.testbit (Z.shiftr (Z.land v (Z.shiftl 0xff k)) s) i =
  bool_decide (k - s <= i < k - s + 8) && Z.testbit v (i + s).
Proof.
  intros. rewrite Z.shiftr_spec, Z.land_spec, testbit_mask8 by lia.
  rewrite andb_comm. f_equal. apply bool_decide_ext. lia.
Qed.

(** Decides every range test of a goal about a bit in a known byte. *)
Ltac decide_ranges :=
  repeat first [rewrite bool_decide_true by lia | rewrite bool_decide_false by lia];
  rewrite ?andb_true_l, ?andb_false_l, ?orb_false_l, ?orb_false_r.

Lemma bswap32_bits (v i : Z) :
  0 <= i < 32 -> Z.testbit (bswap32 v) i = Z.testbit v (i mod 8 + 8 * (3 - i / 8)).
Proof.
  intros Hi. unfold bswap32, u32. rewrite !Z.lor_spec.
  change (Z.land v 0x000000ff) with (Z.land v (Z.shiftl 0xff 0)).
  mask8 0x0000ff00 8. mask8 0x00ff0000 16. mask8 0xff000000 24.
  rewrite !testbit_moved_left, !testbit_moved_right by lia.
  assert (i < 8 \/ 8 <= i < 16 \/ 16 <= i < 24 \/ 24 <= i) as Hq by lia.
  destruct Hq as [Hq|[Hq|[Hq|Hq]]]; decide_ranges; f_equal; dlia.
Qed.

Lemma moved_right_range (w v k s : Z) :
  0 <= w -> 0 <= k -> 0 <= s -> k - s + 8 <= w ->
  0 <= Z.shiftr (Z.land v (Z.shiftl 0xff k)) s < 2 ^ w.
Proof.
  intros. apply range_by_bits; [done| |].
  - apply Z.shiftr_nonneg, Z.land_nonneg. right. apply Z.shiftl_nonneg. lia.
  - intros i Hi. rewrite testbit_moved_right by lia.
    by rewrite bool_decide_false by lia.
Qed.

(** The range of a disjunction of moved bytes. *)
Ltac moved_range :=
  repeat apply lor_bound; try lia; try (apply mod_bound; lia);
  apply moved_right_range; lia.

Lemma bswap32_range (v : Z) : is_u32 (bswap32 v).
Proof.
  unfold bswap32, is_u32, u32. mask8 0x00ff0000 16. mask8 0xff000000 24. moved_range.
Qed.

Lemma bswap16_bits (v i : Z) :
  0 <= i < 16 -> Z.testbit (bswap16 v) i = Z.testbit v (i mod 8 + 8 * (1 - i / 8)).
Proof.
  intros Hi. unfold bswap16, u16.
  change (Z.land v 0x00ff) with (Z.land v (Z.shiftl 0xff 0)). mask8 0xff00 8.
  rewrite Z.mod_pow2_bits_low, Z.lor_spec by lia.
  rewrite <- (Z.mod_pow2_bits_low (Z.shiftl _ _) 16) by lia.
  rewrite testbit_moved_left, testbit_moved_right by lia.
  assert (i < 8 \/ 8 <= i) as [Hq|Hq] by lia; decide_ranges; f_equal; dlia.
Qed.

(** What the eight summands of [bswap64] do, bit by bit. *)
Lemma bswap64_bits (v i : Z) :
  0 <= i < 64 ->
  Z.testbit (bswap64 v) i =
  match i / 8 with
  | 2 | 3 => false
  | 5 => Z.testbit v (i - 24) || Z.testbit v (i - 8)
  | _ => Z.testbit v (i mod 8 + 8 * (7 - i / 8))
  end.
Proof.
  intros Hi. unfold bswap64, u64. rewrite !Z.lor_spec.
  change (Z.land v 0x00000000000000ff) with (Z.land v (Z.shiftl 0xff 0)).
  mask8 0x000000000000ff00 8. mask8 0x0000000000ff0000 16. mask8 0x00000000ff000000 24.
  mask8 0x000000ff00000000 32. mask8 0x0000ff0000000000 40.
  mask8 0x00ff000000000000 48. mask8 0xff00000000000000 56.
  rewrite !testbit_moved_left, !testbit_moved_right by lia.
  assert (exists q, 0 <= q < 8 /\ i / 8 = q /\ 8 * q <= i < 8 * q + 8) as (q & Hq & Hd & Hr)
    by (exists (i / 8); dlia).
  rewrite Hd.
  assert (q = 0 \/ q = 1 \/ q = 2 \/ q = 3 \/ q = 4 \/ q = 5 \/ q = 6 \/ q = 7) as Hqs by lia.
  destruct Hqs as [->|[->|[->|[->|[->|[->|[->| ->]]]]]]];
    decide_ranges; try done; f_equal; dlia.
Qed.

(** Bytes agree when their bits do. *)
Lemma byte_at_ext (x y i j : Z) :
  0 <= i -> 0 <= j ->
  (forall k, 0 <= k < 8 -> Z.testbit x (8 * i + k) = Z.testbit y (8 * j + k)) ->
  byte_at i x = byte_at j y.
Proof.
  intros Hi Hj Hk. pose proof (byte_at_range i x). pose proof (byte_at_range j y).
  apply (eq_by_bits 8); try done. intros k Hr. rewrite !testbit_byte_at by lia. auto.
Qed.

(** ** Theorems *)

Theorem bswap32_reverses_bytes (v i : Z) (Hi : 0 <= i < 4) :
  byte_at i (bswap32 v) = byte_at (3 - i) v.
Proof.
  apply byte_at_ext; [lia..|]. intros k Hk. rewrite bswap32_bits by lia. f_equal. dlia.
Qed.

Theorem bswap_involutive (v16 v32 : Z) (H16 : is_u16 v16) (H32 : is_u32 v32) :
  bswap16 (bswap16 v16) = v16 /\ bswap32 (bswap32 v32) = v32.
Proof.
  split.
  - apply (eq_by_bits 16); [lia|apply mod_bound; lia|done|].
    intros i Hi. rewrite !bswap16_bits by dlia. f_equal. dlia.
  - apply (eq_by_bits 32); [lia|apply bswap32_range|done|].
    intros i Hi. rewrite !bswap32_bits by dlia. f_equal. dlia.
Qed.

(** The two halves of a 64-bit syscall argument are split and joined without loss. *)
Theorem join_split_roundtrip (x1 x2 y : Z) (H1 : is_u32 x1) (H2 : is_u32 x2) (Hy : is_u64 y) :
  split64to32 (join32to64 x1 x2) = (x1, x2) /\
  join32to64 (split64to32 y).1 (split64to32 y).2 = y.
Proof.
  assert (forall a b, is_u32 a -> is_u32 b -> join32to64 a b = a * 2 ^ 32 + b) as Hjoin.
  { intros a b Ha Hb. unfold join32to64, u64, is_u32 in *.
    rewrite Z.shiftl_mul_pow2, Z.mod_small by lia.
    rewrite Z.add_nocarry_lxor, Z.lxor_lor; [done| |].
    all: apply Z.bits_inj_0; intros n; rewrite Z.land_spec.
    all: destruct (decide (n < 32)).
    1,3: rewrite Z.mul_pow2_bits_low by lia; done.
    all: rewrite (testbit_high 32 b) by lia; apply andb_false_r. }
  assert (forall z, is_u64 z -> split64to32 z = (z / 2 ^ 32, z mod 2 ^ 32)) as Hsplit.
  { intros z Hz. unfold split64to32, u32, is_u64 in *.
    change 0xffffffff with (Z.ones 32). rewrite Z.land_ones, Z.shiftr_div_pow2 by lia.
    f_equal. apply Z.mod_small. dlia. }
  unfold is_u32, is_u64 in *. split.
  - rewrite Hjoin, Hsplit by (unfold is_u32, is_u64; lia). f_equal; dlia.
  - rewrite Hsplit by done. simpl. rewrite Hjoin by (unfold is_u32; dlia). dlia.
Qed.

(** [bswap64] drops one byte of its operand, clears two bytes of its result
    and merges two others: it does not reverse the byte order. *)
Theorem bswap64_defect (v : Z) :
  byte_at 3 (bswap64 v) = 0 /\ byte_at 2 (bswap64 v) = 0 /\
  byte_at 5 (bswap64 v) = Z.lor (byte_at 2 v) (byte_at 4 v) /\
  byte_at 0 (bswap64 v) = byte_at 7 v /\ byte_at 1 (bswap64 v) = byte_at 6 v /\
  byte_at 4 (bswap64 v) = byte_at 3 v /\ byte_at 6 (bswap64 v) = byte_at 1 v /\
  byte_at 7 (bswap64 v) = byte_at 0 v.
Proof.
  assert (forall j k, 0 <= j -> 0 <= k < 8 -> (8 * j + k) / 8 = j) as Hd by (intros; dlia).
  split_and!.
  1,2: apply (eq_by_bits 8); [lia|apply byte_at_range|lia|];
    intros k Hk; rewrite testbit_byte_at, bswap64_bits, Hd, Z.bits_0 by lia; done.
  { apply (eq_by_bits 8); [lia|apply byte_at_range| |].
    { apply lor_bound; [lia|apply byte_at_range..]. }
    intros k Hk. rewrite Z.lor_spec, !testbit_byte_at, bswap64_bits, Hd by lia.
    f_equal; f_equal; lia. }
  all: apply byte_at_ext; [lia..|]; intros k Hk; rewrite bswap64_bits, Hd by lia;
    f_equal; dlia.
Qed.

Lemma bswap32_reverses_bytes_witness :
  byte_at 1 (bswap32 0x11223344) = byte_at 2 0x11223344.
Proof. apply (bswap32_reverses_bytes 0x11223344 1). lia. Defined.

Lemma bswap_involutive_witness :
  bswap16 (bswap16 0xabcd) = 0xabcd /\ bswap32 (bswap32 0xdeadbeef) = 0xdeadbeef.
Proof. apply (bswap_involutive 0xabcd 0xdeadbeef); unfold is_u16, is_u32; lia. Defined.

Lemma join_split_roundtrip_witness :
  split64to32 (join32to64 1 2) = (1, 2) /\
  join32to64 (split64to32 0x100000002).1 (split64to32 0x100000002).2 = 0x100000002.
Proof. apply (join_split_roundtrip 1 2 0x100000002); unfold is_u32, is_u64; lia. Defined.

End Bswap.
