(* ===== verification/Arrays.v ===== *)
(** * Resizable pointer arrays: src/lib/array.c, src/include/array.h

    [Kmalloc] states what the array, queue and bitmap code relies on of
    [kmalloc]: a block at least as long as requested, or NULL.  [Array] is the
    array itself, over any such allocator. *)

From S2P Require Import Prelude.

(** What [kmalloc] promises its callers: [kmalloc_words n] is the initial
    (arbitrary) contents of the block returned for a request of [n] bytes, in
    4-byte words, or [None] for NULL. *)
Class Kmalloc := {
  kmalloc_words : Z -> option (list Z);
  kmalloc_size : forall n b, kmalloc_words n = Some b -> n <= 4 * zlen b
}.

Module Array.

(** [struct array]: [v] is the contents of the block the pointer refers to,
    [[]] when it is NULL. *)
Record array := mkArray { v : list Z; num : Z; max : Z }.

Definition set_v (x : list Z) (a : array) : array := mkArray x (num a) (max a).
Definition set_num (n : Z) (a : array) : array := mkArray (v a) n (max a).

Definition array_init : array := mkArray [] 0 0.

(** [array_cleanup]: assert emptiness, free and clear the vector. *)
Definition array_cleanup : M array unit :=
  let* n := gets num in
  KASSERT (n =? 0) ;;
  modify (set_v []).

(** [while (num > newmax) newmax = newmax ? newmax*2 : 4;] with fuel. *)
Fixpoint grow_loop (fuel : nat) (n newmax : Z) : option Z :=
  match fuel with
  | O => None
  | S f => if newmax <? n
           then grow_loop f n (if newmax =? 0 then 4 else u32 (newmax * 2))
           else Some newmax
  end.

Arguments grow_loop : simpl never.

Section Ops.
Context `{Kmalloc}.

(** The loop has run at most 32 rounds when it stops (see
    [grow_loop_terminates]); 64 rounds of fuel tell a stop from a hang. *)
Definition array_setsize (n : Z) : M array unit :=
  let* a := get in
  (if max a <? n then
     let* newmax := of_option Hung (grow_loop 64 n (max a)) in
     match kmalloc_words (u32 (newmax * 4)) with
     | None => err ENOMEM
     | Some newptr =>
         (* memcpy(newptr, a->v, a->num * sizeof( *a->v)) *)
         if (zlen newptr <? num a) || (zlen (v a) <? num a) then crashed Wild
         else modify (fun a => mkArray (zsplice newptr 0 (ztake (num a) (v a))) (num a) newmax)
     end
   else ret tt) ;;
  modify (set_num n).

Definition array_num : M array Z := gets num.

Definition array_get (index : Z) : M array Z :=
  let* a := get in
  KASSERT (index <? num a) ;;
  of_option Wild (zlookup (v a) index).

Definition array_set (index val : Z) : M array unit :=
  let* a := get in
  KASSERT (index <? num a) ;;
  if index <? zlen (v a) then modify (set_v (zinsert (v a) index val)) else crashed Wild.

(** Returns the index of the new element ( *index_ret). *)
Definition array_add (val : Z) : M array Z :=
  let* index := gets num in
  array_setsize (u32 (index + 1)) ;;
  let* a := get in
  if index <? zlen (v a)
  then modify (set_v (zinsert (v a) index val)) ;; ret index
  else crashed Wild.

Definition array_remove (index : Z) : M array unit :=
  let* a := get in
  KASSERT (num a <=? max a) ;;
  KASSERT (index <? num a) ;;
  let num_to_move := u32 (num a - u32 (index + 1)) in
  (if zlen (v a) <? index + 1 + num_to_move then crashed Wild
   else modify (set_v (zsplice (v a) index (ztake num_to_move (zdrop (index + 1) (v a)))))) ;;
  modify (fun a => set_num (u32 (num a - 1)) a).

End Ops.

(** ** Invariant and abstraction *)

(** Capacities are 0 or a power of two that a 32-bit count can reach. *)
Definition capacity_ok (m : Z) : Prop := m = 0 \/ exists k, 2 <= k <= 31 /\ m = 2 ^ k.

Definition array_wf (a : array) : Prop :=
  0 <= num a <= max a /\ max a <= zlen (v a) /\ capacity_ok (max a).

(** The sequence an array stands for. *)
Definition contents (a : array) : list Z := ztake (num a) (v a).

Lemma zlen_contents a : array_wf a -> zlen (contents a) = num a.
Proof. intros (?&?&_). apply zlen_ztake. lia. Qed.

(** ** The growth loop *)

Lemma pow2_mono a b : 0 <= a <= b -> 2 ^ a <= 2 ^ b.
Proof. intros. apply Z.pow_le_mono_r; lia. Qed.

Lemma grow_step k : 2 <= k < 31 -> u32 (2 ^ k * 2) = 2 ^ (k + 1).
Proof.
  intros. unfold u32. rewrite Z.mul_comm, <- Z.pow_succ_r by lia.
  rewrite Z.mod_small; [done|]. split; [lia|].
  apply Z.pow_lt_mono_r; lia.
Qed.

Lemma grow_loop_S (f : nat) (n m : Z) :
  grow_loop (S f) n m =
  if m <? n then grow_loop f n (if m =? 0 then 4 else u32 (m * 2)) else Some m.
Proof. done. Qed.

Lemma grow_loop_pow (f : nat) (n k : Z) :
  2 <= k <= 31 -> n <= 2 ^ 31 -> 31 - k < Z.of_nat f ->
  exists j, k <= j <= 31 /\ grow_loop f n (2 ^ k) = Some (2 ^ j) /\ n <= 2 ^ j /\
            (j = k \/ 2 ^ (j - 1) < n).
Proof.
  revert k. induction f as [|f IH]; intros k Hk Hn Hf; [lia|]. rewrite grow_loop_S.
  destruct (Z.ltb_spec (2 ^ k) n).
  - assert (k < 31). { destruct (decide (k = 31)); [subst; lia|lia]. }
    rewrite (proj2 (Z.eqb_neq (2 ^ k) 0)) by lia. rewrite grow_step by lia.
    destruct (IH (k + 1)) as (j & Hj & Hl & Hle & Hmin); [lia..|].
    exists j. split_and!; [lia|lia|done|done|]. right.
    destruct Hmin as [->|]; [by replace (k + 1 - 1) with k by lia|done].
  - exists k. split_and!; [lia..|done|done|by left].
Qed.

(** For a request of at most 2^31 elements the loop stops, at a capacity
    that holds them and is at most twice what was needed. *)
Lemma grow_loop_stops (n m : Z) :
  capacity_ok m -> n <= 2 ^ 31 ->
  exists m', grow_loop 64 n m = Some m' /\ capacity_ok m' /\ n <= m' /\
             (m' = m \/ m' <= 4 \/ m' < 2 * n).
Proof.
  intros [->|(k & Hk & ->)] Hn.
  - rewrite (grow_loop_S 63). simpl (if _ =? _ then _ else _).
    destruct (Z.ltb_spec 0 n).
    + change 4 with (2 ^ 2) at 1.
      destruct (grow_loop_pow 63 n 2) as (j & Hj & -> & ? & Hm); [lia..|].
      eexists. split_and!; [done| |done|].
      * right. exists j. split; [lia|done].
      * right. destruct Hm as [->|Hm]; [by left|right].
        replace (2 ^ j) with (2 * 2 ^ (j - 1)); [lia|].
        rewrite <- Z.pow_succ_r by lia. f_equal. lia.
    + exists 0. split_and!; [done|by left|lia|by left].
  - destruct (grow_loop_pow 64 n k) as (j & Hj & -> & ? & Hm); [lia..|].
    eexists. split_and!; [done|right; exists j; split; [lia|done]|done|].
    destruct Hm as [->|Hm]; [by left|right; right].
    replace (2 ^ j) with (2 * 2 ^ (j - 1)); [lia|].
    rewrite <- Z.pow_succ_r by lia. f_equal. lia.
Qed.

(** Beyond 2^31 the doubling wraps to 0 and starts over. *)
Lemma grow_loop_hangs (f : nat) (n m : Z) :
  capacity_ok m -> 2 ^ 31 < n -> grow_loop f n m = None.
Proof.
  revert m. induction f as [|f IH]; intros m Hm Hn; [done|]. rewrite grow_loop_S.
  assert (m <= 2 ^ 31) as Hle.
  { destruct Hm as [->|(k & ? & ->)]; [lia|apply pow2_mono; lia]. }
  rewrite (proj2 (Z.ltb_lt _ _)) by lia. apply IH; [|done].
  destruct Hm as [->|(k & ? & ->)]; [right; by exists 2|].
  rewrite (proj2 (Z.eqb_neq (2 ^ k) 0)) by lia.
  destruct (decide (k = 31)) as [->|]; [by left|].
  right. exists (k + 1). split; [lia|]. apply grow_step. lia.
Qed.

(** The doubling loop of array_setsize ends with a sufficient capacity up to 2^31 elements and never ends above. *)
Theorem grow_loop_terminates (n m : Z) (Hm : capacity_ok m) :
  (n <= 2 ^ 31 -> exists m', grow_loop 64 n m = Some m' /\ n <= m' /\ capacity_ok m') /\
  (2 ^ 31 < n -> forall fuel, grow_loop fuel n m = None).
Proof.
  split.
  - intros Hn. destruct (grow_loop_stops n m Hm Hn) as (m' & ? & ? & ? & _). eauto.
  - intros Hn fuel. by apply grow_loop_hangs.
Qed.

Lemma grow_loop_terminates_witness :
  (5 <= 2 ^ 31 -> exists m', grow_loop 64 5 0 = Some m' /\ 5 <= m' /\ capacity_ok m') /\
  (2 ^ 31 < 5 -> forall fuel, grow_loop fuel 5 0 = None).
Proof. apply (grow_loop_terminates 5 0). by left. Defined.

(** ** Operations refine the sequence *)

Section Specs.
Context `{Kmalloc}.

(** Growing the block keeps the elements. *)
Lemma contents_grow (b : list Z) a :
  array_wf a -> num a <= zlen b -> ztake (num a) (zsplice b 0 (contents a)) = contents a.
Proof.
  intros Hwf Hb. pose proof (zlen_contents a Hwf) as Hc. unfold zsplice, ztake at 2.
  simpl. unfold ztake. rewrite take_app_le by (unfold zlen in *; lia).
  apply take_ge. unfold zlen in *. lia.
Qed.

Lemma array_setsize_spec (a : array) (n : Z) :
  array_wf a -> num a <= n <= 2 ^ 29 ->
  runs (array_setsize n a)
    (fun _ a' => array_wf a' /\ num a' = n /\ ztake (num a) (v a') = contents a)
    (fun e a' => e = ENOMEM /\ a' = a).
Proof.
  intros Hwf Hn. unfold array_setsize. runs_steps.
  destruct (Z.ltb_spec (max a) n) as [Hgt|Hle]; runs_steps.
  - pose proof Hwf as (Hnum & Hlen & Hcap).
    destruct (grow_loop_stops n (max a)) as (m' & Hg & Hcap' & Hle' & Hmin); [done|lia|].
    apply (runs_of_option _ _ m'); [done|].
    assert (m' <= 2 ^ 29) as Hm'.
    { destruct Hcap' as [->|(j & Hj & ->)]; [lia|].
      destruct Hmin as [?|[?|Hlt]]; [lia|lia|].
      destruct (decide (j <= 29)); [apply pow2_mono; lia|].
      assert (2 ^ 30 <= 2 ^ j) by (apply pow2_mono; lia). lia. }
    unfold u32. rewrite Z.mod_small by lia.
    destruct (kmalloc_words (m' * 4)) as [b|] eqn:Hb; [|done].
    pose proof (kmalloc_size _ _ Hb).
    assert (zlen (zsplice b 0 (contents a)) = zlen b) as Hz.
    { apply zlen_zsplice; [done|]. rewrite zlen_contents by done. lia. }
    rewrite (proj2 (Z.ltb_ge _ _)), (proj2 (Z.ltb_ge _ _)) by lia. simpl.
    runs_steps. split_and!; [|done|].
    + split_and!; simpl; [lia|lia| |done]. fold (contents a). rewrite Hz. lia.
    + apply contents_grow; [done|lia].
  - destruct Hwf as (?&?&?). split_and!; [split_and!; simpl; [lia..|done]|done|done].
Qed.

(** array_add appends one element, or fails with ENOMEM and changes nothing *)
Theorem array_add_spec (a : array) (x : Z) (Hwf : array_wf a) (Hn : num a < 2 ^ 29) :
  runs (array_add x a)
    (fun i a' => array_wf a' /\ i = num a /\ contents a' = contents a ++ [x])
    (fun e a' => e = ENOMEM /\ a' = a).
Proof.
  unfold array_add. runs_steps.
  pose proof Hwf as (Hnum & Hlen & _).
  unfold u32. rewrite Z.mod_small by lia.
  eapply runs_mono; [apply array_setsize_spec; [done|lia]| |by auto].
  intros _ a' (Hwf' & Hn' & Hc). runs_steps.
  pose proof Hwf' as (Hnum' & Hlen' & Hcap').
  rewrite (proj2 (Z.ltb_lt _ _)) by lia. runs_steps. split_and!; [|done|].
  - unfold array_wf. simpl. rewrite zlen_zinsert. done.
  - unfold contents at 1. simpl. rewrite Hn', ztake_add by lia. f_equal.
    + rewrite <- Hc. apply zlist_eq.
      { rewrite !zlen_ztake; rewrite ?zlen_zinsert; lia. }
      intros i Hi. rewrite zlen_ztake in Hi by (rewrite zlen_zinsert; lia).
      rewrite !zlookup_ztake, zlookup_zinsert_ne by lia. done.
    + assert (zlen (zdrop (num a) (zinsert (v a') (num a) x)) = zlen (v a') - num a) as Hd
        by (rewrite zlen_zdrop; rewrite zlen_zinsert; lia).
      apply zlist_eq; [rewrite zlen_ztake by lia; done|].
      intros i Hi. rewrite zlen_ztake in Hi by lia. assert (i = 0) as -> by lia.
      rewrite zlookup_ztake, zlookup_zdrop, Z.add_0_r, zlookup_zinsert_eq by lia. done.
Qed.

Lemma array_get_spec (a : array) (i : Z) :
  array_wf a -> 0 <= i < num a ->
  returns (array_get i a) (fun x a' => a' = a /\ zlookup (contents a) i = Some x).
Proof.
  intros (Hnum & Hlen & _) Hi. unfold array_get. runs_steps.
  apply runs_KASSERT; [lia|].
  destruct (zlookup_is_Some (v a) i) as [x Hx]; [lia|]. rewrite Hx. simpl.
  split; [done|]. unfold contents. by rewrite zlookup_ztake by lia.
Qed.

Lemma array_set_spec (a : array) (i x : Z) :
  array_wf a -> 0 <= i < num a ->
  returns (array_set i x a)
    (fun _ a' => array_wf a' /\ num a' = num a /\ contents a' = zinsert (contents a) i x).
Proof.
  intros (Hnum & Hlen & Hcap) Hi. unfold array_set. runs_steps.
  apply runs_KASSERT; [lia|]. rewrite (proj2 (Z.ltb_lt _ _)) by lia. runs_steps.
  split_and!; [split_and!; simpl; rewrite ?zlen_zinsert; [lia..|done]|done|].
  unfold contents, set_v. simpl. apply zlist_eq.
  { rewrite zlen_zinsert, !zlen_ztake by (rewrite ?zlen_zinsert; lia). done. }
  intros j Hj. rewrite zlen_ztake in Hj by (rewrite ?zlen_zinsert; lia).
  rewrite zlookup_ztake, !zlookup_zinsert, zlookup_ztake by (rewrite ?zlen_ztake; lia). done.
Qed.

(** array_remove deletes one element and keeps the order of the others. *)
Theorem array_remove_spec (a : array) (i : Z) (Hwf : array_wf a) (Hi : 0 <= i < num a) :
  returns (array_remove i a)
    (fun _ a' => array_wf a' /\ max a' = max a /\
       contents a' = ztake i (contents a) ++ zdrop (i + 1) (contents a)).
Proof.
  destruct Hwf as (Hnum & Hlen & Hcap). unfold array_remove. runs_steps.
  apply runs_KASSERT; [lia|]. runs_steps. apply runs_KASSERT; [lia|]. runs_steps.
  assert (max a <= 2 ^ 31) as Hm31.
  { destruct Hcap as [->|(k & ? & ->)]; [lia|apply pow2_mono; lia]. }
  unfold u32. rewrite (Z.mod_small (i + 1)), (Z.mod_small (num a - (i + 1))) by lia.
  rewrite (proj2 (Z.ltb_ge _ _)) by lia. runs_steps.
  set (k := ztake (num a - (i + 1)) (zdrop (i + 1) (v a))).
  assert (zlen k = num a - (i + 1)) as Hk.
  { apply zlen_ztake. rewrite zlen_zdrop by lia. lia. }
  assert (zlen (zsplice (v a) i k) = zlen (v a)) as Hs by (apply zlen_zsplice; lia).
  simpl (num (set_v _ _)). rewrite Z.mod_small by lia.
  split_and!; [split_and!; simpl; rewrite ?Hs; [lia..|done]|done|].
  unfold contents. simpl. apply zlist_eq.
  { rewrite zlen_app, !zlen_ztake, zlen_zdrop; rewrite ?zlen_ztake, ?Hs by lia; lia. }
  intros j Hj. rewrite zlen_ztake in Hj by lia.
  rewrite zlookup_ztake, zlookup_zsplice by lia. case_bool_decide.
  - rewrite zlookup_app_r; rewrite !zlen_ztake by (rewrite ?zlen_ztake; lia); [|lia].
    unfold k. rewrite zlookup_ztake, !zlookup_zdrop, zlookup_ztake by lia. done.
  - rewrite zlookup_app_l, !zlookup_ztake by (rewrite ?zlen_ztake by (rewrite ?zlen_ztake; lia); lia).
    done.
Qed.
End Specs.

(** An allocator that always succeeds, for the witnesses. *)
Lemma zero_kmalloc_size (n : Z) (b : list Z) :
  Some (zrep (Z.max 0 n) 0) = Some b -> n <= 4 * zlen b.
Proof. intros [= <-]. rewrite zlen_zrep; lia. Qed.
#[local] Instance zero_kmalloc : Kmalloc :=
  {| kmalloc_words n := Some (zrep (Z.max 0 n) 0); kmalloc_size := zero_kmalloc_size |}.

Lemma array_add_spec_witness :
  runs (array_add 7 array_init)
    (fun i a' => array_wf a' /\ i = 0 /\ contents a' = [7])
    (fun e a' => e = ENOMEM /\ a' = array_init).
Proof.
  apply (array_add_spec array_init 7); [|done].
  split_and!; [done|done|done|by left].
Defined.

Lemma array_remove_spec_witness :
  returns (array_remove 1 (mkArray [5; 6; 7; 8] 3 4))
    (fun _ a' => array_wf a' /\ max a' = 4 /\ contents a' = [5; 7]).
Proof.
  apply (array_remove_spec (mkArray [5; 6; 7; 8] 3 4) 1); [|done].
  split_and!; [done|done|done|right; by exists 2].
Defined.

End Array.
