(* ===== verification/Bitmap.v ===== *)
(** * Fixed-size bit arrays: src/lib/bitmap.c

    [Bitmap] models the free-space map used by the file system, byte by byte
    as the code stores it.  The abstraction is the predicate [bit b i]. *)

From S2P Require Import Prelude.

Module Bitmap.

Definition BITS_PER_WORD : Z := 8.
Definition WORD_ALLBITS : Z := 0xff.

(** [struct bitmap]; [v] is the contents of the byte vector. *)
Record bitmap := mkBitmap { nbits : Z; v : list Z }.

Definition set_v (x : list Z) (b : bitmap) : bitmap := mkBitmap (nbits b) x.

(** [*ix] and [*mask]. *)
Definition bitmap_translate (bitno : Z) : Z * Z :=
  (bitno / BITS_PER_WORD, u8 (bit_mask (bitno mod BITS_PER_WORD))).

(** [b->v[ix] |= mask] and [b->v[ix] &= ~mask]. *)
Definition or_word (ix mask : Z) : M bitmap unit :=
  let* b := get in
  let* w := of_option Wild (zlookup (v b) ix) in
  modify (set_v (zinsert (v b) ix (Z.lor w mask))).
Definition clear_word (ix mask : Z) : M bitmap unit :=
  let* b := get in
  let* w := of_option Wild (zlookup (v b) ix) in
  modify (set_v (zinsert (v b) ix (Z.land w (Z.lnot mask)))).

(** [mem1], [mem2]: whether the two [kmalloc] calls succeed. *)
Definition bitmap_create (mem1 mem2 : bool) (n : Z) : outcome unit (option bitmap) :=
  let words := DIVROUNDUP n BITS_PER_WORD in
  if negb mem1 then Ret None tt
  else if negb mem2 then Ret None tt
  else
    let b := mkBitmap n (zrep words 0) in
    let fill : M bitmap unit :=
      if n / BITS_PER_WORD <? words then
        let ix := words - 1 in
        let overbits := u32 (n - ix * BITS_PER_WORD) in
        KASSERT (n / BITS_PER_WORD =? words - 1) ;;
        KASSERT ((0 <? overbits) && (overbits <? BITS_PER_WORD)) ;;
        for_ (Z.to_nat (BITS_PER_WORD - overbits)) overbits
             (fun j => or_word ix (u8 (bit_mask j)))
      else ret tt in
    match fill b with
    | Ret _ b' => Ret (Some b') tt
    | Err e _ => Err e tt
    | Crash c => Crash c
    end.

Definition bitmap_getdata (b : bitmap) : list Z := v b.

(** The inner loop: the first offset whose bit is clear. *)
Fixpoint find_clear (n : nat) (offset w : Z) : option Z :=
  match n with
  | O => None
  | S n' => if Z.land w (u8 (bit_mask offset)) =? 0 then Some offset
            else find_clear n' (offset + 1) w
  end.

(** The outer loop, over [n] words from [ix]. *)
Fixpoint alloc_scan (n : nat) (ix : Z) : M bitmap Z :=
  match n with
  | O => err ENOSPC
  | S n' =>
      let* b := get in
      let* w := of_option Wild (zlookup (v b) ix) in
      if w =? WORD_ALLBITS then alloc_scan n' (ix + 1)
      else match find_clear 8 0 w with
           | Some offset =>
               or_word ix (u8 (bit_mask offset)) ;;
               let index := u32 (u32 (ix * BITS_PER_WORD) + offset) in
               KASSERT (index <? nbits b) ;;
               ret index
           | None => panic   (* KASSERT(0) *)
           end
  end.

Definition bitmap_alloc : M bitmap Z :=
  let* b := get in
  alloc_scan (Z.to_nat (DIVROUNDUP (nbits b) BITS_PER_WORD)) 0.

Definition bitmap_mark (index : Z) : M bitmap unit :=
  let* b := get in
  KASSERT (index <? nbits b) ;;
  let '(ix, mask) := bitmap_translate index in
  let* w := of_option Wild (zlookup (v b) ix) in
  KASSERT (Z.land w mask =? 0) ;;
  or_word ix mask.

Definition bitmap_unmark (index : Z) : M bitmap unit :=
  let* b := get in
  KASSERT (index <? nbits b) ;;
  let '(ix, mask) := bitmap_translate index in
  let* w := of_option Wild (zlookup (v b) ix) in
  KASSERT (negb (Z.land w mask =? 0)) ;;
  clear_word ix mask.

(** The C truth value: zero or a nonzero mask. *)
Definition bitmap_isset (index : Z) : M bitmap Z :=
  let* b := get in
  let '(ix, mask) := bitmap_translate index in
  let* w := of_option Wild (zlookup (v b) ix) in
  ret (Z.land w mask).

Definition bitmap_destroy (b : bitmap) : unit := tt.

(** ** Invariant and abstraction *)

Definition bit (b : bitmap) (i : Z) : bool :=
  match zlookup (v b) (i / 8) with Some w => Z.testbit w (i mod 8) | None => false end.

(** Bits past [nbits] in the last byte read as in use. *)
Definition bitmap_wf (b : bitmap) : Prop :=
  0 <= nbits b <= 2 ^ 32 - 8 /\ zlen (v b) = (nbits b + 7) / 8 /\
  Forall is_u8 (v b) /\
  (forall i, nbits b <= i < 8 * zlen (v b) -> bit b i = true).

Lemma divroundup_8 n : 0 <= n <= 2 ^ 32 - 8 -> DIVROUNDUP n BITS_PER_WORD = (n + 7) / 8.
Proof.
  intros. unfold DIVROUNDUP, BITS_PER_WORD, u32.
  destruct (decide (n = 2 ^ 32 - 8)) as [->|]; [done|].
  rewrite (Z.mod_small (n + 8)), (Z.mod_small (n + 8 - 1)) by lia. f_equal. lia.
Qed.

(** The word that holds bit [i]. *)
Lemma wf_word b i :
  bitmap_wf b -> 0 <= i < 8 * zlen (v b) ->
  exists w, zlookup (v b) (i / 8) = Some w /\ is_u8 w /\ bit b i = Z.testbit w (i mod 8).
Proof.
  intros (_ & _ & Hw & _) Hi.
  destruct (zlookup_is_Some (v b) (i / 8)) as [w Hl]; [dlia|].
  exists w. split_and!; [done|by eapply Forall_zlookup|]. unfold bit. by rewrite Hl.
Qed.

Lemma wf_capacity b : bitmap_wf b -> nbits b <= 8 * zlen (v b).
Proof. intros (? & Hl & _). rewrite Hl. dlia. Qed.

(** Writing word [ix] changes the bits of that word only. *)
Lemma bit_write b ix w i :
  0 <= ix < zlen (v b) -> 0 <= i ->
  bit (set_v (zinsert (v b) ix w) b) i =
  if bool_decide (i / 8 = ix) then Z.testbit w (i mod 8) else bit b i.
Proof.
  intros Hix Hi. unfold bit. simpl. rewrite zlookup_zinsert by done.
  bool_case; bool_case; try lia; done.
Qed.

Lemma wf_write b ix w :
  bitmap_wf b -> 0 <= ix < zlen (v b) -> is_u8 w ->
  (forall i, nbits b <= i < 8 * zlen (v b) -> i / 8 = ix -> Z.testbit w (i mod 8) = true) ->
  bitmap_wf (set_v (zinsert (v b) ix w) b).
Proof.
  intros (Hn & Hl & Hw & Hp) Hix Hu Hpad. split_and!; simpl; [lia..| | |].
  - by rewrite zlen_zinsert.
  - auto with kernel.
  - rewrite zlen_zinsert. intros i Hi. rewrite bit_write by lia. bool_case; auto.
Qed.

(** Setting and clearing one bit [i], through its word. *)
Lemma set_bit_spec b i w :
  bitmap_wf b -> 0 <= i < 8 * zlen (v b) -> zlookup (v b) (i / 8) = Some w ->
  let b' := set_v (zinsert (v b) (i / 8) (Z.lor w (bit_mask (i mod 8)))) b in
  bitmap_wf b' /\ forall j, 0 <= j -> bit b' j = bool_decide (j = i) || bit b j.
Proof.
  intros Hwf Hi Hl b'. pose proof (zlookup_Some_range _ _ _ Hl) as Hr.
  assert (is_u8 w) as Hu by (destruct Hwf as (_&_&Hw&_); by eapply Forall_zlookup).
  assert (forall j, 0 <= j -> bit b' j = bool_decide (j = i) || bit b j) as Hbit.
  { intros j Hj. unfold b'. rewrite bit_write by done.
    destruct (bool_decide_reflect (j / 8 = i / 8)) as [He|He].
    - rewrite testbit_set by dlia.
      replace (bool_decide (j mod 8 = i mod 8)) with (bool_decide (j = i))
        by (apply bool_decide_ext; dlia).
      f_equal. unfold bit. by rewrite He, Hl.
    - rewrite bool_decide_false by (intros ->; done). done. }
  split; [|done]. apply wf_write; [done|done|apply set_range; [dlia|done]|].
  intros j Hj He. destruct Hwf as (?&?&_&Hp). specialize (Hp j Hj).
  rewrite testbit_set by dlia. unfold bit in Hp. rewrite He, Hl in Hp. rewrite Hp.
  apply orb_true_r.
Qed.

Lemma clear_bit_spec b i w :
  bitmap_wf b -> 0 <= i < nbits b -> zlookup (v b) (i / 8) = Some w ->
  let b' := set_v (zinsert (v b) (i / 8) (Z.land w (Z.lnot (bit_mask (i mod 8))))) b in
  bitmap_wf b' /\ forall j, 0 <= j -> bit b' j = negb (bool_decide (j = i)) && bit b j.
Proof.
  intros Hwf Hi Hl b'. pose proof (zlookup_Some_range _ _ _ Hl) as Hr.
  assert (is_u8 w) as Hu by (destruct Hwf as (_&_&Hw&_); by eapply Forall_zlookup).
  assert (forall j, 0 <= j -> bit b' j = negb (bool_decide (j = i)) && bit b j) as Hbit.
  { intros j Hj. unfold b'. rewrite bit_write by done.
    destruct (bool_decide_reflect (j / 8 = i / 8)) as [He|He].
    - rewrite testbit_clear by dlia.
      replace (bool_decide (j mod 8 = i mod 8)) with (bool_decide (j = i))
        by (apply bool_decide_ext; dlia).
      f_equal. unfold bit. by rewrite He, Hl.
    - rewrite bool_decide_false by (intros ->; done). done. }
  split; [|done]. apply wf_write; [done|done|apply clear_range; [dlia|lia|done]|].
  intros j Hj He. destruct Hwf as (?&?&_&Hp). specialize (Hp j Hj).
  rewrite testbit_clear by dlia. unfold bit in Hp. rewrite He, Hl in Hp.
  rewrite bool_decide_false by dlia. done.
Qed.

(** ** Allocation *)

Lemma find_clear_spec (n : nat) (off w : Z) :
  0 <= off -> off + Z.of_nat n <= 8 ->
  match find_clear n off w with
  | Some o => off <= o < off + Z.of_nat n /\ Z.testbit w o = false /\
              forall j, off <= j < o -> Z.testbit w j = true
  | None => forall j, off <= j < off + Z.of_nat n -> Z.testbit w j = true
  end.
Proof.
  revert off. induction n as [|n IH]; intros off Ho Hn; simpl; [intros; lia|].
  rewrite bit_mask_u8, land_mask_zero by lia.
  destruct (Z.testbit w off) eqn:Hb; simpl.
  - specialize (IH (off + 1) ltac:(lia) ltac:(lia)).
    destruct (find_clear n (off + 1) w) as [o|].
    + destruct IH as (Hr & Hf & Hall). split_and!; [lia..|done|].
      intros j Hj. destruct (decide (j = off)) as [->|]; [done|apply Hall; lia].
    + intros j Hj. destruct (decide (j = off)) as [->|]; [done|apply IH; lia].
  - split_and!; [lia..|done|]. intros; lia.
Qed.

(** A byte other than 0xff has a clear bit. *)
Lemma not_allbits w : is_u8 w -> w <> WORD_ALLBITS -> exists o, find_clear 8 0 w = Some o.
Proof.
  intros Hu Hne. pose proof (find_clear_spec 8 0 w ltac:(lia) ltac:(lia)) as Hs.
  destruct (find_clear 8 0 w) as [o|]; [by exists o|]. destruct Hne.
  apply (eq_by_bits 8); [lia|done|done|]. intros i Hi. rewrite Hs by lia.
  change WORD_ALLBITS with (Z.ones 8). by rewrite Z.ones_spec_low by lia.
Qed.

Lemma allbits_bit w i : w = WORD_ALLBITS -> 0 <= i < 8 -> Z.testbit w i = true.
Proof. intros -> ?. change WORD_ALLBITS with (Z.ones 8). by apply Z.ones_spec_low. Qed.

Definition alloc_post (b : bitmap) (i : Z) (b' : bitmap) : Prop :=
  0 <= i < nbits b /\ bit b i = false /\ (forall j, 0 <= j < i -> bit b j = true) /\
  bitmap_wf b' /\ nbits b' = nbits b /\
  (forall j, 0 <= j -> bit b' j = bool_decide (j = i) || bit b j).

Lemma alloc_scan_spec (n : nat) (ix : Z) (b : bitmap) :
  bitmap_wf b -> 0 <= ix -> ix + Z.of_nat n = zlen (v b) ->
  (forall j, 0 <= j < 8 * ix -> bit b j = true) ->
  runs (alloc_scan n ix b) (alloc_post b)
    (fun e b' => e = ENOSPC /\ b' = b /\ forall j, 0 <= j < nbits b -> bit b j = true).
Proof.
  intros Hwf. pose proof (wf_capacity b Hwf) as Hcap.
  revert ix. induction n as [|n IH]; intros ix Hix Hn Hpre.
  { simpl. split_and!; [done..|]. intros j Hj. apply Hpre. lia. }
  destruct (wf_word b (8 * ix) Hwf ltac:(lia)) as (w & Hw & Hu & _).
  replace (8 * ix / 8) with ix in Hw by dlia.
  assert (forall o, 0 <= o < 8 -> bit b (8 * ix + o) = Z.testbit w o) as Hbits.
  { intros o Ho. unfold bit. replace ((8 * ix + o) / 8) with ix by dlia.
    rewrite Hw. f_equal. dlia. }
  cbn [alloc_scan]. runs_steps. apply (runs_of_option _ _ w); [done|].
  destruct (Z.eqb_spec w WORD_ALLBITS) as [He|Hne].
  { apply IH; [lia..|]. intros j Hj. destruct (decide (j < 8 * ix)); [by auto with lia|].
    replace j with (8 * ix + (j - 8 * ix)) by lia. rewrite Hbits by lia.
    apply allbits_bit; [done|lia]. }
  destruct (not_allbits w Hu Hne) as [o Ho]. rewrite Ho.
  pose proof (find_clear_spec 8 0 w ltac:(lia) ltac:(lia)) as Hs. rewrite Ho in Hs.
  destruct Hs as (Hr & Hf & Hall). set (i := 8 * ix + o).
  assert (bit b i = false) as Hbi by (unfold i; rewrite Hbits by lia; done).
  assert (i < nbits b) as Hlt.
  { destruct (decide (i < nbits b)); [done|]. destruct Hwf as (_&_&_&Hp).
    rewrite Hp in Hbi by (unfold i; lia). done. }
  destruct Hwf as (Hnb & Hwf'). pose proof (conj Hnb Hwf') as Hwf.
  unfold or_word. runs_steps. apply (runs_of_option _ _ w); [done|]. runs_steps.
  rewrite bit_mask_u8 by lia.
  replace (u32 (u32 (ix * BITS_PER_WORD) + o)) with i
    by (unfold u32, BITS_PER_WORD, i in *; rewrite (Z.mod_small (ix * 8)), Z.mod_small; lia).
  apply runs_KASSERT; [lia|]. runs_steps.
  destruct (set_bit_spec b i w) as [Hwf2 Hb2]; [done|unfold i; lia| |].
  { unfold i. by replace ((8 * ix + o) / 8) with ix by dlia. }
  assert (i / 8 = ix /\ i mod 8 = o) as [Hq Hm] by (unfold i; dlia).
  rewrite Hq, Hm in *. unfold alloc_post. split_and!; try done; try (unfold i; lia).
  intros j Hj. destruct (decide (j < 8 * ix)); [apply Hpre; lia|].
  replace j with (8 * ix + (j - 8 * ix)) by lia. rewrite Hbits by (unfold i in *; lia).
  apply Hall. unfold i in *. lia.
Qed.

Lemma alloc_spec (b : bitmap) (Hwf : bitmap_wf b) :
  runs (bitmap_alloc b) (alloc_post b)
    (fun e b' => e = ENOSPC /\ b' = b /\ forall j, 0 <= j < nbits b -> bit b j = true).
Proof.
  unfold bitmap_alloc. runs_steps. pose proof Hwf as (Hn & Hl & _).
  rewrite divroundup_8 by done. apply alloc_scan_spec; [done|lia| |intros; lia].
  rewrite Hl. rewrite Z2Nat.id; dlia.
Qed.

(** [bitmap_alloc] hands out the lowest clear bit and sets just that
    bit; it fails with [ENOSPC], changing nothing, exactly when all bits are
    set. *)
Theorem bitmap_alloc_spec (b : bitmap) (Hwf : bitmap_wf b) :
  runs (bitmap_alloc b) (alloc_post b)
    (fun e b' => e = ENOSPC /\ b' = b /\ forall j, 0 <= j < nbits b -> bit b j = true).
Proof. by apply alloc_spec. Qed.

(** ** Marking and testing *)

Lemma isset_spec b i :
  bitmap_wf b -> 0 <= i < nbits b ->
  returns (bitmap_isset i b) (fun r b' => b' = b /\ negb (r =? 0) = bit b i).
Proof.
  intros Hwf Hi. pose proof (wf_capacity b Hwf).
  destruct (wf_word b i Hwf ltac:(lia)) as (w & Hw & _ & Hb).
  unfold bitmap_isset, bitmap_translate, BITS_PER_WORD. runs_steps.
  apply (runs_of_option _ _ w); [done|]. runs_steps. split; [done|].
  rewrite bit_mask_u8, land_mask_zero, negb_involutive by dlia. done.
Qed.

Lemma mark_spec b i :
  bitmap_wf b -> 0 <= i < nbits b -> bit b i = false ->
  returns (bitmap_mark i b) (fun _ b' => bitmap_wf b' /\ nbits b' = nbits b /\
    zlen (v b') = zlen (v b) /\
    forall j, 0 <= j -> bit b' j = bool_decide (j = i) || bit b j).
Proof.
  intros Hwf Hi Hf. pose proof (wf_capacity b Hwf).
  destruct (wf_word b i Hwf ltac:(lia)) as (w & Hw & _ & Hb).
  unfold bitmap_mark, bitmap_translate, or_word, BITS_PER_WORD. runs_steps.
  apply runs_KASSERT; [lia|]. runs_steps. apply (runs_of_option _ _ w); [done|]. runs_steps.
  rewrite bit_mask_u8, land_mask_zero by dlia.
  apply runs_KASSERT; [by rewrite <- Hb, Hf|]. runs_steps.
  apply (runs_of_option _ _ w); [done|]. runs_steps.
  destruct (set_bit_spec b i w) as [??]; [done|lia|done|].
  split_and!; try done. simpl. by rewrite zlen_zinsert.
Qed.

Lemma unmark_spec b i :
  bitmap_wf b -> 0 <= i < nbits b -> bit b i = true ->
  returns (bitmap_unmark i b) (fun _ b' => bitmap_wf b' /\ nbits b' = nbits b /\
    zlen (v b') = zlen (v b) /\
    forall j, 0 <= j -> bit b' j = negb (bool_decide (j = i)) && bit b j).
Proof.
  intros Hwf Hi Hf. pose proof (wf_capacity b Hwf).
  destruct (wf_word b i Hwf ltac:(lia)) as (w & Hw & _ & Hb).
  unfold bitmap_unmark, bitmap_translate, clear_word, BITS_PER_WORD. runs_steps.
  apply runs_KASSERT; [lia|]. runs_steps. apply (runs_of_option _ _ w); [done|]. runs_steps.
  rewrite bit_mask_u8, land_mask_zero by dlia.
  apply runs_KASSERT; [by rewrite <- Hb, Hf|]. runs_steps.
  apply (runs_of_option _ _ w); [done|]. runs_steps.
  destruct (clear_bit_spec b i w) as [??]; [done|lia|done|].
  split_and!; try done. simpl. by rewrite zlen_zinsert.
Qed.

(** Two well-formed bitmaps with the same bits are the same bytes. *)
Lemma bitmap_ext b b' :
  bitmap_wf b -> bitmap_wf b' -> nbits b = nbits b' ->
  (forall i, 0 <= i < 8 * zlen (v b) -> bit b i = bit b' i) -> b = b'.
Proof.
  intros Hwf Hwf' Hn Hb. destruct b as [n l], b' as [n' l']. simpl in *. subst n'.
  pose proof Hwf as (_ & Hl & _). pose proof Hwf' as (_ & Hl' & _). simpl in *.
  f_equal. apply zlist_eq; [lia|]. intros i Hi.
  destruct (wf_word _ (8 * i) Hwf ltac:(simpl; lia)) as (w & Hw & Hu & _).
  destruct (wf_word _ (8 * i) Hwf' ltac:(simpl; lia)) as (w' & Hw' & Hu' & _).
  simpl in *. replace (8 * i / 8) with i in * by dlia. rewrite Hw, Hw'. f_equal.
  apply (eq_by_bits 8); [lia|done|done|]. intros k Hk.
  specialize (Hb (8 * i + k) ltac:(lia)). unfold bit in Hb. simpl in Hb.
  replace ((8 * i + k) / 8) with i in Hb by dlia.
  replace ((8 * i + k) mod 8) with k in Hb by dlia. by rewrite Hw, Hw' in Hb.
Qed.

(** Marking a clear bit and unmarking it gives the bitmap back. *)
Theorem bitmap_mark_unmark_roundtrip (b : bitmap) (i : Z)
    (Hwf : bitmap_wf b) (Hi : 0 <= i < nbits b) (Hf : bit b i = false) :
  returns ((bitmap_mark i ;; bitmap_unmark i) b) (fun _ b' => b' = b).
Proof.
  apply runs_bind. eapply runs_mono; [by apply mark_spec| |done].
  intros _ b1 (Hwf1 & Hn1 & Hz1 & Hb1).
  assert (bit b1 i = true) as Hset by (rewrite Hb1, bool_decide_true by lia; done).
  eapply runs_mono; [apply unmark_spec; [done|lia|done]| |done].
  intros _ b2 (Hwf2 & Hn2 & Hz2 & Hb2). apply bitmap_ext; [done|done|lia|].
  intros j Hj. rewrite Hb2, Hb1 by lia. bool_case; subst; [by rewrite Hf|done].
Qed.

(** ** Creation *)

Lemma fill_spec (ix over : Z) (b : bitmap) :
  0 <= ix < zlen (v b) -> 0 < over < 8 -> Forall is_u8 (v b) ->
  returns (for_ (Z.to_nat (8 - over)) over (fun j => or_word ix (u8 (bit_mask j))) b)
    (fun _ b' => nbits b' = nbits b /\ zlen (v b') = zlen (v b) /\ Forall is_u8 (v b') /\
       forall i, 0 <= i ->
         bit b' i = bit b i || bool_decide (8 * ix + over <= i < 8 * ix + 8)).
Proof.
  intros Hix Hov Hu.
  set (I := fun (j : Z) (b' : bitmap) =>
    nbits b' = nbits b /\ zlen (v b') = zlen (v b) /\ Forall is_u8 (v b') /\
    forall i, 0 <= i -> bit b' i = bit b i || bool_decide (8 * ix + over <= i < 8 * ix + j)).
  eapply runs_mono; [apply (runs_for I (fun _ _ => False)) | |done].
  - split_and!; [done..|]. intros i Hi. rewrite bool_decide_false by lia. by rewrite orb_false_r.
  - intros j b' Hj (Hn & Hl & Hu' & Hb). unfold or_word. runs_steps.
    destruct (zlookup_is_Some (v b') ix) as [w Hw]; [lia|].
    apply (runs_of_option _ _ w); [done|]. runs_steps.
    rewrite bit_mask_u8 by lia.
    assert (is_u8 w) by (by eapply Forall_zlookup).
    split_and!; simpl; [done|by rewrite zlen_zinsert| |].
    { apply Forall_zinsert; [done|]. apply set_range; [lia|done]. }
    intros i Hi. rewrite bit_write by lia.
    destruct (bool_decide_reflect (i / 8 = ix)) as [He|He].
    + rewrite testbit_set by dlia.
      replace (Z.testbit w (i mod 8)) with (bit b' i) by (unfold bit; by rewrite He, Hw).
      rewrite Hb by done. rewrite orb_comm, <- orb_assoc. f_equal.
      repeat bool_case; try done; dlia.
    + rewrite Hb by done. f_equal. apply bool_decide_ext. dlia.
  - intros ? b' HI. cbv beta in HI. replace (over + Z.of_nat (Z.to_nat (8 - over))) with 8 in HI by lia.
    exact HI.
Qed.

Lemma bit_zero n i k : bit (mkBitmap n (zrep k 0)) i = false.
Proof.
  unfold bit. simpl. destruct (zlookup (zrep k 0) (i / 8)) as [w|] eqn:Hw; [|done].
  assert (w = 0) as ->; [|apply Z.bits_0].
  apply (Forall_zlookup (fun x => x = 0)) in Hw; [done|]. by apply Forall_zrep.
Qed.

Lemma create_spec (mem1 mem2 : bool) (n : Z) (Hn : 0 <= n <= 2 ^ 32 - 8) :
  returns (bitmap_create mem1 mem2 n)
    (fun o _ => match o with
       | Some b => mem1 = true /\ mem2 = true /\ bitmap_wf b /\ nbits b = n /\
                   forall i, 0 <= i < n -> bit b i = false
       | None => mem1 = false \/ mem2 = false
       end).
Proof.
  unfold bitmap_create. destruct mem1, mem2; simpl (negb _); cbv iota; try (simpl; tauto).
  rewrite divroundup_8 by done. unfold BITS_PER_WORD.
  set (words := (n + 7) / 8). set (b := mkBitmap n (zrep words 0)).
  assert (zlen (v b) = words) as Hlen by (apply zlen_zrep; unfold words; dlia).
  assert (Forall is_u8 (v b)) as Hu by (apply Forall_zrep; done).
  destruct (Z.ltb_spec (n / 8) words) as [Hlt|Hge].
  - assert (n / 8 = words - 1) as Hq by (unfold words in *; dlia).
    assert (u32 (n - (words - 1) * 8) = n mod 8) as Hov
      by (unfold u32; rewrite Z.mod_small; unfold words in *; dlia).
    rewrite Hov. assert (0 < n mod 8 < 8) as Hm by (unfold words in *; dlia).
    pose proof (fill_spec (words - 1) (n mod 8) b ltac:(unfold words in *; dlia) Hm Hu) as Hf.
    rewrite (proj2 (Z.eqb_eq _ _)), (proj2 (Z.ltb_lt 0 (n mod 8))),
      (proj2 (Z.ltb_lt (n mod 8) 8)) by lia.
    simpl (KASSERT _). unfold bind at 1 2, ret.
    destruct (for_ _ _ _ b) as [[] b'|e b'|c]; simpl in Hf |- *; [|done|done].
    destruct Hf as (Hn' & Hl' & Hu' & Hb'). change (zlen (zrep words 0)) with (zlen (v b)) in Hl'.
    split_and!; [done..| |done|].
    + split_and!; [lia..| |done|].
      * rewrite Hl', Hlen, Hn'. done.
      * rewrite Hl', Hlen, Hn'. intros i Hi. simpl in Hi. rewrite Hb' by lia.
        rewrite bool_decide_true by dlia. apply orb_true_r.
    + intros i Hi. rewrite Hb' by lia. rewrite bool_decide_false by dlia.
      unfold b. by rewrite bit_zero.
  - simpl. split_and!; [done..| |done|].
    + split_and!; simpl; [lia..|done|done|]. intros i Hi.
      change (zlen (zrep words 0)) with (zlen (v b)) in Hi. unfold words in *. dlia.
    + intros i Hi. apply bit_zero.
Qed.

(** [bitmap_create] makes a well-formed bitmap of [n] clear bits, or
    fails when an allocation does. *)
Theorem bitmap_create_spec (mem1 mem2 : bool) (n : Z) (Hn : 0 <= n <= 2 ^ 32 - 8) :
  returns (bitmap_create mem1 mem2 n)
    (fun o _ => match o with
       | Some b => mem1 = true /\ mem2 = true /\ bitmap_wf b /\ nbits b = n /\
                   forall i, 0 <= i < n -> bit b i = false
       | None => mem1 = false \/ mem2 = false
       end).
Proof. by apply create_spec. Qed.

(** ** Witnesses *)

Definition demo : bitmap := mkBitmap 10 [7; 0xfc].

Lemma bitmap_demo_wf : bitmap_wf demo.
Proof.
  split_and!; [done|done|done| |].
  - repeat constructor; done.
  - intros i Hi. assert (i = 10 \/ i = 11 \/ i = 12 \/ i = 13 \/ i = 14 \/ i = 15) as Hc
      by (unfold zlen in Hi; simpl in Hi; lia).
    by destruct Hc as [->|[->|[->|[->|[->| ->]]]]].
Defined.

Lemma bitmap_alloc_spec_witness :
  bitmap_alloc demo = Ret 3 (mkBitmap 10 [15; 0xfc]) /\
  runs (bitmap_alloc demo) (alloc_post demo)
    (fun e b' => e = ENOSPC /\ b' = demo /\ forall j, 0 <= j < nbits demo -> bit demo j = true).
Proof. split; [reflexivity|]. apply (bitmap_alloc_spec demo bitmap_demo_wf). Defined.

Lemma bitmap_mark_unmark_roundtrip_witness :
  returns ((bitmap_mark 5 ;; bitmap_unmark 5) demo) (fun _ b' => b' = demo).
Proof. apply (bitmap_mark_unmark_roundtrip demo 5 bitmap_demo_wf); [done|reflexivity]. Defined.

Lemma bitmap_create_spec_witness :
  returns (bitmap_create true true 10)
    (fun o _ => match o with
       | Some b => true = true /\ true = true /\ bitmap_wf b /\ nbits b = 10 /\
                   forall i, 0 <= i < 10 -> bit b i = false
       | None => true = false \/ true = false
       end).
Proof. apply (bitmap_create_spec true true 10). done. Defined.

End Bitmap.
