(* ===== verification/Queue.v ===== *)
(** * Growable ring buffers: src/lib/queue.c

    [Queue] models the queue of pointers, one field and one loop at a time,
    and shows that it refines a first-in first-out list. *)

From S2P Require Import Prelude Arrays.

Module Queue.

(** [struct queue]; [data] is the contents of the block [q->data]. *)
Record queue := mkQueue { size : Z; nextwrite : Z; nextread : Z; data : list Z }.

Definition set_data (d : list Z) (q : queue) := mkQueue (size q) (nextwrite q) (nextread q) d.
Definition set_nextwrite (w : Z) (q : queue) := mkQueue (size q) w (nextread q) (data q).
Definition set_nextread (r : Z) (q : queue) := mkQueue (size q) (nextwrite q) r (data q).

(** [(i + 1) % size], on [int]s. *)
Definition next (i sz : Z) : Z := Z.rem (s32 (i + 1)) sz.

(** [while (nsize < targetsize) { nsize *= 2; KASSERT(nsize > 0); }]; doubling
    an [int] 32 times gives 0, so 33 rounds always decide. *)
Fixpoint grow_size (fuel : nat) (nsize targetsize : Z) : M queue Z :=
  match fuel with
  | O => crashed Hung
  | S f => if nsize <? targetsize
           then let nsize := s32 (nsize * 2) in
                KASSERT (0 <? nsize) ;; grow_size f nsize targetsize
           else ret nsize
  end.
Arguments grow_size : simpl never.

(** [for (i = onr; i != onw; i = (i+1)%osize) { result = q_addtail(q, olddata[i]); ... }] *)
Fixpoint copy_loop (addtail : Z -> M queue unit) (fuel : nat) (i onw osize : Z)
    (olddata : list Z) : M queue unit :=
  match fuel with
  | O => crashed Hung
  | S f =>
      if i =? onw then ret tt
      else
        let* p := of_option Wild (zlookup olddata i) in
        let* result := try (addtail p) in
        KASSERT (match result with inl _ => true | inr _ => false end) ;;
        copy_loop addtail f (next i osize) onw osize olddata
  end.

Section Ops.
Context `{Kmalloc}.

(** [q_grow], over the [q_addtail] it calls back. *)
Definition q_grow (addtail : Z -> M queue unit) (targetsize : Z) : M queue unit :=
  let* q := get in
  let* nsize := grow_size 33 (size q) targetsize in
  match kmalloc_words (u32 (nsize * 4)) with
  | None => err ENOMEM
  | Some ndata =>
      modify (fun _ => mkQueue nsize 0 0 ndata) ;;
      copy_loop addtail (S (Z.to_nat (size q))) (nextread q) (nextwrite q) (size q) (data q)
  end.

(** [depth] bounds the nesting of [q_addtail] and [q_grow]; a copy into the
    grown ring never grows again ([addtail_room]), so 1 is enough. *)
Fixpoint q_addtail (depth : nat) (ptr : Z) : M queue unit :=
  let* q := get in
  KASSERT (0 <? size q) ;;
  (if next (nextwrite q) (size q) =? nextread q
   then q_grow (match depth with O => fun _ => crashed Hung | S d => q_addtail d end)
               (s32 (size q + 1))
   else ret tt) ;;
  let* q := get in
  let nextnext := next (nextwrite q) (size q) in
  (if (0 <=? nextwrite q) && (nextwrite q <? zlen (data q))
   then modify (set_data (zinsert (data q) (nextwrite q) ptr))
   else crashed Wild) ;;
  modify (set_nextwrite nextnext).

Definition q_create (sz : Z) : option queue :=
  match kmalloc_words 16 with
  | None => None
  | Some _ =>
      match kmalloc_words (u32 (sz * 4)) with
      | None => None
      | Some d => Some (mkQueue sz 0 0 d)
      end
  end.

Definition q_preallocate (sz : Z) : M queue unit :=
  let* q := get in
  KASSERT (0 <? size q) ;;
  if size q <? sz then q_grow (q_addtail 1) sz else ret tt.

End Ops.

Definition q_empty (q : queue) : bool := nextwrite q =? nextread q.

Definition q_remhead : M queue Z :=
  let* q := get in
  KASSERT (0 <? size q) ;;
  KASSERT (negb (q_empty q)) ;;
  let* x := of_option Wild (zlookup (data q) (nextread q)) in
  modify (set_nextread (next (nextread q) (size q))) ;;
  ret x.

Definition q_destroy : M queue unit :=
  let* q := get in KASSERT (q_empty q).

Definition q_getstart (q : queue) : Z := nextread q.
Definition q_getend (q : queue) : Z := nextwrite q.
Definition q_getsize (q : queue) : Z := size q.

Definition q_getguy (index : Z) : M queue Z :=
  let* q := get in
  KASSERT ((0 <=? index) && (index <? size q)) ;;
  of_option Wild (zlookup (data q) index).

Definition q_peek : M queue Z :=
  let* q := get in
  KASSERT (0 <? size q) ;;
  if q_empty q then ret 0 else of_option Wild (zlookup (data q) (nextread q)).

(** The counting loop of [q_len]. *)
Fixpoint len_loop (fuel : nat) (q : queue) (tmp count : Z) : option Z :=
  match fuel with
  | O => None
  | S f => if tmp =? nextwrite q then Some count
           else len_loop f q (next tmp (size q)) (s32 (count + 1))
  end.
Definition q_len (q : queue) : option Z := len_loop (S (Z.to_nat (size q))) q (nextread q) 0.

(** ** Invariant and abstraction *)

Definition queue_wf (q : queue) : Prop :=
  0 < size q < 2 ^ 31 /\ size q <= zlen (data q) /\
  0 <= nextread q < size q /\ 0 <= nextwrite q < size q.

Definition count (q : queue) : Z := (nextwrite q - nextread q) mod size q.

(** The queued pointers, oldest first. *)
Definition contents (q : queue) : list Z :=
  (fun k => default 0 (zlookup (data q) ((nextread q + k) mod size q))) <$> seqZ 0 (count q).

(** ** Ring arithmetic *)

Lemma mod_cases a n :
  0 < n -> - n <= a < 2 * n ->
  (0 <= a < n /\ a mod n = a) \/ (a < 0 /\ a mod n = a + n) \/ (n <= a /\ a mod n = a - n).
Proof.
  intros. destruct (decide (a < 0)); [|destruct (decide (a < n))].
  - right; left. split; [done|]. symmetry. apply (Z.mod_unique_pos _ _ (-1)); lia.
  - left. split; [lia|]. apply Z.mod_small; lia.
  - right; right. split; [lia|]. symmetry. apply (Z.mod_unique_pos _ _ 1); lia.
Qed.

Lemma next_spec i n : 0 < n < 2 ^ 31 -> 0 <= i < n -> next i n = (i + 1) mod n.
Proof. intros. unfold next. rewrite s32_small by lia. apply Z.rem_mod_nonneg; lia. Qed.

(** [ring_lia] replaces ring indices, innermost first, by the cases [lia]
    understands. *)
Ltac ring_case a n :=
  lazymatch a with
  | context [_ mod _] => fail
  | _ => let H := fresh in
         destruct (mod_cases a n) as [[? H]|[[? H]|[? H]]]; [lia|lia|rewrite H in *; clear H..]
  end.
Ltac ring_lia :=
  unfold count in *; rewrite ?next_spec in * by lia;
  repeat match goal with
         | |- context [?a mod ?n] => ring_case a n
         | H : context [?a mod ?n] |- _ => ring_case a n
         end; try lia.

Lemma count_range q : queue_wf q -> 0 <= count q < size q.
Proof. intros (?&_). unfold count. apply Z.mod_pos_bound. lia. Qed.

Lemma zlen_qcontents q : queue_wf q -> zlen (contents q) = count q.
Proof.
  intros Hwf. pose proof (count_range q Hwf). unfold zlen, contents.
  rewrite length_fmap, length_seqZ. lia.
Qed.

Lemma zlookup_qcontents q k :
  queue_wf q -> 0 <= k < count q ->
  zlookup (contents q) k = zlookup (data q) ((nextread q + k) mod size q).
Proof.
  intros Hwf Hk. pose proof (count_range q Hwf). destruct Hwf as (Hs & Hd & Hr & Hw).
  unfold zlookup at 1, contents. rewrite bool_decide_true by lia.
  rewrite list_lookup_fmap, lookup_seqZ_lt by lia. simpl.
  replace (0 + Z.of_nat (Z.to_nat k)) with k by lia.
  destruct (zlookup_is_Some (data q) ((nextread q + k) mod size q)) as [x ->]; [|done].
  pose proof (Z.mod_pos_bound (nextread q + k) (size q)). lia.
Qed.

(** The contents determined position by position. *)
Lemma qcontents_eq q l :
  queue_wf q -> count q = zlen l ->
  (forall k, 0 <= k < zlen l -> zlookup (data q) ((nextread q + k) mod size q) = zlookup l k) ->
  contents q = l.
Proof.
  intros Hwf Hc Hl. apply zlist_eq; [by rewrite zlen_qcontents|].
  rewrite zlen_qcontents by done. intros k Hk. rewrite zlookup_qcontents by done. apply Hl. lia.
Qed.

Lemma empty_spec q : queue_wf q -> q_empty q = bool_decide (contents q = []).
Proof.
  intros Hwf. pose proof (zlen_qcontents q Hwf) as Hz. unfold q_empty.
  destruct Hwf as (?&?&?&?). destruct (contents q) as [|x l]; unfold zlen in Hz; simpl in Hz.
  - rewrite bool_decide_true by done. apply Z.eqb_eq. ring_lia.
  - rewrite bool_decide_false by done. apply Z.eqb_neq. ring_lia.
Qed.

(** ** Adding *)

(** Storing at [nextwrite] when there is room. *)
Definition push (p : Z) (q : queue) : queue :=
  mkQueue (size q) (next (nextwrite q) (size q)) (nextread q) (zinsert (data q) (nextwrite q) p).

Lemma push_spec p q :
  queue_wf q -> count q < size q - 1 ->
  queue_wf (push p q) /\ contents (push p q) = contents q ++ [p].
Proof.
  intros Hwf Hroom. pose proof (count_range q Hwf) as Hc. pose proof (zlen_qcontents q Hwf) as Hz.
  pose proof Hwf as (Hs & Hd & Hr & Hw).
  assert (queue_wf (push p q)) as Hwf'.
  { unfold queue_wf, push; simpl. rewrite zlen_zinsert. split_and!; [lia..| |].
    - ring_lia.
    - ring_lia. }
  assert (count (push p q) = count q + 1) as Hcnt.
  { unfold count, push in *; simpl in *. ring_lia. }
  split; [done|]. apply qcontents_eq; [done|rewrite zlen_app, Hz; done|].
  intros k Hk. rewrite zlen_app, Hz in Hk. unfold zlen in Hk. simpl in Hk.
  simpl (data _). simpl (nextread _). simpl (size _).
  assert (0 <= (nextread q + k) mod size q < size q) by (apply Z.mod_pos_bound; lia).
  destruct (decide (k < count q)).
  - rewrite zlookup_app_l, zlookup_qcontents by (done || lia).
    apply zlookup_zinsert_ne. ring_lia.
  - assert (k = count q) as -> by lia. rewrite zlookup_app_r by lia. rewrite Hz, Z.sub_diag.
    assert ((nextread q + count q) mod size q = nextwrite q) as ->.
    { unfold count. rewrite Z.add_mod_idemp_r by lia.
      replace (nextread q + (nextwrite q - nextread q)) with (nextwrite q) by lia.
      apply Z.mod_small. lia. }
    apply zlookup_zinsert_eq. lia.
Qed.

Section Proofs.
Context `{Kmalloc}.

(** Full exactly when advancing [nextwrite] would meet [nextread]. *)
Lemma full_iff q :
  queue_wf q -> (next (nextwrite q) (size q) =? nextread q) = bool_decide (count q = size q - 1).
Proof.
  intros (?&?&?&?). bool_case; bool_case; try done; exfalso; ring_lia.
Qed.

Lemma addtail_room depth p q :
  queue_wf q -> count q < size q - 1 -> q_addtail depth p q = Ret tt (push p q).
Proof.
  intros Hwf Hroom. pose proof (full_iff q Hwf) as Hfull.
  rewrite bool_decide_false in Hfull by lia. destruct Hwf as (Hs & Hd & Hr & Hw).
  destruct depth; cbn [q_addtail]; unfold bind at 1, get at 1, KASSERT;
    rewrite (proj2 (Z.ltb_lt 0 (size q))) by lia;
    unfold bind, ret, get; rewrite Hfull;
    rewrite (proj2 (Z.leb_le 0 (nextwrite q))), (proj2 (Z.ltb_lt (nextwrite q) _)) by lia; done.
Qed.

Lemma grow_size_S f a t q :
  grow_size (S f) a t q =
  (if a <? t then (KASSERT (0 <? s32 (a * 2)) ;; grow_size f (s32 (a * 2)) t) else ret a) q.
Proof. done. Qed.

Lemma grow_size_spec (f : nat) (a t : Z) q :
  0 < a < 2 ^ 31 -> t <= 2 ^ 30 -> t <= a * 2 ^ (Z.of_nat f - 1) -> (0 < f)%nat ->
  exists n, grow_size f a t q = Ret n q /\ a <= n /\ t <= n /\ (n = a \/ n < 2 * t).
Proof.
  revert a. induction f as [|f IH]; intros a Ha Ht Hf Hf0; [lia|].
  rewrite grow_size_S. destruct (Z.ltb_spec a t) as [Hlt|Hge].
  - rewrite s32_small by lia. unfold bind, KASSERT.
    rewrite (proj2 (Z.ltb_lt 0 (a * 2))) by lia. unfold ret at 1.
    destruct f as [|f]; [simpl in Hf; lia|].
    destruct (IH (a * 2)) as (n & Hn & H1 & H2 & H3); [lia|lia| |lia|].
    { replace (Z.of_nat (S (S f)) - 1) with (Z.succ (Z.of_nat (S f) - 1)) in Hf by lia.
      rewrite Z.pow_succ_r in Hf by lia. lia. }
    exists n. split_and!; [done|lia..].
  - exists a. split_and!; [done|lia|lia|by left].
Qed.

(** The copy loop moves the remaining [count] elements of the old ring. *)
Lemma copy_loop_spec q0 d (f : nat) (k : Z) q :
  queue_wf q0 -> queue_wf q -> size q0 < size q -> 0 <= k <= count q0 ->
  contents q = ztake k (contents q0) -> count q0 - k < Z.of_nat f ->
  returns (copy_loop (q_addtail d) f ((nextread q0 + k) mod size q0) (nextwrite q0) (size q0) (data q0) q)
    (fun _ q' => queue_wf q' /\ size q' = size q /\ contents q' = contents q0).
Proof.
  intros Hwf0. pose proof (count_range q0 Hwf0) as Hc0. pose proof (zlen_qcontents q0 Hwf0) as Hz0.
  pose proof Hwf0 as (Hs & Hd & Hr & Hw).
  revert k q. induction f as [|f IH]; intros k q Hwf Hsz Hk Hcont Hf; [lia|].
  cbn [copy_loop]. destruct (decide (k = count q0)) as [->|Hne].
  { assert ((nextread q0 + count q0) mod size q0 = nextwrite q0) as ->.
    { unfold count. rewrite Z.add_mod_idemp_r by lia.
      replace (nextread q0 + (nextwrite q0 - nextread q0)) with (nextwrite q0) by lia.
      apply Z.mod_small. lia. }
    rewrite Z.eqb_refl. runs_steps. rewrite ztake_all in Hcont by lia. done. }
  assert (((nextread q0 + k) mod size q0 =? nextwrite q0) = false) as ->.
  { apply Z.eqb_neq. ring_lia. }
  destruct (zlookup_is_Some (contents q0) k) as [p Hp]; [lia|].
  runs_steps. apply (runs_of_option _ _ p); [by rewrite <- zlookup_qcontents by (done || lia)|].
  runs_steps.
  assert (count q = k) as Hck by (rewrite <- zlen_qcontents, Hcont, zlen_ztake by (done || lia); done).
  destruct (push_spec p q) as [Hwf' Hc']; [done|lia|].
  rewrite addtail_room by (done || lia). runs_steps. apply runs_KASSERT; [done|].
  rewrite next_spec by (try apply Z.mod_pos_bound; lia).
  rewrite Z.add_mod_idemp_l by lia. rewrite <- Z.add_assoc.
  change (size q) with (size (push p q)).
  apply IH; [done|done|lia| |lia].
  rewrite Hc', Hcont, ztake_add by lia. f_equal.
  apply zlist_eq.
  - rewrite zlen_ztake; [done|]. rewrite zlen_zdrop by lia. lia.
  - intros i Hi. unfold zlen in Hi; simpl in Hi. assert (i = 0) as -> by lia.
    rewrite zlookup_ztake, zlookup_zdrop, Z.add_0_r by lia. by rewrite Hp.
Qed.

Lemma q_grow_spec d t q :
  queue_wf q -> size q < t <= 2 ^ 29 ->
  runs (q_grow (q_addtail d) t q)
    (fun _ q' => queue_wf q' /\ t <= size q' < 2 * t /\ contents q' = contents q)
    (fun e q' => e = ENOMEM /\ q' = q).
Proof.
  intros Hwf Ht. unfold q_grow. runs_steps. pose proof Hwf as (Hs & Hd & Hr & Hw).
  destruct (grow_size_spec 33 (size q) t q) as (n & Hn & H1 & H2 & H3); [lia|lia| |lia|].
  { change (2 ^ (Z.of_nat 33 - 1)) with 4294967296. lia. }
  rewrite Hn. runs_steps. unfold u32. rewrite Z.mod_small by lia.
  destruct (kmalloc_words (n * 4)) as [nd|] eqn:Hk; [|runs_steps; done].
  apply kmalloc_size in Hk. runs_steps.
  assert (queue_wf (mkQueue n 0 0 nd)) as Hwf1 by (unfold queue_wf; simpl; lia).
  pose proof (copy_loop_spec q d (S (Z.to_nat (size q))) 0 (mkQueue n 0 0 nd)) as Hcopy.
  pose proof (count_range q Hwf). rewrite Z.add_0_r, (Z.mod_small (nextread q)) in Hcopy by lia.
  eapply runs_mono; [apply Hcopy| |]; simpl; try (done || lia).
  intros _ q' (? & Hsz & ?). rewrite Hsz. split_and!; [done|lia..|done].
Qed.

Lemma q_addtail_spec p q :
  queue_wf q -> size q < 2 ^ 29 ->
  runs (q_addtail 1 p q)
    (fun _ q' => queue_wf q' /\ contents q' = contents q ++ [p] /\
       (size q' = size q \/ count q = size q - 1 /\ size q' < 2 * (count q + 2)))
    (fun e q' => e = ENOMEM /\ q' = q /\ zlen (contents q) = size q - 1).
Proof.
  intros Hwf Hb. pose proof (count_range q Hwf) as Hc.
  destruct (decide (count q < size q - 1)) as [Hroom|Hfull].
  { rewrite addtail_room by done. runs_steps. destruct (push_spec p q Hwf Hroom). auto. }
  pose proof (full_iff q Hwf) as Hiff. rewrite bool_decide_true in Hiff by lia.
  pose proof Hwf as (Hs & _). unfold q_addtail; fold q_addtail. runs_steps.
  apply runs_KASSERT; [lia|]. runs_steps. rewrite Hiff, s32_small by lia.
  eapply runs_mono; [apply (q_grow_spec 0); [done|lia]| |].
  - intros [] q1 (Hwf1 & Hsz & Hc1). simpl.
    pose proof (zlen_qcontents q1 Hwf1) as Hz1. rewrite Hc1, zlen_qcontents in Hz1 by done.
    assert (count q1 < size q1 - 1) as Hroom by lia.
    pose proof (push_spec p q1 Hwf1 Hroom) as [Hwf2 Hc2]. runs_steps.
    destruct Hwf1 as (?&?&?&?).
    rewrite (proj2 (Z.leb_le 0 (nextwrite q1))), (proj2 (Z.ltb_lt (nextwrite q1) _)) by lia.
    simpl. runs_steps. rewrite <- Hc1. split_and!; [done..|]. simpl. lia.
  - intros e q' [-> ->]. split_and!; [done..|]. rewrite zlen_qcontents by done. lia.
Qed.

Lemma q_preallocate_spec n q :
  queue_wf q -> n <= 2 ^ 29 ->
  runs (q_preallocate n q)
    (fun _ q' => queue_wf q' /\ contents q' = contents q /\ n <= size q')
    (fun e q' => e = ENOMEM /\ q' = q).
Proof.
  intros Hwf Hn. unfold q_preallocate. runs_steps. pose proof Hwf as (Hs & _).
  apply runs_KASSERT; [lia|]. destruct (Z.ltb_spec (size q) n); [|runs_steps; done].
  eapply runs_mono; [apply (q_grow_spec 1); [done|lia]| |done].
  intros _ q' (?&?&?). split_and!; [done..|lia].
Qed.
End Proofs.

(** ** Removing and measuring *)

Lemma q_remhead_spec q :
  queue_wf q ->
  q_remhead q = Crash Panicked /\ contents q = [] \/
  returns (q_remhead q) (fun x q' => queue_wf q' /\ contents q = x :: contents q' /\ size q' = size q).
Proof.
  intros Hwf. pose proof (empty_spec q Hwf) as He. pose proof (count_range q Hwf) as Hc.
  pose proof (zlen_qcontents q Hwf) as Hz. pose proof Hwf as (Hs & Hd & Hr & Hw).
  unfold q_remhead. destruct (contents q) as [|x l] eqn:Hcont.
  { left. split; [|done]. rewrite bool_decide_true in He by done.
    unfold bind, get, KASSERT. by rewrite (proj2 (Z.ltb_lt 0 (size q))), He by lia. }
  right. rewrite bool_decide_false in He by done. runs_steps. apply runs_KASSERT; [lia|].
  runs_steps. apply runs_KASSERT; [by rewrite He|]. runs_steps.
  assert (0 < count q) as Hpos by (rewrite <- Hz; unfold zlen; simpl; lia).
  assert (zlookup (data q) (nextread q) = Some x) as Hx.
  { pose proof (zlookup_qcontents q 0 Hwf ltac:(lia)) as H0. rewrite Hcont in H0.
    rewrite Z.add_0_r, Z.mod_small in H0 by lia. by rewrite <- H0. }
  apply (runs_of_option _ _ x); [done|]. runs_steps.
  set (q' := set_nextread (next (nextread q) (size q)) q).
  assert (queue_wf q') as Hwf'.
  { unfold queue_wf; simpl. pose proof (Z.mod_pos_bound (nextread q + 1) (size q) ltac:(lia)).
    rewrite next_spec by lia. lia. }
  assert (count q' = count q - 1) as Hcnt by (unfold q', count in *; simpl; ring_lia).
  split_and!; [done| |done]. f_equal. symmetry. apply qcontents_eq; [done| |].
  - unfold zlen in *; simpl in Hz. lia.
  - intros k Hk. assert (0 <= k + 1 < count q) as Hk' by (unfold zlen in *; simpl in Hz; lia).
    pose proof (zlookup_qcontents q (k + 1) Hwf Hk') as Hl. rewrite Hcont in Hl.
    change (x :: l) with ([x] ++ l) in Hl. rewrite zlookup_app_r in Hl by (unfold zlen; simpl; lia).
    replace (k + 1 - zlen [x]) with k in Hl by (unfold zlen; simpl; lia). rewrite Hl.
    simpl. rewrite next_spec, Z.add_mod_idemp_l by lia. do 2 f_equal. lia.
Qed.

Lemma len_loop_spec q (f : nat) k :
  queue_wf q -> 0 <= k <= count q -> count q - k < Z.of_nat f ->
  len_loop f q ((nextread q + k) mod size q) k = Some (count q).
Proof.
  intros Hwf. pose proof (count_range q Hwf) as Hc. pose proof Hwf as (Hs & Hd & Hr & Hw).
  revert k. induction f as [|f IH]; intros k Hk Hf; [lia|]. cbn [len_loop].
  destruct (Z.eqb_spec ((nextread q + k) mod size q) (nextwrite q)).
  - f_equal. ring_lia.
  - assert (k <> count q) by (intros ->; ring_lia).
    rewrite next_spec, Z.add_mod_idemp_l, s32_small by (try apply Z.mod_pos_bound; lia).
    rewrite <- Z.add_assoc. apply IH; lia.
Qed.

Lemma q_len_spec q : queue_wf q -> q_len q = Some (zlen (contents q)).
Proof.
  intros Hwf. pose proof (count_range q Hwf) as Hc. rewrite zlen_qcontents by done.
  unfold q_len. pose proof (len_loop_spec q (S (Z.to_nat (size q))) 0 Hwf) as Hl.
  destruct Hwf as (?&?&?&?). rewrite Z.add_0_r, Z.mod_small in Hl by lia. apply Hl; lia.
Qed.

(** ** Refinement of a first-in first-out list *)

Inductive op := Addtail (p : Z) | Remhead.

Section Refinement.
Context `{Kmalloc}.

(** A client's calls in order, stopping at the first error or panic; the
    values removed are collected. *)
Fixpoint run (ops : list op) : M queue (list Z) :=
  match ops with
  | [] => ret []
  | Addtail p :: ops => q_addtail 1 p ;; run ops
  | Remhead :: ops => let* x := q_remhead in let* xs := run ops in ret (x :: xs)
  end.

(** The same calls on a list; [None] for removing from an empty one. *)
Fixpoint fifo (ops : list op) (l : list Z) : option (list Z * list Z) :=
  match ops with
  | [] => Some ([], l)
  | Addtail p :: ops => fifo ops (l ++ [p])
  | Remhead :: ops =>
      match l with
      | [] => None
      | x :: l => match fifo ops l with Some (xs, l') => Some (x :: xs, l') | None => None end
      end
  end.

(** A ring is at most about twice as large as what it held when it last grew,
    so a bound on the elements bounds the ring. *)
Definition queue_bounded (q : queue) (more : Z) : Prop :=
  size q <= 2 ^ 28 /\ 2 * (zlen (contents q) + more + 2) <= 2 ^ 28.

Lemma run_refines (ops : list op) (q : queue) (xs l : list Z) :
  queue_wf q -> queue_bounded q (zlen ops) -> fifo ops (contents q) = Some (xs, l) ->
  runs (run ops q) (fun out q' => out = xs /\ queue_wf q' /\ contents q' = l)
    (fun e q' => e = ENOMEM /\ queue_wf q').
Proof.
  revert q xs. induction ops as [|o ops IH]; intros q xs Hwf [Hsz Hb] Hf; simpl in Hf |- *.
  { injection Hf as <- <-. done. }
  change (zlen (o :: ops)) with (Z.of_nat (S (length ops))) in Hb.
  rewrite Nat2Z.inj_succ in Hb. fold (zlen ops) in Hb. pose proof (zlen_qcontents q Hwf) as Hz.
  pose proof (zlen_nonneg ops). destruct o as [p|].
  - runs_step. eapply runs_mono; [apply q_addtail_spec; [done|lia]| |by intros e q' (-> & -> & _)].
    intros [] q' (Hwf' & Hc' & Hs'). apply IH; [done| |by rewrite Hc'].
    split; [lia|]. rewrite Hc', zlen_app. change (zlen [p]) with 1. lia.
  - destruct (q_remhead_spec q Hwf) as [[_ He]|Hrem]; [by rewrite He in Hf|].
    runs_step. eapply runs_mono; [exact Hrem| |done]. intros x q' (Hwf' & Hc' & Hs').
    rewrite Hc' in Hf. destruct (fifo ops (contents q')) as [[xs' l']|] eqn:Hf'; [|done].
    injection Hf as <- <-. runs_step. eapply runs_mono; [apply (IH q'); [done| |done]| |done].
    + split; [lia|]. rewrite Hc' in Hb. change (zlen (x :: contents q')) with (Z.of_nat (S (length (contents q')))) in Hb.
      rewrite Nat2Z.inj_succ in Hb. fold (zlen (contents q')) in Hb. lia.
    + intros out q'' (-> & ? & ?). runs_steps. done.
Qed.

(** Whatever a client adds and removes, the ring hands the pointers back in
    the order they were added, [q_len] counts those still queued, and the only
    possible failure is [ENOMEM], which leaves a well-formed queue. *)
Theorem queue_refines_fifo (ops : list op) (q : queue) (xs l : list Z)
    (Hwf : queue_wf q) (Hb : queue_bounded q (zlen ops))
    (Hf : fifo ops (contents q) = Some (xs, l)) :
  runs (run ops q)
    (fun out q' => out = xs /\ queue_wf q' /\ contents q' = l /\ q_len q' = Some (zlen l))
    (fun e q' => e = ENOMEM /\ queue_wf q').
Proof.
  eapply runs_mono; [by apply run_refines| |done].
  intros out q' (-> & Hwf' & <-). split_and!; try done. by apply q_len_spec.
Qed.

(** A queue of size [n] never holds [n] pointers: [q_getsize] is not the
    number of elements that can be queued. *)
Theorem queue_capacity (q : queue) (Hwf : queue_wf q) : zlen (contents q) < q_getsize q.
Proof. rewrite zlen_qcontents by done. unfold q_getsize. apply count_range in Hwf. lia. Qed.
End Refinement.

(** A full ring of four slots with its head past the wrap. *)
Definition demo : queue := mkQueue 4 1 2 [13; 99; 11; 12].

Lemma queue_demo_wf : queue_wf demo.
Proof. unfold queue_wf, demo, zlen. simpl. lia. Qed.

#[local] Existing Instance Array.zero_kmalloc.

Lemma queue_refines_fifo_witness :
  runs (run [Addtail 14; Remhead; Addtail 15; Remhead] demo)
    (fun out q' => out = [11; 12] /\ queue_wf q' /\ contents q' = [13; 14; 15] /\
                   q_len q' = Some (zlen [13; 14; 15]))
    (fun e q' => e = ENOMEM /\ queue_wf q').
Proof.
  apply (queue_refines_fifo _ demo [11; 12] [13; 14; 15] queue_demo_wf).
  - split; vm_compute; discriminate.
  - reflexivity.
Defined.

Lemma queue_capacity_witness : zlen (contents demo) < q_getsize demo.
Proof. exact (queue_capacity demo queue_demo_wf). Defined.

End Queue.
