(* ===== verification/Spl.v ===== *)
(** * Interrupt levels and spinlocks: src/thread/spl.c, src/thread/spinlock.c

    [Spl] models the interrupt priority fields of the running thread together
    with the interrupt-enable state of its processor, and the spinlocks that
    raise and lower it.  The main result is the accounting that the comment in
    spl.c promises: raises by spinlocks and by the spl calls may nest in any
    order, and interrupts are on exactly when nothing asked for them off. *)

From S2P Require Import Prelude.

Module Spl.

Definition IPL_NONE : Z := 0.
Definition IPL_HIGH : Z := 1.

(** [t_curspl] and [t_iplhigh_count] of the current thread, and whether the
    processor takes interrupts ([cpu_irqon]/[cpu_irqoff]). *)
Record ipl := mkIpl { t_curspl : Z; t_iplhigh_count : Z; irq_on : bool }.

Definition set_curspl (s : Z) (i : ipl) := mkIpl s (t_iplhigh_count i) (irq_on i).
Definition set_iplhigh_count (n : Z) (i : ipl) := mkIpl (t_curspl i) n (irq_on i).
Definition set_irq (b : bool) (i : ipl) := mkIpl (t_curspl i) (t_iplhigh_count i) b.

(** A processor is named by its number; [None] before [curcpu] exists. *)
Definition curcpu_exists (mycpu : option Z) : bool := bool_decide (mycpu <> None).

Definition splraise (mycpu : option Z) (oldspl newspl : Z) : M ipl unit :=
  KASSERT (oldspl =? IPL_NONE) ;;
  KASSERT (newspl =? IPL_HIGH) ;;
  if negb (curcpu_exists mycpu) then ret tt
  else
    let* cur := get in
    (if* t_iplhigh_count cur =? 0 then modify (set_irq false)) ;;
    modify (fun i => set_iplhigh_count (t_iplhigh_count i + 1) i).

Definition spllower (mycpu : option Z) (oldspl newspl : Z) : M ipl unit :=
  KASSERT (oldspl =? IPL_HIGH) ;;
  KASSERT (newspl =? IPL_NONE) ;;
  if negb (curcpu_exists mycpu) then ret tt
  else
    modify (fun i => set_iplhigh_count (t_iplhigh_count i - 1) i) ;;
    let* cur := get in
    if* t_iplhigh_count cur =? 0 then modify (set_irq true).

Definition splx (mycpu : option Z) (spl : Z) : M ipl Z :=
  let* cur := get in
  if t_curspl cur <? spl then
    splraise mycpu (t_curspl cur) spl ;;
    let* old := gets t_curspl in
    modify (set_curspl spl) ;;
    ret old
  else if spl <? t_curspl cur then
    let old := t_curspl cur in
    modify (set_curspl spl) ;;
    spllower mycpu old spl ;;
    ret old
  else ret spl.

Definition spl0 (mycpu : option Z) : M ipl Z := splx mycpu IPL_NONE.
Definition splhigh (mycpu : option Z) : M ipl Z := splx mycpu IPL_HIGH.

(** [struct spinlock]. *)
Record spinlock := mkSpinlock { lk_lock : Z; lk_holder : option Z }.

Definition spinlock_init : spinlock := mkSpinlock 0 None.

Definition spinlock_cleanup : M spinlock unit :=
  let* lk := get in
  KASSERT (bool_decide (lk_holder lk = None)) ;;
  KASSERT (lk_lock lk =? 0).

Definition on_ipl {A} (m : M ipl A) : M (ipl * spinlock) A := zoom fst (fun i s => (i, snd s)) m.
Definition set_lock (lk : spinlock) : M (ipl * spinlock) unit := modify (fun s => (fst s, lk)).

(** The caller runs on [mycpu]; a lock some other processor holds is waited
    for without end as far as the caller alone is concerned. *)
Definition spinlock_acquire (mycpu : option Z) : M (ipl * spinlock) unit :=
  on_ipl (splraise mycpu IPL_NONE IPL_HIGH) ;;
  let* lk := gets snd in
  (if* curcpu_exists mycpu && bool_decide (lk_holder lk = mycpu) then panic) ;;
  (* test-test-and-set *)
  (if* negb (lk_lock lk =? 0) then crashed Hung) ;;
  set_lock (mkSpinlock 1 (lk_holder lk)) ;;
  set_lock (mkSpinlock 1 mycpu).

Definition spinlock_release (mycpu : option Z) : M (ipl * spinlock) unit :=
  let* lk := gets snd in
  (if* curcpu_exists mycpu then KASSERT (bool_decide (lk_holder lk = mycpu))) ;;
  set_lock (mkSpinlock (lk_lock lk) None) ;;
  set_lock (mkSpinlock 0 None) ;;
  on_ipl (spllower mycpu IPL_HIGH IPL_NONE).

Definition spinlock_do_i_hold (mycpu : option Z) (lk : spinlock) : bool :=
  if negb (curcpu_exists mycpu) then true else bool_decide (lk_holder lk = mycpu).

(** ** A lock is free or held by a named processor *)

Definition free : spinlock := mkSpinlock 0 None.
Definition held_by (c : Z) : spinlock := mkSpinlock 1 (Some c).
Definition lock_wf (lk : spinlock) : Prop := lk = free \/ exists c, lk = held_by c.

(** [n] is how many spinlocks the thread holds.  Counted raises agree with
    the level and the locks, and interrupts are off while any is active. *)
Definition ipl_ok (n : Z) (i : ipl) : Prop :=
  0 <= n /\ (t_curspl i = IPL_NONE \/ t_curspl i = IPL_HIGH) /\
  t_iplhigh_count i = t_curspl i + n /\
  irq_on i = bool_decide (t_iplhigh_count i = 0).

Lemma ipl_ok_intro n s c b :
  0 <= n -> (s = IPL_NONE \/ s = IPL_HIGH) -> c = s + n -> b = bool_decide (c = 0) ->
  ipl_ok n (mkIpl s c b).
Proof. by intros. Qed.

(** Evaluate the level operations on a state whose level is a literal. *)
Ltac ipl_crush :=
  unfold splx, splraise, spllower, curcpu_exists, bind, KASSERT, ret, get, gets, modify,
    set_curspl, set_iplhigh_count, set_irq, IPL_NONE, IPL_HIGH in *; simpl;
  repeat (bool_case; simpl; try lia); split_and!; try done;
  apply ipl_ok_intro; unfold IPL_NONE, IPL_HIGH; try tauto; try lia;
  bool_case; first [done | exfalso; lia].

Lemma splraise_spec c n i :
  ipl_ok n i -> returns (splraise (Some c) IPL_NONE IPL_HIGH i)
    (fun _ i' => ipl_ok (n + 1) i' /\ t_curspl i' = t_curspl i).
Proof.
  destruct i as [cs cnt irq]. intros (Hn & Hs & Hc & Hi). simpl in *. subst cnt irq.
  destruct Hs as [-> | ->]; ipl_crush.
Qed.

Lemma spllower_spec c n i :
  ipl_ok (n + 1) i -> 0 <= n -> returns (spllower (Some c) IPL_HIGH IPL_NONE i)
    (fun _ i' => ipl_ok n i' /\ t_curspl i' = t_curspl i).
Proof.
  destruct i as [cs cnt irq]. intros (_ & Hs & Hc & Hi) Hn. simpl in *. subst cnt irq.
  destruct Hs as [-> | ->]; ipl_crush.
Qed.

(** [splx] sets the level, returns the old one and keeps the accounting. *)
Lemma splx_spec c n i s :
  ipl_ok n i -> s = IPL_NONE \/ s = IPL_HIGH ->
  returns (splx (Some c) s i)
    (fun old i' => old = t_curspl i /\ ipl_ok n i' /\ t_curspl i' = s).
Proof.
  destruct i as [cs cnt irq]. intros (Hn & Hs & Hc & Hi) Hs'. simpl in *. subst cnt irq.
  destruct Hs as [-> | ->], Hs' as [-> | ->]; ipl_crush.
Qed.

Lemma acquire_spec c n i :
  ipl_ok n i -> returns (spinlock_acquire (Some c) (i, free))
    (fun _ s => ipl_ok (n + 1) (fst s) /\ t_curspl (fst s) = t_curspl i /\ snd s = held_by c).
Proof.
  intros Hi. unfold spinlock_acquire, on_ipl. runs_steps. simpl fst.
  eapply runs_mono; [by apply splraise_spec| |done]. intros [] i' [Hi' Hs]. runs_steps. simpl. by runs_steps.
Qed.

Lemma release_spec c n i :
  ipl_ok (n + 1) i -> 0 <= n -> returns (spinlock_release (Some c) (i, held_by c))
    (fun _ s => ipl_ok n (fst s) /\ t_curspl (fst s) = t_curspl i /\ snd s = free).
Proof.
  intros Hi Hn. unfold spinlock_release, on_ipl. runs_steps.
  apply runs_KASSERT; [by rewrite bool_decide_true|]. unfold set_lock. runs_steps. simpl fst.
  eapply runs_mono; [by apply spllower_spec| |done]. by intros [] i' [Hi' Hs].
Qed.

(** ** Any nesting of locks and levels *)

Inductive event := Acquire (k : Z) | Release (k : Z) | Splx (s : Z).

#[global] Instance spinlock_eq_dec : EqDecision spinlock.
Proof. solve_decision. Defined.

Record machine := mkMachine { level : ipl; locks : gmap Z spinlock }.

(** One event of the thread running on processor [c]; locks that do not exist
    are wild. *)
Definition on_lock (k : Z) (m : M (ipl * spinlock) unit) : M machine unit :=
  fun s => match locks s !! k with
           | None => Crash Wild
           | Some lk => match m (level s, lk) with
                        | Ret a (i, lk') => Ret a (mkMachine i (<[k := lk']> (locks s)))
                        | Err e (i, lk') => Err e (mkMachine i (<[k := lk']> (locks s)))
                        | Crash x => Crash x
                        end
           end.

Definition do_event (c : Z) (e : event) : M machine unit :=
  match e with
  | Acquire k => on_lock k (spinlock_acquire (Some c))
  | Release k => on_lock k (spinlock_release (Some c))
  | Splx s => zoom level (fun i m => mkMachine i (locks m)) (splx (Some c) s) ;; ret tt
  end.

Fixpoint do_events (c : Z) (es : list event) : M machine unit :=
  match es with
  | [] => ret tt
  | e :: es => do_event c e ;; do_events c es
  end.

(** What a thread asked for: the locks it took and the level it set. *)
Definition asked : Type := gset Z * Z.

(** One event on that: only locks not yet held are taken, only held ones
    released, in any order. *)
Definition ask (e : event) (a : asked) : option asked :=
  match e with
  | Acquire k => if bool_decide (k ∈ fst a) then None else Some ({[k]} ∪ fst a, snd a)
  | Release k => if bool_decide (k ∈ fst a) then Some (fst a ∖ {[k]}, snd a) else None
  | Splx s => if (s =? IPL_NONE) || (s =? IPL_HIGH) then Some (fst a, s) else None
  end.
Fixpoint asks (es : list event) (a : asked) : option asked :=
  match es with [] => Some a | e :: es => match ask e a with Some a' => asks es a' | None => None end end.

(** The locks in [ks] belong to this thread's use: each is free or held by
    processor [c], on which the thread runs. *)
Definition accounts (c : Z) (ks : gset Z) (m : machine) (a : asked) : Prop :=
  fst a ⊆ ks /\
  (forall k, k ∈ ks -> locks m !! k = Some (if bool_decide (k ∈ fst a) then held_by c else free)) /\
  ipl_ok (Z.of_nat (size (fst a))) (level m) /\ t_curspl (level m) = snd a.

Lemma do_event_spec c ks e m a a' :
  accounts c ks m a -> ask e a = Some a' ->
  (forall k, e = Acquire k -> k ∈ ks) ->
  returns (do_event c e m) (fun _ m' => accounts c ks m' a').
Proof.
  intros (Hsub & Hl & Hok & Hspl) Hask Hk. destruct a as [h s], e as [k|k|s']; simpl in *.
  - case_bool_decide; [done|]. injection Hask as <-. unfold on_lock.
    rewrite Hl, bool_decide_false by auto.
    pose proof (acquire_spec c _ _ Hok) as Hacq.
    destruct (spinlock_acquire (Some c) (level m, free)) as [[] [i lk]|? [??]|]; try done.
    simpl in Hacq. destruct Hacq as (Hi & Hs & ->). simpl in *. split_and!; simpl.
    + specialize (Hk k eq_refl). set_solver.
    + intros j Hj. destruct (decide (j = k)) as [->|].
      * rewrite lookup_insert_eq, bool_decide_true by set_solver. done.
      * rewrite lookup_insert_ne, Hl by done. repeat bool_case; done || set_solver.
    + rewrite size_union, size_singleton by set_solver. by rewrite Nat2Z.inj_add, Z.add_comm.
    + congruence.
  - case_bool_decide; [|done]. injection Hask as <-. unfold on_lock.
    rewrite Hl, bool_decide_true by auto.
    assert (Z.of_nat (size h) = Z.of_nat (size (h ∖ {[k]})) + 1) as Hsz.
    { rewrite (union_difference_L {[k]} h) at 1 by set_solver.
      rewrite size_union, size_singleton by set_solver. lia. }
    rewrite Hsz in Hok. pose proof (release_spec c _ _ Hok ltac:(lia)) as Hrel.
    destruct (spinlock_release (Some c) (level m, held_by c)) as [[] [j lk]|? [??]|]; try done.
    simpl in Hrel. destruct Hrel as (Hi & Hs & ->). simpl in *. split_and!; simpl; [set_solver| |done|congruence].
    intros i Hi'. destruct (decide (i = k)) as [->|].
    + rewrite lookup_insert_eq, bool_decide_false by set_solver. done.
    + rewrite lookup_insert_ne, Hl by done. repeat bool_case; done || set_solver.
  - destruct (Z.eqb_spec s' IPL_NONE) as [He|], (Z.eqb_spec s' IPL_HIGH) as [He'|]; simplify_eq/=;
      runs_steps; (eapply runs_mono; [apply (splx_spec c _ _ _ Hok); auto| |done]);
      intros old i (_ & Hi & Hs); runs_steps; done.
Qed.

(** However a thread nests its spinlocks with each other and with the spl
    calls, it never deadlocks on itself or trips an assertion, its raises are
    counted exactly, and interrupts are on exactly when it holds no spinlock
    and has not raised the level. *)
Theorem spl_accounting (c : Z) (ks : gset Z) (es : list event) (m : machine) (a a' : asked)
    (Hacc : accounts c ks m a) (Hks : forall k, Acquire k ∈ es -> k ∈ ks)
    (Hasks : asks es a = Some a') :
  returns (do_events c es m) (fun _ m' =>
    accounts c ks m' a' /\
    t_iplhigh_count (level m') = snd a' + Z.of_nat (size (fst a')) /\
    irq_on (level m') = bool_decide (fst a' = ∅ /\ snd a' = IPL_NONE)).
Proof.
  revert m a Hacc Hasks. induction es as [|e es IH]; simpl; intros m a Hacc Hasks.
  - injection Hasks as <-. runs_steps. split; [done|].
    destruct Hacc as (_ & _ & (Hn & Hs & Hc & Hi) & Hspl). rewrite Hc, Hspl. split; [done|].
    rewrite Hi, Hc, Hspl. apply bool_decide_ext. rewrite <- leibniz_equiv_iff, <- size_empty_iff.
    rewrite Hspl in Hs. unfold IPL_NONE, IPL_HIGH in *. lia.
  - destruct (ask e a) as [a1|] eqn:Hask; [|done]. runs_steps.
    eapply runs_mono; [eapply do_event_spec; [done|done|]| |done].
    + intros k ->. apply Hks. by left.
    + intros [] m1 Hacc1. apply (IH ltac:(intros; apply Hks; by right) m1 a1); done.
Qed.

(** Taking a lock already held by this processor, or releasing one it does
    not hold, stops the kernel. *)
Theorem spinlock_misuse (c : Z) (i : ipl) (lk : spinlock) :
  (lk_holder lk = Some c -> spinlock_acquire (Some c) (i, lk) = Crash Panicked) /\
  (lk_holder lk <> Some c -> spinlock_release (Some c) (i, lk) = Crash Panicked).
Proof.
  split; intros Hh.
  - unfold spinlock_acquire, on_ipl, zoom, splraise, curcpu_exists, bind, KASSERT, get, gets, modify, ret; simpl.
    destruct (t_iplhigh_count i =? 0); simpl; by rewrite bool_decide_true.
  - unfold spinlock_release, curcpu_exists, bind, gets, KASSERT; simpl. by rewrite bool_decide_false.
Qed.

(** The red and blue locks of the comment in spl.c. *)
Definition demo : machine := mkMachine (mkIpl 0 0 true) {[1 := free; 2 := free]}.

Lemma spl_accounting_witness :
  returns (do_events 0 [Acquire 1; Splx 1; Acquire 2; Splx 0; Release 1; Release 2] demo)
    (fun _ m' => accounts 0 {[1; 2]} m' (∅, 0) /\
       t_iplhigh_count (level m') = 0 + Z.of_nat (size (∅ : gset Z)) /\
       irq_on (level m') = bool_decide ((∅ : gset Z) = ∅ /\ 0 = IPL_NONE)).
Proof.
  apply (spl_accounting 0 {[1; 2]} _ demo (∅, 0) (∅, 0)).
  - split_and!; [done| |apply ipl_ok_intro; [by vm_compute|by left|done|done]|done].
    intros k Hk. assert (k = 1 \/ k = 2) as [-> | ->] by set_solver; reflexivity.
  - intros k. rewrite !elem_of_cons, elem_of_nil.
    intros [|[|[|[|[|[|[]]]]]]]; simplify_eq; set_solver.
  - by vm_compute.
Defined.

End Spl.
