(* ===== verification/Threadlist.v ===== *)
(** * Doubly linked thread lists: src/thread/threadlist.c

    [Threadlist] models the list nodes as the code links them, through a
    store of nodes.  [rep h ls] says that the store [h] holds, for every list
    [l], the sequence of threads [ls !! l]; each operation is shown to act on
    that sequence and on nothing else. *)

From S2P Require Import Prelude.

Module Threadlist.

(** The lists of the thread system: the run queue and the zombies of each
    processor, the sleepers of each wait channel, and lists on a stack. *)
Inductive listid := RunQ (c : Z) | Zombies (c : Z) | WaitQ (w : Z) | Local (n : Z).

#[global] Instance listid_eq_dec : EqDecision listid.
Proof. solve_decision. Defined.
#[global] Instance listid_countable : Countable listid.
Proof.
  refine (inj_countable'
    (fun l => match l with
              | RunQ c => inl (inl c) | Zombies c => inl (inr c)
              | WaitQ w => inr (inl w) | Local n => inr (inr n) end)
    (fun s => match s with
              | inl (inl c) => RunQ c | inl (inr c) => Zombies c
              | inr (inl w) => WaitQ w | inr (inr n) => Local n end) _).
  by intros [].
Defined.

(** The address of a list node: the two bookends of list [l], or the node
    inside thread [t].  Thread 0 is the NULL thread. *)
Inductive nodeptr := NHead (l : listid) | NTail (l : listid) | NThread (t : Z).

#[global] Instance nodeptr_eq_dec : EqDecision nodeptr.
Proof. solve_decision. Defined.
#[global] Instance nodeptr_countable : Countable nodeptr.
Proof.
  refine (inj_countable'
    (fun p => match p with NHead l => inl (inl l) | NTail l => inl (inr l) | NThread t => inr t end)
    (fun s => match s with inl (inl l) => NHead l | inl (inr l) => NTail l | inr t => NThread t end) _).
  by intros [].
Defined.

(** [struct threadlistnode]; [None] is NULL. *)
Record node := mkNode {
  tln_prev : option nodeptr; tln_next : option nodeptr; tln_self : option Z }.

Definition with_prev (p : option nodeptr) (n : node) := mkNode p (tln_next n) (tln_self n).
Definition with_next (p : option nodeptr) (n : node) := mkNode (tln_prev n) p (tln_self n).

Record heap := mkHeap { nodes : gmap nodeptr node; tl_count : gmap listid Z }.

Definition get_node (p : nodeptr) : M heap node :=
  let* h := get in of_option Wild (nodes h !! p).
Definition upd_node (f : node -> node) (p : nodeptr) : M heap unit :=
  let* n := get_node p in modify (fun h => mkHeap (<[p := f n]> (nodes h)) (tl_count h)).
(** Follow a pointer that must not be NULL. *)
Definition deref (p : option nodeptr) : M heap nodeptr := of_option Wild p.
Definition add_count (l : listid) (d : Z) : M heap unit :=
  let* h := get in
  let* c := of_option Wild (tl_count h !! l) in
  modify (fun h => mkHeap (nodes h) (<[l := u32 (c + d)]> (tl_count h))).

Definition threadlistnode_init (t : Z) : M heap unit :=
  KASSERT (negb (t =? 0)) ;;
  modify (fun h => mkHeap (<[NThread t := mkNode None None (Some t)]> (nodes h)) (tl_count h)).

Definition threadlistnode_cleanup (t : Z) : M heap unit :=
  let* n := get_node (NThread t) in
  KASSERT (bool_decide (tln_next n = None)) ;;
  KASSERT (bool_decide (tln_prev n = None)) ;;
  KASSERT (bool_decide (tln_self n <> None)).

Definition threadlist_init (l : listid) : M heap unit :=
  modify (fun h => mkHeap
    (<[NHead l := mkNode None (Some (NTail l)) None]>
      (<[NTail l := mkNode (Some (NHead l)) None None]> (nodes h)))
    (<[l := 0]> (tl_count h))).

Definition threadlist_isempty (l : listid) : M heap bool :=
  let* h := get in
  let* c := of_option Wild (tl_count h !! l) in
  ret (c =? 0).

Definition threadlist_cleanup (l : listid) : M heap unit :=
  let* e := threadlist_isempty l in
  KASSERT e ;;
  let* h := get in
  let* c := of_option Wild (tl_count h !! l) in
  KASSERT (c =? 0).

Definition threadlist_insertafternode (onlist : nodeptr) (t : Z) : M heap unit :=
  let addee := NThread t in
  upd_node (with_prev (Some onlist)) addee ;;
  let* on := get_node onlist in
  upd_node (with_next (tln_next on)) addee ;;
  let* a := get_node addee in
  let* p := deref (tln_prev a) in
  upd_node (with_next (Some addee)) p ;;
  let* a := get_node addee in
  let* n := deref (tln_next a) in
  upd_node (with_prev (Some addee)) n.

Definition threadlist_insertbeforenode (t : Z) (onlist : nodeptr) : M heap unit :=
  let addee := NThread t in
  let* on := get_node onlist in
  upd_node (with_prev (tln_prev on)) addee ;;
  upd_node (with_next (Some onlist)) addee ;;
  let* a := get_node addee in
  let* p := deref (tln_prev a) in
  upd_node (with_next (Some addee)) p ;;
  let* a := get_node addee in
  let* n := deref (tln_next a) in
  upd_node (with_prev (Some addee)) n.

Definition threadlist_removenode (tln : nodeptr) : M heap unit :=
  let* n := get_node tln in
  let* p := deref (tln_prev n) in
  upd_node (with_next (tln_next n)) p ;;
  let* n := get_node tln in
  let* q := deref (tln_next n) in
  upd_node (with_prev (tln_prev n)) q ;;
  upd_node (with_prev None) tln ;;
  upd_node (with_next None) tln.

Definition threadlist_addhead (l : listid) (t : Z) : M heap unit :=
  threadlist_insertafternode (NHead l) t ;; add_count l 1.
Definition threadlist_addtail (l : listid) (t : Z) : M heap unit :=
  threadlist_insertbeforenode t (NTail l) ;; add_count l 1.

(** NULL is [None]. *)
Definition threadlist_remhead (l : listid) : M heap (option Z) :=
  let* h := get_node (NHead l) in
  let* tln := deref (tln_next h) in
  let* n := get_node tln in
  match tln_next n with
  | None => ret None
  | Some _ =>
      threadlist_removenode tln ;;
      add_count l (-1) ;;
      let* n := get_node tln in
      ret (tln_self n)
  end.

Definition threadlist_remtail (l : listid) : M heap (option Z) :=
  let* h := get_node (NTail l) in
  let* tln := deref (tln_prev h) in
  let* n := get_node tln in
  match tln_prev n with
  | None => ret None
  | Some _ =>
      threadlist_removenode tln ;;
      add_count l (-1) ;;
      let* n := get_node tln in
      ret (tln_self n)
  end.

Definition threadlist_insertafter (l : listid) (onlist addee : Z) : M heap unit :=
  threadlist_insertafternode (NThread onlist) addee ;; add_count l 1.
Definition threadlist_insertbefore (l : listid) (addee onlist : Z) : M heap unit :=
  threadlist_insertbeforenode addee (NThread onlist) ;; add_count l 1.
Definition threadlist_remove (l : listid) (t : Z) : M heap unit :=
  threadlist_removenode (NThread t) ;; add_count l (-1).

(** [THREADLIST_FORALL(itervar, tl)] collecting the threads it visits: the
    loop variable is a thread pointer, read through before it is tested. *)
Fixpoint forall_loop (fuel : nat) (itervar : option Z) : M heap (list Z) :=
  match fuel with
  | O => crashed Hung
  | S f =>
      let* t := of_option Wild itervar in
      let* n := get_node (NThread t) in
      match tln_next n with
      | None => ret []
      | Some nx =>
          let* nn := get_node nx in
          let* rest := forall_loop f (tln_self nn) in
          ret (t :: rest)
      end
  end.
Definition THREADLIST_FORALL (fuel : nat) (l : listid) : M heap (list Z) :=
  let* h := get_node (NHead l) in
  let* nx := deref (tln_next h) in
  let* n := get_node nx in
  forall_loop fuel (tln_self n).

(** ** Chains *)

(** [y] and [z] are neighbours in [c]. *)
Fixpoint adj (c : list nodeptr) (y z : nodeptr) : Prop :=
  match c with
  | [] => False
  | w :: c' => (y = w /\ head c' = Some z) \/ adj c' y z
  end.

Lemma adj_elem c y z : adj c y z -> y ∈ c /\ z ∈ tail c.
Proof.
  induction c as [|w c IH]; simpl; [done|]. intros [[-> Hh]|Ha].
  - split; [by left|]. destruct c; simplify_eq/=. by left.
  - destruct (IH Ha) as [Hy Hz]. split; [by right|]. destruct c; [done|]. by right.
Qed.

Lemma adj_split c1 a c2 y z :
  adj (c1 ++ a :: c2) y z <-> adj (c1 ++ [a]) y z \/ adj (a :: c2) y z.
Proof.
  induction c1 as [|w c1 IH]; simpl; [intuition discriminate|].
  assert (head (c1 ++ a :: c2) = head (c1 ++ [a])) as -> by by destruct c1.
  rewrite IH. simpl. tauto.
Qed.

Lemma adj_front c1 a y z : adj (c1 ++ [a]) y z -> y ∈ c1 /\ (z ∈ c1 \/ z = a).
Proof.
  induction c1 as [|w c1 IH]; simpl; [intros [[_ [=]]|[]]|]. intros [[-> Hh]|Ha].
  - split; [by left|]. destruct c1; simplify_eq/=; [by right|left; right; by left].
  - destruct (IH Ha) as [? [?| ->]]; split; try (by right); left; by right.
Qed.

(** Three consecutive elements of a duplicate-free chain. *)
Lemma nodup_mid (c1 : list nodeptr) a x b c2 :
  NoDup (c1 ++ a :: x :: b :: c2) ->
  ((a ∉ c1) /\ (x ∉ c1) /\ (b ∉ c1)) /\ (a <> x /\ a <> b /\ x <> b) /\
  ((a ∉ c2) /\ (x ∉ c2) /\ (b ∉ c2)).
Proof.
  intros (_ & Hd & H3)%NoDup_app. rewrite !NoDup_cons, !not_elem_of_cons in H3.
  split; [|tauto]. split_and!; intros Hin; apply (Hd _ Hin); rewrite !elem_of_cons; tauto.
Qed.

Lemma adj_insert c1 a x b c2 y z :
  NoDup (c1 ++ a :: x :: b :: c2) -> adj (c1 ++ a :: x :: b :: c2) y z ->
  (y = a /\ z = x) \/ (y = x /\ z = b) \/
  (adj (c1 ++ a :: b :: c2) y z /\ y <> a /\ y <> x /\ z <> x /\ z <> b).
Proof.
  intros ((?&?&?)&(?&?&?)&(?&?&?))%nodup_mid. rewrite (adj_split c1 a (x :: b :: c2)), (adj_split c1 a (b :: c2)). intros [Ha|Ha].
  - right; right. destruct (adj_front _ _ _ _ Ha) as [? Hz].
    split_and!; [by left|..]; destruct Hz; congruence.
  - destruct Ha as [[-> [= ->]]|[[-> [= ->]]|Ha]]; [by left|right; by left|]. right; right.
    destruct (adj_elem _ _ _ Ha) as [Hy Hz]. apply elem_of_cons in Hy. simpl in Hz.
    split_and!; [right; by right|..]; destruct Hy; congruence.
Qed.

Lemma adj_remove c1 a x b c2 y z :
  NoDup (c1 ++ a :: x :: b :: c2) -> adj (c1 ++ a :: b :: c2) y z ->
  (y = a /\ z = b) \/
  (adj (c1 ++ a :: x :: b :: c2) y z /\ y <> a /\ y <> x /\ z <> x /\ z <> b).
Proof.
  intros ((?&?&?)&(?&?&?)&(?&?&?))%nodup_mid. rewrite (adj_split c1 a (x :: b :: c2)), (adj_split c1 a (b :: c2)). intros [Ha|Ha].
  - right. destruct (adj_front _ _ _ _ Ha) as [? Hz].
    split_and!; [by left|..]; destruct Hz; congruence.
  - destruct Ha as [[-> [= ->]]|Ha]; [by left|]. right.
    destruct (adj_elem _ _ _ Ha) as [Hy Hz]. apply elem_of_cons in Hy. simpl in Hz.
    split_and!; [right; do 2 right; done|..]; destruct Hy; congruence.
Qed.

(** ** What a store represents *)

Definition nx (h : heap) (p : nodeptr) : option nodeptr := nodes h !! p ≫= tln_next.
Definition pv (h : heap) (p : nodeptr) : option nodeptr := nodes h !! p ≫= tln_prev.
Definition self (h : heap) (p : nodeptr) : option Z := nodes h !! p ≫= tln_self.

Definition chain (l : listid) (ts : list Z) : list nodeptr := NHead l :: (NThread <$> ts) ++ [NTail l].

Record is_list (h : heap) (l : listid) (ts : list Z) : Prop := {
  il_alloc : forall p, p ∈ chain l ts -> is_Some (nodes h !! p);
  il_adj : forall y z, adj (chain l ts) y z -> nx h y = Some z /\ pv h z = Some y;
  il_head : pv h (NHead l) = None /\ self h (NHead l) = None;
  il_tail : nx h (NTail l) = None /\ self h (NTail l) = None;
  il_count : tl_count h !! l = Some (zlen ts);
  il_nodup : NoDup ts;
  il_bound : zlen ts < 2 ^ 32 }.

Definition off_lists (ls : gmap listid (list Z)) (t : Z) : Prop :=
  forall l ts, ls !! l = Some ts -> t ∉ ts.

Record rep (h : heap) (ls : gmap listid (list Z)) : Prop := {
  rep_list : forall l ts, ls !! l = Some ts -> is_list h l ts;
  rep_disj : forall l1 l2 ts1 ts2 t,
    ls !! l1 = Some ts1 -> ls !! l2 = Some ts2 -> t ∈ ts1 -> t ∈ ts2 -> l1 = l2;
  rep_self : forall t, is_Some (nodes h !! NThread t) -> self h (NThread t) = Some t;
  rep_off : forall t, off_lists ls t -> pv h (NThread t) = None /\ nx h (NThread t) = None }.

Definition is_thread (h : heap) (t : Z) : Prop := is_Some (nodes h !! NThread t).

Lemma chain_nodup l ts : NoDup ts -> NoDup (chain l ts).
Proof.
  intros Hnd. apply NoDup_cons. split.
  - rewrite elem_of_app, list_elem_of_fmap, list_elem_of_singleton.
    intros [(t & Ht & _)|Ht]; discriminate.
  - apply NoDup_app. split_and!; [by apply NoDup_fmap_2; [intros ?? [=]|]| |apply NoDup_singleton].
    intros p (t & -> & _)%list_elem_of_fmap. by rewrite list_elem_of_singleton.
Qed.

(** The neighbours of a gap between [ts1] and [ts2] on list [l]. *)
Definition last_node (l : listid) (ts1 : list Z) : nodeptr :=
  match last ts1 with Some t => NThread t | None => NHead l end.
Definition first_node (l : listid) (ts2 : list Z) : nodeptr :=
  match head ts2 with Some t => NThread t | None => NTail l end.

Lemma chain_split l ts1 ts2 :
  exists c1 c2, forall mid,
    chain l (ts1 ++ mid ++ ts2) =
    c1 ++ last_node l ts1 :: (NThread <$> mid) ++ first_node l ts2 :: c2.
Proof.
  assert (exists c2, (NThread <$> ts2) ++ [NTail l] = first_node l ts2 :: c2) as [c2 Hc2].
  { destruct ts2; simpl; eauto. }
  assert (exists c1, NHead l :: (NThread <$> ts1) = c1 ++ [last_node l ts1]) as [c1 Hc1].
  { unfold last_node. induction ts1 as [|t ts1 _] using rev_ind; [by exists []|].
    rewrite last_snoc, fmap_app. by exists (NHead l :: (NThread <$> ts1)). }
  exists c1, c2. intros mid. unfold chain. rewrite !fmap_app, <- !app_assoc, Hc2.
  rewrite app_comm_cons, Hc1, <- app_assoc. done.
Qed.

Lemma last_node_cases l ts1 : last_node l ts1 = NHead l \/ exists t, t ∈ ts1 /\ last_node l ts1 = NThread t.
Proof.
  unfold last_node. destruct (last ts1) as [t|] eqn:Hl; [|by left]. right. exists t.
  split; [|done]. apply last_Some in Hl as [k ->]. apply elem_of_app. right. by left.
Qed.

Lemma first_node_cases l ts2 : first_node l ts2 = NTail l \/ exists t, t ∈ ts2 /\ first_node l ts2 = NThread t.
Proof. destruct ts2 as [|t ts2]; [by left|]. right. exists t. split; [by left|done]. Qed.

(** ** What the pointer surgery does *)

(** Nothing but links changed. *)
Definition same_shape (h h' : heap) : Prop :=
  (forall y, self h' y = self h y) /\
  (forall y, is_Some (nodes h' !! y) <-> is_Some (nodes h !! y)) /\
  tl_count h' = tl_count h.

Lemma same_shape_trans h1 h2 h3 : same_shape h1 h2 -> same_shape h2 h3 -> same_shape h1 h3.
Proof.
  intros (Hs & Ha & Hc) (Hs' & Ha' & Hc'). split_and!; [congruence| |congruence].
  intros y. by rewrite Ha', Ha.
Qed.

Lemma runs_get_node h p (Q : node -> heap -> Prop) R :
  is_Some (nodes h !! p) ->
  (forall n, tln_next n = nx h p -> tln_prev n = pv h p -> tln_self n = self h p -> Q n h) ->
  runs (get_node p h) Q R.
Proof.
  intros [n Hn] HQ. unfold get_node. runs_steps. apply (runs_of_option _ _ n); [done|].
  apply HQ; unfold nx, pv, self; by rewrite Hn.
Qed.

Lemma runs_upd_next h p q (Q : unit -> heap -> Prop) R :
  is_Some (nodes h !! p) ->
  (forall h', same_shape h h' -> (forall y, pv h' y = pv h y) ->
     (forall y, nx h' y = if decide (y = p) then q else nx h y) -> Q tt h') ->
  runs (upd_node (with_next q) p h) Q R.
Proof.
  intros [n Hn] HQ. unfold upd_node, get_node. runs_steps.
  apply (runs_of_option _ _ n); [done|]. runs_steps.
  apply HQ; [split_and!; [intros y|intros y|done]|intros y|intros y];
    unfold self, pv, nx; simpl; destruct (decide (y = p)) as [->|];
    rewrite ?lookup_insert_eq, ?lookup_insert_ne, ?Hn by done; try done; naive_solver.
Qed.

Lemma runs_upd_prev h p q (Q : unit -> heap -> Prop) R :
  is_Some (nodes h !! p) ->
  (forall h', same_shape h h' -> (forall y, nx h' y = nx h y) ->
     (forall y, pv h' y = if decide (y = p) then q else pv h y) -> Q tt h') ->
  runs (upd_node (with_prev q) p h) Q R.
Proof.
  intros [n Hn] HQ. unfold upd_node, get_node. runs_steps.
  apply (runs_of_option _ _ n); [done|]. runs_steps.
  apply HQ; [split_and!; [intros y|intros y|done]|intros y|intros y];
    unfold self, pv, nx; simpl; destruct (decide (y = p)) as [->|];
    rewrite ?lookup_insert_eq, ?lookup_insert_ne, ?Hn by done; try done; naive_solver.
Qed.

(** One node access at a time, keeping what is allocated in view. *)
Ltac alloc_tac :=
  match goal with
  | H : same_shape ?h ?h' |- is_Some (nodes ?h' !! _) => apply (proj1 (proj2 H)); alloc_tac
  | _ => assumption
  end.
Ltac node_step :=
  runs_steps;
  lazymatch goal with
  | |- runs (get_node _ _) _ _ =>
      apply runs_get_node; [alloc_tac|]; intros ? ? ? ?
  | |- runs (upd_node (with_next _) _ _) _ _ =>
      apply runs_upd_next; [alloc_tac|]; intros ? ? ? ?
  | |- runs (upd_node (with_prev _) _ _) _ _ =>
      apply runs_upd_prev; [alloc_tac|]; intros ? ? ? ?
  end.
(** Read the links of the current store back to the first one. *)
Ltac link_simp :=
  repeat match goal with
         | H : tln_next _ = _ |- _ => rewrite H; clear H
         | H : tln_prev _ = _ |- _ => rewrite H; clear H
         | H : forall y, nx ?h y = _ |- context [nx ?h _] => rewrite H
         | H : forall y, pv ?h y = _ |- context [pv ?h _] => rewrite H
         end;
  repeat (case_decide; simplify_eq; try done).
Ltac deref_step p := runs_steps; apply (runs_of_option _ _ p); [by link_simp|].

Definition inserted (h h' : heap) (a x b : nodeptr) : Prop :=
  same_shape h h' /\
  (forall y, nx h' y = if decide (y = a) then Some x else if decide (y = x) then Some b else nx h y) /\
  (forall y, pv h' y = if decide (y = b) then Some x else if decide (y = x) then Some a else pv h y).

Lemma insertafter_effect h a b t :
  let x := NThread t in
  a <> x -> b <> x -> a <> b -> nx h a = Some b ->
  is_Some (nodes h !! a) -> is_Some (nodes h !! b) -> is_Some (nodes h !! x) ->
  returns (threadlist_insertafternode a t h) (fun _ h' => inserted h h' a x b).
Proof.
  intros x Hax Hbx Hab Hnx Ha Hb Hx. unfold threadlist_insertafternode. fold x.
  do 4 node_step. deref_step a. do 2 node_step. deref_step b. node_step.
  split_and!; [eauto 6 using same_shape_trans|intros y; link_simp..].
Qed.

Lemma insertbefore_effect h a b t :
  let x := NThread t in
  a <> x -> b <> x -> a <> b -> pv h b = Some a ->
  is_Some (nodes h !! a) -> is_Some (nodes h !! b) -> is_Some (nodes h !! x) ->
  returns (threadlist_insertbeforenode t b h) (fun _ h' => inserted h h' a x b).
Proof.
  intros x Hax Hbx Hab Hpv Ha Hb Hx. unfold threadlist_insertbeforenode. fold x.
  do 4 node_step. deref_step a. do 2 node_step. deref_step b. node_step.
  split_and!; [eauto 6 using same_shape_trans|intros y; link_simp..].
Qed.

Definition removed (h h' : heap) (a x b : nodeptr) : Prop :=
  same_shape h h' /\
  (forall y, nx h' y = if decide (y = x) then None else if decide (y = a) then Some b else nx h y) /\
  (forall y, pv h' y = if decide (y = x) then None else if decide (y = b) then Some a else pv h y).

Lemma remove_effect h a x b :
  a <> x -> b <> x -> a <> b -> pv h x = Some a -> nx h x = Some b ->
  is_Some (nodes h !! a) -> is_Some (nodes h !! b) -> is_Some (nodes h !! x) ->
  returns (threadlist_removenode x h) (fun _ h' => removed h h' a x b).
Proof.
  intros Hax Hbx Hab Hpv Hnx Ha Hb Hx. unfold threadlist_removenode.
  node_step. deref_step a. do 2 node_step. deref_step b. do 3 node_step.
  split_and!; [eauto 6 using same_shape_trans|intros y; link_simp..].
Qed.

(** ** The surgery acts on one list *)

Lemma elem_of_chain l ts y :
  y ∈ chain l ts <-> y = NHead l \/ y = NTail l \/ exists t, t ∈ ts /\ y = NThread t.
Proof.
  unfold chain. rewrite elem_of_cons, elem_of_app, list_elem_of_fmap, list_elem_of_singleton.
  split; [intros [|[(t & ? & ?)|]]|intros [|[|(t & ? & ?)]]]; eauto 6.
Qed.

Lemma is_list_frame h h' l ts :
  is_list h l ts ->
  (forall y, y ∈ chain l ts -> nx h' y = nx h y /\ pv h' y = pv h y) ->
  (forall y, self h' y = self h y) ->
  (forall y, is_Some (nodes h' !! y) <-> is_Some (nodes h !! y)) ->
  tl_count h' !! l = tl_count h !! l ->
  is_list h' l ts.
Proof.
  intros [Ha Hadj Hh Ht Hc Hn Hb] Hl Hs Hal Hcnt.
  assert (NHead l ∈ chain l ts /\ NTail l ∈ chain l ts) as [H1 H2] by (rewrite !elem_of_chain; auto).
  split; try done.
  - intros p Hp. apply Hal. auto.
  - intros y z Hyz. destruct (adj_elem _ _ _ Hyz) as [Hy Hz].
    rewrite (proj1 (Hl y Hy)), (proj2 (Hl z (list_elem_of_further _ _ _ Hz))). by apply Hadj.
  - by rewrite (proj2 (Hl _ H1)), Hs.
  - by rewrite (proj1 (Hl _ H2)), Hs.
  - by rewrite Hcnt.
Qed.

(** Nodes of list [l] are on no other list. *)
Lemma rep_disjoint_chains h ls l l' ts ts' y :
  rep h ls -> ls !! l = Some ts -> ls !! l' = Some ts' -> l <> l' ->
  y ∈ chain l ts -> y ∈ chain l' ts' -> False.
Proof.
  intros Hrep Hl Hl' Hne. rewrite !elem_of_chain.
  intros [->|[->|(t & Ht & ->)]] [?|[?|(t' & Ht' & ?)]]; simplify_eq.
  destruct Hne. by eapply rep_disj.
Qed.

Lemma gap_facts h ls l ts1 ts2 :
  rep h ls -> ls !! l = Some (ts1 ++ ts2) ->
  let a := last_node l ts1 in let b := first_node l ts2 in
  nx h a = Some b /\ pv h b = Some a /\ a <> b /\
  a ∈ chain l (ts1 ++ ts2) /\ b ∈ chain l (ts1 ++ ts2) /\
  is_Some (nodes h !! a) /\ is_Some (nodes h !! b).
Proof.
  intros Hrep Hl a b. destruct (rep_list _ _ Hrep _ _ Hl) as [Hal Hadj _ _ _ Hnd _].
  destruct (chain_split l ts1 ts2) as (c1 & c2 & Hsp). specialize (Hsp []). simpl in Hsp.
  fold a b in Hsp. destruct (Hadj a b) as [??].
  { rewrite Hsp, adj_split. right. simpl. by left. }
  apply (chain_nodup l) in Hnd. rewrite Hsp in *.
  apply NoDup_app in Hnd as (_ & _ & [Hnd _]%NoDup_cons).
  assert (a ∈ c1 ++ a :: b :: c2) by (rewrite elem_of_app, !elem_of_cons; auto).
  assert (b ∈ c1 ++ a :: b :: c2) by (rewrite elem_of_app, !elem_of_cons; auto).
  split_and!; auto. intros ->. apply Hnd. by left.
Qed.

(** The store with the count of [l] set. *)
Definition with_count (l : listid) (c : Z) (h : heap) : heap := mkHeap (nodes h) (<[l := c]> (tl_count h)).

(** A change confined to list [l] and threads that were on no list. *)
Lemma rep_update h h' ls l ts ts' (touched : list nodeptr) :
  rep h ls -> ls !! l = Some ts -> is_list h' l ts' ->
  (forall y, self h' y = self h y) ->
  (forall y, is_Some (nodes h' !! y) <-> is_Some (nodes h !! y)) ->
  (forall l', l' <> l -> tl_count h' !! l' = tl_count h !! l') ->
  (forall y, y ∉ touched -> nx h' y = nx h y /\ pv h' y = pv h y) ->
  (forall y, y ∈ touched -> y ∈ chain l ts \/ exists t, y = NThread t /\ off_lists ls t) ->
  (forall t, t ∈ ts' -> t ∈ ts \/ off_lists ls t) ->
  (forall t, NThread t ∈ touched \/ t ∈ ts -> t ∉ ts' ->
     pv h' (NThread t) = None /\ nx h' (NThread t) = None) ->
  rep h' (<[l := ts']> ls).
Proof.
  intros Hrep Hl Hil Hself Hal Hcnt Hframe Htou Hnew Hgone. split.
  - intros l' k. destruct (decide (l' = l)) as [->|Hne].
    { rewrite lookup_insert_eq. by intros [= <-]. }
    rewrite lookup_insert_ne by done. intros Hl'.
    apply (is_list_frame h); auto; [by apply (rep_list _ _ Hrep)|].
    intros y Hy. apply Hframe. intros [Hc|(t & -> & Hoff)]%Htou.
    + by eapply (rep_disjoint_chains h ls l l').
    + apply elem_of_chain in Hy as [|[|(t' & Ht' & [= <-])]]; [done..|]. by apply (Hoff l' k).
  - intros l1 l2 k1 k2 t H1 H2 Ht1 Ht2.
    apply lookup_insert_Some in H1 as [[<- <-]|[? H1]], H2 as [[<- <-]|[? H2]]; [done|..].
    + destruct (Hnew t Ht1) as [Hin|Hoff]; [by eapply (rep_disj _ _ Hrep)|by destruct (Hoff _ _ H2)].
    + destruct (Hnew t Ht2) as [Hin|Hoff]; [by eapply (rep_disj _ _ Hrep)|by destruct (Hoff _ _ H1)].
    + by eapply (rep_disj _ _ Hrep).
  - intros t Ht%Hal. rewrite Hself. by apply (rep_self _ _ Hrep).
  - intros t Hoff. assert (t ∉ ts') as Hnt by (by apply (Hoff l); rewrite lookup_insert_eq).
    destruct (decide (NThread t ∈ touched)); [by apply Hgone; auto|].
    destruct (decide (t ∈ ts)); [by apply Hgone; auto|].
    destruct (Hframe (NThread t)) as [-> ->]; [done|]. apply (rep_off _ _ Hrep).
    intros l' k Hk. destruct (decide (l' = l)) as [->|]; [by simplify_eq|].
    apply (Hoff l'). by rewrite lookup_insert_ne.
Qed.

Lemma nodup_insert (ts1 ts2 : list Z) t :
  NoDup (ts1 ++ ts2) -> t ∉ ts1 ++ ts2 -> NoDup (ts1 ++ t :: ts2).
Proof.
  rewrite not_elem_of_app. intros (? & Hd & ?)%NoDup_app [? ?].
  apply NoDup_app. split_and!; [done| |by apply NoDup_cons].
  intros z Hz. rewrite elem_of_cons. intros [->|?]; [done|by apply (Hd z)].
Qed.

Lemma is_list_insert h h' l ts1 ts2 t :
  is_list h l (ts1 ++ ts2) -> t ∉ ts1 ++ ts2 -> is_thread h t -> zlen (ts1 ++ ts2) + 1 < 2 ^ 32 ->
  inserted h h' (last_node l ts1) (NThread t) (first_node l ts2) ->
  is_list (with_count l (zlen (ts1 ++ ts2) + 1) h') l (ts1 ++ t :: ts2).
Proof.
  intros [Ha Hadj Hh Htl Hc Hnd Hb] Hnt Ht Hbd ((Hself & Hal & _) & Hnx & Hpv).
  pose proof (nodup_insert _ _ _ Hnd Hnt) as Hnd'.
  pose proof (chain_nodup l _ Hnd') as Hndc.
  destruct (chain_split l ts1 ts2) as (c1 & c2 & Hsp).
  pose proof (Hsp []) as Hsp0. specialize (Hsp [t]). simpl in Hsp, Hsp0.
  split; try done.
  - intros p. rewrite !elem_of_chain. intros Hp. apply Hal.
    destruct (decide (p = NThread t)) as [->|]; [done|]. apply Ha. rewrite elem_of_chain.
    destruct Hp as [|[|(z & Hz & ->)]]; auto. right; right. exists z. split; [|done].
    rewrite elem_of_app, elem_of_cons in *. destruct Hz as [|[|]]; auto. congruence.
  - intros y z Hyz. rewrite Hsp in Hyz, Hndc.
    pose proof (nodup_mid _ _ _ _ _ Hndc) as (_ & (?&?&?) & _).
    change (nx h' y = Some z /\ pv h' z = Some y). rewrite Hnx, Hpv.
    destruct (adj_insert _ _ _ _ _ _ _ Hndc Hyz) as [[-> ->]|[[-> ->]|(Hyz' & ?)]];
      repeat case_decide; simplify_eq; try done; try tauto.
    apply Hadj. by rewrite Hsp0.
  - change (pv h' (NHead l) = None /\ self h' (NHead l) = None). rewrite Hself, Hpv.
    destruct (first_node_cases l ts2) as [->|(t' & _ & ->)]; repeat case_decide; simplify_eq; done.
  - change (nx h' (NTail l) = None /\ self h' (NTail l) = None). rewrite Hself, Hnx.
    destruct (last_node_cases l ts1) as [->|(t' & _ & ->)]; repeat case_decide; simplify_eq; done.
  - simpl. rewrite lookup_insert_eq. f_equal. unfold zlen. rewrite !length_app. simpl. lia.
  - unfold zlen in *. rewrite length_app in *. simpl. lia.
Qed.

Lemma rep_insert h h' ls l ts1 ts2 t :
  rep h ls -> ls !! l = Some (ts1 ++ ts2) -> off_lists ls t -> is_thread h t ->
  zlen (ts1 ++ ts2) + 1 < 2 ^ 32 ->
  inserted h h' (last_node l ts1) (NThread t) (first_node l ts2) ->
  rep (with_count l (zlen (ts1 ++ ts2) + 1) h') (<[l := ts1 ++ t :: ts2]> ls).
Proof.
  intros Hrep Hl Hoff Ht Hbd Hins.
  pose proof (is_list_insert h h' l ts1 ts2 t (rep_list _ _ Hrep _ _ Hl) (Hoff _ _ Hl) Ht Hbd Hins).
  pose proof (gap_facts h ls l ts1 ts2 Hrep Hl) as (_ & _ & _ & Hca & Hcb & _).
  destruct Hins as ((Hself & Hal & Hcnt) & Hnx & Hpv).
  apply (rep_update h _ ls l (ts1 ++ ts2) _ [last_node l ts1; NThread t; first_node l ts2]); auto.
  - intros l' Hne. simpl. by rewrite lookup_insert_ne, Hcnt.
  - intros y. rewrite !not_elem_of_cons. intros (?&?&?&_).
    change (nx h' y = nx h y /\ pv h' y = pv h y). rewrite Hnx, Hpv. by repeat case_decide.
  - intros y. rewrite !elem_of_cons, elem_of_nil. intros [->|[->|[->|[]]]]; eauto.
  - intros z. rewrite !elem_of_app, elem_of_cons. intros [|[->|]]; auto.
  - intros z Hz Hnz. destruct Hnz. rewrite elem_of_app, elem_of_cons.
    rewrite !elem_of_cons, elem_of_nil in Hz.
    assert (z = t \/ z ∈ ts1 ++ ts2) as [->|Hin]; [|auto|rewrite elem_of_app in Hin; tauto].
    destruct (last_node_cases l ts1) as [E1|(? & ? & E1)], (first_node_cases l ts2) as [E2|(? & ? & E2)];
      rewrite E1, E2 in Hz; destruct Hz as [[|[|[|[]]]]|]; simplify_eq; auto; right; apply elem_of_app; auto.
Qed.

Lemma is_list_remove h h' l ts1 ts2 t :
  is_list h l (ts1 ++ t :: ts2) ->
  removed h h' (last_node l ts1) (NThread t) (first_node l ts2) ->
  is_list (with_count l (zlen (ts1 ++ ts2)) h') l (ts1 ++ ts2).
Proof.
  intros [Ha Hadj Hh Htl Hc Hnd Hb] ((Hself & Hal & _) & Hnx & Hpv).
  assert (NoDup (ts1 ++ ts2)) as Hnd'.
  { apply NoDup_app in Hnd as (? & Hd & [? ?]%NoDup_cons). apply NoDup_app. split_and!; [done| |done].
    intros z Hz Hz2. apply (Hd z Hz). by right. }
  pose proof (chain_nodup l _ Hnd) as Hndc.
  destruct (chain_split l ts1 ts2) as (c1 & c2 & Hsp).
  pose proof (Hsp []) as Hsp0. specialize (Hsp [t]). simpl in Hsp, Hsp0.
  split; try done.
  - intros p. rewrite !elem_of_chain. intros Hp. apply Hal, Ha. rewrite elem_of_chain.
    destruct Hp as [|[|(z & Hz & ->)]]; auto. right; right. exists z. split; [|done].
    rewrite elem_of_app, elem_of_cons in *. tauto.
  - intros y z Hyz. rewrite Hsp0 in Hyz. rewrite Hsp in Hndc.
    pose proof (nodup_mid _ _ _ _ _ Hndc) as (_ & (?&?&?) & _).
    change (nx h' y = Some z /\ pv h' z = Some y). rewrite Hnx, Hpv.
    destruct (adj_remove _ _ _ _ _ _ _ Hndc Hyz) as [[-> ->]|(Hyz' & ?)];
      repeat case_decide; simplify_eq; try done; try tauto.
    apply Hadj. by rewrite Hsp.
  - change (pv h' (NHead l) = None /\ self h' (NHead l) = None). rewrite Hself, Hpv.
    destruct (first_node_cases l ts2) as [->|(t' & _ & ->)]; repeat case_decide; simplify_eq; done.
  - change (nx h' (NTail l) = None /\ self h' (NTail l) = None). rewrite Hself, Hnx.
    destruct (last_node_cases l ts1) as [->|(t' & _ & ->)]; repeat case_decide; simplify_eq; done.
  - simpl. by rewrite lookup_insert_eq.
  - unfold zlen in *. rewrite length_app in *. simpl in *. lia.
Qed.

Lemma rep_remove h h' ls l ts1 ts2 t :
  rep h ls -> ls !! l = Some (ts1 ++ t :: ts2) ->
  removed h h' (last_node l ts1) (NThread t) (first_node l ts2) ->
  rep (with_count l (zlen (ts1 ++ ts2)) h') (<[l := ts1 ++ ts2]> ls).
Proof.
  intros Hrep Hl Hrem.
  pose proof (is_list_remove h h' l ts1 ts2 t (rep_list _ _ Hrep _ _ Hl) Hrem).
  destruct Hrem as ((Hself & Hal & Hcnt) & Hnx & Hpv).
  apply (rep_update h _ ls l (ts1 ++ t :: ts2) _ [last_node l ts1; NThread t; first_node l ts2]); auto.
  - intros l' Hne. simpl. by rewrite lookup_insert_ne, Hcnt.
  - intros y. rewrite !not_elem_of_cons. intros (?&?&?&_).
    change (nx h' y = nx h y /\ pv h' y = pv h y). rewrite Hnx, Hpv. by repeat case_decide.
  - intros y Hy. left. rewrite elem_of_chain. rewrite !elem_of_cons, elem_of_nil in Hy.
    destruct (last_node_cases l ts1) as [E1|(t1 & ? & E1)], (first_node_cases l ts2) as [E2|(t2 & ? & E2)];
      rewrite E1, E2 in Hy; destruct Hy as [->|[->|[->|[]]]]; auto; right; right; eexists;
      (split; [|reflexivity]); rewrite elem_of_app, elem_of_cons; auto.
  - intros z. rewrite !elem_of_app, elem_of_cons. tauto.
  - intros z Hz Hnz. rewrite elem_of_app in Hnz.
    assert (z = t) as ->.
    { rewrite elem_of_app, !elem_of_cons, elem_of_nil in Hz.
      destruct (last_node_cases l ts1) as [E1|(? & ? & E1)], (first_node_cases l ts2) as [E2|(? & ? & E2)];
        rewrite E1, E2 in Hz; destruct Hz as [[|[|[|[]]]]|[|[|]]]; simplify_eq; tauto. }
    change (pv h' (NThread t) = None /\ nx h' (NThread t) = None). rewrite Hnx, Hpv.
    by rewrite !decide_True.
Qed.

(** ** The public operations *)

Lemma runs_add_count h l c d (Q : unit -> heap -> Prop) R :
  tl_count h !! l = Some c -> Q tt (with_count l (u32 (c + d)) h) -> runs (add_count l d h) Q R.
Proof. intros Hc HQ. unfold add_count. runs_steps. apply (runs_of_option _ _ c); [done|]. by runs_steps. Qed.

Definition same_live (h h' : heap) : Prop := forall t, is_thread h' t <-> is_thread h t.

Definition can_add (h : heap) (ls : gmap listid (list Z)) (ts : list Z) (t : Z) : Prop :=
  off_lists ls t /\ is_thread h t /\ zlen ts + 1 < 2 ^ 32.

Lemma off_list_nodes h ls l ts1 ts2 t :
  rep h ls -> ls !! l = Some (ts1 ++ ts2) -> off_lists ls t ->
  last_node l ts1 <> NThread t /\ first_node l ts2 <> NThread t.
Proof.
  intros Hrep Hl Hoff. pose proof (Hoff _ _ Hl) as Hn. rewrite not_elem_of_app in Hn.
  split.
  - destruct (last_node_cases l ts1) as [->|(? & ? & ->)]; [done|]. intros [= ->]. tauto.
  - destruct (first_node_cases l ts2) as [->|(? & ? & ->)]; [done|]. intros [= ->]. tauto.
Qed.

Lemma insertafter_spec h ls l ts1 ts2 t :
  rep h ls -> ls !! l = Some (ts1 ++ ts2) -> can_add h ls (ts1 ++ ts2) t ->
  returns ((threadlist_insertafternode (last_node l ts1) t ;; add_count l 1) h)
    (fun _ h' => rep h' (<[l := ts1 ++ t :: ts2]> ls) /\ same_live h h').
Proof.
  intros Hrep Hl (Hoff & Ht & Hb).
  pose proof (gap_facts h ls l ts1 ts2 Hrep Hl) as (Hnx & _ & Hne & _ & _ & Ha & Hb').
  destruct (off_list_nodes h ls l ts1 ts2 t Hrep Hl Hoff).
  runs_step. eapply runs_mono; [by apply (insertafter_effect h _ (first_node l ts2))| |done].
  intros [] h' Hins. pose proof (il_count _ _ _ (rep_list _ _ Hrep _ _ Hl)) as Hc.
  apply (runs_add_count _ _ (zlen (ts1 ++ ts2))); [by destruct Hins as ((_ & _ & ->) & _)|].
  rewrite u32_small by (pose proof (zlen_nonneg (ts1 ++ ts2)); unfold is_u32; lia).
  split; [by apply (rep_insert h)|]. destruct Hins as ((_ & Hal & _) & _). intros z. apply Hal.
Qed.

Lemma insertbefore_spec h ls l ts1 ts2 t :
  rep h ls -> ls !! l = Some (ts1 ++ ts2) -> can_add h ls (ts1 ++ ts2) t ->
  returns ((threadlist_insertbeforenode t (first_node l ts2) ;; add_count l 1) h)
    (fun _ h' => rep h' (<[l := ts1 ++ t :: ts2]> ls) /\ same_live h h').
Proof.
  intros Hrep Hl (Hoff & Ht & Hb).
  pose proof (gap_facts h ls l ts1 ts2 Hrep Hl) as (_ & Hpv & Hne & _ & _ & Ha & Hb').
  destruct (off_list_nodes h ls l ts1 ts2 t Hrep Hl Hoff).
  runs_step. eapply runs_mono; [by apply (insertbefore_effect h (last_node l ts1))| |done].
  intros [] h' Hins. pose proof (il_count _ _ _ (rep_list _ _ Hrep _ _ Hl)) as Hc.
  apply (runs_add_count _ _ (zlen (ts1 ++ ts2))); [by destruct Hins as ((_ & _ & ->) & _)|].
  rewrite u32_small by (pose proof (zlen_nonneg (ts1 ++ ts2)); unfold is_u32; lia).
  split; [by apply (rep_insert h)|]. destruct Hins as ((_ & Hal & _) & _). intros z. apply Hal.
Qed.

(** The links around a thread on a list. *)
Lemma thread_facts h ls l ts1 ts2 t :
  rep h ls -> ls !! l = Some (ts1 ++ t :: ts2) ->
  let a := last_node l ts1 in let x := NThread t in let b := first_node l ts2 in
  (nx h a = Some x /\ pv h x = Some a /\ nx h x = Some b /\ pv h b = Some x) /\
  (a <> x /\ b <> x /\ a <> b) /\
  is_Some (nodes h !! a) /\ is_Some (nodes h !! x) /\ is_Some (nodes h !! b).
Proof.
  intros Hrep Hl a x b. pose proof (gap_facts h ls l ts1 (t :: ts2) Hrep Hl) as (? & ? & ? & _ & _ & ? & ?).
  rewrite (cons_middle t ts1 ts2), app_assoc in Hl.
  pose proof (gap_facts h ls l (ts1 ++ [t]) ts2 Hrep Hl) as (G1 & G2 & G3 & _ & _ & ? & ?).
  pose proof (rep_list _ _ Hrep _ _ Hl) as [_ _ _ _ _ Hnd _]. apply (chain_nodup l) in Hnd.
  destruct (chain_split l ts1 ts2) as (c1 & c2 & Hsp). specialize (Hsp [t]). simpl in Hsp.
  rewrite <- app_assoc in Hnd. simpl in Hnd. rewrite Hsp in Hnd.
  apply nodup_mid in Hnd as (_ & (?&?&?) & _).
  assert (last_node l (ts1 ++ [t]) = NThread t) as E by (unfold last_node; by rewrite last_snoc).
  rewrite E in *. split_and!; auto.
Qed.

Lemma removenode_spec h ls l ts1 ts2 t :
  rep h ls -> ls !! l = Some (ts1 ++ t :: ts2) ->
  returns ((threadlist_removenode (NThread t) ;; add_count l (-1)) h)
    (fun _ h' => rep h' (<[l := ts1 ++ ts2]> ls) /\ same_live h h').
Proof.
  intros Hrep Hl. pose proof (thread_facts h ls l ts1 ts2 t Hrep Hl)
    as ((?&?&?&?)&(?&?&?)&?&?&?).
  runs_step. eapply runs_mono;
    [by apply (remove_effect h (last_node l ts1) _ (first_node l ts2))| |done].
  intros [] h' Hrem. pose proof (rep_list _ _ Hrep _ _ Hl) as [_ _ _ _ Hc _ Hb].
  apply (runs_add_count _ _ (zlen (ts1 ++ t :: ts2))); [by destruct Hrem as ((_ & _ & ->) & _)|].
  assert (u32 (zlen (ts1 ++ t :: ts2) + -1) = zlen (ts1 ++ ts2)) as ->.
  { rewrite u32_small; unfold is_u32, zlen in *; rewrite !length_app in *; simpl in *; lia. }
  split; [by apply (rep_remove h h' ls l ts1 ts2 t)|].
  destruct Hrem as ((_ & Hal & _) & _). intros z. apply Hal.
Qed.

Lemma remhead_spec h ls l ts :
  rep h ls -> ls !! l = Some ts ->
  returns (threadlist_remhead l h)
    (fun r h' => r = head ts /\ rep h' (<[l := tail ts]> ls) /\ same_live h h').
Proof.
  intros Hrep Hl. unfold threadlist_remhead.
  pose proof (gap_facts h ls l [] ts Hrep Hl) as (Hnx & _ & _ & _ & _ & Ha & Hb).
  change (last_node l []) with (NHead l) in *. node_step. runs_steps. apply (runs_of_option _ _ (first_node l ts)); [congruence|].
  node_step. destruct ts as [|t ts]; simpl in *.
  { pose proof (il_tail _ _ _ (rep_list _ _ Hrep _ _ Hl)) as [Ht _].
    unfold first_node in *. simpl in *. match goal with H : tln_next _ = nx h (NTail l) |- _ => rewrite H, Ht end.
    runs_steps. split_and!; [done|by rewrite insert_id|done]. }
  unfold first_node in *. simpl in *.
  pose proof (thread_facts h ls l [] ts t Hrep Hl) as ((?&?&Hn&?)&_).
  match goal with H : tln_next _ = nx h (NThread t) |- _ => rewrite H, Hn end.
  pose proof (removenode_spec h ls l [] ts t Hrep Hl) as Hrm.
  unfold bind in *. destruct (threadlist_removenode (NThread t) h) as [u1 h1|e h1|c]; simpl in Hrm |- *; [|done|done].
  destruct (add_count l (-1) h1) as [u2 h2|e h2|c]; simpl in Hrm |- *; [|done|done].
  destruct Hrm as [Hrep2 Hlive]. assert (is_Some (nodes h2 !! NThread t)) as Hth by (by apply Hlive).
  apply (runs_bind (get_node (NThread t))). node_step. runs_steps.
  split; [|done]. match goal with H : tln_self _ = _ |- _ => rewrite H end. by apply (rep_self _ _ Hrep2).
Qed.

Lemma remtail_spec h ls l ts :
  rep h ls -> ls !! l = Some ts ->
  returns (threadlist_remtail l h)
    (fun r h' => r = last ts /\ rep h' (<[l := removelast ts]> ls) /\ same_live h h').
Proof.
  intros Hrep Hl. unfold threadlist_remtail.
  pose proof Hl as Hl'. rewrite <- (app_nil_r ts) in Hl'.
  pose proof (gap_facts h ls l ts [] Hrep Hl') as (_ & Hpv & _ & _ & _ & Ha & Hb).
  change (first_node l []) with (NTail l) in *. node_step. runs_steps. apply (runs_of_option _ _ (last_node l ts)); [congruence|].
  node_step. destruct ts as [|t ts _] using rev_ind; simpl in *.
  { pose proof (il_head _ _ _ (rep_list _ _ Hrep _ _ Hl)) as [Ht _].
    unfold last_node in *. simpl in *. match goal with H : tln_prev _ = pv h (NHead l) |- _ => rewrite H, Ht end.
    runs_steps. split_and!; [done|by rewrite insert_id|done]. }
  rewrite last_snoc, removelast_last. unfold last_node in *. rewrite last_snoc in *.
  pose proof (thread_facts h ls l ts [] t Hrep Hl) as ((?&Hp&?&?)&_).
  match goal with H : tln_prev _ = pv h (NThread t) |- _ => rewrite H, Hp end.
  pose proof (removenode_spec h ls l ts [] t Hrep Hl) as Hrm. rewrite app_nil_r in Hrm.
  unfold bind in *. destruct (threadlist_removenode (NThread t) h) as [u1 h1|e h1|c]; simpl in Hrm |- *; [|done|done].
  destruct (add_count l (-1) h1) as [u2 h2|e h2|c]; simpl in Hrm |- *; [|done|done].
  destruct Hrm as [Hrep2 Hlive]. assert (is_Some (nodes h2 !! NThread t)) as Hth by (by apply Hlive).
  apply (runs_bind (get_node (NThread t))). node_step. runs_steps.
  split; [|done]. match goal with H : tln_self _ = _ |- _ => rewrite H end. by apply (rep_self _ _ Hrep2).
Qed.

(** *** The abstract lists and the refinement *)

Inductive op :=
| AddHead (l : listid) (t : Z) | AddTail (l : listid) (t : Z)
| InsertAfter (l : listid) (on t : Z) | InsertBefore (l : listid) (t on : Z)
| Remove (l : listid) (t : Z) | RemHead (l : listid) | RemTail (l : listid).

Definition do_op (o : op) : M heap (option Z) :=
  match o with
  | AddHead l t => threadlist_addhead l t ;; ret None
  | AddTail l t => threadlist_addtail l t ;; ret None
  | InsertAfter l on t => threadlist_insertafter l on t ;; ret None
  | InsertBefore l t on => threadlist_insertbefore l t on ;; ret None
  | Remove l t => threadlist_remove l t ;; ret None
  | RemHead l => threadlist_remhead l
  | RemTail l => threadlist_remtail l
  end.

(** What each call does to sequences of threads.  [th] is the set of
    initialised thread nodes; a thread is added only if it is on no list. *)
Inductive list_step (th : Z -> Prop) (ls : gmap listid (list Z)) : op -> option Z -> gmap listid (list Z) -> Prop :=
| step_insert o l t ts1 ts2 :
    ls !! l = Some (ts1 ++ ts2) -> off_lists ls t -> th t -> zlen (ts1 ++ ts2) + 1 < 2 ^ 32 ->
    (o = AddHead l t /\ ts1 = [] \/ o = AddTail l t /\ ts2 = [] \/
     (exists on k, o = InsertAfter l on t /\ ts1 = k ++ [on]) \/
     (exists on k, o = InsertBefore l t on /\ ts2 = on :: k)) ->
    list_step th ls o None (<[l := ts1 ++ t :: ts2]> ls)
| step_remove l t ts1 ts2 :
    ls !! l = Some (ts1 ++ t :: ts2) ->
    list_step th ls (Remove l t) None (<[l := ts1 ++ ts2]> ls)
| step_remhead l ts :
    ls !! l = Some ts -> list_step th ls (RemHead l) (head ts) (<[l := tail ts]> ls)
| step_remtail l ts :
    ls !! l = Some ts -> list_step th ls (RemTail l) (last ts) (<[l := removelast ts]> ls).

(** The doubly linked thread lists implement sequences. *)
Theorem threadlist_refines (h : heap) (ls ls' : gmap listid (list Z)) (o : op) (r : option Z)
    (Hrep : rep h ls) (Hstep : list_step (is_thread h) ls o r ls') :
  returns (do_op o h) (fun r' h' => r' = r /\ rep h' ls').
Proof.
  destruct Hstep as [o l t ts1 ts2 Hl Hoff Ht Hb Ho|l t ts1 ts2 Hl|l ts Hl|l ts Hl].
  - assert (can_add h ls (ts1 ++ ts2) t) as Hcan by done.
    pose proof (insertafter_spec h ls l ts1 ts2 t Hrep Hl Hcan) as Ha.
    pose proof (insertbefore_spec h ls l ts1 ts2 t Hrep Hl Hcan) as Hbe.
    destruct Ho as [[-> ->]|[[-> ->]|[(on & k & -> & ->)|(on & k & -> & ->)]]]; simpl; runs_step.
    + eapply runs_mono; [exact Ha|by intros [] h' [? _]|done].
    + eapply runs_mono; [exact Hbe|by intros [] h' [? _]|done].
    + unfold last_node in Ha. rewrite last_snoc in Ha.
      eapply runs_mono; [exact Ha|by intros [] h' [? _]|done].
    + eapply runs_mono; [exact Hbe|by intros [] h' [? _]|done].
  - simpl. runs_step. eapply runs_mono; [by apply (removenode_spec h ls l ts1 ts2 t)| |done].
    by intros [] h' [? ?].
  - eapply runs_mono; [by apply remhead_spec|by intros r h' (? & ? & _)|done].
  - eapply runs_mono; [by apply remtail_spec|by intros r h' (? & ? & _)|done].
Qed.

Lemma get_node_Ret h p n : nodes h !! p = Some n -> get_node p h = Ret n h.
Proof. unfold get_node, bind, get. by intros ->. Qed.

(** The iteration macro reads through the NULL [tln_self] of the tail
    bookend at the end of every list, empty ones included. *)
Lemma forall_loop_wild h ls l ts1 ts2 (f : nat) :
  rep h ls -> ls !! l = Some (ts1 ++ ts2) -> (length ts2 < f)%nat ->
  forall_loop f (self h (first_node l ts2)) h = Crash Wild.
Proof.
  intros Hrep. revert f ts1. induction ts2 as [|t ts2 IH]; intros f ts1 Hl Hf;
    (destruct f as [|f]; [lia|]); cbn [forall_loop].
  - pose proof (il_tail _ _ _ (rep_list _ _ Hrep _ _ Hl)) as [_ Hs].
    change (first_node l []) with (NTail l). by rewrite Hs.
  - pose proof (thread_facts h ls l ts1 ts2 t Hrep Hl) as ((_ & _ & Hn & _) & _ & _ & [n Hx] & [nb Hb]).
    change (first_node l (t :: ts2)) with (NThread t). rewrite (rep_self _ _ Hrep t) by eauto.
    erewrite bind_Ret by reflexivity. erewrite bind_Ret by (by apply get_node_Ret).
    unfold nx in Hn. rewrite Hx in Hn. simpl in Hn. rewrite Hn.
    erewrite bind_Ret by (by apply get_node_Ret).
    rewrite (cons_middle t ts1 ts2), app_assoc in Hl.
    specialize (IH f _ Hl ltac:(simpl in Hf; lia)). unfold self in IH. rewrite Hb in IH. simpl in IH.
    unfold bind. by rewrite IH.
Qed.

(** Running a THREADLIST_FORALL loop to its end follows a NULL pointer. *)
Theorem threadlist_forall_wild (h : heap) (ls : gmap listid (list Z)) (l : listid) (ts : list Z) (fuel : nat)
    (Hrep : rep h ls) (Hl : ls !! l = Some ts) (Hf : (length ts < fuel)%nat) :
  THREADLIST_FORALL fuel l h = Crash Wild.
Proof.
  pose proof (gap_facts h ls l [] ts Hrep Hl) as (Hnx & _ & _ & _ & _ & [n Ha] & [nb Hb]).
  pose proof (forall_loop_wild h ls l [] ts fuel Hrep Hl Hf) as Hw.
  change (last_node l []) with (NHead l) in *. unfold nx in Hnx. rewrite Ha in Hnx. simpl in Hnx.
  unfold self in Hw. rewrite Hb in Hw. simpl in Hw. unfold THREADLIST_FORALL.
  erewrite bind_Ret by (by apply get_node_Ret). rewrite Hnx.
  erewrite bind_Ret by reflexivity. by erewrite bind_Ret by (by apply get_node_Ret).
Qed.

(** ** Initialisation and witnesses *)

Lemma init_list_spec h ls l :
  rep h ls -> ls !! l = None ->
  returns (threadlist_init l h) (fun _ h' => rep h' (<[l := []]> ls) /\ same_live h h').
Proof.
  intros Hrep Hl. unfold threadlist_init. runs_steps.
  set (h' := mkHeap _ _).
  assert (forall y, y <> NHead l -> y <> NTail l -> nodes h' !! y = nodes h !! y) as Hn.
  { intros y ??. unfold h'. simpl. by rewrite !lookup_insert_ne. }
  assert (nodes h' !! NHead l = Some (mkNode None (Some (NTail l)) None)) as Hh
    by (unfold h'; simpl; by rewrite lookup_insert_eq).
  assert (nodes h' !! NTail l = Some (mkNode (Some (NHead l)) None None)) as Ht
    by (unfold h'; simpl; by rewrite lookup_insert_ne, lookup_insert_eq).
  split; [|by intros z; unfold is_thread; rewrite Hn]. split.
  - intros l' ts'. destruct (decide (l' = l)) as [->|Hne].
    + rewrite lookup_insert_eq. intros [= <-].
      split; unfold nx, pv, self; try (rewrite ?Hh, ?Ht; done); [| |simpl; by rewrite lookup_insert_eq|constructor].
      * intros p. rewrite elem_of_chain. intros [->|[->|(t & Hin & _)]]; [by rewrite Hh|by rewrite Ht|].
        by apply elem_of_nil in Hin.
      * intros y z Hyz. simpl in Hyz. destruct Hyz as [[-> [= <-]]|[[_ [=]]|[]]]. by rewrite Hh, Ht.
    + rewrite lookup_insert_ne by done. intros Hl'.
      destruct (rep_list _ _ Hrep _ _ Hl') as [Ha Hadj Hhd Htl Hc Hnd Hb].
      assert (forall y, y ∈ chain l' ts' -> nodes h' !! y = nodes h !! y) as Hn'.
      { intros y Hy. apply elem_of_chain in Hy.
        apply Hn; intros ->; destruct Hy as [|[|(?&?&?)]]; simplify_eq. }
      assert (NHead l' ∈ chain l' ts' /\ NTail l' ∈ chain l' ts') as [H1 H2]
        by (rewrite !elem_of_chain; auto).
      split; try done; unfold nx, pv, self in *.
      * intros p Hp. rewrite Hn' by done. auto.
      * intros y z Hyz. destruct (adj_elem _ _ _ Hyz) as [Hy Hz]. rewrite !Hn'; auto.
        by apply list_elem_of_further.
      * by rewrite Hn'.
      * by rewrite Hn'.
      * unfold h'. simpl. by rewrite lookup_insert_ne.
  - intros l1 l2 k1 k2 t H1 H2 Ht1 Ht2.
    apply lookup_insert_Some in H1 as [[<- <-]|[? H1]]; [by apply elem_of_nil in Ht1|].
    apply lookup_insert_Some in H2 as [[<- <-]|[? H2]]; [by apply elem_of_nil in Ht2|].
    by eapply (rep_disj _ _ Hrep).
  - intros t. unfold self. rewrite !Hn by done. apply (rep_self _ _ Hrep).
  - intros t Hoff. unfold pv, nx. rewrite Hn by done. apply (rep_off _ _ Hrep).
    intros l' ts' Hl'. apply (Hoff l'). rewrite lookup_insert_ne; [done|]. by intros ->; rewrite Hl in Hl'.
Qed.

Lemma init_node_spec h ls t :
  rep h ls -> t <> 0 -> nodes h !! NThread t = None ->
  returns (threadlistnode_init t h) (fun _ h' => rep h' ls /\ forall t', is_thread h' t' <-> t' = t \/ is_thread h t').
Proof.
  intros Hrep Ht0 Hnone. unfold threadlistnode_init. runs_steps. apply runs_KASSERT.
  { by apply negb_true_iff, Z.eqb_neq. }
  runs_steps. set (h' := mkHeap _ _).
  assert (forall y, y <> NThread t -> nodes h' !! y = nodes h !! y) as Hn.
  { intros y ?. unfold h'. simpl. by rewrite lookup_insert_ne. }
  assert (nodes h' !! NThread t = Some (mkNode None None (Some t))) as Ht
    by (unfold h'; simpl; by rewrite lookup_insert_eq).
  assert (forall l ts y, ls !! l = Some ts -> y ∈ chain l ts -> y <> NThread t) as Hne.
  { intros l ts y Hl Hy ->. pose proof (il_alloc _ _ _ (rep_list _ _ Hrep _ _ Hl) _ Hy) as [??].
    congruence. }
  split.
  2: { intros t'. unfold is_thread. destruct (decide (t' = t)) as [->|].
       - rewrite Ht. naive_solver.
       - rewrite Hn by congruence. naive_solver. }
  split.
  - intros l ts Hl. pose proof (rep_list _ _ Hrep _ _ Hl) as [Ha Hadj Hhd Htl Hc Hnd Hb].
    assert (forall y, y ∈ chain l ts -> nodes h' !! y = nodes h !! y) as Hn' by eauto.
    assert (NHead l ∈ chain l ts /\ NTail l ∈ chain l ts) as [H1 H2]
      by (rewrite !elem_of_chain; auto).
    split; try done; unfold nx, pv, self in *.
    + intros p Hp. rewrite Hn' by done. auto.
    + intros y z Hyz. destruct (adj_elem _ _ _ Hyz) as [Hy Hz]. rewrite !Hn'; auto.
      by apply list_elem_of_further.
    + by rewrite Hn'.
    + by rewrite Hn'.
  - by eapply rep_disj.
  - intros t'. unfold self. destruct (decide (t' = t)) as [->|]; [by rewrite Ht|].
    rewrite !Hn by congruence. apply (rep_self _ _ Hrep).
  - intros t' Hoff. unfold pv, nx. destruct (decide (t' = t)) as [->|]; [by rewrite Ht|].
    rewrite !Hn by congruence. by apply (rep_off _ _ Hrep).
Qed.

Definition empty_heap : heap := mkHeap ∅ ∅.

Lemma empty_rep : rep empty_heap ∅.
Proof. split; try done. by intros t [? ?]. Qed.

(** Three threads, two of them queued on run queue 0. *)
Definition demo1 : heap := after (threadlistnode_init 1) empty_heap.
Definition demo2 : heap := after (threadlistnode_init 2) demo1.
Definition demo3 : heap := after (threadlistnode_init 3) demo2.
Definition demo4 : heap := after (threadlist_init (RunQ 0)) demo3.
Definition demo5 : heap := after (threadlist_addtail (RunQ 0) 1) demo4.
Definition demo : heap := after (threadlist_addtail (RunQ 0) 2) demo5.

Lemma demo4_rep : rep demo4 (<[(RunQ 0) := []]> ∅).
Proof.
  apply (returns_after (threadlist_init (RunQ 0)) demo3 (fun h => rep h _)).
  eapply runs_mono; [apply (init_list_spec _ ∅); [|done]|by intros [] ? [? _]|done].
  apply (returns_after (threadlistnode_init 3) demo2 (fun h => rep h ∅)).
  eapply runs_mono; [apply (init_node_spec _ ∅); [|done|by vm_compute]|by intros [] ? [? _]|done].
  apply (returns_after (threadlistnode_init 2) demo1 (fun h => rep h ∅)).
  eapply runs_mono; [apply (init_node_spec _ ∅); [|done|by vm_compute]|by intros [] ? [? _]|done].
  apply (returns_after (threadlistnode_init 1) empty_heap (fun h => rep h ∅)).
  eapply runs_mono; [apply (init_node_spec _ ∅); [apply empty_rep|done|by vm_compute]|by intros [] ? [? _]|done].
Qed.

(** [t] is on none of the lists of a singleton map. *)
Lemma off_singleton l ts t : t ∉ ts -> off_lists (<[l := ts]> ∅) t.
Proof. intros Hn l' ts' [[<- <-]|[_ H]]%lookup_insert_Some; [done|]. by rewrite lookup_empty in H. Qed.

Lemma demo_rep : rep demo (<[(RunQ 0) := [1; 2]]> ∅).
Proof.
  rewrite <- (insert_insert_eq ∅ (RunQ 0) [1; 2] [1]).
  apply (returns_after (threadlist_addtail (RunQ 0) 2) demo5 (fun h => rep h _)).
  eapply runs_mono; [apply (insertbefore_spec demo5 (<[(RunQ 0) := [1]]> ∅) (RunQ 0) [1] [] 2)|
                     by intros [] ? [? _]|done].
  - rewrite <- (insert_insert_eq ∅ (RunQ 0) [1] []).
    apply (returns_after (threadlist_addtail (RunQ 0) 1) demo4 (fun h => rep h _)).
    eapply runs_mono; [apply (insertbefore_spec demo4 (<[(RunQ 0) := []]> ∅) (RunQ 0) [] [] 1)|
                       by intros [] ? [? _]|done]; [apply demo4_rep|done|].
    split_and!; [apply off_singleton, not_elem_of_nil|vm_compute; eauto|done].
  - done.
  - split_and!; [|vm_compute; eauto|done].
    apply off_singleton. rewrite list_elem_of_singleton. lia.
Qed.

Lemma threadlist_refines_witness :
  do_op (RemHead (RunQ 0)) demo = Ret (Some 1) (after (do_op (RemHead (RunQ 0))) demo) /\
  returns (do_op (InsertAfter (RunQ 0) 1 3) demo)
    (fun r h => r = None /\ rep h (<[(RunQ 0) := [1; 3; 2]]> (<[(RunQ 0) := [1; 2]]> ∅))).
Proof.
  split; [by vm_compute|].
  apply (threadlist_refines demo (<[(RunQ 0) := [1; 2]]> ∅) _ _ _ demo_rep).
  apply (step_insert _ _ _ (RunQ 0) 3 [1] [2]); [done| |vm_compute; eauto|done|].
  - apply off_singleton. rewrite !elem_of_cons, elem_of_nil. lia.
  - right; right; left. exists 1, []. done.
Defined.

Lemma threadlist_forall_wild_witness : THREADLIST_FORALL 3 (RunQ 0) demo = Crash Wild.
Proof. apply (threadlist_forall_wild demo _ (RunQ 0) [1; 2] 3 demo_rep); [done|simpl; lia]. Defined.

(** ** The interface the scheduler is verified against *)

Class ThreadLists (H : Type) := {
  tl_rep : H -> gmap listid (list Z) -> Prop;
  tl_live : H -> Z -> Prop;
  tl_node_init : Z -> M H unit;
  tl_node_cleanup : Z -> M H unit;
  tl_init : listid -> M H unit;
  tl_cleanup : listid -> M H unit;
  tl_num : listid -> M H Z;
  tl_addhead : listid -> Z -> M H unit;
  tl_addtail : listid -> Z -> M H unit;
  tl_remhead : listid -> M H (option Z);
  tl_remtail : listid -> M H (option Z);

  tl_nodup h ls l ts : tl_rep h ls -> ls !! l = Some ts -> NoDup ts;
  tl_disj h ls l1 l2 ts1 ts2 t :
    tl_rep h ls -> ls !! l1 = Some ts1 -> ls !! l2 = Some ts2 -> t ∈ ts1 -> t ∈ ts2 -> l1 = l2;
  (** A list that is empty may be forgotten (its stack frame is gone). *)
  tl_drop h ls l : tl_rep h ls -> ls !! l = Some [] -> tl_rep h (delete l ls);
  tl_node_init_ok h ls t : tl_rep h ls -> t <> 0 -> ~ tl_live h t ->
    returns (tl_node_init t h)
      (fun _ h' => tl_rep h' ls /\ forall t', tl_live h' t' <-> t' = t \/ tl_live h t');
  tl_node_cleanup_ok h ls t : tl_rep h ls -> off_lists ls t -> tl_live h t ->
    returns (tl_node_cleanup t h) (fun _ h' => h' = h);
  tl_init_ok h ls l : tl_rep h ls -> ls !! l = None ->
    returns (tl_init l h)
      (fun _ h' => tl_rep h' (<[l := []]> ls) /\ forall t, tl_live h' t <-> tl_live h t);
  tl_cleanup_ok h ls l : tl_rep h ls -> ls !! l = Some [] ->
    returns (tl_cleanup l h) (fun _ h' => h' = h);
  tl_num_ok h ls l ts : tl_rep h ls -> ls !! l = Some ts ->
    returns (tl_num l h) (fun n h' => n = zlen ts /\ h' = h);
  tl_addhead_ok h ls l ts t : tl_rep h ls -> ls !! l = Some ts -> off_lists ls t -> tl_live h t ->
    zlen ts + 1 < 2 ^ 32 ->
    returns (tl_addhead l t h)
      (fun _ h' => tl_rep h' (<[l := t :: ts]> ls) /\ forall t, tl_live h' t <-> tl_live h t);
  tl_addtail_ok h ls l ts t : tl_rep h ls -> ls !! l = Some ts -> off_lists ls t -> tl_live h t ->
    zlen ts + 1 < 2 ^ 32 ->
    returns (tl_addtail l t h)
      (fun _ h' => tl_rep h' (<[l := ts ++ [t]]> ls) /\ forall t, tl_live h' t <-> tl_live h t);
  tl_remhead_ok h ls l ts : tl_rep h ls -> ls !! l = Some ts ->
    returns (tl_remhead l h)
      (fun r h' => r = head ts /\ tl_rep h' (<[l := tail ts]> ls) /\
                   forall t, tl_live h' t <-> tl_live h t);
  tl_remtail_ok h ls l ts : tl_rep h ls -> ls !! l = Some ts ->
    returns (tl_remtail l h)
      (fun r h' => r = last ts /\ tl_rep h' (<[l := removelast ts]> ls) /\
                   forall t, tl_live h' t <-> tl_live h t) }.

Definition get_count (l : listid) : M heap Z :=
  let* h := get in of_option Wild (tl_count h !! l).

Lemma rep_drop h ls l : rep h ls -> ls !! l = Some [] -> rep h (delete l ls).
Proof.
  intros [Hl Hd Hs Ho] Hnil. split; [| |done|].
  - intros l' ts' [_ ?]%lookup_delete_Some. auto.
  - intros l1 l2 ts1 ts2 t [_ ?]%lookup_delete_Some [_ ?]%lookup_delete_Some. eauto.
  - intros t Hoff. apply Ho. intros l' ts' Hl'. destruct (decide (l' = l)) as [->|].
    + rewrite Hnil in Hl'. injection Hl' as <-. apply not_elem_of_nil.
    + apply (Hoff l'). by rewrite lookup_delete_ne.
Qed.

Lemma node_cleanup_ok h ls t : rep h ls -> off_lists ls t -> is_thread h t ->
  returns (threadlistnode_cleanup t h) (fun _ h' => h' = h).
Proof.
  intros Hrep Hoff Ht. destruct (rep_off _ _ Hrep t Hoff) as [Hp Hn].
  pose proof (rep_self _ _ Hrep t Ht) as Hs. unfold threadlistnode_cleanup. node_step.
  runs_steps. apply runs_KASSERT; [apply bool_decide_eq_true; congruence|].
  runs_steps. apply runs_KASSERT; [apply bool_decide_eq_true; congruence|].
  runs_steps. apply runs_KASSERT; [apply bool_decide_eq_true; congruence|done].
Qed.

Lemma num_ok h ls l ts : rep h ls -> ls !! l = Some ts ->
  returns (get_count l h) (fun n h' => n = zlen ts /\ h' = h).
Proof.
  intros Hrep Hl. unfold get_count. runs_steps.
  apply (runs_of_option _ _ (zlen ts)); [by apply (il_count _ _ _ (rep_list _ _ Hrep _ _ Hl))|done].
Qed.

Lemma list_cleanup_ok h ls l : rep h ls -> ls !! l = Some [] ->
  returns (threadlist_cleanup l h) (fun _ h' => h' = h).
Proof.
  intros Hrep Hl. pose proof (il_count _ _ _ (rep_list _ _ Hrep _ _ Hl)) as Hc.
  unfold threadlist_cleanup, threadlist_isempty. runs_steps. apply (runs_of_option _ _ 0); [done|].
  runs_steps. apply runs_KASSERT; [done|]. runs_steps. apply (runs_of_option _ _ 0); [done|].
  by apply runs_KASSERT.
Qed.

Lemma addhead_ok h ls l ts t : rep h ls -> ls !! l = Some ts -> off_lists ls t -> is_thread h t ->
  zlen ts + 1 < 2 ^ 32 ->
  returns (threadlist_addhead l t h) (fun _ h' => rep h' (<[l := t :: ts]> ls) /\ same_live h h').
Proof. intros. by apply (insertafter_spec h ls l [] ts t). Qed.

Lemma addtail_ok h ls l ts t : rep h ls -> ls !! l = Some ts -> off_lists ls t -> is_thread h t ->
  zlen ts + 1 < 2 ^ 32 ->
  returns (threadlist_addtail l t h) (fun _ h' => rep h' (<[l := ts ++ [t]]> ls) /\ same_live h h').
Proof.
  intros Hrep Hl Ho Ht Hb. apply (insertbefore_spec h ls l ts [] t); rewrite ?app_nil_r; try done.
Qed.

Lemma node_init_ok h ls t : rep h ls -> t <> 0 -> ~ is_thread h t ->
  returns (threadlistnode_init t h)
    (fun _ h' => rep h' ls /\ forall t', is_thread h' t' <-> t' = t \/ is_thread h t').
Proof. intros ?? Hn. apply init_node_spec; [done..|]. by apply eq_None_not_Some. Qed.

#[global] Instance linked_threadlists : ThreadLists heap := {|
  tl_rep := rep; tl_live := is_thread;
  tl_node_init := threadlistnode_init; tl_node_cleanup := threadlistnode_cleanup;
  tl_init := threadlist_init; tl_cleanup := threadlist_cleanup; tl_num := get_count;
  tl_addhead := threadlist_addhead; tl_addtail := threadlist_addtail;
  tl_remhead := threadlist_remhead; tl_remtail := threadlist_remtail;
  tl_nodup h ls l ts Hr Hl := il_nodup _ _ _ (rep_list _ _ Hr _ _ Hl);
  tl_disj h ls l1 l2 ts1 ts2 t Hr := rep_disj _ _ Hr l1 l2 ts1 ts2 t;
  tl_drop := rep_drop; tl_node_init_ok := node_init_ok; tl_node_cleanup_ok := node_cleanup_ok;
  tl_init_ok := init_list_spec; tl_cleanup_ok := list_cleanup_ok; tl_num_ok := num_ok;
  tl_addhead_ok := addhead_ok; tl_addtail_ok := addtail_ok;
  tl_remhead_ok := remhead_spec; tl_remtail_ok := remtail_spec |}.

End Threadlist.
