(* ===== verification/Sched.v ===== *)
(** * Threads, processors and wait channels: src/thread/thread.c

    [Sched] models the machine-independent thread system over any
    implementation of the thread lists ([Threadlist.ThreadLists]).  An
    operation is run by one processor, on behalf of [curthread]; a context
    switch carries on as the thread switched to, up to the point where that
    thread leaves [thread_switch] (or enters its entry point), or leaves the
    processor idle when its run queue is empty.  [idle_poll] is one turn of the
    idle loop. *)

From S2P Require Import Prelude Spl Threadlist.
Import Spl Threadlist.

Module Sched.

Definition THREAD_STACK_MAGIC : Z := 0xbaadf00d.
Definition TLBSHOOTDOWN_MAX : Z := 16.
Definition TLBSHOOTDOWN_ALL : Z := -1.
Definition IPI_PANIC : Z := 0.
Definition IPI_OFFLINE : Z := 1.
Definition IPI_UNIDLE : Z := 2.
Definition IPI_TLBSHOOTDOWN : Z := 3.
(** [STACK_SIZE] in words. *)
Definition STACK_WORDS : Z := 1024.

Inductive threadstate := S_RUN | S_READY | S_SLEEP | S_ZOMBIE.
#[global] Instance threadstate_eq_dec : EqDecision threadstate.
Proof. solve_decision. Defined.

(** [struct thread], but for its list node (in the lists) and its interrupt
    level (in [ipls]).  [t_stack] is the stack's words, [None] for NULL;
    [t_proc] is 0 for NULL; [t_context] is what the saved context resumes:
    the tail of [thread_switch] with its local [spl], or [thread_startup]. *)
Inductive context := Resume (spl : Z) | Startup.
Record thread := mkThread {
  t_state : threadstate; t_stack : option (list Z); t_context : context;
  t_cpu : Z; t_proc : Z; t_in_interrupt : bool }.

Definition set_state (s : threadstate) (t : thread) :=
  mkThread s (t_stack t) (t_context t) (t_cpu t) (t_proc t) (t_in_interrupt t).
Definition set_stack (s : option (list Z)) (t : thread) :=
  mkThread (t_state t) s (t_context t) (t_cpu t) (t_proc t) (t_in_interrupt t).
Definition set_context (c : context) (t : thread) :=
  mkThread (t_state t) (t_stack t) c (t_cpu t) (t_proc t) (t_in_interrupt t).
Definition set_cpu (c : Z) (t : thread) :=
  mkThread (t_state t) (t_stack t) (t_context t) c (t_proc t) (t_in_interrupt t).
Definition set_proc (p : Z) (t : thread) :=
  mkThread (t_state t) (t_stack t) (t_context t) (t_cpu t) p (t_in_interrupt t).

(** [struct cpu], but for its lists and locks; its number is its index. *)
Record cpu := mkCpu {
  c_curthread : Z; c_hardclocks : Z; c_isidle : bool;
  c_ipi_pending : Z; c_shootdown : list Z; c_numshootdown : Z }.

Definition set_curthread (t : Z) (c : cpu) :=
  mkCpu t (c_hardclocks c) (c_isidle c) (c_ipi_pending c) (c_shootdown c) (c_numshootdown c).
Definition set_hardclocks (n : Z) (c : cpu) :=
  mkCpu (c_curthread c) n (c_isidle c) (c_ipi_pending c) (c_shootdown c) (c_numshootdown c).
Definition set_isidle (b : bool) (c : cpu) :=
  mkCpu (c_curthread c) (c_hardclocks c) b (c_ipi_pending c) (c_shootdown c) (c_numshootdown c).
Definition set_ipi_pending (p : Z) (c : cpu) :=
  mkCpu (c_curthread c) (c_hardclocks c) (c_isidle c) p (c_shootdown c) (c_numshootdown c).
Definition set_shootdown (l : list Z) (n : Z) (c : cpu) :=
  mkCpu (c_curthread c) (c_hardclocks c) (c_isidle c) (c_ipi_pending c) l n.

(** The spinlocks of the thread system. *)
Inductive lockref := LRunq (c : Z) | LIpi (c : Z) | LWchan (w : Z) | LProc (p : Z).
#[global] Instance lockref_eq_dec : EqDecision lockref.
Proof. solve_decision. Defined.
#[global] Instance lockref_countable : Countable lockref.
Proof.
  refine (inj_countable'
    (fun l => match l with
              | LRunq c => inl (inl c) | LIpi c => inl (inr c)
              | LWchan w => inr (inl w) | LProc p => inr (inr p) end)
    (fun s => match s with
              | inl (inl c) => LRunq c | inl (inr c) => LIpi c
              | inr (inl w) => LWchan w | inr (inr p) => LProc p end) _).
  by intros [].
Defined.

Section Sched.
Context {H : Type} `{!ThreadLists H}.

(** The kernel's thread system.  [ipls] holds [t_curspl], [t_iplhigh_count]
    and, for a thread on a processor, whether that processor takes
    interrupts; [procs] the thread array of each process; [curthread] is the
    register; [next_id] names the next [struct thread] allocated; [oracle]
    says which of the coming [kmalloc] calls succeed. *)
Record kernel := mkKernel {
  lists : H; threads : gmap Z thread; ipls : gmap Z ipl; locks : gmap lockref spinlock;
  cpus : list cpu; procs : gmap Z (list Z); curthread : Z; next_id : Z; oracle : list bool }.

Definition on_lists {A} (m : M H A) : M kernel A :=
  zoom lists (fun h k => mkKernel h (threads k) (ipls k) (locks k) (cpus k) (procs k)
                           (curthread k) (next_id k) (oracle k)) m.
Definition put_threads (x : gmap Z thread) : M kernel unit :=
  modify (fun k => mkKernel (lists k) x (ipls k) (locks k) (cpus k) (procs k)
                     (curthread k) (next_id k) (oracle k)).
Definition put_ipls (x : gmap Z ipl) : M kernel unit :=
  modify (fun k => mkKernel (lists k) (threads k) x (locks k) (cpus k) (procs k)
                     (curthread k) (next_id k) (oracle k)).
Definition put_locks (x : gmap lockref spinlock) : M kernel unit :=
  modify (fun k => mkKernel (lists k) (threads k) (ipls k) x (cpus k) (procs k)
                     (curthread k) (next_id k) (oracle k)).
Definition put_cpus (x : list cpu) : M kernel unit :=
  modify (fun k => mkKernel (lists k) (threads k) (ipls k) (locks k) x (procs k)
                     (curthread k) (next_id k) (oracle k)).
Definition put_procs (x : gmap Z (list Z)) : M kernel unit :=
  modify (fun k => mkKernel (lists k) (threads k) (ipls k) (locks k) (cpus k) x
                     (curthread k) (next_id k) (oracle k)).
Definition put_curthread (x : Z) : M kernel unit :=
  modify (fun k => mkKernel (lists k) (threads k) (ipls k) (locks k) (cpus k) (procs k)
                     x (next_id k) (oracle k)).
Definition put_next_id (x : Z) : M kernel unit :=
  modify (fun k => mkKernel (lists k) (threads k) (ipls k) (locks k) (cpus k) (procs k)
                     (curthread k) x (oracle k)).

(** Whether the next [kmalloc] succeeds. *)
Definition alloc : M kernel bool :=
  fun k => Ret (match oracle k with b :: _ => b | [] => true end)
             (mkKernel (lists k) (threads k) (ipls k) (locks k) (cpus k) (procs k)
                (curthread k) (next_id k) (tail (oracle k))).

Definition get_thread (t : Z) : M kernel thread :=
  let* k := get in of_option Wild (threads k !! t).
Definition upd_thread (t : Z) (f : thread -> thread) : M kernel unit :=
  let* k := get in
  let* th := of_option Wild (threads k !! t) in
  put_threads (<[t := f th]> (threads k)).
Definition get_cpu (c : Z) : M kernel cpu :=
  let* k := get in of_option Wild (zlookup (cpus k) c).
Definition upd_cpu (c : Z) (f : cpu -> cpu) : M kernel unit :=
  let* k := get in
  let* cp := of_option Wild (zlookup (cpus k) c) in
  put_cpus (zinsert (cpus k) c (f cp)).

(** [curcpu] is [curthread->t_cpu] (arch/mips/include/current.h). *)
Definition curcpu : M kernel Z :=
  let* k := get in
  let* t := get_thread (curthread k) in
  ret (t_cpu t).

(** The spl calls and the spinlock calls of [curthread]. *)
Definition on_ipl {A} (f : option Z -> M ipl A) : M kernel A :=
  let* k := get in
  let* c := curcpu in
  let* i := of_option Wild (ipls k !! curthread k) in
  fun k' => match f (Some c) i with
            | Ret a i' => (put_ipls (<[curthread k := i']> (ipls k)) ;; ret a) k'
            | Err e _ => Err e k'
            | Crash x => Crash x
            end.
Definition on_lock (l : lockref) (f : option Z -> M (ipl * spinlock) unit) : M kernel unit :=
  let* k := get in
  let* c := curcpu in
  let* i := of_option Wild (ipls k !! curthread k) in
  let* lk := of_option Wild (locks k !! l) in
  fun k' => match f (Some c) (i, lk) with
            | Ret _ (i', lk') =>
                (put_ipls (<[curthread k := i']> (ipls k)) ;; put_locks (<[l := lk']> (locks k))) k'
            | Err e _ => Err e k'
            | Crash x => Crash x
            end.
Definition acquire (l : lockref) : M kernel unit := on_lock l spinlock_acquire.
Definition release (l : lockref) : M kernel unit := on_lock l spinlock_release.
Definition do_i_hold (l : lockref) : M kernel bool :=
  let* k := get in
  let* c := curcpu in
  let* lk := of_option Wild (locks k !! l) in
  ret (spinlock_do_i_hold (Some c) lk).

(** ** Interprocessor interrupts *)

Definition ipi_send (target code : Z) : M kernel unit :=
  KASSERT ((0 <=? code) && (code <? 32)) ;;
  acquire (LIpi target) ;;
  upd_cpu target (fun c => set_ipi_pending (Z.lor (c_ipi_pending c) (bit_mask code)) c) ;;
  (* mainbus_send_ipi(target) pokes the hardware *)
  release (LIpi target).

Definition ipi_broadcast (code : Z) : M kernel unit :=
  let* k := get in
  for_ (length (cpus k)) 0 (fun i =>
    let* self := curcpu in
    if* negb (i =? self) then ipi_send i code).

(** [mapping] is the address of a [struct tlbshootdown]'s contents. *)
Definition ipi_tlbshootdown (target mapping : Z) : M kernel unit :=
  acquire (LIpi target) ;;
  let* c := get_cpu target in
  let n := c_numshootdown c in
  (if n =? TLBSHOOTDOWN_MAX
   then upd_cpu target (fun c => set_shootdown (c_shootdown c) TLBSHOOTDOWN_ALL c)
   else if (0 <=? n) && (n <? zlen (c_shootdown c))
        then upd_cpu target (fun c => set_shootdown (zinsert (c_shootdown c) n mapping) (n + 1) c)
        else crashed Wild) ;;
  upd_cpu target (fun c => set_ipi_pending (Z.lor (c_ipi_pending c) (bit_mask IPI_TLBSHOOTDOWN)) c) ;;
  release (LIpi target).

(** What the interrupted processor does to its TLB; [Halted] never returns. *)
Inductive tlb_action := Flush_all | Flush_one (mapping : Z) | Halted.

Fixpoint shootdowns (n : nat) (i : Z) (l : list Z) : M kernel (list tlb_action) :=
  match n with
  | O => ret []
  | S n' =>
      let* m := of_option Wild (zlookup l i) in
      let* rest := shootdowns n' (i + 1) l in
      ret (Flush_one m :: rest)
  end.

Definition interprocessor_interrupt : M kernel (list tlb_action) :=
  let* self := curcpu in
  acquire (LIpi self) ;;
  let* c := get_cpu self in
  let bits := c_ipi_pending c in
  if Z.testbit bits IPI_PANIC then ret [Halted]
  else if Z.testbit bits IPI_OFFLINE then
    acquire (LRunq self) ;; release (LRunq self) ;; ret [Halted]
  else
    let* acts :=
      (if Z.testbit bits IPI_TLBSHOOTDOWN then
         let* acts :=
           (if c_numshootdown c =? TLBSHOOTDOWN_ALL then ret [Flush_all]
            else shootdowns (Z.to_nat (c_numshootdown c)) 0 (c_shootdown c)) in
         upd_cpu self (fun c => set_shootdown (c_shootdown c) 0 c) ;;
         ret acts
       else ret []) in
    upd_cpu self (set_ipi_pending 0) ;;
    release (LIpi self) ;;
    ret acts.

(** ** Threads and their processes *)

Definition proc_addthread (proc t : Z) : M kernel unit :=
  let* th := get_thread t in
  KASSERT (t_proc th =? 0) ;;
  acquire (LProc proc) ;;
  let* ok := alloc in
  let* k := get in
  let* ts := of_option Wild (procs k !! proc) in
  (if* ok then put_procs (<[proc := ts ++ [t]]> (procs k))) ;;
  release (LProc proc) ;;
  if negb ok then err ENOMEM else upd_thread t (set_proc proc).

(** The search of [proc_remthread]. *)
Fixpoint find_thread (t i : Z) (ts : list Z) : option Z :=
  match ts with
  | [] => None
  | x :: ts => if x =? t then Some i else find_thread t (i + 1) ts
  end.

Definition proc_remthread (t : Z) : M kernel unit :=
  let* th := get_thread t in
  let proc := t_proc th in
  KASSERT (negb (proc =? 0)) ;;
  acquire (LProc proc) ;;
  let* k := get in
  let* ts := of_option Wild (procs k !! proc) in
  match find_thread t 0 ts with
  | Some i =>
      put_procs (<[proc := ztake i ts ++ zdrop (i + 1) ts]> (procs k)) ;;
      release (LProc proc) ;;
      upd_thread t (set_proc 0)
  | None => release (LProc proc) ;; panic
  end.

Definition thread_checkstack_init (t : Z) : M kernel unit :=
  let* th := get_thread t in
  let* s := of_option Wild (t_stack th) in
  if zlen s <? 4 then crashed Wild
  else upd_thread t (set_stack (Some (zsplice s 0 (zrep 4 THREAD_STACK_MAGIC)))).

Definition guard_ok (s : list Z) (i : Z) : bool := bool_decide (zlookup s i = Some THREAD_STACK_MAGIC).
Definition thread_checkstack (t : Z) : M kernel unit :=
  let* th := get_thread t in
  match t_stack th with
  | None => ret tt
  | Some s => KASSERT (guard_ok s 0) ;; KASSERT (guard_ok s 1) ;;
              KASSERT (guard_ok s 2) ;; KASSERT (guard_ok s 3)
  end.

(** NULL is [None]. *)
Definition thread_create : M kernel (option Z) :=
  let* ok := alloc in
  if negb ok then ret None
  else
    let* ok := alloc in   (* kstrdup(name) *)
    if negb ok then ret None
    else
      let* k := get in
      let t := next_id k in
      put_next_id (t + 1) ;;
      put_threads (<[t := mkThread S_READY None Startup 0 0 false]> (threads k)) ;;
      on_lists (tl_node_init t) ;;
      put_ipls (<[t := mkIpl IPL_HIGH 1 false]> (ipls k)) ;;
      ret (Some t).

Definition thread_destroy (t : Z) : M kernel unit :=
  let* k := get in
  KASSERT (negb (t =? curthread k)) ;;
  let* th := get_thread t in
  KASSERT (bool_decide (t_state th <> S_RUN)) ;;
  KASSERT (t_proc th =? 0) ;;
  on_lists (tl_node_cleanup t) ;;
  put_threads (delete t (threads k)) ;;
  put_ipls (delete t (ipls k)).

(** One [thread_destroy] per round; the zombies are threads, so their number
    bounds the rounds. *)
Fixpoint exorcise_loop (fuel : nat) : M kernel unit :=
  match fuel with
  | O => crashed Hung
  | S f =>
      let* self := curcpu in
      let* z := on_lists (tl_remhead (Zombies self)) in
      match z with
      | None => ret tt
      | Some z =>
          let* k := get in
          KASSERT (negb (z =? curthread k)) ;;
          let* th := get_thread z in
          KASSERT (bool_decide (t_state th = S_ZOMBIE)) ;;
          thread_destroy z ;;
          exorcise_loop f
      end
  end.
Definition exorcise : M kernel unit :=
  let* k := get in exorcise_loop (S (size (threads k))).

Definition thread_make_runnable (target : Z) (already_have_lock : bool) : M kernel unit :=
  let* th := get_thread target in
  let targetcpu := t_cpu th in
  (if already_have_lock
   then let* held := do_i_hold (LRunq targetcpu) in KASSERT held
   else acquire (LRunq targetcpu)) ;;
  let* c := get_cpu targetcpu in
  let isidle := c_isidle c in
  on_lists (tl_addtail (RunQ targetcpu) target) ;;
  (if* isidle then ipi_send targetcpu IPI_UNIDLE) ;;
  if* negb already_have_lock then release (LRunq targetcpu).

(** [proc] is 0 for NULL; [kmalloc(STACK_SIZE)] gives [STACK_WORDS] words. *)
Definition thread_fork (proc : Z) : M kernel unit :=
  let* newthread := thread_create in
  match newthread with
  | None => err ENOMEM
  | Some t =>
      let* ok := alloc in
      if negb ok then thread_destroy t ;; err ENOMEM
      else
        upd_thread t (set_stack (Some (zrep STACK_WORDS 0))) ;;
        thread_checkstack_init t ;;
        let* k := get in
        let* cur := get_thread (curthread k) in
        upd_thread t (set_cpu (t_cpu cur)) ;;
        let proc := if proc =? 0 then t_proc cur else proc in
        let* r := try (proc_addthread proc t) in
        match r with
        | inr e => thread_destroy t ;; err e
        | inl _ =>
            let* k := get in
            let* i := of_option Wild (ipls k !! t) in
            put_ipls (<[t := set_iplhigh_count (t_iplhigh_count i + 1) i]> (ipls k)) ;;
            upd_thread t (set_context Startup) ;;     (* switchframe_init *)
            thread_make_runnable t false
        end
  end.

(** ** Context switch *)

(** How a call of [thread_switch] ended on this processor. *)
Inductive switched := Stayed | Switched | Idle.

(** The thread just switched to goes on: the tail of [thread_switch], or
    [thread_startup] up to the call of its entry point. *)
Definition switch_in : M kernel unit :=
  let* k := get in
  let* th := get_thread (curthread k) in
  upd_thread (curthread k) (set_state S_RUN) ;;
  let* self := curcpu in
  release (LRunq self) ;;
  (* as_activate() *)
  exorcise ;;
  match t_context th with
  | Resume spl => let* _ := on_ipl (fun c => splx c spl) in ret tt
  | Startup => let* _ := on_ipl spl0 in ret tt
  end.

(** One turn of the idle loop, entered with the run queue locked: take the
    next thread and switch to it, or unlock and idle. *)
Definition pick_next : M kernel switched :=
  let* self := curcpu in
  let* next := on_lists (tl_remhead (RunQ self)) in
  match next with
  | None => release (LRunq self) ;; ret Idle
  | Some next =>
      upd_cpu self (set_isidle false) ;;
      upd_cpu self (set_curthread next) ;;
      put_curthread next ;;
      switch_in ;;
      ret Switched
  end.

(** After [cpu_idle()] returns. *)
Definition idle_poll : M kernel switched :=
  let* self := curcpu in
  acquire (LRunq self) ;;
  pick_next.

(** The [switch (newstate)]: put [cur] in the right place. *)
Definition put_away (newstate : threadstate) (wc : option Z) (cur self : Z) : M kernel unit :=
  match newstate with
  | S_RUN => panic
  | S_READY => thread_make_runnable cur true
  | S_SLEEP =>
      let* w := of_option Wild wc in
      on_lists (tl_addtail (WaitQ w) cur) ;;
      release (LWchan w)
  | S_ZOMBIE => on_lists (tl_addtail (Zombies self) cur)
  end.

Definition thread_switch (newstate : threadstate) (wc : option Z) : M kernel switched :=
  let* spl := on_ipl splhigh in
  let* k := get in
  let cur := curthread k in
  let* self := curcpu in
  let* c := get_cpu self in
  if c_isidle c then let* _ := on_ipl (fun m => splx m spl) in ret Stayed
  else
    thread_checkstack cur ;;
    acquire (LRunq self) ;;
    let* n := on_lists (tl_num (RunQ self)) in
    if bool_decide (newstate = S_READY) && (n =? 0)
    then release (LRunq self) ;; let* _ := on_ipl (fun m => splx m spl) in ret Stayed
    else
      put_away newstate wc cur self ;;
      upd_thread cur (set_state newstate) ;;
      upd_cpu self (set_isidle true) ;;
      upd_thread cur (set_context (Resume spl)) ;;
      pick_next.

Definition thread_yield : M kernel switched := thread_switch S_READY None.

(** [kproc] is the kernel process. *)
Definition thread_exit (kproc : Z) : M kernel switched :=
  let* k := get in
  let cur := curthread k in
  let* th := get_thread cur in
  KASSERT ((t_proc th =? kproc) || (t_proc th =? 0)) ;;
  (if* t_proc th =? kproc then proc_remthread cur) ;;
  let* th := get_thread cur in
  KASSERT (t_proc th =? 0) ;;
  thread_checkstack cur ;;
  let* _ := on_ipl splhigh in
  let* r := thread_switch S_ZOMBIE None in
  match r with
  | Stayed => panic   (* The zombie walks! *)
  | _ => ret r
  end.

(** ** Wait channels *)

Definition wchan_lock (w : Z) : M kernel unit := acquire (LWchan w).
Definition wchan_unlock (w : Z) : M kernel unit := release (LWchan w).

Definition wchan_sleep (w : Z) : M kernel switched :=
  let* k := get in
  let* th := get_thread (curthread k) in
  KASSERT (negb (t_in_interrupt th)) ;;
  thread_switch S_SLEEP (Some w).

Definition wchan_wakeone (w : Z) : M kernel unit :=
  acquire (LWchan w) ;;
  let* target := on_lists (tl_remhead (WaitQ w)) in
  release (LWchan w) ;;
  match target with
  | None => ret tt
  | Some t => thread_make_runnable t false
  end.

(** Move every element of one list to the tail of another. *)
Fixpoint drain (fuel : nat) (from to : listid) : M kernel unit :=
  match fuel with
  | O => crashed Hung
  | S f =>
      let* t := on_lists (tl_remhead from) in
      match t with
      | None => ret tt
      | Some t => on_lists (tl_addtail to t) ;; drain f from to
      end
  end.
Fixpoint make_all_runnable (fuel : nat) (from : listid) : M kernel unit :=
  match fuel with
  | O => crashed Hung
  | S f =>
      let* t := on_lists (tl_remhead from) in
      match t with
      | None => ret tt
      | Some t => thread_make_runnable t false ;; make_all_runnable f from
      end
  end.

Definition wchan_wakeall (w : Z) : M kernel unit :=
  let list := Local 0 in
  on_lists (tl_init list) ;;
  acquire (LWchan w) ;;
  let* k := get in
  drain (S (size (threads k))) (WaitQ w) list ;;
  release (LWchan w) ;;
  make_all_runnable (S (size (threads k))) list ;;
  on_lists (tl_cleanup list).

Definition wchan_isempty (w : Z) : M kernel bool :=
  acquire (LWchan w) ;;
  let* n := on_lists (tl_num (WaitQ w)) in
  release (LWchan w) ;;
  ret (n =? 0).

(** ** Migration *)

(** The counting loop: every run queue's length, and this processor's. *)
Fixpoint count_threads (n : nat) (i my_count total_count : Z) : M kernel (Z * Z) :=
  match n with
  | O => ret (my_count, total_count)
  | S n' =>
      acquire (LRunq i) ;;
      let* cnt := on_lists (tl_num (RunQ i)) in
      let* self := curcpu in
      release (LRunq i) ;;
      count_threads n' (i + 1) (if i =? self then cnt else my_count) (u32 (total_count + cnt))
  end.

(** [for (i=0; i<to_send; i++)] take a victim from the tail of our queue. *)
Fixpoint take_victims (n : nat) (self : Z) (victims : listid) : M kernel unit :=
  match n with
  | O => ret tt
  | S n' =>
      let* t := on_lists (tl_remtail (RunQ self)) in
      let* t := of_option Wild t in
      on_lists (tl_addhead victims t) ;;
      take_victims n' self victims
  end.

(** The inner loop: send victims to processor [c] while it has less than its
    share.  Each round lowers [to_send], which is thus enough fuel. *)
Fixpoint send_victims (fuel : nat) (c one_share to_send : Z) (victims : listid) : M kernel Z :=
  match fuel with
  | O => ret to_send
  | S f =>
      let* n := on_lists (tl_num (RunQ c)) in
      if (n <? one_share) && (0 <? to_send) then
        let* t := on_lists (tl_remhead victims) in
        let* t := of_option Wild t in
        let* k := get in
        if t =? curthread k then
          on_lists (tl_addtail victims t) ;;
          send_victims f c one_share (to_send - 1) victims
        else
          upd_thread t (set_cpu c) ;;
          on_lists (tl_addtail (RunQ c) t) ;;
          let* cp := get_cpu c in
          (if* c_isidle cp then ipi_send c IPI_UNIDLE) ;;
          send_victims f c one_share (to_send - 1) victims
      else ret to_send
  end.

(** The outer loop over the processors from [i]. *)
Fixpoint send_loop (n : nat) (i one_share to_send : Z) (victims : listid) : M kernel unit :=
  match n with
  | O => ret tt
  | S n' =>
      if 0 <? to_send then
        let* self := curcpu in
        if i =? self then send_loop n' (i + 1) one_share to_send victims
        else
          acquire (LRunq i) ;;
          let* left := send_victims (Z.to_nat to_send) i one_share to_send victims in
          release (LRunq i) ;;
          send_loop n' (i + 1) one_share left victims
      else ret tt
  end.

Definition thread_consider_migration : M kernel unit :=
  let* k := get in
  let numcpus := length (cpus k) in
  let* counts := count_threads numcpus 0 0 0 in
  let '(my_count, total_count) := counts in
  let one_share := DIVROUNDUP total_count (Z.of_nat numcpus) in
  if my_count <? one_share then ret tt
  else
    let to_send := my_count - one_share in
    let victims := Local 0 in
    on_lists (tl_init victims) ;;
    let* self := curcpu in
    acquire (LRunq self) ;;
    take_victims (Z.to_nat to_send) self victims ;;
    release (LRunq self) ;;
    send_loop numcpus 0 one_share to_send victims ;;
    let* left := on_lists (tl_num victims) in
    (if* negb (left =? 0) then
       (acquire (LRunq self) ;;
        drain (S (size (threads k))) victims (RunQ self) ;;
        release (LRunq self))) ;;
    let* left := on_lists (tl_num victims) in
    KASSERT (left =? 0) ;;
    on_lists (tl_cleanup victims).

(** ** The clock (src/thread/clock.c) *)

Definition SCHEDULE_HARDCLOCKS : Z := 4.
Definition MIGRATE_HARDCLOCKS : Z := 16.

(** [schedule()] does nothing. *)
Definition schedule : M kernel unit := ret tt.

Definition hardclock : M kernel switched :=
  let* self := curcpu in
  upd_cpu self (fun c => set_hardclocks (u32 (c_hardclocks c + 1)) c) ;;
  let* c := get_cpu self in
  (if* c_hardclocks c mod SCHEDULE_HARDCLOCKS =? 0 then schedule) ;;
  (if* c_hardclocks c mod MIGRATE_HARDCLOCKS =? 0 then thread_consider_migration) ;;
  thread_yield.

(** [lbolt] is the wait channel of the once-a-second tick. *)
Definition timerclock (lbolt : Z) : M kernel unit := wchan_wakeall lbolt.

End Sched.
End Sched.
