(* ===== verification/SchedInv.v ===== *)
(** * Invariants of the thread system

    The invariant of [Sched] says where every thread is: running on exactly
    one processor, or on exactly one run queue, wait channel or zombie list;
    that no spinlock is held between operations; and that every thread's
    interrupt level is what the code that will resume it expects.  Every
    operation keeps it. *)

From S2P Require Import Prelude Spl Threadlist Sched.
Import Spl Threadlist Sched.

Module SchedInv.

(** The interrupt level [s] with [n] spinlocks held. *)
Definition lvl (s n : Z) : ipl := mkIpl s (s + n) (bool_decide (s + n = 0)).
Definition is_spl (s : Z) : Prop := s = IPL_NONE \/ s = IPL_HIGH.

Lemma lvl_ok s n : is_spl s -> 0 <= n -> ipl_ok n (lvl s n).
Proof. intros. by apply ipl_ok_intro. Qed.

Lemma ipl_ok_lvl n i : ipl_ok n i -> i = lvl (t_curspl i) n.
Proof. destruct i as [s c b]. intros (_ & _ & Hc & Hb). simpl in *. subst. done. Qed.

Section Inv.
Context {H : Type} `{!ThreadLists H}.
Abbreviation kernel := (@kernel H).

(** ** The running context: which locks are held, at what level *)

Record ctx (th : gmap Z thread) (il : gmap Z ipl) (lk : gmap lockref spinlock)
    (cur c s : Z) (D : gset lockref) : Prop := {
  ctx_cpu : exists t0, th !! cur = Some t0 /\ t_cpu t0 = c;
  ctx_lvl : il !! cur = Some (lvl s (Z.of_nat (size D)));
  ctx_spl : is_spl s;
  ctx_locks : forall l v, lk !! l = Some v -> v = if bool_decide (l ∈ D) then held_by c else free }.

(** Another context of the same thread: only its level and the locks moved. *)
Definition il_same (cur : Z) (il il' : gmap Z ipl) (lk lk' : gmap lockref spinlock) : Prop :=
  (forall t, t <> cur -> il' !! t = il !! t) /\ (forall l, is_Some (lk' !! l) <-> is_Some (lk !! l)).

Lemma il_same_trans cur il il' il'' lk lk' lk'' :
  il_same cur il il' lk lk' -> il_same cur il' il'' lk' lk'' -> il_same cur il il'' lk lk''.
Proof. intros [H1 H2] [H3 H4]. split; [intros; by rewrite H3, H1|intros; by rewrite H4, H2]. Qed.

Lemma runs_curcpu hl th il lk cp pr cur nx o t0 (Q : Z -> kernel -> Prop) R :
  th !! cur = Some t0 ->
  Q (t_cpu t0) (mkKernel hl th il lk cp pr cur nx o) ->
  runs (curcpu (mkKernel hl th il lk cp pr cur nx o)) Q R.
Proof.
  intros Ht HQ. unfold curcpu, get_thread. runs_steps. apply (runs_of_option _ _ t0); [done|]. by runs_steps.
Qed.

Lemma runs_acquire hl th il lk cp pr cur nx o c s D l (Q : unit -> kernel -> Prop) R :
  ctx th il lk cur c s D -> is_Some (lk !! l) -> l ∉ D ->
  (forall il' lk', ctx th il' lk' cur c s ({[l]} ∪ D) -> il_same cur il il' lk lk' ->
     Q tt (mkKernel hl th il' lk' cp pr cur nx o)) ->
  runs (acquire l (mkKernel hl th il lk cp pr cur nx o)) Q R.
Proof.
  intros [(t0 & Ht & Hc) Hl Hs Hlk] [v Hv] HD HQ. unfold acquire, on_lock. runs_steps.
  eapply runs_curcpu; [done|]. rewrite Hc. runs_steps. apply (runs_of_option _ _ (lvl s (Z.of_nat (size D)))); [done|].
  runs_steps. apply (runs_of_option _ _ v); [done|].
  assert (v = free) as -> by (rewrite (Hlk l v Hv), bool_decide_false by done; done).
  pose proof (acquire_spec c _ _ (lvl_ok s (Z.of_nat (size D)) Hs ltac:(lia))) as Ha.
  destruct (spinlock_acquire (Some c) (lvl s (Z.of_nat (size D)), free)) as [[] [i' v']|? [??]|]; try done.
  simpl in Ha. destruct Ha as (Hi & Hs' & ->). unfold put_ipls, put_locks. runs_steps. simpl. apply HQ.
  - split; [by exists t0| |done|].
    + rewrite lookup_insert_eq, (ipl_ok_lvl _ _ Hi), Hs'. f_equal. simpl. f_equal.
      rewrite size_union, size_singleton by set_solver. lia.
    + intros l' v'. destruct (decide (l' = l)) as [->|].
      * rewrite lookup_insert_eq, bool_decide_true by set_solver. by intros [= <-].
      * rewrite lookup_insert_ne by done. intros Hv'%Hlk. rewrite Hv'.
        assert (l' ∈ {[l]} ∪ D <-> l' ∈ D) as He by set_solver. by rewrite (bool_decide_ext _ _ He).
  - split; [intros t Hne; by rewrite lookup_insert_ne|].
    intros l'. destruct (decide (l' = l)) as [->|]; [rewrite lookup_insert_eq, Hv|rewrite lookup_insert_ne by done]; naive_solver.
Qed.

Lemma runs_release hl th il lk cp pr cur nx o c s D l (Q : unit -> kernel -> Prop) R :
  ctx th il lk cur c s D -> is_Some (lk !! l) -> l ∈ D ->
  (forall il' lk', ctx th il' lk' cur c s (D ∖ {[l]}) -> il_same cur il il' lk lk' ->
     Q tt (mkKernel hl th il' lk' cp pr cur nx o)) ->
  runs (release l (mkKernel hl th il lk cp pr cur nx o)) Q R.
Proof.
  intros [(t0 & Ht & Hc) Hl Hs Hlk] [v Hv] HD HQ. unfold release, on_lock. runs_steps.
  eapply runs_curcpu; [done|]. rewrite Hc. runs_steps. apply (runs_of_option _ _ (lvl s (Z.of_nat (size D)))); [done|].
  runs_steps. apply (runs_of_option _ _ v); [done|].
  assert (v = held_by c) as -> by (rewrite (Hlk l v Hv), bool_decide_true by done; done).
  assert (Z.of_nat (size D) = Z.of_nat (size (D ∖ {[l]})) + 1) as Hsz.
  { rewrite (union_difference_L {[l]} D) at 1 by set_solver.
    rewrite size_union, size_singleton by set_solver. lia. }
  pose proof (lvl_ok s (Z.of_nat (size D)) Hs ltac:(lia)) as Hok. rewrite Hsz in *.
  pose proof (release_spec c _ _ Hok ltac:(lia)) as Ha.
  destruct (spinlock_release (Some c) _) as [[] [i' v']|? [??]|]; try done.
  simpl in Ha. destruct Ha as (Hi & Hs' & ->). unfold put_ipls, put_locks. runs_steps. simpl. apply HQ.
  - split; [by exists t0| |done|].
    + by rewrite lookup_insert_eq, (ipl_ok_lvl _ _ Hi), Hs'.
    + intros l' v'. destruct (decide (l' = l)) as [->|].
      * rewrite lookup_insert_eq, bool_decide_false by set_solver. by intros [= <-].
      * rewrite lookup_insert_ne by done. intros Hv'%Hlk. rewrite Hv'.
        assert (l' ∈ D ∖ {[l]} <-> l' ∈ D) as He by set_solver. by rewrite (bool_decide_ext _ _ He).
  - split; [intros t Hne; by rewrite lookup_insert_ne|].
    intros l'. destruct (decide (l' = l)) as [->|]; [rewrite lookup_insert_eq, Hv|rewrite lookup_insert_ne by done]; naive_solver.
Qed.

Lemma runs_splx hl th il lk cp pr cur nx o c s D s' (Q : Z -> kernel -> Prop) R :
  ctx th il lk cur c s D -> is_spl s' ->
  (forall il', ctx th il' lk cur c s' D -> il_same cur il il' lk lk ->
     Q s (mkKernel hl th il' lk cp pr cur nx o)) ->
  runs (on_ipl (fun m => splx m s') (mkKernel hl th il lk cp pr cur nx o)) Q R.
Proof.
  intros [(t0 & Ht & Hc) Hl Hs Hlk] Hs' HQ. unfold on_ipl. runs_steps.
  eapply runs_curcpu; [done|]. rewrite Hc. runs_steps. apply (runs_of_option _ _ (lvl s (Z.of_nat (size D)))); [done|].
  pose proof (splx_spec c _ _ s' (lvl_ok s (Z.of_nat (size D)) Hs ltac:(lia)) Hs') as Ha.
  destruct (splx (Some c) s' _) as [old i'|? ?|]; try done.
  simpl in Ha. destruct Ha as (-> & Hi & Hcs). unfold put_ipls. runs_steps. simpl. apply HQ.
  - split; [by exists t0| |done|done]. by rewrite lookup_insert_eq, (ipl_ok_lvl _ _ Hi), Hcs.
  - split; [intros t Hne; by rewrite lookup_insert_ne|done].
Qed.

(** ** Where the threads are *)

Definition stack_ok (t0 : thread) : Prop :=
  match t_stack t0 with
  | None => True
  | Some w => guard_ok w 0 = true /\ guard_ok w 1 = true /\ guard_ok w 2 = true /\ guard_ok w 3 = true
  end.

Definition context_ok (t0 : thread) : Prop :=
  match t_context t0 with Resume s => is_spl s | Startup => True end.

Definition runnable (t0 : thread) : Prop := t_state t0 = S_READY \/ t_state t0 = S_SLEEP.

(** What the list a thread is on says of it. *)
Definition list_ok (l : listid) (t0 : thread) : Prop :=
  match l with
  | RunQ c => t_cpu t0 = c /\ runnable t0
  | Zombies c => t_cpu t0 = c /\ t_state t0 = S_ZOMBIE /\ t_proc t0 = 0
  | WaitQ _ => t_state t0 = S_SLEEP
  | Local _ => runnable t0
  end.

(** The thread runs on its processor. *)
Definition running (cp : list cpu) (t : Z) (t0 : thread) : Prop :=
  t_state t0 = S_RUN /\
  exists c0, zlookup cp (t_cpu t0) = Some c0 /\ c_curthread c0 = t /\ c_isidle c0 = false.

(** The structures are consistent, but for a thread [x] in the middle of being
    moved ([x = 0]: none). *)
Record core (hl : H) (th : gmap Z thread) (cp : list cpu) (pr : gmap Z (list Z)) (nx : Z)
    (ls : gmap listid (list Z)) (x : Z) : Prop := {
  co_rep : tl_rep hl ls;
  co_lists : forall c, 0 <= c < zlen cp -> is_Some (ls !! RunQ c) /\ is_Some (ls !! Zombies c);
  co_live : forall t, is_Some (th !! t) -> tl_live hl t;
  co_ids : forall t, tl_live hl t -> 0 < t < nx;
  co_on : forall l ts t, ls !! l = Some ts -> t ∈ ts ->
    exists t0, th !! t = Some t0 /\ (t <> x -> list_ok l t0);
  co_off : forall t t0, th !! t = Some t0 -> t <> x -> off_lists ls t -> running cp t t0;
  co_cpu : forall d c0, zlookup cp d = Some c0 ->
    exists t0, th !! c_curthread c0 = Some t0 /\ t_cpu t0 = d /\
      (c_isidle c0 = false -> c_curthread c0 <> x -> t_state t0 = S_RUN);
  co_wf : forall t t0, th !! t = Some t0 -> t <> x ->
    0 <= t_cpu t0 < zlen cp /\ stack_ok t0 /\ context_ok t0;
  co_proc : forall t t0, th !! t = Some t0 -> t <> x -> t_proc t0 <> 0 ->
    exists ts, pr !! t_proc t0 = Some ts /\ t ∈ ts;
  co_size : Z.of_nat (size th) + 1 < 2 ^ 32 }.

Lemma core_weaken hl th cp pr nx ls x : core hl th cp pr nx ls 0 -> core hl th cp pr nx ls x.
Proof.
  intros [Hrep Hls Hlive Hids Hon Hoff Hcpu Hwf Hpr Hsz].
  assert (forall t, is_Some (th !! t) -> t <> 0) as Hnz by (intros t Ht%Hlive%Hids; lia).
  split; try done.
  - intros l ts t Hl Ht. destruct (Hon _ _ _ Hl Ht) as (t0 & H0 & Hok). exists t0.
    split; [done|]. intros _. apply Hok, Hnz. eauto.
  - intros t t0 Ht _. apply Hoff; [done|]. apply Hnz. eauto.
  - intros d c0 Hd. destruct (Hcpu d c0 Hd) as (t0 & H0 & ? & Hr). exists t0. split_and!; [done..|].
    intros ? _. apply Hr; [done|]. apply Hnz. eauto.
  - intros t t0 Ht _. apply (Hwf t); [done|]. apply Hnz. eauto.
  - intros t t0 Ht _. apply (Hpr t); [done|]. apply Hnz. eauto.
Qed.

(** [x] has arrived: it is where its state says. *)
Definition settled (cp : list cpu) (pr : gmap Z (list Z)) (ls : gmap listid (list Z)) (x : Z)
    (tx : thread) : Prop :=
  (forall l ts, ls !! l = Some ts -> x ∈ ts -> list_ok l tx) /\
  (off_lists ls x -> running cp x tx) /\
  (forall d c0, zlookup cp d = Some c0 -> c_curthread c0 = x -> c_isidle c0 = false -> t_state tx = S_RUN) /\
  (0 <= t_cpu tx < zlen cp /\ stack_ok tx /\ context_ok tx) /\
  (t_proc tx <> 0 -> exists ts, pr !! t_proc tx = Some ts /\ x ∈ ts).

Lemma core_settle hl th cp pr nx ls x tx :
  core hl th cp pr nx ls x -> th !! x = Some tx -> settled cp pr ls x tx -> core hl th cp pr nx ls 0.
Proof.
  intros [Hrep Hls Hlive Hids Hon Hoff Hcpu Hwf Hpr Hsz] Hx (S1 & S2 & S3 & S4 & S5).
  split; try done.
  - intros l ts t Hl Ht. destruct (Hon _ _ _ Hl Ht) as (t0 & H0 & Hok). exists t0.
    split; [done|]. intros _. destruct (decide (t = x)) as [->|]; [simplify_eq; eauto|auto].
  - intros t t0 Ht _ Ho. destruct (decide (t = x)) as [->|]; [simplify_eq; auto|auto].
  - intros d c0 Hd. destruct (Hcpu d c0 Hd) as (t0 & H0 & ? & Hr). exists t0. split_and!; [done..|].
    intros ? _. destruct (decide (c_curthread c0 = x)) as [He|]; [|auto].
    rewrite He in H0. simplify_eq. eauto.
  - intros t t0 Ht _. destruct (decide (t = x)) as [->|]; [simplify_eq; auto|eauto].
  - intros t t0 Ht _. destruct (decide (t = x)) as [->|]; [simplify_eq; auto|eauto].
Qed.

(** The lists changed, but only in where [x] is. *)
Lemma core_relist hl hl' th cp pr nx ls ls' x :
  core hl th cp pr nx ls x -> tl_rep hl' ls' -> is_Some (th !! x) ->
  (forall t, tl_live hl' t <-> tl_live hl t) ->
  (forall l, is_Some (ls !! l) -> is_Some (ls' !! l)) ->
  (forall l ts' t, ls' !! l = Some ts' -> t ∈ ts' -> t <> x -> exists ts, ls !! l = Some ts /\ t ∈ ts) ->
  (forall t, t <> x -> off_lists ls' t -> off_lists ls t) ->
  core hl' th cp pr nx ls' x.
Proof.
  intros [Hrep Hls Hlive Hids Hon Hoff Hcpu Hwf Hpr Hsz] Hrep' Hx Hl Hdom Hin Hout.
  split; try done.
  - intros c Hc. destruct (Hls c Hc). auto.
  - intros t Ht. apply Hl. auto.
  - intros t Ht%Hl. auto.
  - intros l ts' t Hl' Ht. destruct (decide (t = x)) as [->|Hne].
    + destruct Hx as [t0 H0]. by exists t0.
    + destruct (Hin _ _ _ Hl' Ht Hne) as (ts & Hts & Hts'). eauto.
  - intros t t0 Ht Hne Ho. apply Hoff; auto.
Qed.

Lemma off_insert (ls : gmap listid (list Z)) l ts ts' t :
  ls !! l = Some ts -> (t ∈ ts -> t ∈ ts') -> off_lists (<[l := ts']> ls) t -> off_lists ls t.
Proof.
  intros Hl Hin Hoff l' k Hk Ht. destruct (decide (l' = l)) as [->|].
  - simplify_eq. apply (Hoff l ts'); [by rewrite lookup_insert_eq|auto].
  - apply (Hoff l' k); [by rewrite lookup_insert_ne|done].
Qed.

Lemma core_relist_one hl hl' th cp pr nx ls l ts ts' x :
  core hl th cp pr nx ls x -> tl_rep hl' (<[l := ts']> ls) -> is_Some (th !! x) ->
  (forall t, tl_live hl' t <-> tl_live hl t) ->
  ls !! l = Some ts -> (forall t, t <> x -> t ∈ ts <-> t ∈ ts') ->
  core hl' th cp pr nx (<[l := ts']> ls) x.
Proof.
  intros Hc Hrep Hx Hlive Hl Hts. apply (core_relist hl _ _ _ _ _ ls); try done.
  - intros l' [k Hk]. destruct (decide (l' = l)) as [->|];
      [rewrite lookup_insert_eq|rewrite lookup_insert_ne by done]; eauto.
  - intros l' k t Hk Ht Hne. destruct (decide (l' = l)) as [->|].
    + rewrite lookup_insert_eq in Hk. simplify_eq. exists ts. split; [done|]. by apply Hts.
    + rewrite lookup_insert_ne in Hk by done. eauto.
  - intros t Hne. apply (off_insert _ _ ts); [done|]. by apply Hts.
Qed.

(** Changing the thread in transit. *)
Lemma core_upd_thread hl th cp pr nx ls x tx tx' :
  core hl th cp pr nx ls x -> th !! x = Some tx ->
  t_cpu tx' = t_cpu tx \/ (forall d c0, zlookup cp d = Some c0 -> c_curthread c0 <> x) ->
  core hl (<[x := tx']> th) cp pr nx ls x.
Proof.
  intros [Hrep Hls Hlive Hids Hon Hoff Hcpu Hwf Hpr Hsz] Hx Hc.
  assert (forall t, t <> x -> <[x := tx']> th !! t = th !! t) as Hne by (intros; by apply lookup_insert_ne).
  split; try done.
  - intros t. destruct (decide (t = x)) as [->|]; [intros _; eauto|rewrite Hne by done; auto].
  - intros l ts t Hl Ht. destruct (Hon _ _ _ Hl Ht) as (t0 & H0 & Hok).
    destruct (decide (t = x)) as [->|]; [exists tx'; by rewrite lookup_insert_eq|].
    exists t0. by rewrite Hne.
  - intros t t0 Ht Hnx. rewrite Hne in Ht by done. by apply Hoff.
  - intros d c0 Hd. destruct (Hcpu d c0 Hd) as (t0 & H0 & Htc & Hr).
    destruct (decide (c_curthread c0 = x)) as [He|].
    + rewrite He in *. exists tx'. rewrite lookup_insert_eq. split_and!; [done| |done].
      destruct Hc as [->|Hc]; [congruence|]. by destruct (Hc d c0 Hd).
    + exists t0. by rewrite Hne.
  - intros t t0 Ht Hnx. rewrite Hne in Ht by done. by apply (Hwf t).
  - intros t t0 Ht Hnx. rewrite Hne in Ht by done. by apply (Hpr t).
  - rewrite map_size_insert_Some; eauto.
Qed.

(** Changing a processor no settled thread relies on. *)
Lemma core_cpu_flux hl th cp pr nx ls x tx c c0 c1 :
  core hl th cp pr nx ls x -> zlookup cp c = Some c0 ->
  c_isidle c0 = true \/ c_curthread c0 = x ->
  c_curthread c1 = x -> th !! x = Some tx -> t_cpu tx = c ->
  core hl th (zinsert cp c c1) pr nx ls x.
Proof.
  intros [Hrep Hls Hlive Hids Hon Hoff Hcpu Hwf Hpr Hsz] Hc Hold Hnew Hx Htc.
  pose proof (zlookup_Some_range _ _ _ Hc) as Hr.
  split; rewrite ?zlen_zinsert; try done.
  - intros t t0 Ht Hnx Ho. destruct (Hoff t t0 Ht Hnx Ho) as [? (c' & Hc' & ? & ?)].
    split; [done|]. exists c'. split; [|done]. rewrite zlookup_zinsert_ne; [done|].
    intros He. rewrite <- He, Hc in Hc'. simplify_eq. destruct Hold; congruence.
  - intros d d0. rewrite zlookup_zinsert by done. case_bool_decide; subst; [|apply Hcpu].
    intros [= <-]. by exists tx.
Qed.

(** Changing what the invariant does not see of a processor. *)
Lemma core_cpu_same hl th cp pr nx ls x c c0 c1 :
  core hl th cp pr nx ls x -> zlookup cp c = Some c0 ->
  c_curthread c1 = c_curthread c0 -> c_isidle c1 = c_isidle c0 ->
  core hl th (zinsert cp c c1) pr nx ls x.
Proof.
  intros [Hrep Hls Hlive Hids Hon Hoff Hcpu Hwf Hpr Hsz] Hc Hcur Hidle.
  pose proof (zlookup_Some_range _ _ _ Hc) as Hr.
  split; rewrite ?zlen_zinsert; try done.
  - intros t t0 Ht Hnx Ho. destruct (Hoff t t0 Ht Hnx Ho) as [? (c' & Hc' & ? & ?)].
    split; [done|]. rewrite zlookup_zinsert by done. case_bool_decide; subst; [|by exists c'].
    exists c1. rewrite Hc in Hc'. simplify_eq. split_and!; congruence.
  - intros d d0. rewrite zlookup_zinsert by done. case_bool_decide; subst; [|apply Hcpu].
    intros [= <-]. rewrite Hcur, Hidle. by apply Hcpu.
Qed.

(** The lists hold the same threads in the same places. *)
Lemma core_same_members hl hl' th cp pr nx ls ls' x :
  core hl th cp pr nx ls x -> tl_rep hl' ls' ->
  (forall t, tl_live hl' t <-> tl_live hl t) ->
  (forall c, ls' !! RunQ c = ls !! RunQ c /\ ls' !! Zombies c = ls !! Zombies c) ->
  (forall l ts' t, ls' !! l = Some ts' -> t ∈ ts' -> exists ts, ls !! l = Some ts /\ t ∈ ts) ->
  (forall t, off_lists ls' t -> off_lists ls t) ->
  core hl' th cp pr nx ls' x.
Proof.
  intros [Hrep Hls Hlive Hids Hon Hoff Hcpu Hwf Hpr Hsz] Hrep' Hl Hdom Hin Hout. split; try done.
  - intros c Hc. destruct (Hdom c) as [-> ->]. auto.
  - intros t Ht. apply Hl. auto.
  - intros t Ht%Hl. auto.
  - intros l ts' t Hl' Ht. destruct (Hin _ _ _ Hl' Ht) as (ts & Hts & Hts'). eauto.
  - intros t t0 Ht Hne Ho. apply Hoff; auto.
Qed.

Lemma core_bound hl th cp pr nx ls x l ts :
  core hl th cp pr nx ls x -> ls !! l = Some ts -> zlen ts + 1 < 2 ^ 32.
Proof.
  intros [Hrep Hls Hlive Hids Hon Hoff Hcpu Hwf Hpr Hsz] Hl.
  pose proof (tl_nodup _ _ _ _ Hrep Hl) as Hnd.
  assert (length ts <= size th)%nat; [|unfold zlen; lia].
  rewrite <- (size_list_to_set (C := gset Z) ts Hnd), <- size_dom. apply subseteq_size.
  intros t. rewrite elem_of_list_to_set, elem_of_dom. intros Ht.
  destruct (Hon _ _ _ Hl Ht) as (t0 & ? & _). eauto.
Qed.

(** ** The whole invariant *)

(** The level of a thread that is not executing: on an idle processor, on
    another processor between operations, or switched out. *)
Definition ipl_other (cp : list cpu) (t : Z) (i : ipl) : Prop :=
  (exists d c0, zlookup cp d = Some c0 /\ c_curthread c0 = t /\
     if c_isidle c0 then i = lvl IPL_HIGH 0 else exists s, is_spl s /\ i = lvl s 0) \/
  ((forall d c0, zlookup cp d = Some c0 -> c_curthread c0 <> t) /\ i = lvl IPL_HIGH 1).

(** Every thread but the current one and a thread [y] under construction. *)
Definition others (th : gmap Z thread) (il : gmap Z ipl) (cp : list cpu) (cur y : Z) : Prop :=
  forall t, is_Some (th !! t) -> t <> cur -> t <> y -> exists i, il !! t = Some i /\ ipl_other cp t i.

Record lks (lk : gmap lockref spinlock) (cp : list cpu) (pr : gmap Z (list Z))
    (ls : gmap listid (list Z)) : Prop := {
  lk_cpu : forall c, 0 <= c < zlen cp -> is_Some (lk !! LRunq c) /\ is_Some (lk !! LIpi c);
  lk_wchan : forall w, is_Some (lk !! LWchan w) <-> is_Some (ls !! WaitQ w);
  lk_proc : forall p, is_Some (pr !! p) <-> is_Some (lk !! LProc p) }.

Record kinv (k : kernel) (ls : gmap listid (list Z)) (x y c s : Z) (D : gset lockref) : Prop := {
  kv_ctx : ctx (threads k) (ipls k) (locks k) (curthread k) c s D;
  kv_core : core (lists k) (threads k) (cpus k) (procs k) (next_id k) ls x;
  kv_others : others (threads k) (ipls k) (cpus k) (curthread k) y;
  kv_lks : lks (locks k) (cpus k) (procs k) ls }.

Definition set_il (il : gmap Z ipl) (lk : gmap lockref spinlock) (k : kernel) : kernel :=
  mkKernel (lists k) (threads k) il lk (cpus k) (procs k) (curthread k) (next_id k) (oracle k).
Definition set_lists (hl : H) (k : kernel) : kernel :=
  mkKernel hl (threads k) (ipls k) (locks k) (cpus k) (procs k) (curthread k) (next_id k) (oracle k).
Definition set_threads (th : gmap Z thread) (k : kernel) : kernel :=
  mkKernel (lists k) th (ipls k) (locks k) (cpus k) (procs k) (curthread k) (next_id k) (oracle k).
Definition set_cpus (cp : list cpu) (k : kernel) : kernel :=
  mkKernel (lists k) (threads k) (ipls k) (locks k) cp (procs k) (curthread k) (next_id k) (oracle k).

Lemma others_il th il il' lk lk' cp cur y :
  others th il cp cur y -> il_same cur il il' lk lk' -> others th il' cp cur y.
Proof. intros Ho [Hi _] t Ht Hc Hy. rewrite Hi by done. auto. Qed.

Lemma lks_il lk lk' cp pr ls cur il il' :
  lks lk cp pr ls -> il_same cur il il' lk lk' -> lks lk' cp pr ls.
Proof.
  intros [H1 H2 H3] [_ Hl]. split.
  - intros c Hc. rewrite !Hl. auto.
  - intros w. by rewrite Hl.
  - intros p. by rewrite Hl.
Qed.

Lemma kinv_il k ls x y c s D s' D' il' lk' :
  kinv k ls x y c s D -> ctx (threads k) il' lk' (curthread k) c s' D' ->
  il_same (curthread k) (ipls k) il' (locks k) lk' -> kinv (set_il il' lk' k) ls x y c s' D'.
Proof.
  intros [Hc Hco Ho Hl] Hc' Hs. split; [done|done|by eapply others_il|by eapply lks_il].
Qed.

Lemma runs_acq k ls x y c s D l (Q : unit -> kernel -> Prop) R :
  kinv k ls x y c s D -> is_Some (locks k !! l) -> l ∉ D ->
  (forall il' lk', kinv (set_il il' lk' k) ls x y c s ({[l]} ∪ D) -> Q tt (set_il il' lk' k)) ->
  runs (acquire l k) Q R.
Proof.
  intros Hk Hl HD HQ. destruct k as [hl th il lk cp pr cur nx o]. simpl in *.
  eapply runs_acquire; [apply (kv_ctx _ _ _ _ _ _ _ Hk)|done..|]. intros il' lk' Hc Hs.
  apply (HQ il' lk'). by apply (kinv_il _ _ _ _ _ s D).
Qed.

Lemma runs_rel k ls x y c s D l (Q : unit -> kernel -> Prop) R :
  kinv k ls x y c s D -> is_Some (locks k !! l) -> l ∈ D ->
  (forall il' lk', kinv (set_il il' lk' k) ls x y c s (D ∖ {[l]}) -> Q tt (set_il il' lk' k)) ->
  runs (release l k) Q R.
Proof.
  intros Hk Hl HD HQ. destruct k as [hl th il lk cp pr cur nx o]. simpl in *.
  eapply runs_release; [apply (kv_ctx _ _ _ _ _ _ _ Hk)|done..|]. intros il' lk' Hc Hs.
  apply (HQ il' lk'). by apply (kinv_il _ _ _ _ _ s D).
Qed.

Lemma runs_spl k ls x y c s D s' (Q : Z -> kernel -> Prop) R :
  kinv k ls x y c s D -> is_spl s' ->
  (forall il', kinv (set_il il' (locks k) k) ls x y c s' D -> Q s (set_il il' (locks k) k)) ->
  runs (on_ipl (fun m => splx m s') k) Q R.
Proof.
  intros Hk Hs' HQ. destruct k as [hl th il lk cp pr cur nx o]. simpl in *.
  eapply runs_splx; [apply (kv_ctx _ _ _ _ _ _ _ Hk)|done|]. intros il' Hc Hs.
  apply (HQ il'). by apply (kinv_il _ _ _ _ _ s D).
Qed.

Lemma runs_cur k ls x y c s D (Q : Z -> kernel -> Prop) R :
  kinv k ls x y c s D -> Q c k -> runs (curcpu k) Q R.
Proof.
  intros [[(t0 & Ht & <-) _ _ _] _ _ _] HQ. destruct k. by eapply runs_curcpu.
Qed.

Lemma runs_get_thread k t t0 (Q : thread -> kernel -> Prop) R :
  threads k !! t = Some t0 -> Q t0 k -> runs (get_thread t k) Q R.
Proof. intros Ht HQ. unfold get_thread. runs_steps. by apply (runs_of_option _ _ t0). Qed.

Lemma runs_upd_thread k t t0 f (Q : unit -> kernel -> Prop) R :
  threads k !! t = Some t0 -> Q tt (set_threads (<[t := f t0]> (threads k)) k) ->
  runs (upd_thread t f k) Q R.
Proof.
  intros Ht HQ. unfold upd_thread, put_threads. runs_steps. apply (runs_of_option _ _ t0); [done|].
  by runs_steps.
Qed.

Lemma runs_get_cpu k c c0 (Q : cpu -> kernel -> Prop) R :
  zlookup (cpus k) c = Some c0 -> Q c0 k -> runs (get_cpu c k) Q R.
Proof. intros Ht HQ. unfold get_cpu. runs_steps. by apply (runs_of_option _ _ c0). Qed.

Lemma runs_upd_cpu k c c0 f (Q : unit -> kernel -> Prop) R :
  zlookup (cpus k) c = Some c0 -> Q tt (set_cpus (zinsert (cpus k) c (f c0)) k) ->
  runs (upd_cpu c f k) Q R.
Proof.
  intros Ht HQ. unfold upd_cpu, put_cpus. runs_steps. apply (runs_of_option _ _ c0); [done|].
  by runs_steps.
Qed.

Lemma runs_lists {A} (m : M H A) k (Q : A -> kernel -> Prop) (Q1 : A -> H -> Prop) R :
  returns (m (lists k)) Q1 -> (forall a h, Q1 a h -> Q a (set_lists h k)) ->
  runs (on_lists m k) Q R.
Proof.
  intros Hm HQ. unfold on_lists. apply runs_zoom. eapply runs_mono; [exact Hm| |done]. intros a h. apply HQ.
Qed.

(** Changes to processors that nothing above sees. *)
Lemma others_cpu_same th il cp cur y c c0 c1 :
  others th il cp cur y -> zlookup cp c = Some c0 ->
  c_curthread c1 = c_curthread c0 -> c_isidle c1 = c_isidle c0 ->
  others th il (zinsert cp c c1) cur y.
Proof.
  intros Ho Hc Hcur Hidle t Ht Hnc Hny. destruct (Ho t Ht Hnc Hny) as (i & Hi & Hio).
  pose proof (zlookup_Some_range _ _ _ Hc) as Hr. exists i. split; [done|].
  destruct Hio as [(d & d0 & Hd & Hdc & Hdi)|[Hno Hi2]].
  - left. destruct (decide (c = d)) as [->|].
    + exists d, c1. rewrite zlookup_zinsert_eq by done. simplify_eq. by rewrite Hcur, Hidle.
    + exists d, d0. by rewrite zlookup_zinsert_ne.
  - right. split; [|done]. intros d d0. rewrite zlookup_zinsert by done.
    case_bool_decide; [intros [= <-]; rewrite Hcur; eauto|eauto].
Qed.

Lemma kinv_cpu_same k ls x y c s D d c0 c1 :
  kinv k ls x y c s D -> zlookup (cpus k) d = Some c0 ->
  c_curthread c1 = c_curthread c0 -> c_isidle c1 = c_isidle c0 ->
  kinv (set_cpus (zinsert (cpus k) d c1) k) ls x y c s D.
Proof.
  intros [Hc Hco Ho [L1 L2 L3]] Hd H1 H2. split; [done|by eapply core_cpu_same|by eapply others_cpu_same|].
  split; simpl; rewrite ?zlen_zinsert; done.
Qed.

(** What operations on other parts leave alone. *)
Definition cp_same (cp cp' : list cpu) : Prop :=
  forall d, (fun c0 => (c_curthread c0, c_isidle c0)) <$> zlookup cp' d =
            (fun c0 => (c_curthread c0, c_isidle c0)) <$> zlookup cp d.
Definition frame (k k' : kernel) : Prop :=
  threads k' = threads k /\ procs k' = procs k /\ curthread k' = curthread k /\
  next_id k' = next_id k /\ oracle k' = oracle k /\ cp_same (cpus k) (cpus k').

#[global] Instance frame_preorder : PreOrder frame.
Proof.
  split.
  - intros k. by split_and!.
  - intros k1 k2 k3 (?&?&?&?&?&F1) (?&?&?&?&?&F2). split_and!; try congruence.
Qed.

Lemma cp_same_insert cp c c0 c1 :
  zlookup cp c = Some c0 -> c_curthread c1 = c_curthread c0 -> c_isidle c1 = c_isidle c0 ->
  cp_same cp (zinsert cp c c1).
Proof.
  intros Hc H1 H2 d. pose proof (zlookup_Some_range _ _ _ Hc) as Hr. rewrite zlookup_zinsert by done.
  case_bool_decide; subst; [|done]. rewrite Hc. simpl. by rewrite H1, H2.
Qed.

Lemma cp_same_len cp cp' : cp_same cp cp' -> zlen cp' = zlen cp.
Proof.
  intros Hs. apply Z.le_antisymm; apply Znot_gt_le; intros Hgt.
  - destruct (zlookup_is_Some cp' (zlen cp)) as [x Hx]; [pose proof (zlen_nonneg cp); lia|].
    specialize (Hs (zlen cp)). rewrite Hx, (proj2 (zlookup_None cp _)) in Hs by lia. done.
  - destruct (zlookup_is_Some cp (zlen cp')) as [x Hx]; [pose proof (zlen_nonneg cp'); lia|].
    specialize (Hs (zlen cp')). rewrite Hx, (proj2 (zlookup_None cp' _)) in Hs by lia. done.
Qed.

Lemma frame_il il lk k : frame k (set_il il lk k).
Proof. by split_and!. Qed.
Lemma frame_lists hl k : frame k (set_lists hl k).
Proof. by split_and!. Qed.

Lemma release_undo (D : gset lockref) l : l ∉ D -> ({[l]} ∪ D) ∖ {[l]} = D.
Proof. set_solver. Qed.

Lemma runs_ipi_send k ls x y c s D target code (Q : unit -> kernel -> Prop) R :
  kinv k ls x y c s D -> 0 <= code < 32 -> 0 <= target < zlen (cpus k) -> LIpi target ∉ D ->
  (forall k', kinv k' ls x y c s D -> frame k k' -> lists k' = lists k -> Q tt k') ->
  runs (ipi_send target code k) Q R.
Proof.
  intros Hk Hcode Ht HD HQ. unfold ipi_send. runs_steps.
  apply runs_KASSERT; [lia|]. runs_steps.
  destruct (lk_cpu _ _ _ _ (kv_lks _ _ _ _ _ _ _ Hk) target Ht) as [_ Hlk].
  eapply runs_acq; [done..|]. intros il1 lk1 Hk1. runs_steps.
  destruct (zlookup_is_Some (cpus k) target Ht) as [c0 Hc0].
  eapply runs_upd_cpu; [done|].
  set (c1 := set_ipi_pending _ c0).
  apply (kinv_cpu_same _ _ _ _ _ _ _ target c0 c1) in Hk1; [|done..].
  destruct (lk_cpu _ _ _ _ (kv_lks _ _ _ _ _ _ _ Hk1) target) as [_ Hlk1].
  { simpl. by rewrite zlen_zinsert. }
  eapply runs_rel; [exact Hk1|done|set_solver|]. intros il2 lk2 Hk2.
  rewrite release_undo in Hk2 by done. apply HQ; [done| |done].
  split_and!; try done. by eapply cp_same_insert.
Qed.

(** ** Making a thread runnable *)

Definition not_running (cp : list cpu) (x : Z) : Prop :=
  forall d c0, zlookup cp d = Some c0 -> c_curthread c0 = x -> c_isidle c0 = true.

(** A thread taken off a list, on its way to a run queue. *)
Record transit (k : kernel) (ls : gmap listid (list Z)) (x : Z) (tx : thread) : Prop := {
  tr_thread : threads k !! x = Some tx;
  tr_off : off_lists ls x;
  tr_run : runnable tx;
  tr_wf : 0 <= t_cpu tx < zlen (cpus k) /\ stack_ok tx /\ context_ok tx;
  tr_idle : not_running (cpus k) x;
  tr_proc : t_proc tx <> 0 -> exists ts, procs k !! t_proc tx = Some ts /\ x ∈ ts }.

Lemma transit_frame k k' ls x tx :
  transit k ls x tx -> threads k' = threads k -> cpus k' = cpus k -> procs k' = procs k ->
  transit k' ls x tx.
Proof. intros [?????] Ht Hc Hp. by split; rewrite ?Ht, ?Hc, ?Hp. Qed.

Lemma lks_insert lk cp pr ls l ts ts' :
  lks lk cp pr ls -> ls !! l = Some ts -> lks lk cp pr (<[l := ts']> ls).
Proof.
  intros [L1 L2 L3] Hl. split; try done. intros w. rewrite L2.
  destruct (decide (l = WaitQ w)) as [->|]; [rewrite lookup_insert_eq, Hl; naive_solver|].
  by rewrite lookup_insert_ne.
Qed.

Lemma kinv_lists k ls x y c s D hl' ls' x' :
  kinv k ls x y c s D ->
  core hl' (threads k) (cpus k) (procs k) (next_id k) ls' x' ->
  lks (locks k) (cpus k) (procs k) ls' -> kinv (set_lists hl' k) ls' x' y c s D.
Proof. intros [Hc _ Ho _] Hco Hl. by split. Qed.

(** A thread joins a list in transit; it settles if the list suits it. *)
Lemma transit_join k ls x tx y c s D l ts ts' hl' :
  kinv k ls x y c s D -> transit k ls x tx -> ls !! l = Some ts ->
  (forall t, t ∈ ts' <-> t = x \/ t ∈ ts) -> list_ok l tx ->
  tl_rep hl' (<[l := ts']> ls) -> (forall t, tl_live hl' t <-> tl_live (lists k) t) ->
  kinv (set_lists hl' k) (<[l := ts']> ls) 0 y c s D.
Proof.
  intros Hk [Hx Hoff Hrun Hwf Hidle Hprc] Hl Hts Hok Hrep Hlive.
  pose proof (kv_core _ _ _ _ _ _ _ Hk) as Hco.
  eapply kinv_lists; [done| |by eapply lks_insert; [apply (kv_lks _ _ _ _ _ _ _ Hk)|]].
  eapply (core_settle _ _ _ _ _ _ x tx); [|done|].
  - apply (core_relist_one (lists k) hl' _ _ _ _ _ l ts ts' x Hco Hrep); [eauto|done|done|].
    intros t Hne. rewrite Hts. tauto.
  - split; [|split; [|split; [|done]]].
    + intros l' k' Hl' Hin. destruct (decide (l' = l)) as [->|]; [done|].
      rewrite lookup_insert_ne in Hl' by done. by destruct (Hoff l' k').
    + intros Ho. destruct (Ho l ts'); [by rewrite lookup_insert_eq|]. apply Hts. by left.
    + intros d c0 Hd Hc Hi. rewrite (Hidle d c0 Hd Hc) in Hi. done.
Qed.

Lemma runs_make_runnable k ls x tx y c s D ts (Q : unit -> kernel -> Prop) R :
  kinv k ls x y c s D -> transit k ls x tx -> ls !! RunQ (t_cpu tx) = Some ts ->
  LRunq (t_cpu tx) ∉ D -> LIpi (t_cpu tx) ∉ D ->
  (forall k', kinv k' (<[RunQ (t_cpu tx) := ts ++ [x]]> ls) 0 y c s D -> frame k k' -> Q tt k') ->
  runs (thread_make_runnable x false k) Q R.
Proof.
  intros Hk Htr Hl HD1 HD2 HQ. pose proof Htr as [Hx Hoff Hrun (Hv & Hst & Hcx) Hidle _].
  unfold thread_make_runnable. runs_steps. eapply runs_get_thread; [done|]. runs_steps.
  destruct (lk_cpu _ _ _ _ (kv_lks _ _ _ _ _ _ _ Hk) _ Hv) as [Hlk _].
  eapply runs_acq; [done..|]. intros il1 lk1 Hk1. runs_steps.
  destruct (zlookup_is_Some (cpus k) (t_cpu tx) Hv) as [c0 Hc0].
  eapply runs_get_cpu; [done|]. runs_steps.
  pose proof (kv_core _ _ _ _ _ _ _ Hk) as Hco.
  eapply runs_lists.
  { apply (tl_addtail_ok (lists k) ls _ ts); [apply (co_rep _ _ _ _ _ _ _ Hco)|done|done| |].
    - eapply co_live; [done|by rewrite Hx].
    - by eapply core_bound. }
  intros [] hl [Hrep Hlive]. cbn beta. runs_steps.
  eapply (transit_join _ _ x tx _ _ _ _ _ ts (ts ++ [x]) hl) in Hk1;
    [|by eapply transit_frame|done| |done|done|done].
  2: { intros t. rewrite elem_of_app, list_elem_of_singleton. tauto. }
  assert (forall k', kinv k' (<[RunQ (t_cpu tx):=ts ++ [x]]> ls) 0 y c s ({[LRunq (t_cpu tx)]} ∪ D) ->
            frame k k' -> runs (release (LRunq (t_cpu tx)) k') Q R) as Hrel.
  { intros k' Hk' Hf. pose proof Hf as (_ & _ & _ & _ & _ & Hcp).
    assert (is_Some (locks k' !! LRunq (t_cpu tx))) as Hlk'.
    { apply (lk_cpu _ _ _ _ (kv_lks _ _ _ _ _ _ _ Hk')).
      specialize (Hcp (t_cpu tx)). rewrite Hc0 in Hcp.
      destruct (zlookup (cpus k') (t_cpu tx)) eqn:E; [|done]. by eapply zlookup_Some_range. }
    eapply runs_rel; [done|done|set_solver|]. intros il2 lk2 Hk2.
    rewrite release_undo in Hk2 by done. apply HQ; [done|]. etrans; [done|apply frame_il]. }
  destruct (c_isidle c0); runs_steps.
  - eapply runs_ipi_send; [done|unfold IPI_UNIDLE; lia|done|set_solver|].
    intros k' Hk' Hf _. apply Hrel; [done|]. etrans; [|done]. by split_and!.
  - apply Hrel; [done|by split_and!].
Qed.

(** Taking one element off a list, wherever it is. *)
Lemma transit_leave_gen k ls y c s D l t ts ts' tx hl' :
  kinv k ls 0 y c s D -> ls !! l = Some ts -> t ∈ ts -> t ∉ ts' ->
  (forall z, z <> t -> z ∈ ts <-> z ∈ ts') -> threads k !! t = Some tx -> runnable tx ->
  tl_rep hl' (<[l := ts']> ls) -> (forall z, tl_live hl' z <-> tl_live (lists k) z) ->
  kinv (set_lists hl' k) (<[l := ts']> ls) t y c s D /\ transit (set_lists hl' k) (<[l := ts']> ls) t tx.
Proof.
  intros Hk Hl Hin Hnt Hts Ht Hrun Hrep Hlive. pose proof (kv_core _ _ _ _ _ _ _ Hk) as Hco.
  assert (0 < t) as Hpos.
  { pose proof (co_ids _ _ _ _ _ _ _ Hco t) as Hids. apply Hids. eapply co_live; [done|by rewrite Ht]. }
  split.
  - eapply kinv_lists; [done| |by eapply lks_insert; [apply (kv_lks _ _ _ _ _ _ _ Hk)|]].
    apply (core_relist_one (lists k) hl' _ _ _ _ _ l ts ts' t); [by apply core_weaken|done|eauto|done|done|done].
  - split; simpl; try done.
    + intros l' k' Hl' Hin'. destruct (decide (l' = l)) as [->|].
      * rewrite lookup_insert_eq in Hl'. by simplify_eq.
      * rewrite lookup_insert_ne in Hl' by done.
        assert (l = l'); [|done]. by eapply (tl_disj _ _ _ _ _ _ t (co_rep _ _ _ _ _ _ _ Hco)).
    + apply (co_wf _ _ _ _ _ _ _ Hco t); [done|lia].
    + intros d c0 Hd Hc. destruct (co_cpu _ _ _ _ _ _ _ Hco d c0 Hd) as (t0 & H0 & _ & Hr).
      rewrite Hc in *. simplify_eq. destruct (c_isidle c0) eqn:Hi; [done|].
      specialize (Hr eq_refl ltac:(lia)). unfold runnable in Hrun. rewrite Hr in Hrun.
      by destruct Hrun.
    + apply (co_proc _ _ _ _ _ _ _ Hco t); [done|lia].
Qed.

(** Taking the head of a wait channel or of a local list puts it in transit. *)
Lemma transit_leave k ls y c s D l t ts tx hl' :
  kinv k ls 0 y c s D -> ls !! l = Some (t :: ts) -> threads k !! t = Some tx -> runnable tx ->
  tl_rep hl' (<[l := ts]> ls) -> (forall z, tl_live hl' z <-> tl_live (lists k) z) ->
  kinv (set_lists hl' k) (<[l := ts]> ls) t y c s D /\ transit (set_lists hl' k) (<[l := ts]> ls) t tx.
Proof.
  intros Hk Hl. pose proof (tl_nodup _ _ _ _ (co_rep _ _ _ _ _ _ _ (kv_core _ _ _ _ _ _ _ Hk)) Hl) as [Hnt _]%NoDup_cons.
  apply (transit_leave_gen k ls y c s D l t (t :: ts)); [done|done|by left|done|].
  intros z Hne. rewrite elem_of_cons. tauto.
Qed.


(** A list operation that changed nothing. *)
Lemma kinv_relist k ls x y c s D hl' :
  kinv k ls x y c s D -> tl_rep hl' ls -> (forall z, tl_live hl' z <-> tl_live (lists k) z) ->
  kinv (set_lists hl' k) ls x y c s D.
Proof.
  intros Hk Hrep Hlive. eapply kinv_lists; [done| |apply (kv_lks _ _ _ _ _ _ _ Hk)].
  eapply core_same_members; [apply (kv_core _ _ _ _ _ _ _ Hk)|done|done|done| |done]. eauto.
Qed.

(** The run queue of a valid processor. *)
Lemma core_runq hl th cp pr nx ls x c :
  core hl th cp pr nx ls x -> 0 <= c < zlen cp -> exists ts, ls !! RunQ c = Some ts.
Proof. intros Hco Hc. destruct (co_lists _ _ _ _ _ _ _ Hco c Hc) as [[ts ?] _]. eauto. Qed.

(** [wchan_wakeone] moves the longest sleeper of [w] to the tail of its
    processor's run queue. *)
Definition woken (th : gmap Z thread) (w : Z) (ls : gmap listid (list Z)) : gmap listid (list Z) :=
  match ls !! WaitQ w with
  | Some (t :: ts) =>
      match th !! t with
      | Some t0 => <[RunQ (t_cpu t0) := default [] (ls !! RunQ (t_cpu t0)) ++ [t]]> (<[WaitQ w := ts]> ls)
      | None => ls
      end
  | _ => ls
  end.

Lemma wakeone_spec k ls c s w :
  kinv k ls 0 0 c s ∅ -> is_Some (ls !! WaitQ w) ->
  returns (wchan_wakeone w k) (fun _ k' =>
    kinv k' (woken (threads k) w ls) 0 0 c s ∅ /\ frame k k').
Proof.
  intros Hk [ts Hw]. unfold wchan_wakeone, woken. rewrite Hw. runs_steps.
  pose proof (kv_lks _ _ _ _ _ _ _ Hk) as [_ L2 _].
  eapply runs_acq; [done|apply L2; eauto|set_solver|]. intros il1 lk1 Hk1. runs_steps.
  pose proof (kv_core _ _ _ _ _ _ _ Hk) as Hco.
  eapply runs_lists; [by apply (tl_remhead_ok (lists k) ls _ ts); [apply (co_rep _ _ _ _ _ _ _ Hco)|]|].
  intros r hl (-> & Hrep & Hlive). cbn beta. runs_steps.
  destruct ts as [|t ts]; simpl.
  - assert (kinv (set_lists hl (set_il il1 lk1 k)) ls 0 0 c s ({[LWchan w]} ∪ ∅)) as Hk2.
    { simpl in Hrep. rewrite insert_id in Hrep by done. by eapply kinv_relist. }
    pose proof (kv_lks _ _ _ _ _ _ _ Hk2) as [_ L2' _].
    eapply runs_rel; [done|apply L2'; eauto|set_solver|]. intros il2 lk2 Hk3. runs_steps.
    rewrite release_undo in Hk3 by set_solver. split; [done|by split_and!].
  - destruct (co_on _ _ _ _ _ _ _ Hco (WaitQ w) (t :: ts) t Hw ltac:(by left)) as (tx & Hx & Hok).
    rewrite Hx. assert (0 < t) as Hpos.
    { apply (co_ids _ _ _ _ _ _ _ Hco). eapply co_live; [done|by rewrite Hx]. }
    specialize (Hok ltac:(lia)). simpl in Hok.
    destruct (transit_leave (set_il il1 lk1 k) ls 0 c s _ (WaitQ w) t ts tx hl Hk1 Hw Hx ltac:(by right) Hrep Hlive)
      as [Hk2 Htr].
    pose proof (kv_lks _ _ _ _ _ _ _ Hk2) as [_ L2' _].
    eapply runs_rel; [done|apply L2'; rewrite lookup_insert_eq; eauto|set_solver|]. intros il2 lk2 Hk3.
    rewrite release_undo in Hk3 by set_solver. simpl in Hk3.
    destruct (core_runq _ _ _ _ _ _ _ (t_cpu tx) Hco (proj1 (tr_wf _ _ _ _ Htr))) as [rq Hrq]. rewrite Hrq. simpl.
    eapply runs_make_runnable; [exact Hk3|by eapply transit_frame| |set_solver|set_solver|].
    + by rewrite lookup_insert_ne.
    + intros k' Hk' Hf. split; [done|]. etrans; [|done]. by split_and!.
Qed.

(** ** Waking everyone *)

Lemma kinv_remhead k ls y c s D l t ts tx (Q : option Z -> kernel -> Prop) R :
  kinv k ls 0 y c s D -> ls !! l = Some (t :: ts) -> threads k !! t = Some tx -> runnable tx ->
  (forall hl, kinv (set_lists hl k) (<[l := ts]> ls) t y c s D ->
     transit (set_lists hl k) (<[l := ts]> ls) t tx -> Q (Some t) (set_lists hl k)) ->
  runs (on_lists (tl_remhead l) k) Q R.
Proof.
  intros Hk Hl Hx Hrun HQ. pose proof (kv_core _ _ _ _ _ _ _ Hk) as Hco.
  eapply runs_lists; [by apply (tl_remhead_ok (lists k) ls _ (t :: ts)); [apply (co_rep _ _ _ _ _ _ _ Hco)|]|].
  intros r hl (-> & Hrep & Hlive). simpl in *.
  destruct (transit_leave k ls y c s D l t ts tx hl) as [??]; auto.
Qed.

Lemma kinv_remhead_nil k ls x y c s D l (Q : option Z -> kernel -> Prop) R :
  kinv k ls x y c s D -> ls !! l = Some [] ->
  (forall hl, kinv (set_lists hl k) ls x y c s D -> Q None (set_lists hl k)) ->
  runs (on_lists (tl_remhead l) k) Q R.
Proof.
  intros Hk Hl HQ. pose proof (kv_core _ _ _ _ _ _ _ Hk) as Hco.
  eapply runs_lists; [by apply (tl_remhead_ok (lists k) ls _ []); [apply (co_rep _ _ _ _ _ _ _ Hco)|]|].
  intros r hl (-> & Hrep & Hlive). simpl in *. rewrite insert_id in Hrep by done. apply HQ. by apply kinv_relist.
Qed.

Lemma kinv_addtail k ls x tx y c s D l ts (Q : unit -> kernel -> Prop) R :
  kinv k ls x y c s D -> transit k ls x tx -> ls !! l = Some ts -> list_ok l tx ->
  (forall hl, kinv (set_lists hl k) (<[l := ts ++ [x]]> ls) 0 y c s D -> Q tt (set_lists hl k)) ->
  runs (on_lists (tl_addtail l x) k) Q R.
Proof.
  intros Hk Htr Hl Hok HQ. pose proof (kv_core _ _ _ _ _ _ _ Hk) as Hco.
  pose proof Htr as [Hx Hoff _ _ _ _]. eapply runs_lists.
  { apply (tl_addtail_ok (lists k) ls _ ts); [apply (co_rep _ _ _ _ _ _ _ Hco)|done|done| |by eapply core_bound].
    eapply co_live; [done|by rewrite Hx]. }
  intros [] hl [Hrep Hlive]. apply HQ.
  eapply (transit_join _ _ x tx _ _ _ _ _ ts (ts ++ [x])); try done.
  intros t. rewrite elem_of_app, list_elem_of_singleton. tauto.
Qed.

Lemma list_threads k ls y c s D l ts t :
  kinv k ls 0 y c s D -> ls !! l = Some ts -> t ∈ ts ->
  exists tx, threads k !! t = Some tx /\ list_ok l tx /\ 0 <= t_cpu tx < zlen (cpus k).
Proof.
  intros Hk Hl Ht. pose proof (kv_core _ _ _ _ _ _ _ Hk) as Hco.
  destruct (co_on _ _ _ _ _ _ _ Hco l ts t Hl Ht) as (tx & Hx & Hok). exists tx.
  assert (0 < t) by (apply (co_ids _ _ _ _ _ _ _ Hco); eapply co_live; [done|by rewrite Hx]).
  split_and!; [done|apply Hok; lia|..]; apply (co_wf _ _ _ _ _ _ _ Hco t tx Hx); lia.
Qed.

(** [drain] empties one list onto the tail of another, in order. *)
Lemma drain_spec (fuel : nat) from to ts ts2 ls k c s D :
  kinv k ls 0 0 c s D -> from <> to -> ls !! from = Some ts -> ls !! to = Some ts2 ->
  (forall t, t ∈ ts -> exists tx, threads k !! t = Some tx /\ runnable tx /\ list_ok to tx) ->
  (length ts < fuel)%nat ->
  returns (drain fuel from to k) (fun _ k' =>
    kinv k' (<[to := ts2 ++ ts]> (<[from := []]> ls)) 0 0 c s D /\ frame k k' /\
    cpus k' = cpus k /\ locks k' = locks k).
Proof.
  revert ts ts2 ls k. induction fuel as [|f IH]; intros ts ts2 ls k Hk Hne Hf Ht Hok Hlen; [lia|].
  cbn [drain]. runs_steps. destruct ts as [|t ts].
  - eapply kinv_remhead_nil; [done..|]. intros hl Hk1. runs_steps.
    rewrite app_nil_r, (insert_id ls from), insert_id by done. by split_and!.
  - destruct (Hok t ltac:(by left)) as (tx & Hx & Hrun & Hlo).
    eapply kinv_remhead; [done..|]. intros hl Hk1 Htr. runs_steps.
    eapply kinv_addtail; [done|done|by rewrite lookup_insert_ne|done|]. intros hl2 Hk2.
    eapply runs_mono; [eapply (IH ts (ts2 ++ [t])); [exact Hk2|done| | | |simpl in Hlen; lia]| |done].
    + by rewrite lookup_insert_ne, lookup_insert_eq.
    + by rewrite lookup_insert_eq.
    + intros z Hz. apply Hok. by right.
    + intros [] k' (Hk' & Hfr & Hcp & Hlk). split_and!; [|etrans; [|done]; by split_and!|done|done].
      rewrite <- app_assoc in Hk'. simpl in Hk'.
      rewrite (insert_insert_ne (<[from := ts]> ls) from to), insert_insert_eq, insert_insert_eq in Hk' by done.
      done.
Qed.

(** Append each thread to its own processor's run queue. *)
Fixpoint spread (th : gmap Z thread) (ts : list Z) (ls : gmap listid (list Z)) : gmap listid (list Z) :=
  match ts with
  | [] => ls
  | t :: ts =>
      match th !! t with
      | Some t0 => spread th ts (<[RunQ (t_cpu t0) := default [] (ls !! RunQ (t_cpu t0)) ++ [t]]> ls)
      | None => spread th ts ls
      end
  end.

Lemma make_all_spec (fuel : nat) n ts ls k c s :
  kinv k (<[Local n := ts]> ls) 0 0 c s ∅ -> (length ts < fuel)%nat ->
  returns (make_all_runnable fuel (Local n) k) (fun _ k' =>
    kinv k' (<[Local n := []]> (spread (threads k) ts ls)) 0 0 c s ∅ /\ frame k k').
Proof.
  revert ts ls k. induction fuel as [|f IH]; intros ts ls k Hk Hlen; [lia|].
  cbn [make_all_runnable]. runs_steps. destruct ts as [|t ts].
  - eapply kinv_remhead_nil; [done|by rewrite lookup_insert_eq|]. intros hl Hk1. runs_steps.
    split; [done|by split_and!].
  - destruct (list_threads k _ 0 c s ∅ (Local n) (t :: ts) t Hk) as (tx & Hx & Hrun & Hv);
      [by rewrite lookup_insert_eq|by left|].
    eapply kinv_remhead; [done|by rewrite lookup_insert_eq|done|done|]. intros hl Hk1 Htr.
    rewrite insert_insert_eq in Hk1, Htr. runs_steps. simpl (spread _ _ _). rewrite Hx.
    destruct (core_runq _ _ _ _ _ _ _ _ (kv_core _ _ _ _ _ _ _ Hk1) (proj1 (tr_wf _ _ _ _ Htr))) as [rq Hrq].
    eapply runs_make_runnable; [done|done|done|set_solver|set_solver|]. intros k' Hk' Hf.
    rewrite lookup_insert_ne in Hrq by done. rewrite Hrq. simpl (default _ _).
    rewrite insert_insert_ne in Hk' by done.
    eapply runs_mono; [eapply (IH ts); [exact Hk'|simpl in Hlen; lia]| |done].
    intros [] k2 [Hk2 Hf2]. assert (threads k' = threads k) as Hth by (by destruct Hf as (? & _)).
    rewrite Hth in Hk2. split; [done|]. etrans; [|done]. etrans; [|done]. by split_and!.
Qed.

Lemma off_local ls n t : off_lists (<[Local n := []]> ls) t <-> off_lists (delete (Local n) ls) t.
Proof.
  split; intros Ho l ts.
  - intros [Hne Hl]%lookup_delete_Some. apply (Ho l). by rewrite lookup_insert_ne.
  - intros [[<- <-]|[Hne Hl]]%lookup_insert_Some; [apply not_elem_of_nil|].
    apply (Ho l). by rewrite lookup_delete_ne.
Qed.

(** A list on the stack comes into being. *)
Lemma kinv_init_local k ls y c s D n (Q : unit -> kernel -> Prop) R :
  kinv k ls 0 y c s D -> ls !! Local n = None ->
  (forall hl, kinv (set_lists hl k) (<[Local n := []]> ls) 0 y c s D -> Q tt (set_lists hl k)) ->
  runs (on_lists (tl_init (Local n)) k) Q R.
Proof.
  intros Hk Hl HQ. pose proof (kv_core _ _ _ _ _ _ _ Hk) as Hco. eapply runs_lists.
  { apply (tl_init_ok (lists k) ls); [apply (co_rep _ _ _ _ _ _ _ Hco)|done]. }
  intros [] hl [Hrep Hlive]. apply HQ. eapply kinv_lists; [done| |].
  - eapply core_same_members; [done|done|done| | |].
    + intros d. by rewrite !lookup_insert_ne.
    + intros l ts t [[<- <-]|[Hne ?]]%lookup_insert_Some Ht; [by apply elem_of_nil in Ht|eauto].
    + intros t Ht. apply off_local in Ht. by rewrite delete_id in Ht.
  - destruct (kv_lks _ _ _ _ _ _ _ Hk) as [L1 L2 L3]. split; [done| |done]. intros w. by rewrite lookup_insert_ne.
Qed.

(** ... and goes out of scope, empty. *)
Lemma kinv_cleanup_local k ls y c s D n (Q : unit -> kernel -> Prop) R :
  kinv k (<[Local n := []]> ls) 0 y c s D -> ls !! Local n = None ->
  (kinv k ls 0 y c s D -> Q tt k) ->
  runs (on_lists (tl_cleanup (Local n)) k) Q R.
Proof.
  intros Hk Hl HQ. pose proof (kv_core _ _ _ _ _ _ _ Hk) as Hco. eapply runs_lists.
  { apply (tl_cleanup_ok (lists k) (<[Local n := []]> ls)); [apply (co_rep _ _ _ _ _ _ _ Hco)|].
    by rewrite lookup_insert_eq. }
  intros [] hl ->. destruct k as [hl th il lk cp pr cur nx o]. apply HQ.
  pose proof (tl_drop _ _ (Local n) (co_rep _ _ _ _ _ _ _ Hco)) as Hrep.
  rewrite lookup_insert_eq, delete_insert_id in Hrep by done. specialize (Hrep eq_refl).
  apply (kinv_lists _ _ _ _ _ _ _ hl ls 0 Hk).
  - eapply core_same_members; [done|done|done| | |].
    + intros d. by rewrite !lookup_insert_ne.
    + intros l ts t Hts Ht. exists ts. split; [|done]. rewrite lookup_insert_ne; [done|]. congruence.
    + intros t Ht. apply off_local. by rewrite delete_id.
  - destruct (kv_lks _ _ _ _ _ _ _ Hk) as [L1 L2 L3]. split; [done| |done].
    intros w. rewrite L2. by rewrite lookup_insert_ne.
Qed.

Lemma spread_local th ts ls n : spread th ts ls !! Local n = ls !! Local n.
Proof.
  revert ls. induction ts as [|t ts IH]; intros ls; simpl; [done|].
  destruct (th !! t); rewrite IH; [by rewrite lookup_insert_ne|done].
Qed.

Lemma list_length_bound k ls x y c s D l ts :
  kinv k ls x y c s D -> ls !! l = Some ts -> (length ts < S (size (threads k)))%nat.
Proof.
  intros Hk Hl. pose proof (kv_core _ _ _ _ _ _ _ Hk) as [Hrep _ _ _ Hon _ _ _ _ _].
  pose proof (tl_nodup _ _ _ _ Hrep Hl) as Hnd.
  assert (length ts <= size (threads k))%nat; [|lia].
  rewrite <- (size_list_to_set (C := gset Z) ts Hnd), <- size_dom. apply subseteq_size.
  intros t. rewrite elem_of_list_to_set, elem_of_dom. intros Ht.
  destruct (Hon _ _ _ Hl Ht) as (t0 & ? & _). eauto.
Qed.

Lemma wakeall_spec k ls c s w ts :
  kinv k ls 0 0 c s ∅ -> ls !! WaitQ w = Some ts -> ls !! Local 0 = None ->
  returns (wchan_wakeall w k) (fun _ k' =>
    kinv k' (spread (threads k) ts (<[WaitQ w := []]> ls)) 0 0 c s ∅ /\ frame k k').
Proof.
  intros Hk Hw Hloc. unfold wchan_wakeall. runs_steps.
  eapply kinv_init_local; [done..|]. intros hl1 Hk1. runs_steps.
  pose proof (kv_lks _ _ _ _ _ _ _ Hk) as [_ L2 _].
  eapply runs_acq; [done|apply L2; eauto|set_solver|]. intros il2 lk2 Hk2. runs_steps.
  pose proof (list_length_bound _ _ _ _ _ _ _ _ _ Hk Hw) as Hlen.
  eapply runs_mono; [eapply (drain_spec _ (WaitQ w) (Local 0) ts []); [exact Hk2|done| | | |done]| |done].
  { by rewrite lookup_insert_ne. }
  { by rewrite lookup_insert_eq. }
  { intros t Ht. destruct (list_threads k ls 0 c s ∅ _ ts t Hk Hw Ht) as (tx & Hx & Hst & _).
    exists tx. split_and!; [done|by right|by right]. }
  intros [] k3 (Hk3 & Hf3 & Hcp3 & Hlk3). simpl in Hk3.
  rewrite (insert_insert_ne _ (WaitQ w) (Local 0)), insert_insert_eq in Hk3 by done. runs_steps.
  pose proof (kv_lks _ _ _ _ _ _ _ Hk3) as [_ L3 _].
  eapply runs_rel; [exact Hk3|apply L3|set_solver|].
  { rewrite lookup_insert_ne, lookup_insert_eq by done. eauto. }
  intros il4 lk4 Hk4. rewrite release_undo in Hk4 by set_solver. runs_steps.
  eapply runs_mono; [eapply make_all_spec; [exact Hk4|done]| |done].
  intros [] k5 [Hk5 Hf5]. assert (threads (set_il il4 lk4 k3) = threads k) as Hth by (by destruct Hf3 as (? & _)).
  rewrite Hth in Hk5. eapply kinv_cleanup_local; [done| |].
  { rewrite spread_local, lookup_insert_ne by done. done. }
  intros Hk6. split; [done|]. etrans; [|done]. etrans; [|apply frame_il]. etrans; [|done]. by split_and!.
Qed.

(** ** Switching *)

(** Processor [c] of the executing thread. *)
Lemma kinv_cpu k ls x y c s D : kinv k ls x y c s D -> curthread k <> x -> 0 <= c < zlen (cpus k).
Proof.
  intros [[(t0 & Ht & <-) _ _ _] Hco _ _] Hne. by apply (co_wf _ _ _ _ _ _ _ Hco (curthread k) t0).
Qed.

Lemma kinv_others_weaken k ls x y c s D : kinv k ls x 0 c s D -> y <> 0 -> threads k !! 0 = None -> kinv k ls x y c s D.
Proof.
  intros [Hc Hco Ho Hl] Hy H0. split; try done. intros t Ht Hnc Hny. apply Ho; [done|done|].
  intros ->. rewrite H0 in Ht. by destruct Ht.
Qed.

Lemma thread_zero k ls x y c s D : kinv k ls x y c s D -> threads k !! 0 = None.
Proof.
  intros [_ Hco _ _]. destruct (threads k !! 0) as [t0|] eqn:E; [|done].
  pose proof (co_ids _ _ _ _ _ _ _ Hco 0 (co_live _ _ _ _ _ _ _ Hco 0 ltac:(eauto))). lia.
Qed.

(** Zombies of this processor are destroyed, nobody else is. *)
Lemma thread_destroy_spec k ls c s D z tz :
  kinv k ls z z c s D -> threads k !! z = Some tz -> off_lists ls z -> z <> curthread k ->
  t_state tz <> S_RUN -> t_proc tz = 0 ->
  (forall d c0, zlookup (cpus k) d = Some c0 -> c_curthread c0 <> z) ->
  returns (thread_destroy z k) (fun _ k' =>
    kinv k' ls 0 0 c s D /\ threads k' = delete z (threads k) /\ cpus k' = cpus k /\
    procs k' = procs k /\ curthread k' = curthread k /\ next_id k' = next_id k /\ oracle k' = oracle k).
Proof.
  intros Hk Hz Hoff Hne Hst Hpr Hcur. unfold thread_destroy. runs_steps.
  apply runs_KASSERT; [by apply negb_true_iff, Z.eqb_neq|]. runs_steps.
  eapply runs_get_thread; [done|]. runs_steps.
  apply runs_KASSERT; [by apply bool_decide_eq_true|]. runs_steps.
  apply runs_KASSERT; [lia|]. runs_steps.
  pose proof Hk as [[(t0 & Ht & Hc) Hlvl Hspl Hlk] Hco Ho Hl].
  eapply runs_lists.
  { apply (tl_node_cleanup_ok (lists k) ls); [apply (co_rep _ _ _ _ _ _ _ Hco)|done|].
    eapply co_live; [done|by rewrite Hz]. }
  intros [] hl ->. unfold put_threads, put_ipls. runs_steps. simpl. split; [|by split_and!].
  split; simpl; [| | |done].
  - split; [exists t0; by rewrite lookup_delete_ne|by rewrite lookup_delete_ne|done|done].
  - destruct Hco as [Hrep Hls Hlive Hids Hon Hof Hcpu Hwf Hprc Hsz]. split; try done.
    + intros t [? Ht']. apply lookup_delete_Some in Ht' as [_ Ht']. apply Hlive. eauto.
    + intros l ts t Hlt Hin. destruct (Hon l ts t Hlt Hin) as (t1 & H1 & Hok).
      assert (t <> z) by (intros ->; by apply (Hoff l ts)).
      exists t1. rewrite lookup_delete_ne by done. auto.
    + intros t t1 [Hnz Ht1]%lookup_delete_Some _ Ho'. by apply Hof.
    + intros d c0 Hd. destruct (Hcpu d c0 Hd) as (t1 & H1 & Hc1 & Hr). exists t1.
      pose proof (Hcur d c0 Hd). rewrite lookup_delete_ne by done. split_and!; auto.
    + intros t t1 [Hnz Ht1]%lookup_delete_Some _. by apply (Hwf t).
    + intros t t1 [Hnz Ht1]%lookup_delete_Some _. by apply (Hprc t).
    + assert (size (delete z (threads k)) <= size (threads k))%nat; [|lia].
      apply map_subseteq_size, delete_subseteq.
  - intros t [t1 Ht1] Hnc Hny. apply lookup_delete_Some in Ht1 as [Hnz Ht1].
    destruct (Ho t ltac:(eauto) Hnc ltac:(congruence)) as (i & Hi & Hio). exists i. by rewrite lookup_delete_ne.
Qed.

(** Taking the head off any list. *)
Lemma kinv_take k ls y c s D l t ts (Q : option Z -> kernel -> Prop) R :
  kinv k ls 0 y c s D -> ls !! l = Some (t :: ts) ->
  (forall hl, kinv (set_lists hl k) (<[l := ts]> ls) t y c s D -> off_lists (<[l := ts]> ls) t ->
     Q (Some t) (set_lists hl k)) ->
  runs (on_lists (tl_remhead l) k) Q R.
Proof.
  intros Hk Hl HQ. pose proof (kv_core _ _ _ _ _ _ _ Hk) as Hco.
  pose proof (co_rep _ _ _ _ _ _ _ Hco) as Hr0.
  pose proof (tl_nodup _ _ _ _ Hr0 Hl) as [Hnt _]%NoDup_cons.
  destruct (co_on _ _ _ _ _ _ _ Hco l (t :: ts) t Hl ltac:(by left)) as (tx & Hx & _).
  eapply runs_lists; [by apply (tl_remhead_ok (lists k) ls _ (t :: ts))|].
  intros r hl (-> & Hrep & Hlive). simpl in *. apply HQ.
  - eapply kinv_lists; [done| |by eapply lks_insert; [apply (kv_lks _ _ _ _ _ _ _ Hk)|]].
    apply (core_relist_one (lists k) hl _ _ _ _ _ l (t :: ts) ts t); [by apply core_weaken|done|eauto|done|done|].
    intros z Hne. rewrite elem_of_cons. tauto.
  - intros l' k' Hl' Hin. destruct (decide (l' = l)) as [->|].
    + rewrite lookup_insert_eq in Hl'. by simplify_eq.
    + rewrite lookup_insert_ne in Hl' by done.
      assert (l = l'); [|done]. eapply (tl_disj _ _ _ _ _ _ t Hr0); try done. by left.
Qed.

(** The executing thread runs on processor [c]. *)
Definition executing (k : kernel) (c : Z) : Prop :=
  exists t0 c0, threads k !! curthread k = Some t0 /\ t_state t0 = S_RUN /\ t_cpu t0 = c /\
    zlookup (cpus k) c = Some c0 /\ c_curthread c0 = curthread k /\ c_isidle c0 = false.

Lemma exorcise_loop_spec (fuel : nat) zs ls k c s D :
  kinv k ls 0 0 c s D -> executing k c -> ls !! Zombies c = Some zs -> (length zs < fuel)%nat ->
  returns (exorcise_loop fuel k) (fun _ k' =>
    kinv k' (<[Zombies c := []]> ls) 0 0 c s D /\ executing k' c /\ curthread k' = curthread k /\
    cpus k' = cpus k /\ procs k' = procs k /\
    (forall t, t ∉ zs -> threads k' !! t = threads k !! t) /\
    (forall t, t ∈ zs -> threads k' !! t = None)).
Proof.
  revert zs ls k. induction fuel as [|f IH]; intros zs ls k Hk Hex Hz Hlen; [lia|].
  cbn [exorcise_loop]. runs_steps. eapply runs_cur; [done|]. runs_steps. destruct zs as [|z zs].
  - eapply kinv_remhead_nil; [done..|]. intros hl Hk1. runs_steps. rewrite insert_id by done.
    split_and!; try done. intros t Ht. by apply elem_of_nil in Ht.
  - destruct (list_threads k ls 0 c s D _ _ z Hk Hz ltac:(by left)) as (tz & Htz & (Hzc & Hzs & Hzp) & _).
    destruct Hex as (t0 & c0 & Ht0 & Hst & Htc & Hc0 & Hcc & Hci).
    assert (z <> curthread k) as Hzne by (intros ->; congruence).
    assert (forall d d0, zlookup (cpus k) d = Some d0 -> c_curthread d0 <> z) as Hnocpu.
    { intros d d0 Hd Heq. destruct (co_cpu _ _ _ _ _ _ _ (kv_core _ _ _ _ _ _ _ Hk) d d0 Hd) as (t1 & H1 & H2 & _).
      rewrite Heq in H1. simplify_eq. congruence. }
    pose proof (tl_nodup _ _ _ _ (co_rep _ _ _ _ _ _ _ (kv_core _ _ _ _ _ _ _ Hk)) Hz) as [Hnz _]%NoDup_cons.
    eapply kinv_take; [done..|]. intros hl Hk1 Hoff. runs_steps.
    apply runs_KASSERT; [by apply negb_true_iff, Z.eqb_neq|]. runs_steps.
    eapply runs_get_thread; [done|]. runs_steps. apply runs_KASSERT; [by apply bool_decide_eq_true|].
    runs_steps. eapply runs_mono; [eapply thread_destroy_spec; [|done|done|done|congruence|done|done]| |done].
    { apply kinv_others_weaken; [exact Hk1| |by eapply thread_zero]. intros ->.
      pose proof (thread_zero _ _ _ _ _ _ _ Hk1) as Hz0. simpl in Hz0. congruence. }
    intros [] k2 (Hk2 & Hth2 & Hcp2 & Hpr2 & Hcur2 & _). simpl in *.
    eapply runs_mono; [apply (IH zs _ k2 Hk2); [|by rewrite lookup_insert_eq|simpl in Hlen; lia]| |done].
    { exists t0, c0. rewrite Hth2, Hcp2, Hcur2, lookup_delete_ne by done. done. }
    intros [] k3 (Hk3 & Hex3 & Hcur3 & Hcp3 & Hpr3 & Hth3 & Hgone3). rewrite insert_insert_eq in Hk3.
    split_and!; [done|done|congruence..| |].
    + intros t. rewrite not_elem_of_cons. intros [? ?]. rewrite Hth3, Hth2 by done. by rewrite lookup_delete_ne.
    + intros t. rewrite elem_of_cons. intros [->|?]; [|auto]. rewrite Hth3, Hth2 by done. apply lookup_delete_eq.
Qed.

Lemma zinsert_zinsert {A} (l : list A) i x y : zinsert (zinsert l i x) i y = zinsert l i y.
Proof. unfold zinsert. case_bool_decide; [apply list_insert_insert_eq|done]. Qed.

(** The thread switched to finishes the switch: it runs, the run queue is
    unlocked, this processor's zombies are gone. *)
Lemma switch_in_spec k ls c zs n tn c1 :
  kinv k ls n 0 c IPL_HIGH {[LRunq c]} -> curthread k = n -> threads k !! n = Some tn ->
  off_lists ls n -> t_cpu tn = c -> stack_ok tn -> context_ok tn ->
  (t_proc tn <> 0 -> exists q, procs k !! t_proc tn = Some q /\ n ∈ q) ->
  zlookup (cpus k) c = Some c1 -> c_curthread c1 = n -> c_isidle c1 = false ->
  ls !! Zombies c = Some zs ->
  returns (switch_in k) (fun _ k' => exists s',
    kinv k' (<[Zombies c := []]> ls) 0 0 c s' ∅ /\ executing k' c /\ curthread k' = n /\
    cpus k' = cpus k /\ procs k' = procs k /\
    (forall t, t ∉ zs -> t <> n -> threads k' !! t = threads k !! t) /\
    (forall t, t ∈ zs -> threads k' !! t = None)).
Proof.
  intros Hk Hcur Hn Hoff Htc Hst Hcx Hprc Hc1 Hcn Hci Hz. unfold switch_in. runs_steps. rewrite Hcur.
  eapply runs_get_thread; [done|]. runs_steps. eapply runs_upd_thread; [done|].
  set (tn' := set_state S_RUN tn). set (k1 := set_threads _ k).
  pose proof Hk as [[(t0 & Ht0 & Hc0) Hlvl Hspl Hlk] Hco Ho Hl].
  assert (kinv k1 ls 0 0 c IPL_HIGH {[LRunq c]}) as Hk1.
  { split; simpl; [| | |done].
    - split; [exists tn'; by rewrite Hcur, lookup_insert_eq|done..].
    - eapply (core_settle _ _ _ _ _ _ n tn'); [|by rewrite lookup_insert_eq|].
      + eapply core_upd_thread; [done|done|by left].
      + split; [intros l ts Hlt Hin; by destruct (Hoff l ts)|].
        split; [intros _; split; [done|]; exists c1; simpl; by rewrite Htc|].
        split; [done|]. split; [|done]. split; [simpl; rewrite Htc; by eapply zlookup_Some_range|done].
    - intros t Ht Hnc Hny. apply Ho; [|done|done]. destruct Ht as [? Ht].
      rewrite lookup_insert_ne in Ht by congruence. eauto. }
  assert (executing k1 c) as Hex1.
  { exists tn', c1. unfold k1. simpl. rewrite Hcur, lookup_insert_eq. by split_and!. }
  runs_steps. eapply runs_cur; [done|]. runs_steps.
  destruct (lk_cpu _ _ _ _ Hl c) as [Hrq _]; [by eapply zlookup_Some_range|].
  eapply runs_rel; [done|done|set_solver|]. intros il2 lk2 Hk2.
  rewrite difference_diag_L in Hk2. runs_steps. unfold exorcise. runs_steps.
  eapply runs_mono; [eapply exorcise_loop_spec; [exact Hk2|exact Hex1|done|]| |done].
  { by eapply list_length_bound in Hk2. }
  intros [] k3 (Hk3 & Hex3 & Hcur3 & Hcp3 & Hpr3 & Hth3 & Hgone3). simpl in *.
  assert (forall t, t ∉ zs -> t <> n -> threads k3 !! t = threads k !! t) as Hth.
  { intros t ??. rewrite Hth3 by done. by rewrite lookup_insert_ne. }
  assert (forall s', is_spl s' ->
    returns ((let* _ := on_ipl (fun m => splx m s') in ret tt) k3) (fun _ k' => exists s',
      kinv k' (<[Zombies c := []]> ls) 0 0 c s' ∅ /\ executing k' c /\ curthread k' = n /\
      cpus k' = cpus k /\ procs k' = procs k /\
      (forall t, t ∉ zs -> t <> n -> threads k' !! t = threads k !! t) /\
      (forall t, t ∈ zs -> threads k' !! t = None))) as Hfin.
  { intros s' Hs'. runs_steps. eapply runs_spl; [done|done|]. intros il4 Hk4. runs_steps.
    exists s'. split_and!; try done. simpl. congruence. }
  unfold context_ok in Hcx. destruct (t_context tn); [by apply Hfin|apply Hfin; by left].
Qed.

(** Processor [c] is in the idle loop, with the run queue locked. *)
Definition idling (k : kernel) (c : Z) : Prop :=
  exists c0, zlookup (cpus k) c = Some c0 /\ c_curthread c0 = curthread k /\ c_isidle c0 = true.

(** What [pick_next] did: the head of the run queue runs, or the processor
    stays idle because the queue is empty. *)
Definition picked (k : kernel) (ls : gmap listid (list Z)) (c : Z) (ts zs : list Z)
    (r : switched) (k' : kernel) : Prop :=
  match ts with
  | [] => r = Idle /\ kinv k' ls 0 0 c IPL_HIGH ∅ /\ idling k' c /\ frame k k'
  | n :: ts' =>
      r = Switched /\ curthread k' = n /\ executing k' c /\
      (exists s', kinv k' (<[Zombies c := []]> (<[RunQ c := ts']> ls)) 0 0 c s' ∅) /\
      zlen (cpus k') = zlen (cpus k) /\ procs k' = procs k /\
      (forall t, t ∉ zs -> t <> n -> threads k' !! t = threads k !! t) /\
      (forall t, t ∈ zs -> threads k' !! t = None)
  end.

(** The levels after processor [c] went from its idle thread to [n]. *)
Lemma others_switch k ls c c0 c1 n :
  kinv k ls n 0 c IPL_HIGH {[LRunq c]} -> zlookup (cpus k) c = Some c0 ->
  c_curthread c0 = curthread k -> c_curthread c1 = n ->
  others (threads k) (ipls k) (zinsert (cpus k) c c1) n 0.
Proof.
  intros Hk Hc Hcur Hn t Ht Hne Hny. pose proof (zlookup_Some_range _ _ _ Hc) as Hr.
  pose proof Hk as [[_ Hlvl _ _] Hco Ho _].
  assert (forall d d0, zlookup (cpus k) d = Some d0 -> c_curthread d0 = t -> d = c -> t = curthread k) as Huniq.
  { intros d d0 Hd Hdt ->. congruence. }
  destruct (decide (t = curthread k)) as [->|Hnc].
  - exists (lvl IPL_HIGH 1). rewrite size_singleton in Hlvl. split; [done|]. right. split; [|done].
    intros d d0. rewrite zlookup_zinsert by done. case_bool_decide; subst; [congruence|].
    intros Hd He. destruct (co_cpu _ _ _ _ _ _ _ Hco d d0 Hd) as (t1 & H1 & H2 & _).
    destruct (co_cpu _ _ _ _ _ _ _ Hco c c0 Hc) as (t2 & H3 & H4 & _). congruence.
  - destruct (Ho t Ht Hnc Hny) as (i & Hi & Hio). exists i. split; [done|].
    destruct Hio as [(d & d0 & Hd & Hdt & Hdi)|[Hno ->]].
    + left. exists d, d0. rewrite zlookup_zinsert_ne; [done|]. intros <-. eauto.
    + right. split; [|done]. intros d d0. rewrite zlookup_zinsert by done.
      case_bool_decide; [intros [= <-]; congruence|apply Hno].
Qed.

Lemma pick_next_spec k ls c ts zs :
  kinv k ls 0 0 c IPL_HIGH {[LRunq c]} -> idling k c ->
  ls !! RunQ c = Some ts -> ls !! Zombies c = Some zs ->
  returns (pick_next k) (picked k ls c ts zs).
Proof.
  intros Hk (c0 & Hc0 & Hcur & Hci) Hts Hzs. unfold pick_next. runs_steps.
  eapply runs_cur; [done|]. runs_steps. pose proof (zlookup_Some_range _ _ _ Hc0) as Hr.
  destruct (lk_cpu _ _ _ _ (kv_lks _ _ _ _ _ _ _ Hk) c Hr) as [Hrq _].
  destruct ts as [|n ts].
  - eapply kinv_remhead_nil; [done..|]. intros hl Hk1. runs_steps.
    eapply runs_rel; [done|done|set_solver|]. intros il2 lk2 Hk2. rewrite difference_diag_L in Hk2.
    runs_steps. split_and!; try done. by exists c0.
  - destruct (list_threads k ls 0 c IPL_HIGH _ _ _ n Hk Hts ltac:(by left)) as (tn & Hn & [Htc Hrun] & _).
    pose proof (kv_core _ _ _ _ _ _ _ Hk) as Hco.
    assert (0 < n) by (apply (co_ids _ _ _ _ _ _ _ Hco); eapply co_live; [done|by rewrite Hn]).
    destruct (co_wf _ _ _ _ _ _ _ Hco n tn Hn ltac:(lia)) as (_ & Hst & Hcx).
    pose proof (co_proc _ _ _ _ _ _ _ Hco n tn Hn ltac:(lia)) as Hprc.
    assert (ipls k !! n = Some (lvl IPL_HIGH 1)) as Hlvl.
    { destruct (decide (n = curthread k)) as [->|Hne].
      - pose proof (ctx_lvl _ _ _ _ _ _ _ (kv_ctx _ _ _ _ _ _ _ Hk)) as Hl. by rewrite size_singleton in Hl.
      - destruct (kv_others _ _ _ _ _ _ _ Hk n ltac:(eauto) Hne ltac:(lia)) as (i & Hi & [(d & d0 & Hd & Hdn & _)|[_ ->]]); [|done].
        destruct (co_cpu _ _ _ _ _ _ _ Hco d d0 Hd) as (t1 & H1 & H2 & _). rewrite Hdn in H1. by simplify_eq. }
    eapply kinv_take; [done..|]. intros hl Hk1 Hoff. runs_steps.
    eapply runs_upd_cpu; [done|]. runs_steps.
    eapply runs_upd_cpu; [simpl; by rewrite zlookup_zinsert_eq|]. simpl. unfold put_curthread. runs_steps.
    simpl. rewrite zinsert_zinsert. set (c1 := set_curthread n _).
    pose proof (others_switch _ _ c c0 c1 n Hk1 Hc0 Hcur eq_refl) as Hoth. simpl in Hoth.
    eapply runs_mono; [eapply (switch_in_spec _ (<[RunQ c := ts]> ls) c zs n tn c1); simpl; try done|..].
    + pose proof Hk1 as [[_ _ Hspl Hlk] Hco1 _ [L1 L2 L3]]. simpl in *. split; simpl.
      * split; [by exists tn|by rewrite size_singleton|done|done].
      * eapply (core_cpu_flux _ _ _ _ _ _ n tn c c0); try done. by left.
      * done.
      * split; rewrite ?zlen_zinsert; done.
    + by rewrite zlookup_zinsert_eq.
    + by rewrite lookup_insert_ne.
    + intros [] k' (s' & Hk' & Hex & Hcn & Hcp & Hpr & Hth & Hgone). runs_steps.
      split_and!; try done; [by exists s'|]. rewrite Hcp. simpl. by rewrite zlen_zinsert.
    + done.
Qed.

(** ** Leaving the processor *)

(** The first part of [thread_switch] has put [cur] where [newstate] says;
    what remains is to mark the processor idle and pick. *)
Lemma switch_out_rest k ls c cur tcur l ts zs spl newstate :
  kinv k ls cur 0 c IPL_HIGH {[LRunq c]} -> executing k c -> curthread k = cur ->
  threads k !! cur = Some tcur -> (exists q, ls !! l = Some q /\ cur ∈ q) ->
  (forall l' q, ls !! l' = Some q -> cur ∈ q -> l' = l) ->
  list_ok l (set_state newstate tcur) -> stack_ok tcur -> is_spl spl ->
  (t_proc tcur <> 0 -> exists q, procs k !! t_proc tcur = Some q /\ cur ∈ q) ->
  ls !! RunQ c = Some ts -> ls !! Zombies c = Some zs ->
  returns ((upd_thread cur (set_state newstate) ;; upd_cpu c (set_isidle true) ;;
            upd_thread cur (set_context (Resume spl)) ;; pick_next) k)
    (fun r k' => exists k1, picked k1 ls c ts zs r k' /\
       threads k1 = <[cur := set_context (Resume spl) (set_state newstate tcur)]> (threads k) /\
       procs k1 = procs k /\ zlen (cpus k1) = zlen (cpus k) /\ curthread k1 = cur /\
       oracle k1 = oracle k /\ next_id k1 = next_id k).
Proof.
  intros Hk (t0 & c0 & Ht0 & Hst0 & Htc & Hc0 & Hcc & Hci) Hcur Hx Hon Honly Hok Hst Hspl Hprc Hts Hzs.
  subst cur. rewrite Hx in Ht0. injection Ht0 as <-.
  runs_steps. eapply runs_upd_thread; [done|]. runs_steps.
  eapply runs_upd_cpu; [done|]. runs_steps.
  eapply runs_upd_thread; [simpl; by rewrite lookup_insert_eq|]. simpl. rewrite insert_insert_eq.
  set (t2 := set_context _ _). set (c1 := set_isidle true c0).
  pose proof (zlookup_Some_range _ _ _ Hc0) as Hr. pose proof Hk as [[_ Hlvl Hs Hlk] Hco Ho [L1 L2 L3]].
  set (k1 := set_threads (<[curthread k := t2]> (threads k)) (set_cpus (zinsert (cpus k) c c1) k)).
  eapply (runs_mono (pick_next k1)); [eapply (pick_next_spec k1 ls c ts zs); try done| |done].
  - split; simpl.
    + split; [exists t2; by rewrite lookup_insert_eq|done..].
    + eapply (core_settle _ _ _ _ _ _ (curthread k) t2); [|by rewrite lookup_insert_eq|].
      * eapply (core_cpu_flux _ _ _ _ _ _ (curthread k) t2 c c0); [|done|by right|done|by rewrite lookup_insert_eq|done].
        eapply core_upd_thread; [done|done|by left].
      * split; [intros l' q Hl' Hin; by rewrite (Honly l' q Hl' Hin)|].
        split; [intros Hoff; destruct Hon as (q & Hq & Hin); by destruct (Hoff l q Hq)|].
        split; [|split; [split; [simpl; rewrite Htc; by rewrite zlen_zinsert|done]|done]].
        intros d d0. rewrite zlookup_zinsert by done. case_bool_decide; [by intros [= <-] _|].
        intros Hd Hd0 _. destruct (co_cpu _ _ _ _ _ _ _ Hco d d0 Hd) as (t1 & H1 & H2 & _).
        rewrite Hd0 in H1. congruence.
    + intros t Ht Hnc Hny. destruct Ht as [? Ht]. rewrite lookup_insert_ne in Ht by done.
      destruct (Ho t ltac:(eauto) Hnc Hny) as (i & Hi & Hio). exists i. split; [done|].
      destruct Hio as [(d & d0 & Hd & Hdt & Hdi)|[Hno ->]].
      * left. exists d, d0. rewrite zlookup_zinsert_ne; [done|]. intros <-. congruence.
      * right. split; [|done]. intros d d0. rewrite zlookup_zinsert by done.
        case_bool_decide; [intros [= <-]; simpl; congruence|apply Hno].
    + split; rewrite ?zlen_zinsert; done.
  - exists c1. simpl. by rewrite zlookup_zinsert_eq.
  - intros r k' Hp. exists k1. split; [done|]. unfold k1. simpl. by rewrite zlen_zinsert.
Qed.

Lemma kinv_num k ls x y c s D l ts (Q : Z -> kernel -> Prop) R :
  kinv k ls x y c s D -> ls !! l = Some ts -> Q (zlen ts) k -> runs (on_lists (tl_num l) k) Q R.
Proof.
  intros Hk Hl HQ. eapply runs_lists.
  { apply (tl_num_ok (lists k) ls l ts); [apply (co_rep _ _ _ _ _ _ _ (kv_core _ _ _ _ _ _ _ Hk))|done]. }
  intros n h [-> ->]. by destruct k.
Qed.

Lemma runs_checkstack k t t0 (Q : unit -> kernel -> Prop) R :
  threads k !! t = Some t0 -> stack_ok t0 -> Q tt k -> runs (thread_checkstack t k) Q R.
Proof.
  intros Ht Hst HQ. unfold thread_checkstack. runs_steps. eapply runs_get_thread; [done|].
  unfold stack_ok in Hst. destruct (t_stack t0) as [w|]; [|by runs_steps].
  destruct Hst as (?&?&?&?). runs_steps. do 3 (apply runs_KASSERT; [done|]; runs_steps).
  by apply runs_KASSERT.
Qed.

(** A running thread is on no list. *)
Lemma running_off k ls y c s D t t0 :
  kinv k ls 0 y c s D -> threads k !! t = Some t0 -> t_state t0 = S_RUN -> off_lists ls t.
Proof.
  intros Hk Ht Hrun l ts Hl Hin.
  destruct (list_threads k ls y c s D l ts t Hk Hl Hin) as (t1 & H1 & Hok & _). simplify_eq.
  destruct l; simpl in Hok; unfold runnable in Hok; rewrite Hrun in Hok; naive_solver.
Qed.

(** The executing thread queues itself somewhere. *)
Lemma kinv_add_cur k ls y c s D l ts (Q : unit -> kernel -> Prop) R :
  kinv k ls 0 y c s D -> off_lists ls (curthread k) -> ls !! l = Some ts ->
  (forall hl, kinv (set_lists hl k) (<[l := ts ++ [curthread k]]> ls) (curthread k) y c s D ->
     Q tt (set_lists hl k)) ->
  runs (on_lists (tl_addtail l (curthread k)) k) Q R.
Proof.
  intros Hk Hoff Hl HQ. pose proof (kv_core _ _ _ _ _ _ _ Hk) as Hco.
  destruct (ctx_cpu _ _ _ _ _ _ _ (kv_ctx _ _ _ _ _ _ _ Hk)) as (t0 & Ht & _). eapply runs_lists.
  { apply (tl_addtail_ok (lists k) ls _ ts); [apply (co_rep _ _ _ _ _ _ _ Hco)|done|done| |by eapply core_bound].
    eapply co_live; [done|by rewrite Ht]. }
  intros [] hl [Hrep Hlive]. apply HQ.
  eapply kinv_lists; [done| |by eapply lks_insert; [apply (kv_lks _ _ _ _ _ _ _ Hk)|]].
  apply (core_relist_one (lists k) hl _ _ _ _ _ l ts _ (curthread k)); [by apply core_weaken|done|eauto|done|done|].
  intros z Hne. rewrite elem_of_app, list_elem_of_singleton. tauto.
Qed.

Lemma only_on ls l ts x :
  off_lists ls x -> forall l' q, <[l := ts ++ [x]]> ls !! l' = Some q -> x ∈ q -> l' = l.
Proof.
  intros Hoff l' q. destruct (decide (l' = l)) as [->|]; [done|].
  rewrite lookup_insert_ne by done. intros Hq Hin. by destruct (Hoff l' q).
Qed.

(** Outcome of the executing thread [cur] going to list [l] of [ls]. *)
Definition switched_out (k : kernel) (ls : gmap listid (list Z)) (c : Z) (newstate : threadstate)
    (r : switched) (k' : kernel) : Prop :=
  exists k1 spl tcur ts zs, is_spl spl /\ threads k !! curthread k = Some tcur /\
    ls !! RunQ c = Some ts /\ ls !! Zombies c = Some zs /\
    threads k1 = <[curthread k := set_context (Resume spl) (set_state newstate tcur)]> (threads k) /\
    procs k1 = procs k /\ zlen (cpus k1) = zlen (cpus k) /\ curthread k1 = curthread k /\
    picked k1 ls c ts zs r k'.

Lemma executing_facts k ls c s D :
  kinv k ls 0 0 c s D -> executing k c ->
  exists tcur c0, threads k !! curthread k = Some tcur /\ t_state tcur = S_RUN /\ t_cpu tcur = c /\
    off_lists ls (curthread k) /\ stack_ok tcur /\
    (t_proc tcur <> 0 -> exists q, procs k !! t_proc tcur = Some q /\ curthread k ∈ q) /\
    0 <= c < zlen (cpus k) /\
    zlookup (cpus k) c = Some c0 /\ c_curthread c0 = curthread k /\ c_isidle c0 = false /\
    (exists ts, ls !! RunQ c = Some ts) /\ (exists zs, ls !! Zombies c = Some zs).
Proof.
  intros Hk (t0 & c0 & Ht & Hst & Htc & Hc0 & Hcc & Hci). exists t0, c0.
  pose proof (kv_core _ _ _ _ _ _ _ Hk) as Hco.
  assert (0 < curthread k) by (apply (co_ids _ _ _ _ _ _ _ Hco); eapply co_live; [done|by rewrite Ht]).
  destruct (co_wf _ _ _ _ _ _ _ Hco _ _ Ht ltac:(lia)) as (Hr & Hstk & _). rewrite Htc in Hr.
  destruct (co_lists _ _ _ _ _ _ _ Hco c Hr) as [[??] [??]].
  split_and!; eauto; try lia; [by eapply running_off|].
  apply (co_proc _ _ _ _ _ _ _ Hco); [done|lia].
Qed.

(** Yielding: with nobody waiting nothing happens; otherwise the thread goes
    to the tail of its run queue and the head runs. *)
Lemma yield_spec k ls c s :
  kinv k ls 0 0 c s ∅ -> executing k c ->
  returns (thread_yield k) (fun r k' =>
    match ls !! RunQ c with
    | Some [] => r = Stayed /\ kinv k' ls 0 0 c s ∅ /\ executing k' c /\ frame k k'
    | Some ts => switched_out k (<[RunQ c := ts ++ [curthread k]]> ls) c S_READY r k'
    | None => False
    end).
Proof.
  intros Hk Hex. destruct (executing_facts k ls c s ∅ Hk Hex)
    as (tcur & c0 & Ht & Hst & Htc & Hoff & Hstk & Hprc & Hr & Hc0 & Hcc & Hci & (ts & Hts) & (zs & Hzs)).
  unfold thread_yield, thread_switch. runs_steps.
  eapply runs_spl; [done|by right|]. intros il1 Hk1. runs_steps.
  eapply runs_cur; [done|]. runs_steps. eapply runs_get_cpu; [done|]. rewrite Hci. runs_steps.
  eapply runs_checkstack; [done..|]. runs_steps.
  destruct (lk_cpu _ _ _ _ (kv_lks _ _ _ _ _ _ _ Hk) c Hr) as [Hrq _].
  eapply runs_acq; [done|done|set_solver|]. intros il2 lk2 Hk2. runs_steps.
  eapply kinv_num; [done|done|]. rewrite bool_decide_true by done. simpl (true && _).
  rewrite Hts. destruct ts as [|n ts].
  - simpl (_ =? _). cbn iota. runs_steps.
    destruct (lk_cpu _ _ _ _ (kv_lks _ _ _ _ _ _ _ Hk2) c Hr) as [Hrq2 _].
    eapply runs_rel; [done|done|set_solver|]. intros il3 lk3 Hk3. rewrite release_undo in Hk3 by set_solver.
    runs_steps. eapply runs_spl; [done|apply (ctx_spl _ _ _ _ _ _ _ (kv_ctx _ _ _ _ _ _ _ Hk))|].
    intros il4 Hk4. runs_steps. split_and!; done.
  - change (zlen (n :: ts) =? 0) with false. cbn iota. unfold put_away, thread_make_runnable. runs_steps.
    eapply runs_get_thread; [done|]. rewrite Htc. unfold do_i_hold. runs_steps. eapply runs_cur; [done|]. runs_steps.
    destruct (lk_cpu _ _ _ _ (kv_lks _ _ _ _ _ _ _ Hk2) c Hr) as [[v Hv] _].
    apply (runs_of_option _ _ v); [done|]. runs_steps.
    pose proof (ctx_locks _ _ _ _ _ _ _ (kv_ctx _ _ _ _ _ _ _ Hk2) _ _ Hv) as Hheld.
    rewrite bool_decide_true in Hheld by set_solver. subst v.
    apply runs_KASSERT; [unfold spinlock_do_i_hold; simpl; by rewrite bool_decide_true|]. runs_steps.
    eapply runs_get_cpu; [done|]. rewrite Hci. runs_steps.
    eapply (kinv_add_cur (set_il il2 lk2 (set_il il1 (locks k) k))); [done|done|done|]. intros hl Hk3. runs_steps. simpl. runs_steps.
    rewrite union_empty_r_L in Hk3. simpl in Hk3. apply runs_bind_inv.
    eapply runs_mono; [eapply (switch_out_rest _ _ c (curthread k) tcur (RunQ c) ((n :: ts) ++ [curthread k]) zs s S_READY)| |done].
    all: try done.
    + simpl. exists ((n :: ts) ++ [curthread k]). rewrite lookup_insert_eq. split; [done|].
      rewrite elem_of_app, list_elem_of_singleton. by right.
    + by apply (only_on ls (RunQ c) (n :: ts)).
    + split; [done|by left].
    + apply (ctx_spl _ _ _ _ _ _ _ (kv_ctx _ _ _ _ _ _ _ Hk)).
    + by rewrite lookup_insert_eq.
    + by rewrite lookup_insert_ne.
    + intros r k' (k1 & Hp & H1 & H2 & H3 & H4 & _). exists k1, s, tcur, ((n :: ts) ++ [curthread k]), zs.
      split_and!; try done; [apply (ctx_spl _ _ _ _ _ _ _ (kv_ctx _ _ _ _ _ _ _ Hk))|by rewrite lookup_insert_eq|
        by rewrite lookup_insert_ne].
Qed.

(** The way out for a thread that will not be ready: raise the level, lock
    the run queue, queue the thread on [l], leave. *)
Lemma thread_switch_away k ls c s D newstate wc l q (Q : switched -> kernel -> Prop) :
  kinv k ls 0 0 c s D -> executing k c -> LRunq c ∉ D -> newstate <> S_READY ->
  ls !! l = Some q -> (forall c', l <> RunQ c') ->
  (forall tcur, threads k !! curthread k = Some tcur -> t_cpu tcur = c -> list_ok l (set_state newstate tcur)) ->
  (forall k2 Q', kinv k2 ls 0 0 c IPL_HIGH ({[LRunq c]} ∪ D) -> curthread k2 = curthread k ->
     off_lists ls (curthread k2) ->
     (forall k3, kinv k3 (<[l := q ++ [curthread k]]> ls) (curthread k) 0 c IPL_HIGH {[LRunq c]} ->
        frame k2 k3 -> Q' tt k3) ->
     returns (put_away newstate wc (curthread k) c k2) Q') ->
  (forall r k', switched_out k (<[l := q ++ [curthread k]]> ls) c newstate r k' -> Q r k') ->
  returns (thread_switch newstate wc k) Q.
Proof.
  intros Hk Hex HD Hns Hl Hnrq Hok Hput HQ. destruct (executing_facts k ls c s D Hk Hex)
    as (tcur & c0 & Ht & Hst & Htc & Hoff & Hstk & Hprc & Hr & Hc0 & Hcc & Hci & (ts & Hts) & (zs & Hzs)).
  pose proof (ctx_spl _ _ _ _ _ _ _ (kv_ctx _ _ _ _ _ _ _ Hk)) as Hspl.
  unfold thread_switch. runs_steps.
  eapply runs_spl; [done|by right|]. intros il1 Hk1. runs_steps.
  eapply runs_cur; [done|]. runs_steps. eapply runs_get_cpu; [done|]. rewrite Hci. runs_steps.
  eapply runs_checkstack; [done..|]. runs_steps.
  destruct (lk_cpu _ _ _ _ (kv_lks _ _ _ _ _ _ _ Hk) c Hr) as [Hrq _].
  eapply runs_acq; [done|done|done|]. intros il2 lk2 Hk2. runs_steps.
  eapply kinv_num; [done|done|]. rewrite bool_decide_false by done. simpl (false && _). cbn iota. runs_steps.
  apply (Hput _ _ Hk2); [done|done|]. intros k3 Hk3 Hf3.
  destruct Hf3 as (Hth & Hpr & Hcur & Hnx & Ho & Hcp). simpl in Hth, Hpr, Hcur, Hnx, Ho, Hcp.
  assert (executing k3 c) as Hex3.
  { specialize (Hcp c). rewrite Hc0 in Hcp. destruct (zlookup (cpus k3) c) as [c3|] eqn:E3; [|done].
    simpl in Hcp. injection Hcp as Hcp1 Hcp2. exists tcur, c3. rewrite Hth, Hcur. split_and!; try done; congruence. }
  assert (zlen (cpus k3) = zlen (cpus k)) as Hzl by (by apply cp_same_len).
  assert (exists zs', <[l := q ++ [curthread k]]> ls !! Zombies c = Some zs') as [zs' Hzs'].
  { destruct (decide (l = Zombies c)) as [->|]; [rewrite lookup_insert_eq|rewrite lookup_insert_ne by done]; eauto. }
  assert (<[l := q ++ [curthread k]]> ls !! RunQ c = Some ts) as Hts' by (by rewrite lookup_insert_ne).
  eapply (runs_mono ((upd_thread (curthread k) (set_state newstate) ;; upd_cpu c (set_isidle true) ;;
            upd_thread (curthread k) (set_context (Resume s)) ;; pick_next) k3));
    [eapply (switch_out_rest k3 _ c (curthread k) tcur l ts zs'); try done| |done].
  - by rewrite Hth.
  - exists (q ++ [curthread k]). rewrite lookup_insert_eq. split; [done|].
    rewrite elem_of_app, list_elem_of_singleton. by right.
  - by apply only_on.
  - by apply Hok.
  - by rewrite Hpr.
  - intros r k' (k1 & Hp & E1 & E2 & E3 & E4 & _). apply HQ. rewrite Hth in E1. rewrite Hpr in E2.
    exists k1, s, tcur, ts, zs'. split_and!; try done. congruence.
Qed.

(** Going to sleep on channel [w], as its users do: lock it, then sleep. *)
Lemma sleep_spec k ls c s w q :
  kinv k ls 0 0 c s ∅ -> executing k c -> ls !! WaitQ w = Some q ->
  (forall tcur, threads k !! curthread k = Some tcur -> t_in_interrupt tcur = false) ->
  returns ((wchan_lock w ;; wchan_sleep w) k)
    (switched_out k (<[WaitQ w := q ++ [curthread k]]> ls) c S_SLEEP).
Proof.
  intros Hk Hex Hw Hint. destruct (executing_facts k ls c s ∅ Hk Hex) as (tcur & c0 & Ht & _).
  pose proof (kv_lks _ _ _ _ _ _ _ Hk) as [_ L2 _]. runs_steps. unfold wchan_lock.
  eapply runs_acq; [done|apply L2; eauto|set_solver|]. intros il1 lk1 Hk1. unfold wchan_sleep. runs_steps.
  eapply runs_get_thread; [done|]. runs_steps. apply runs_KASSERT; [by rewrite (Hint tcur)|]. runs_steps.
  eapply (thread_switch_away _ ls c s _ S_SLEEP (Some w) (WaitQ w) q); [done|done|set_solver|done|done|done|done| |done].
  intros k2 Q' Hk2 Hcur Hoff HQ'. unfold put_away. runs_steps. apply (runs_of_option _ _ w); [done|]. runs_steps.
  rewrite <- Hcur. eapply (kinv_add_cur k2); [done|done|done|]. intros hl Hk3.
  pose proof (kv_lks _ _ _ _ _ _ _ Hk3) as [_ L3 _].
  eapply runs_rel; [done|apply L3; rewrite lookup_insert_eq; eauto|set_solver|]. intros il4 lk4 Hk4.
  apply HQ'; [|by split_and!]. rewrite <- Hcur.
  assert (({[LRunq c]} ∪ ({[LWchan w]} ∪ ∅)) ∖ {[LWchan w]} = ({[LRunq c]} : gset lockref)) as HDe
    by (apply leibniz_equiv; set_solver).
  by rewrite HDe in Hk4.
Qed.

(** ** Exit *)

Lemma core_procs hl th cp pr pr' nx ls x :
  core hl th cp pr nx ls x ->
  (forall p ts t, pr !! p = Some ts -> t ∈ ts -> t <> x -> exists ts', pr' !! p = Some ts' /\ t ∈ ts') ->
  core hl th cp pr' nx ls x.
Proof.
  intros [Hrep Hls Hlive Hids Hon Hoff Hcpu Hwf Hpr Hsz] Hp. split; try done.
  intros t t0 Ht Hnx Hnz. destruct (Hpr t t0 Ht Hnx Hnz) as (ts & Hts & Hin). eauto.
Qed.

Lemma find_thread_spec t i ts :
  t ∈ ts -> exists j, find_thread t i ts = Some (i + j) /\ 0 <= j < zlen ts /\ zlookup ts j = Some t.
Proof.
  revert i. induction ts as [|x ts IH]; intros i Hin; [by apply elem_of_nil in Hin|]. simpl.
  pose proof (zlen_nonneg ts).
  assert (zlen (x :: ts) = zlen ts + 1) as Hz by (unfold zlen; simpl; lia).
  destruct (Z.eqb_spec x t) as [->|Hne].
  - exists 0. split_and!; [f_equal; lia|lia|lia|done].
  - apply elem_of_cons in Hin as [|Hin]; [congruence|]. destruct (IH (i + 1) Hin) as (j & Hj & Hr & Hl).
    exists (j + 1). split_and!; [rewrite Hj; f_equal; lia|lia|lia|].
    change (x :: ts) with ([x] ++ ts). rewrite zlookup_app_r by (unfold zlen; simpl; lia).
    replace (j + 1 - zlen [x]) with j by (unfold zlen; simpl; lia). done.
Qed.

Lemma remove_at_other (ts : list Z) j t z :
  zlookup ts j = Some t -> z ∈ ts -> z <> t -> z ∈ ztake j ts ++ zdrop (j + 1) ts.
Proof.
  intros Hj Hz Hne. pose proof (zlookup_Some_range _ _ _ Hj) as Hr.
  unfold zlookup in Hj. rewrite bool_decide_true in Hj by lia.
  apply take_drop_middle in Hj. rewrite <- Hj in Hz. unfold ztake, zdrop.
  replace (Z.to_nat (j + 1)) with (S (Z.to_nat j)) by lia.
  rewrite elem_of_app, elem_of_cons in *. destruct Hz as [?|[?|?]]; [by left|congruence|by right].
Qed.

Lemma proc_remthread_spec k ls c s :
  kinv k ls 0 0 c s ∅ -> executing k c ->
  (forall tcur, threads k !! curthread k = Some tcur -> t_proc tcur <> 0) ->
  returns (proc_remthread (curthread k) k) (fun _ k' =>
    kinv k' ls 0 0 c s ∅ /\ executing k' c /\ curthread k' = curthread k /\
    exists tcur, threads k !! curthread k = Some tcur /\
      threads k' = <[curthread k := set_proc 0 tcur]> (threads k)).
Proof.
  intros Hk Hex Hp. destruct (executing_facts k ls c s ∅ Hk Hex)
    as (tcur & c0 & Ht & Hst & Htc & Hoff & Hstk & Hprc & Hr & Hc0 & Hcc & Hci & _ & _).
  specialize (Hp _ Ht). destruct (Hprc Hp) as (q & Hq & Hin).
  unfold proc_remthread. runs_steps. eapply runs_get_thread; [done|]. runs_steps.
  apply runs_KASSERT; [by apply negb_true_iff, Z.eqb_neq|]. runs_steps.
  pose proof (kv_lks _ _ _ _ _ _ _ Hk) as [_ _ L3].
  eapply runs_acq; [done|apply L3; eauto|set_solver|]. intros il1 lk1 Hk1. runs_steps.
  apply (runs_of_option _ _ q); [done|]. runs_steps.
  destruct (find_thread_spec _ 0 q Hin) as (j & -> & Hjr & Hj). rewrite Z.add_0_l. unfold put_procs. runs_steps.
  simpl. set (k2 := mkKernel _ _ _ _ _ _ _ _ _).
  assert (kinv k2 ls (curthread k) 0 c s ({[LProc (t_proc tcur)]} ∪ ∅)) as Hk2.
  { destruct Hk1 as [Hc1 Hco1 Ho1 [L1' L2' L3']]. split; [done| |done|].
    - apply (core_procs _ _ _ (procs k)); [by apply core_weaken|].
      intros p ts z Hpz Hz Hne. simpl. destruct (decide (p = t_proc tcur)) as [->|].
      + simplify_eq. rewrite lookup_insert_eq. eexists. split; [done|]. by eapply remove_at_other.
      + rewrite lookup_insert_ne by done. eauto.
    - split; [done|done|]. intros p. simpl in *. rewrite <- L3'.
      destruct (decide (p = t_proc tcur)) as [->|]; [rewrite lookup_insert_eq, Hq; naive_solver|by rewrite lookup_insert_ne]. }
  pose proof (kv_lks _ _ _ _ _ _ _ Hk2) as [_ _ L4].
  eapply runs_rel; [done|apply L4; simpl; rewrite lookup_insert_eq; eauto|set_solver|].
  intros il3 lk3 Hk3. rewrite release_undo in Hk3 by set_solver.
  eapply runs_upd_thread; [done|]. set (k4 := set_threads _ _).
  assert (executing k4 c) as Hex4.
  { exists (set_proc 0 tcur), c0. simpl. rewrite lookup_insert_eq. by split_and!. }
  split_and!; [|done|done|exists tcur; done].
  pose proof Hk3 as [[(t1 & Ht1 & Htc1) Hl3 Hs3 Hlk3] Hco3 Ho3 Hl3'].
  split; [| | |done].
  - split; [exists (set_proc 0 tcur); simpl; by rewrite lookup_insert_eq|done..].
  - eapply (core_settle _ _ _ _ _ _ (curthread k) (set_proc 0 tcur)); [|simpl; by rewrite lookup_insert_eq|].
    + simpl. apply (core_upd_thread _ _ _ _ _ _ _ tcur); [exact Hco3|done|by left].
    + pose proof (kv_core _ _ _ _ _ _ _ Hk) as Hco.
      assert (0 < curthread k) by (apply (co_ids _ _ _ _ _ _ _ Hco); eapply co_live; [done|by rewrite Ht]).
      pose proof (co_wf _ _ _ _ _ _ _ Hco _ _ Ht ltac:(lia)) as Hwf.
      split; [intros l ts Hl Hi; by destruct (Hoff l ts)|]. split; [intros _|].
      * split; [done|]. exists c0. simpl. by rewrite Htc.
      * split; [done|]. split; [done|]. done.
  - intros t [? Htt] Hnc Hny. simpl in Htt. rewrite lookup_insert_ne in Htt by done. apply Ho3; eauto.
Qed.

(** A thread of the kernel process, or one already detached, exits: it
    becomes a zombie of its processor, which goes on with the next thread. *)
Lemma exit_spec k ls c s kproc zs :
  kinv k ls 0 0 c s ∅ -> executing k c -> kproc <> 0 -> ls !! Zombies c = Some zs ->
  (forall tcur, threads k !! curthread k = Some tcur -> t_proc tcur = kproc \/ t_proc tcur = 0) ->
  returns (thread_exit kproc k) (fun r k' => exists k0,
    kinv k0 ls 0 0 c IPL_HIGH ∅ /\ curthread k0 = curthread k /\
    (forall t, t <> curthread k -> threads k0 !! t = threads k !! t) /\
    switched_out k0 (<[Zombies c := zs ++ [curthread k]]> ls) c S_ZOMBIE r k').
Proof.
  intros Hk Hex Hkp Hzs Hp. destruct (executing_facts k ls c s ∅ Hk Hex) as (tcur & c0 & Ht & _ & Htc & _ & Hstk & _).
  unfold thread_exit. runs_steps. eapply runs_get_thread; [done|]. runs_steps.
  apply runs_KASSERT; [destruct (Hp _ Ht) as [-> | ->]; rewrite Z.eqb_refl; [done|apply orb_true_r]|]. runs_steps.
  assert (forall k1, kinv k1 ls 0 0 c s ∅ -> executing k1 c -> curthread k1 = curthread k ->
    (exists t1, threads k1 !! curthread k = Some t1 /\ t_proc t1 = 0 /\ stack_ok t1) ->
    (forall t, t <> curthread k -> threads k1 !! t = threads k !! t) ->
    returns ((let* th := get_thread (curthread k) in
      KASSERT (t_proc th =? 0) ;; thread_checkstack (curthread k) ;;
      let* _ := on_ipl splhigh in
      let* r := thread_switch S_ZOMBIE None in
      match r with Stayed => panic | _ => ret r end) k1)
    (fun r k' => exists k0,
      kinv k0 ls 0 0 c IPL_HIGH ∅ /\ curthread k0 = curthread k /\
      (forall t, t <> curthread k -> threads k0 !! t = threads k !! t) /\
      switched_out k0 (<[Zombies c := zs ++ [curthread k]]> ls) c S_ZOMBIE r k')) as Hrest.
  { intros k1 Hk1 Hex1 Hcur1 (t1 & Ht1 & Hp1 & Hs1) Hsame. runs_steps. eapply runs_get_thread; [done|]. runs_steps.
    apply runs_KASSERT; [lia|]. runs_steps. eapply runs_checkstack; [done..|]. runs_steps.
    eapply runs_spl; [done|by right|]. intros il2 Hk2. runs_steps.
    eapply (thread_switch_away _ ls c IPL_HIGH ∅ S_ZOMBIE None (Zombies c) zs); [done|done|set_solver|done|done|done| | |].
    - intros t2 Ht2 Htc2. simpl in Ht2. rewrite Hcur1, Ht1 in Ht2. simplify_eq. by split_and!.
    - intros k3 Q' Hk3 Hcur3 Hoff3 HQ'. unfold put_away. rewrite <- Hcur3.
      eapply (kinv_add_cur k3); [done..|]. intros hl Hk4. rewrite union_empty_r_L in Hk4.
      rewrite Hcur3 in Hk4. apply HQ'; [done|by split_and!].
    - intros r k' Hso. cbn beta. assert (r <> Stayed) as Hns.
      { destruct Hso as (k5 & ? & ? & ts & ? & ? & _ & _ & _ & _ & _ & _ & _ & Hpk). unfold picked in Hpk.
        destruct ts; [by destruct Hpk as [-> _]|by destruct Hpk as [-> _]]. }
      simpl in Hso. rewrite Hcur1 in Hso.
      destruct r; [done|runs_steps|runs_steps]; exists (set_il il2 (locks k1) k1); by split_and!. }
  destruct (Z.eqb_spec (t_proc tcur) kproc) as [He|Hne].
  - eapply (runs_mono (proc_remthread _ k));
      [eapply proc_remthread_spec; [done|done|intros ? ?; simplify_eq; congruence]| |done].
    intros [] k1 (Hk1 & Hex1 & Hcur1 & t1 & Ht1 & Hth1). apply Hrest; try done.
    + exists (set_proc 0 t1). rewrite Hth1, lookup_insert_eq. simplify_eq. done.
    + intros t Hnt. by rewrite Hth1, lookup_insert_ne.
  - apply runs_ret, Hrest; try done. exists tcur. split_and!; try done.
    destruct (Hp _ Ht); [congruence|done].
Qed.

(** The idle loop: the processor takes the head of its run queue as soon as
    there is one. *)
Lemma idle_poll_spec k ls c ts zs :
  kinv k ls 0 0 c IPL_HIGH ∅ -> idling k c ->
  ls !! RunQ c = Some ts -> ls !! Zombies c = Some zs ->
  returns (idle_poll k) (fun r k' => exists k1, picked k1 ls c ts zs r k' /\ frame k k1).
Proof.
  intros Hk (c0 & Hc0 & Hcc & Hci) Hts Hzs. unfold idle_poll. runs_steps. eapply runs_cur; [done|]. runs_steps.
  destruct (lk_cpu _ _ _ _ (kv_lks _ _ _ _ _ _ _ Hk) c) as [Hrq _]; [by eapply zlookup_Some_range|].
  eapply runs_acq; [done|done|set_solver|]. intros il1 lk1 Hk1. rewrite union_empty_r_L in Hk1.
  eapply runs_mono; [eapply pick_next_spec; [exact Hk1|by exists c0|done|done]| |done].
  intros r k' Hp. eexists. split; [exact Hp|]. by split_and!.
Qed.

(** ** Fork *)

Definition set_oracle (o : list bool) (k : kernel) : kernel :=
  mkKernel (lists k) (threads k) (ipls k) (locks k) (cpus k) (procs k) (curthread k) (next_id k) o.

Lemma kinv_oracle k ls x y c s D o : kinv k ls x y c s D -> kinv (set_oracle o k) ls x y c s D.
Proof. intros [????]. by split. Qed.

Lemma runs_alloc k (Q : bool -> kernel -> Prop) R :
  (forall b o, Q b (set_oracle o k)) -> runs (alloc k) Q R.
Proof. intros HQ. unfold alloc. apply runs_Ret. apply HQ. Qed.

(** A thread being built: known to no list and to no processor. *)
Record newborn (k : kernel) (ls : gmap listid (list Z)) (t : Z) (t0 : thread) : Prop := {
  nb_thread : threads k !! t = Some t0;
  nb_off : off_lists ls t;
  nb_cur : t <> curthread k;
  nb_cpu : forall d c0, zlookup (cpus k) d = Some c0 -> c_curthread c0 <> t;
  nb_state : t_state t0 = S_READY;
  nb_level : ipls k !! t = Some (lvl IPL_HIGH 0) }.

Lemma kinv_upd_newborn k ls t t0 t1 c s D :
  kinv k ls t t c s D -> newborn k ls t t0 -> t_state t1 = S_READY ->
  kinv (set_threads (<[t := t1]> (threads k)) k) ls t t c s D /\
  newborn (set_threads (<[t := t1]> (threads k)) k) ls t t1.
Proof.
  intros [[(tc & Htc & Hc) Hl Hs Hlk] Hco Ho Hlks] [Ht Hoff Hcur Hcpu Hst Hlv] Hs1. split.
  - split; [| | |done].
    + split; [exists tc; simpl; by rewrite lookup_insert_ne|done..].
    + simpl. apply (core_upd_thread _ _ _ _ _ _ _ t0); [done|done|by right].
    + intros z [? Hz] Hnc Hny. simpl in Hz. rewrite lookup_insert_ne in Hz by done. apply Ho; eauto.
  - split; try done. simpl. by rewrite lookup_insert_eq.
Qed.

Lemma newborn_il k ls t t0 il lk :
  newborn k ls t t0 -> il_same (curthread k) (ipls k) il (locks k) lk -> newborn (set_il il lk k) ls t t0.
Proof. intros [Ht Hoff Hcur Hcpu Hst Hlv] [Hi _]. split; try done. simpl. by rewrite Hi. Qed.

Lemma thread_create_spec k ls c s D :
  kinv k ls 0 0 c s D -> Z.of_nat (size (threads k)) + 2 < 2 ^ 32 ->
  returns (thread_create k) (fun r k' =>
    match r with
    | None => exists o, k' = set_oracle o k
    | Some t => t = next_id k /\ kinv k' ls t t c s D /\
                newborn k' ls t (mkThread S_READY None Startup 0 0 false) /\
                threads k' = <[t := mkThread S_READY None Startup 0 0 false]> (threads k) /\
                threads k !! t = None /\ cpus k' = cpus k /\ procs k' = procs k /\
                curthread k' = curthread k
    end).
Proof.
  intros Hk Hsz. unfold thread_create. runs_steps. apply runs_alloc. intros b o. destruct b; simpl; [|runs_steps; eauto].
  runs_steps. apply runs_alloc. intros b o2. destruct b; simpl; [|runs_steps; by eexists].
  unfold put_next_id, put_threads. runs_steps. simpl.
  pose proof Hk as [[(tc & Htc & Hc) Hl Hs Hlk] Hco Ho Hlks].
  assert (~ tl_live (lists k) (next_id k)) as Hnl.
  { intros Hlv%(co_ids _ _ _ _ _ _ _ Hco). lia. }
  assert (threads k !! next_id k = None) as Hfresh.
  { apply eq_None_not_Some. intros Ht. apply Hnl, (co_live _ _ _ _ _ _ _ Hco), Ht. }
  assert (0 < curthread k < next_id k) as Hnx.
  { apply (co_ids _ _ _ _ _ _ _ Hco), (co_live _ _ _ _ _ _ _ Hco). eauto. }
  eapply runs_lists; [apply (tl_node_init_ok (lists k) ls (next_id k)); [apply (co_rep _ _ _ _ _ _ _ Hco)|lia|done]|].
  intros [] hl [Hrep Hlive]. unfold put_ipls. runs_steps. simpl.
  assert (forall t, is_Some (threads k !! t) -> t <> next_id k) as Hother.
  { intros t Ht ->. rewrite Hfresh in Ht. by destruct Ht. }
  assert (off_lists ls (next_id k)) as Hoff.
  { intros l ts Hlt Hin. destruct (co_on _ _ _ _ _ _ _ Hco l ts _ Hlt Hin) as (? & ? & _). congruence. }
  split_and!; try done.
  - split; simpl; [| | |done].
    + split; [exists tc; by rewrite lookup_insert_ne by lia|by rewrite lookup_insert_ne by lia|done|done].
    + destruct Hco as [Hr Hls Hlv Hids Hon Hof Hcpu Hwf Hpr Hz]. split; try done.
      * intros t Ht. apply Hlive. destruct (decide (t = next_id k)) as [->|]; [by left|].
        rewrite lookup_insert_ne in Ht by done. right. auto.
      * intros t [->|Ht%Hids]%Hlive; lia.
      * intros l ts t Hlt Hin. destruct (Hon l ts t Hlt Hin) as (t0 & H0 & Hok). exists t0.
        pose proof (Hother t ltac:(eauto)). rewrite lookup_insert_ne by done. split; [done|]. intros _.
        apply Hok. intros ->. specialize (Hids 0 (Hlv 0 ltac:(eauto))). lia.
      * intros t t0 Ht Hne Hof'. rewrite lookup_insert_ne in Ht by done. apply Hof; [done| |done].
        intros ->. specialize (Hids 0 (Hlv 0 ltac:(eauto))). lia.
      * intros d c0 Hd. destruct (Hcpu d c0 Hd) as (t0 & H0 & H1 & H2). exists t0.
        pose proof (Hother _ ltac:(eauto)). rewrite lookup_insert_ne by done. split_and!; [done|done|].
        intros ? _. apply H2; [done|]. intros E. rewrite E in H0. specialize (Hids 0 (Hlv 0 ltac:(eauto))). lia.
      * intros t t0 Ht Hne. rewrite lookup_insert_ne in Ht by done. apply (Hwf t); [done|].
        intros ->. specialize (Hids 0 (Hlv 0 ltac:(eauto))). lia.
      * intros t t0 Ht Hne. rewrite lookup_insert_ne in Ht by done. apply (Hpr t); [done|].
        intros ->. specialize (Hids 0 (Hlv 0 ltac:(eauto))). lia.
      * rewrite map_size_insert_None by done. lia.
    + intros t [? Ht] Hnc Hny. rewrite lookup_insert_ne in Ht by done.
      destruct (Ho t ltac:(eauto) Hnc) as (i & Hi & Hio).
      { intros ->. pose proof (co_ids _ _ _ _ _ _ _ Hco 0 (co_live _ _ _ _ _ _ _ Hco 0 ltac:(eauto))). lia. }
      exists i. by rewrite lookup_insert_ne.
  - split; simpl; try done; [by rewrite lookup_insert_eq|lia| |by rewrite lookup_insert_eq].
    intros d c0 Hd He. destruct (co_cpu _ _ _ _ _ _ _ Hco d c0 Hd) as (t0 & H0 & _).
    rewrite He, Hfresh in H0. done.
Qed.

Lemma newborn_other k k' ls t t0 :
  newborn k ls t t0 -> threads k' = threads k -> ipls k' !! t = ipls k !! t -> cpus k' = cpus k ->
  curthread k' = curthread k -> newborn k' ls t t0.
Proof. intros [Ht Hoff Hcur Hcpu Hst Hlv] E1 E2 E3 E4. split; rewrite ?E1, ?E2, ?E3, ?E4; done. Qed.

(** Same structures, other process table: a thread of [p] was added. *)
Lemma kinv_add_proc k ls t c s D p q :
  kinv k ls t t c s D -> procs k !! p = Some q ->
  kinv (mkKernel (lists k) (threads k) (ipls k) (locks k) (cpus k) (<[p := q ++ [t]]> (procs k))
          (curthread k) (next_id k) (oracle k)) ls t t c s D.
Proof.
  intros [Hc Hco Ho [L1 L2 L3]] Hq. split; [done| |done|].
  - apply (core_procs _ _ _ (procs k)); [done|]. simpl. intros p' ts z Hp Hz _.
    destruct (decide (p' = p)) as [->|]; [|rewrite lookup_insert_ne by done; eauto].
    simplify_eq. rewrite lookup_insert_eq. eexists. split; [done|]. apply elem_of_app. by left.
  - split; [done|done|]. intros p'. rewrite <- L3. simpl.
    destruct (decide (p' = p)) as [->|]; [rewrite lookup_insert_eq, Hq; naive_solver|by rewrite lookup_insert_ne].
Qed.

Lemma proc_addthread_spec k ls t t0 c s p q :
  kinv k ls t t c s ∅ -> newborn k ls t t0 -> t_proc t0 = 0 -> procs k !! p = Some q ->
  runs (proc_addthread p t k)
    (fun _ k' => kinv k' ls t t c s ∅ /\ newborn k' ls t (set_proc p t0) /\
       threads k' = <[t := set_proc p t0]> (threads k) /\ cpus k' = cpus k /\
       curthread k' = curthread k /\ procs k' = <[p := q ++ [t]]> (procs k))
    (fun e k' => e = ENOMEM /\ kinv k' ls t t c s ∅ /\ newborn k' ls t t0 /\
       threads k' = threads k /\ cpus k' = cpus k /\ curthread k' = curthread k /\ procs k' = procs k).
Proof.
  intros Hk Hnb Hp Hq. unfold proc_addthread. runs_steps. pose proof (nb_thread _ _ _ _ Hnb) as Ht.
  eapply runs_get_thread; [done|]. runs_steps. apply runs_KASSERT; [lia|]. runs_steps.
  pose proof (kv_lks _ _ _ _ _ _ _ Hk) as [_ _ L3]. pose proof (nb_cur _ _ _ _ Hnb) as Hne.
  destruct k as [hl th il lk cp pr cur nx o]. simpl in *.
  eapply runs_acquire; [apply (kv_ctx _ _ _ _ _ _ _ Hk)|apply L3; eauto|set_solver|]. simpl.
  intros il1 lk1 Hc1 Hs1. pose proof (kinv_il _ _ _ _ _ _ _ _ _ _ _ Hk Hc1 Hs1) as Hk1. unfold set_il in Hk1; simpl in Hk1.
  pose proof (newborn_il _ _ _ _ il1 lk1 Hnb Hs1) as Hnb1. unfold set_il in Hnb1; simpl in Hnb1.
  runs_steps. apply runs_alloc. intros b o2. runs_steps. simpl. apply (runs_of_option _ _ q); [done|]. runs_steps.
  destruct b; simpl.
  - unfold put_procs. runs_steps. simpl.
    pose proof (kinv_add_proc _ _ _ _ _ _ p q Hk1 Hq) as Hk2. simpl in Hk2.
    pose proof (kv_lks _ _ _ _ _ _ _ Hk2) as [_ _ L4]. simpl in L4.
    eapply runs_release; [apply (kv_ctx _ _ _ _ _ _ _ Hk2)|apply L4; rewrite lookup_insert_eq; eauto|set_solver|].
    simpl. intros il3 lk3 Hc3 Hs3. pose proof (kinv_il _ _ _ _ _ _ _ _ _ _ _ Hk2 Hc3 Hs3) as Hk3.
    rewrite release_undo in Hk3 by set_solver. unfold set_il in Hk3; simpl in Hk3. runs_steps.
    eapply runs_upd_thread; [done|].
    destruct (kinv_upd_newborn (mkKernel hl th il3 lk3 cp (<[p := q ++ [t]]> pr) cur nx o2) ls t t0 (set_proc p t0) c s ∅)
      as [Hk4 Hnb4]; [exact (kinv_oracle _ _ _ _ _ _ _ o2 Hk3)| |apply (nb_state _ _ _ _ Hnb)|].
    + eapply newborn_other; [exact Hnb1|done| |done|done]. simpl. by apply Hs3.
    + by split_and!.
  - runs_steps. pose proof (kv_lks _ _ _ _ _ _ _ Hk1) as [_ _ L4]. simpl in L4.
    eapply runs_release; [apply (kv_ctx _ _ _ _ _ _ _ Hk1)|apply L4; eauto|set_solver|].
    simpl. intros il3 lk3 Hc3 Hs3. pose proof (kinv_il _ _ _ _ _ _ _ _ _ _ _ Hk1 Hc3 Hs3) as Hk3.
    rewrite release_undo in Hk3 by set_solver. unfold set_il in Hk3; simpl in Hk3. runs_steps.
    split_and!; try done; [exact (kinv_oracle _ _ _ _ _ _ _ o2 Hk3)|]. eapply newborn_other; [exact Hnb1|done| |done|done]. simpl. by apply Hs3.
Qed.

Lemma executing_other k k' c t t0 :
  executing k c -> cp_same (cpus k) (cpus k') -> curthread k' = curthread k -> t <> curthread k ->
  (threads k' = threads k \/ threads k' = <[t := t0]> (threads k)) -> executing k' c.
Proof.
  intros (tc & c0 & Htc & Hst & Hcpu & Hc0 & Hcc & Hci) Hcp Hcur Hne Hth.
  specialize (Hcp c). rewrite Hc0 in Hcp. destruct (zlookup (cpus k') c) as [c1|] eqn:E; [|done].
  simpl in Hcp. injection Hcp as H1 H2. exists tc, c1. rewrite Hcur.
  split_and!; try done; try congruence.
  destruct Hth as [-> | ->]; [done|]. by rewrite lookup_insert_ne.
Qed.

(** The child joins the run queue: its level is that of a switched-out
    thread, it is ready, and it will start in [thread_startup]. *)
Lemma launch_spec k ls t t0 c s ts :
  kinv k ls t t c s ∅ -> newborn k ls t t0 -> executing k c -> t_cpu t0 = c ->
  stack_ok t0 -> (t_proc t0 <> 0 -> exists q, procs k !! t_proc t0 = Some q /\ t ∈ q) ->
  ls !! RunQ c = Some ts -> 0 < t ->
  returns ((let* k := get in
            let* i := of_option Wild (ipls k !! t) in
            put_ipls (<[t := set_iplhigh_count (t_iplhigh_count i + 1) i]> (ipls k)) ;;
            upd_thread t (set_context Startup) ;;
            thread_make_runnable t false) k)
    (fun _ k' => kinv k' (<[RunQ c := ts ++ [t]]> ls) 0 0 c s ∅ /\ executing k' c /\
       threads k' = <[t := set_context Startup t0]> (threads k) /\ curthread k' = curthread k /\
       procs k' = procs k).
Proof.
  intros Hk Hnb Hex Htc Hst Hprc Hts Hpos. pose proof Hnb as [Ht Hoff Hne Hncpu Hstate Hlv].
  runs_steps. apply (runs_of_option _ _ (lvl IPL_HIGH 0)); [done|]. unfold put_ipls. runs_steps.
  eapply runs_upd_thread; [done|]. simpl. set (t1 := set_context Startup t0). set (k1 := set_threads _ _).
  assert (kinv k1 ls t 0 c s ∅) as Hk1.
  { destruct (kinv_upd_newborn k ls t t0 t1 c s ∅ Hk Hnb) as [Hk1 _]; [done|].
    destruct Hk1 as [[(tc & Htc1 & Hc1) Hl1 Hs1 Hlk1] Hco1 Ho1 Hlks1]. simpl in *.
    split; [|done| |done].
    - split; [by exists tc|simpl; by rewrite lookup_insert_ne|done|done].
    - intros z Hz Hnc Hny. simpl. destruct (decide (z = t)) as [->|].
      + rewrite lookup_insert_eq. eexists. split; [done|]. right. done.
      + rewrite lookup_insert_ne by done. by apply Ho1. }
  pose proof (kv_core _ _ _ _ _ _ _ Hk1) as Hco1.
  assert (0 <= c < zlen (cpus k)) as Hr by (destruct Hex as (? & ? & _ & _ & _ & Hc0 & _); by eapply zlookup_Some_range).
  eapply (runs_make_runnable k1 ls t t1); [done| |by simpl; rewrite Htc|set_solver|set_solver|].
  - split; simpl; try done; [by rewrite lookup_insert_eq|by left|by rewrite Htc|].
    intros d c0 Hd Hc0. by destruct (Hncpu d c0).
  - simpl. rewrite Htc. intros k' Hk' (Hth & Hpr & Hcur & _ & _ & Hcp). split_and!; try done.
    eapply (executing_other k k' c t t1); try done. by right.
Qed.

(** Undoing a half-built thread. *)
Lemma abandon_spec k k1 ls t t0 c s :
  kinv k1 ls t t c s ∅ -> newborn k1 ls t t0 -> t_proc t0 = 0 -> executing k c ->
  threads k !! t = None -> (exists t1, threads k1 = <[t := t1]> (threads k)) ->
  cpus k1 = cpus k -> curthread k1 = curthread k -> procs k1 = procs k ->
  forall e, runs ((thread_destroy t ;; @err kernel unit e) k1) (fun _ _ => False)
    (fun e' k' => e' = e /\ kinv k' ls 0 0 c s ∅ /\ executing k' c /\ threads k' = threads k /\
       curthread k' = curthread k /\ procs k' = procs k).
Proof.
  intros Hk1 [Ht Hoff Hne Hncpu Hstate Hlv] Hp Hex Hfresh (t1 & Hth) Hcp Hcur Hpr e. runs_step.
  eapply runs_mono; [eapply thread_destroy_spec; try done; congruence| |done].
  intros [] k2 (Hk2 & Hth2 & Hcp2 & Hpr2 & Hcur2 & _). runs_steps.
  assert (threads k2 = threads k) as Heq by (rewrite Hth2, Hth; by apply delete_insert_id).
  split_and!; try done; try congruence.
  destruct Hex as (tc & c0 & ?). exists tc, c0. by rewrite Heq, Hcur2, Hcp2, Hcp, Hcur.
Qed.

(** The child of [thread_fork]. *)
Definition child (c proc : Z) : thread :=
  mkThread S_READY (Some (zsplice (zrep STACK_WORDS 0) 0 (zrep 4 THREAD_STACK_MAGIC))) Startup c proc false.

(** Either the child is queued last on its parent's processor, or nothing
    changed and the error is [ENOMEM]. *)
Lemma fork_spec k ls c s proc ts tcur q :
  kinv k ls 0 0 c s ∅ -> executing k c -> Z.of_nat (size (threads k)) + 2 < 2 ^ 32 ->
  ls !! RunQ c = Some ts -> threads k !! curthread k = Some tcur ->
  let p := if proc =? 0 then t_proc tcur else proc in
  procs k !! p = Some q ->
  runs (thread_fork proc k)
    (fun _ k' => kinv k' (<[RunQ c := ts ++ [next_id k]]> ls) 0 0 c s ∅ /\ executing k' c /\
       threads k' = <[next_id k := child c p]> (threads k) /\ curthread k' = curthread k /\
       procs k' = <[p := q ++ [next_id k]]> (procs k))
    (fun e k' => e = ENOMEM /\ kinv k' ls 0 0 c s ∅ /\ executing k' c /\ threads k' = threads k /\
       curthread k' = curthread k /\ procs k' = procs k).
Proof.
  intros Hk Hex Hsz Hts Hcur p Hq. unfold thread_fork. runs_steps.
  assert (t_cpu tcur = c) as Htc by (destruct Hex as (? & ? & ? & _ & ? & _); simplify_eq; done).
  eapply runs_mono; [by apply thread_create_spec| |done]. intros [t|] k1.
  2: { intros [o ->]. runs_steps. split_and!; try done. by apply kinv_oracle. }
  intros (-> & Hk1 & Hnb1 & Hth1 & Hfresh & Hcp1 & Hpr1 & Hcur1). set (t := next_id k) in *.
  assert (0 < t) as Hpos.
  { apply (co_ids _ _ _ _ _ _ _ (kv_core _ _ _ _ _ _ _ Hk1)), (co_live _ _ _ _ _ _ _ (kv_core _ _ _ _ _ _ _ Hk1)).
    rewrite Hth1, lookup_insert_eq. eauto. }
  assert (t <> curthread k) as Hne by (pose proof (nb_cur _ _ _ _ Hnb1); congruence).
  runs_steps. apply runs_alloc. intros b o. destruct b; simpl.
  2: { eapply (runs_mono ((thread_destroy t ;; err ENOMEM) (set_oracle o k1)));
         [eapply (abandon_spec k _ ls t (mkThread S_READY None Startup 0 0 false) c s
                    (kinv_oracle _ _ _ _ _ _ _ o Hk1)); try done|done|done].
       - by eapply newborn_other.
       - by exists (mkThread S_READY None Startup 0 0 false). }
  apply kinv_oracle with (o := o) in Hk1. apply (newborn_other k1 (set_oracle o k1)) in Hnb1; [|done..].
  runs_steps. eapply runs_upd_thread; [apply (nb_thread _ _ _ _ Hnb1)|].
  destruct (kinv_upd_newborn _ _ _ _ (set_stack (Some (zrep STACK_WORDS 0)) (mkThread S_READY None Startup 0 0 false))
              _ _ _ Hk1 Hnb1) as [Hk2 Hnb2]; [done|].
  clear Hk1. unfold thread_checkstack_init. runs_steps.
  eapply runs_get_thread; [apply (nb_thread _ _ _ _ Hnb2)|]. runs_steps.
  apply (runs_of_option _ _ (zrep STACK_WORDS 0)); [done|].
  change (zlen (zrep STACK_WORDS 0) <? 4) with false. cbn iota.
  eapply runs_upd_thread; [apply (nb_thread _ _ _ _ Hnb2)|].
  destruct (kinv_upd_newborn _ _ _ _ (set_cpu 0 (child c 0)) _ _ _ Hk2 Hnb2) as [Hk3 Hnb3]; [done|].
  clear Hk2. runs_steps.
  eapply (runs_get_thread _ _ tcur).
  { simpl. rewrite !insert_insert_eq, Hcur1, Hth1. by rewrite !lookup_insert_ne. }
  runs_steps. eapply runs_upd_thread; [apply (nb_thread _ _ _ _ Hnb3)|].
  destruct (kinv_upd_newborn _ _ _ _ (child c 0) _ _ _ Hk3 Hnb3) as [Hk4 Hnb4]; [done|]. clear Hk3.
  rewrite Htc. fold p. runs_steps.
  match type of Hk4 with kinv ?x _ _ _ _ _ _ => set (k4 := x) in * end.
  assert (threads k4 = <[t := child c 0]> (threads k)) as Hth4.
  { unfold k4. simpl. by rewrite Hth1, !insert_insert_eq. }
  eapply runs_mono; [eapply (proc_addthread_spec k4 ls t _ c s p q Hk4 Hnb4); [done|]| |].
  { unfold k4. simpl. by rewrite Hpr1. }
  - intros [] k5 (Hk5 & Hnb5 & Hth5 & Hcp5 & Hcur5 & Hpr5). cbn beta iota.
    assert (executing k5 c) as Hex5.
    { eapply (executing_other k k5 c t (child c p)); [done| |by rewrite Hcur5|done|].
      - rewrite Hcp5. unfold k4. simpl. rewrite Hcp1. by intros d.
      - right. rewrite Hth5, Hth4. by rewrite insert_insert_eq. }
    eapply runs_mono; [eapply (launch_spec k5 ls t _ c s ts Hk5 Hnb5 Hex5); try done| |done].
    + intros _. simpl. rewrite Hpr5, lookup_insert_eq. eexists. split; [done|].
      rewrite elem_of_app, list_elem_of_singleton. by right.
    + intros [] k6 (Hk6 & Hex6 & Hth6 & Hcur6 & Hpr6). split_and!; try done.
      * rewrite Hth6, Hth5, Hth4. by rewrite !insert_insert_eq.
      * rewrite Hcur6, Hcur5. unfold k4. simpl. done.
      * rewrite Hpr6, Hpr5. unfold k4. simpl. by rewrite Hpr1.
  - intros e k5 (-> & Hk5 & Hnb5 & Hth5 & Hcp5 & Hcur5 & Hpr5). cbn beta iota.
    eapply runs_mono; [eapply (abandon_spec k k5 ls t _ c s Hk5 Hnb5); try done|done|done].
    + exists (child c 0). by rewrite Hth5.
    + rewrite Hcp5. unfold k4. by simpl.
    + rewrite Hcur5. unfold k4. by simpl.
    + rewrite Hpr5. unfold k4. by simpl.
Qed.

(** ** Migration *)

Lemma kinv_remtail k ls y c s D l t ts tx (Q : option Z -> kernel -> Prop) R :
  kinv k ls 0 y c s D -> ls !! l = Some (ts ++ [t]) -> threads k !! t = Some tx -> runnable tx ->
  (forall hl, kinv (set_lists hl k) (<[l := ts]> ls) t y c s D ->
     transit (set_lists hl k) (<[l := ts]> ls) t tx -> Q (Some t) (set_lists hl k)) ->
  runs (on_lists (tl_remtail l) k) Q R.
Proof.
  intros Hk Hl Hx Hrun HQ. pose proof (kv_core _ _ _ _ _ _ _ Hk) as Hco.
  pose proof (tl_nodup _ _ _ _ (co_rep _ _ _ _ _ _ _ Hco) Hl) as Hnd.
  apply NoDup_app in Hnd as (_ & Hnd & _).
  eapply runs_lists; [by apply (tl_remtail_ok (lists k) ls _ (ts ++ [t])); [apply (co_rep _ _ _ _ _ _ _ Hco)|]|].
  intros r hl (-> & Hrep & Hlive). rewrite last_snoc, removelast_last in *.
  destruct (transit_leave_gen k ls y c s D l t (ts ++ [t]) ts tx hl) as [??]; auto.
  - apply elem_of_app. right. by left.
  - intros Hin. apply (Hnd t Hin). by left.
  - intros z Hz. rewrite elem_of_app, list_elem_of_singleton. tauto.
Qed.

Lemma kinv_addhead k ls x tx y c s D l ts (Q : unit -> kernel -> Prop) R :
  kinv k ls x y c s D -> transit k ls x tx -> ls !! l = Some ts -> list_ok l tx ->
  (forall hl, kinv (set_lists hl k) (<[l := x :: ts]> ls) 0 y c s D -> Q tt (set_lists hl k)) ->
  runs (on_lists (tl_addhead l x) k) Q R.
Proof.
  intros Hk Htr Hl Hok HQ. pose proof (kv_core _ _ _ _ _ _ _ Hk) as Hco.
  pose proof Htr as [Hx Hoff _ _ _ _]. eapply runs_lists.
  { apply (tl_addhead_ok (lists k) ls _ ts); [apply (co_rep _ _ _ _ _ _ _ Hco)|done|done| |by eapply core_bound].
    eapply co_live; [done|by rewrite Hx]. }
  intros [] hl [Hrep Hlive]. apply HQ.
  eapply (transit_join _ _ x tx _ _ _ _ _ ts (x :: ts)); try done.
  intros t. apply elem_of_cons.
Qed.

(** What migration may do to the queues of the other processors and to the
    threads: append to a queue that has less than its share, never the
    current thread, and set a migrated thread's processor. *)
Definition queued (ls : gmap listid (list Z)) (t : Z) : Prop :=
  exists l q, ls !! l = Some q /\ t ∈ q /\ match l with RunQ _ | Local _ => True | _ => False end.

Record mig (c cur share : Z) (ls ls' : gmap listid (list Z)) : Prop := {
  mg_other : forall l, match l with RunQ _ | Local _ => False | _ => True end -> ls' !! l = ls !! l;
  mg_local : forall n, n <> 0 -> ls' !! Local n = ls !! Local n;
  mg_queued : forall t, queued ls' t <-> queued ls t;
  mg_gain : forall d q, d <> c -> ls !! RunQ d = Some q ->
    exists ex, ls' !! RunQ d = Some (q ++ ex) /\ (cur ∉ ex) /\ zlen (q ++ ex) <= Z.max (zlen q) share }.

Definition th_mig (th th' : gmap Z thread) : Prop :=
  forall t, th' !! t = th !! t \/ exists t0 d, th !! t = Some t0 /\ th' !! t = Some (set_cpu d t0).

#[global] Instance mig_preorder c cur share : PreOrder (mig c cur share).
Proof.
  split.
  - intros ls. split; try done. intros d q _ Hq. exists []. rewrite app_nil_r.
    split_and!; [done|apply not_elem_of_nil|lia].
  - intros l1 l2 l3 [A1 A2 A3 A4] [B1 B2 B3 B4]. split.
    + intros l Hl. by rewrite B1, A1.
    + intros n Hn. by rewrite B2, A2.
    + intros t. by rewrite B3, A3.
    + intros d q Hd Hq. destruct (A4 d q Hd Hq) as (ex & Hex & Hc & Hz).
      destruct (B4 d _ Hd Hex) as (ex2 & Hex2 & Hc2 & Hz2). exists (ex ++ ex2). rewrite app_assoc.
      split_and!; [done|rewrite not_elem_of_app; done|lia].
Qed.

#[global] Instance th_mig_preorder : PreOrder th_mig.
Proof.
  split; [by left|]. intros a b d H1 H2 t.
  destruct (H2 t) as [->|(t0 & e & Ht & Hd)]; [apply H1|].
  destruct (H1 t) as [He|(t1 & e1 & Ht1 & Hd1)].
  - right. exists t0, e. by rewrite <- He.
  - right. rewrite Hd1 in Ht. injection Ht as <-. exists t1, e. done.
Qed.

(** The state of the processors and of the current thread, which migration
    leaves alone. *)
Definition mig_frame (k k' : kernel) : Prop :=
  procs k' = procs k /\ curthread k' = curthread k /\ cp_same (cpus k) (cpus k') /\
  th_mig (threads k) (threads k') /\ threads k' !! curthread k = threads k !! curthread k.

#[global] Instance mig_frame_preorder : PreOrder mig_frame.
Proof.
  split.
  - intros k. split_and!; try done.
  - intros k1 k2 k3 (A1 & A2 & A3 & A4 & A5) (B1 & B2 & B3 & B4 & B5). split_and!; try congruence.
    by etrans.
Qed.

Lemma frame_mig k k' : frame k k' -> mig_frame k k'.
Proof. intros (Ht & Hp & Hc & _ & _ & Hcp). split_and!; rewrite ?Ht; done. Qed.

(** How many threads wait in the run queues of [n] processors from [i]. *)
Fixpoint runq_total (ls : gmap listid (list Z)) (n : nat) (i : Z) : Z :=
  match n with O => 0 | S n' => zlen (default [] (ls !! RunQ i)) + runq_total ls n' (i + 1) end.

Lemma count_spec (n : nat) i my tot k ls c s q :
  kinv k ls 0 0 c s ∅ -> 0 <= i -> i + Z.of_nat n = zlen (cpus k) -> ls !! RunQ c = Some q ->
  returns (count_threads n i my tot k) (fun r k' =>
    kinv k' ls 0 0 c s ∅ /\ frame k k' /\ fst r = (if bool_decide (i <= c < zlen (cpus k)) then zlen q else my) /\
    u32 (snd r) = u32 (tot + runq_total ls n i)).
Proof.
  revert i my tot k. induction n as [|n IH]; intros i my tot k Hk Hi Hn Hq; cbn [count_threads].
  - runs_steps. split_and!; [done|done| |simpl; f_equal; lia]. rewrite bool_decide_false by lia. done.
  - runs_steps. destruct (lk_cpu _ _ _ _ (kv_lks _ _ _ _ _ _ _ Hk) i) as [Hrq _]; [lia|].
    eapply runs_acq; [done|done|set_solver|]. intros il1 lk1 Hk1. runs_steps.
    destruct (core_runq _ _ _ _ _ _ _ i (kv_core _ _ _ _ _ _ _ Hk)) as [qi Hqi]; [lia|].
    eapply kinv_num; [done|done|]. runs_steps. eapply runs_cur; [done|]. runs_steps.
    destruct (lk_cpu _ _ _ _ (kv_lks _ _ _ _ _ _ _ Hk1) i) as [Hrq1 _]; [simpl; lia|].
    eapply runs_rel; [done|done|set_solver|]. intros il2 lk2 Hk2. rewrite release_undo in Hk2 by set_solver.
    eapply runs_mono; [eapply (IH (i + 1)); [exact Hk2|lia|simpl; lia|done]| |done].
    intros [m t] k' (Hk' & Hf & Hr & Htot). simpl in *. split_and!; [done|etrans; [|done]; by split_and!| |].
    2: { rewrite Htot, Hqi. simpl. unfold u32. rewrite Zplus_mod_idemp_l. f_equal. lia. }
    rewrite Hr.
    destruct (Z.eqb_spec i c) as [->|].
    + rewrite bool_decide_false, bool_decide_true by lia. by simplify_eq.
    + apply (f_equal (fun b : bool => if b then zlen q else my)). apply bool_decide_ext. lia.
Qed.

(** The victims: threads of processor [c], all runnable. *)
Definition victims_ok (k : kernel) (c : Z) (vs : list Z) : Prop :=
  forall t, t ∈ vs -> exists tx, threads k !! t = Some tx /\ t_cpu tx = c /\ runnable tx.

Lemma queued_move ls ls' l1 l2 q1 q1' q2 q2' :
  (match l1 with RunQ _ | Local _ => True | _ => False end) ->
  (match l2 with RunQ _ | Local _ => True | _ => False end) -> l1 <> l2 ->
  ls !! l1 = Some q1 -> ls !! l2 = Some q2 ->
  ls' = <[l2 := q2']> (<[l1 := q1']> ls) ->
  (forall t, t ∈ q1' \/ t ∈ q2' <-> t ∈ q1 \/ t ∈ q2) ->
  forall t, queued ls' t <-> queued ls t.
Proof.
  intros M1 M2 Hne H1 H2 -> Hin t. split; intros (l & q & Hl & Ht & Hm).
  - apply lookup_insert_Some in Hl as [[<- <-]|[Hn2 Hl]].
    { destruct (proj1 (Hin t) (or_intror Ht)); [by exists l1, q1|by exists l2, q2]. }
    apply lookup_insert_Some in Hl as [[<- <-]|[Hn1 Hl]]; [|by exists l, q].
    destruct (proj1 (Hin t) (or_introl Ht)); [by exists l1, q1|by exists l2, q2].
  - assert (t ∈ q1' \/ t ∈ q2' -> exists l' q', <[l2 := q2']> (<[l1 := q1']> ls) !! l' = Some q' /\ t ∈ q' /\
              match l' with RunQ _ | Local _ => True | _ => False end) as Hex.
    { intros [Ht'|Ht'].
      - exists l1, q1'. by rewrite lookup_insert_ne, lookup_insert_eq.
      - exists l2, q2'. by rewrite lookup_insert_eq. }
    destruct (decide (l = l1)) as [->|]; [simplify_eq; apply Hex, Hin; by left|].
    destruct (decide (l = l2)) as [->|]; [simplify_eq; apply Hex, Hin; by right|].
    exists l, q. by rewrite !lookup_insert_ne.
Qed.

(** Moving threads between this processor's queue and the victims. *)
Lemma mig_self c cur share ls q q' vs vs' :
  ls !! RunQ c = Some q -> ls !! Local 0 = Some vs ->
  (forall t, t ∈ q' \/ t ∈ vs' <-> t ∈ q \/ t ∈ vs) ->
  mig c cur share ls (<[Local 0 := vs']> (<[RunQ c := q']> ls)).
Proof.
  intros Hq Hv Hin. split.
  - intros l Hl. rewrite !lookup_insert_ne; [done|by intros <-..].
  - intros n Hn. rewrite !lookup_insert_ne; congruence.
  - by apply (queued_move ls _ (RunQ c) (Local 0) q q' vs vs').
  - intros d qd Hd Hqd. exists []. rewrite app_nil_r, !lookup_insert_ne by congruence.
    split_and!; [done|apply not_elem_of_nil|lia].
Qed.

Lemma take_spec (n : nat) k ls c s q vs share :
  kinv k ls 0 0 c s {[LRunq c]} -> ls !! RunQ c = Some q -> ls !! Local 0 = Some vs ->
  (n <= length q)%nat -> victims_ok k c vs ->
  returns (take_victims n c (Local 0) k) (fun _ k' => exists q' vs',
    kinv k' (<[Local 0 := vs']> (<[RunQ c := q']> ls)) 0 0 c s {[LRunq c]} /\
    mig c (curthread k) share ls (<[Local 0 := vs']> (<[RunQ c := q']> ls)) /\
    frame k k' /\ cpus k' = cpus k /\ locks k' = locks k /\
    victims_ok k' c vs' /\ length vs' = (n + length vs)%nat).
Proof.
  revert k ls q vs. induction n as [|n IH]; intros k ls q vs Hk Hq Hv Hn Hok; cbn [take_victims].
  - runs_steps. exists q, vs. rewrite (insert_id ls (RunQ c)), insert_id by done. split_and!; done.
  - runs_steps. destruct q as [|t q _] using rev_ind; [simpl in Hn; lia|].
    rewrite length_app in Hn. simpl in Hn.
    destruct (list_threads k ls 0 c s _ (RunQ c) (q ++ [t]) t Hk Hq) as (tx & Hx & [Htc Hrun] & _).
    { apply elem_of_app. right. by left. }
    eapply kinv_remtail; [done..|]. intros hl Hk1 Htr. runs_steps. apply (runs_of_option _ _ t); [done|]. runs_steps.
    eapply (kinv_addhead _ _ t tx _ _ _ _ (Local 0) vs); [done|done|by rewrite lookup_insert_ne|done|].
    intros hl2 Hk2. set (ls1 := <[Local 0 := t :: vs]> (<[RunQ c := q]> ls)) in *.
    assert (mig c (curthread k) share ls ls1) as Hm1.
    { apply (mig_self c _ share ls (q ++ [t]) q vs (t :: vs)); [done|done|].
      intros z. rewrite elem_of_app, elem_of_cons, list_elem_of_singleton. tauto. }
    eapply runs_mono; [eapply (IH _ ls1 q (t :: vs) Hk2)| |done].
    + unfold ls1. by rewrite lookup_insert_ne, lookup_insert_eq.
    + unfold ls1. by rewrite lookup_insert_eq.
    + lia.
    + intros z. rewrite elem_of_cons. intros [->|Hz]; [by exists tx|]. by apply Hok.
    + intros [] k' (q' & vs' & Hk' & Hm & Hf & Hcp & Hlk & Hok' & Hlen). exists q', vs'.
      assert (<[Local 0 := vs']> (<[RunQ c := q']> ls1) = <[Local 0 := vs']> (<[RunQ c := q']> ls)) as He.
      { unfold ls1. rewrite (insert_insert_ne (<[RunQ c := q]> ls) (RunQ c) (Local 0)) by done.
        by rewrite !insert_insert_eq. }
      rewrite He in *. split_and!; try done.
      * by etrans.
      * rewrite Hlen. simpl. lia.
Qed.

(** The current processor and its thread. *)
Definition on_cpu (k : kernel) (c : Z) : Prop :=
  exists c0, zlookup (cpus k) c = Some c0 /\ c_curthread c0 = curthread k.

Lemma on_cpu_frame k k' c :
  on_cpu k c -> cp_same (cpus k) (cpus k') -> curthread k' = curthread k -> on_cpu k' c.
Proof.
  intros (c0 & Hc0 & Hcc) Hcp Hcur. specialize (Hcp c). rewrite Hc0 in Hcp.
  destruct (zlookup (cpus k') c) as [c1|] eqn:E; [|done]. simpl in Hcp. injection Hcp as H1 H2.
  exists c1. split; [done|]. congruence.
Qed.

(** A victim in transit, other than the current thread, is no processor's
    thread, so its processor may be changed. *)
Lemma migrate_thread k ls t tx c d s D :
  kinv k ls t 0 c s D -> transit k ls t tx -> t_cpu tx = c -> t <> curthread k -> on_cpu k c ->
  0 <= d < zlen (cpus k) ->
  kinv (set_threads (<[t := set_cpu d tx]> (threads k)) k) ls t 0 c s D /\
  transit (set_threads (<[t := set_cpu d tx]> (threads k)) k) ls t (set_cpu d tx).
Proof.
  intros Hk [Ht Hoff Hrun (Hv & Hst & Hcx) Hidle Hprc] Htc Hne (c0 & Hc0 & Hcc) Hd.
  pose proof Hk as [[(tc & Htcur & Hc) Hl Hs Hlk] Hco Ho Hlks].
  assert (forall e e0, zlookup (cpus k) e = Some e0 -> c_curthread e0 <> t) as Hno.
  { intros e e0 He Heq. destruct (co_cpu _ _ _ _ _ _ _ Hco e e0 He) as (t1 & H1 & H2 & _).
    rewrite Heq in H1. simplify_eq. }
  split.
  - split; [| | |done].
    + split; [exists tc; simpl; by rewrite lookup_insert_ne|done..].
    + simpl. apply (core_upd_thread _ _ _ _ _ _ _ tx); [done|done|by right].
    + intros z [? Hz] Hnc Hny. simpl in Hz. destruct (decide (z = t)) as [->|].
      * apply Ho; [eauto|done|done].
      * rewrite lookup_insert_ne in Hz by done. apply Ho; eauto.
  - split; simpl; try done. by rewrite lookup_insert_eq.
Qed.

(** Appending threads to processor [d]'s queue out of the victims. *)
Lemma mig_send c cur share ls d qd vs vs' t :
  d <> c -> t <> cur -> ls !! RunQ d = Some qd -> ls !! Local 0 = Some vs ->
  zlen qd < share -> (forall z, z ∈ vs <-> z = t \/ z ∈ vs') ->
  mig c cur share ls (<[RunQ d := qd ++ [t]]> (<[Local 0 := vs']> ls)).
Proof.
  intros Hdc Htc Hqd Hv Hz Hin. split.
  - intros l Hl. rewrite !lookup_insert_ne; [done|by intros <-..].
  - intros n Hn. rewrite !lookup_insert_ne; congruence.
  - apply (queued_move ls _ (Local 0) (RunQ d) vs vs' qd (qd ++ [t])); try done.
    intros z. rewrite elem_of_app, list_elem_of_singleton, Hin. tauto.
  - intros e qe He Hqe. destruct (decide (e = d)) as [->|].
    + exists [t]. simplify_eq. rewrite lookup_insert_eq, list_elem_of_singleton, zlen_app.
      change (zlen [t]) with 1. split_and!; [done|congruence|lia].
    + exists []. rewrite app_nil_r, !lookup_insert_ne by congruence.
      split_and!; [done|apply not_elem_of_nil|lia].
Qed.

(** Reordering the victims. *)
Lemma mig_shuffle c cur share ls vs vs' :
  ls !! Local 0 = Some vs -> (forall z, z ∈ vs <-> z ∈ vs') -> mig c cur share ls (<[Local 0 := vs']> ls).
Proof.
  intros Hv Hin. split.
  - intros l Hl. rewrite !lookup_insert_ne; [done|by intros <-].
  - intros n Hn. rewrite !lookup_insert_ne; congruence.
  - intros t. split; intros (l & q & Hl & Ht & Hm).
    + apply lookup_insert_Some in Hl as [[<- <-]|[_ Hl]]; [|by exists l, q].
      exists (Local 0), vs. split_and!; [done|by apply Hin|done].
    + destruct (decide (l = Local 0)) as [->|]; [|exists l, q; by rewrite lookup_insert_ne].
      simplify_eq. exists (Local 0), vs'. rewrite lookup_insert_eq. split_and!; [done|by apply Hin|done].
  - intros d q Hd Hq. exists []. rewrite app_nil_r, lookup_insert_ne by done.
    split_and!; [done|apply not_elem_of_nil|lia].
Qed.

Lemma send_victims_spec (f : nat) k ls c d s qd vs share to_send :
  kinv k ls 0 0 c s {[LRunq d]} -> on_cpu k c -> d <> c -> 0 <= d < zlen (cpus k) ->
  ls !! RunQ d = Some qd -> ls !! Local 0 = Some vs ->
  victims_ok k c vs -> 0 <= to_send <= zlen vs -> Z.of_nat f = to_send ->
  returns (send_victims f d share to_send (Local 0) k) (fun left k' => exists ls' vs',
    kinv k' ls' 0 0 c s {[LRunq d]} /\ mig c (curthread k) share ls ls' /\ mig_frame k k' /\
    ls' !! Local 0 = Some vs' /\ victims_ok k' c vs' /\ 0 <= left <= zlen vs').
Proof.
  revert k ls qd vs to_send. induction f as [|f IH]; intros k ls qd vs to_send Hk Hon Hdc Hd Hqd Hv Hok Hs Hf; cbn [send_victims].
  { runs_steps. exists ls, vs. split_and!; try done; lia. }
  runs_steps. eapply kinv_num; [done..|].
  destruct (Z.ltb_spec (zlen qd) share) as [Hlt|Hge]; [|simpl; runs_steps; exists ls, vs; split_and!; try done; lia].
  rewrite (proj2 (Z.ltb_lt 0 to_send)) by lia. simpl (_ && _). cbn iota. runs_steps.
  destruct vs as [|t vs]; [unfold zlen in Hs; simpl in Hs; lia|].
  assert (zlen (t :: vs) = zlen vs + 1) as Hzv by (unfold zlen; simpl; lia).
  destruct (Hok t ltac:(by left)) as (tx & Hx & Htc & Hrun).
  eapply kinv_remhead; [done..|]. intros hl Hk1 Htr. runs_steps. apply (runs_of_option _ _ t); [done|]. runs_steps.
  simpl (curthread _). destruct (Z.eqb_spec t (curthread k)) as [He|Hne].
  - runs_steps. eapply (kinv_addtail _ _ t tx _ _ _ _ (Local 0) vs); [done|done|by rewrite lookup_insert_eq|done|].
    intros hl2 Hk2. rewrite insert_insert_eq in Hk2.
    eapply runs_mono; [eapply (IH _ _ qd (vs ++ [t]) _ Hk2); try done| |done].
    + by rewrite lookup_insert_ne.
    + by rewrite lookup_insert_eq.
    + intros z. rewrite elem_of_app, list_elem_of_singleton. intros Hz. apply Hok. rewrite elem_of_cons. tauto.
    + rewrite zlen_app. change (zlen [t]) with 1. lia.
    + lia.
    + intros left k' (ls' & vs' & Hk' & Hm & Hfr & Hv' & Hok' & Hl). exists ls', vs'. split_and!; try done; try lia.
      etrans; [|done]. apply (mig_shuffle c _ share ls (t :: vs)); [done|].
      intros z. rewrite elem_of_app, elem_of_cons, list_elem_of_singleton. tauto.
  - runs_steps. eapply runs_upd_thread; [done|].
    destruct (migrate_thread _ _ t tx c d s _ Hk1 Htr Htc Hne Hon Hd) as [Hk2 Htr2]. runs_steps.
    eapply (kinv_addtail _ _ t (set_cpu d tx) _ _ _ _ (RunQ d) qd);
      [done|done|by rewrite lookup_insert_ne|split; [done|exact Hrun]|].
    intros hl3 Hk3. set (ls3 := <[RunQ d := qd ++ [t]]> (<[Local 0 := vs]> ls)) in *.
    assert (mig c (curthread k) share ls ls3) as Hm3.
    { apply (mig_send c _ share ls d qd (t :: vs) vs t); try done. intros z. apply elem_of_cons. }
    match type of Hk3 with kinv ?x _ _ _ _ _ _ => set (k3 := x) in * end.
    assert (mig_frame k k3) as Hf3.
    { unfold k3. split_and!; try done; simpl.
      - intros z. simpl. destruct (decide (z = t)) as [->|].
        + right. exists tx, d. by rewrite lookup_insert_eq.
        + left. by rewrite lookup_insert_ne.
      - by rewrite lookup_insert_ne. }
    assert (forall k4, kinv k4 ls3 0 0 c s {[LRunq d]} -> mig_frame k k4 -> threads k4 = threads k3 ->
      returns (send_victims f d share (to_send - 1) (Local 0) k4) (fun left k' => exists ls' vs',
        kinv k' ls' 0 0 c s {[LRunq d]} /\ mig c (curthread k) share ls ls' /\ mig_frame k k' /\
        ls' !! Local 0 = Some vs' /\ victims_ok k' c vs' /\ 0 <= left <= zlen vs')) as Hcont.
    { intros k4 Hk4 Hf4 Hth4. pose proof Hf4 as (_ & Hcur4 & Hcp4 & _ & _).
      eapply runs_mono; [eapply (IH k4 ls3 (qd ++ [t]) vs _ Hk4); try done| |done].
      - by eapply on_cpu_frame.
      - by rewrite (cp_same_len _ _ Hcp4).
      - unfold ls3. by rewrite lookup_insert_eq.
      - unfold ls3. by rewrite lookup_insert_ne, lookup_insert_eq.
      - intros z Hz. destruct (Hok z ltac:(by right)) as (tz & Hz1 & Hz2). exists tz. split; [|done].
        rewrite Hth4. unfold k3. simpl. rewrite lookup_insert_ne; [done|].
        pose proof (tl_nodup _ _ _ _ (co_rep _ _ _ _ _ _ _ (kv_core _ _ _ _ _ _ _ Hk)) Hv) as [Hnt _]%NoDup_cons.
        congruence.
      - lia.
      - lia.
      - rewrite Hcur4. intros left k' (ls' & vs' & Hk' & Hm & Hfr & Hv' & Hok' & Hl).
        exists ls', vs'. split_and!; try done; try lia; by etrans. }
    destruct (zlookup_is_Some (cpus k) d Hd) as [d0 Hd0]. runs_steps. eapply (runs_get_cpu _ d d0); [done|]. runs_steps.
    destruct (c_isidle d0); [|runs_steps; by apply Hcont].
    eapply runs_ipi_send; [done|unfold IPI_UNIDLE; lia|done|set_solver|].
    intros k4 Hk4 Hf4 _. apply Hcont; [done| |by destruct Hf4 as (? & _)].
    etrans; [done|by apply frame_mig].
Qed.

Lemma send_loop_spec (n : nat) i k ls c s vs share to_send :
  kinv k ls 0 0 c s ∅ -> on_cpu k c -> 0 <= i -> i + Z.of_nat n = zlen (cpus k) ->
  ls !! Local 0 = Some vs -> victims_ok k c vs -> 0 <= to_send <= zlen vs ->
  returns (send_loop n i share to_send (Local 0) k) (fun _ k' => exists ls' vs',
    kinv k' ls' 0 0 c s ∅ /\ mig c (curthread k) share ls ls' /\ mig_frame k k' /\
    ls' !! Local 0 = Some vs' /\ victims_ok k' c vs').
Proof.
  revert i k ls vs to_send. induction n as [|n IH]; intros i k ls vs to_send Hk Hon Hi Hn Hv Hok Hs; cbn [send_loop].
  { runs_steps. exists ls, vs. by split_and!. }
  destruct (Z.ltb_spec 0 to_send); [|runs_steps; exists ls, vs; by split_and!].
  runs_steps. eapply runs_cur; [done|]. destruct (Z.eqb_spec i c) as [->|Hne].
  { eapply (IH (c + 1) k ls vs); try done; lia. }
  runs_steps. destruct (lk_cpu _ _ _ _ (kv_lks _ _ _ _ _ _ _ Hk) i) as [Hrq _]; [lia|].
  eapply runs_acq; [done|done|set_solver|]. intros il1 lk1 Hk1. rewrite union_empty_r_L in Hk1. runs_steps.
  destruct (core_runq _ _ _ _ _ _ _ i (kv_core _ _ _ _ _ _ _ Hk)) as [qi Hqi]; [lia|].
  eapply runs_mono; [eapply (send_victims_spec _ _ ls c i s qi vs share to_send Hk1); try done; simpl; lia| |done].
  intros left k2 (ls2 & vs2 & Hk2 & Hm2 & Hf2 & Hv2 & Hok2 & Hl2). simpl in Hm2. runs_steps.
  pose proof Hf2 as (_ & Hcur2 & Hcp2 & _ & _). simpl in Hcur2, Hcp2.
  destruct (lk_cpu _ _ _ _ (kv_lks _ _ _ _ _ _ _ Hk2) i) as [Hrq2 _]; [rewrite (cp_same_len _ _ Hcp2); lia|].
  eapply runs_rel; [done|done|set_solver|]. intros il3 lk3 Hk3. rewrite difference_diag_L in Hk3.
  eapply runs_mono; [eapply (IH (i + 1) _ ls2 vs2 left Hk3); try done| |done].
  - by apply (on_cpu_frame k).
  - lia.
  - simpl. rewrite (cp_same_len _ _ Hcp2). lia.
  - simpl. rewrite Hcur2. intros [] k' (ls' & vs' & Hk' & Hm & Hf & Hv' & Hok'). exists ls', vs'.
    split_and!; try done; [by etrans|]. etrans; [|done]. exact Hf2.
Qed.

(** Result of a migration: the same threads are queued; only the other
    processors' queues grow, each to at most its share and never by the
    current thread; nothing but [t_cpu] of migrated threads changes. *)
Record migrated (k k' : kernel) (ls ls' : gmap listid (list Z)) (c share : Z) : Prop := {
  md_frame : mig_frame k k';
  md_other : forall l, match l with RunQ _ => False | _ => True end -> ls' !! l = ls !! l;
  md_queued : forall t, (exists d q, ls' !! RunQ d = Some q /\ t ∈ q) <->
                        (exists d q, ls !! RunQ d = Some q /\ t ∈ q);
  md_gain : forall d q, d <> c -> ls !! RunQ d = Some q ->
    exists ex, ls' !! RunQ d = Some (q ++ ex) /\ (curthread k ∉ ex) /\ zlen (q ++ ex) <= Z.max (zlen q) share }.

(** When no list is on the stack, [queued] is being on a run queue. *)
Lemma queued_runq ls t :
  (forall n, ls !! Local n = None \/ ls !! Local n = Some []) ->
  queued ls t <-> exists d q, ls !! RunQ d = Some q /\ t ∈ q.
Proof.
  intros Hl. split.
  - intros ([d| | |n] & q & Hq & Ht & Hm); try done; [by exists d, q|].
    destruct (Hl n) as [E|E]; rewrite E in Hq; simplify_eq. by apply elem_of_nil in Ht.
  - intros (d & q & Hq & Ht). by exists (RunQ d), q.
Qed.

Lemma mig_migrated k k' c share ls ls' :
  (forall n, ls !! Local n = None) -> mig_frame k k' ->
  mig c (curthread k) share (<[Local 0 := []]> ls) (<[Local 0 := []]> ls') -> ls' !! Local 0 = None ->
  migrated k k' ls ls' c share.
Proof.
  intros Hl Hf [M1 M2 M3 M4] Hl0.
  assert (forall l, match l with RunQ _ => False | _ => True end -> ls' !! l = ls !! l) as Hother.
  { intros [d|d|w|n] Hm; [done| | |].
    - specialize (M1 (Zombies d) I). by rewrite !lookup_insert_ne in M1.
    - specialize (M1 (WaitQ w) I). by rewrite !lookup_insert_ne in M1.
    - destruct (decide (n = 0)) as [->|]; [by rewrite Hl|].
      specialize (M2 n). rewrite !lookup_insert_ne in M2 by congruence. auto. }
  assert (forall m t, (forall n, m !! Local n = None) ->
            queued (<[Local 0 := []]> m) t <-> exists d q, m !! RunQ d = Some q /\ t ∈ q) as Hq.
  { intros m t Hm. rewrite queued_runq.
    - split; intros (d & q & Hd & Ht); exists d, q; rewrite lookup_insert_ne in *; done.
    - intros n. destruct (decide (n = 0)) as [->|]; [right; by rewrite lookup_insert_eq|].
      left. rewrite lookup_insert_ne by congruence. auto. }
  split; try done.
  - intros t. rewrite <- !Hq; [apply M3|done|]. intros n. by rewrite Hother.
  - intros d q Hd Hqd. destruct (M4 d q Hd) as (ex & Hex & ?); [by rewrite lookup_insert_ne|].
    exists ex. by rewrite lookup_insert_ne in Hex.
Qed.

Lemma th_mig_size th th' : th_mig th th' -> size th' = size th.
Proof.
  intros Hm. rewrite <- !(size_dom (D := gset Z)). f_equal. apply set_eq. intros t. rewrite !elem_of_dom.
  destruct (Hm t) as [->|(t0 & d & -> & ->)]; [done|]. split; eauto.
Qed.

(** Threads nobody wanted go back to the processor's own queue. *)
Lemma put_back_spec (fuel : nat) k ls c s vs :
  kinv k ls 0 0 c s ∅ -> ls !! Local 0 = Some vs -> victims_ok k c vs -> 0 <= c < zlen (cpus k) ->
  (length vs < fuel)%nat ->
  returns ((if* negb (zlen vs =? 0) then
              (acquire (LRunq c) ;; drain fuel (Local 0) (RunQ c) ;; release (LRunq c))) k)
    (fun _ k' => exists q', kinv k' (<[Local 0 := []]> (<[RunQ c := q']> ls)) 0 0 c s ∅ /\
       (forall cur share, mig c cur share ls (<[Local 0 := []]> (<[RunQ c := q']> ls))) /\ frame k k').
Proof.
  intros Hk Hv Hok Hr Hlen.
  destruct (core_runq _ _ _ _ _ _ _ c (kv_core _ _ _ _ _ _ _ Hk) Hr) as [q Hq].
  assert (mig_back : forall cur share, mig c cur share ls (<[Local 0 := []]> (<[RunQ c := q ++ vs]> ls))).
  { intros cur share. apply (mig_self _ _ _ _ q _ vs); [done..|]. intros t. set_solver. }
  destruct vs as [|v vs]; simpl; runs_steps.
  { exists q. rewrite app_nil_r in mig_back. split_and!; [|done|done].
    by rewrite (insert_id ls (RunQ c)), insert_id. }
  destruct (lk_cpu _ _ _ _ (kv_lks _ _ _ _ _ _ _ Hk) c Hr) as [Hrq _].
  eapply runs_acq; [done|done|set_solver|]. intros il1 lk1 Hk1. rewrite union_empty_r_L in Hk1. runs_steps.
  eapply runs_mono; [eapply (drain_spec _ (Local 0) (RunQ c) (v :: vs) q _ _ c s _ Hk1); try done| |done].
  { intros t Ht. destruct (Hok t Ht) as (tx & ? & ? & ?). by exists tx. }
  intros [] k2 (Hk2 & Hf2 & Hcp2 & Hlk2).
  destruct (lk_cpu _ _ _ _ (kv_lks _ _ _ _ _ _ _ Hk2) c) as [Hrq2 _]; [by rewrite Hcp2|].
  eapply runs_rel; [exact Hk2|done|set_solver|]. intros il3 lk3 Hk3. rewrite difference_diag_L in Hk3.
  exists (q ++ v :: vs). split_and!; [by rewrite insert_insert_ne|done|exact Hf2].
Qed.

Lemma DIVROUNDUP_cong a a' b : u32 a = u32 a' -> DIVROUNDUP a b = DIVROUNDUP a' b.
Proof.
  intros Ha. unfold DIVROUNDUP. do 2 f_equal. unfold u32 in *.
  by rewrite (Zplus_mod a), (Zplus_mod a'), Ha.
Qed.

(** An even share of the waiting threads, rounded up. *)
Definition fair_share (k : kernel) (ls : gmap listid (list Z)) : Z :=
  DIVROUNDUP (u32 (runq_total ls (length (cpus k)) 0)) (zlen (cpus k)).

Lemma migration_spec k ls c s :
  kinv k ls 0 0 c s ∅ -> on_cpu k c -> (forall n, ls !! Local n = None) ->
  returns (thread_consider_migration k) (fun _ k' => exists ls',
    kinv k' ls' 0 0 c s ∅ /\ migrated k k' ls ls' c (fair_share k ls)).
Proof.
  intros Hk Hon Hloc. pose proof Hon as (c0 & Hc0 & _). pose proof (zlookup_Some_range _ _ _ Hc0) as Hr.
  destruct (core_runq _ _ _ _ _ _ _ c (kv_core _ _ _ _ _ _ _ Hk) Hr) as [q Hq].
  unfold thread_consider_migration. runs_steps.
  eapply runs_mono; [eapply (count_spec _ 0 0 0 k ls c s q Hk); [lia|done|done]| |done].
  intros [my tot] k1 (Hk1 & Hf1 & Hmy & Htot). simpl in Hmy, Htot. rewrite bool_decide_true in Hmy by lia. subst my. cbn beta iota zeta.
  rewrite (DIVROUNDUP_cong tot (u32 (runq_total ls (length (cpus k)) 0))) by (by rewrite Htot, (u32_small (u32 _)) by apply u32_range).
  change (DIVROUNDUP _ _) with (fair_share k ls). set (share := fair_share k ls).
  assert (0 <= share) as Hsh by (unfold share, fair_share, DIVROUNDUP; apply Z.div_pos; [apply u32_range|lia]).
  destruct (Z.ltb_spec (zlen q) share) as [Hlt|Hge].
  { runs_steps. exists ls. split; [done|]. apply mig_migrated; [done|by apply frame_mig|done|done]. }
  runs_steps. eapply kinv_init_local; [done|done|]. intros hl2 Hk2. runs_steps.
  eapply runs_cur; [done|]. runs_steps.
  pose proof Hf1 as (Hth1 & Hpr1 & Hcur1 & _ & _ & Hcp1). pose proof (cp_same_len _ _ Hcp1) as Hlen1.
  destruct (lk_cpu _ _ _ _ (kv_lks _ _ _ _ _ _ _ Hk2) c) as [Hrq _]; [simpl; lia|].
  eapply runs_acq; [done|done|set_solver|]. intros il3 lk3 Hk3. rewrite union_empty_r_L in Hk3. runs_steps.
  eapply runs_mono; [eapply (take_spec _ _ _ c s q [] share Hk3)| |done].
  { by rewrite lookup_insert_ne. }
  { by rewrite lookup_insert_eq. }
  { unfold zlen in *. lia. }
  { intros t Ht. by apply elem_of_nil in Ht. }
  intros [] k4 (q4 & vs4 & Hk4 & Hm4 & Hf4 & Hcp4 & Hlk4 & Hok4 & Hlen4). simpl in Hm4, Hlen4.
  pose proof Hf4 as (_ & _ & Hcur4 & _ & _ & Hcps4). simpl in Hcur4, Hcp4. runs_steps.
  destruct (lk_cpu _ _ _ _ (kv_lks _ _ _ _ _ _ _ Hk4) c) as [Hrq4 _]; [rewrite Hcp4; lia|].
  eapply runs_rel; [done|done|set_solver|]. intros il5 lk5 Hk5. rewrite difference_diag_L in Hk5. runs_steps.
  eapply runs_mono; [eapply (send_loop_spec _ 0 _ _ c s vs4 share _ Hk5); try done| |done].
  { apply (on_cpu_frame k1); [by apply (on_cpu_frame k)|simpl; by rewrite Hcp4|simpl; congruence]. }
  { simpl. rewrite Hcp4, Hlen1. done. }
  { by rewrite lookup_insert_eq. }
  { unfold zlen in *. rewrite Hlen4. lia. }
  intros [] k6 (ls6 & vs6 & Hk6 & Hm6 & Hf6 & Hv6 & Hok6). simpl in Hm6.
  rewrite Hcur4, Hcur1 in Hm6. rewrite Hcur1 in Hm4.
  assert (mig c (curthread k) share (<[Local 0 := []]> ls) ls6) as Hm by (by etrans).
  assert (mig_frame k k6) as Hf.
  { etrans; [by apply frame_mig|]. etrans; [|exact Hf6]. apply frame_mig. exact Hf4. }
  clear Hm4 Hm6 Hf6. runs_steps. eapply kinv_num; [done..|]. runs_steps.
  eapply runs_mono; [eapply (put_back_spec _ k6 ls6 c s vs6 Hk6 Hv6 Hok6)| |done].
  { rewrite (cp_same_len (cpus k)); [done|apply Hf]. }
  { pose proof (list_length_bound _ _ _ _ _ _ _ _ _ Hk6 Hv6) as Hb.
    rewrite (th_mig_size (threads k)) in Hb; [done|apply Hf]. }
  intros [] k7 (q7 & Hk7 & Hm7 & Hf7). runs_steps. eapply kinv_num; [done|by rewrite lookup_insert_eq|].
  runs_steps. rewrite <- insert_delete_eq in Hk7.
  specialize (Hm7 (curthread k) share). rewrite <- insert_delete_eq in Hm7.
  eapply kinv_cleanup_local; [exact Hk7|by rewrite lookup_delete_eq|]. intros Hk8.
  eexists _. split; [exact Hk8|]. apply mig_migrated; [done| |by etrans|by rewrite lookup_delete_eq].
  etrans; [exact Hf|]. by apply frame_mig.
Qed.
End Inv.
End SchedInv.
