(* ===== verification/SchedThm.v ===== *)
(** * What the thread system guarantees

    [SchedThm] states the scheduler's invariant [sched_ok] of a kernel between
    two operations, the operations that kernel code, interrupts and the idle
    loop may run in such a kernel ([kop]), and that every sequence of them, on
    any interleaving of processors, keeps it without a failed assertion, a wild
    access or a self-deadlock.  The behaviour of the single operations is in
    the other theorems. *)

From S2P Require Import Prelude Spl Threadlist Sched SchedInv.
Import Spl Threadlist Sched SchedInv.

Module SchedThm.
Section Thm.
Context {H : Type} `{!ThreadLists H}.
Abbreviation kernel := (@kernel H).
Implicit Types k : kernel.

(** Between operations: nothing is in flux, no spinlock is held, no thread
    list is on a stack, and an idle processor has interrupts off. *)
Definition quiet (k : kernel) (ls : gmap listid (list Z)) (c s : Z) : Prop :=
  kinv k ls 0 0 c s ∅ /\ (forall n, ls !! Local n = None) /\ on_cpu k c /\ (idling k c -> s = IPL_HIGH).
Definition sched_ok (k : kernel) : Prop := exists ls c s, quiet k ls c s.

Inductive kop :=
  | KYield | KSleep (w : Z) | KExit (kproc : Z) | KFork (proc : Z)
  | KWakeone (w : Z) | KWakeall (w : Z) | KHardclock | KIdle | KCpu (d : Z).

(** [KCpu d]: processor [d] executes next. *)
Definition do_kop (op : kop) : M kernel unit :=
  match op with
  | KYield => let* _ := thread_yield in ret tt
  | KSleep w => let* _ := (wchan_lock w ;; wchan_sleep w) in ret tt
  | KExit kproc => let* _ := thread_exit kproc in ret tt
  | KFork proc => thread_fork proc
  | KWakeone w => wchan_wakeone w
  | KWakeall w => wchan_wakeall w
  | KHardclock => let* _ := hardclock in ret tt
  | KIdle => let* _ := idle_poll in ret tt
  | KCpu d => let* c := get_cpu d in put_curthread (c_curthread c)
  end.

Definition cur_idle (k : kernel) : option bool :=
  t0 ← threads k !! curthread k; c_isidle <$> zlookup (cpus k) (t_cpu t0).

(** When an operation may run: threads run on busy processors, the idle loop
    on idle ones, wakeups and the clock interrupt on both; channels and
    processes exist; only kernel threads exit this way; thread and process
    counts fit their types. *)
Definition allowed (k : kernel) (op : kop) : Prop :=
  match op with
  | KYield | KHardclock => True
  | KSleep w => cur_idle k = Some false /\ is_Some (locks k !! LWchan w) /\
      t_in_interrupt <$> threads k !! curthread k = Some false
  | KExit kproc => cur_idle k = Some false /\ kproc <> 0 /\
      (t_proc <$> threads k !! curthread k = Some kproc \/ t_proc <$> threads k !! curthread k = Some 0)
  | KFork proc => cur_idle k = Some false /\ Z.of_nat (size (threads k)) + 2 < 2 ^ 32 /\
      exists t0, threads k !! curthread k = Some t0 /\
        is_Some (procs k !! (if proc =? 0 then t_proc t0 else proc))
  | KWakeone w | KWakeall w => is_Some (locks k !! LWchan w)
  | KIdle => cur_idle k = Some true
  | KCpu d => 0 <= d < zlen (cpus k)
  end.

Inductive kstep : kernel -> kernel -> Prop :=
  | kstep_ret op k k' : allowed k op -> do_kop op k = Ret tt k' -> kstep k k'
  | kstep_err op k k' e : allowed k op -> do_kop op k = Err e k' -> kstep k k'.

(** ** Preservation *)

Lemma on_cpu_cases k ls c s :
  quiet k ls c s ->
  (executing k c /\ cur_idle k = Some false) \/ (idling k c /\ s = IPL_HIGH /\ cur_idle k = Some true).
Proof.
  intros (Hk & _ & (c0 & Hc0 & Hcc) & Hidle).
  destruct (co_cpu _ _ _ _ _ _ _ (kv_core _ _ _ _ _ _ _ Hk) c c0 Hc0) as (t0 & Ht & Htc & Hrun).
  rewrite Hcc in Ht. unfold cur_idle. rewrite Ht. simpl. rewrite Htc, Hc0. simpl.
  destruct (c_isidle c0) eqn:Hi.
  - right. assert (idling k c) as Hid by (by exists c0). auto.
  - left. split; [|done]. exists t0, c0. split_and!; try done. apply Hrun; [done|].
    rewrite Hcc. intros Hz. pose proof (thread_zero _ _ _ _ _ _ _ Hk) as Hz0. rewrite Hz in Ht. congruence.
Qed.

Lemma idling_same k k' c :
  cp_same (cpus k) (cpus k') -> curthread k' = curthread k -> idling k' c -> idling k c.
Proof.
  intros Hcp Hcur (c1 & Hc1 & Hcc & Hi). specialize (Hcp c). rewrite Hc1 in Hcp.
  destruct (zlookup (cpus k) c) as [c0|] eqn:E; [|done]. simpl in Hcp. injection Hcp as H1 H2.
  exists c0. split_and!; congruence.
Qed.

Lemma quiet_same k k' ls ls' c s :
  quiet k ls c s -> kinv k' ls' 0 0 c s ∅ -> (forall n, ls' !! Local n = None) ->
  cp_same (cpus k) (cpus k') -> curthread k' = curthread k -> quiet k' ls' c s.
Proof.
  intros (Hk & Hl & Hon & Hidle) Hk' Hl' Hcp Hcur. split_and!; [done|done|by eapply on_cpu_frame|].
  intros Hi. apply Hidle. by eapply idling_same.
Qed.

Lemma picked_ok k ls c ts zs r k' :
  picked k ls c ts zs r k' -> (forall n, ls !! Local n = None) -> sched_ok k'.
Proof.
  intros Hp Hl. destruct ts as [|n ts]; simpl in Hp.
  - destruct Hp as (-> & Hk & Hi & _). exists ls, c, IPL_HIGH. split_and!; try done.
    destruct Hi as (c0 & ? & ? & _). by exists c0.
  - destruct Hp as (-> & Hcur & (t0 & c0 & ? & ? & ? & Hc & Hcc & Hni) & (s' & Hk) & _). eexists _, c, s'.
    split_and!; [exact Hk| |by exists c0|].
    + intros m. by rewrite !lookup_insert_ne.
    + intros (c1 & Hc1 & _ & Hi). simplify_eq. congruence.
Qed.

Lemma switched_out_ok k ls c st r k' :
  switched_out k ls c st r k' -> (forall n, ls !! Local n = None) -> sched_ok k'.
Proof. intros (? & ? & ? & ? & ? & _ & _ & _ & _ & _ & _ & _ & _ & Hp) Hl. by eapply picked_ok. Qed.

Lemma spread_wait th ts ls n :
  (forall m, ls !! Local m = None) -> spread th ts ls !! Local n = None.
Proof. intros Hl. by rewrite spread_local. Qed.

(** The timer interrupt in the idle loop. *)
Lemma yield_idle k ls c :
  kinv k ls 0 0 c IPL_HIGH ∅ -> idling k c ->
  returns (thread_yield k) (fun r k' => r = Stayed /\ kinv k' ls 0 0 c IPL_HIGH ∅ /\ frame k k').
Proof.
  intros Hk (c0 & Hc0 & Hcc & Hi). unfold thread_yield, thread_switch. runs_steps.
  eapply runs_spl; [done|by right|]. intros il1 Hk1. runs_steps.
  eapply runs_cur; [done|]. runs_steps. eapply runs_get_cpu; [done|]. rewrite Hi. runs_steps.
  eapply runs_spl; [done|by right|]. intros il2 Hk2. runs_steps. split_and!; try done.
Qed.

Lemma yield_ok k ls c s :
  quiet k ls c s -> returns (thread_yield k) (fun _ k' => sched_ok k').
Proof.
  intros Hq. pose proof Hq as (Hk & Hl & _). destruct (on_cpu_cases _ _ _ _ Hq) as [[Hex _]|(Hid & -> & _)].
  - eapply runs_mono; [by eapply (yield_spec k ls c s)| |done]. intros r k' Hr. cbv beta in Hr.
    destruct (ls !! RunQ c) as [[|t ts]|] eqn:E; [|eapply switched_out_ok; [done|]|done].
    + destruct Hr as (_ & Hk' & _ & Hf). exists ls, c, s. eapply quiet_same; [done..| |]; apply Hf.
    + intros n. by rewrite lookup_insert_ne.
  - eapply runs_mono; [by eapply yield_idle| |done]. intros r k' (_ & Hk' & Hf). exists ls, c, IPL_HIGH.
    eapply quiet_same; [done..| |]; apply Hf.
Qed.

Lemma migration_ok k ls c s :
  quiet k ls c s -> returns (thread_consider_migration k) (fun _ k' => exists ls', quiet k' ls' c s).
Proof.
  intros Hq. pose proof Hq as (Hk & Hl & Hon & _).
  eapply runs_mono; [by eapply migration_spec| |done]. intros [] k' (ls' & Hk' & [Hf Ho _ _]).
  exists ls'. eapply quiet_same; [done|done| |apply Hf|apply Hf]. intros n. by rewrite Ho.
Qed.

Lemma hardclock_ok k ls c s :
  quiet k ls c s -> returns (hardclock k) (fun _ k' => sched_ok k').
Proof.
  intros Hq. pose proof Hq as (Hk & Hl & Hon & Hidle). pose proof Hon as (c0 & Hc0 & Hcc).
  unfold hardclock, schedule. runs_steps. eapply runs_cur; [done|]. runs_steps.
  eapply runs_upd_cpu; [done|]. runs_steps. set (c1 := set_hardclocks _ c0).
  pose proof (kinv_cpu_same _ _ _ _ _ _ _ c c0 c1 Hk Hc0 eq_refl eq_refl) as Hk1.
  pose proof (cp_same_insert _ _ _ c1 Hc0 eq_refl eq_refl) as Hcp.
  assert (quiet (set_cpus (zinsert (cpus k) c c1) k) ls c s) as Hq1 by (by eapply quiet_same).
  eapply runs_get_cpu; [simpl; apply zlookup_zinsert_eq; by eapply zlookup_Some_range|]. runs_steps.
  destruct (_ =? 0) at 1; runs_steps; (destruct (_ =? 0) at 1; runs_steps; [|by eapply yield_ok]).
  all: eapply runs_mono; [by eapply migration_ok| |done]; intros [] k' (ls' & Hq'); by eapply yield_ok.
Qed.

Lemma focus_ok k ls c s d :
  quiet k ls c s -> 0 <= d < zlen (cpus k) ->
  returns (do_kop (KCpu d) k) (fun _ k' => cpus k' = cpus k /\ exists s', quiet k' ls d s').
Proof.
  intros Hq Hd. pose proof Hq as ([[Hcur Hlvl Hs Hlk] Hco Ho Hlks] & Hl & (c0 & Hc0 & Hcc) & Hidle).
  simpl. runs_steps. destruct (zlookup_is_Some (cpus k) d Hd) as [cd Hcd].
  eapply runs_get_cpu; [done|]. unfold put_curthread. runs_steps.
  destruct (decide (c_curthread cd = curthread k)) as [He|Hne].
  { assert (d = c) as ->.
    { destruct (co_cpu _ _ _ _ _ _ _ Hco d cd Hcd) as (td & Htd & <- & _), Hcur as (tc & Htc & <-). congruence. }
    rewrite He. split; [done|]. destruct k. by exists s. }
  destruct (co_cpu _ _ _ _ _ _ _ Hco d cd Hcd) as (td & Htd & Htdc & _).
  destruct (Ho (c_curthread cd)) as (i & Hi & [(e & ce & He & Hec & Hii)|[Hno _]]); [eauto|done| | |by destruct (Hno d cd)].
  { intros Hz. apply (co_live _ _ _ _ _ _ _ Hco) in Hz || idtac. pose proof (co_live _ _ _ _ _ _ _ Hco _ (mk_is_Some _ _ Htd)) as Hlv.
    apply (co_ids _ _ _ _ _ _ _ Hco) in Hlv. lia. }
  assert (e = d) as -> by (destruct (co_cpu _ _ _ _ _ _ _ Hco e ce He) as (te & Hte & Htec & _); congruence).
  simplify_eq.
  assert (exists s', is_spl s' /\ i = lvl s' 0 /\ (c_isidle cd = true -> s' = IPL_HIGH)) as (s' & Hs' & -> & Hsi).
  { destruct (c_isidle cd); [exists IPL_HIGH; split_and!; try done; by right|].
    destruct Hii as (s' & ? & ?). by exists s'. }
  split; [done|]. exists s'. split_and!; [|done|by exists cd|].
  - split; simpl; [split; simpl; eauto|done| |done].
    intros t Ht Hnt Hnz. destruct (decide (t = curthread k)) as [->|]; [|by apply Ho].
    exists (lvl s 0). split; [done|]. left. exists c, c0. split_and!; try done.
    destruct (c_isidle c0) eqn:Hi0; [|by exists s]. rewrite Hidle; [done|]. by exists c0.
  - intros (c1 & Hc1 & _ & Hi1). simpl in Hc1. simplify_eq. auto.
Qed.

Lemma returns_then {A} (m : M kernel A) k (Q : kernel -> Prop) :
  returns (m k) (fun _ k' => Q k') -> returns ((let* _ := m in ret tt) k) (fun _ k' => Q k').
Proof. intros Hm. apply runs_bind. eapply runs_mono; [done| |done]. intros a k' HQ. by runs_steps. Qed.

Lemma executing_quiet k ls c s :
  kinv k ls 0 0 c s ∅ -> (forall n, ls !! Local n = None) -> executing k c -> quiet k ls c s.
Proof.
  intros Hk Hl (t0 & c0 & ? & ? & ? & Hc0 & ? & Hi). split_and!; [done|done|by exists c0|].
  intros (c1 & Hc1 & _ & Hi1). simplify_eq. congruence.
Qed.

Lemma no_local_insert (ls : gmap listid (list Z)) l ts :
  (forall n, ls !! Local n = None) -> (forall n, l <> Local n) -> forall n, <[l := ts]> ls !! Local n = None.
Proof. intros Hl Hne n. rewrite lookup_insert_ne; [auto|apply Hne]. Qed.

Lemma woken_local th w ls :
  (forall n, ls !! Local n = None) -> forall n, woken th w ls !! Local n = None.
Proof.
  intros Hl n. unfold woken. destruct (ls !! WaitQ w) as [[|t ts]|]; [done| |done].
  destruct (th !! t); [|done]. by rewrite !lookup_insert_ne.
Qed.

Lemma wake_ok k ls c s w (all : bool) :
  quiet k ls c s -> is_Some (locks k !! LWchan w) ->
  returns ((if all then wchan_wakeall w else wchan_wakeone w) k) (fun _ k' => sched_ok k').
Proof.
  intros Hq Hw. pose proof Hq as (Hk & Hl & _).
  apply (lk_wchan _ _ _ _ (kv_lks _ _ _ _ _ _ _ Hk)) in Hw as [ts Hw].
  destruct all; (eapply runs_mono; [eapply wakeall_spec || eapply wakeone_spec; eauto| |done]);
    intros [] k' [Hk' Hf]; eexists _, c, s; eapply quiet_same; try exact Hk'; try done; try apply Hf.
  - intros n. apply spread_wait, no_local_insert; done.
  - by apply woken_local.
Qed.

Lemma kop_ok k op :
  sched_ok k -> allowed k op ->
  runs (do_kop op k) (fun _ k' => sched_ok k') (fun _ k' => sched_ok k').
Proof.
  intros (ls & c & s & Hq) Ha. pose proof Hq as (Hk & Hl & Hon & Hidle).
  pose proof (on_cpu_cases _ _ _ _ Hq) as Hcase.
  destruct op as [|w|kproc|proc|w|w| | |d]; simpl do_kop; simpl in Ha.
  - apply returns_runs, returns_then. by eapply yield_ok.
  - destruct Ha as (Hb & Hw & Hint). destruct Hcase as [[Hex _]|(_ & _ & Hi)]; [|congruence].
    apply (lk_wchan _ _ _ _ (kv_lks _ _ _ _ _ _ _ Hk)) in Hw as [q Hw].
    apply returns_runs, returns_then.
    eapply runs_mono; [eapply (sleep_spec k ls c s w q); try done| |done].
    + intros tcur Ht. rewrite Ht in Hint. by injection Hint.
    + intros r k' Hr. eapply switched_out_ok; [done|]. by apply no_local_insert.
  - destruct Ha as (Hb & Hkp & Hp). destruct Hcase as [[Hex _]|(_ & _ & Hi)]; [|congruence].
    destruct (executing_facts k ls c s ∅ Hk Hex) as (? & ? & Ht & _ & _ & _ & _ & _ & _ & _ & _ & _ & _ & (zs & Hzs)).
    apply returns_runs, returns_then. eapply runs_mono; [eapply (exit_spec k ls c s kproc zs); try done| |done].
    + intros tcur Ht'. rewrite Ht' in Hp. simpl in Hp. destruct Hp as [[= ?]|[= ?]]; auto.
    + intros r k' (k0 & _ & _ & _ & Hr). eapply switched_out_ok; [done|]. by apply no_local_insert.
  - destruct Ha as (Hb & Hsz & t0 & Ht0 & q & Hpq). destruct Hcase as [[Hex _]|(_ & _ & Hi)]; [|congruence].
    destruct (executing_facts k ls c s ∅ Hk Hex) as (? & ? & Ht & _ & _ & _ & _ & _ & _ & _ & _ & _ & (ts & Hts) & _).
    eapply runs_mono; [eapply (fork_spec k ls c s proc ts t0 q); done|..].
    all: intros ? k' Hr; cbv beta in Hr.
    + destruct Hr as (Hk' & Hex' & _ & Hcur & _). eexists _, c, s. by eapply executing_quiet; [|apply no_local_insert|].
    + destruct Hr as (-> & Hk' & Hex' & _ & Hcur & _). eexists _, c, s. by eapply executing_quiet.
  - apply returns_runs. by eapply (wake_ok _ _ _ _ _ false).
  - apply returns_runs. by eapply (wake_ok _ _ _ _ _ true).
  - apply returns_runs, returns_then. by eapply hardclock_ok.
  - destruct Hcase as [[_ Hi]|(Hid & -> & _)]; [congruence|].
    assert (0 <= c < zlen (cpus k)) as Hr by (destruct Hid as (? & ? & _); by eapply zlookup_Some_range).
    destruct (co_lists _ _ _ _ _ _ _ (kv_core _ _ _ _ _ _ _ Hk) c Hr) as [[ts Hts] [zs Hzs]].
    apply returns_runs, returns_then. eapply runs_mono; [by eapply (idle_poll_spec k ls c ts zs)| |done].
    intros r k' (k1 & Hp & _). by eapply picked_ok.
  - apply returns_runs. eapply runs_mono; [by eapply (focus_ok k ls c s d)| |done].
    intros [] k' [_ [s' Hq']]. by exists ls, d, s'.
Qed.

Lemma kstep_ok k k' : sched_ok k -> kstep k k' -> sched_ok k'.
Proof.
  intros Hok Hst. destruct Hst as [op k1 k2 Ha E|op k1 k2 e Ha E];
    pose proof (kop_ok k1 op Hok Ha) as Hr; by rewrite E in Hr.
Qed.

Lemma ksteps_ok k k' : sched_ok k -> rtc kstep k k' -> sched_ok k'.
Proof. intros Hok Hst. revert Hok. induction Hst; [done|]. intros Hok. eauto using kstep_ok. Qed.

(** A thread is in exactly one place: it runs on its processor and is on no
    list, or it is on one list, which agrees with its state and processor. *)
Definition placed (ls : gmap listid (list Z)) (cp : list cpu) (t : Z) (t0 : thread) : Prop :=
  (off_lists ls t /\ running cp t t0) \/
  (exists l ts, ls !! l = Some ts /\ t ∈ ts /\ list_ok l t0 /\
     forall l' ts', ls !! l' = Some ts' -> t ∈ ts' -> l' = l).

Lemma off_or_on (ls : gmap listid (list Z)) t : off_lists ls t \/ exists l ts, ls !! l = Some ts /\ t ∈ ts.
Proof.
  destruct (decide (map_Forall (fun _ ts => t ∉ ts) ls)) as [Hf|Hf]; [by left|right].
  apply map_not_Forall in Hf as (l & ts & Hl & Hin); [|apply _].
  exists l, ts. split; [done|]. destruct (decide (t ∈ ts)); done.
Qed.

Lemma kinv_placed k ls c s D t t0 :
  kinv k ls 0 0 c s D -> threads k !! t = Some t0 -> placed ls (cpus k) t t0.
Proof.
  intros Hk Ht. pose proof (kv_core _ _ _ _ _ _ _ Hk) as Hco.
  assert (t <> 0) as Hnz by (intros ->; by rewrite (thread_zero _ _ _ _ _ _ _ Hk) in Ht).
  destruct (off_or_on ls t) as [Hoff|(l & ts & Hl & Hin)].
  - left. split; [done|]. by eapply co_off.
  - right. exists l, ts. destruct (co_on _ _ _ _ _ _ _ Hco l ts t Hl Hin) as (t1 & Ht1 & Hok). simplify_eq.
    split_and!; [done|done|auto|]. intros l' ts' Hl' Hin'. eapply tl_disj; [apply Hco|done..].
Qed.

(** C1. The scheduler is safe.  From a consistent kernel, after any
    sequence of yields, sleeps, wakeups, forks, exits, clock interrupts (with
    migration) and idle-loop turns on any processors, the kernel is consistent:
    every thread is in exactly one place, every processor's current thread is
    a thread of that processor; and no further allowed operation panics,
    deadlocks on a spinlock or follows a wild pointer. *)
Theorem sched_safe k k' :
  sched_ok k -> rtc kstep k k' ->
  sched_ok k' /\
  (exists ls, tl_rep (lists k') ls /\
     forall t t0, threads k' !! t = Some t0 -> placed ls (cpus k') t t0) /\
  (forall d c0, zlookup (cpus k') d = Some c0 -> t_cpu <$> threads k' !! c_curthread c0 = Some d) /\
  (forall op why, allowed k' op -> do_kop op k' <> Crash why).
Proof.
  intros Hok Hst. pose proof (ksteps_ok _ _ Hok Hst) as Hok'. split; [done|].
  pose proof Hok' as (ls & c & s & Hk & _). pose proof (kv_core _ _ _ _ _ _ _ Hk) as Hco. split_and!.
  - exists ls. split; [apply Hco|]. intros t t0. by eapply kinv_placed.
  - intros d c0 Hd. destruct (co_cpu _ _ _ _ _ _ _ Hco d c0 Hd) as (t0 & -> & Ht & _). simpl. by rewrite Ht.
  - intros op why Ha E. pose proof (kop_ok k' op Hok' Ha) as Hr. by rewrite E in Hr.
Qed.

(** Yielding is round robin: the head of the processor's run
    queue runs next and the yielding thread becomes the queue's tail, ready; the
    threads between them keep their order. *)
Theorem yield_round_robin k ls c s t ts :
  quiet k ls c s -> cur_idle k = Some false -> ls !! RunQ c = Some (t :: ts) ->
  returns (thread_yield k) (fun r k' => exists ls' s',
    r = Switched /\ curthread k' = t /\ quiet k' ls' c s' /\
    ls' !! RunQ c = Some (ts ++ [curthread k]) /\
    (forall l, l <> RunQ c -> l <> Zombies c -> ls' !! l = ls !! l) /\
    procs k' = procs k).
Proof.
  intros Hq Hb Hts. destruct (on_cpu_cases _ _ _ _ Hq) as [[Hex _]|(_ & _ & Hi)]; [|congruence].
  destruct Hq as (Hk & Hl & _ & _).
  eapply runs_mono; [by eapply (yield_spec k ls c s)| |done]. intros r k'. rewrite Hts.
  intros (k1 & spl & tc & ts1 & zs & _ & _ & Hrq & _ & _ & Hpr & _ & _ & Hp).
  rewrite lookup_insert_eq in Hrq. simplify_eq. simpl in Hp.
  destruct Hp as (-> & Hcur & Hex' & (s' & Hk') & _ & Hpr' & _). eexists _, s'.
  split_and!; [done|done|eapply executing_quiet; [exact Hk'| |done]| | |congruence].
  - intros n. by rewrite !lookup_insert_ne.
  - by rewrite lookup_insert_ne, lookup_insert_eq.
  - intros l H1 H2. by rewrite !lookup_insert_ne by done.
Qed.

Lemma spread_other th ts ls l :
  match l with RunQ _ => False | _ => True end -> spread th ts ls !! l = ls !! l.
Proof.
  intros Hl. revert ls. induction ts as [|t ts IH]; intros ls; simpl; [done|].
  destruct (th !! t); rewrite IH; [|done]. rewrite lookup_insert_ne; [done|]. by intros <-.
Qed.

Lemma spread_runq th ts ls d q :
  ls !! RunQ d = Some q ->
  spread th ts ls !! RunQ d = Some (q ++ filter (fun t => t_cpu <$> th !! t = Some d) ts).
Proof.
  revert ls q. induction ts as [|t ts IH]; intros ls q Hq; cbn [spread]; [by rewrite app_nil_r|].
  destruct (th !! t) as [t0|] eqn:Ht; [destruct (decide (t_cpu t0 = d)) as [<-|Hne]|].
  - rewrite (IH _ (q ++ [t])); [|by rewrite lookup_insert_eq, Hq].
    rewrite filter_cons_True by (by rewrite Ht). by rewrite <- app_assoc.
  - rewrite (IH _ q); [|by rewrite lookup_insert_ne by congruence].
    rewrite filter_cons_False; [done|]. rewrite Ht. simpl. congruence.
  - rewrite (IH _ q Hq), filter_cons_False; [done|]. by rewrite Ht.
Qed.

(** Wakeups are first-in first-out and lose nobody.  [wchan_wakeone]
    moves the thread that has slept longest to the tail of its own processor's
    run queue; [wchan_wakeall] empties the channel and appends each processor's
    sleepers to that processor's run queue in the order they went to sleep.
    No other list and no thread changes. *)
Theorem wchan_wakeup k ls c s w t ts t0 :
  quiet k ls c s -> ls !! WaitQ w = Some (t :: ts) -> threads k !! t = Some t0 ->
  returns (wchan_wakeone w k) (fun _ k' => exists ls' q, quiet k' ls' c s /\ threads k' = threads k /\
    ls !! RunQ (t_cpu t0) = Some q /\ ls' = <[RunQ (t_cpu t0) := q ++ [t]]> (<[WaitQ w := ts]> ls)) /\
  returns (wchan_wakeall w k) (fun _ k' => exists ls', quiet k' ls' c s /\ threads k' = threads k /\
    ls' !! WaitQ w = Some [] /\
    (forall d q, ls !! RunQ d = Some q ->
       ls' !! RunQ d = Some (q ++ filter (fun t => t_cpu <$> threads k !! t = Some d) (t :: ts))) /\
    (forall l, l <> WaitQ w -> match l with RunQ _ => False | _ => True end -> ls' !! l = ls !! l)).
Proof.
  intros Hq Hw Ht. pose proof Hq as (Hk & Hl & _). split.
  - eapply runs_mono; [eapply (wakeone_spec k ls c s w Hk); eauto| |done]. intros [] k' [Hk' Hf].
    destruct (co_wf _ _ _ _ _ _ _ (kv_core _ _ _ _ _ _ _ Hk) t t0 Ht) as [Hr _].
    { intros ->. by rewrite (thread_zero _ _ _ _ _ _ _ Hk) in Ht. }
    destruct (core_runq _ _ _ _ _ _ _ _ (kv_core _ _ _ _ _ _ _ Hk) Hr) as [q Hrq].
    exists (woken (threads k) w ls), q. split_and!; [|apply Hf|done|].
    + eapply quiet_same; [done|done|by apply woken_local|apply Hf|apply Hf].
    + unfold woken. by rewrite Hw, Ht, Hrq.
  - eapply runs_mono; [eapply (wakeall_spec k ls c s w _ Hk Hw); done| |done]. intros [] k' [Hk' Hf].
    eexists. split_and!; [eapply quiet_same; [done|exact Hk'| |apply Hf|apply Hf]|apply Hf| | |].
    + intros n. apply spread_wait. by apply no_local_insert.
    + rewrite spread_other by done. by rewrite lookup_insert_eq.
    + intros d q Hd. apply spread_runq. by rewrite lookup_insert_ne.
    + intros l Hne Hm. rewrite spread_other by done. by rewrite lookup_insert_ne.
Qed.

(** An exited thread is reaped.  [thread_exit] never returns to the
    exiting thread: when another thread is ready it runs next, and by the time
    it does, the exited thread, with its stack, and every older zombie of the
    processor are gone; otherwise the processor idles and the zombies stay
    listed for the next switch. *)
Theorem exit_reaped k ls c s kproc ts zs t0 :
  quiet k ls c s -> cur_idle k = Some false -> kproc <> 0 ->
  threads k !! curthread k = Some t0 -> t_proc t0 = kproc \/ t_proc t0 = 0 ->
  ls !! RunQ c = Some ts -> ls !! Zombies c = Some zs ->
  returns (thread_exit kproc k) (fun r k' => exists ls' s', quiet k' ls' c s' /\
    match ts with
    | [] => r = Idle /\ ls' !! Zombies c = Some (zs ++ [curthread k])
    | t :: ts' => r = Switched /\ curthread k' = t /\ ls' !! RunQ c = Some ts' /\ ls' !! Zombies c = Some [] /\
        (forall z, z = curthread k \/ z ∈ zs -> threads k' !! z = None)
    end).
Proof.
  intros Hq Hb Hkp Ht0 Hp Hts Hzs. destruct (on_cpu_cases _ _ _ _ Hq) as [[Hex _]|(_ & _ & Hi)]; [|congruence].
  destruct Hq as (Hk & Hl & _). eapply runs_mono; [eapply (exit_spec k ls c s kproc zs); try done| |done].
  { intros tc Htc. by simplify_eq. }
  intros r k' (k0 & _ & Hcur & _ & k1 & spl & tc & ts1 & zs1 & _ & _ & Hts1 & Hzs1 & _ & _ & _ & _ & Hpk).
  rewrite lookup_insert_ne in Hts1 by done. rewrite lookup_insert_eq in Hzs1. simplify_eq.
  destruct ts as [|t ts]; simpl in Hpk.
  - destruct Hpk as (-> & Hk' & Hid & _). eexists _, IPL_HIGH. split_and!; [|done|by rewrite lookup_insert_eq].
    destruct Hid as (c0 & ? & ? & ?). split_and!; [exact Hk'|by apply no_local_insert|by exists c0|done].
  - destruct Hpk as (-> & Hc' & Hex' & (s' & Hk') & _ & _ & _ & Hz). eexists _, s'. split_and!; try done.
    + eapply executing_quiet; [exact Hk'| |done]. intros n. by rewrite !lookup_insert_ne.
    + by rewrite lookup_insert_ne, lookup_insert_eq.
    + by rewrite lookup_insert_eq.
    + intros z Hzz. apply Hz. rewrite elem_of_app, list_elem_of_singleton. tauto.
Qed.

(** Forking.  The child gets the parent's processor and, unless told
    otherwise, its process; it is appended to the processor's run queue with a
    fresh guarded stack and starts at its entry point.  When memory runs out
    [ENOMEM] is returned and no thread, process or list has changed. *)
Theorem fork_child k ls c s proc ts t0 q :
  quiet k ls c s -> cur_idle k = Some false -> Z.of_nat (size (threads k)) + 2 < 2 ^ 32 ->
  ls !! RunQ c = Some ts -> threads k !! curthread k = Some t0 ->
  let p := if proc =? 0 then t_proc t0 else proc in
  procs k !! p = Some q ->
  runs (thread_fork proc k)
    (fun _ k' => exists ls', quiet k' ls' c s /\ ls' = <[RunQ c := ts ++ [next_id k]]> ls /\
       threads k !! next_id k = None /\ threads k' = <[next_id k := child c p]> (threads k) /\
       procs k' = <[p := q ++ [next_id k]]> (procs k))
    (fun e k' => e = ENOMEM /\ quiet k' ls c s /\ threads k' = threads k /\ procs k' = procs k).
Proof.
  intros Hq Hb Hsz Hts Ht0 p Hpq. destruct (on_cpu_cases _ _ _ _ Hq) as [[Hex _]|(_ & _ & Hi)]; [|congruence].
  pose proof Hq as (Hk & Hl & _). eapply runs_mono; [eapply (fork_spec k ls c s proc ts t0 q); done|..].
  - intros [] k' (Hk' & Hex' & Hth & _ & Hpr). eexists. split_and!; [|done| |done|done].
    + eapply executing_quiet; [exact Hk'|by apply no_local_insert|done].
    + destruct (threads k !! next_id k) eqn:E; [|done]. pose proof (kv_core _ _ _ _ _ _ _ Hk) as Hco.
      pose proof (co_ids _ _ _ _ _ _ _ Hco _ (co_live _ _ _ _ _ _ _ Hco _ (mk_is_Some _ _ E))). lia.
  - intros e k' (-> & Hk' & Hex' & ? & _ & ?). split_and!; try done. by eapply executing_quiet.
Qed.

(** Migration balances without losing threads.  The threads in the
    run queues are the same before and after; another processor's queue only
    grows at its tail, to at most an even share of the waiting threads (rounded
    up), and never by the current thread; all other lists, processes and
    thread fields but the migrated threads' [t_cpu] stay. *)
Theorem migration_balances k ls c s :
  quiet k ls c s ->
  returns (thread_consider_migration k) (fun _ k' => exists ls',
    quiet k' ls' c s /\ migrated k k' ls ls' c (fair_share k ls)).
Proof.
  intros Hq. pose proof Hq as (Hk & Hl & Hon & _). eapply runs_mono; [by eapply migration_spec| |done].
  intros [] k' (ls' & Hk' & Hm). exists ls'. split; [|done].
  eapply quiet_same; [done|done| |apply Hm|apply Hm]. intros n. by rewrite (md_other _ _ _ _ _ _ Hm).
Qed.

(** ** TLB shootdown *)

Fixpoint post_all (d : Z) (ms : list Z) : M kernel unit :=
  match ms with
  | [] => ret tt
  | m :: ms' => ipi_tlbshootdown d m ;; post_all d ms'
  end.

(** Processor [d] has the requests [ms] posted and nothing else. *)
Definition posted (k : kernel) (d : Z) (ms : list Z) : Prop :=
  exists c0, zlookup (cpus k) d = Some c0 /\ c_numshootdown c0 = zlen ms /\
    zlen (c_shootdown c0) = TLBSHOOTDOWN_MAX /\ (forall i, i < zlen ms -> zlookup (c_shootdown c0) i = zlookup ms i) /\
    Z.testbit (c_ipi_pending c0) IPI_PANIC = false /\ Z.testbit (c_ipi_pending c0) IPI_OFFLINE = false /\
    (ms <> [] -> Z.testbit (c_ipi_pending c0) IPI_TLBSHOOTDOWN = true).

(** Processor [d] is asked to flush everything. *)
Definition posted_all (k : kernel) (d : Z) : Prop :=
  exists c0, zlookup (cpus k) d = Some c0 /\ c_numshootdown c0 = TLBSHOOTDOWN_ALL /\
    Z.testbit (c_ipi_pending c0) IPI_PANIC = false /\ Z.testbit (c_ipi_pending c0) IPI_OFFLINE = false /\
    Z.testbit (c_ipi_pending c0) IPI_TLBSHOOTDOWN = true.

Lemma post_pending_bits p i :
  0 <= i -> Z.testbit (Z.lor p (bit_mask IPI_TLBSHOOTDOWN)) i = bool_decide (i = IPI_TLBSHOOTDOWN) || Z.testbit p i.
Proof.
  intros Hi. rewrite Z.lor_spec, bit_mask_spec by (unfold IPI_TLBSHOOTDOWN; lia). by rewrite orb_comm.
Qed.

(** The fields the requests do not touch. *)
Definition same_cpu (k k' : kernel) : Prop := curthread k' = curthread k /\ cp_same (cpus k) (cpus k').

(** One request: [f] is what it does to the queue of the target. *)
Lemma post_one k ls c s d m c0 (Q : unit -> kernel -> Prop) :
  kinv k ls 0 0 c s ∅ -> zlookup (cpus k) d = Some c0 ->
  let n := c_numshootdown c0 in
  n = TLBSHOOTDOWN_MAX \/ 0 <= n < zlen (c_shootdown c0) ->
  (forall k' c1, kinv k' ls 0 0 c s ∅ -> same_cpu k k' -> zlookup (cpus k') d = Some c1 ->
     c_ipi_pending c1 = Z.lor (c_ipi_pending c0) (bit_mask IPI_TLBSHOOTDOWN) ->
     c_numshootdown c1 = (if n =? TLBSHOOTDOWN_MAX then TLBSHOOTDOWN_ALL else n + 1) ->
     c_shootdown c1 = (if n =? TLBSHOOTDOWN_MAX then c_shootdown c0 else zinsert (c_shootdown c0) n m) ->
     Q tt k') ->
  returns (ipi_tlbshootdown d m k) Q.
Proof.
  intros Hk Hd n Hn HQ. unfold ipi_tlbshootdown. runs_steps. pose proof (zlookup_Some_range _ _ _ Hd) as Hr.
  destruct (lk_cpu _ _ _ _ (kv_lks _ _ _ _ _ _ _ Hk) d Hr) as [_ Hip].
  eapply runs_acq; [done|done|set_solver|]. intros il1 lk1 Hk1. rewrite union_empty_r_L in Hk1. runs_steps.
  eapply runs_get_cpu; [done|]. fold n.
  set (c1 := if n =? TLBSHOOTDOWN_MAX then set_shootdown (c_shootdown c0) TLBSHOOTDOWN_ALL c0
             else set_shootdown (zinsert (c_shootdown c0) n m) (n + 1) c0).
  runs_steps. apply runs_bind_inv, runs_bind_with with (Q1 := fun _ k' => k' = set_cpus (zinsert (cpus k) d c1) (set_il il1 lk1 k)).
  { destruct (Z.eqb_spec n TLBSHOOTDOWN_MAX) as [E|]; [by eapply runs_upd_cpu|].
    rewrite (proj2 (Z.leb_le 0 n)), (proj2 (Z.ltb_lt n _)) by lia. by eapply runs_upd_cpu. }
  intros [] k2 ->. runs_steps. eapply runs_upd_cpu; [by apply zlookup_zinsert_eq|]. runs_steps.
  set (c2 := set_ipi_pending _ c1). simpl. rewrite zinsert_zinsert.
  assert (c_curthread c2 = c_curthread c0 /\ c_isidle c2 = c_isidle c0) as [Hcc Hci] by (subst c2 c1; by destruct (n =? _)).
  pose proof (kinv_cpu_same _ _ _ _ _ _ _ d c0 c2 Hk1 Hd Hcc Hci) as Hk3.
  eapply runs_rel; [exact Hk3| |set_solver|].
  { destruct (lk_cpu _ _ _ _ (kv_lks _ _ _ _ _ _ _ Hk3) d) as [_ ?]; [|done]. simpl. by rewrite zlen_zinsert. }
  intros il4 lk4 Hk4. rewrite difference_diag_L in Hk4. apply (HQ _ c2); try done.
  - split; [done|]. by eapply cp_same_insert.
  - simpl. by apply zlookup_zinsert_eq.
  - subst c2 c1. by destruct (n =? _).
  - subst c2 c1. by destruct (n =? _).
  - subst c2 c1. by destruct (n =? _).
Qed.

#[local] Instance same_cpu_preorder : PreOrder same_cpu.
Proof. split; [by intros k|]. intros k1 k2 k3 [A1 A2] [B1 B2]. split; [congruence|]. intros d. by rewrite B2, A2. Qed.

Lemma post_room k ls c s d ms m :
  kinv k ls 0 0 c s ∅ -> posted k d ms -> zlen ms < TLBSHOOTDOWN_MAX ->
  returns (ipi_tlbshootdown d m k) (fun _ k' =>
    kinv k' ls 0 0 c s ∅ /\ same_cpu k k' /\ posted k' d (ms ++ [m])).
Proof.
  intros Hk (c0 & Hd & Hn & Hlen & Hms & Hp & Ho & Ht) Hroom. pose proof (zlen_nonneg ms).
  eapply post_one; [done|done|right; lia|]. intros k' c1 Hk' Hs Hd' Hpend Hn' Hsh.
  rewrite Hn in Hn', Hsh. destruct (Z.eqb_spec (zlen ms) TLBSHOOTDOWN_MAX); [lia|].
  split_and!; [done|done|]. exists c1. rewrite Hpend, Hn', Hsh, zlen_zinsert, zlen_app, !post_pending_bits by done.
  split_and!; try done. intros i Hi. change (zlen [m]) with 1 in Hi. rewrite zlookup_zinsert by lia. case_bool_decide.
  - subst. rewrite zlookup_app_r, Z.sub_diag by lia. done.
  - destruct (decide (i < 0)); [by rewrite !(proj2 (zlookup_None _ _)) by lia|].
    rewrite zlookup_app_l by lia. apply Hms. lia.
Qed.

Lemma post_full k ls c s d ms m :
  kinv k ls 0 0 c s ∅ -> posted k d ms -> zlen ms = TLBSHOOTDOWN_MAX ->
  returns (ipi_tlbshootdown d m k) (fun _ k' =>
    kinv k' ls 0 0 c s ∅ /\ same_cpu k k' /\ posted_all k' d).
Proof.
  intros Hk (c0 & Hd & Hn & Hlen & Hms & Hp & Ho & Ht) Hroom.
  eapply post_one; [done|done|left; lia|]. intros k' c1 Hk' Hs Hd' Hpend Hn' Hsh.
  rewrite Hn, Hroom, Z.eqb_refl in Hn'. split_and!; [done|done|].
  exists c1. rewrite Hpend, !post_pending_bits by done. by split_and!.
Qed.

Lemma post_again k ls c s d m :
  kinv k ls 0 0 c s ∅ -> posted_all k d -> ipi_tlbshootdown d m k = Crash Wild.
Proof.
  intros Hk (c0 & Hd & Hn & _). pose proof (zlookup_Some_range _ _ _ Hd) as Hr.
  destruct (lk_cpu _ _ _ _ (kv_lks _ _ _ _ _ _ _ Hk) d Hr) as [_ Hip].
  unfold ipi_tlbshootdown. apply bind_crash.
  eapply runs_acq; [done|done|set_solver|]. intros il1 lk1 Hk1. apply bind_crash.
  eapply runs_get_cpu; [done|]. by rewrite Hn.
Qed.

Lemma post_all_app k d ms ms' : post_all d (ms ++ ms') k = (post_all d ms ;; post_all d ms') k.
Proof.
  revert k. induction ms as [|m ms IH]; intros k; [done|]. simpl. unfold bind in *.
  destruct (ipi_tlbshootdown d m k); done.
Qed.

Lemma post_all_room k ls c s d ms0 ms :
  kinv k ls 0 0 c s ∅ -> posted k d ms0 -> zlen ms0 + zlen ms <= TLBSHOOTDOWN_MAX ->
  returns (post_all d ms k) (fun _ k' =>
    kinv k' ls 0 0 c s ∅ /\ same_cpu k k' /\ posted k' d (ms0 ++ ms)).
Proof.
  revert k ms0. induction ms as [|m ms IH]; intros k ms0 Hk Hp Hlen; cbn [post_all].
  - runs_steps. rewrite app_nil_r. by split_and!.
  - rewrite zlen_cons in Hlen. pose proof (zlen_nonneg ms). runs_steps.
    eapply runs_mono; [eapply (post_room k ls c s d ms0 m); try done; lia| |done].
    intros [] k1 (Hk1 & Hs1 & Hp1).
    eapply runs_mono; [eapply (IH k1 (ms0 ++ [m])); try done; rewrite zlen_app; change (zlen [m]) with 1; lia| |done].
    intros [] k2 (Hk2 & Hs2 & Hp2). rewrite <- app_assoc in Hp2. split_and!; [done|by etrans|done].
Qed.

Lemma zinsert_id {A} (l : list A) i x : zlookup l i = Some x -> zinsert l i x = l.
Proof.
  intros Hx. pose proof (zlookup_Some_range _ _ _ Hx) as Hr. apply zlist_eq; [by rewrite zlen_zinsert|].
  intros j Hj. rewrite zlookup_zinsert by done. case_bool_decide; by subst.
Qed.

Lemma shootdowns_spec (n : nat) i l ms k :
  0 <= i -> Z.of_nat n = zlen ms -> (forall j, 0 <= j < zlen ms -> zlookup l (i + j) = zlookup ms j) ->
  returns (shootdowns n i l k) (fun acts k' => acts = map Flush_one ms /\ k' = k).
Proof.
  revert i ms. induction n as [|n IH]; intros i ms Hi Hn Hl; cbn [shootdowns]; destruct ms as [|m ms].
  - by runs_steps.
  - rewrite zlen_cons in Hn. pose proof (zlen_nonneg ms). lia.
  - unfold zlen in Hn. simpl in Hn. lia.
  - rewrite zlen_cons in *. pose proof (zlen_nonneg ms). runs_steps.
    eapply runs_of_option; [rewrite <- (Z.add_0_r i), Hl by lia; done|]. runs_steps.
    eapply runs_mono; [eapply (IH (i + 1) ms); [lia|lia|]| |done].
    + intros j Hj. rewrite <- Z.add_assoc, Hl by lia. change (m :: ms) with ([m] ++ ms).
      rewrite zlookup_app_r by (change (zlen [m]) with 1; lia). f_equal. change (zlen [m]) with 1. lia.
    + intros acts k' [-> ->]. by runs_steps.
Qed.

(** What the interrupt flushes. *)
Definition flushes (k : kernel) (d : Z) (acts : list tlb_action) : Prop :=
  (exists ms, posted k d ms /\ acts = map Flush_one ms) \/ (posted_all k d /\ acts = [Flush_all]).

Lemma interrupt_spec k ls c s acts :
  kinv k ls 0 0 c s ∅ -> flushes k c acts ->
  returns (interprocessor_interrupt k) (fun r k' => r = acts /\ kinv k' ls 0 0 c s ∅ /\ same_cpu k k').
Proof.
  intros Hk Hf. unfold interprocessor_interrupt. runs_steps. eapply runs_cur; [done|]. runs_steps.
  assert (exists c0, zlookup (cpus k) c = Some c0 /\
    Z.testbit (c_ipi_pending c0) IPI_PANIC = false /\ Z.testbit (c_ipi_pending c0) IPI_OFFLINE = false /\
    forall k, returns ((if c_numshootdown c0 =? TLBSHOOTDOWN_ALL then ret [Flush_all]
       else shootdowns (Z.to_nat (c_numshootdown c0)) 0 (c_shootdown c0)) k)
       (fun r k' => r = acts /\ k' = k) /\ (Z.testbit (c_ipi_pending c0) IPI_TLBSHOOTDOWN = false -> acts = []))
    as (c0 & Hc & Hp & Ho & Hacts).
  { destruct Hf as [(ms & (c0 & Hd & Hn & Hlen & Hms & Hp & Ho & Ht) & ->)|[(c0 & Hd & Hn & Hp & Ho & Ht) ->]];
      exists c0; (split_and!; [done..|]); intros k0; rewrite Hn.
    - pose proof (zlen_nonneg ms). rewrite (proj2 (Z.eqb_neq _ _)) by (unfold TLBSHOOTDOWN_ALL; lia). split.
      + apply shootdowns_spec; [lia|lia|]. intros j Hj. apply Hms. lia.
      + intros Hb. destruct ms; [done|]. rewrite Ht in Hb; done.
    - split; [by runs_steps|]. intros Hb. congruence. }
  pose proof (zlookup_Some_range _ _ _ Hc) as Hr.
  destruct (lk_cpu _ _ _ _ (kv_lks _ _ _ _ _ _ _ Hk) c Hr) as [_ Hip].
  eapply runs_acq; [done|done|set_solver|]. intros il1 lk1 Hk1. rewrite union_empty_r_L in Hk1. runs_steps.
  eapply runs_get_cpu; [done|]. rewrite Hp, Ho. runs_steps.
  eapply runs_mono with (Q := fun r k' => r = acts /\ exists c1, k' = set_cpus (zinsert (cpus k) c c1) (set_il il1 lk1 k) /\
    c_curthread c1 = c_curthread c0 /\ c_isidle c1 = c_isidle c0).
  { destruct (Z.testbit (c_ipi_pending c0) IPI_TLBSHOOTDOWN).
    - runs_steps. eapply runs_mono; [apply Hacts| |done]. intros r k' [-> ->]. runs_steps.
      eapply runs_upd_cpu; [done|]. runs_steps. split; [done|]. eexists. by split_and!.
    - runs_steps. split; [symmetry; by apply (Hacts k)|]. exists c0. split_and!; try done.
      rewrite (zinsert_id (cpus k) c c0 Hc). by destruct k. }
  2: done.
  intros r k2 (-> & c1 & -> & H1 & H2). runs_steps.
  eapply runs_upd_cpu; [by apply zlookup_zinsert_eq|]. runs_steps. simpl. rewrite zinsert_zinsert.
  pose proof (kinv_cpu_same _ _ _ _ _ _ _ c c0 (set_ipi_pending 0 c1) Hk1 Hc H1 H2) as Hk3.
  eapply runs_rel; [exact Hk3| |set_solver|].
  { destruct (lk_cpu _ _ _ _ (kv_lks _ _ _ _ _ _ _ Hk3) c) as [_ ?]; [|done]. simpl. by rewrite zlen_zinsert. }
  intros il4 lk4 Hk4. rewrite difference_diag_L in Hk4. runs_steps. split_and!; try done.
  split; [done|]. by eapply cp_same_insert.
Qed.

Lemma flushes_range k d acts : flushes k d acts -> 0 <= d < zlen (cpus k).
Proof. intros [(? & (? & Hd & _) & _)|[(? & Hd & _) _]]; by eapply zlookup_Some_range. Qed.

Lemma flushes_cpus k k' d acts : cpus k' = cpus k -> flushes k d acts -> flushes k' d acts.
Proof. unfold flushes, posted, posted_all. by intros ->. Qed.

Lemma ms_split (ms : list Z) : TLBSHOOTDOWN_MAX + 1 < zlen ms ->
  exists ms1 m ms2, ms = ms1 ++ m :: ms2 /\ zlen ms1 = TLBSHOOTDOWN_MAX + 1.
Proof.
  intros Hl. destruct (zlookup_is_Some ms (TLBSHOOTDOWN_MAX + 1)) as [m Hm]; [split; [done|lia]|].
  unfold zlookup in Hm. rewrite bool_decide_true in Hm by done.
  exists (take 17 ms), m, (drop 18 ms). split; [symmetry; by apply (take_drop_middle ms 17)|].
  unfold zlen, TLBSHOOTDOWN_MAX in *. rewrite length_take. lia.
Qed.

Lemma post_all_flushes k ls c s d ms :
  kinv k ls 0 0 c s ∅ -> posted k d [] -> zlen ms <= TLBSHOOTDOWN_MAX + 1 ->
  returns (post_all d ms k) (fun _ k' => kinv k' ls 0 0 c s ∅ /\ same_cpu k k' /\
    flushes k' d (if zlen ms <=? TLBSHOOTDOWN_MAX then map Flush_one ms else [Flush_all])).
Proof.
  intros Hk Hp Hlen. destruct (Z.leb_spec (zlen ms) TLBSHOOTDOWN_MAX).
  - eapply runs_mono; [by eapply (post_all_room k ls c s d [] ms)| |done].
    intros [] k' (? & ? & ?). split_and!; [done..|]. left. by exists ms.
  - destruct ms as [|m ms1 _] using rev_ind; [done|].
    rewrite zlen_app in *. change (zlen [m]) with 1 in *. rewrite post_all_app. runs_steps.
    eapply runs_mono; [eapply (post_all_room k ls c s d [] ms1); try done; change (zlen []) with 0; lia| |done].
    intros [] k1 (Hk1 & Hs1 & Hp1). cbn [post_all]. runs_steps.
    eapply runs_mono; [eapply (post_full k1 ls c s d ms1 m); try done; lia| |done].
    intros [] k2 (Hk2 & Hs2 & Hp2). runs_steps. split_and!; [done|by etrans|by right].
Qed.

(** TLB shootdown requests are delivered.  Requests [ms] posted
    to processor [d] are served by its next interprocessor interrupt, each once
    and in order; one more than [TLBSHOOTDOWN_MAX] becomes a flush of the whole
    TLB.  But the request after that indexes [c_shootdown] with the marker
    [TLBSHOOTDOWN_ALL], -1, and writes outside the array. *)
Theorem tlbshootdown_delivery k ls c s d ms :
  quiet k ls c s -> posted k d [] ->
  (zlen ms <= TLBSHOOTDOWN_MAX + 1 ->
   returns ((post_all d ms ;; do_kop (KCpu d) ;; interprocessor_interrupt) k) (fun acts k' =>
     acts = (if zlen ms <=? TLBSHOOTDOWN_MAX then map Flush_one ms else [Flush_all]) /\
     exists s', kinv k' ls 0 0 d s' ∅)) /\
  (TLBSHOOTDOWN_MAX + 1 < zlen ms -> post_all d ms k = Crash Wild).
Proof.
  intros Hq Hp. pose proof Hq as (Hk & _). split.
  - intros Hlen. runs_steps. eapply runs_mono; [by eapply post_all_flushes| |done].
    intros [] k1 (Hk1 & Hs1 & Hf1). runs_steps.
    assert (quiet k1 ls c s) as Hq1 by (by eapply quiet_same; [| |apply Hq|apply Hs1|apply Hs1]).
    eapply runs_mono; [eapply (focus_ok k1 ls c s d Hq1); by eapply flushes_range| |done].
    intros [] k2 (Hcp & s' & Hk2 & _).
    eapply runs_mono; [eapply (interrupt_spec k2 ls d s' _ Hk2); by eapply flushes_cpus| |done].
    intros acts k3 (-> & Hk3 & _). eauto.
  - intros Hlen. destruct (ms_split ms) as (ms1 & m & ms2 & -> & Hlen1); [lia|]. rewrite post_all_app.
    apply bind_crash. eapply runs_mono; [eapply (post_all_flushes k ls c s d ms1); try done; lia| |done].
    intros [] k1 (Hk1 & _ & Hf1). rewrite (proj2 (Z.leb_gt _ _)) in Hf1 by lia. cbn [post_all].
    unfold bind. erewrite post_again; [done|done|].
    destruct Hf1 as [(ms0 & _ & E)|[? _]]; [by destruct ms0 as [|? [|??]]|done].
Qed.
End Thm.

(** ** A kernel with two processors

    Threads 1 and 2 run on processors 0 and 1, threads 3 and 4 are ready on
    processor 0, and 5 and 6 sleep on channel 0. *)
Definition listed (h : heap) (ls : gmap listid (list Z)) (L : list Z) : Prop :=
  tl_rep h ls /\ forall t, tl_live h t <-> t ∈ L.

Lemma listed_node h ls L t (Q : unit -> heap -> Prop) :
  listed h ls L -> bool_decide (t <> 0 /\ t ∉ L) = true -> (forall h', listed h' ls (t :: L) -> Q tt h') ->
  returns (tl_node_init t h) Q.
Proof.
  intros [Hr Hl] [Ht Hn]%bool_decide_eq_true HQ.
  eapply runs_mono; [apply (tl_node_init_ok h ls t Hr Ht); by rewrite Hl| |done].
  intros [] h' [Hr' Hl']. apply HQ. split; [done|]. intros t'. rewrite Hl', Hl. set_solver.
Qed.

Lemma listed_init h ls L l (Q : unit -> heap -> Prop) :
  listed h ls L -> ls !! l = None -> (forall h', listed h' (<[l := []]> ls) L -> Q tt h') ->
  returns (tl_init l h) Q.
Proof.
  intros [Hr Hl] Hn HQ. eapply runs_mono; [by apply (tl_init_ok h ls l Hr)| |done].
  intros [] h' [Hr' Hl']. apply HQ. split; [done|]. intros t'. by rewrite Hl', Hl.
Qed.

Lemma listed_add h ls L l ts t (Q : unit -> heap -> Prop) :
  listed h ls L -> ls !! l = Some ts -> bool_decide (t ∈ L) = true ->
  bool_decide (map_Forall (fun _ ts => t ∉ ts) ls) = true -> zlen ts + 1 < 2 ^ 32 ->
  (forall h', listed h' (<[l := ts ++ [t]]> ls) L -> Q tt h') ->
  returns (tl_addtail l t h) Q.
Proof.
  intros [Hr Hl] Hn HL%bool_decide_eq_true Hoff%bool_decide_eq_true Hlen HQ.
  eapply runs_mono; [apply (tl_addtail_ok h ls l ts t Hr); try done; by apply Hl| |done].
  intros [] h' [Hr' Hl']. apply HQ. split; [done|]. intros t'. by rewrite Hl', Hl.
Qed.

Definition boot_prog : M heap unit :=
  tl_node_init 1 ;; tl_node_init 2 ;; tl_node_init 3 ;; tl_node_init 4 ;; tl_node_init 5 ;; tl_node_init 6 ;;
  tl_init (RunQ 0) ;; tl_init (RunQ 1) ;; tl_init (Zombies 0) ;; tl_init (Zombies 1) ;; tl_init (WaitQ 0) ;;
  tl_addtail (RunQ 0) 3 ;; tl_addtail (RunQ 0) 4 ;; tl_addtail (WaitQ 0) 5 ;; tl_addtail (WaitQ 0) 6.

Definition boot_ls : gmap listid (list Z) :=
  <[RunQ 0 := [3; 4]]> (<[RunQ 1 := []]> (<[Zombies 0 := []]> (<[Zombies 1 := []]> {[WaitQ 0 := [5; 6]]}))).

Definition boot_heap : heap := after boot_prog empty_heap.

Lemma boot_listed : listed boot_heap boot_ls [6; 5; 4; 3; 2; 1].
Proof.
  unfold boot_heap. apply (returns_after boot_prog empty_heap (fun h => listed h boot_ls [6; 5; 4; 3; 2; 1])).
  assert (listed empty_heap ∅ []) as H0.
  { split; [apply empty_rep|]. intros t. simpl. unfold is_thread. split; [|by intros ?%elem_of_nil]. by intros [? ?]. }
  unfold boot_prog. do 6 (runs_steps; eapply listed_node; [eassumption|reflexivity|]; clear H0; intros ? H0).
  do 5 (runs_steps; eapply listed_init; [eassumption|reflexivity|]; clear H0; intros ? H0).
  do 4 (runs_steps; eapply listed_add; [eassumption|reflexivity|reflexivity|reflexivity|done|]; clear H0; intros ? H0).
  match goal with H : listed _ ?l _ |- _ => replace boot_ls with l by reflexivity; exact H end.
Qed.

(** Case analysis on membership in concrete maps and lists. *)
Ltac map_cases :=
  repeat match goal with
    | H : <[_ := _]> _ !! _ = Some _ |- _ => apply lookup_insert_Some in H as [[? ?]|[_ H]]; subst
    | H : {[_ := _]} !! _ = Some _ |- _ => apply lookup_singleton_Some in H as [? ?]; subst
    | H : ∅ !! _ = Some _ |- _ => rewrite lookup_empty in H; discriminate H
    | H : _ ∈ _ :: _ |- _ => apply elem_of_cons in H as [?|H]; subst
    | H : _ ∈ [] |- _ => apply elem_of_nil in H; destruct H
    | H : _ = _ :> listid |- _ => injection H as H; subst
    end; simplify_eq.

Definition boot_thread (st : threadstate) (cx : context) (c : Z) : thread :=
  mkThread st (Some (zsplice (zrep STACK_WORDS 0) 0 (zrep 4 THREAD_STACK_MAGIC))) cx c 1 false.

Definition boot : @Sched.kernel heap := mkKernel boot_heap
  (list_to_map [(1, boot_thread S_RUN Startup 0); (2, boot_thread S_RUN Startup 1);
     (3, boot_thread S_READY (Resume IPL_NONE) 0); (4, boot_thread S_READY Startup 0);
     (5, boot_thread S_SLEEP (Resume IPL_NONE) 0); (6, boot_thread S_SLEEP (Resume IPL_HIGH) 1)])
  (list_to_map [(1, lvl IPL_NONE 0); (2, lvl IPL_NONE 0); (3, lvl IPL_HIGH 1); (4, lvl IPL_HIGH 1);
     (5, lvl IPL_HIGH 1); (6, lvl IPL_HIGH 1)])
  (list_to_map [(LRunq 0, free); (LRunq 1, free); (LIpi 0, free); (LIpi 1, free); (LWchan 0, free); (LProc 1, free)])
  [mkCpu 1 0 false 0 (zrep TLBSHOOTDOWN_MAX 0) 0; mkCpu 2 0 false 0 (zrep TLBSHOOTDOWN_MAX 0) 0]
  {[1 := [1; 2; 3; 4; 5; 6]]} 1 7 [].

Lemma boot_core : core boot_heap (threads boot) (cpus boot) (procs boot) 7 boot_ls 0.
Proof.
  destruct boot_listed as [Hrep Hlive].
  assert (forall d c0, zlookup (cpus boot) d = Some c0 -> (d = 0 \/ d = 1)) as Hd.
  { intros d c0 Hz%zlookup_Some_range. change (zlen (cpus boot)) with 2 in Hz. lia. }
  split; try done.
  - intros c Hc. change (zlen (cpus boot)) with 2 in Hc. assert (c = 0 \/ c = 1) as [-> | ->] by lia; by split; eauto.
  - intros t [t0 Ht]. apply Hlive. simpl in Ht. map_cases; set_solver.
  - intros t Ht%Hlive. map_cases; lia.
  - intros l ts t Hl Ht. unfold boot_ls in Hl. map_cases; eexists; (split; [reflexivity|]); intros _; simpl;
      unfold runnable; simpl; auto.
  - intros t t0 Ht _ Ho. simpl in Ht. map_cases; try by (split; [done|]; eexists; split_and!).
    all: exfalso; (apply (Ho (RunQ 0) [3; 4] eq_refl); by repeat constructor) ||
      (apply (Ho (WaitQ 0) [5; 6] eq_refl); by repeat constructor).
  - intros d c0 Hz. destruct (Hd _ _ Hz) as [-> | ->]; injection Hz as <-; eexists; by split_and!.
  - intros t t0 Ht _. simpl in Ht. map_cases; split_and!; try done; simpl; try (by left); by right.
  - intros t t0 Ht _ Hp. simpl in Ht. exists [1; 2; 3; 4; 5; 6]. map_cases; (split; [done|set_solver]).
Qed.

Lemma boot_quiet : quiet boot boot_ls 0 IPL_NONE.
Proof.
  split_and!.
  - split; [| apply boot_core | |].
    + split; [by eexists|done|by left|]. intros l v Hl. simpl in Hl. map_cases; done.
    + intros t [t0 Ht] Hn _. simpl in Ht. map_cases; try done; eexists; (split; [reflexivity|]).
      1: { left. exists 1. eexists. split_and!; try done. simpl. exists IPL_NONE. split; [by left|done]. }
      all: right; split; [|done]; intros d c0 Hz; pose proof (zlookup_Some_range _ _ _ Hz) as Hr;
        change (zlen (cpus boot)) with 2 in Hr; assert (d = 0 \/ d = 1) as [-> | ->] by lia; injection Hz as <-; done.
    + split.
      * intros c Hc. change (zlen (cpus boot)) with 2 in Hc. assert (c = 0 \/ c = 1) as [-> | ->] by lia; by split; eauto.
      * intros w. split; intros [v Hv]; simpl in Hv; unfold boot_ls in Hv; map_cases; eauto.
      * intros p. split; intros [v Hv]; simpl in Hv; map_cases; eauto.
  - intros n. done.
  - by eexists.
  - intros (c0 & Hc & _ & Hi). injection Hc as <-. done.
Qed.

Lemma sched_safe_witness :
  let k' := after (do_kop (KSleep 0)) (after (do_kop KYield) boot) in
  sched_ok k' /\ curthread k' = 4 /\ do_kop KHardclock k' <> Crash Panicked.
Proof.
  assert (sched_ok boot) as Hok by (exists boot_ls, 0, IPL_NONE; apply boot_quiet).
  set (k1 := after (do_kop KYield) boot). set (k2 := after (do_kop (KSleep 0)) k1).
  assert (is_ret (do_kop KYield boot) = true) as Hy by (vm_compute; reflexivity).
  assert (is_ret (do_kop (KSleep 0) k1) = true) as Hs by (vm_compute; reflexivity).
  destruct (sched_safe boot k2 Hok) as (Hk2 & _ & _ & Hc).
  { apply (rtc_l _ _ k1).
    - exact (kstep_ret KYield boot k1 I (ret_after _ _ Hy)).
    - apply rtc_once, (fun H => kstep_ret (KSleep 0) k1 k2 H (ret_after _ _ Hs)).
      split_and!; [vm_compute; reflexivity| |vm_compute; reflexivity]. vm_compute; eauto. }
  split_and!; [exact Hk2|vm_compute; reflexivity|exact (Hc KHardclock Panicked I)].
Defined.

Lemma yield_round_robin_witness :
  returns (thread_yield boot) (fun r k' => exists ls' s', r = Switched /\ curthread k' = 3 /\
    quiet k' ls' 0 s' /\ ls' !! RunQ 0 = Some [4; 1] /\
    (forall l, l <> RunQ 0 -> l <> Zombies 0 -> ls' !! l = boot_ls !! l) /\ procs k' = procs boot).
Proof. exact (yield_round_robin boot boot_ls 0 IPL_NONE 3 [4] boot_quiet eq_refl eq_refl). Defined.

Lemma wchan_wakeup_witness :
  returns (wchan_wakeone 0 boot) (fun _ k' => exists ls' q, quiet k' ls' 0 IPL_NONE /\ threads k' = threads boot /\
    boot_ls !! RunQ 0 = Some q /\ ls' = <[RunQ 0 := q ++ [5]]> (<[WaitQ 0 := [6]]> boot_ls)) /\
  returns (wchan_wakeall 0 boot) (fun _ k' => exists ls', quiet k' ls' 0 IPL_NONE /\
    ls' !! RunQ 0 = Some [3; 4; 5] /\ ls' !! RunQ 1 = Some [6]).
Proof.
  destruct (wchan_wakeup boot boot_ls 0 IPL_NONE 0 5 [6] (boot_thread S_SLEEP (Resume IPL_NONE) 0)
              boot_quiet eq_refl eq_refl) as [H1 H2].
  split; [exact H1|]. eapply runs_mono; [exact H2| |done].
  intros [] k' (ls' & Hq & _ & _ & Hr & _). exists ls'. split_and!; [exact Hq|exact (Hr 0 _ eq_refl)|exact (Hr 1 _ eq_refl)].
Defined.

Lemma exit_reaped_witness :
  returns (thread_exit 1 boot) (fun r k' => exists ls' s', quiet k' ls' 0 s' /\ r = Switched /\ curthread k' = 3 /\
    ls' !! RunQ 0 = Some [4] /\ ls' !! Zombies 0 = Some [] /\
    (forall z, z = 1 \/ z ∈ [] -> threads k' !! z = None)).
Proof.
  apply (exit_reaped boot boot_ls 0 IPL_NONE 1 [3; 4] [] (boot_thread S_RUN Startup 0) boot_quiet);
    [reflexivity|lia|reflexivity|by left|reflexivity|reflexivity].
Defined.

Lemma fork_child_witness :
  runs (thread_fork 0 boot)
    (fun _ k' => exists ls', quiet k' ls' 0 IPL_NONE /\ ls' = <[RunQ 0 := [3; 4; 7]]> boot_ls /\
       threads boot !! 7 = None /\ threads k' = <[7 := child 0 1]> (threads boot) /\
       procs k' = <[1 := [1; 2; 3; 4; 5; 6; 7]]> (procs boot))
    (fun e k' => e = ENOMEM /\ quiet k' boot_ls 0 IPL_NONE /\ threads k' = threads boot /\ procs k' = procs boot).
Proof.
  apply (fork_child boot boot_ls 0 IPL_NONE 0 [3; 4] (boot_thread S_RUN Startup 0) [1; 2; 3; 4; 5; 6] boot_quiet);
    reflexivity.
Defined.

Lemma migration_balances_witness :
  fair_share boot boot_ls = 1 /\
  returns (thread_consider_migration boot) (fun _ k' => exists ls',
    quiet k' ls' 0 IPL_NONE /\ migrated boot k' boot_ls ls' 0 1) /\
  t_cpu <$> threads (after thread_consider_migration boot) !! 4 = Some 1.
Proof.
  split_and!; [reflexivity|exact (migration_balances boot boot_ls 0 IPL_NONE boot_quiet)|vm_compute; reflexivity].
Defined.

Lemma tlbshootdown_delivery_witness :
  returns ((post_all 1 [10; 20] ;; do_kop (KCpu 1) ;; interprocessor_interrupt) boot)
    (fun acts k' => acts = [Flush_one 10; Flush_one 20] /\ exists s', kinv k' boot_ls 0 0 1 s' ∅) /\
  post_all 1 (zrep 18 10) boot = Crash Wild.
Proof.
  assert (posted boot 1 []) as Hp.
  { eexists. split_and!; try done. intros i Hi. change (zlen []) with 0 in Hi.
    rewrite !(proj2 (zlookup_None _ _)); [done|left; lia|left; lia]. }
  split.
  - exact (proj1 (tlbshootdown_delivery boot boot_ls 0 IPL_NONE 1 [10; 20] boot_quiet Hp) ltac:(vm_compute; discriminate)).
  - exact (proj2 (tlbshootdown_delivery boot boot_ls 0 IPL_NONE 1 (zrep 18 10) boot_quiet Hp) ltac:(vm_compute; reflexivity)).
Defined.
End SchedThm.
