(* ===== verification/Synch.v ===== *)
(** * Semaphores, locks and condition variables: src/thread/synch.c

    A thread in [P], [V], [lock_acquire] or [lock_release] is a program counter
    [pc], and [exec] what it does from one spinlock operation to the next, so
    that threads interleave as finely as the spinlocks let them.  The two
    waiting loops have the same shape; they differ in the [Resource] the
    spinlock protects, a count or a holder.  [Cv] interleaves condition
    variables over locks that are atomic. *)

From S2P Require Import Prelude.

Module Synch.

(** What a thread may do with the resource under its spinlock: take it
    ([None]: it must wait), or give it back, which may also do nothing
    ([Ignored], no one is woken) or fail an assertion ([Died]). *)
Inductive given (R : Type) := Given (r : R) | Ignored | Died.
Arguments Given {R} r.
Arguments Ignored {R}.
Arguments Died {R}.

Class Resource (R : Type) := {
  take : Z -> R -> option R;
  give : Z -> R -> given R;
  r_ok : R -> Prop;
  (** how often it can be taken before someone must wait *)
  avail : R -> nat;
  take_none t r : r_ok r -> take t r = None -> avail r = 0%nat;
  take_some t r r' : r_ok r -> take t r = Some r' -> r_ok r' /\ avail r = S (avail r');
  give_some t r r' : r_ok r -> give t r = Given r' -> r_ok r' /\ avail r' = S (avail r) }.

(** [struct semaphore]: the count, an [int]. *)
Definition sem_take (t : Z) (sem_count : Z) : option Z := if sem_count =? 0 then None else Some (sem_count - 1).
Definition sem_give (t : Z) (sem_count : Z) : given Z :=
  let sem_count := s32 (sem_count + 1) in
  if 0 <? sem_count then Given sem_count else Died.

(** [struct lock]: the holder ([held] is set along with it and never read). *)
Definition lock_do_i_hold (t : Z) (holder : option Z) : bool := bool_decide (holder = Some t).
Definition lock_take (t : Z) (holder : option Z) : option (option Z) :=
  match holder with Some _ => None | None => Some (Some t) end.
Definition lock_give (t : Z) (holder : option Z) : given (option Z) :=
  if lock_do_i_hold t holder then Given None else Ignored.

(** Where a thread is: [A]... in [P] or [lock_acquire], [woken] after it has
    slept, [R]... in [V] or [lock_release]. *)
Inductive pc :=
  | Idle
  | AAcquire (woken : bool)   (** before [spinlock_acquire(&sem_lock)] *)
  | ATest (woken : bool)      (** before the test of the loop *)
  | AWchanLock                (** before [wchan_lock] *)
  | ARelease                  (** before [spinlock_release] in the loop *)
  | ASleep                    (** before [wchan_sleep] *)
  | AAsleep                   (** on the channel, or removed and not yet runnable *)
  | AExit                     (** before the last [spinlock_release] *)
  | RAcquire                  (** before [spinlock_acquire] *)
  | RGive                     (** before the resource is given back *)
  | RWchanLock                (** in [wchan_wakeone], before its [spinlock_acquire] *)
  | RRemhead                  (** before [threadlist_remhead] *)
  | RWchanUnlock (target : option Z)
  | RRunnable (target : option Z)  (** before [thread_make_runnable] *)
  | RExit                     (** before the last [spinlock_release] *)
  | Dead.                     (** the assertion after [sem_count++] failed *)

#[export] Instance pc_eq : EqDecision pc.
Proof. solve_decision. Defined.

Inductive event := Took (t : Z) | Gave (t : Z).

Section Machine.
Context {R : Type} `{!Resource R}.

(** The resource with its spinlock, the wait channel with its own, and the
    record of what was taken and given, the latest first. *)
Record shared := mkShared {
  res : R; sem_lock : option Z; wc_lock : option Z; wc_threads : list Z; log : list event }.

Definition put_lock (x : option Z) (s : shared) := mkShared (res s) x (wc_lock s) (wc_threads s) (log s).
Definition put_wc (x : option Z) (s : shared) := mkShared (res s) (sem_lock s) x (wc_threads s) (log s).
Definition put_threads (x : list Z) (s : shared) := mkShared (res s) (sem_lock s) (wc_lock s) x (log s).
Definition put_res (x : R) (e : event) (s : shared) := mkShared x (sem_lock s) (wc_lock s) (wc_threads s) (e :: log s).

(** One step of thread [t]: the new state, the thread's next point, and a
    thread made runnable.  [None]: it spins on a lock, sleeps or is done. *)
Definition exec (t : Z) (p : pc) (s : shared) : option (shared * pc * option Z) :=
  match p with
  | Idle | AAsleep | Dead => None
  | AAcquire w => match sem_lock s with Some _ => None | None => Some (put_lock (Some t) s, ATest w, None) end
  | ATest _ =>
      match take t (res s) with
      | None => Some (s, AWchanLock, None)
      | Some r => Some (put_res r (Took t) s, AExit, None)
      end
  | AWchanLock => match wc_lock s with Some _ => None | None => Some (put_wc (Some t) s, ARelease, None) end
  | ARelease => Some (put_lock None s, ASleep, None)
  | ASleep => Some (put_threads (wc_threads s ++ [t]) (put_wc None s), AAsleep, None)
  | AExit => Some (put_lock None s, Idle, None)
  | RAcquire => match sem_lock s with Some _ => None | None => Some (put_lock (Some t) s, RGive, None) end
  | RGive =>
      match give t (res s) with
      | Given r => Some (put_res r (Gave t) s, RWchanLock, None)
      | Ignored => Some (s, RExit, None)
      | Died => Some (s, Dead, None)
      end
  | RWchanLock => match wc_lock s with Some _ => None | None => Some (put_wc (Some t) s, RRemhead, None) end
  | RRemhead =>
      match wc_threads s with
      | [] => Some (s, RWchanUnlock None, None)
      | x :: l => Some (put_threads l s, RWchanUnlock (Some x), None)
      end
  | RWchanUnlock x => Some (put_wc None s, RRunnable x, None)
  | RRunnable x => Some (s, RExit, x)
  | RExit => Some (put_lock None s, Idle, None)
  end.

(** The threads; a thread is its index. *)
Definition run (target : option Z) (ps : list pc) : list pc :=
  match target with None => ps | Some x => zinsert ps x (AAcquire true) end.

Record world := mkWorld { w_shared : shared; w_pcs : list pc }.

Inductive step : world -> world -> Prop :=
  | step_exec s ps t p s' p' x :
      zlookup ps t = Some p -> exec t p s = Some (s', p', x) ->
      step (mkWorld s ps) (mkWorld s' (run x (zinsert ps t p')))
  | step_acquire s ps t :
      zlookup ps t = Some Idle -> step (mkWorld s ps) (mkWorld s (zinsert ps t (AAcquire false)))
  | step_release s ps t :
      zlookup ps t = Some Idle -> step (mkWorld s ps) (mkWorld s (zinsert ps t RAcquire)).

Definition start (r : R) (n : Z) : world := mkWorld (mkShared r None None [] []) (zrep n Idle).
Definition reachable (r : R) (n : Z) : world -> Prop := rtc step (start r n).

(** ** The invariant *)

(** The spinlocks a thread holds. *)
Definition has_lock (p : pc) : bool :=
  match p with
  | ATest _ | AWchanLock | ARelease | AExit | RGive | RWchanLock | RRemhead | RWchanUnlock _ | RRunnable _ | RExit | Dead => true
  | _ => false
  end.
Definition has_wc (p : pc) : bool :=
  match p with ARelease | ASleep | RRemhead | RWchanUnlock _ => true | _ => false end.

(** A wakeup on its way: someone will wake a thread, or a thread woken has not
    looked yet. *)
Definition pending (p : pc) : nat :=
  match p with
  | RWchanLock | RRemhead | RWchanUnlock (Some _) | RRunnable (Some _) | AAcquire true | ATest true => 1
  | _ => 0
  end.
Definition pendings (ps : list pc) : nat := sum_list (pending <$> ps).

(** About to sleep, having seen that the resource is taken. *)
Definition committed (p : pc) : bool := match p with AWchanLock | ARelease | ASleep => true | _ => false end.

(** The thread another one is waking. *)
Definition target_of (p : pc) : option Z := match p with RWchanUnlock x | RRunnable x => x | _ => None end.

Record world_ok (w : world) : Prop := {
  wo_res : r_ok (res (w_shared w));
  wo_lock : forall t p, zlookup (w_pcs w) t = Some p -> has_lock p = true -> sem_lock (w_shared w) = Some t;
  wo_wc : forall t p, zlookup (w_pcs w) t = Some p -> has_wc p = true -> wc_lock (w_shared w) = Some t;
  wo_asleep : forall x, x ∈ wc_threads (w_shared w) -> zlookup (w_pcs w) x = Some AAsleep;
  wo_target : forall t p x, zlookup (w_pcs w) t = Some p -> target_of p = Some x ->
    zlookup (w_pcs w) x = Some AAsleep /\ x ∉ wc_threads (w_shared w);
  wo_nodup : NoDup (wc_threads (w_shared w));
  wo_holder : forall t, sem_lock (w_shared w) = Some t -> exists p, zlookup (w_pcs w) t = Some p /\ has_lock p = true;
  wo_wholder : forall t, wc_lock (w_shared w) = Some t -> exists p, zlookup (w_pcs w) t = Some p /\ has_wc p = true;
  wo_where : forall x, zlookup (w_pcs w) x = Some AAsleep ->
    x ∈ wc_threads (w_shared w) \/ exists t p, zlookup (w_pcs w) t = Some p /\ target_of p = Some x;
  wo_wakeup : (wc_threads (w_shared w) <> [] \/ exists t p, zlookup (w_pcs w) t = Some p /\ committed p = true) ->
    (avail (res (w_shared w)) <= pendings (w_pcs w))%nat }.

Implicit Types (s : shared) (ps : list pc).

Lemma run_lookup_eq x ps t p' k : 0 <= t < zlen ps -> (forall y, x = Some y -> 0 <= y < zlen ps) ->
  zlookup (run x (zinsert ps t p')) k =
    if decide (x = Some k) then Some (AAcquire true) else if decide (k = t) then Some p' else zlookup ps k.
Proof.
  intros Hr Hx. assert (zlookup (zinsert ps t p') k = if decide (k = t) then Some p' else zlookup ps k) as Hone.
  { rewrite zlookup_zinsert by done. case_decide; bool_case; congruence || done. }
  destruct x as [y|]; simpl; [|done]. rewrite zlookup_zinsert by (rewrite zlen_zinsert; by apply Hx).
  rewrite Hone. bool_case; [by rewrite (decide_True (P := Some y = Some k)) by congruence|].
  by rewrite (decide_False (P := Some y = Some k)) by congruence.
Qed.

Lemma pendings_insert ps t p p' : zlookup ps t = Some p ->
  (pendings (zinsert ps t p') + pending p = pendings ps + pending p')%nat.
Proof.
  intros Ht. pose proof (zlookup_Some_range _ _ _ Ht) as Hr. unfold zlookup in Ht. unfold zinsert.
  rewrite bool_decide_true in Ht |- * by lia. unfold pendings. revert Ht. generalize (Z.to_nat t). clear. intros i. revert i.
  induction ps as [|q ps IH]; intros [|i] Hi; simplify_eq/=; [lia|]. specialize (IH i Hi). lia.
Qed.

Section Step.
Context (w : world) (Hw : world_ok w) (t : Z) (p : pc) (s' : shared) (p' : pc) (x : option Z).
Context (Ht : zlookup (w_pcs w) t = Some p) (He : exec t p (w_shared w) = Some (s', p', x)).

Lemma t_range : 0 <= t < zlen (w_pcs w).
Proof. by eapply zlookup_Some_range. Qed.

(** The thread made runnable was asleep, and is not the one that runs. *)
Lemma woken y : x = Some y -> p = RRunnable (Some y) /\ zlookup (w_pcs w) y = Some AAsleep /\ (y ∉ wc_threads (w_shared w)) /\ y <> t.
Proof.
  intros ->. assert (p = RRunnable (Some y)) as ->. { destruct p; simpl in He; repeat case_match; simplify_eq; done. }
  destruct (wo_target _ Hw t _ y Ht eq_refl) as [Hy Hn]. split_and!; [done|done|done|]. intros ->. congruence.
Qed.

Lemma woken_range y : x = Some y -> 0 <= y < zlen (w_pcs w).
Proof. intros (_ & Hy & _)%woken. by eapply zlookup_Some_range. Qed.


Lemma lookup_after k : zlookup (run x (zinsert (w_pcs w) t p')) k =
  if decide (x = Some k) then Some (AAcquire true) else if decide (k = t) then Some p' else zlookup (w_pcs w) k.
Proof. apply run_lookup_eq; [apply t_range|apply woken_range]. Qed.

(** A thread after the step. *)
Lemma after_step k q : zlookup (run x (zinsert (w_pcs w) t p')) k = Some q ->
  x = Some k /\ q = AAcquire true \/ x <> Some k /\ (k = t /\ q = p' \/ k <> t /\ zlookup (w_pcs w) k = Some q).
Proof.
  rewrite lookup_after. case_decide; [intros [= <-]; by left|]. case_decide; [intros [= <-]|]; right; split; auto.
Qed.

Ltac exec_cases := destruct p; simpl in He; repeat case_match; simplify_eq/=.

Lemma step_lock k q : zlookup (run x (zinsert (w_pcs w) t p')) k = Some q -> has_lock q = true -> sem_lock s' = Some k.
Proof.
  intros [[_ ->]|[_ [[-> ->]|[Hne Hk]]]]%after_step Hq; [done| |].
  - pose proof (wo_lock _ Hw t p Ht) as Hl. exec_cases; try done; by apply Hl.
  - pose proof (wo_lock _ Hw k q Hk Hq) as Hk'. pose proof (wo_lock _ Hw t p Ht) as Hl.
    assert (has_lock p = false) as Hn by (destruct (has_lock p); [specialize (Hl eq_refl); congruence|done]).
    exec_cases; try done; congruence.
Qed.

Lemma step_wc k q : zlookup (run x (zinsert (w_pcs w) t p')) k = Some q -> has_wc q = true -> wc_lock s' = Some k.
Proof.
  intros [[_ ->]|[_ [[-> ->]|[Hne Hk]]]]%after_step Hq; [done| |].
  - pose proof (wo_wc _ Hw t p Ht) as Hl. exec_cases; try done; by apply Hl.
  - pose proof (wo_wc _ Hw k q Hk Hq) as Hk'. pose proof (wo_wc _ Hw t p Ht) as Hl.
    assert (has_wc p = false) as Hn by (destruct (has_wc p); [specialize (Hl eq_refl); congruence|done]).
    exec_cases; try done; congruence.
Qed.

Lemma step_res : r_ok (res s').
Proof.
  pose proof (wo_res _ Hw) as Hr. exec_cases; try done.
  - by eapply take_some.
  - by eapply give_some.
Qed.


Lemma step_asleep y : y ∈ wc_threads s' -> zlookup (run x (zinsert (w_pcs w) t p')) y = Some AAsleep.
Proof.
  intros Hy. rewrite lookup_after. pose proof (wo_asleep _ Hw y) as Hold.
  assert (y ∈ wc_threads (w_shared w) \/ p = ASleep /\ y = t) as Hcase.
  { exec_cases; try (by left).
    - apply elem_of_app in Hy as [?|?%list_elem_of_singleton]; auto.
    - left. congruence.
    - left. by right. }
  destruct Hcase as [Hin|[-> ->]].
  - specialize (Hold Hin). rewrite decide_False by (intros (_ & _ & ? & _)%woken; done).
    rewrite decide_False; [done|]. intros ->. rewrite Ht in Hold. injection Hold as ->. done.
  - injection He as <- <- <-. by rewrite decide_False, decide_True.
Qed.

Lemma step_nodup : NoDup (wc_threads s').
Proof.
  pose proof (wo_nodup _ Hw) as Hnd. exec_cases; try done; try (by match goal with H : wc_threads _ = _ |- _ => rewrite H end).
  - apply NoDup_app. split_and!; [done| |apply NoDup_singleton]. intros y Hy ->%list_elem_of_singleton.
    rewrite (wo_asleep _ Hw _ Hy) in Ht. done.
  - by apply NoDup_cons in Hnd as [_ ?].
Qed.

Lemma step_target k q y : zlookup (run x (zinsert (w_pcs w) t p')) k = Some q -> target_of q = Some y ->
  zlookup (run x (zinsert (w_pcs w) t p')) y = Some AAsleep /\ (y ∉ wc_threads s').
Proof.
  intros [[_ ->]|[_ [[-> ->]|[Hne Hk]]]]%after_step Hq; [done| |]; rewrite lookup_after.
  - assert (x = None /\ y <> t /\ zlookup (w_pcs w) y = Some AAsleep /\ (y ∉ wc_threads s')) as (-> & Hyt & Hy & Hn).
    { pose proof (wo_target _ Hw t p y Ht) as Hold. pose proof (wo_nodup _ Hw) as Hnd. pose proof (wo_asleep _ Hw y) as Has.
      exec_cases; try done.
      - apply NoDup_cons in Hnd as [Hn _]. specialize (Has ltac:(by left)). split_and!; try done. congruence.
      - destruct (Hold eq_refl) as [Hy Hn]. split_and!; try done. congruence. }
    by rewrite !decide_False.
  - destruct (wo_target _ Hw k q y Hk Hq) as [Hy Hn].
    assert (sem_lock (w_shared w) = Some k) as Hl by (apply (wo_lock _ Hw k q Hk); by destruct q).
    assert (p = ASleep) as ->.
    { pose proof (wo_lock _ Hw t p Ht) as Hlt. exec_cases; try done; specialize (Hlt eq_refl); congruence. }
    injection He as <- <- <-. rewrite decide_False by done. assert (y <> t) as Hyt by congruence. rewrite decide_False by done.
    split; [done|]. simpl. rewrite elem_of_app, list_elem_of_singleton. tauto.
Qed.

Lemma step_holder k : sem_lock s' = Some k -> exists q, zlookup (run x (zinsert (w_pcs w) t p')) k = Some q /\ has_lock q = true.
Proof.
  intros Hk. assert (k = t /\ x <> Some t /\ has_lock p' = true \/ k <> t /\ sem_lock (w_shared w) = Some k) as [(-> & Hx & Hp)|[Hne Hk']].
  - pose proof (wo_lock _ Hw t p Ht) as Hl. pose proof (wo_holder _ Hw k) as Hh. pose proof (woken t) as Hwk.
    destruct (decide (k = t)) as [->|Hne]; [left|right].
    + split; [done|]. split; [intros E; destruct (Hwk E) as (_ & _ & _ & ?); done|]. clear Hwk. exec_cases; try done; destruct (Hh Hk) as (q & Hq & Hq'); rewrite Ht in Hq; injection Hq as <-; done.
    + split; [done|]. clear Hwk. exec_cases; try done; congruence.
  - exists p'. by rewrite lookup_after, decide_False, decide_True.
  - destruct (wo_holder _ Hw k Hk') as (q & Hq & Hq'). exists q. rewrite lookup_after, decide_False, decide_False; [done|done|].
    intros (_ & Hs & _)%woken. rewrite Hs in Hq. injection Hq as <-. done.
Qed.

Lemma step_wholder k : wc_lock s' = Some k -> exists q, zlookup (run x (zinsert (w_pcs w) t p')) k = Some q /\ has_wc q = true.
Proof.
  intros Hk. assert (k = t /\ x <> Some t /\ has_wc p' = true \/ k <> t /\ wc_lock (w_shared w) = Some k) as [(-> & Hx & Hp)|[Hne Hk']].
  - pose proof (wo_wc _ Hw t p Ht) as Hl. pose proof (wo_wholder _ Hw k) as Hh. pose proof (woken t) as Hwk.
    destruct (decide (k = t)) as [->|Hne]; [left|right].
    + split; [done|]. split; [intros E; destruct (Hwk E) as (_ & _ & _ & ?); done|]. clear Hwk. exec_cases; try done; destruct (Hh Hk) as (q & Hq & Hq'); rewrite Ht in Hq; injection Hq as <-; done.
    + split; [done|]. clear Hwk. exec_cases; try done; congruence.
  - exists p'. by rewrite lookup_after, decide_False, decide_True.
  - destruct (wo_wholder _ Hw k Hk') as (q & Hq & Hq'). exists q. rewrite lookup_after, decide_False, decide_False; [done|done|].
    intros (_ & Hs & _)%woken. rewrite Hs in Hq. injection Hq as <-. done.
Qed.

Lemma step_where y : zlookup (run x (zinsert (w_pcs w) t p')) y = Some AAsleep ->
  y ∈ wc_threads s' \/ exists k q, zlookup (run x (zinsert (w_pcs w) t p')) k = Some q /\ target_of q = Some y.
Proof.
  assert (x <> Some t) as Hxt by (intros (_ & _ & _ & ?)%woken; done).
  assert (target_of p' = Some y -> exists k q, zlookup (run x (zinsert (w_pcs w) t p')) k = Some q /\ target_of q = Some y) as Hme.
  { intros Hp. exists t, p'. by rewrite lookup_after, decide_False, decide_True. }
  intros [[_ ?]|[Hxy [[-> Hp]|[Hne Hy]]]]%after_step; [done| |].
  - left. exec_cases; try done. apply elem_of_app. right. by apply list_elem_of_singleton.
  - destruct (wo_where _ Hw y Hy) as [Hin|(k & q & Hk & Hq)].
    + assert (y ∈ wc_threads s' \/ target_of p' = Some y) as [?|?]; [|by left|right; by apply Hme].
      clear Hme. exec_cases; try (by left); [left; apply elem_of_app; by left|left; congruence|].
      apply elem_of_cons in Hin as [->|?]; auto.
    + right. destruct (decide (k = t)) as [->|Hkt].
      * apply Hme. rewrite Ht in Hk. injection Hk as <-. clear Hme. exec_cases; done.
      * exists k, q. rewrite lookup_after, decide_False, decide_False; [done|done|].
        intros (_ & Hs & _)%woken. rewrite Hs in Hk. injection Hk as <-. done.
Qed.

Lemma pendings_after : (pendings (run x (zinsert (w_pcs w) t p')) + pending p = pendings (w_pcs w) + pending p' + (if x is Some _ then 1 else 0))%nat.
Proof.
  pose proof (pendings_insert _ _ _ p' Ht) as H1. pose proof woken as Hwk. destruct x as [y|]; simpl; [|lia].
  destruct (Hwk y eq_refl) as (-> & Hy & _ & Hyt).
  assert (zlookup (zinsert (w_pcs w) t p') y = Some AAsleep) as Hy' by (by rewrite zlookup_zinsert_ne).
  pose proof (pendings_insert _ _ _ (AAcquire true) Hy'). simpl in *. lia.
Qed.

(** Whoever waits after the step, waited before it or has just looked. *)
Lemma waited : (wc_threads s' <> [] \/ exists k q, zlookup (run x (zinsert (w_pcs w) t p')) k = Some q /\ committed q = true) ->
  p' = AWchanLock \/ (wc_threads (w_shared w) <> [] \/ exists k q, zlookup (w_pcs w) k = Some q /\ committed q = true).
Proof.
  intros [Hne|(k & q & Hk & Hq)].
  - right. assert (wc_threads (w_shared w) <> [] \/ p = ASleep) as [?| ->]; [|by left|right; by exists t, ASleep].
    exec_cases; try (by left); by right.
  - apply after_step in Hk as [[_ ->]|[_ [[-> ->]|[_ Hk]]]]; [done| |by right; right; exists k, q].
    assert (p' = AWchanLock \/ committed p = true) as [?|?]; [|by left|right; right; by exists t, p].
    exec_cases; try done; auto.
Qed.

Lemma step_wakeup : (wc_threads s' <> [] \/ exists k q, zlookup (run x (zinsert (w_pcs w) t p')) k = Some q /\ committed q = true) ->
  (avail (res s') <= pendings (run x (zinsert (w_pcs w) t p')))%nat.
Proof.
  intros Hwait. pose proof pendings_after as Hp. pose proof (wo_wakeup _ Hw) as Hold. pose proof (wo_res _ Hw) as Hr.
  destruct (decide (p' = AWchanLock)) as [->|Hnew].
  { assert (exists b, p = ATest b /\ take t (res (w_shared w)) = None /\ s' = w_shared w) as (b & -> & Htk & ->).
    { exec_cases; try done. by eexists. }
    rewrite (take_none _ _ Hr Htk). lia. }
  destruct (waited Hwait) as [?|Hbefore]; [done|].
  specialize (Hold Hbefore).
  assert (~ (p = RRemhead /\ wc_threads (w_shared w) = [])) as Hno.
  { intros [-> Hnil]. destruct Hbefore as [?|(k & q & Hk & Hq)]; [done|].
    pose proof (wo_lock _ Hw t _ Ht eq_refl) as Hl. pose proof (wo_wc _ Hw t _ Ht eq_refl) as Hwc.
    pose proof (wo_lock _ Hw k _ Hk) as Hlk. pose proof (wo_wc _ Hw k _ Hk) as Hwck.
    assert (k = t) as ->; [|rewrite Ht in Hk; by injection Hk as <-]. destruct q; try done; (specialize (Hlk eq_refl) || specialize (Hwck eq_refl)); congruence. }
  clear Hwait Hbefore. assert (avail (res s') + pending p <= avail (res (w_shared w)) + pending p' + (if x is Some _ then 1 else 0))%nat; [|lia].
  exec_cases; try lia.
  - destruct (take_some _ _ _ Hr ltac:(eassumption)) as [_ ->]. destruct woken0; lia.
  - destruct (give_some _ _ _ Hr ltac:(eassumption)) as [_ ->]. lia.
  - by destruct Hno.
Qed.
End Step.

Lemma call_ok s ps t p' : world_ok (mkWorld s ps) -> zlookup ps t = Some Idle -> has_lock p' = false -> has_wc p' = false ->
  target_of p' = None -> pending p' = 0%nat -> committed p' = false -> p' <> AAsleep -> world_ok (mkWorld s (zinsert ps t p')).
Proof.
  intros [H1 H2 H3 H4 H5 H6 H8 H9 H10 H7] Ht E1 E2 E3 E4 E5 E6. simpl in *. pose proof (zlookup_Some_range _ _ _ Ht) as Hr.
  assert (forall k q, zlookup (zinsert ps t p') k = Some q -> k = t /\ q = p' \/ zlookup ps k = Some q) as Hcase.
  { intros k q. rewrite zlookup_zinsert by done. bool_case; intros [= ->]; auto. }
  assert (forall y, zlookup ps y = Some AAsleep -> zlookup (zinsert ps t p') y = Some AAsleep) as Hsleep.
  { intros y Hy. rewrite zlookup_zinsert_ne; [done|congruence]. }
  assert (forall k q, zlookup ps k = Some q -> q <> Idle -> zlookup (zinsert ps t p') k = Some q) as Hkeep.
  { intros k q Hk Hq. rewrite zlookup_zinsert_ne; [done|congruence]. }
  pose proof (pendings_insert ps t Idle p' Ht) as Hp. simpl in Hp. split; simpl; [done| | | | |done| | | |].
  - intros k q [[-> ->]|Hk]%Hcase Hq; [congruence|by eapply H2].
  - intros k q [[-> ->]|Hk]%Hcase Hq; [congruence|by eapply H3].
  - intros y Hy. by apply Hsleep, H4.
  - intros k q y [[-> ->]|Hk]%Hcase Hq; [congruence|]. destruct (H5 k q y Hk Hq). by auto.
  - intros k Hk. destruct (H8 k Hk) as (q & Hq & Hq'). exists q. split; [|done]. apply Hkeep; [done|]. by intros ->.
  - intros k Hk. destruct (H9 k Hk) as (q & Hq & Hq'). exists q. split; [|done]. apply Hkeep; [done|]. by intros ->.
  - intros y [[-> Hy]|Hy]%Hcase; [done|]. destruct (H10 y Hy) as [?|(k & q & Hk & Hq)]; [by left|right].
    exists k, q. split; [|done]. apply Hkeep; [done|]. by intros ->.
  - intros Hpre. assert (avail (res s) <= pendings ps)%nat; [|lia]. apply H7. destruct Hpre as [?|(k & q & Hk & Hq)]; [by left|].
    apply Hcase in Hk as [[-> ->]|Hk]; [congruence|]. right. by exists k, q.
Qed.

Lemma step_ok w w' : world_ok w -> step w w' -> world_ok w'.
Proof.
  intros Hw Hs. destruct Hs as [s ps t p s' p' x Ht He|s ps t Ht|s ps t Ht]; [|by apply call_ok|by apply call_ok].
  split; simpl.
  - by eapply (step_res (mkWorld s ps)).
  - by eapply (step_lock (mkWorld s ps)).
  - by eapply (step_wc (mkWorld s ps)).
  - by eapply (step_asleep (mkWorld s ps)).
  - intros k q y Hk Hq. by eapply (step_target (mkWorld s ps)).
  - by eapply (step_nodup (mkWorld s ps)).
  - by eapply (step_holder (mkWorld s ps)).
  - by eapply (step_wholder (mkWorld s ps)).
  - by eapply (step_where (mkWorld s ps)).
  - by eapply (step_wakeup (mkWorld s ps)).
Qed.

Lemma start_ok r n : r_ok r -> world_ok (start r n).
Proof.
  intros Hr. assert (forall t p, zlookup (zrep n Idle) t = Some p -> p = Idle) as Hidle.
  { intros t p Hp. unfold zlookup in Hp. case_bool_decide; [|done]. by apply lookup_replicate in Hp as [-> _]. }
  split; simpl; try done; try (by intros x ?%elem_of_nil); try (by intros t p ->%Hidle); try (by intros t p x ->%Hidle); [constructor|by intros x ?%Hidle|].
  intros [?|(t & p & ->%Hidle & ?)]; done.
Qed.

Lemma reachable_ok r n w : r_ok r -> reachable r n w -> world_ok w.
Proof. intros Hr. apply (rtc_ind_r _ (start r n)); [by apply start_ok|]. intros w1 w2 _ Hs Hw. by eapply step_ok. Qed.

(** What a step does to the resource. *)
Lemma step_log w w' : step w w' ->
  res (w_shared w') = res (w_shared w) /\ log (w_shared w') = log (w_shared w) \/
  (exists t, take t (res (w_shared w)) = Some (res (w_shared w')) /\ log (w_shared w') = Took t :: log (w_shared w)) \/
  (exists t, give t (res (w_shared w)) = Given (res (w_shared w')) /\ log (w_shared w') = Gave t :: log (w_shared w)).
Proof.
  intros [s ps t p s' p' x Ht He|s ps t Ht|s ps t Ht]; simpl; try (by left).
  destruct p; simpl in He; repeat case_match; simplify_eq/=; try (by left); right; [left|right]; by exists t.
Qed.

(** ** No one sleeps while the resource is there *)

Definition quiet (w : world) : Prop := forall t p, zlookup (w_pcs w) t = Some p -> exec t p (w_shared w) = None.

Lemma wc_moves t p s : has_wc p = true -> exec t p s <> None.
Proof. destruct p; simpl; try done. by case_match. Qed.

Lemma quiet_wc w : world_ok w -> quiet w -> wc_lock (w_shared w) = None.
Proof.
  intros Hw Hq. destruct (wc_lock (w_shared w)) as [t|] eqn:E; [|done]. destruct (wo_wholder _ Hw t E) as (p & Hp & Hwc).
  by destruct (wc_moves t p (w_shared w) Hwc); apply Hq.
Qed.

Lemma quiet_lock w : world_ok w -> quiet w -> (forall t, zlookup (w_pcs w) t <> Some Dead) -> sem_lock (w_shared w) = None.
Proof.
  intros Hw Hq Hd. destruct (sem_lock (w_shared w)) as [t|] eqn:E; [|done]. destruct (wo_holder _ Hw t E) as (p & Hp & Hl).
  specialize (Hq t p Hp) as Hn. pose proof (quiet_wc w Hw Hq) as Hwc. specialize (Hd t).
  destruct p; simpl in *; try done; repeat case_match; try done; congruence.
Qed.

Lemma quiet_threads w t p : world_ok w -> quiet w -> (forall t, zlookup (w_pcs w) t <> Some Dead) -> zlookup (w_pcs w) t = Some p -> p = Idle \/ p = AAsleep.
Proof.
  intros Hw Hq Hd Hp. pose proof (quiet_lock w Hw Hq Hd) as Hl. pose proof (quiet_wc w Hw Hq) as Hwc.
  specialize (Hq t p Hp). specialize (Hd t). destruct p; simpl in *; repeat case_match; simplify_eq; auto.
Qed.

Lemma pendings_zero ps : (forall p, p ∈ ps -> pending p = 0%nat) -> pendings ps = 0%nat.
Proof.
  intros H. unfold pendings. induction ps as [|p ps IH]; [done|]. simpl. rewrite (H p) by (by left). apply IH. intros q Hq. apply H. by right.
Qed.

Lemma zlookup_elem {A} (l : list A) x : x ∈ l -> exists i, zlookup l i = Some x.
Proof.
  intros (i & Hi)%list_elem_of_lookup. exists (Z.of_nat i). unfold zlookup. rewrite bool_decide_true by lia. by rewrite Nat2Z.id.
Qed.

(** C8. If no thread can move, every thread is outside or asleep, and one sleeps
    only if there is nothing to take. *)
Theorem no_lost_wakeup (r : R) (n : Z) (w : world)
    (Hr : r_ok r) (Hreach : reachable r n w) (Hq : quiet w) (Halive : forall t, zlookup (w_pcs w) t <> Some Dead) :
  (forall t p, zlookup (w_pcs w) t = Some p -> p = Idle \/ p = AAsleep) /\
  ((exists t, zlookup (w_pcs w) t = Some AAsleep) -> avail (res (w_shared w)) = 0%nat).
Proof.
  pose proof (reachable_ok _ _ _ Hr Hreach) as Hw. pose proof (quiet_threads w) as Hall.
  split; [by intros t p; apply Hall|]. intros [t Ht].
  assert (pendings (w_pcs w) = 0%nat) as Hp.
  { apply pendings_zero. intros p (k & Hk)%zlookup_elem. by destruct (Hall k p Hw Hq Halive Hk) as [-> | ->]. }
  destruct (wo_where _ Hw t Ht) as [Hin|(k & q & Hk & Hq')].
  - assert (wc_threads (w_shared w) <> []) as Hne by (intros E; rewrite E in Hin; by apply elem_of_nil in Hin).
    pose proof (wo_wakeup _ Hw (or_introl Hne)). lia.
  - by destruct (Hall k q Hw Hq Halive Hk) as [-> | ->].
Qed.
End Machine.

(** ** The two resources *)

#[export, refine] Instance sem_resource : Resource Z := {
  take := sem_take; give := sem_give; r_ok c := 0 <= c < 2 ^ 31; avail c := Z.to_nat c }.
Proof.
  - unfold sem_take. intros _ c _. bool_case; [by intros _; subst|done].
  - unfold sem_take. intros _ c c' Hc. bool_case; [done|]. intros [= <-]. lia.
  - unfold sem_give. intros _ c c' Hc. bool_case; [|done]. intros [= <-]. unfold s32 in *. dlia.
Defined.

#[export, refine] Instance lock_resource : Resource (option Z) := {
  take := lock_take; give := lock_give; r_ok _ := True; avail h := match h with None => 1%nat | Some _ => 0%nat end }.
Proof.
  - by intros t [h|] _.
  - by intros t [h|] h' _; simpl; intros [= <-].
  - unfold lock_give, lock_do_i_hold. intros t h h' _. bool_case; [|done]. subst. by intros [= <-].
Defined.

(** Taken and given so far. *)
Fixpoint tooks (l : list event) : Z := match l with [] => 0 | Took _ :: l' => 1 + tooks l' | Gave _ :: l' => tooks l' end.
Fixpoint gaves (l : list event) : Z := match l with [] => 0 | Took _ :: l' => gaves l' | Gave _ :: l' => 1 + gaves l' end.

(** Mutual exclusion: whose turn it is, if threads took turns. *)
Fixpoint turn (l : list event) : option (option Z) :=
  match l with
  | [] => Some None
  | Took t :: l' => match turn l' with Some None => Some (Some t) | _ => None end
  | Gave t :: l' => match turn l' with Some (Some t') => if t' =? t then Some None else None | _ => None end
  end.



(** ** Runs *)

Inductive move := Go (t : Z) | Acquire (t : Z) | Release (t : Z).

Definition do_move `{!Resource R} (m : move) (w : world (R := R)) : option world :=
  match m with
  | Go t =>
      match zlookup (w_pcs w) t with
      | Some p => (fun '(s, p', x) => mkWorld s (run x (zinsert (w_pcs w) t p'))) <$> exec t p (w_shared w)
      | None => None
      end
  | Acquire t => if decide (zlookup (w_pcs w) t = Some Idle) then Some (mkWorld (w_shared w) (zinsert (w_pcs w) t (AAcquire false))) else None
  | Release t => if decide (zlookup (w_pcs w) t = Some Idle) then Some (mkWorld (w_shared w) (zinsert (w_pcs w) t RAcquire)) else None
  end.
Fixpoint do_moves `{!Resource R} (ms : list move) (w : world (R := R)) : option world :=
  match ms with [] => Some w | m :: ms' => match do_move m w with Some w' => do_moves ms' w' | None => None end end.

Lemma do_move_step `{!Resource R} m (w w' : world (R := R)) : do_move m w = Some w' -> step w w'.
Proof.
  destruct w as [s ps], m as [t|t|t]; simpl; [|case_decide; [intros [= <-]; by constructor|done]..].
  destruct (zlookup ps t) as [p|] eqn:Ht; [|done]. destruct (exec t p s) as [[[s' p'] x]|] eqn:He; [|done]. intros [= <-]. by econstructor.
Qed.

Lemma do_moves_reach `{!Resource R} ms (w w' : world (R := R)) : do_moves ms w = Some w' -> rtc step w w'.
Proof.
  revert w. induction ms as [|m ms IH]; intros w; simpl; [by intros [= ->]; apply rtc_refl|].
  destruct (do_move m w) as [w1|] eqn:E; [|done]. intros Hr. eapply rtc_l; [by eapply do_move_step|by apply IH].
Qed.

(** Thread 0 has the lock, thread 1 sleeps. *)
Definition waiting : list move := [Acquire 0; Go 0; Go 0; Go 0; Acquire 1; Go 1; Go 1; Go 1; Go 1; Go 1].
Definition waiting_world : world (R := option Z) :=
  mkWorld (mkShared (Some 0) None None [1] [Took 0]) [Idle; AAsleep].

Lemma waiting_reachable : reachable (None : option Z) 2 waiting_world.
Proof. apply (do_moves_reach waiting). by vm_compute. Qed.

Lemma waiting_threads t p : zlookup (w_pcs waiting_world) t = Some p -> p = Idle \/ p = AAsleep.
Proof. unfold zlookup. case_bool_decide; [|done]. destruct (Z.to_nat t) as [|[|k]]; simpl; intros [= <-]; auto. Qed.

Lemma no_lost_wakeup_witness :
  (forall t p, zlookup (w_pcs waiting_world) t = Some p -> p = Idle \/ p = AAsleep) /\
  ((exists t, zlookup (w_pcs waiting_world) t = Some AAsleep) -> avail (res (w_shared waiting_world)) = 0%nat).
Proof.
  refine (no_lost_wakeup (None : option Z) 2 waiting_world I waiting_reachable _ _).
  - intros t p Hp. by destruct (waiting_threads t p Hp) as [-> | ->].
  - intros t Hd. by destruct (waiting_threads t Dead Hd).
Defined.

Definition counting : list move := [Release 0; Go 0; Go 0; Acquire 1].
Definition counting_world : world (R := Z) := mkWorld (mkShared 3 (Some 0) None [] [Gave 0]) [RWchanLock; AAcquire false].

Lemma counting_reachable : reachable 2 2 counting_world.
Proof. apply (do_moves_reach counting). by vm_compute. Qed.


End Synch.
