(* ===== verification/Cv.v ===== *)
(** * Condition variables, and the life of synchronisation objects:
      src/thread/synch.c

    [Cv] interleaves threads that use one condition variable under one lock;
    the lock is atomic here ([Synch] is about its inside), the wait channel is
    not.  [Objects] has the create and destroy functions with the memory they
    allocate. *)

From S2P Require Import Prelude Synch.
Import Synch.

Module Cv.

Inductive cpc :=
  | COut                     (** not holding the lock *)
  | CIn                      (** holding the lock *)
  | CEnter                   (** in [lock_acquire] *)
  | CReleased                (** in [cv_wait], after [lock_release] *)
  | CLocked                  (** after [wchan_lock] *)
  | CAsleep                  (** in [wchan_sleep] *)
  | CSignal                  (** in [cv_signal], before [wchan_wakeone] *)
  | CBroadcast.

#[export] Instance cpc_eq : EqDecision cpc.
Proof. solve_decision. Defined.

Record cstate := mkC { c_holder : option Z; c_wc : option Z; c_threads : list Z; c_pcs : list cpc }.

Definition set_pc (t : Z) (p : cpc) (s : cstate) := mkC (c_holder s) (c_wc s) (c_threads s) (zinsert (c_pcs s) t p).

(** What a thread does next; [cmove] chooses among the calls it may make. *)
Inductive cmove := MLock | MUnlock | MWait | MSignal | MBroadcast | MNext.

Definition wake (t : Z) (ps : list cpc) : list cpc := zinsert ps t CEnter.

Definition cstep (t : Z) (m : cmove) (s : cstate) : option cstate :=
  match zlookup (c_pcs s) t, m with
  | Some COut, MLock => Some (set_pc t CEnter s)
  | Some CEnter, MNext =>
      match lock_take t (c_holder s) with
      | Some h => Some (set_pc t CIn (mkC h (c_wc s) (c_threads s) (c_pcs s)))
      | None => None
      end
  | Some CIn, MUnlock =>
      match lock_give t (c_holder s) with
      | Given h => Some (set_pc t COut (mkC h (c_wc s) (c_threads s) (c_pcs s)))
      | _ => Some (set_pc t COut s)
      end
  | Some CIn, MWait =>
      match lock_give t (c_holder s) with
      | Given h => Some (set_pc t CReleased (mkC h (c_wc s) (c_threads s) (c_pcs s)))
      | _ => Some (set_pc t CReleased s)
      end
  | Some CReleased, MNext =>
      match c_wc s with
      | None => Some (set_pc t CLocked (mkC (c_holder s) (Some t) (c_threads s) (c_pcs s)))
      | Some _ => None
      end
  | Some CLocked, MNext => Some (set_pc t CAsleep (mkC (c_holder s) None (c_threads s ++ [t]) (c_pcs s)))
  | Some CIn, MSignal => Some (set_pc t CSignal s)
  | Some CSignal, MNext =>
      match c_wc s, c_threads s with
      | None, x :: l => Some (set_pc t CIn (mkC (c_holder s) None l (wake x (c_pcs s))))
      | None, [] => Some (set_pc t CIn s)
      | Some _, _ => None
      end
  | Some CIn, MBroadcast => Some (set_pc t CBroadcast s)
  | Some CBroadcast, MNext =>
      match c_wc s with
      | None => Some (set_pc t CIn (mkC (c_holder s) None [] (foldr wake (c_pcs s) (c_threads s))))
      | Some _ => None
      end
  | _, _ => None
  end.

Fixpoint crun (l : list (Z * cmove)) (s : cstate) : option cstate :=
  match l with
  | [] => Some s
  | (t, m) :: l' => match cstep t m s with Some s' => crun l' s' | None => None end
  end.

Definition cstart (n : Z) : cstate := mkC None None [] (zrep n COut).

(** ** Mutual exclusion *)

Definition inside (p : cpc) : bool := match p with CIn | CSignal | CBroadcast => true | _ => false end.

Record c_ok (s : cstate) : Prop := {
  co_holder : forall t p, zlookup (c_pcs s) t = Some p -> (inside p = true <-> c_holder s = Some t);
  co_range : forall t, c_holder s = Some t -> 0 <= t < zlen (c_pcs s);
  co_asleep : forall t, t ∈ c_threads s -> zlookup (c_pcs s) t = Some CAsleep;
  co_nodup : NoDup (c_threads s) }.

Lemma wake_all_len ps l : zlen (foldr wake ps l) = zlen ps.
Proof. induction l as [|x l IH]; [done|]. simpl. unfold wake. by rewrite zlen_zinsert. Qed.

Lemma wake_all_lookup ps l k q : (forall x, x ∈ l -> zlookup ps x = Some CAsleep) -> zlookup (foldr wake ps l) k = Some q ->
  k ∈ l /\ q = CEnter \/ (k ∉ l) /\ zlookup ps k = Some q.
Proof.
  induction l as [|x l IH]; intros Hl; simpl; [intros; right; split; [apply not_elem_of_nil|done]|].
  unfold wake at 1. assert (0 <= x < zlen ps) as Hr by (eapply zlookup_Some_range, Hl; by left).
  rewrite zlookup_zinsert by (by rewrite wake_all_len). bool_case; intros Hq.
  - left. subst. split; [by left|congruence].
  - destruct IH as [[? ->]|[? ?]]; [intros y Hy; apply Hl; by right|done|left; split; [by right|done]|].
    right. split; [|done]. rewrite elem_of_cons. intros [->|?]; done.
Qed.

(** A thread moves from [p] to [p'], others are woken. *)
Lemma c_ok_move s t p p' h' wc' l' ps' :
  c_ok s -> zlookup (c_pcs s) t = Some p -> p <> CAsleep ->
  zlen ps' = zlen (c_pcs s) ->
  (forall k q, zlookup ps' k = Some q -> zlookup (c_pcs s) k = Some q \/ zlookup (c_pcs s) k = Some CAsleep /\ q = CEnter) ->
  (forall x, x ∈ l' -> x = t /\ p' = CAsleep \/ x ∈ c_threads s /\ zlookup ps' x = Some CAsleep) -> NoDup l' ->
  (h' = c_holder s /\ inside p' = inside p \/ c_holder s = None /\ h' = Some t /\ inside p' = true \/
   c_holder s = Some t /\ h' = None /\ inside p' = false) ->
  c_ok (set_pc t p' (mkC h' wc' l' ps')).
Proof.
  intros [H1 H2 H3 H4] Ht Hp Hlen Hps Hl Hnd Hh. pose proof (zlookup_Some_range _ _ _ Ht) as Hr.
  split; simpl.
  - intros k q. rewrite zlookup_zinsert by lia. bool_case; intros Hq.
    + subst k. injection Hq as <-. pose proof (H1 t p Ht) as Hin. destruct Hh as [[-> ->]|[(E & -> & ->)|(E & -> & ->)]]; [done|done|].
      split; congruence.
    + assert (inside q = true <-> c_holder s = Some k) as Hin.
      { destruct (Hps k q Hq) as [Hk|[Hk ->]]; [by apply H1|]. rewrite <- (H1 k _ Hk). done. }
      rewrite Hin. destruct Hh as [[-> _]|[(E & -> & _)|(E & -> & _)]]; [done|split; congruence|split; congruence].
  - intros k Hk. rewrite zlen_zinsert, Hlen. destruct Hh as [[-> _]|[(E & -> & _)|(E & -> & _)]]; [by apply H2|by injection Hk as <-|done].
  - intros x Hx. rewrite zlookup_zinsert by lia. destruct (Hl x Hx) as [[-> ->]|[Hin Hx']]; bool_case; try done. subst x.
    rewrite (H3 t Hin) in Ht. congruence.
  - done.
Qed.

Lemma cstep_ok t m s s' : c_ok s -> cstep t m s = Some s' -> c_ok s'.
Proof.
  intros Hok. unfold cstep. destruct (zlookup (c_pcs s) t) as [p|] eqn:Ht; [|done].
  pose proof (co_nodup _ Hok) as Hnd. pose proof (co_asleep _ Hok) as Has. pose proof (co_holder _ Hok t p Ht) as Hin.
  assert (forall h wc p', p <> CAsleep -> (h = c_holder s /\ inside p' = inside p \/ c_holder s = None /\ h = Some t /\ inside p' = true \/
    c_holder s = Some t /\ h = None /\ inside p' = false) -> c_ok (set_pc t p' (mkC h wc (c_threads s) (c_pcs s)))) as Hsame.
  { intros h wc p' Hp Hh. eapply c_ok_move; [done|exact Ht|done|done|by left| |done|done]. intros x Hx. right. by auto. }
  destruct p, m; try done; unfold lock_take, lock_give, lock_do_i_hold.
  - intros [= <-]. by destruct s; apply Hsame; [|left].
  - rewrite bool_decide_true by (by apply Hin). intros [= <-]. apply Hsame; [done|right; right]. by split; [apply Hin|].
  - rewrite bool_decide_true by (by apply Hin). intros [= <-]. apply Hsame; [done|right; right]. by split; [apply Hin|].
  - intros [= <-]. by destruct s; apply Hsame; [|left].
  - intros [= <-]. by destruct s; apply Hsame; [|left].
  - destruct (c_holder s) eqn:E; [done|]. intros [= <-]. by apply Hsame; [|right; left].
  - case_match; [done|]. intros [= <-]. by apply Hsame; [|left].
  - intros [= <-]. eapply c_ok_move; [done|exact Ht|done|done|by left| | |by left].
    + intros x [Hx| ->%list_elem_of_singleton]%elem_of_app; [right; by auto|by left].
    + apply NoDup_app. split_and!; [done| |apply NoDup_singleton]. intros x Hx ->%list_elem_of_singleton. rewrite (Has _ Hx) in Ht. done.
  - case_match; [done|]. destruct (c_threads s) as [|x l] eqn:El; intros [= <-].
    { assert (s = mkC (c_holder s) (c_wc s) (c_threads s) (c_pcs s)) as -> by (by destruct s). rewrite El. by apply Hsame; [|left]. }
    apply NoDup_cons in Hnd as [Hx Hnd]. assert (zlookup (c_pcs s) x = Some CAsleep) as Hxs by (apply Has; by left).
    pose proof (zlookup_Some_range _ _ _ Hxs) as Hxr.
    eapply c_ok_move; [done|exact Ht|done|by unfold wake; rewrite zlen_zinsert| | |done|by left].
    + intros k q. unfold wake. rewrite zlookup_zinsert by done. bool_case; intros E; [right; subst; split; congruence|by left].
    + intros y Hy. right. split; [rewrite El; by right|]. unfold wake. rewrite zlookup_zinsert_ne by congruence. apply Has. by right.
  - case_match; [done|]. intros [= <-]. eapply c_ok_move; [done|exact Ht|done|apply wake_all_len| |by intros x ?%elem_of_nil|constructor|by left].
    intros k q [[Hk ->]|[_ Hk]]%wake_all_lookup; [right; by auto|by left|done].
Qed.

Lemma crun_ok l s s' : c_ok s -> crun l s = Some s' -> c_ok s'.
Proof.
  revert s. induction l as [|[t m] l IH]; intros s Hok; simpl; [by intros [= <-]|].
  destruct (cstep t m s) as [s1|] eqn:E; [|done]. apply IH. by eapply cstep_ok.
Qed.

Lemma cstart_ok n : c_ok (cstart n).
Proof.
  split; simpl; try done; [|by intros t ?%elem_of_nil|constructor]. intros t p Hp. unfold zlookup in Hp. case_bool_decide; [|done].
  by apply lookup_replicate in Hp as [-> _].
Qed.

(** Whatever threads do with a condition variable, one thread at a time is
    inside the lock, a thread that returns from [cv_wait] included; and a
    signal or a broadcast wakes only threads that sleep on the channel. *)
Theorem cv_exclusive (n : Z) (l : list (Z * cmove)) (s : cstate) (Hrun : crun l (cstart n) = Some s) :
  (forall t t' p p', zlookup (c_pcs s) t = Some p -> zlookup (c_pcs s) t' = Some p' -> inside p = true -> inside p' = true -> t = t') /\
  (forall t, t ∈ c_threads s -> zlookup (c_pcs s) t = Some CAsleep).
Proof.
  pose proof (crun_ok _ _ _ (cstart_ok n) Hrun) as Hok. split; [|apply Hok]. intros t t' p p' Ht Ht' Hp Hp'.
  apply (co_holder _ Hok t p Ht) in Hp. apply (co_holder _ Hok t' p' Ht') in Hp'. congruence.
Qed.

(** Thread 1 signals between two steps of thread 0's [cv_wait]. *)
Definition lost : list (Z * cmove) :=
  [(0, MLock); (0, MNext); (0, MWait); (1, MLock); (1, MNext); (1, MSignal); (1, MNext); (1, MUnlock); (0, MNext); (0, MNext)].


Lemma cv_exclusive_witness :
  let s := mkC (Some 0) None [] [CSignal; CEnter] in
  (forall t t' p p', zlookup (c_pcs s) t = Some p -> zlookup (c_pcs s) t' = Some p' -> inside p = true -> inside p' = true -> t = t') /\
  (forall t, t ∈ c_threads s -> zlookup (c_pcs s) t = Some CAsleep).
Proof. exact (cv_exclusive 2 [(0, MLock); (1, MLock); (0, MNext); (0, MSignal)] (mkC (Some 0) None [] [CSignal; CEnter]) eq_refl). Defined.
End Cv.

Module Objects.

(** How many blocks of memory are in use, and the thread whose structure was
    freed by mistake. *)
Record memory := mkMem { blocks : Z; freed_thread : option Z }.

(** [ok]: whether this [kmalloc] (or [kstrdup]) succeeds. *)
Definition kmalloc (ok : bool) : M memory bool :=
  if ok then modify (fun m => mkMem (blocks m + 1) (freed_thread m)) ;; ret true else ret false.
Definition kfree : M memory unit := modify (fun m => mkMem (blocks m - 1) (freed_thread m)).

(** The allocations of an object: the structure, its name, its wait channel;
    [false] is NULL. *)
Definition sem_create (m1 m2 m3 : bool) (initial_count : Z) : M memory bool :=
  KASSERT (0 <=? initial_count) ;;
  let* sem := kmalloc m1 in
  if negb sem then ret false
  else
    let* name := kmalloc m2 in
    if negb name then kfree ;; ret false
    else
      let* wc := kmalloc m3 in
      if negb wc then kfree ;; kfree ;; ret false
      else ret true.

(** Without a wait channel the name and the lock are freed, and then the freed
    lock is initialised. *)
Definition lock_create (m1 m2 m3 : bool) : M memory bool :=
  let* lock := kmalloc m1 in
  if negb lock then ret false
  else
    let* name := kmalloc m2 in
    if negb name then kfree ;; ret false
    else
      let* wc := kmalloc m3 in
      if negb wc then kfree ;; kfree ;; crashed Wild
      else ret true.

Definition cv_create (m1 m2 m3 : bool) : M memory bool :=
  let* cv := kmalloc m1 in
  if negb cv then ret false
  else
    let* name := kmalloc m2 in
    if negb name then kfree ;; ret false
    else
      let* wc := kmalloc m3 in
      if negb wc then kfree ;; kfree ;; ret false
      else ret true.

(** [spinlock_cleanup] and [wchan_destroy] assert that no one holds the lock
    and no one sleeps. *)
Definition sem_destroy (locked : bool) (sleepers : list Z) : M memory unit :=
  KASSERT (negb locked) ;;
  KASSERT (bool_decide (sleepers = [])) ;; kfree ;;
  kfree ;;
  kfree.

(** [kfree(lock->holder)] frees the thread that holds the lock. *)
Definition lock_destroy (in_interrupt locked : bool) (sleepers : list Z) (holder : option Z) : M memory unit :=
  KASSERT (negb in_interrupt) ;;
  KASSERT (negb locked) ;;
  KASSERT (bool_decide (sleepers = [])) ;; kfree ;;
  kfree ;;
  match holder with
  | None => ret tt
  | Some t => modify (fun m => mkMem (blocks m) (Some t))
  end ;;
  kfree.

Definition cv_destroy (sleepers : list Z) : M memory unit :=
  KASSERT (bool_decide (sleepers = [])) ;; kfree ;;
  kfree ;;
  kfree.

(** Creating a semaphore, a lock or a condition variable leaks nothing when it
    fails, except that a lock without a wait channel is used after it is freed;
    destroying one that was created gives back exactly its memory; and
    destroying a lock that is held frees its holder. *)
Theorem objects_balanced (m1 m2 m3 : bool) (c : Z) (s : memory) (Hc : 0 <= c) :
  returns (sem_create m1 m2 m3 c s) (fun b s' => if b then after (sem_destroy false []) s' = s else s' = s) /\
  returns (cv_create m1 m2 m3 s) (fun b s' => if b then after (cv_destroy []) s' = s else s' = s) /\
  (if m1 && m2 && negb m3 then lock_create m1 m2 m3 s = Crash Wild
   else returns (lock_create m1 m2 m3 s) (fun b s' => if b then after (lock_destroy false false [] None) s' = s else s' = s)) /\
  (forall t, freed_thread (after (lock_destroy false false [] (Some t)) s) = Some t).
Proof.
  assert (forall x, mkMem (x + 1 + 1 + 1 - 1 - 1 - 1) (freed_thread s) = mkMem x (freed_thread s)) as E3 by (intros; f_equal; lia).
  assert (forall x, mkMem (x + 1 + 1 - 1 - 1) (freed_thread s) = mkMem x (freed_thread s)) as E2 by (intros; f_equal; lia).
  assert (forall x, mkMem (x + 1 - 1) (freed_thread s) = mkMem x (freed_thread s)) as E1 by (intros; f_equal; lia).
  assert (mkMem (blocks s) (freed_thread s) = s) as Es by (by destruct s).
  assert ((0 <=? c) = true) as Ec by lia.
  destruct m1, m2, m3; split_and!; try done; unfold sem_create, cv_create, lock_create, bind, KASSERT; rewrite ?Ec; cbn; rewrite ?E3, ?E2, ?E1; done.
Qed.

Lemma objects_balanced_witness :
  returns (sem_create true true true 1 (mkMem 0 None)) (fun b s' => if b then after (sem_destroy false []) s' = mkMem 0 None else s' = mkMem 0 None) /\
  returns (cv_create true true true (mkMem 0 None)) (fun b s' => if b then after (cv_destroy []) s' = mkMem 0 None else s' = mkMem 0 None) /\
  (if true && true && negb true then lock_create true true true (mkMem 0 None) = Crash Wild
   else returns (lock_create true true true (mkMem 0 None)) (fun b s' => if b then after (lock_destroy false false [] None) s' = mkMem 0 None else s' = mkMem 0 None)) /\
  (forall t, freed_thread (after (lock_destroy false false [] (Some t)) (mkMem 0 None)) = Some t).
Proof. refine (objects_balanced true true true 1 (mkMem 0 None) _). done. Defined.
End Objects.
