(* ===== verification/Kmalloc.v ===== *)
(** * The kernel heap: src/vm/kmalloc.c

    [Kmalloc] models the subpage allocator: a page is cut into blocks of one of
    eight sizes, its free blocks are linked through their first words, and a
    table of 256 page references keeps the pages in one list per size and one
    list of all.  Pages come from the class [KPages], what the VM system
    promises ([Dumbvm] is an instance).  A critical section of
    [kmalloc_spinlock] is one definition; [kmalloc] and [kfree] put them
    together as the code does, with [alloc_kpages] and [free_kpages] called
    outside the lock. *)

From S2P Require Import Prelude.

(** What [alloc_kpages] and [free_kpages] promise: [kp_blocks p] maps the
    address of a block of pages in use to its length in pages. *)
Class KPages (P : Type) := {
  kp_alloc : Z -> P -> Z * P;
  kp_free : Z -> P -> P;
  kp_blocks : P -> gmap Z Z;
  kp_ok : P -> Prop;

  kp_range p a n : kp_ok p -> kp_blocks p !! a = Some n ->
    0 < n /\ a mod PAGE_SIZE = 0 /\ MIPS_KSEG0 <= a /\ a + n * PAGE_SIZE <= MIPS_KSEG1;
  kp_disjoint p a n b m : kp_ok p -> kp_blocks p !! a = Some n -> kp_blocks p !! b = Some m ->
    a <> b -> a + n * PAGE_SIZE <= b \/ b + m * PAGE_SIZE <= a;
  (** 0 is NULL *)
  kp_alloc_ok n p a p' : kp_ok p -> 0 < n <= 2 ^ 19 -> kp_alloc n p = (a, p') ->
    kp_ok p' /\ (a = 0 /\ kp_blocks p' = kp_blocks p \/
                 a <> 0 /\ kp_blocks p !! a = None /\ kp_blocks p' = <[a := n]> (kp_blocks p));
  (** freed pages may leak *)
  kp_free_ok a p : kp_ok p ->
    kp_ok (kp_free a p) /\ (kp_blocks (kp_free a p) = kp_blocks p \/ kp_blocks (kp_free a p) = delete a (kp_blocks p)) }.

Module Kmalloc.

Definition NSIZES : Z := 8.
Definition sizes : list Z := [16; 32; 64; 128; 256; 512; 1024; 2048].
Definition LARGEST_SUBPAGE_SIZE : Z := 2048.
Definition INVALID_OFFSET : Z := 0xffff.
Definition NPAGEREFS : Z := 256.
Definition INUSE_WORDS : Z := NPAGEREFS / 32.

(** A pointer to a [struct pageref] is its index in [pagerefs], or NULL. *)
Record pageref := mkPr {
  next_samesize : option Z; next_all : option Z;
  pageaddr_and_blocktype : Z; freelist_offset : Z; nfree : Z }.

Definition PR_PAGEADDR (pr : pageref) : Z := Z.land (pageaddr_and_blocktype pr) PAGE_FRAME.
Definition PR_BLOCKTYPE (pr : pageref) : Z := Z.land (pageaddr_and_blocktype pr) NOT_PAGE_FRAME.
Definition MKPAB (pa blk : Z) : Z := Z.lor (Z.land pa PAGE_FRAME) (Z.land blk NOT_PAGE_FRAME).

Definition set_samesize (x : option Z) (r : pageref) :=
  mkPr x (next_all r) (pageaddr_and_blocktype r) (freelist_offset r) (nfree r).
Definition set_all (x : option Z) (r : pageref) :=
  mkPr (next_samesize r) x (pageaddr_and_blocktype r) (freelist_offset r) (nfree r).
Definition set_page (pab n : Z) (r : pageref) :=
  mkPr (next_samesize r) (next_all r) pab (freelist_offset r) n.
Definition set_free (off n : Z) (r : pageref) :=
  mkPr (next_samesize r) (next_all r) (pageaddr_and_blocktype r) off n.

Section Kmalloc.
Context {P : Type} `{!KPages P}.

(** The statics of the file, the words of kernel memory, and the page
    allocator. *)
Record heap := mkHeap {
  pagerefs : list pageref; pagerefs_inuse : list Z;
  sizebases : list (option Z); allbase : option Z;
  kmalloc_spinlock : bool; mem : Z -> Z; pages : P }.

Definition put_refs (x : list pageref) : M heap unit := modify (fun h =>
  mkHeap x (pagerefs_inuse h) (sizebases h) (allbase h) (kmalloc_spinlock h) (mem h) (pages h)).
Definition put_inuse (x : list Z) : M heap unit := modify (fun h =>
  mkHeap (pagerefs h) x (sizebases h) (allbase h) (kmalloc_spinlock h) (mem h) (pages h)).
Definition put_bases (x : list (option Z)) : M heap unit := modify (fun h =>
  mkHeap (pagerefs h) (pagerefs_inuse h) x (allbase h) (kmalloc_spinlock h) (mem h) (pages h)).
Definition put_allbase (x : option Z) : M heap unit := modify (fun h =>
  mkHeap (pagerefs h) (pagerefs_inuse h) (sizebases h) x (kmalloc_spinlock h) (mem h) (pages h)).
Definition put_lock (x : bool) : M heap unit := modify (fun h =>
  mkHeap (pagerefs h) (pagerefs_inuse h) (sizebases h) (allbase h) x (mem h) (pages h)).
Definition put_mem (x : Z -> Z) : M heap unit := modify (fun h =>
  mkHeap (pagerefs h) (pagerefs_inuse h) (sizebases h) (allbase h) (kmalloc_spinlock h) x (pages h)).
Definition put_pages (x : P) : M heap unit := modify (fun h =>
  mkHeap (pagerefs h) (pagerefs_inuse h) (sizebases h) (allbase h) (kmalloc_spinlock h) (mem h) x).

(** [spinlock_acquire] panics on a lock this processor already holds. *)
Definition acquire : M heap unit := let* h := get in KASSERT (negb (kmalloc_spinlock h)) ;; put_lock true.
Definition release : M heap unit := let* h := get in KASSERT (kmalloc_spinlock h) ;; put_lock false.

Definition get_ref (j : Z) : M heap pageref := let* h := get in of_option Wild (zlookup (pagerefs h) j).
Definition upd_ref (j : Z) (f : pageref -> pageref) : M heap unit :=
  let* h := get in
  let* r := of_option Wild (zlookup (pagerefs h) j) in
  put_refs (zinsert (pagerefs h) j (f r)).
Definition load (a : Z) : M heap Z := gets (fun h => mem h a).
Definition store (a v : Z) : M heap unit :=
  let* h := get in put_mem (fun b => if b =? a then v else mem h b).
Definition size_of (blktype : Z) : M heap Z := of_option Wild (zlookup sizes blktype).

(** [fill_deadbeef], word by word. *)
Fixpoint fill_loop (n : nat) (ptr i : Z) : M heap unit :=
  match n with
  | O => ret tt
  | S n' => store (ptr + 4 * i) 0xdeadbeef ;; fill_loop n' ptr (i + 1)
  end.
Definition fill_deadbeef (ptr len : Z) : M heap unit := fill_loop (Z.to_nat (len / 4)) ptr 0.

(** ** Page references *)

(** The bits [k = 1 << j], while [k] is not shifted out. *)
Fixpoint find_bit (n : nat) (j w : Z) : option Z :=
  match n with
  | O => None
  | S n' => if Z.land w (u32 (bit_mask j)) =? 0 then Some j else find_bit n' (j + 1) w
  end.

Fixpoint allocpageref_loop (n : nat) (i : Z) : M heap (option Z) :=
  match n with
  | O => ret None
  | S n' =>
      let* h := get in
      let* w := of_option Wild (zlookup (pagerefs_inuse h) i) in
      if w =? 0xffffffff then allocpageref_loop n' (i + 1)
      else match find_bit 32 0 w with
           | Some j =>
               put_inuse (zinsert (pagerefs_inuse h) i (Z.lor w (u32 (bit_mask j)))) ;;
               ret (Some (i * 32 + j))
           | None => panic
           end
  end.
Definition allocpageref : M heap (option Z) := allocpageref_loop (Z.to_nat INUSE_WORDS) 0.

Definition freepageref (j : Z) : M heap unit :=
  KASSERT (j <? NPAGEREFS) ;;
  let i := j / 32 in
  let k := u32 (bit_mask (j mod 32)) in
  let* h := get in
  let* w := of_option Wild (zlookup (pagerefs_inuse h) i) in
  KASSERT (negb (Z.land w k =? 0)) ;;
  put_inuse (zinsert (pagerefs_inuse h) i (Z.land w (Z.land (Z.lnot k) (2 ^ 32 - 1)))).

(** ** Lists of pages *)

(** [guy] is a pointer to a pointer: to a list's base ([None]) or to the next
    field of an element.  [rd] and [wr] dereference it. *)
Fixpoint unlink (rd : option Z -> M heap (option Z)) (wr : option Z -> option Z -> M heap unit)
    (fuel : nat) (pr : Z) (guy : option Z) : M heap unit :=
  match fuel with
  | O => crashed Hung
  | S fuel' =>
      let* cur := rd guy in
      match cur with
      | None => ret tt
      | Some c =>
          if c =? pr then
            let* next := rd (Some pr) in
            wr guy next
          else unlink rd wr fuel' pr (Some c)
      end
  end.

Definition rd_samesize (blktype : Z) (guy : option Z) : M heap (option Z) :=
  let* h := get in
  match guy with
  | None => of_option Wild (zlookup (sizebases h) blktype)
  | Some g => let* r := get_ref g in ret (next_samesize r)
  end.
Definition wr_samesize (blktype : Z) (guy x : option Z) : M heap unit :=
  let* h := get in
  match guy with
  | None => put_bases (zinsert (sizebases h) blktype x)
  | Some g => upd_ref g (set_samesize x)
  end.
Definition rd_all (guy : option Z) : M heap (option Z) :=
  let* h := get in
  match guy with
  | None => ret (allbase h)
  | Some g => let* r := get_ref g in ret (next_all r)
  end.
Definition wr_all (guy x : option Z) : M heap unit :=
  match guy with
  | None => put_allbase x
  | Some g => upd_ref g (set_all x)
  end.

Definition FUEL : nat := 257.
Definition remove_lists (pr blktype : Z) : M heap unit :=
  KASSERT ((0 <=? blktype) && (blktype <? NSIZES)) ;;
  unlink (rd_samesize blktype) (wr_samesize blktype) FUEL pr None ;;
  unlink rd_all wr_all FUEL pr None.

Fixpoint blocktype_loop (l : list Z) (i sz : Z) : option Z :=
  match l with
  | [] => None
  | s :: l' => if sz <=? s then Some i else blocktype_loop l' (i + 1) sz
  end.
Definition blocktype (sz : Z) : M heap Z :=
  match blocktype_loop sizes 0 sz with Some i => ret i | None => panic end.

(** ** Allocation *)

(** The label [doalloc]: take the first free block of page [pr]. *)
Definition doalloc (pr : Z) : M heap Z :=
  let* r := get_ref pr in
  KASSERT (freelist_offset r <? PAGE_SIZE) ;;
  let prpage := PR_PAGEADDR r in
  let fla := u32 (prpage + freelist_offset r) in
  let retptr := fla in
  let* fl := load fla in
  upd_ref pr (set_free (freelist_offset r) (u16 (nfree r - 1))) ;;
  let n := u16 (nfree r - 1) in
  (if negb (fl =? 0) then
     KASSERT (0 <? n) ;;
     KASSERT (u32 (fl - prpage) <? PAGE_SIZE) ;;
     upd_ref pr (set_free (u16 (u32 (fl - prpage))) n)
   else
     KASSERT (n =? 0) ;;
     upd_ref pr (set_free INVALID_OFFSET n)) ;;
  release ;;
  ret retptr.

(** The pages of the right size, from [pr] on. *)
Fixpoint find_page (fuel : nat) (blktype : Z) (pr : option Z) : M heap (option Z) :=
  match fuel with
  | O => crashed Hung
  | S fuel' =>
      match pr with
      | None => ret None
      | Some j =>
          let* r := get_ref j in
          KASSERT (PR_BLOCKTYPE r =? blktype) ;;
          if 0 <? nfree r then
            let* p := doalloc j in ret (Some p)
          else find_page fuel' blktype (next_samesize r)
      end
  end.

(** Up to the first [spinlock_release]: a block of a page there is. *)
Definition subpage_try (blktype : Z) : M heap (option Z) :=
  acquire ;;
  let* h := get in
  let* base := of_option Wild (zlookup (sizebases h) blktype) in
  let* p := find_page FUEL blktype base in
  match p with
  | Some p => ret (Some p)
  | None => release ;; ret None
  end.

Definition alloc_kpages (npages : Z) : M heap Z :=
  let* h := get in
  let '(a, p) := kp_alloc npages (pages h) in
  put_pages p ;; ret a.
Definition free_kpages (a : Z) : M heap unit :=
  let* h := get in put_pages (kp_free a (pages h)).

(** The free list of a new page: block [i] is linked to block [i-1]. *)
Fixpoint link_blocks (n : nat) (i fla size : Z) : M heap unit :=
  match n with
  | O => ret tt
  | S n' =>
      let fl := u32 (fla + i * size) in
      let next := u32 (fla + (i - 1) * size) in
      store fl next ;;
      KASSERT (negb (fl =? next)) ;;
      link_blocks n' (i + 1) fla size
  end.

(** From the second [spinlock_acquire] to the release: [None] when there is no
    page reference for the new page. *)
Definition subpage_grow (prpage blktype : Z) : M heap (option Z) :=
  acquire ;;
  let* pr := allocpageref in
  match pr with
  | None => release ;; ret None
  | Some pr =>
      let* size := size_of blktype in
      let n := u16 (PAGE_SIZE / size) in
      upd_ref pr (set_page (MKPAB prpage blktype) n) ;;
      store prpage 0 ;;
      link_blocks (Z.to_nat (n - 1)) 1 prpage size ;;
      let offset := u16 (u32 (u32 (prpage + (n - 1) * size) - prpage)) in
      upd_ref pr (set_free offset n) ;;
      KASSERT (offset =? (n - 1) * size) ;;
      let* h := get in
      let* base := of_option Wild (zlookup (sizebases h) blktype) in
      upd_ref pr (set_samesize base) ;;
      put_bases (zinsert (sizebases h) blktype (Some pr)) ;;
      upd_ref pr (set_all (allbase h)) ;;
      put_allbase (Some pr) ;;
      let* p := doalloc pr in ret (Some p)
  end.

(** 0 is NULL. *)
Definition subpage_kmalloc (sz : Z) : M heap Z :=
  let* blktype := blocktype sz in
  let* p := subpage_try blktype in
  match p with
  | Some p => ret p
  | None =>
      let* prpage := alloc_kpages 1 in
      if prpage =? 0 then ret 0
      else
        let* p := subpage_grow prpage blktype in
        match p with
        | Some p => ret p
        | None => free_kpages prpage ;; ret 0
        end
  end.

(** ** Freeing *)

Fixpoint find_addr (fuel : nat) (ptraddr : Z) (pr : option Z) : M heap (option Z) :=
  match fuel with
  | O => crashed Hung
  | S fuel' =>
      match pr with
      | None => ret None
      | Some j =>
          let* r := get_ref j in
          KASSERT ((0 <=? PR_BLOCKTYPE r) && (PR_BLOCKTYPE r <? NSIZES)) ;;
          if (PR_PAGEADDR r <=? ptraddr) && (ptraddr <? u32 (PR_PAGEADDR r + PAGE_SIZE)) then ret (Some j)
          else find_addr fuel' ptraddr (next_all r)
      end
  end.

(** What [subpage_kfree] does under the lock. *)
Inductive freed := NotOurs | Freed | FreedPage (prpage : Z).
Definition subpage_release (ptraddr : Z) : M heap freed :=
  acquire ;;
  let* h := get in
  let* pr := find_addr FUEL ptraddr (allbase h) in
  match pr with
  | None => release ;; ret NotOurs
  | Some pr =>
      let* r := get_ref pr in
      let prpage := PR_PAGEADDR r in
      let blktype := PR_BLOCKTYPE r in
      let offset := u32 (ptraddr - prpage) in
      let* size := size_of blktype in
      (if* (PAGE_SIZE <=? offset) || negb (offset mod size =? 0) then panic) ;;
      fill_deadbeef ptraddr size ;;
      let fla := u32 (prpage + offset) in
      store fla (if freelist_offset r =? INVALID_OFFSET then 0 else u32 (prpage + freelist_offset r)) ;;
      let n := u16 (nfree r + 1) in
      upd_ref pr (set_free (u16 offset) n) ;;
      KASSERT (n <=? PAGE_SIZE / size) ;;
      if n =? PAGE_SIZE / size then
        remove_lists pr blktype ;;
        freepageref pr ;;
        release ;;
        ret (FreedPage prpage)
      else release ;; ret Freed
  end.

(** [true]: not a subpage allocation (the result -1). *)
Definition subpage_kfree (ptraddr : Z) : M heap bool :=
  let* r := subpage_release ptraddr in
  match r with
  | NotOurs => ret true
  | Freed => ret false
  | FreedPage prpage => free_kpages prpage ;; ret false
  end.

(** ** Statistics *)

(** The free list from [fl] on, recorded in a map of the page's blocks. *)
Fixpoint dump_loop (fuel : nat) (prpage size n fl : Z) (freemap : list bool) : M heap (list bool) :=
  match fuel with
  | O => crashed Hung
  | S fuel' =>
      if fl =? 0 then ret freemap
      else
        let index := u32 (fl - prpage) / size in
        KASSERT (index <? n) ;;
        let* next := load fl in
        dump_loop fuel' prpage size n next (zinsert freemap index true)
  end.

(** The line about a page: its address, block size, free and total blocks, and
    for each block whether it is free ('.') or not ('*'). *)
Definition dumpsubpage (pr : Z) : M heap (Z * Z * Z * Z * list bool) :=
  let* h := get in
  KASSERT (kmalloc_spinlock h) ;;
  let* r := get_ref pr in
  let prpage := PR_PAGEADDR r in
  let* size := size_of (PR_BLOCKTYPE r) in
  let n := PAGE_SIZE / size in
  KASSERT (n <=? 256) ;;
  let freemap := zrep n false in
  let* freemap :=
    (if negb (freelist_offset r =? INVALID_OFFSET) then
       dump_loop 257 prpage size n (u32 (prpage + freelist_offset r)) freemap
     else ret freemap) in
  ret (prpage, size, nfree r, n, freemap).

Fixpoint stats_loop (fuel : nat) (pr : option Z) : M heap (list (Z * Z * Z * Z * list bool)) :=
  match fuel with
  | O => crashed Hung
  | S fuel' =>
      match pr with
      | None => ret []
      | Some j =>
          let* line := dumpsubpage j in
          let* r := get_ref j in
          let* lines := stats_loop fuel' (next_all r) in
          ret (line :: lines)
      end
  end.
Definition kheap_printstats : M heap (list (Z * Z * Z * Z * list bool)) :=
  acquire ;;
  let* h := get in
  let* out := stats_loop FUEL (allbase h) in
  release ;;
  ret out.

(** ** The interface *)

Definition kmalloc (sz : Z) : M heap Z :=
  if LARGEST_SUBPAGE_SIZE <=? sz then
    let npages := u32 (u32 (sz + PAGE_SIZE) - 1) / PAGE_SIZE in
    alloc_kpages npages
  else subpage_kmalloc sz.

Definition kfree (ptr : Z) : M heap unit :=
  if ptr =? 0 then ret tt
  else
    let* big := subpage_kfree ptr in
    if* big then (KASSERT (ptr mod PAGE_SIZE =? 0) ;; free_kpages ptr).
End Kmalloc.
End Kmalloc.
