(* ===== verification/KmallocInv.v ===== *)
(** * The kernel heap's invariant

    [KmallocInv] describes a heap by the list of its pages, each with the free
    blocks in the order of its free list, and shows that every critical section
    of the allocator keeps the description true. *)

From S2P Require Import Prelude Kmalloc.
Import Kmalloc.

Module KmallocInv.

(** A page cut into blocks: its page reference, address, block type and the
    addresses of its free blocks. *)
Record apage := mkPage { ap_ref : Z; ap_addr : Z; ap_type : Z; ap_free : list Z }.

Definition set_afree (l : list Z) (a : apage) : apage := mkPage (ap_ref a) (ap_addr a) (ap_type a) l.
Definition psize (a : apage) : Z := 2 ^ (4 + ap_type a).
Definition pcount (a : apage) : Z := PAGE_SIZE / psize a.

(** [x] is a block of page [a]. *)
Definition is_block (a : apage) (x : Z) : Prop :=
  ap_addr a <= x < ap_addr a + PAGE_SIZE /\ (x - ap_addr a) mod psize a = 0.

(** The words of memory link the blocks [l], the first of them at [p]. *)
Fixpoint mchain (m : Z -> Z) (p : Z) (l : list Z) : Prop :=
  match l with
  | [] => p = 0
  | x :: l' => p = x /\ x <> 0 /\ mchain m (m x) l'
  end.

(** The pointers [L] link the elements [l], the first of them at [guy]. *)
Fixpoint chain (L : option Z -> option (option Z)) (guy : option Z) (l : list Z) : Prop :=
  match l with
  | [] => L guy = Some None
  | x :: l' => L guy = Some (Some x) /\ chain L (Some x) l'
  end.

Definition first_off (a : apage) : Z :=
  match ap_free a with [] => INVALID_OFFSET | x :: _ => x - ap_addr a end.

Record page_ok (m : Z -> Z) (r : pageref) (a : apage) : Prop := {
  po_pab : pageaddr_and_blocktype r = ap_addr a + ap_type a;
  po_type : 0 <= ap_type a < NSIZES;
  po_addr : ap_addr a mod PAGE_SIZE = 0 /\ MIPS_KSEG0 <= ap_addr a /\ ap_addr a + PAGE_SIZE <= MIPS_KSEG1;
  po_nfree : nfree r = zlen (ap_free a);
  po_off : freelist_offset r = first_off a;
  po_chain : mchain m (default 0 (head (ap_free a))) (ap_free a);
  po_nodup : NoDup (ap_free a);
  po_blocks : Forall (is_block a) (ap_free a) }.

Lemma sizes_lookup t : 0 <= t < NSIZES -> zlookup sizes t = Some (2 ^ (4 + t)).
Proof.
  unfold NSIZES. intros Ht.
  assert (t = 0 \/ t = 1 \/ t = 2 \/ t = 3 \/ t = 4 \/ t = 5 \/ t = 6 \/ t = 7) as H by lia.
  by repeat destruct H as [->|H]; [..|rewrite H].
Qed.

(** A block size divides the page. *)
Lemma psize_facts a : 0 <= ap_type a < NSIZES ->
  16 <= psize a <= 2048 /\ psize a * pcount a = PAGE_SIZE /\ 2 <= pcount a <= 256 /\ psize a mod 4 = 0.
Proof.
  unfold NSIZES, pcount, psize, PAGE_SIZE. intros Ht.
  assert (ap_type a = 0 \/ ap_type a = 1 \/ ap_type a = 2 \/ ap_type a = 3 \/ ap_type a = 4 \/ ap_type a = 5 \/ ap_type a = 6 \/ ap_type a = 7) as H by lia.
  repeat destruct H as [->|H]; [..|rewrite H]; repeat split; by vm_compute.
Qed.

Lemma pab_split pa t : pa mod PAGE_SIZE = 0 -> is_u32 pa -> 0 <= t < PAGE_SIZE ->
  Z.land (pa + t) PAGE_FRAME = pa /\ Z.land (pa + t) NOT_PAGE_FRAME = t.
Proof.
  unfold is_u32, PAGE_SIZE. intros Hm Hp Ht. rewrite land_not_frame. split; [|unfold PAGE_SIZE; dlia].
  rewrite land_frame; unfold PAGE_SIZE, is_u32; dlia.
Qed.

Lemma disjoint_frame pa t : pa mod PAGE_SIZE = 0 -> 0 <= t < PAGE_SIZE -> Z.land pa t = 0.
Proof.
  intros Hm Ht. apply Z.bits_inj'. intros i Hi. rewrite Z.land_spec, Z.bits_0. destruct (decide (i < 12)).
  - assert (pa = Z.shiftl (pa / 4096) 12) as -> by (rewrite Z.shiftl_mul_pow2 by lia; unfold PAGE_SIZE in *; dlia).
    rewrite Z.shiftl_spec_low by lia. done.
  - rewrite (testbit_high 12 t) by (unfold PAGE_SIZE in *; lia). apply andb_false_r.
Qed.

Lemma mkpab_sum pa t : pa mod PAGE_SIZE = 0 -> is_u32 pa -> 0 <= t < PAGE_SIZE -> MKPAB pa t = pa + t.
Proof.
  intros Hm Hp Ht. unfold MKPAB. rewrite land_frame, land_not_frame, Hm, Z.sub_0_r, (Z.mod_small t) by done.
  pose proof (disjoint_frame pa t Hm Ht) as Hd. rewrite Z.add_nocarry_lxor by done. symmetry. by apply Z.lxor_lor.
Qed.

(** ** Chains *)

Lemma chain_ext L L' guy l :
  (forall g, g = guy \/ (exists x, g = Some x /\ x ∈ l) -> L' g = L g) -> chain L guy l -> chain L' guy l.
Proof.
  revert guy. induction l as [|x l IH]; intros guy Hext; simpl.
  - by rewrite Hext by (by left).
  - intros [Hg Hl]. rewrite Hext by (by left). split; [done|]. apply IH; [|done].
    intros g [->|(y & -> & Hy)]; apply Hext; right; eexists; (split; [done|]); [by left|by right].
Qed.

Lemma mchain_ext m m' p l : (forall x, x ∈ l -> m' x = m x) -> mchain m p l -> mchain m' p l.
Proof.
  revert p. induction l as [|x l IH]; intros p Hext; simpl; [done|]. intros (-> & Hx & Hl). split; [done|]. split; [done|].
  rewrite Hext by (by left). apply IH; [|done]. intros y Hy. apply Hext. by right.
Qed.

(** The same list from another pointer. *)
Lemma chain_shift L L' guy guy' l :
  L' guy' = L guy -> chain L guy l -> (forall x, x ∈ l -> L' (Some x) = L (Some x)) -> chain L' guy' l.
Proof.
  intros Hg Hc Hext. destruct l as [|x l]; simpl in *; [congruence|]. destruct Hc as [Hc1 Hc2]. split; [congruence|].
  eapply chain_ext; [|exact Hc2]. intros g [->|(y & -> & Hy)]; apply Hext; [by left|by right].
Qed.

(** The pointer that points at the element after [pre]. *)
Definition at_end (guy : option Z) (pre : list Z) : option Z := match last pre with Some x => Some x | None => guy end.

Lemma at_end_cons guy x pre : at_end guy (x :: pre) = at_end (Some x) pre.
Proof. unfold at_end. destruct pre as [|y pre]; [done|]. rewrite last_cons. by destruct (last (y :: pre)) eqn:E; [|apply last_None in E]. Qed.

Definition upd_ptr (L : option Z -> option (option Z)) (guy x : option Z) : option Z -> option (option Z) :=
  fun g => if decide (g = guy) then Some x else L g.

Lemma at_end_cases guy pre : at_end guy pre = guy \/ exists x, at_end guy pre = Some x /\ x ∈ pre.
Proof.
  unfold at_end. destruct (last pre) as [x|] eqn:E; [|by left]. right. exists x. split; [done|].
  apply last_Some in E as [l ->]. set_solver.
Qed.

(** Unlinking an element. *)
Lemma chain_unlink L guy pre pr post :
  (forall x, guy = Some x -> x ∉ pre ++ pr :: post) -> NoDup (pre ++ pr :: post) ->
  chain L guy (pre ++ pr :: post) ->
  L (Some pr) = Some (head post) /\ chain (upd_ptr L (at_end guy pre) (head post)) guy (pre ++ post).
Proof.
  revert guy. induction pre as [|x pre IH]; intros guy Hg Hnd; cbn [app chain].
  - intros [Hguy Hc]. assert (L (Some pr) = Some (head post)) as Hpr.
    { destruct post as [|y post]; simpl in Hc; [done|]. by destruct Hc. }
    split; [done|]. change (at_end guy []) with guy.
    destruct post as [|y post]; cbn [chain head] in *; [unfold upd_ptr; by rewrite decide_True|].
    destruct Hc as [_ Hc]. split; [unfold upd_ptr; by rewrite decide_True|].
    eapply chain_ext; [|exact Hc]. intros g Hcase. unfold upd_ptr. rewrite decide_False; [done|]. intros ->.
    destruct Hcase as [->|(z & -> & Hz)]; [by apply (Hg y); [|set_solver]|]. apply (Hg z); [done|set_solver].
  - intros [Hguy Hc]. apply NoDup_cons in Hnd as [Hx Hnd].
    destruct (IH (Some x)) as [Hpr Hch]; [by intros ? [= <-]|done|done|]. split; [done|]. rewrite at_end_cons.
    split; [|done]. unfold upd_ptr. rewrite decide_False; [done|]. intros E.
    destruct (at_end_cases (Some x) pre) as [E2|(z & E2 & Hz)]; rewrite E2 in E.
    + apply (Hg x); [done|set_solver].
    + apply (Hg z); [done|set_solver].
Qed.

Lemma chain_at_end L guy pre pr post : chain L guy (pre ++ pr :: post) -> L (at_end guy pre) = Some (Some pr).
Proof.
  revert guy. induction pre as [|x pre IH]; intros guy; cbn [app chain]; [by intros [? _]|]. intros [_ Hc].
  rewrite at_end_cons. by apply IH.
Qed.

Section Inv.
Context {P : Type} `{!KPages P}.
Abbreviation heap := (@heap P).
Implicit Types (h : heap) (A : list apage).

(** The pointers of the two kinds of lists. *)
Definition all_ptr h (g : option Z) : option (option Z) :=
  match g with None => Some (allbase h) | Some j => next_all <$> zlookup (pagerefs h) j end.
Definition size_ptr (t : Z) h (g : option Z) : option (option Z) :=
  match g with None => zlookup (sizebases h) t | Some j => next_samesize <$> zlookup (pagerefs h) j end.

Definition inuse (ws : list Z) (j : Z) : bool :=
  match zlookup ws (j / 32) with Some w => Z.testbit w (j mod 32) | None => false end.

Record heap_ok h (lk : bool) A : Prop := {
  ho_lock : kmalloc_spinlock h = lk;
  ho_refs : zlen (pagerefs h) = NPAGEREFS;
  ho_words : zlen (pagerefs_inuse h) = INUSE_WORDS /\ Forall is_u32 (pagerefs_inuse h);
  ho_inuse : forall j, 0 <= j < NPAGEREFS -> (inuse (pagerefs_inuse h) j = true <-> j ∈ ap_ref <$> A);
  ho_bases : zlen (sizebases h) = NSIZES;
  ho_all : chain (all_ptr h) None (ap_ref <$> A);
  ho_same : forall t, 0 <= t < NSIZES -> chain (size_ptr t h) None (ap_ref <$> filter (fun a => ap_type a = t) A);
  ho_nodup : NoDup (ap_ref <$> A) /\ NoDup (ap_addr <$> A);
  ho_page : Forall (fun a => exists r, zlookup (pagerefs h) (ap_ref a) = Some r /\ page_ok (mem h) r a) A;
  ho_owned : Forall (fun a => kp_blocks (pages h) !! ap_addr a = Some 1) A;
  ho_pages : kp_ok (pages h) }.

(** ** Page references *)

Lemma find_bit_spec (n : nat) j w :
  is_u32 w -> 0 <= j -> j + Z.of_nat n = 32 ->
  match find_bit n j w with
  | Some k => j <= k < 32 /\ Z.testbit w k = false
  | None => forall k, j <= k < 32 -> Z.testbit w k = true
  end.
Proof.
  revert j. induction n as [|n IH]; intros j Hw Hj Hn; cbn [find_bit]; [lia|].
  assert (u32 (bit_mask j) = bit_mask j) as ->.
  { apply u32_small. unfold bit_mask. rewrite Z.shiftl_1_l. split; [lia|]. apply Z.pow_lt_mono_r; lia. }
  rewrite land_mask_zero by done. destruct (Z.testbit w j) eqn:E; simpl; [|split; [lia|done]].
  specialize (IH (j + 1) Hw ltac:(lia) ltac:(lia)). destruct (find_bit n (j + 1) w); [split; [lia|]; apply IH|].
  intros k Hk. destruct (decide (k = j)) as [->|]; [done|]. apply IH. lia.
Qed.

Lemma find_bit_full w : is_u32 w -> find_bit 32 0 w = None -> w = 0xffffffff.
Proof.
  intros Hw E. pose proof (find_bit_spec 32 0 w Hw ltac:(done) ltac:(done)) as H. rewrite E in H.
  apply (eq_by_bits 32); [done|done|done|]. intros i Hi. rewrite H by lia. change 0xffffffff with (Z.ones 32).
  symmetry. apply Z.ones_spec_low. lia.
Qed.

Definition set_inuse (ws : list Z) h : heap :=
  mkHeap (pagerefs h) ws (sizebases h) (allbase h) (kmalloc_spinlock h) (mem h) (pages h).

Definition words_ok (ws : list Z) : Prop := zlen ws = INUSE_WORDS /\ Forall is_u32 ws.

Lemma inuse_word ws j : words_ok ws -> 0 <= j < NPAGEREFS ->
  exists w, zlookup ws (j / 32) = Some w /\ is_u32 w /\ inuse ws j = Z.testbit w (j mod 32).
Proof.
  intros [Hl Hu] Hj. change INUSE_WORDS with 8 in Hl. unfold NPAGEREFS in Hj.
  destruct (zlookup_is_Some ws (j / 32)) as [w Hw]; [dlia|]. exists w. split; [done|].
  split; [by eapply Forall_zlookup|]. unfold inuse. by rewrite Hw.
Qed.

Lemma inuse_upd ws i w' k : words_ok ws -> 0 <= i < INUSE_WORDS ->
  inuse (zinsert ws i w') k = if decide (k / 32 = i) then Z.testbit w' (k mod 32) else inuse ws k.
Proof.
  intros [Hl _] Hi. unfold inuse. rewrite zlookup_zinsert by lia. rewrite bool_decide_decide.
  destruct (decide (i = k / 32)); [by rewrite decide_True|by rewrite decide_False by congruence].
Qed.

Lemma mask_u32 j : 0 <= j < 32 -> u32 (bit_mask j) = bit_mask j /\ is_u32 (bit_mask j).
Proof.
  intros Hj. assert (is_u32 (bit_mask j)) as H; [|split; [by apply u32_small|done]].
  unfold bit_mask. rewrite Z.shiftl_1_l. split; [lia|]. apply Z.pow_lt_mono_r; lia.
Qed.

Lemma words_upd ws i w' : words_ok ws -> is_u32 w' -> words_ok (zinsert ws i w').
Proof. intros [Hl Hu] Hw. split; [by rewrite zlen_zinsert|by apply Forall_zinsert]. Qed.

Lemma alloc_loop_spec (n : nat) i h (Q : option Z -> heap -> Prop) R :
  words_ok (pagerefs_inuse h) -> 0 <= i -> i + Z.of_nat n = INUSE_WORDS ->
  (forall j ws, 0 <= j < NPAGEREFS -> inuse (pagerefs_inuse h) j = false -> words_ok ws ->
     (forall k, 0 <= k < NPAGEREFS -> inuse ws k = bool_decide (k = j) || inuse (pagerefs_inuse h) k) ->
     Q (Some j) (set_inuse ws h)) ->
  Q None h -> runs (allocpageref_loop n i h) Q R.
Proof.
  intros Hok. revert i. induction n as [|n IH]; intros i Hi Hn HS HN; cbn [allocpageref_loop]; [done|]. runs_steps.
  change INUSE_WORDS with 8 in *. destruct (zlookup_is_Some (pagerefs_inuse h) i) as [w Hw].
  { destruct Hok as [-> _]. change INUSE_WORDS with 8. lia. }
  apply (runs_of_option _ _ w); [done|]. destruct (Z.eqb_spec w 0xffffffff) as [|Hnf]; [apply IH; done || lia|].
  assert (is_u32 w) as Hwu by (destruct Hok as [_ Hu]; by eapply Forall_zlookup).
  pose proof (find_bit_spec 32 0 w Hwu ltac:(done) ltac:(done)) as Hfind.
  destruct (find_bit 32 0 w) as [j|] eqn:Ef; [|by apply find_bit_full in Ef].
  destruct Hfind as [Hj Hfree]. destruct (mask_u32 j Hj) as [-> Hm]. unfold put_inuse. runs_steps.
  assert ((i * 32 + j) / 32 = i /\ (i * 32 + j) mod 32 = j) as [Ed Em] by dlia.
  apply HS; unfold NPAGEREFS in *.
  - lia.
  - unfold inuse. by rewrite Ed, Em, Hw.
  - apply words_upd; [done|]. by apply lor_bound.
  - intros k Hk. rewrite inuse_upd by (done || (change INUSE_WORDS with 8; lia)). destruct (decide (k / 32 = i)) as [E|E].
    + rewrite testbit_set by dlia. unfold inuse at 1. rewrite E, Hw. f_equal. apply bool_decide_ext. split; intros; dlia.
    + rewrite bool_decide_false; [done|]. intros ->. lia.
Qed.

Lemma freepageref_spec h j (Q : unit -> heap -> Prop) R :
  words_ok (pagerefs_inuse h) -> 0 <= j < NPAGEREFS -> inuse (pagerefs_inuse h) j = true ->
  (forall ws, words_ok ws ->
     (forall k, 0 <= k < NPAGEREFS -> inuse ws k = negb (bool_decide (k = j)) && inuse (pagerefs_inuse h) k) ->
     Q tt (set_inuse ws h)) ->
  runs (freepageref j h) Q R.
Proof.
  intros Hok Hj Hin HQ. destruct (inuse_word _ _ Hok Hj) as (w & Hw & Hwu & Hbit). rewrite Hin in Hbit.
  unfold freepageref. runs_steps. apply runs_KASSERT; [apply Z.ltb_lt; lia|]. runs_steps. apply (runs_of_option _ _ w); [done|].
  destruct (mask_u32 (j mod 32)) as [-> Hm]; [dlia|]. runs_steps.
  apply runs_KASSERT; [rewrite land_mask_zero by dlia; by rewrite <- Hbit|]. unfold put_inuse. runs_steps.
  assert (forall i, 0 <= i < 32 -> Z.testbit (Z.land w (Z.land (Z.lnot (bit_mask (j mod 32))) (2 ^ 32 - 1))) i =
                     negb (bool_decide (i = j mod 32)) && Z.testbit w i) as Hclear.
  { intros i Hi. rewrite Z.land_assoc. rewrite Z.land_spec, testbit_clear by dlia. change (2 ^ 32 - 1) with (Z.ones 32).
    rewrite Z.ones_spec_low by lia. apply andb_true_r. }
  apply HQ.
  - apply words_upd; [done|]. apply range_by_bits; [done|apply Z.land_nonneg; left; unfold is_u32 in Hwu; lia|].
    intros i Hi. rewrite Z.land_spec, (testbit_high 32 w) by (done || lia). done.
  - intros k Hk. unfold NPAGEREFS in *. rewrite inuse_upd by (done || (change INUSE_WORDS with 8; dlia)). destruct (decide (k / 32 = j / 32)) as [E|E].
    + rewrite Hclear by dlia. unfold inuse at 1. rewrite E, Hw. f_equal. f_equal. apply bool_decide_ext. split; intros; dlia.
    + rewrite bool_decide_false; [done|]. intros ->. lia.
Qed.

(** ** One page *)

Lemma page_u32 m r a : page_ok m r a -> is_u32 (ap_addr a) /\ ap_addr a + PAGE_SIZE < 2 ^ 32.
Proof. intros [_ _ (_ & H1 & H2) _ _ _ _ _]. unfold is_u32, MIPS_KSEG0, MIPS_KSEG1, PAGE_SIZE in *. lia. Qed.

Lemma page_fields m r a : page_ok m r a -> PR_PAGEADDR r = ap_addr a /\ PR_BLOCKTYPE r = ap_type a.
Proof.
  intros Hp. destruct (page_u32 _ _ _ Hp) as [Hu _]. destruct Hp as [Hpab Ht (Hal & _) _ _ _ _ _].
  unfold PR_PAGEADDR, PR_BLOCKTYPE. rewrite Hpab. apply pab_split; [done|done|]. unfold NSIZES, PAGE_SIZE in *. lia.
Qed.

Lemma refs_insert A i a a' : A !! i = Some a -> ap_ref a' = ap_ref a -> ap_ref <$> <[i := a']> A = ap_ref <$> A.
Proof. intros Ha E. rewrite list_fmap_insert, E. apply list_insert_id. by rewrite list_lookup_fmap, Ha. Qed.
Lemma addrs_insert A i a a' : A !! i = Some a -> ap_addr a' = ap_addr a -> ap_addr <$> <[i := a']> A = ap_addr <$> A.
Proof. intros Ha E. rewrite list_fmap_insert, E. apply list_insert_id. by rewrite list_lookup_fmap, Ha. Qed.

Lemma same_insert A i a a' t :
  A !! i = Some a -> ap_ref a' = ap_ref a -> ap_type a' = ap_type a ->
  ap_ref <$> filter (fun a => ap_type a = t) (<[i := a']> A) = ap_ref <$> filter (fun a => ap_type a = t) A.
Proof.
  intros Ha E1 E2. revert i Ha. induction A as [|b A IH]; intros [|i] Ha; simplify_eq/=.
  - rewrite !filter_cons, E2. case_decide; [|done]. simpl. by rewrite E1.
  - rewrite !filter_cons. case_decide; simpl; [f_equal|]; by apply IH.
Qed.

(** A page changes its free list. *)
Lemma heap_ok_page h lk A i a r r' m' lk' a' :
  heap_ok h lk A -> A !! i = Some a -> zlookup (pagerefs h) (ap_ref a) = Some r ->
  next_samesize r' = next_samesize r -> next_all r' = next_all r ->
  ap_ref a' = ap_ref a -> ap_addr a' = ap_addr a -> ap_type a' = ap_type a -> page_ok m' r' a' ->
  (forall b x, b ∈ A -> ap_addr b <> ap_addr a -> x ∈ ap_free b -> m' x = mem h x) ->
  heap_ok (mkHeap (zinsert (pagerefs h) (ap_ref a) r') (pagerefs_inuse h) (sizebases h) (allbase h) lk' m' (pages h))
    lk' (<[i := a']> A).
Proof.
  intros [Hlk Hrf Hw Hin Hb Hall Hsame [Hnr Hna] Hpg Hown Hkp] Ha Hr Es En E1 E2 E3 Hok Hm.
  pose proof (zlookup_Some_range _ _ _ Hr) as Hrange.
  assert (forall j, next_all <$> zlookup (zinsert (pagerefs h) (ap_ref a) r') j = next_all <$> zlookup (pagerefs h) j) as Fa.
  { intros j. rewrite zlookup_zinsert by done. bool_case; [subst; rewrite Hr; simpl; by rewrite En|done]. }
  assert (forall j, next_samesize <$> zlookup (zinsert (pagerefs h) (ap_ref a) r') j = next_samesize <$> zlookup (pagerefs h) j) as Fs.
  { intros j. rewrite zlookup_zinsert by done. bool_case; [subst; rewrite Hr; simpl; by rewrite Es|done]. }
  assert (forall j b, A !! j = Some b -> j <> i -> ap_ref b <> ap_ref a /\ ap_addr b <> ap_addr a) as Hne.
  { intros j b Hj Hji. split; intros E; apply Hji.
    - eapply NoDup_lookup; [exact Hnr|rewrite list_lookup_fmap, Hj; done|rewrite list_lookup_fmap, Ha; simpl; congruence].
    - eapply NoDup_lookup; [exact Hna|rewrite list_lookup_fmap, Hj; done|rewrite list_lookup_fmap, Ha; simpl; congruence]. }
  split; simpl; rewrite ?(refs_insert A i a a'), ?(addrs_insert A i a a') by done; try done.
  - by rewrite zlen_zinsert.
  - eapply chain_ext; [|exact Hall]. intros [j|] _; [apply Fa|done].
  - intros t Ht. rewrite (same_insert A i a a') by done. eapply chain_ext; [|by apply Hsame]. intros [j|] _; [apply Fs|done].
  - apply Forall_lookup. intros j b [(<- & -> & _)|[Hij Hj]]%list_lookup_insert_Some.
    + exists r'. rewrite E1. by rewrite zlookup_zinsert_eq.
    + destruct (Hne j b Hj ltac:(congruence)) as [Hnref Hnaddr]. destruct (Forall_lookup_1 _ _ _ _ Hpg Hj) as (rb & Hrb & Hob).
      exists rb. split; [by rewrite zlookup_zinsert_ne|]. destruct Hob as [? ? ? ? ? Hc ? ?]. split; try done.
      eapply mchain_ext; [|exact Hc]. intros x Hx. apply (Hm b x); [by eapply list_elem_of_lookup_2|done|done].
  - apply Forall_lookup. intros j b [(<- & -> & _)|[Hij Hj]]%list_lookup_insert_Some; [rewrite E2; exact (Forall_lookup_1 _ _ _ _ Hown Ha)|exact (Forall_lookup_1 _ _ _ _ Hown Hj)].
Qed.

Lemma runs_get_ref h j r (Q : pageref -> heap -> Prop) R :
  zlookup (pagerefs h) j = Some r -> Q r h -> runs (get_ref j h) Q R.
Proof. intros Hr HQ. unfold get_ref. runs_steps. by apply (runs_of_option _ _ r). Qed.

Definition set_ref (j : Z) (r : pageref) h : heap :=
  mkHeap (zinsert (pagerefs h) j r) (pagerefs_inuse h) (sizebases h) (allbase h) (kmalloc_spinlock h) (mem h) (pages h).

Lemma runs_upd_ref h j r f (Q : unit -> heap -> Prop) R :
  zlookup (pagerefs h) j = Some r -> Q tt (set_ref j (f r) h) -> runs (upd_ref j f h) Q R.
Proof. intros Hr HQ. unfold upd_ref, put_refs. runs_steps. apply (runs_of_option _ _ r); [done|]. by runs_steps. Qed.

(** A page has at most its count of free blocks. *)
Lemma block_index a x : 0 <= ap_type a < NSIZES -> is_block a x ->
  x = ap_addr a + psize a * ((x - ap_addr a) / psize a) /\ 0 <= (x - ap_addr a) / psize a < pcount a.
Proof.
  intros Ht [Hr Hm]. destruct (psize_facts a Ht) as (Hs & Hc & Hn & _).
  pose proof (Z.div_mod (x - ap_addr a) (psize a)) as Hd. rewrite Hm in Hd. split; [lia|]. nia.
Qed.

Lemma blocks_bound a l : 0 <= ap_type a < NSIZES -> NoDup l -> Forall (is_block a) l -> zlen l <= pcount a.
Proof.
  intros Ht Hnd Hb. set (idx := fun x => Z.to_nat ((x - ap_addr a) / psize a)).
  assert (NoDup (idx <$> l)) as Hni.
  { apply NoDup_fmap_2_strong; [|done]. intros x y Hx Hy E. rewrite Forall_forall in Hb.
    destruct (block_index a x Ht (Hb x Hx)) as [Ex Rx], (block_index a y Ht (Hb y Hy)) as [Ey Ry].
    unfold idx in E. rewrite Ex, Ey. do 2 f_equal. lia. }
  assert ((idx <$> l) ⊆+ seq 0 (Z.to_nat (pcount a))) as Hsub.
  { apply NoDup_submseteq; [done|]. intros k (x & -> & Hx)%list_elem_of_fmap. rewrite Forall_forall in Hb.
    destruct (block_index a x Ht (Hb x Hx)) as [_ Rx]. apply elem_of_seq. unfold idx. lia. }
  apply submseteq_length in Hsub. rewrite length_fmap, length_seq in Hsub. unfold zlen.
  destruct (psize_facts a Ht) as (_ & _ & Hn & _). lia.
Qed.

Lemma zlookup_ref h lk A i a : heap_ok h lk A -> A !! i = Some a ->
  exists r, zlookup (pagerefs h) (ap_ref a) = Some r /\ page_ok (mem h) r a.
Proof. intros Hok Ha. exact (Forall_lookup_1 _ _ _ _ (ho_page _ _ _ Hok) Ha). Qed.

Lemma zinsert_twice {X} (l : list X) j x y : zinsert (zinsert l j x) j y = zinsert l j y.
Proof. unfold zinsert. case_bool_decide; [|done]. apply list_insert_insert_eq. Qed.

(** ** Taking a block *)

Lemma pop_page m r a x fs :
  page_ok m r a -> ap_free a = x :: fs ->
  (m x = default 0 (head fs)) /\ (head fs = None -> fs = []) /\
  page_ok m (set_free (first_off (set_afree fs a)) (zlen fs) r) (set_afree fs a).
Proof.
  intros [Hpab Ht Hal Hnf Hoff Hch Hnd Hb] Hfree. rewrite Hfree in *. simpl in Hch. destruct Hch as (_ & _ & Hch).
  assert (m x = default 0 (head fs)) as Hmx by (destruct fs; simpl in *; [done|by destruct Hch]).
  split; [done|]. split; [by destruct fs|]. apply NoDup_cons in Hnd as [_ Hnd]. inversion Hb; subst.
  split; simpl; try done. by rewrite Hmx in Hch.
Qed.

Lemma doalloc_spec h A i a x fs (Q : Z -> heap -> Prop) R :
  heap_ok h true A -> A !! i = Some a -> ap_free a = x :: fs ->
  (forall h', heap_ok h' false (<[i := set_afree fs a]> A) -> mem h' = mem h -> pages h' = pages h -> Q x h') ->
  runs (doalloc (ap_ref a) h) Q R.
Proof.
  intros Hok Ha Hfree HQ. destruct (zlookup_ref _ _ _ _ _ Hok Ha) as (r & Hr & Hp).
  destruct (page_fields _ _ _ Hp) as [Epa _]. destruct (page_u32 _ _ _ Hp) as [Hu Hhi].
  destruct (pop_page _ _ _ _ _ Hp Hfree) as (Hmx & Hnil & Hp'). pose proof Hp as [Hpab Ht Hal Hnf Hoff Hch Hnd Hb].
  pose proof (blocks_bound a _ Ht Hnd Hb) as Hbound. destruct (psize_facts a Ht) as (_ & _ & Hcnt & _).
  rewrite Hfree in *. rewrite zlen_cons in *. pose proof (zlen_nonneg fs) as Hlen. unfold first_off in Hoff. rewrite Hfree in Hoff.
  rewrite Forall_cons in Hb. destruct Hb as [[Hx _] Hb]. unfold is_u32 in Hu.
  pose proof (zlookup_Some_range _ _ _ Hr) as Hrange.
  unfold doalloc. runs_steps. eapply runs_get_ref; [exact Hr|]. rewrite Epa, Hoff, Hnf. runs_steps.
  apply runs_KASSERT; [apply Z.ltb_lt; lia|].
  assert (u32 (ap_addr a + (x - ap_addr a)) = x) as -> by (rewrite u32_small; unfold is_u32; lia).
  unfold load. runs_steps. rewrite Hmx. eapply runs_upd_ref; [exact Hr|].
  assert (u16 (zlen fs + 1 - 1) = zlen fs) as -> by (replace (zlen fs + 1 - 1) with (zlen fs) by lia; apply Z.mod_small; lia).
  assert (forall off, off = first_off (set_afree fs a) ->
    runs ((upd_ref (ap_ref a) (set_free off (zlen fs)) ;; release ;; ret x)
       (set_ref (ap_ref a) (set_free (x - ap_addr a) (zlen fs) r) h)) Q R) as Hfin.
  { intros off ->. runs_steps. eapply runs_upd_ref; [by apply zlookup_zinsert_eq|]. unfold release, put_lock. runs_steps.
    simpl. apply runs_KASSERT; [apply Hok|]. runs_steps. simpl. rewrite zinsert_twice. apply HQ; [|done|done].
    eapply (heap_ok_page h true A i a r); try done. }
  destruct fs as [|y fs]; simpl.
  - runs_steps. exact (runs_bind_inv _ _ _ _ _ (Hfin _ eq_refl)).
  - rewrite (proj2 (Z.eqb_neq y 0)) by (by destruct Hch as (_ & _ & _ & ? & _)). simpl. runs_steps.
    inversion Hb as [|? ? [Hy _] _]; subst.
    assert (u32 (y - ap_addr a) = y - ap_addr a) as -> by (rewrite u32_small; unfold is_u32, PAGE_SIZE in *; lia).
    apply runs_KASSERT; [apply Z.ltb_lt; lia|]. refine (runs_bind_inv _ _ _ _ _ (Hfin _ _)).
    unfold first_off. simpl. apply Z.mod_small. unfold PAGE_SIZE in *. lia.
Qed.

Definition set_lock (lk : bool) h : heap :=
  mkHeap (pagerefs h) (pagerefs_inuse h) (sizebases h) (allbase h) lk (mem h) (pages h).

Lemma heap_ok_lock h lk lk' A : heap_ok h lk A -> heap_ok (set_lock lk' h) lk' A.
Proof. intros []. by split. Qed.

Lemma runs_kacquire h A (Q : unit -> heap -> Prop) R :
  heap_ok h false A -> (heap_ok (set_lock true h) true A -> Q tt (set_lock true h)) -> runs (acquire h) Q R.
Proof.
  intros Hok HQ. unfold acquire, put_lock. runs_steps. apply runs_KASSERT; [by rewrite (ho_lock _ _ _ Hok)|]. runs_steps.
  apply HQ. by eapply heap_ok_lock.
Qed.

Lemma runs_krelease h A (Q : unit -> heap -> Prop) R :
  heap_ok h true A -> (heap_ok (set_lock false h) false A -> Q tt (set_lock false h)) -> runs (release h) Q R.
Proof.
  intros Hok HQ. unfold release, put_lock. runs_steps. apply runs_KASSERT; [by rewrite (ho_lock _ _ _ Hok)|]. runs_steps.
  apply HQ. by eapply heap_ok_lock.
Qed.

(** The pointer [p] starts the list [l]. *)
Fixpoint links (L : option Z -> option (option Z)) (p : option Z) (l : list Z) : Prop :=
  match l with
  | [] => p = None
  | x :: l' => p = Some x /\ exists q, L (Some x) = Some q /\ links L q l'
  end.

Lemma chain_links L guy l : chain L guy l -> exists p, L guy = Some p /\ links L p l.
Proof.
  revert guy. induction l as [|x l IH]; intros guy; simpl; [by eauto|].
  intros [Hg Hc]. eexists. split; [done|]. split; [done|]. by apply IH.
Qed.

Lemma refs_bound h lk A : heap_ok h lk A -> (length A <= 256)%nat.
Proof.
  intros Hok. assert ((Z.to_nat <$> (ap_ref <$> A)) ⊆+ seq 0 256) as Hsub.
  { assert (forall j, j ∈ ap_ref <$> A -> 0 <= j < 256) as Hr.
    { intros j (a & -> & Ha)%list_elem_of_fmap. apply list_elem_of_lookup in Ha as [i Ha].
      destruct (zlookup_ref _ _ _ _ _ Hok Ha) as (r & Hr & _). apply zlookup_Some_range in Hr. rewrite (ho_refs _ _ _ Hok) in Hr. done. }
    apply NoDup_submseteq.
    - apply NoDup_fmap_2_strong; [|apply Hok]. intros x y Hx%Hr Hy%Hr E. lia.
    - intros k (j & -> & Hj%Hr)%list_elem_of_fmap. apply elem_of_seq. lia. }
  apply submseteq_length in Hsub. by rewrite !length_fmap, length_seq in Hsub.
Qed.

Lemma find_page_spec fuel t h A As pr (Q : option Z -> heap -> Prop) R :
  heap_ok h true A -> (forall a, a ∈ As -> a ∈ A /\ ap_type a = t) ->
  links (size_ptr t h) pr (ap_ref <$> As) -> (length As < fuel)%nat ->
  (forall i a x fs h', A !! i = Some a -> ap_type a = t -> ap_free a = x :: fs ->
     heap_ok h' false (<[i := set_afree fs a]> A) -> mem h' = mem h -> pages h' = pages h -> Q (Some x) h') ->
  Q None h -> runs (find_page fuel t pr h) Q R.
Proof.
  intros Hok Hin Hl Hf HS HN. revert fuel pr Hl Hf Hin. induction As as [|a As IH]; intros [|fuel] pr Hl Hf Hin; cbn [find_page] in *; try (simpl in Hf; lia).
  { simpl in Hl. subst pr. by runs_steps. }
  destruct Hl as (-> & q & Hq & Hl). destruct (Hin a) as [Ha Hta]; [by left|]. apply list_elem_of_lookup in Ha as [i Ha].
  destruct (zlookup_ref _ _ _ _ _ Hok Ha) as (r & Hr & Hp). destruct (page_fields _ _ _ Hp) as [_ Et].
  simpl in Hq. rewrite Hr in Hq. injection Hq as Hq. runs_steps. eapply runs_get_ref; [done|]. runs_steps.
  apply runs_KASSERT; [apply Z.eqb_eq; congruence|]. rewrite (po_nfree _ _ _ Hp).
  destruct (ap_free a) as [|x fs] eqn:Hfree.
  - simpl. rewrite Hq. apply IH; [done|simpl in Hf; lia|]. intros b Hb. apply Hin. by right.
  - rewrite zlen_cons. pose proof (zlen_nonneg fs). rewrite (proj2 (Z.ltb_lt _ _)) by lia. runs_steps.
    eapply doalloc_spec; [done|done|done|]. intros h' Hok' Hm Hpg. runs_steps. by eapply HS.
Qed.

Lemma subpage_try_spec h A t (Q : option Z -> heap -> Prop) R :
  heap_ok h false A -> 0 <= t < NSIZES ->
  (forall i a x fs h', A !! i = Some a -> ap_type a = t -> ap_free a = x :: fs ->
     heap_ok h' false (<[i := set_afree fs a]> A) -> mem h' = mem h -> pages h' = pages h -> Q (Some x) h') ->
  (forall h', heap_ok h' false A -> mem h' = mem h -> pages h' = pages h -> Q None h') ->
  runs (subpage_try t h) Q R.
Proof.
  intros Hok Ht HS HN. unfold subpage_try. runs_steps. eapply runs_kacquire; [done|]. intros Hok1. runs_steps.
  destruct (chain_links _ _ _ (ho_same _ _ _ Hok1 t Ht)) as (base & Hbase & Hl). simpl in Hbase.
  apply (runs_of_option _ _ base); [done|]. runs_steps. eapply find_page_spec; [done| |exact Hl| | |].
  - intros a Ha. apply list_elem_of_filter in Ha. tauto.
  - pose proof (refs_bound _ _ _ Hok). pose proof (length_filter (fun a => ap_type a = t) A). unfold FUEL. lia.
  - intros i a x fs h' Ha Hta Hfree Hok' Hm Hp. runs_steps. by eapply HS.
  - runs_steps. eapply runs_krelease; [done|]. intros Hok2. runs_steps. by apply HN.
Qed.

(** ** A new page *)

(** The first [k] blocks of a page, the last first. *)
Fixpoint down (k : nat) (page size : Z) : list Z :=
  match k with O => [] | S k' => page + Z.of_nat k' * size :: down k' page size end.

Lemma elem_down k page size x : x ∈ down k page size <-> exists j, 0 <= j < Z.of_nat k /\ x = page + j * size.
Proof.
  induction k as [|k IH]; simpl.
  - split; [by intros ?%elem_of_nil|]. intros (j & Hj & _). lia.
  - rewrite elem_of_cons, IH. split.
    + intros [->|(j & Hj & ->)]; [exists (Z.of_nat k)|exists j]; (split; [lia|done]).
    + intros (j & Hj & ->). destruct (decide (j = Z.of_nat k)) as [->|]; [by left|right]. exists j. split; [lia|done].
Qed.

Lemma nodup_down k page size : 0 < size -> NoDup (down k page size).
Proof.
  intros Hs. induction k as [|k IH]; simpl; [constructor|]. constructor; [|done].
  rewrite elem_down. intros (j & Hj & E). nia.
Qed.

Lemma length_down k page size : length (down k page size) = k.
Proof. induction k; simpl; auto. Qed.

Definition set_mem (m : Z -> Z) h : heap :=
  mkHeap (pagerefs h) (pagerefs_inuse h) (sizebases h) (allbase h) (kmalloc_spinlock h) m (pages h).

Lemma link_blocks_spec (n i : nat) page size h (Q : unit -> heap -> Prop) R :
  0 < size -> 0 < page -> page + Z.of_nat (i + n) * size < 2 ^ 32 -> (1 <= i)%nat ->
  mchain (mem h) (page + Z.of_nat (i - 1) * size) (down i page size) ->
  (forall m, mchain m (page + Z.of_nat (i + n - 1) * size) (down (i + n) page size) ->
     (forall x, ~ (page <= x < page + Z.of_nat (i + n) * size) -> m x = mem h x) -> Q tt (set_mem m h)) ->
  runs (link_blocks n (Z.of_nat i) page size h) Q R.
Proof.
  intros Hs Hp. revert i h. induction n as [|n IH]; intros i h Hhi Hi Hch HQ; cbn [link_blocks].
  { rewrite Nat.add_0_r in HQ. specialize (HQ (mem h) Hch ltac:(done)). by destruct h. }
  assert (u32 (page + Z.of_nat i * size) = page + Z.of_nat i * size) as -> by (apply u32_small; unfold is_u32; nia).
  replace (Z.of_nat i - 1) with (Z.of_nat (i - 1)) by lia.
  assert (u32 (page + Z.of_nat (i - 1) * size) = page + Z.of_nat (i - 1) * size) as -> by (apply u32_small; unfold is_u32; nia).
  unfold store, put_mem. runs_steps. apply runs_KASSERT; [apply negb_true_iff, Z.eqb_neq; nia|].
  set (h1 := mkHeap _ _ _ _ _ _ _). replace (Z.of_nat i + 1) with (Z.of_nat (S i)) by lia.
  replace (i + S n)%nat with (S i + n)%nat in * by lia.
  apply IH; [done|lia| |].
  - replace (S i - 1)%nat with i by lia. cbn [down mchain]. split; [done|]. split; [nia|]. simpl. rewrite Z.eqb_refl.
    eapply mchain_ext; [|exact Hch]. intros x (j & Hj & ->)%elem_down. simpl. rewrite (proj2 (Z.eqb_neq _ _)) by nia. done.
  - intros m Hm Hout. apply (HQ m Hm). intros x Hx. rewrite Hout by done. simpl. rewrite (proj2 (Z.eqb_neq _ _)) by nia. done.
Qed.

Definition new_page (j page t : Z) : apage :=
  mkPage j page t (down (Z.to_nat (PAGE_SIZE / 2 ^ (4 + t))) page (2 ^ (4 + t))).

Lemma new_blocks j page t : 0 <= t < NSIZES -> Forall (is_block (new_page j page t)) (ap_free (new_page j page t)).
Proof.
  intros Ht. destruct (psize_facts (new_page j page t) Ht) as (Hs & Hc & Hn & _). unfold pcount, psize in *. simpl in *.
  apply Forall_forall. intros x (k & Hk & ->)%elem_down. unfold is_block, psize. simpl. split; [nia|].
  replace (page + k * 2 ^ (4 + t) - page) with (k * 2 ^ (4 + t)) by lia. apply Z.mod_mul. lia.
Qed.

Lemma heap_ok_new h A j ws base m page t :
  heap_ok h true A -> 0 <= t < NSIZES -> 0 <= j < NPAGEREFS -> inuse (pagerefs_inuse h) j = false -> words_ok ws ->
  (forall k, 0 <= k < NPAGEREFS -> inuse ws k = bool_decide (k = j) || inuse (pagerefs_inuse h) k) ->
  zlookup (sizebases h) t = Some base -> kp_blocks (pages h) !! page = Some 1 -> page ∉ ap_addr <$> A ->
  let a := new_page j page t in
  let r := mkPr base (allbase h) (page + t) (first_off a) (zlen (ap_free a)) in
  mchain m (default 0 (head (ap_free a))) (ap_free a) ->
  (forall x, ~ (page <= x < page + PAGE_SIZE) -> m x = mem h x) ->
  heap_ok (mkHeap (zinsert (pagerefs h) j r) ws (zinsert (sizebases h) t (Some j)) (Some j) true m (pages h)) true (a :: A).
Proof.
  intros [Hlk Hrf Hw Hin Hb Hall Hsame [Hnr Hna] Hpg Hown Hkp] Ht Hj Hfree Hws Hinuse Hbase Hblk Hfresh a r Hch Hm.
  assert (j ∉ ap_ref <$> A) as Hja by (intros Hj'; apply (Hin j Hj) in Hj'; congruence).
  assert (forall b, b ∈ A -> ap_ref b <> j) as Hne by (intros b Hb' E; apply Hja; rewrite <- E; by apply list_elem_of_fmap_2).
  assert (forall k, k <> j -> zlookup (zinsert (pagerefs h) j r) k = zlookup (pagerefs h) k) as Fne by (intros; by apply zlookup_zinsert_ne).
  destruct (kp_range _ _ _ Hkp Hblk) as (_ & Hal & Hlo & Hhi). rewrite Z.mul_1_l in Hhi.
  split; simpl; try done.
  - by rewrite zlen_zinsert.
  - intros k Hk. rewrite Hinuse, orb_true_iff, bool_decide_eq_true, elem_of_cons, Hin by done. done.
  - by rewrite zlen_zinsert.
  - split; [done|]. eapply (chain_shift (all_ptr h) _ None); [|exact Hall|].
    + simpl. rewrite zlookup_zinsert_eq by lia. done.
    + intros k (b & -> & Hb')%list_elem_of_fmap. simpl. by rewrite Fne by (by apply Hne).
  - intros t' Ht'. rewrite filter_cons. simpl. case_decide as E.
    + subst t'. simpl. rewrite zlookup_zinsert_eq by lia. split; [done|].
      eapply (chain_shift (size_ptr t h) _ None); [|by apply Hsame|].
      * simpl. rewrite zlookup_zinsert_eq by lia. by rewrite Hbase.
      * intros k (b & -> & Hb'%list_elem_of_filter)%list_elem_of_fmap. simpl. by rewrite Fne by (apply Hne, Hb').
    + eapply chain_ext; [|by apply Hsame]. intros g [->|(k & -> & (b & -> & Hb'%list_elem_of_filter)%list_elem_of_fmap)]; simpl.
      * by rewrite zlookup_zinsert_ne.
      * by rewrite Fne by (apply Hne, Hb').
  - split; [by constructor|by constructor].
  - constructor.
    + exists r. change (ap_ref a) with j. rewrite zlookup_zinsert_eq by lia. split; [done|]. split; try done; [|by apply new_blocks].
      simpl. apply nodup_down. apply Z.pow_pos_nonneg; lia.
    + rewrite Forall_forall in Hpg, Hown |- *. intros b Hb'. destruct (Hpg b Hb') as (rb & Hrb & Hob). exists rb.
      split; [by rewrite Fne by (by apply Hne)|]. destruct Hob as [? ? ? ? ? Hc ? Hbl]. split; try done.
      eapply mchain_ext; [|exact Hc]. intros x Hx. apply Hm. rewrite Forall_forall in Hbl. destruct (Hbl x Hx) as [Hxr _].
      destruct (kp_disjoint _ _ _ _ _ Hkp Hblk (Hown b Hb')) as [|]; [|lia..].
      intros ->. apply Hfresh. by apply list_elem_of_fmap_2.
  - by constructor.
Qed.

Lemma runs_free_kpages h lk A page (Q : unit -> heap -> Prop) R :
  heap_ok h lk A -> page ∉ ap_addr <$> A ->
  (forall h', heap_ok h' lk A -> mem h' = mem h -> pages h' = kp_free page (pages h) -> Q tt h') ->
  runs (free_kpages page h) Q R.
Proof.
  intros [Hlk Hrf Hw Hin Hb Hall Hsame Hn Hpg Hown Hkp] Hnp HQ. unfold free_kpages, put_pages. runs_steps.
  destruct (kp_free_ok page (pages h) Hkp) as [Hok' Hbl]. apply HQ; [|done|done]. split; simpl; try done.
  rewrite Forall_forall in Hown |- *. intros a Ha. destruct Hbl as [->| ->]; [by apply Hown|].
  rewrite lookup_delete_ne; [by apply Hown|]. intros ->. apply Hnp. by apply list_elem_of_fmap_2.
Qed.

Lemma subpage_grow_spec h A page t (Q : option Z -> heap -> Prop) R :
  heap_ok h false A -> 0 <= t < NSIZES -> kp_blocks (pages h) !! page = Some 1 -> page ∉ ap_addr <$> A ->
  (forall j x fs h', j ∉ ap_ref <$> A -> ap_free (new_page j page t) = x :: fs ->
     heap_ok h' false (set_afree fs (new_page j page t) :: A) ->
     (forall y, ~ (page <= y < page + PAGE_SIZE) -> mem h' y = mem h y) -> pages h' = pages h -> Q (Some x) h') ->
  (forall h', heap_ok h' false A -> mem h' = mem h -> pages h' = pages h -> Q None h') ->
  runs (subpage_grow page t h) Q R.
Proof.
  intros Hok Ht Hblk Hfresh HS HN. destruct (kp_range _ _ _ (ho_pages _ _ _ Hok) Hblk) as (_ & Hal & Hlo & Hhi). rewrite Z.mul_1_l in Hhi.
  unfold subpage_grow. runs_steps. eapply runs_kacquire; [done|]. intros Hok1. runs_steps.
  pose proof (ho_words _ _ _ Hok) as Hws. apply alloc_loop_spec; [exact Hws|done|done| |].
  2: { runs_steps. eapply runs_krelease; [done|]. intros Hok2. runs_steps. by apply HN. }
  intros j ws Hj Hfree Hws' Hinuse. simpl in Hfree, Hinuse. set (a := new_page j page t).
  destruct (psize_facts a Ht) as (Hs & Hc & Hn & _). change (psize a) with (2 ^ (4 + t)) in *.
  assert (pcount a = PAGE_SIZE / 2 ^ (4 + t)) as Ecount by done. set (n := pcount a) in *. set (size := 2 ^ (4 + t)) in *.
  unfold size_of. runs_steps. apply (runs_of_option _ _ size); [by apply sizes_lookup|]. rewrite <- Ecount.
  assert (u16 n = n) as -> by (apply Z.mod_small; lia).
  destruct (zlookup_is_Some (pagerefs h) j) as [r0 Hr0]; [by rewrite (ho_refs _ _ _ Hok)|].
  runs_steps. eapply runs_upd_ref; [exact Hr0|]. unfold store, put_mem. runs_steps. simpl.
  unfold PAGE_SIZE, MIPS_KSEG0, MIPS_KSEG1 in Hlo, Hhi, Hc, Hal.
  eapply (link_blocks_spec (Z.to_nat (n - 1)) 1); [lia|lia| |done| |].
  { replace (Z.of_nat (1 + Z.to_nat (n - 1))) with n by lia. lia. }
  { simpl. split; [done|]. split; [lia|]. rewrite (proj2 (Z.eqb_eq _ _)); [done|lia]. }
  replace (1 + Z.to_nat (n - 1))%nat with (Z.to_nat n) by lia. replace (Z.of_nat (Z.to_nat n - 1)) with (n - 1) by lia.
  rewrite Z2Nat.id by lia. simpl. intros m Hm Hout.
  assert (u16 (u32 (u32 (page + (n - 1) * size) - page)) = (n - 1) * size) as ->.
  { rewrite (u32_small (page + _)) by (unfold is_u32; lia). rewrite u32_small by (unfold is_u32; lia).
    replace (page + (n - 1) * size - page) with ((n - 1) * size) by lia. apply Z.mod_small. lia. }
  assert (forall r, zlookup (zinsert (pagerefs h) j r) j = Some r) as Hj' by (intros; apply zlookup_zinsert_eq; by rewrite (ho_refs _ _ _ Hok)).
  runs_steps. eapply runs_upd_ref; [apply Hj'|]. runs_steps. apply runs_KASSERT; [apply Z.eqb_refl|]. runs_steps. simpl.
  destruct (chain_links _ _ _ (ho_same _ _ _ Hok t Ht)) as (base & Hbase & _). simpl in Hbase.
  apply (runs_of_option _ _ base); [done|]. unfold set_ref, set_mem. simpl. rewrite zinsert_twice. runs_steps.
  eapply runs_upd_ref; [apply Hj'|]. unfold set_ref. simpl. rewrite zinsert_twice. unfold put_bases. runs_steps. simpl.
  eapply runs_upd_ref; [apply Hj'|]. unfold set_ref. simpl. rewrite zinsert_twice. unfold put_allbase. runs_steps. simpl.
  assert (first_off a = (n - 1) * size /\ zlen (ap_free a) = n /\ head (ap_free a) = Some (page + (n - 1) * size)) as (Hoff & Hlen & Hhd).
  { unfold first_off, a, new_page, zlen. simpl. rewrite length_down. fold size. rewrite <- Ecount.
    destruct (Z.to_nat n) as [|k] eqn:Ek; [lia|]. simpl. replace (Z.of_nat k) with (n - 1) by lia. split_and!; [lia|lia|done]. }
  unfold set_all, set_samesize, set_free, set_page. simpl.
  rewrite mkpab_sum by (unfold is_u32, NSIZES, PAGE_SIZE in *; done || lia).
  pose proof (heap_ok_new (set_lock true h) A j ws base m page t Hok1 Ht Hj Hfree Hws' Hinuse Hbase Hblk Hfresh) as Hnew.
  cbv zeta in Hnew. fold a in Hnew. rewrite Hoff, Hlen, Hhd in Hnew.
  assert (ap_free a = down (Z.to_nat n) page size) as Hfr by (unfold a, new_page; simpl; fold size; by rewrite <- Ecount).
  rewrite Hfr in Hnew, Hhd. specialize (Hnew Hm). unfold PAGE_SIZE in Hnew. assert (n * size = 4096) as Hns by lia. rewrite Hns in Hout.
  assert (forall x, ~ page <= x < page + 4096 -> m x = mem h x) as Hout'.
  { intros x Hx. rewrite Hout by done. rewrite (proj2 (Z.eqb_neq _ _)); [done|]. lia. }
  specialize (Hnew Hout'). destruct (down (Z.to_nat n) page size) as [|x fs] eqn:Hdown; [done|].
  eapply (doalloc_spec _ (a :: A) 0 a x fs); [exact Hnew|done|done|]. intros h' Hok' Hm' Hpg'. simpl in Hok'. runs_steps.
  apply (HS j x fs h'); try done.
  - intros Hin. apply (ho_inuse _ _ _ Hok) in Hin; [congruence|done].
  - intros y Hy. rewrite Hm'. simpl. by apply Hout'.
Qed.

(** ** Removing a page *)

(** Only the links of the lists differ. *)
Record links_only h h' : Prop := {
  lo_lock : kmalloc_spinlock h' = kmalloc_spinlock h;
  lo_inuse : pagerefs_inuse h' = pagerefs_inuse h;
  lo_mem : mem h' = mem h;
  lo_pages : pages h' = pages h;
  lo_bases : zlen (sizebases h') = zlen (sizebases h);
  lo_refs : zlen (pagerefs h') = zlen (pagerefs h);
  lo_ref : forall k r, zlookup (pagerefs h) k = Some r -> exists r', zlookup (pagerefs h') k = Some r' /\
    pageaddr_and_blocktype r' = pageaddr_and_blocktype r /\ freelist_offset r' = freelist_offset r /\ nfree r' = nfree r }.

Lemma links_only_trans h1 h2 h3 : links_only h1 h2 -> links_only h2 h3 -> links_only h1 h3.
Proof.
  intros [? ? ? ? ? ? H1] [? ? ? ? ? ? H2]. split; try congruence.
  intros k r Hr. destruct (H1 k r Hr) as (r' & Hr' & E1 & E2 & E3). destruct (H2 k r' Hr') as (r'' & Hr'' & ? & ? & ?).
  exists r''. split_and!; congruence.
Qed.

Lemma links_only_page m r r' a :
  pageaddr_and_blocktype r' = pageaddr_and_blocktype r -> freelist_offset r' = freelist_offset r -> nfree r' = nfree r ->
  page_ok m r a -> page_ok m r' a.
Proof. intros E1 E2 E3 []. split; congruence. Qed.

Lemma links_only_ref h j r r' :
  zlookup (pagerefs h) j = Some r -> pageaddr_and_blocktype r' = pageaddr_and_blocktype r ->
  freelist_offset r' = freelist_offset r -> nfree r' = nfree r -> links_only h (set_ref j r' h).
Proof.
  intros Hr E1 E2 E3. pose proof (zlookup_Some_range _ _ _ Hr). split; simpl; try done; [by rewrite zlen_zinsert|].
  intros k rk Hk. rewrite zlookup_zinsert by done. bool_case; [|by exists rk]. simplify_eq. by exists r'.
Qed.

Lemma wr_samesize_spec t g x p h (Q : unit -> heap -> Prop) R :
  size_ptr t h g = Some p ->
  (forall h', links_only h h' -> (forall k, all_ptr h' k = all_ptr h k) -> (forall k, size_ptr t h' k = upd_ptr (size_ptr t h) g x k) ->
     (forall t' k, t' <> t -> k = None \/ k <> g -> size_ptr t' h' k = size_ptr t' h k) -> Q tt h') ->
  runs (wr_samesize t g x h) Q R.
Proof.
  intros Hg HQ. unfold wr_samesize. runs_steps. destruct g as [g|]; simpl in Hg.
  - destruct (zlookup (pagerefs h) g) as [r|] eqn:Hr; [|done]. eapply runs_upd_ref; [done|]. apply HQ.
    + by eapply links_only_ref.
    + intros [k|]; [|done]. simpl. rewrite zlookup_zinsert by (by eapply zlookup_Some_range). bool_case; [subst; by rewrite Hr|done].
    + intros [k|]; [|done]. unfold upd_ptr. simpl. rewrite zlookup_zinsert by (by eapply zlookup_Some_range).
      destruct (decide (Some k = Some g)); bool_case; congruence || done.
    + intros t' [k|] _ [Hk|Hk]; try done. simpl. rewrite zlookup_zinsert_ne; congruence.
  - unfold put_bases. runs_steps. pose proof (zlookup_Some_range _ _ _ Hg). apply HQ; simpl; [|done| |].
    + split; simpl; try done; [by rewrite zlen_zinsert|]. eauto.
    + intros [k|]; [done|]. unfold upd_ptr. simpl. by rewrite zlookup_zinsert_eq.
    + intros t' [k|] Ht' _; [done|]. simpl. by rewrite zlookup_zinsert_ne.
Qed.

Lemma wr_all_spec g x p h (Q : unit -> heap -> Prop) R :
  all_ptr h g = Some p ->
  (forall h', links_only h h' -> (forall k, all_ptr h' k = upd_ptr (all_ptr h) g x k) ->
     (forall t k, size_ptr t h' k = size_ptr t h k) -> Q tt h') ->
  runs (wr_all g x h) Q R.
Proof.
  intros Hg HQ. unfold wr_all. destruct g as [g|]; simpl in Hg.
  - destruct (zlookup (pagerefs h) g) as [r|] eqn:Hr; [|done]. eapply runs_upd_ref; [done|]. apply HQ.
    + by eapply links_only_ref.
    + intros [k|]; [|done]. unfold upd_ptr. simpl. rewrite zlookup_zinsert by (by eapply zlookup_Some_range).
      destruct (decide (Some k = Some g)); bool_case; congruence || done.
    + intros t [k|]; [|done]. simpl. rewrite zlookup_zinsert by (by eapply zlookup_Some_range). bool_case; [subst; by rewrite Hr|done].
  - unfold put_allbase. runs_steps. apply HQ; [by split; eauto| |done]. by intros [k|].
Qed.

Lemma unlink_spec rd wr L h pr post fuel (Q : unit -> heap -> Prop) R :
  (forall g p (Q' : option Z -> heap -> Prop) R', L g = Some p -> Q' p h -> runs (rd g h) Q' R') ->
  L (Some pr) = Some (head post) -> forall pre guy,
  chain L guy (pre ++ pr :: post) -> pr ∉ pre -> (length pre < fuel)%nat ->
  runs (wr (at_end guy pre) (head post) h) Q R -> runs (unlink rd wr fuel pr guy h) Q R.
Proof.
  intros Hrd Hpr pre. revert fuel. induction pre as [|x pre IH]; intros [|fuel] guy Hc Hnin Hf Hwr; simpl in Hf; try lia.
  - destruct Hc as [Hg _]. cbn [unlink]. runs_steps. eapply Hrd; [done|]. cbv beta iota. rewrite Z.eqb_refl. runs_steps. by eapply Hrd.
  - destruct Hc as [Hg Hc]. cbn [unlink]. runs_steps. eapply Hrd; [done|]. cbv beta iota. rewrite (proj2 (Z.eqb_neq x pr)) by set_solver.
    apply IH; [done|set_solver|lia|]. by rewrite at_end_cons in Hwr.
Qed.

Lemma runs_rd_samesize t h g p (Q : option Z -> heap -> Prop) R :
  size_ptr t h g = Some p -> Q p h -> runs (rd_samesize t g h) Q R.
Proof.
  intros Hg HQ. unfold rd_samesize. runs_steps. destruct g as [g|]; simpl in Hg; [|by apply (runs_of_option _ _ p)].
  destruct (zlookup (pagerefs h) g) as [r|] eqn:Hr; [|done]. injection Hg as <-. runs_steps. eapply runs_get_ref; [done|]. by runs_steps.
Qed.

Lemma runs_rd_all h g p (Q : option Z -> heap -> Prop) R :
  all_ptr h g = Some p -> Q p h -> runs (rd_all g h) Q R.
Proof.
  intros Hg HQ. unfold rd_all. runs_steps. destruct g as [g|]; simpl in Hg; [|injection Hg as <-; by runs_steps].
  destruct (zlookup (pagerefs h) g) as [r|] eqn:Hr; [|done]. injection Hg as <-. runs_steps. eapply runs_get_ref; [done|]. by runs_steps.
Qed.

Lemma ref_inj A b c : NoDup (ap_ref <$> A) -> b ∈ A -> c ∈ A -> ap_ref b = ap_ref c -> b = c.
Proof.
  intros Hnd (i & Hi)%list_elem_of_lookup (j & Hj)%list_elem_of_lookup E.
  assert (i = j) as ->; [|congruence].
  eapply NoDup_lookup; [exact Hnd|rewrite list_lookup_fmap, Hi; done|rewrite list_lookup_fmap, Hj; simpl; congruence].
Qed.

Abbreviation of_type t := (filter (fun b : apage => ap_type b = t)).

Lemma of_type_nodup A t : NoDup (ap_ref <$> A) -> NoDup (ap_ref <$> of_type t A).
Proof. intros Hnd. eapply sublist_NoDup; [exact Hnd|]. apply fmap_sublist, sublist_filter. Qed.

Lemma remove_lists_spec h A1 a A2 (Q : unit -> heap -> Prop) R :
  heap_ok h true (A1 ++ a :: A2) ->
  (forall h', links_only h h' -> chain (all_ptr h') None (ap_ref <$> A1 ++ A2) ->
     (forall t, 0 <= t < NSIZES -> chain (size_ptr t h') None (ap_ref <$> of_type t (A1 ++ A2))) -> Q tt h') ->
  runs (remove_lists (ap_ref a) (ap_type a) h) Q R.
Proof.
  intros Hok HQ. set (A := A1 ++ a :: A2) in *. pose proof (ho_nodup _ _ _ Hok) as [Hnr _]. pose proof Hnr as Hinj. pose proof (refs_bound _ _ _ Hok) as Hlen.
  assert (0 <= ap_type a < NSIZES) as Ht.
  { pose proof (ho_page _ _ _ Hok) as Hp. rewrite Forall_forall in Hp. destruct (Hp a) as (r & _ & ?); [set_solver|]. by eapply po_type. }
  pose proof (ho_same _ _ _ Hok _ Ht) as Hs. pose proof (of_type_nodup _ (ap_type a) Hnr) as Hns.
  pose proof (ho_all _ _ _ Hok) as Ha. unfold A in Hs, Hns, Ha, Hlen, Hnr. rewrite length_app in Hlen. cbn [length] in Hlen.
  rewrite filter_app, filter_cons, decide_True, fmap_app in Hs, Hns by done. rewrite fmap_app in Ha, Hnr.
  cbn [fmap list_fmap] in Hs, Hns, Ha, Hnr.
  destruct (chain_unlink _ None _ _ _ ltac:(done) Hns Hs) as [Hps Hcs]. destruct (chain_unlink _ None _ _ _ ltac:(done) Hnr Ha) as [Hpa Hca].
  apply NoDup_app in Hns as (_ & Hns & _). apply NoDup_app in Hnr as (_ & Hna & _).
  unfold remove_lists. runs_steps. apply runs_KASSERT; [apply andb_true_iff; split; [apply Z.leb_le|apply Z.ltb_lt]; lia|]. runs_steps.
  eapply (unlink_spec _ _ (size_ptr (ap_type a) h)); [intros; by eapply runs_rd_samesize|exact Hps|exact Hs| | |].
  { intros Hin. apply (Hns _ Hin). by left. }
  { rewrite length_fmap. pose proof (length_filter (fun b => ap_type b = ap_type a) A1). unfold FUEL. lia. }
  eapply wr_samesize_spec; [by eapply chain_at_end|]. intros h1 Hl1 Hall1 Hs1 Hs1'. runs_steps.
  eapply (unlink_spec _ _ (all_ptr h1)); [intros; by eapply runs_rd_all|rewrite Hall1; exact Hpa|eapply chain_ext; [|exact Ha]; intros; apply Hall1| | |].
  { intros Hin. apply (Hna _ Hin). by left. }
  { rewrite length_fmap. unfold FUEL. lia. }
  eapply wr_all_spec; [rewrite Hall1; by eapply chain_at_end|]. intros h2 Hl2 Hall2 Hs2. apply HQ.
  - by eapply links_only_trans.
  - rewrite fmap_app. eapply chain_ext; [|exact Hca]. intros g _. rewrite Hall2. unfold upd_ptr. by case_decide.
  - intros t Ht'. rewrite filter_app, fmap_app. destruct (decide (t = ap_type a)) as [->|Hne].
    + eapply chain_ext; [|exact Hcs]. intros g _. by rewrite Hs2.
    + pose proof (ho_same _ _ _ Hok t Ht') as Hs'. unfold A in Hs'. rewrite filter_app, filter_cons, decide_False, fmap_app in Hs' by congruence.
      eapply chain_ext; [|exact Hs']. intros g Hg. rewrite Hs2, Hs1'; [done|done|]. destruct Hg as [->|(y & -> & Hy)]; [by left|]. right.
      destruct (at_end_cases None (ap_ref <$> of_type (ap_type a) A1)) as [->|(z & -> & Hz)]; [done|]. intros [= ->].
      assert (exists b c, b ∈ A /\ c ∈ A /\ ap_ref b = ap_ref c /\ ap_type b = t /\ ap_type c = ap_type a) as (b & c & Hb & Hc & E & Etb & Etc).
      { rewrite <- fmap_app, <- filter_app in Hy. apply list_elem_of_fmap in Hy as (b & Eb & [Hb Hbin]%list_elem_of_filter).
        apply list_elem_of_fmap in Hz as (c & Ec & [Hc Hcin]%list_elem_of_filter). exists b, c. unfold A. split_and!; [set_solver|set_solver|congruence|done|done]. }
      apply Hne. rewrite <- Etb, <- Etc. f_equal. by eapply ref_inj.
Qed.

Lemma heap_ok_remove h h' A1 a A2 ws :
  heap_ok h true (A1 ++ a :: A2) -> links_only h h' -> chain (all_ptr h') None (ap_ref <$> A1 ++ A2) ->
  (forall t, 0 <= t < NSIZES -> chain (size_ptr t h') None (ap_ref <$> of_type t (A1 ++ A2))) -> words_ok ws ->
  (forall k, 0 <= k < NPAGEREFS -> inuse ws k = negb (bool_decide (k = ap_ref a)) && inuse (pagerefs_inuse h') k) ->
  heap_ok (set_inuse ws h') true (A1 ++ A2).
Proof.
  intros [Hlk Hrf Hw Hin Hb Hall Hsame [Hnr Hna] Hpg Hown Hkp] Hlo Ha Hs Hws Hinuse.
  assert (A1 ++ A2 ⊆ A1 ++ a :: A2) as Hsub by set_solver. destruct Hlo as [E1 E2 E3 E4 E5 E6 Href].
  rewrite E2 in Hinuse. split; simpl; try congruence; try done.
  - intros k Hk. rewrite Hinuse, andb_true_iff, negb_true_iff, bool_decide_eq_false, Hin by done.
    rewrite !fmap_app, fmap_cons in *. apply NoDup_app in Hnr as (_ & Hn1 & Hn2). apply NoDup_cons in Hn2 as [Hn2 _].
    rewrite !elem_of_app, elem_of_cons. specialize (Hn1 (ap_ref a)). rewrite elem_of_cons in Hn1. naive_solver.
  - split; [eapply sublist_NoDup; [exact Hnr|]|eapply sublist_NoDup; [exact Hna|]]; apply fmap_sublist; apply sublist_app; [done|by constructor|done|by constructor].
  - rewrite E3. rewrite Forall_forall in Hpg |- *. intros b Hb'. destruct (Hpg b (Hsub _ Hb')) as (r & Hr & Hok).
    destruct (Href _ _ Hr) as (r' & Hr' & ? & ? & ?). exists r'. split; [done|]. by eapply links_only_page.
  - rewrite E4. rewrite Forall_forall in Hown |- *. intros b Hb'. by apply Hown, Hsub.
Qed.

(** ** Freeing *)

Lemma fill_loop_spec n ptr i h (Q : unit -> heap -> Prop) R :
  (forall m, (forall y, ~ (ptr + 4 * i <= y < ptr + 4 * (i + Z.of_nat n)) -> m y = mem h y) ->
     (forall k, i <= k < i + Z.of_nat n -> m (ptr + 4 * k) = 0xdeadbeef) -> Q tt (set_mem m h)) ->
  runs (fill_loop n ptr i h) Q R.
Proof.
  revert i h. induction n as [|n IH]; intros i h HQ; cbn [fill_loop].
  - runs_steps. assert (h = set_mem (mem h) h) as -> by (by destruct h). apply HQ; [done|lia].
  - unfold store, put_mem. runs_steps. apply IH. intros m Hm Hk. apply HQ.
    + intros y Hy. rewrite Hm by lia. simpl. rewrite (proj2 (Z.eqb_neq _ _)) by lia. done.
    + intros k Hk'. destruct (decide (k = i)) as [->|]; [|apply Hk; lia]. rewrite Hm by lia. simpl. by rewrite Z.eqb_refl.
Qed.

Lemma find_addr_spec fuel x h A As pr (Q : option Z -> heap -> Prop) R :
  heap_ok h true A -> As ⊆ A -> links (all_ptr h) pr (ap_ref <$> As) -> (length As < fuel)%nat ->
  (forall i a, A !! i = Some a -> ap_addr a <= x < ap_addr a + PAGE_SIZE -> Q (Some (ap_ref a)) h) ->
  ((forall a, a ∈ As -> ~ (ap_addr a <= x < ap_addr a + PAGE_SIZE)) -> Q None h) ->
  runs (find_addr fuel x pr h) Q R.
Proof.
  intros Hok Hin Hl Hf HS HN. revert fuel pr Hl Hf Hin HN. induction As as [|a As IH]; intros [|fuel] pr Hl Hf Hin HN; cbn [find_addr] in *; try (simpl in Hf; lia).
  { simpl in Hl. subst pr. runs_steps. apply HN. by intros a Ha%elem_of_nil. }
  destruct Hl as (-> & q & Hq & Hl). assert (a ∈ A) as Ha by set_solver. apply list_elem_of_lookup in Ha as [i Ha].
  destruct (zlookup_ref _ _ _ _ _ Hok Ha) as (r & Hr & Hp). destruct (page_fields _ _ _ Hp) as [Ea Et]. destruct (page_u32 _ _ _ Hp) as [Hu Hhi].
  pose proof (po_type _ _ _ Hp) as Ht. unfold is_u32 in Hu.
  simpl in Hq. rewrite Hr in Hq. injection Hq as Hq. runs_steps. eapply runs_get_ref; [done|]. runs_steps. rewrite Ea, Et, Hq.
  apply runs_KASSERT; [apply andb_true_iff; split; [apply Z.leb_le|apply Z.ltb_lt]; lia|].
  rewrite u32_small by (unfold is_u32, PAGE_SIZE in *; lia).
  destruct ((ap_addr a <=? x) && (x <? ap_addr a + PAGE_SIZE)) eqn:E.
  - runs_steps. apply (HS i a); [done|]. lia.
  - apply IH; [done|simpl in Hf; lia|set_solver|]. intros Hno. apply HN. intros b [->|Hb]%elem_of_cons; [lia|by apply Hno].
Qed.

Lemma block_apart a x y : 0 <= ap_type a < NSIZES -> is_block a x -> is_block a y -> x <> y -> ~ (x <= y < x + psize a).
Proof.
  intros Ht Hx Hy Hne Hin. destruct (psize_facts a Ht) as (Hs & _). destruct Hx as [_ Hx], Hy as [_ Hy].
  assert ((y - x) mod psize a = 0) as Hm.
  { replace (y - x) with ((y - ap_addr a) - (x - ap_addr a)) by lia. rewrite Zminus_mod, Hx, Hy. by rewrite Z.mod_0_l by lia. }
  rewrite Z.mod_small in Hm by lia. lia.
Qed.

(** A block goes back to the free list of its page. *)
Lemma push_page m r a x m' :
  page_ok m r a -> is_block a x -> x ∉ ap_free a ->
  (forall y, ~ (x <= y < x + psize a) -> m' y = m y) -> m' x = default 0 (head (ap_free a)) ->
  page_ok m' (set_free (x - ap_addr a) (nfree r + 1) r) (set_afree (x :: ap_free a) a).
Proof.
  intros [Hpab Ht Hal Hnf Hoff Hch Hnd Hb] Hx Hnin Hm Hmx. split; simpl; try done.
  - rewrite Hnf, zlen_cons. lia.
  - split; [done|]. split; [destruct Hx as [Hx _]; unfold MIPS_KSEG0 in Hal; lia|]. rewrite Hmx. eapply mchain_ext; [|exact Hch].
    intros y Hy. apply Hm. rewrite Forall_forall in Hb. apply block_apart; [done|done|by apply Hb|]. by intros ->.
  - by constructor.
  - by constructor.
Qed.

Lemma block_inside a x : 0 <= ap_type a < NSIZES -> is_block a x -> x + psize a <= ap_addr a + PAGE_SIZE.
Proof.
  intros Ht [Hx Hm]. destruct (psize_facts a Ht) as (Hs & Hc & _). unfold PAGE_SIZE in *. rewrite <- Hc in *.
  set (d := x - ap_addr a) in *. assert (d = psize a * (d / psize a)) as E by (apply Z.div_exact; lia).
  assert (d / psize a < pcount a) by (apply Z.div_lt_upper_bound; lia). nia.
Qed.

(** Pages do not overlap. *)
Lemma pages_apart h lk A a b y : heap_ok h lk A -> a ∈ A -> b ∈ A -> ap_addr b <> ap_addr a ->
  ap_addr b <= y < ap_addr b + PAGE_SIZE -> ~ (ap_addr a <= y < ap_addr a + PAGE_SIZE).
Proof.
  intros Hok Ha Hb Hne Hy. pose proof (ho_owned _ _ _ Hok) as Hown. rewrite Forall_forall in Hown.
  destruct (kp_disjoint _ _ _ _ _ (ho_pages _ _ _ Hok) (Hown _ Ha) (Hown _ Hb)) as [?|?]; [congruence|lia|lia].
Qed.

Lemma delete_insert_same {X} (l : list X) i x : delete i (<[i := x]> l) = delete i l.
Proof. revert i. induction l as [|y l IH]; intros [|i]; simpl; f_equal; done || apply IH. Qed.

(** The first free block of a page, as [subpage_kfree] reads it. *)
Lemma first_block m r a : page_ok m r a ->
  (if freelist_offset r =? INVALID_OFFSET then 0 else u32 (ap_addr a + freelist_offset r)) = default 0 (head (ap_free a)).
Proof.
  intros Hp. destruct (page_u32 _ _ _ Hp) as [Hu Hhi]. destruct Hp as [_ _ _ _ Hoff _ _ Hb]. rewrite Hoff. unfold first_off.
  destruct (ap_free a) as [|y fs]; [done|]. apply Forall_cons in Hb as [[Hy _] _]. unfold is_u32, INVALID_OFFSET, PAGE_SIZE in *.
  rewrite (proj2 (Z.eqb_neq _ _)) by lia. rewrite u32_small by (unfold is_u32; lia). simpl. lia.
Qed.

Lemma heap_ok_push h A i a r x m' :
  heap_ok h true A -> A !! i = Some a -> zlookup (pagerefs h) (ap_ref a) = Some r -> is_block a x -> x ∉ ap_free a ->
  (forall y, ~ (x <= y < x + psize a) -> m' y = mem h y) -> m' x = default 0 (head (ap_free a)) ->
  heap_ok (set_ref (ap_ref a) (set_free (x - ap_addr a) (nfree r + 1) r) (set_mem m' h)) true (<[i := set_afree (x :: ap_free a) a]> A).
Proof.
  intros Hok Ha Hr Hx Hnin Hm Hmx. destruct (zlookup_ref _ _ _ _ _ Hok Ha) as (r' & Hr' & Hp). simplify_eq.
  pose proof (block_inside a x (po_type _ _ _ Hp) Hx) as Hins. assert (a ∈ A) as HaA by (by eapply list_elem_of_lookup_2).
  unfold set_ref, set_mem. cbn [pagerefs pagerefs_inuse sizebases allbase kmalloc_spinlock mem pages]. rewrite (ho_lock _ _ _ Hok).
  eapply (heap_ok_page h true A i a r); try done; [by eapply push_page|].
  intros b y Hb Hne Hy. apply Hm. intros Hin. apply (pages_apart _ _ _ a b y Hok HaA Hb Hne); [|destruct Hx; lia].
  pose proof (ho_page _ _ _ Hok) as Hpg. rewrite Forall_forall in Hpg. destruct (Hpg b Hb) as (rb & _ & [_ _ _ _ _ _ _ Hbb]).
  rewrite Forall_forall in Hbb. apply (Hbb y Hy).
Qed.

(** A page whose blocks are all free leaves the lists. *)
Lemma retire_spec h A i a (Q : freed -> heap -> Prop) R :
  heap_ok h true A -> A !! i = Some a ->
  (forall h', heap_ok h' false (delete i A) -> mem h' = mem h -> pages h' = pages h -> Q (FreedPage (ap_addr a)) h') ->
  runs ((remove_lists (ap_ref a) (ap_type a) ;; freepageref (ap_ref a) ;; release ;; ret (FreedPage (ap_addr a))) h) Q R.
Proof.
  intros Hok Ha HQ. rewrite delete_take_drop in HQ. rewrite <- (take_drop_middle A i a Ha) in Hok.
  set (A1 := take i A) in *. set (A2 := drop (S i) A) in *. clearbody A1 A2. clear Ha A.
  destruct (zlookup_ref _ _ _ (length A1) a Hok) as (r & Hr & _); [by apply list_lookup_middle|]. apply zlookup_Some_range in Hr. rewrite (ho_refs _ _ _ Hok) in Hr.
  runs_steps. eapply remove_lists_spec; [done|]. intros h1 Hlo Hca Hcs. runs_steps.
  apply freepageref_spec; rewrite ?(lo_inuse _ _ Hlo); [apply Hok|done|apply (ho_inuse _ _ _ Hok); [done|set_solver]|].
  intros ws Hws Hinuse. rewrite <- (lo_inuse _ _ Hlo) in Hinuse. runs_steps. eapply runs_krelease; [by eapply heap_ok_remove|].
  intros Hok2. runs_steps. apply HQ; [done|apply Hlo|apply Hlo].
Qed.

(** The page is whole again with the block given back. *)
Definition last_block (a : apage) : bool := zlen (ap_free a) + 1 =? pcount a.

Lemma subpage_release_spec h A i a x (Q : freed -> heap -> Prop) R :
  heap_ok h false A -> A !! i = Some a -> is_block a x -> x ∉ ap_free a ->
  (forall h', heap_ok h' false (if last_block a then delete i A else <[i := set_afree (x :: ap_free a) a]> A) ->
     (forall y, ~ (x <= y < x + psize a) -> mem h' y = mem h y) ->
     (forall k, 1 <= k < psize a / 4 -> mem h' (x + 4 * k) = 0xdeadbeef) ->
     pages h' = pages h -> Q (if last_block a then FreedPage (ap_addr a) else Freed) h') ->
  runs (subpage_release x h) Q R.
Proof.
  intros Hok Ha Hx Hnin HQ. unfold subpage_release. runs_steps. eapply runs_kacquire; [done|]. intros Hok1. runs_steps.
  destruct (chain_links _ _ _ (ho_all _ _ _ Hok1)) as (base & Hbase & Hl). injection Hbase as <-. cbn [set_lock allbase] in *.
  pose proof (refs_bound _ _ _ Hok) as Hlen. assert (a ∈ A) as HaA by (by eapply list_elem_of_lookup_2).
  eapply find_addr_spec; [exact Hok1|done|exact Hl|unfold FUEL; lia| |].
  2: { intros Hno. destruct (Hno a HaA). apply Hx. }
  intros j b Hb Hxb. assert (j = i) as ->.
  { destruct (decide (ap_addr b = ap_addr a)) as [E|E].
    - destruct (ho_nodup _ _ _ Hok) as [_ Hna]. eapply NoDup_lookup; [exact Hna|rewrite list_lookup_fmap, Hb; done|rewrite list_lookup_fmap, Ha; simpl; congruence].
    - destruct (pages_apart _ _ _ a b x Hok HaA ltac:(by eapply list_elem_of_lookup_2) E Hxb). apply Hx. }
  rewrite Ha in Hb. injection Hb as <-. destruct (zlookup_ref _ _ _ _ _ Hok1 Ha) as (r & Hr & Hp).
  destruct (page_fields _ _ _ Hp) as [Ea Et]. destruct (page_u32 _ _ _ Hp) as [Hu Hhi]. pose proof (po_type _ _ _ Hp) as Ht.
  pose proof (block_inside a x Ht Hx) as Hins. destruct (psize_facts a Ht) as (Hs & Hc & Hcnt & Hs4).
  runs_steps. eapply runs_get_ref; [done|]. rewrite Ea, Et. unfold size_of. runs_steps.
  apply (runs_of_option _ _ (psize a)); [by apply sizes_lookup|]. destruct Hx as [Hxr Hxm]. unfold is_u32 in Hu. unfold PAGE_SIZE in *.
  rewrite (u32_small (x - _)) by (unfold is_u32; lia). runs_steps.
  rewrite (proj2 (Z.leb_gt _ _)), (proj2 (Z.eqb_eq _ _) Hxm) by lia. simpl. runs_steps.
  unfold fill_deadbeef. apply fill_loop_spec. intros m Hm Hdead. unfold store, put_mem. runs_steps. simpl.
  rewrite Z2Nat.id in Hm, Hdead by dlia. replace (u32 (ap_addr a + (x - ap_addr a))) with x by (rewrite u32_small; unfold is_u32; lia).
  rewrite (first_block _ _ _ Hp). set (m' := fun b => if b =? x then _ else _).
  eapply runs_upd_ref; [done|]. pose proof (zlen_nonneg (ap_free a)). pose proof (po_nfree _ _ _ Hp) as Hnf.
  assert (nfree r + 1 <= pcount a) as Hle.
  { pose proof (zlen_cons x (ap_free a)). enough (zlen (x :: ap_free a) <= pcount a) by lia. apply blocks_bound; [done|constructor; [done|apply Hp]|constructor; [done|apply Hp]]. }
  replace (u16 (nfree r + 1)) with (nfree r + 1) by (symmetry; apply Z.mod_small; lia).
  replace (u16 (x - ap_addr a)) with (x - ap_addr a) by (symmetry; apply Z.mod_small; lia).
  assert (forall y, ~ (x <= y < x + psize a) -> m' y = mem h y) as Hm'.
  { intros y Hy. unfold m'. rewrite (proj2 (Z.eqb_neq _ _)) by lia. apply Hm. dlia. }
  assert (forall k, 1 <= k < psize a / 4 -> m' (x + 4 * k) = 0xdeadbeef) as Hdead'.
  { intros k Hk. unfold m'. rewrite (proj2 (Z.eqb_neq _ _)) by lia. apply Hdead. lia. }
  pose proof (heap_ok_push _ _ _ _ _ x m' Hok1 Ha Hr (conj Hxr Hxm) Hnin Hm' ltac:(unfold m'; by rewrite Z.eqb_refl)) as Hok2.
  change (4096 / psize a) with (pcount a). runs_steps. apply runs_KASSERT; [by apply Z.leb_le|]. unfold last_block in HQ. rewrite <- Hnf in HQ.
  runs_steps. destruct (nfree r + 1 =? pcount a).
  - eapply (retire_spec _ _ i (set_afree (x :: ap_free a) a)); [exact Hok2|by apply list_lookup_insert_eq; apply lookup_lt_Some in Ha|].
    intros h' Hok' Hmem Hpg. rewrite delete_insert_same in Hok'. apply HQ; [done|by rewrite Hmem..|by rewrite Hpg].
  - runs_steps. eapply runs_krelease; [exact Hok2|]. intros Hok3. runs_steps. by apply HQ.
Qed.

Lemma subpage_release_other h A x (Q : freed -> heap -> Prop) R :
  heap_ok h false A -> (forall a, a ∈ A -> ~ (ap_addr a <= x < ap_addr a + PAGE_SIZE)) ->
  (forall h', heap_ok h' false A -> mem h' = mem h -> pages h' = pages h -> Q NotOurs h') ->
  runs (subpage_release x h) Q R.
Proof.
  intros Hok Hno HQ. unfold subpage_release. runs_steps. eapply runs_kacquire; [done|]. intros Hok1. runs_steps.
  destruct (chain_links _ _ _ (ho_all _ _ _ Hok1)) as (base & Hbase & Hl). injection Hbase as <-. cbn [set_lock allbase] in *.
  pose proof (refs_bound _ _ _ Hok) as Hlen. eapply find_addr_spec; [exact Hok1|done|exact Hl|unfold FUEL; lia| |].
  - intros i a Ha Hin. destruct (Hno a); [by eapply list_elem_of_lookup_2|done].
  - intros _. runs_steps. eapply runs_krelease; [exact Hok1|]. intros Hok2. runs_steps. by apply HQ.
Qed.
End Inv.
End KmallocInv.
