(* ===== verification/KmallocRep.v ===== *)
(** * The blocks of the kernel heap

    [Rep h L T] says that [h] is a heap whose blocks in use include those of
    the map [L] from addresses to sizes, while the blocks of pages [T] are on
    their way between the allocator and the VM system.  Blocks do not overlap,
    and every critical section of the allocator is described by what it does to
    [L] and [T]. *)

From S2P Require Import Prelude Kmalloc KmallocInv.
Import Kmalloc KmallocInv.

Module KmallocRep.

Section Contract.
Context {P : Type} `{!KPages P}.
Abbreviation heap := (@heap P).
Implicit Types (h : heap) (A : list apage) (L : gmap Z Z) (T : list (Z * Z)).

(** A block in use: a block of a page, not on its free list, or whole pages. *)
Definition live h A (x s : Z) : Prop :=
  (exists a, a ∈ A /\ is_block a x /\ (x ∉ ap_free a) /\ s = psize a) \/
  (exists n, kp_blocks (pages h) !! x = Some n /\ (x ∉ ap_addr <$> A) /\ s = n * PAGE_SIZE).

Record rep h L T A : Prop := {
  rep_ok : heap_ok h false A;
  rep_live : forall x s, L !! x = Some s -> live h A x s;
  rep_nodup : NoDup T.*1;
  rep_transit : forall p n, (p, n) ∈ T -> kp_blocks (pages h) !! p = Some n /\ (p ∉ ap_addr <$> A) /\ L !! p = None }.
Definition Rep h L T : Prop := exists A, rep h L T A.

(** The contents of the blocks of [L] are what they were. *)
Definition kept L h h' : Prop := forall x s y, L !! x = Some s -> x <= y < x + s -> mem h' y = mem h y.

Lemma kept_mem L h h' : mem h' = mem h -> kept L h h'.
Proof. intros E x s y _ _. by rewrite E. Qed.
Lemma kept_trans L h1 h2 h3 : kept L h1 h2 -> kept L h2 h3 -> kept L h1 h3.
Proof. intros H1 H2 x s y Hx Hy. by rewrite (H2 x s y), (H1 x s y). Qed.

(** ** Blocks do not overlap *)

Lemma addr_inj h lk A a b : heap_ok h lk A -> a ∈ A -> b ∈ A -> ap_addr a = ap_addr b -> a = b.
Proof.
  intros Hok (i & Hi)%list_elem_of_lookup (j & Hj)%list_elem_of_lookup E. destruct (ho_nodup _ _ _ Hok) as [_ Hna].
  assert (i = j) as ->; [|congruence].
  eapply NoDup_lookup; [exact Hna|rewrite list_lookup_fmap, Hi; done|rewrite list_lookup_fmap, Hj; simpl; congruence].
Qed.

Lemma page_type h lk A a : heap_ok h lk A -> a ∈ A -> 0 <= ap_type a < NSIZES.
Proof.
  intros Hok Ha. pose proof (ho_page _ _ _ Hok) as Hp. rewrite Forall_forall in Hp. destruct (Hp a Ha) as (r & _ & Hpo). by eapply po_type.
Qed.

Lemma page_owned h lk A a : heap_ok h lk A -> a ∈ A -> kp_blocks (pages h) !! ap_addr a = Some 1.
Proof. intros Hok Ha. pose proof (ho_owned _ _ _ Hok) as Hp. rewrite Forall_forall in Hp. by apply Hp. Qed.

Lemma big_apart h lk A a p n : heap_ok h lk A -> a ∈ A -> kp_blocks (pages h) !! p = Some n -> p ∉ ap_addr <$> A ->
  ap_addr a + PAGE_SIZE <= p \/ p + n * PAGE_SIZE <= ap_addr a.
Proof.
  intros Hok Ha Hp Hn. assert (ap_addr a <> p) by (intros <-; apply Hn; by apply list_elem_of_fmap_2).
  destruct (kp_disjoint _ _ _ _ _ (ho_pages _ _ _ Hok) (page_owned _ _ _ _ Hok Ha) Hp); [done|lia|lia].
Qed.

Lemma block_not_big h lk A a x p n : heap_ok h lk A -> a ∈ A -> is_block a x -> kp_blocks (pages h) !! p = Some n ->
  p ∉ ap_addr <$> A -> ~ (p <= x < p + n * PAGE_SIZE) /\ x <> p.
Proof.
  intros Hok Ha [Hx _] Hp Hn. destruct (kp_range _ _ _ (ho_pages _ _ _ Hok) Hp) as (Hpos & _).
  destruct (big_apart _ _ _ _ _ _ Hok Ha Hp Hn); unfold PAGE_SIZE in *; lia.
Qed.

Lemma same_page h lk A a b x : heap_ok h lk A -> a ∈ A -> b ∈ A -> is_block a x -> is_block b x -> a = b.
Proof.
  intros Hok Ha Hb [Hxa _] [Hxb _]. destruct (decide (ap_addr b = ap_addr a)) as [E|E]; [by eapply addr_inj|].
  by destruct (pages_apart _ _ _ _ _ _ Hok Ha Hb E Hxb).
Qed.

(** A block of a page in use is what [live] says. *)
Lemma live_block h lk A a x s : heap_ok h lk A -> a ∈ A -> is_block a x -> live h A x s -> (x ∉ ap_free a) /\ s = psize a.
Proof.
  intros Hok Ha Hx [(b & Hb & Hxb & Hn & ->)|(n & Hn & Hna & ->)].
  - by rewrite (same_page _ _ _ _ _ _ Hok Ha Hb Hx Hxb).
  - by destruct (block_not_big _ _ _ _ _ _ _ Hok Ha Hx Hn Hna).
Qed.

Lemma live_disjoint h lk A x s y t : heap_ok h lk A -> live h A x s -> live h A y t -> x <> y -> x + s <= y \/ y + t <= x.
Proof.
  intros Hok Hx Hy Hne. destruct Hx as [(a & Ha & Hxa & _ & ->)|(n & Hn & Hna & ->)], Hy as [(b & Hb & Hyb & _ & ->)|(n' & Hn' & Hnb & ->)].
  - pose proof (page_type _ _ _ _ Hok Ha) as Hta. pose proof (page_type _ _ _ _ Hok Hb) as Htb.
    destruct (decide (ap_addr a = ap_addr b)) as [E|Hab].
    + rewrite <- (addr_inj _ _ _ _ _ Hok Ha Hb E) in *. pose proof (block_apart a x y Hta Hxa Hyb Hne). pose proof (block_apart a y x Hta Hyb Hxa). lia.
    + pose proof (block_inside a x Hta Hxa). pose proof (block_inside b y Htb Hyb). destruct Hxa, Hyb.
      destruct (kp_disjoint _ _ _ _ _ (ho_pages _ _ _ Hok) (page_owned _ _ _ _ Hok Ha) (page_owned _ _ _ _ Hok Hb)); [done|lia|lia].
  - pose proof (block_inside a x (page_type _ _ _ _ Hok Ha) Hxa). destruct Hxa. destruct (big_apart _ _ _ _ _ _ Hok Ha Hn' Hnb); lia.
  - pose proof (block_inside b y (page_type _ _ _ _ Hok Hb) Hyb). destruct Hyb. destruct (big_apart _ _ _ _ _ _ Hok Hb Hn Hna); lia.
  - eapply kp_disjoint; [apply Hok|done|done|done].
Qed.

Lemma rep_disjoint h L T x s y t : Rep h L T -> L !! x = Some s -> L !! y = Some t -> x <> y -> x + s <= y \/ y + t <= x.
Proof. intros [A [Hok Hl _ _]] Hx Hy. by eapply live_disjoint; [|apply Hl|apply Hl]. Qed.

(** A client may write in its blocks. *)
Lemma live_range h lk A x s : heap_ok h lk A -> live h A x s -> 16 <= s /\ x mod 16 = 0 /\ MIPS_KSEG0 <= x /\ x + s <= MIPS_KSEG1.
Proof.
  intros Hok [(a & Ha & Hx & _ & ->)|(n & Hn & _ & ->)].
  - pose proof (page_type _ _ _ _ Hok Ha) as Ht. pose proof (block_inside a x Ht Hx). destruct (psize_facts a Ht) as (Hs & _).
    destruct (kp_range _ _ _ (ho_pages _ _ _ Hok) (page_owned _ _ _ _ Hok Ha)) as (_ & Hal & Hlo & Hhi).
    split; [lia|]. destruct Hx as [Hx Hm]. split; [|lia].
    assert (psize a = 16 * 2 ^ ap_type a) as E by (unfold psize; rewrite Z.pow_add_r by lia; done). rewrite E in Hm.
    assert ((x - ap_addr a) mod 16 = 0) as Hm16.
    { assert (16 * 2 ^ ap_type a <> 0) as Hnz by lia. apply Z.mod_divide in Hm as [k Hk]; [|done]. rewrite Hk.
      replace (k * (16 * 2 ^ ap_type a)) with (k * 2 ^ ap_type a * 16) by lia. by apply Z.mod_mul. }
    unfold PAGE_SIZE in *. dlia.
  - destruct (kp_range _ _ _ (ho_pages _ _ _ Hok) Hn) as (Hp & Hal & Hlo & Hhi). unfold PAGE_SIZE in *. split; [lia|]. split; [dlia|]. lia.
Qed.

Lemma rep_range h L T x s : Rep h L T -> L !! x = Some s -> 16 <= s /\ x mod 16 = 0 /\ MIPS_KSEG0 <= x /\ x + s <= MIPS_KSEG1.
Proof. intros [A [Hok Hl _ _]] Hx. eapply live_range; [done|]. by apply Hl. Qed.

(** ** The critical sections *)

Lemma rep_same h h' L T A :
  rep h L T A -> heap_ok h' false A -> kp_blocks (pages h') = kp_blocks (pages h) -> Rep h' L T.
Proof.
  intros [_ Hl Hnd Htr] Hok Hpg. exists A. split; [done| |done|by rewrite Hpg].
  intros x s Hx. specialize (Hl x s Hx). unfold live in *. by rewrite Hpg.
Qed.

(** A page gives one of its free blocks. *)
Lemma rep_take h h' L T A i a x fs :
  rep h L T A -> A !! i = Some a -> ap_free a = x :: fs -> heap_ok h' false (<[i := set_afree fs a]> A) -> pages h' = pages h ->
  L !! x = None /\ x <> 0 /\ Rep h' (<[x := psize a]> L) T.
Proof.
  intros [Hok Hl Hnd Ht] Ha Hfree Hok' Hpg. assert (a ∈ A) as HaA by (by eapply list_elem_of_lookup_2).
  destruct (zlookup_ref _ _ _ _ _ Hok Ha) as (r & _ & Hp). pose proof (po_blocks _ _ _ Hp) as Hb. pose proof (po_nodup _ _ _ Hp) as Hndf.
  rewrite Hfree in Hb, Hndf. apply Forall_cons in Hb as [Hx _]. apply NoDup_cons in Hndf as [Hxfs _].
  assert (L !! x = None) as Hnone.
  { destruct (L !! x) as [s|] eqn:E; [|done]. apply Hl in E. destruct (live_block _ _ _ _ _ _ Hok HaA Hx E) as [Hn _]. rewrite Hfree in Hn. set_solver. }
  assert (x <> 0) as Hx0 by (pose proof (po_addr _ _ _ Hp); destruct Hx; unfold MIPS_KSEG0 in *; lia). split_and!; [done|done|].
  assert (set_afree fs a ∈ <[i := set_afree fs a]> A) as Hin'.
  { eapply list_elem_of_lookup_2, list_lookup_insert_eq. by eapply lookup_lt_Some. }
  assert (forall y s, live h A y s -> live h' (<[i := set_afree fs a]> A) y s) as Hlive.
  { intros y s [(b & Hb & Hyb & Hn & ->)|(n & Hn & Hna & ->)].
    - left. apply list_elem_of_lookup in Hb as [j Hj]. destruct (decide (j = i)) as [->|Hji].
      + rewrite Ha in Hj. injection Hj as <-. exists (set_afree fs a). split_and!; [done|exact Hyb| |done]. rewrite Hfree in Hn. set_solver.
      + exists b. split_and!; [|done|done|done]. eapply list_elem_of_lookup_2. by rewrite list_lookup_insert_ne.
    - right. exists n. rewrite Hpg. split_and!; [done| |done]. by rewrite (addrs_insert A i a). }
  exists (<[i := set_afree fs a]> A). split; [done| |done|].
  - intros y s [[<- <-]|[_ Hy]]%lookup_insert_Some; [|by apply Hlive, Hl].
    left. exists (set_afree fs a). by split_and!.
  - intros p n Hin. destruct (Ht p n Hin) as (Hp1 & Hp2 & Hp3). rewrite Hpg, (addrs_insert A i a) by done. split_and!; [done|done|].
    destruct (block_not_big _ _ _ _ _ _ _ Hok HaA Hx Hp1 Hp2). by rewrite lookup_insert_ne.
Qed.

Lemma try_spec h L T t (Q : option Z -> heap -> Prop) R :
  Rep h L T -> 0 <= t < NSIZES ->
  (forall x h', L !! x = None -> x <> 0 -> Rep h' (<[x := 2 ^ (4 + t)]> L) T -> kept L h h' -> Q (Some x) h') ->
  (forall h', Rep h' L T -> kept L h h' -> Q None h') ->
  runs (subpage_try t h) Q R.
Proof.
  intros [A Hrep] Ht HS HN. eapply subpage_try_spec; [apply Hrep|done| |].
  - intros i a x fs h' Ha Hta Hfree Hok Hm Hpg. destruct (rep_take _ _ _ _ _ _ _ _ _ Hrep Ha Hfree Hok Hpg) as (H1 & H2 & H3).
    unfold psize in H3. rewrite Hta in H3. apply HS; [done|done|done|by apply kept_mem].
  - intros h' Hok Hm Hpg. apply HN; [|by apply kept_mem]. eapply rep_same; [done|done|by rewrite Hpg].
Qed.

Lemma rep_free h h' L T A p n :
  rep h L ((p, n) :: T) A -> heap_ok h' false A -> pages h' = kp_free p (pages h) -> Rep h' L T.
Proof.
  intros [Hok Hl Hnd Htr] Hok' Hpg. destruct (Htr p n) as (Hp & Hpa & HpL); [by left|].
  simpl in Hnd. apply NoDup_cons in Hnd as [HpT Hnd]. exists A.
  destruct (kp_free_ok p (pages h) (ho_pages _ _ _ Hok)) as [_ Hbl].
  assert (forall y m, y <> p -> kp_blocks (pages h) !! y = Some m -> kp_blocks (pages h') !! y = Some m) as Hkeep.
  { intros y m Hy Hm. rewrite Hpg. destruct Hbl as [->| ->]; [done|]. by rewrite lookup_delete_ne. }
  split; [done| |done|].
  - intros x s Hx. destruct (Hl x s Hx) as [?|(m & Hm & Hna & ->)]; [by left|right]. exists m. split_and!; [|done|done].
    apply Hkeep; [congruence|done].
  - intros q m Hq. destruct (Htr q m) as (H1 & H2 & H3); [by right|]. split_and!; [|done|done]. apply Hkeep; [|done].
    intros ->. apply HpT. by apply (list_elem_of_fmap_2 fst) in Hq.
Qed.

Lemma free_spec h L T p n (Q : unit -> heap -> Prop) R :
  Rep h L ((p, n) :: T) -> (forall h', Rep h' L T -> kept L h h' -> Q tt h') -> runs (free_kpages p h) Q R.
Proof.
  intros [A Hrep] HQ. destruct (rep_transit _ _ _ _ Hrep p n) as (_ & Hpa & _); [by left|].
  eapply runs_free_kpages; [apply Hrep|done|]. intros h' Hok' Hm Hpg. apply HQ; [by eapply rep_free|by apply kept_mem].
Qed.

(** New pages: for a client, or on the way to [subpage_grow]. *)
Lemma rep_pages h h' L T A p n L' T' :
  rep h L T A -> heap_ok h' false A -> kp_blocks (pages h) !! p = None -> kp_blocks (pages h') = <[p := n]> (kp_blocks (pages h)) ->
  (L' = <[p := n * PAGE_SIZE]> L /\ T' = T \/ L' = L /\ T' = (p, n) :: T) -> L !! p = None /\ (p ∉ T.*1) /\ rep h' L' T' A.
Proof.
  intros [Hok Hl Hnd Htr] Hok' Hnone Hbl Hcase.
  assert (p ∉ ap_addr <$> A) as HpA.
  { intros (a & -> & Ha)%list_elem_of_fmap. by rewrite (page_owned _ _ _ _ Hok Ha) in Hnone. }
  assert (L !! p = None) as HpL.
  { destruct (L !! p) as [s|] eqn:E; [|done]. destruct (Hl p s E) as [(a & Ha & Hx & _)|(m & Hm & _)]; [|congruence].
    destruct (block_not_big h' false A a p p n) as [_ ?]; try done. by rewrite Hbl, lookup_insert_eq. }
  assert (forall y m, kp_blocks (pages h) !! y = Some m -> kp_blocks (pages h') !! y = Some m) as Hkeep.
  { intros y m Hm. rewrite Hbl, lookup_insert_ne; [done|congruence]. }
  assert (forall y s, live h A y s -> live h' A y s) as Hlive.
  { intros y s [?|(m & Hm & Hna & ->)]; [by left|right]. exists m. split_and!; [by apply Hkeep|done|done]. }
  assert (p ∉ T.*1) as HpT by (intros ([q m] & -> & Hq)%list_elem_of_fmap; destruct (Htr q m Hq) as [? _]; simpl in *; congruence).
  split_and!; [done|done|]. destruct Hcase as [[-> ->]|[-> ->]]; split; try done.
  - intros y s [[<- <-]|[_ Hy]]%lookup_insert_Some; [|by apply Hlive, Hl]. right. exists n. by rewrite Hbl, lookup_insert_eq.
  - intros q m Hq. destruct (Htr q m Hq) as (H1 & H2 & H3). split_and!; [by apply Hkeep|done|].
    rewrite lookup_insert_ne; [done|]. intros ->. apply HpT. by apply (list_elem_of_fmap_2 fst) in Hq.
  - intros y s Hy. by apply Hlive, Hl.
  - by constructor.
  - intros q m [[= -> ->]|Hq]%elem_of_cons; [by rewrite Hbl, lookup_insert_eq|]. destruct (Htr q m Hq) as (H1 & H2 & H3). split_and!; [by apply Hkeep|done|done].
Qed.

Lemma pages_spec n h L T (Q : Z -> heap -> Prop) R :
  Rep h L T -> 0 < n <= 2 ^ 19 ->
  (forall h', Rep h' L T -> kept L h h' -> Q 0 h') ->
  (forall p h', p <> 0 -> L !! p = None -> Rep h' (<[p := n * PAGE_SIZE]> L) T -> Rep h' L ((p, n) :: T) -> kept L h h' -> Q p h') ->
  runs (alloc_kpages n h) Q R.
Proof.
  intros [A Hrep] Hn HN HS. unfold alloc_kpages. runs_steps. destruct (kp_alloc n (pages h)) as [p pg] eqn:E. unfold put_pages. runs_steps.
  destruct (kp_alloc_ok _ _ _ _ (ho_pages _ _ _ (rep_ok _ _ _ _ Hrep)) Hn E) as [Hok Hcase].
  assert (forall b, kp_blocks pg = kp_blocks (pages h) \/ kp_blocks (pages h) !! b = None /\ kp_blocks pg = <[b := n]> (kp_blocks (pages h)) ->
    heap_ok (mkHeap (pagerefs h) (pagerefs_inuse h) (sizebases h) (allbase h) (kmalloc_spinlock h) (mem h) pg) false A) as Hok'.
  { intros b Hb. destruct (rep_ok _ _ _ _ Hrep) as [? ? ? ? ? ? ? ? ? Hown ?]. split; try done. simpl. rewrite Forall_forall in Hown |- *.
    intros a Ha. specialize (Hown a Ha). destruct Hb as [->|[Hb ->]]; [done|]. rewrite lookup_insert_ne; [done|congruence]. }
  destruct Hcase as [[-> Hbl]|(Hp0 & Hnone & Hbl)].
  - apply HN; [|done]. eapply rep_same; [done|exact (Hok' 0 (or_introl Hbl))|done].
  - specialize (Hok' p (or_intror (conj Hnone Hbl))).
    destruct (rep_pages _ _ _ _ _ p n _ _ Hrep Hok' Hnone Hbl (or_introl (conj eq_refl eq_refl))) as (HpL & _ & H1).
    destruct (rep_pages _ _ _ _ _ p n _ _ Hrep Hok' Hnone Hbl (or_intror (conj eq_refl eq_refl))) as (_ & _ & H2).
    apply HS; [done|done|by exists A|by exists A|done].
Qed.

Lemma live_apart h L T A p n x s : rep h L ((p, n) :: T) A -> L !! x = Some s -> forall y, x <= y < x + s -> ~ (p <= y < p + n * PAGE_SIZE).
Proof.
  intros [Hok Hl Hnd Htr] Hx y Hy. destruct (Htr p n) as (Hp & HpA & HpL); [by left|].
  destruct (live_disjoint h false A x s p (n * PAGE_SIZE) Hok); [by apply Hl|by right; eauto|congruence|lia|lia].
Qed.

Lemma rep_grow h h' L T A p t j x fs :
  rep h L ((p, 1) :: T) A -> 0 <= t < NSIZES -> ap_free (new_page j p t) = x :: fs ->
  heap_ok h' false (set_afree fs (new_page j p t) :: A) -> pages h' = pages h ->
  L !! x = None /\ x <> 0 /\ Rep h' (<[x := 2 ^ (4 + t)]> L) T.
Proof.
  intros Hrep Ht Hfree Hok' Hpg. pose proof Hrep as [Hok Hl Hnd Htr]. simpl in Hnd. apply NoDup_cons in Hnd as [HpT Hnd].
  destruct (Htr p 1) as (Hp & HpA & HpL); [by left|]. set (a := new_page j p t) in *. set (a' := set_afree fs a) in *.
  pose proof (new_blocks j p t Ht) as Hb. fold a in Hb. rewrite Hfree in Hb. apply Forall_cons in Hb as [Hx _].
  destruct (kp_range _ _ _ (ho_pages _ _ _ Hok) Hp) as (_ & _ & Hlo & _). assert (is_block a' x) as Hx' by exact Hx.
  destruct Hx as [Hx _]. change (ap_addr a) with p in Hx.
  assert (L !! x = None) as Hnone.
  { destruct (L !! x) as [s|] eqn:E; [|done]. destruct (live_range _ _ _ _ _ Hok (Hl x s E)) as [Hs _].
    destruct (live_apart _ _ _ _ _ _ _ _ Hrep E x); lia. }
  assert (x ∉ fs) as Hxfs.
  { assert (NoDup (ap_free a)) as Hndf by (apply nodup_down; lia). rewrite Hfree in Hndf. by apply NoDup_cons in Hndf as [? _]. }
  split_and!; [done|unfold MIPS_KSEG0 in Hlo; lia|]. exists (a' :: A). split; [done| |done|].
  - intros y s [[<- <-]|[Hne Hy]]%lookup_insert_Some; [left; exists a'; split_and!; [by left|done|done|done]|].
    destruct (Hl y s Hy) as [(b & Hb & ?)|(m & Hm & Hna & ->)].
    + left. exists b. split; [by right|done].
    + right. exists m. rewrite Hpg. split_and!; [done| |done]. cbn [fmap list_fmap]. change (ap_addr a') with p. rewrite elem_of_cons. intros [->|?]; [congruence|done].
  - intros q m Hq. destruct (Htr q m) as (H1 & H2 & H3); [by right|]. rewrite Hpg.
    assert (q <> p) as Hqp by (intros ->; apply HpT; by apply (list_elem_of_fmap_2 fst) in Hq). assert (q ∉ ap_addr <$> a' :: A) as Hq'.
    { cbn [fmap list_fmap]. change (ap_addr a') with p. rewrite elem_of_cons. tauto. }
    split_and!; [done|done|]. rewrite <- Hpg in H1.
    destruct (block_not_big h' false (a' :: A) a' x q m Hok' ltac:(by left) Hx' H1 Hq'). by rewrite lookup_insert_ne.
Qed.

Lemma grow_spec h L T p t (Q : option Z -> heap -> Prop) R :
  Rep h L ((p, 1) :: T) -> 0 <= t < NSIZES ->
  (forall x h', L !! x = None -> x <> 0 -> Rep h' (<[x := 2 ^ (4 + t)]> L) T -> kept L h h' -> Q (Some x) h') ->
  (forall h', Rep h' L ((p, 1) :: T) -> kept L h h' -> Q None h') ->
  runs (subpage_grow p t h) Q R.
Proof.
  intros [A Hrep] Ht HS HN. destruct (rep_transit _ _ _ _ Hrep p 1) as (Hp & HpA & HpL); [by left|].
  eapply subpage_grow_spec; [apply Hrep|done|done|done| |].
  - intros j x fs h' _ Hfree Hok' Hm Hpg. destruct (rep_grow _ _ _ _ _ _ _ _ _ _ Hrep Ht Hfree Hok' Hpg) as (H1 & H2 & H3).
    apply HS; [done|done|done|]. intros y s z Hy Hz. apply Hm. pose proof (live_apart _ _ _ _ _ _ _ _ Hrep Hy z Hz). lia.
  - intros h' Hok Hm Hpg. apply HN; [|by apply kept_mem]. eapply rep_same; [done|done|by rewrite Hpg].
Qed.

(** A block in use is the only one of its page when it is the last. *)
Lemma last_alone h lk A i a x y :
  heap_ok h lk A -> A !! i = Some a -> last_block a = true -> is_block a x -> is_block a y ->
  x ∉ ap_free a -> y ∉ ap_free a -> x = y.
Proof.
  intros Hok Ha Hlast Hx Hy Hnx Hny. destruct (decide (x = y)) as [?|Hne]; [done|]. apply Z.eqb_eq in Hlast.
  destruct (zlookup_ref _ _ _ _ _ Hok Ha) as (r & _ & Hp).
  assert (zlen (x :: y :: ap_free a) <= pcount a) as Hle.
  { apply blocks_bound; [apply Hp| |repeat constructor; (apply Hx || apply Hy || apply Hp)].
    constructor; [set_solver|]. constructor; [done|apply Hp]. }
  rewrite !zlen_cons in Hle. lia.
Qed.

Lemma rep_release h h' L T A i a x s :
  rep h L T A -> L !! x = Some s -> A !! i = Some a -> is_block a x -> x ∉ ap_free a -> pages h' = pages h ->
  heap_ok h' false (if last_block a then delete i A else <[i := set_afree (x :: ap_free a) a]> A) ->
  Rep h' (delete x L) (if last_block a then (ap_addr a, 1) :: T else T).
Proof.
  intros [Hok Hl Hnd Htr] HxL Ha Hx Hnx Hpg Hok'. assert (a ∈ A) as HaA by (by eapply list_elem_of_lookup_2).
  destruct (last_block a) eqn:Hlast.
  - assert (forall b, b ∈ A -> b = a \/ b ∈ delete i A) as Hdel.
    { intros b. rewrite delete_take_drop. rewrite <- (take_drop_middle A i a Ha) at 1. set_solver. }
    assert (forall p, p ∉ ap_addr <$> A -> p ∉ ap_addr <$> delete i A) as Hsub.
    { intros p. rewrite delete_take_drop. rewrite <- (take_drop_middle A i a Ha) at 1. rewrite !fmap_app. set_solver. }
    assert (ap_addr a ∉ ap_addr <$> delete i A) as Hgone.
    { destruct (ho_nodup _ _ _ Hok) as [_ Hna]. rewrite <- (take_drop_middle A i a Ha) in Hna. rewrite delete_take_drop.
      rewrite fmap_app, fmap_cons in Hna. rewrite fmap_app. apply NoDup_app in Hna as (_ & Hn1 & [Hn2 _]%NoDup_cons).
      specialize (Hn1 (ap_addr a)). set_solver. }
    assert (is_block a (ap_addr a)) as Ha0 by (split; [unfold PAGE_SIZE; lia|by rewrite Z.sub_diag]).
    exists (delete i A). split; [done| | |].
    + intros y t [Hne Hy]%lookup_delete_Some. destruct (Hl y t Hy) as [(b & Hb & Hyb & Hn & ->)|(m & Hm & Hna & ->)].
      * left. exists b. split_and!; [|done|done|done]. destruct (Hdel b Hb) as [->|?]; [|done]. destruct Hne. exact (last_alone _ _ _ i a x y Hok Ha Hlast Hx Hyb Hnx Hn).
      * right. exists m. rewrite Hpg. by split_and!; [|apply Hsub|].
    + simpl. constructor; [|done]. intros ([q m] & E & Hq)%list_elem_of_fmap. destruct (Htr q m Hq) as (_ & Hqa & _). simpl in E. subst q.
      apply Hqa. by apply list_elem_of_fmap_2.
    + intros q m [[= -> ->]|Hq]%elem_of_cons; rewrite Hpg.
      * split_and!; [by eapply page_owned|done|]. apply lookup_delete_None. destruct (decide (x = ap_addr a)) as [|Hne]; [by left|right].
        destruct (L !! ap_addr a) as [t|] eqn:E; [|done]. destruct Hne. destruct (live_block _ _ _ _ _ _ Hok HaA Ha0 (Hl _ _ E)) as [Hn _].
        exact (last_alone _ _ _ i a x _ Hok Ha Hlast Hx Ha0 Hnx Hn).
      * destruct (Htr q m Hq) as (H1 & H2 & H3). split_and!; [done|by apply Hsub|]. apply lookup_delete_None. by right.
  - exists (<[i := set_afree (x :: ap_free a) a]> A). split; [done| |done|].
    + intros y t [Hne Hy]%lookup_delete_Some. destruct (Hl y t Hy) as [(b & Hb & Hyb & Hn & ->)|(m & Hm & Hna & ->)].
      * left. apply list_elem_of_lookup in Hb as [j Hj]. destruct (decide (j = i)) as [->|Hji].
        -- rewrite Ha in Hj. injection Hj as <-. exists (set_afree (x :: ap_free a) a). split_and!; [|exact Hyb|set_solver|done].
           eapply list_elem_of_lookup_2, list_lookup_insert_eq. by eapply lookup_lt_Some.
        -- exists b. split_and!; [|done|done|done]. eapply list_elem_of_lookup_2. by rewrite list_lookup_insert_ne.
      * right. exists m. rewrite Hpg, (addrs_insert A i a) by done. done.
    + intros q m Hq. rewrite Hpg, (addrs_insert A i a) by done. destruct (Htr q m Hq) as (H1 & H2 & H3). split_and!; [done|done|].
      apply lookup_delete_None. by right.
Qed.

Lemma rep_release_spec h L T x s (Q : freed -> heap -> Prop) R :
  Rep h L T -> L !! x = Some s ->
  (forall h', Rep h' (delete x L) T -> kept (delete x L) h h' -> Q Freed h') ->
  (forall p h', Rep h' (delete x L) ((p, 1) :: T) -> kept (delete x L) h h' -> Q (FreedPage p) h') ->
  (forall n h', x mod PAGE_SIZE = 0 -> Rep h' (delete x L) ((x, n) :: T) -> kept (delete x L) h h' -> Q NotOurs h') ->
  runs (subpage_release x h) Q R.
Proof.
  intros [A Hrep] HxL HF HP HO. pose proof Hrep as [Hok Hl Hnd Htr]. destruct (Hl x s HxL) as [(a & Ha & Hx & Hn & ->)|(n & Hn & Hna & ->)].
  - apply list_elem_of_lookup in Ha as [i Ha]. eapply subpage_release_spec; [done|done|done|done|]. intros h' Hok' Hm _ Hpg.
    assert (kept (delete x L) h h') as Hk.
    { intros y t z [Hne Hy]%lookup_delete_Some Hz. apply Hm. destruct (live_disjoint h false A x (psize a) y t Hok); [by apply Hl|by apply Hl|done|lia|lia]. }
    pose proof (rep_release _ _ _ _ _ _ _ _ _ Hrep HxL Ha Hx Hn Hpg Hok') as Hrep'.
    destruct (last_block a); [by apply HP|by apply HF].
  - eapply subpage_release_other; [done| |].
    + intros a Ha Hin. destruct (kp_range _ _ _ (ho_pages _ _ _ Hok) Hn) as (Hpos & _).
      destruct (big_apart _ _ _ _ _ _ Hok Ha Hn Hna); unfold PAGE_SIZE in *; lia.
    + intros h' Hok' Hm Hpg. apply (HO n); [by destruct (kp_range _ _ _ (ho_pages _ _ _ Hok) Hn) as (_ & ? & _)| |by apply kept_mem].
      exists A. split; [done| | |].
      * intros y t [_ Hy]%lookup_delete_Some. specialize (Hl y t Hy). unfold live in *. by rewrite Hpg.
      * simpl. constructor; [|done]. intros ([q m] & E & Hq)%list_elem_of_fmap. destruct (Htr q m Hq) as (_ & _ & ?). simpl in E. congruence.
      * intros q m [[= -> ->]|Hq]%elem_of_cons; rewrite Hpg.
        -- split_and!; [done|done|]. apply lookup_delete_eq.
        -- destruct (Htr q m Hq) as (? & ? & ?). split_and!; [done|done|]. apply lookup_delete_None. by right.
Qed.

Global Instance Rep_proper h L : Proper ((≡ₚ) ==> iff) (Rep h L).
Proof.
  intros T T' Hp. split; intros [A [Hok Hl Hnd Htr]]; exists A; (split; [done|done| |]).
  - by rewrite <- Hp.
  - intros p n. rewrite <- Hp. apply Htr.
  - by rewrite Hp.
  - intros p n. rewrite Hp. apply Htr.
Qed.

(** ** Clients *)

Lemma heap_ok_mem h lk A m :
  heap_ok h lk A -> (forall a z, a ∈ A -> z ∈ ap_free a -> m z = mem h z) -> heap_ok (set_mem m h) lk A.
Proof.
  intros [? ? ? ? ? ? ? ? Hpg ? ?] Hm. split; try done. simpl. rewrite Forall_forall in Hpg |- *. intros a Ha.
  destruct (Hpg a Ha) as (r & Hr & [? ? ? ? ? Hc ? ?]). exists r. split; [done|]. split; try done.
  eapply mchain_ext; [|exact Hc]. intros z Hz. by apply (Hm a z).
Qed.

Lemma free_apart h lk A a z x s : heap_ok h lk A -> a ∈ A -> z ∈ ap_free a -> live h A x s -> ~ (x <= z < x + s).
Proof.
  intros Hok Ha Hz Hx. pose proof (ho_page _ _ _ Hok) as Hpg. rewrite Forall_forall in Hpg. destruct (Hpg a Ha) as (r & _ & Hp).
  pose proof (po_blocks _ _ _ Hp) as Hb. rewrite Forall_forall in Hb. specialize (Hb z Hz).
  destruct Hx as [(b & Hbin & Hx & Hn & ->)|(n & Hn & Hna & ->)]; [|by eapply block_not_big].
  destruct (decide (ap_addr a = ap_addr b)) as [E|E].
  - rewrite <- (addr_inj _ _ _ _ _ Hok Ha Hbin E) in *. apply block_apart; [apply Hp|done|done|]. by intros ->.
  - pose proof (block_inside b x (page_type _ _ _ _ Hok Hbin) Hx). destruct Hx as [Hx _]. destruct Hb as [Hb _].
    pose proof (pages_apart _ _ _ b a z Hok Hbin Ha E Hb). lia.
Qed.

(** A client writes a word of its block. *)
Definition poke (y v : Z) h : heap := set_mem (fun b => if b =? y then v else mem h b) h.

Lemma poke_spec h L T x s y v : Rep h L T -> L !! x = Some s -> x <= y < x + s -> Rep (poke y v h) L T.
Proof.
  intros [A Hrep] Hx Hy. eapply rep_same; [done| |done]. apply heap_ok_mem; [apply Hrep|]. intros a z Ha Hz.
  rewrite (proj2 (Z.eqb_neq z y)); [done|]. intros ->.
  eapply (free_apart h false A a y x s); try done; [apply Hrep|by apply (rep_live _ _ _ _ Hrep)].
Qed.
End Contract.
End KmallocRep.
