(* ===== verification/Dumbvm.v ===== *)
(** * Physical memory and address spaces:
      src/arch/mips/vm/ram.c, src/arch/mips/vm/dumbvm.c

    [Ram] hands out the physical memory between the kernel image and the end of
    RAM, page by page and for good.  [Dumbvm] is the VM system built on it:
    kernel pages, address spaces of two regions and a stack, and the TLB that
    [vm_fault] fills.  [ram_pages] shows that kernel pages keep the promise of
    the class [KPages]. *)

From S2P Require Import Prelude Spl Kmalloc.

Module Ram.

(** [firstpaddr] and [lastpaddr]. *)
Record ram := mkRam { firstpaddr : Z; lastpaddr : Z }.

Definition RAM_MAX : Z := 508 * 1024 * 1024.

(** [ramsize] is what [mainbus_ramsize] reads from the bus, [firstfree] what
    start.S saved. *)
Definition ram_bootstrap (ramsize firstfree : Z) : ram :=
  let ramsize := if RAM_MAX <? ramsize then RAM_MAX else ramsize in
  mkRam (u32 (firstfree - MIPS_KSEG0)) ramsize.

(** 0: no memory. *)
Definition ram_stealmem (npages : Z) : M ram Z :=
  let* r := get in
  let size := u32 (npages * PAGE_SIZE) in
  if lastpaddr r <? u32 (firstpaddr r + size) then ret 0
  else
    let paddr := firstpaddr r in
    modify (fun r => mkRam (u32 (firstpaddr r + size)) (lastpaddr r)) ;;
    ret paddr.

Definition ram_getsize : M ram (Z * Z) :=
  let* r := get in
  let lo := firstpaddr r in
  let hi := lastpaddr r in
  modify (fun _ => mkRam 0 0) ;;
  ret (lo, hi).

(** What [ram_bootstrap] sets up on a machine whose kernel image ends on a page
    boundary past the exception handlers. *)
Definition ram_ok (r : ram) : Prop :=
  0 < firstpaddr r <= lastpaddr r /\ lastpaddr r <= RAM_MAX /\ firstpaddr r mod PAGE_SIZE = 0.

Lemma stealmem_spec n r (Q : Z -> ram -> Prop) R :
  ram_ok r -> 0 <= n <= 2 ^ 19 ->
  (firstpaddr r + n * PAGE_SIZE <= lastpaddr r -> Q (firstpaddr r) (mkRam (firstpaddr r + n * PAGE_SIZE) (lastpaddr r))) ->
  (lastpaddr r < firstpaddr r + n * PAGE_SIZE -> Q 0 r) ->
  runs (ram_stealmem n r) Q R.
Proof.
  unfold ram_ok, RAM_MAX, PAGE_SIZE. intros (Hf & Hl & Ha) Hn HS HF. unfold ram_stealmem, PAGE_SIZE. runs_steps.
  rewrite (u32_small (n * 4096)) by (unfold is_u32; lia). rewrite (u32_small (_ + _)) by (unfold is_u32; lia).
  destruct (lastpaddr r <? firstpaddr r + n * 4096) eqn:E; [apply Z.ltb_lt in E; runs_steps; by apply HF|].
  apply Z.ltb_ge in E. runs_steps. rewrite u32_small by (unfold is_u32; lia). by apply HS.
Qed.

Lemma ram_ok_steal n r : ram_ok r -> 0 <= n -> firstpaddr r + n * PAGE_SIZE <= lastpaddr r ->
  ram_ok (mkRam (firstpaddr r + n * PAGE_SIZE) (lastpaddr r)).
Proof. unfold ram_ok, PAGE_SIZE. simpl. intros (Hf & Hl & Ha) Hn Hle. split_and!; dlia. Qed.
End Ram.

Module Dumbvm.
Import Ram.

Definition DUMBVM_STACKPAGES : Z := 12.
Definition USERSPACETOP : Z := MIPS_KSEG0.
Definition USERSTACK : Z := USERSPACETOP.
Definition PADDR_TO_KVADDR (paddr : Z) : Z := u32 (paddr + MIPS_KSEG0).

Definition NUM_TLB : Z := 64.
Definition TLBLO_DIRTY : Z := 0x400.
Definition TLBLO_VALID : Z := 0x200.
Definition TLBHI_INVALID (entryno : Z) : Z := u32 (Z.shiftl (0x80000 + entryno) 12).
Definition TLBLO_INVALID : Z := 0.

Inductive fault_type := VM_FAULT_READ | VM_FAULT_WRITE | VM_FAULT_READONLY | VM_FAULT_OTHER.

(** Physical memory by the byte, and the TLB and interrupt level of the
    processor the code runs on. *)
Record vm := mkVm {
  vm_ram : ram; stealmem_lock : bool; phys : Z -> Z; tlb : list (Z * Z); vm_ipl : Spl.ipl }.

Definition put_ram (x : ram) (v : vm) := mkVm x (stealmem_lock v) (phys v) (tlb v) (vm_ipl v).
Definition put_stealmem_lock (x : bool) (v : vm) := mkVm (vm_ram v) x (phys v) (tlb v) (vm_ipl v).
Definition put_phys (x : Z -> Z) (v : vm) := mkVm (vm_ram v) (stealmem_lock v) x (tlb v) (vm_ipl v).
Definition put_tlb (x : list (Z * Z)) (v : vm) := mkVm (vm_ram v) (stealmem_lock v) (phys v) x (vm_ipl v).
Definition put_ipl (x : Spl.ipl) (v : vm) := mkVm (vm_ram v) (stealmem_lock v) (phys v) (tlb v) x.

(** The processor the code runs on. *)
Definition mycpu : option Z := Some 0.
Definition splhigh : M vm Z := zoom vm_ipl put_ipl (Spl.splhigh mycpu).
Definition splx (spl : Z) : M vm Z := zoom vm_ipl put_ipl (Spl.splx mycpu spl).

Definition getppages (npages : Z) : M vm Z :=
  let* v := get in
  KASSERT (negb (stealmem_lock v)) ;;
  modify (put_stealmem_lock true) ;;
  let* addr := zoom vm_ram put_ram (ram_stealmem (u32 npages)) in
  modify (put_stealmem_lock false) ;;
  ret addr.

Definition alloc_kpages (npages : Z) : M vm Z :=
  let* pa := getppages npages in
  if pa =? 0 then ret 0 else ret (PADDR_TO_KVADDR pa).
Definition free_kpages (addr : Z) : M vm unit := ret tt.

Definition vm_tlbshootdown_all : M vm unit := panic.
Definition vm_tlbshootdown : M vm unit := panic.

Record addrspace := mkAs {
  as_vbase1 : Z; as_pbase1 : Z; as_npages1 : Z;
  as_vbase2 : Z; as_pbase2 : Z; as_npages2 : Z;
  as_stackpbase : Z }.

(** [tlb_read] and [tlb_write]. *)
Definition tlb_read (i : Z) : M vm (Z * Z) := let* v := get in of_option Wild (zlookup (tlb v) i).
Definition tlb_write (ehi elo i : Z) : M vm unit := modify (fun v => put_tlb (zinsert (tlb v) i (ehi, elo)) v).

Definition aligned (a : Z) : bool := Z.land a PAGE_FRAME =? a.

(** The first invalid entry takes the translation; [false]: there is none. *)
Fixpoint tlb_fill (n : nat) (i faultaddress paddr : Z) : M vm bool :=
  match n with
  | O => ret false
  | S n' =>
      let* '(_, elo) := tlb_read i in
      if negb (Z.land elo TLBLO_VALID =? 0) then tlb_fill n' (i + 1) faultaddress paddr
      else
        tlb_write faultaddress (Z.lor (Z.lor paddr TLBLO_DIRTY) TLBLO_VALID) i ;;
        ret true
  end.

(** [cur]: [None] when [curproc] is NULL, else its address space or NULL. *)
Definition vm_fault (cur : option (option addrspace)) (faulttype : fault_type) (faultaddress : Z) : M vm unit :=
  let faultaddress := Z.land faultaddress PAGE_FRAME in
  match faulttype with
  | VM_FAULT_READONLY => panic
  | VM_FAULT_OTHER => err EINVAL
  | VM_FAULT_READ | VM_FAULT_WRITE =>
      match cur with
      | None | Some None => err EFAULT
      | Some (Some a) =>
          KASSERT (negb (as_vbase1 a =? 0)) ;;
          KASSERT (negb (as_pbase1 a =? 0)) ;;
          KASSERT (negb (as_npages1 a =? 0)) ;;
          KASSERT (negb (as_vbase2 a =? 0)) ;;
          KASSERT (negb (as_pbase2 a =? 0)) ;;
          KASSERT (negb (as_npages2 a =? 0)) ;;
          KASSERT (negb (as_stackpbase a =? 0)) ;;
          KASSERT (aligned (as_vbase1 a)) ;;
          KASSERT (aligned (as_pbase1 a)) ;;
          KASSERT (aligned (as_vbase2 a)) ;;
          KASSERT (aligned (as_pbase2 a)) ;;
          KASSERT (aligned (as_stackpbase a)) ;;
          let vbase1 := as_vbase1 a in
          let vtop1 := u32 (vbase1 + u32 (as_npages1 a * PAGE_SIZE)) in
          let vbase2 := as_vbase2 a in
          let vtop2 := u32 (vbase2 + u32 (as_npages2 a * PAGE_SIZE)) in
          let stackbase := USERSTACK - DUMBVM_STACKPAGES * PAGE_SIZE in
          let stacktop := USERSTACK in
          let go paddr :=
            KASSERT (aligned paddr) ;;
            let* spl := splhigh in
            let* found := tlb_fill (Z.to_nat NUM_TLB) 0 faultaddress paddr in
            let* _ := splx spl in
            if found then ret tt else err EFAULT in
          if (vbase1 <=? faultaddress) && (faultaddress <? vtop1) then
            go (u32 (u32 (faultaddress - vbase1) + as_pbase1 a))
          else if (vbase2 <=? faultaddress) && (faultaddress <? vtop2) then
            go (u32 (u32 (faultaddress - vbase2) + as_pbase2 a))
          else if (stackbase <=? faultaddress) && (faultaddress <? stacktop) then
            go (u32 (u32 (faultaddress - stackbase) + as_stackpbase a))
          else err EFAULT
      end
  end.

(** [kmalloc_ok]: whether the [kmalloc] of the structure succeeds; NULL is
    [None]. *)
Definition as_create (kmalloc_ok : bool) : option addrspace :=
  if kmalloc_ok then Some (mkAs 0 0 0 0 0 0 0) else None.

Definition as_activate (cur : option (option addrspace)) : M vm unit :=
  match cur with
  | None | Some None => ret tt
  | Some (Some _) =>
      let* spl := splhigh in
      for_ (Z.to_nat NUM_TLB) 0 (fun i => tlb_write (TLBHI_INVALID i) TLBLO_INVALID i) ;;
      let* _ := splx spl in
      ret tt
  end.
Definition as_deactivate : M vm unit := ret tt.

Definition as_define_region (vaddr sz : Z) : M addrspace unit :=
  let sz := u32 (sz + Z.land vaddr NOT_PAGE_FRAME) in
  let vaddr := Z.land vaddr PAGE_FRAME in
  let sz := Z.land (u32 (u32 (sz + PAGE_SIZE) - 1)) PAGE_FRAME in
  let npages := sz / PAGE_SIZE in
  let* a := get in
  if as_vbase1 a =? 0 then
    modify (fun a => mkAs vaddr (as_pbase1 a) npages (as_vbase2 a) (as_pbase2 a) (as_npages2 a) (as_stackpbase a))
  else if as_vbase2 a =? 0 then
    modify (fun a => mkAs (as_vbase1 a) (as_pbase1 a) (as_npages1 a) vaddr (as_pbase2 a) npages (as_stackpbase a))
  else err EUNIMP.

(** [bzero] and [memmove] on memory that is mapped one to one. *)
Definition zero_range (p n : Z) (m : Z -> Z) : Z -> Z :=
  fun a => if (p <=? a) && (a <? p + n) then 0 else m a.
Definition move_range (dst src n : Z) (m : Z -> Z) : Z -> Z :=
  fun a => if (dst <=? a) && (a <? dst + n) then m (src + (a - dst)) else m a.

Definition as_zero_region (paddr npages : Z) : M vm unit :=
  modify (fun v => put_phys (zero_range paddr (u32 (npages * PAGE_SIZE)) (phys v)) v).

Definition on_vm {A} (m : M vm A) : M (vm * addrspace) A := zoom fst (fun v s => (v, snd s)) m.
Definition set_pbase1 (p : Z) (a : addrspace) :=
  mkAs (as_vbase1 a) p (as_npages1 a) (as_vbase2 a) (as_pbase2 a) (as_npages2 a) (as_stackpbase a).
Definition set_pbase2 (p : Z) (a : addrspace) :=
  mkAs (as_vbase1 a) (as_pbase1 a) (as_npages1 a) (as_vbase2 a) p (as_npages2 a) (as_stackpbase a).
Definition set_stackpbase (p : Z) (a : addrspace) :=
  mkAs (as_vbase1 a) (as_pbase1 a) (as_npages1 a) (as_vbase2 a) (as_pbase2 a) (as_npages2 a) p.
Definition put_as (f : addrspace -> addrspace) : M (vm * addrspace) unit := modify (fun s => (fst s, f (snd s))).

Definition as_prepare_load : M (vm * addrspace) unit :=
  let* a := gets snd in
  KASSERT (as_pbase1 a =? 0) ;;
  KASSERT (as_pbase2 a =? 0) ;;
  KASSERT (as_stackpbase a =? 0) ;;
  let* p1 := on_vm (getppages (as_npages1 a)) in
  put_as (set_pbase1 p1) ;;
  if p1 =? 0 then err ENOMEM
  else
    let* p2 := on_vm (getppages (as_npages2 a)) in
    put_as (set_pbase2 p2) ;;
    if p2 =? 0 then err ENOMEM
    else
      let* ps := on_vm (getppages DUMBVM_STACKPAGES) in
      put_as (set_stackpbase ps) ;;
      if ps =? 0 then err ENOMEM
      else
        on_vm (as_zero_region p1 (as_npages1 a)) ;;
        on_vm (as_zero_region p2 (as_npages2 a)) ;;
        on_vm (as_zero_region ps DUMBVM_STACKPAGES).

Definition as_complete_load (a : addrspace) : M vm unit := ret tt.

(** The initial stack pointer. *)
Definition as_define_stack (a : addrspace) : M vm Z :=
  KASSERT (negb (as_stackpbase a =? 0)) ;; ret USERSTACK.

Definition memmove (dst src n : Z) : M vm unit := modify (fun v => put_phys (move_range dst src n (phys v)) v).

(** [as_prepare_load(new)] in [as_copy]; [as_destroy] only frees the structure. *)
Definition prepare_new (new : addrspace) : M vm addrspace :=
  fun v => match as_prepare_load (v, new) with
           | Ret _ (v', new') => Ret new' v'
           | Err _ (v', _) => Err ENOMEM v'
           | Crash c => Crash c
           end.

Definition as_copy (kmalloc_ok : bool) (old : addrspace) : M vm addrspace :=
  match as_create kmalloc_ok with
  | None => err ENOMEM
  | Some new =>
      let new := mkAs (as_vbase1 old) (as_pbase1 new) (as_npages1 old)
                      (as_vbase2 old) (as_pbase2 new) (as_npages2 old) (as_stackpbase new) in
      let* new := prepare_new new in
      KASSERT (negb (as_pbase1 new =? 0)) ;;
      KASSERT (negb (as_pbase2 new =? 0)) ;;
      KASSERT (negb (as_stackpbase new =? 0)) ;;
      memmove (as_pbase1 new) (as_pbase1 old) (u32 (as_npages1 old * PAGE_SIZE)) ;;
      memmove (as_pbase2 new) (as_pbase2 old) (u32 (as_npages2 old * PAGE_SIZE)) ;;
      memmove (as_stackpbase new) (as_stackpbase old) (DUMBVM_STACKPAGES * PAGE_SIZE) ;;
      ret new
  end.

(** ** Kernel pages *)

Definition vm_ok (v : vm) : Prop := stealmem_lock v = false /\ ram_ok (vm_ram v).

Lemma getppages_spec n v (Q : Z -> vm -> Prop) R :
  vm_ok v -> 0 <= n <= 2 ^ 19 ->
  (forall r, r = mkRam (firstpaddr (vm_ram v) + n * PAGE_SIZE) (lastpaddr (vm_ram v)) -> ram_ok r ->
     vm_ok (put_ram r v) -> Q (firstpaddr (vm_ram v)) (put_ram r v)) ->
  (lastpaddr (vm_ram v) < firstpaddr (vm_ram v) + n * PAGE_SIZE -> Q 0 v) ->
  runs (getppages n v) Q R.
Proof.
  intros [Hlk Hr] Hn HS HF. assert (v = put_stealmem_lock false v) as Ev by (destruct v; simpl in *; by subst).
  unfold getppages. rewrite u32_small by (unfold is_u32; lia). runs_steps. apply runs_KASSERT; [by rewrite Hlk|]. runs_steps.
  apply stealmem_spec; [done|done| |]; intros Hle; runs_steps.
  - pose proof (ram_ok_steal n _ Hr (proj1 Hn) Hle) as Hr'. specialize (HS _ eq_refl Hr'). rewrite Ev in HS. by apply HS.
  - rewrite Ev in HF. by apply HF.
Qed.

(** The VM system with the blocks of pages it has handed out. *)
Definition block_ok (v : vm) (a n : Z) : Prop :=
  0 < n /\ a mod PAGE_SIZE = 0 /\ MIPS_KSEG0 <= a /\ a + n * PAGE_SIZE <= MIPS_KSEG0 + firstpaddr (vm_ram v).

Definition pages_ok (p : vm * gmap Z Z) : Prop :=
  vm_ok (fst p) /\ (forall a n, snd p !! a = Some n -> block_ok (fst p) a n) /\
  (forall a n b m, snd p !! a = Some n -> snd p !! b = Some m -> a <> b -> a + n * PAGE_SIZE <= b \/ b + m * PAGE_SIZE <= a).

Definition log_alloc (n : Z) (p : vm * gmap Z Z) : Z * (vm * gmap Z Z) :=
  match alloc_kpages n (fst p) with
  | Ret a v => (a, (v, if a =? 0 then snd p else <[a := n]> (snd p)))
  | _ => (0, p)
  end.
Definition log_free (a : Z) (p : vm * gmap Z Z) : vm * gmap Z Z :=
  match free_kpages a (fst p) with Ret _ v => (v, snd p) | _ => p end.

Lemma kpages_spec n v : vm_ok v -> 0 < n <= 2 ^ 19 ->
  returns (alloc_kpages n v) (fun a v' => vm_ok v' /\
    (a = 0 /\ v' = v \/ a = MIPS_KSEG0 + firstpaddr (vm_ram v) /\ firstpaddr (vm_ram v') = firstpaddr (vm_ram v) + n * PAGE_SIZE)).
Proof.
  intros Hv Hn. unfold alloc_kpages. runs_steps. apply getppages_spec; [done|lia| |].
  - intros r Er Hr Hv'. destruct Hv as [_ (Hf & Hl & Ha)]. unfold RAM_MAX in Hl. rewrite (proj2 (Z.eqb_neq _ _)) by lia. runs_steps.
    split; [done|]. right. simpl. rewrite Er. simpl. split; [|done]. unfold PADDR_TO_KVADDR, MIPS_KSEG0. rewrite u32_small by (unfold is_u32; lia). lia.
  - intros _. simpl. runs_steps. by auto.
Qed.

Lemma log_alloc_ok n p a p' : pages_ok p -> 0 < n <= 2 ^ 19 -> log_alloc n p = (a, p') ->
  pages_ok p' /\ (a = 0 /\ snd p' = snd p \/ a <> 0 /\ snd p !! a = None /\ snd p' = <[a := n]> (snd p)).
Proof.
  intros (Hv & Hb & Hd) Hn. unfold log_alloc. pose proof (kpages_spec n _ Hv Hn) as Hrun.
  destruct (alloc_kpages n (fst p)) as [a0 v'|e v'|]; [|done|done]. destruct Hrun as [Hv' Hcase]. intros [= <- <-].
  destruct Hcase as [[-> ->]|[-> Hf']]; [split; [done|by left]|].
  pose proof Hv as [_ (Hf & Hl & Ha)]. unfold MIPS_KSEG0, PAGE_SIZE in *. rewrite (proj2 (Z.eqb_neq _ _)) by lia. simpl.
  assert (forall b m, snd p !! b = Some m -> b + m * PAGE_SIZE <= 0x80000000 + firstpaddr (vm_ram (fst p)) /\ 0 < m) as Hold.
  { intros b m Hm. destruct (Hb b m Hm) as (? & _ & _ & ?). by split. }
  assert (snd p !! (0x80000000 + firstpaddr (vm_ram (fst p))) = None) as Hnone.
  { destruct (snd p !! _) as [m|] eqn:E; [|done]. destruct (Hold _ _ E). unfold PAGE_SIZE in *. lia. }
  split; [|right; split_and!; [lia|done|done]]. split_and!; [done| |]; simpl.
  - intros b m [[<- <-]|[_ Hm]]%lookup_insert_Some; unfold block_ok, MIPS_KSEG0, PAGE_SIZE in *.
    + split_and!; [lia|dlia|lia|lia].
    + destruct (Hb b m Hm) as (? & ? & ? & ?). split_and!; try done; lia.
  - intros b m c k [[<- <-]|[_ Hm]]%lookup_insert_Some [[<- <-]|[_ Hk]]%lookup_insert_Some Hne; [done| | |by eapply Hd].
    + destruct (Hold _ _ Hk). unfold PAGE_SIZE in *. lia.
    + destruct (Hold _ _ Hm). unfold PAGE_SIZE in *. lia.
Qed.

#[export, refine] Instance ram_pages : KPages (vm * gmap Z Z) := {
  kp_alloc := log_alloc; kp_free := log_free; kp_blocks := snd; kp_ok := pages_ok }.
Proof.
  - intros p a n (Hv & Hb & _) Ha. destruct (Hb a n Ha) as (Hn & Hal & Hlo & Hhi). destruct Hv as [_ (Hf & Hl & _)].
    unfold RAM_MAX, MIPS_KSEG0, MIPS_KSEG1 in *. split_and!; try done; lia.
  - intros p a n b m (_ & _ & Hd). apply Hd.
  - intros n p a p' Hp Hn Ha. by apply log_alloc_ok.
  - intros a [v L] Hp. split; [exact Hp|by left].
Defined.
End Dumbvm.
