(* ===== verification/DumbvmThm.v ===== *)
(** * Address spaces: what a process can reach

    [as_pa] is the meaning of an address space, a byte of user memory at a
    physical address, and [user_ref] the processor's view through the TLB.  The
    theorems show that [vm_fault] makes the second agree with the first, that
    [as_copy] gives the child the parent's bytes in frames of its own, and two
    cases in which the code goes wrong. *)

From S2P Require Import Prelude Spl Kmalloc Dumbvm.
Import Ram Dumbvm.

Module DumbvmThm.

(** ** Meaning *)

(** Virtual base, physical base, pages. *)
Definition regions (a : addrspace) : list (Z * Z * Z) :=
  [(as_vbase1 a, as_pbase1 a, as_npages1 a); (as_vbase2 a, as_pbase2 a, as_npages2 a);
   (USERSTACK - DUMBVM_STACKPAGES * PAGE_SIZE, as_stackpbase a, DUMBVM_STACKPAGES)].

Fixpoint find_pa (l : list (Z * Z * Z)) (va : Z) : option Z :=
  match l with
  | [] => None
  | (vb, pb, n) :: l' => if (vb <=? va) && (va <? vb + n * PAGE_SIZE) then Some (pb + (va - vb)) else find_pa l' va
  end.
Definition as_pa (a : addrspace) (va : Z) : option Z := find_pa (regions a) va.

Definition region_ok (r : Z * Z * Z) : Prop :=
  let '(vb, pb, n) := r in
  vb mod PAGE_SIZE = 0 /\ pb mod PAGE_SIZE = 0 /\ 0 < n /\ 0 < vb /\ 0 < pb /\
  vb + n * PAGE_SIZE <= USERSPACETOP /\ pb + n * PAGE_SIZE <= RAM_MAX.
Definition as_ok (a : addrspace) : Prop := Forall region_ok (regions a).

Definition page_of (va : Z) : Z := va - va mod PAGE_SIZE.

(** A reference through the TLB: the valid entry for the page. *)
Definition entry_for (va : Z) (e : Z * Z) : bool :=
  (page_of (fst e) =? page_of va) && negb (Z.land (snd e) TLBLO_VALID =? 0).
Definition user_ref (t : list (Z * Z)) (va : Z) : option Z :=
  match filter (fun e => entry_for va e = true) t with
  | e :: _ => Some (page_of (snd e) + va mod PAGE_SIZE)
  | [] => None
  end.

(** Every valid entry is a page of the address space, writable, in its frame. *)
Definition tlb_sound (a : addrspace) (t : list (Z * Z)) : Prop :=
  zlen t = NUM_TLB /\
  forall e, e ∈ t -> Z.land (snd e) TLBLO_VALID <> 0 ->
    page_of (fst e) = fst e /\ as_pa a (fst e) = Some (page_of (snd e)) /\ Z.land (snd e) TLBLO_DIRTY <> 0.

(** ** Arithmetic *)

Lemma page_of_land va : is_u32 va -> Z.land va PAGE_FRAME = page_of va.
Proof. apply land_frame. Qed.

Lemma aligned_true p : is_u32 p -> p mod PAGE_SIZE = 0 -> aligned p = true.
Proof. intros Hp Hm. unfold aligned. rewrite land_frame by done. apply Z.eqb_eq. lia. Qed.

Lemma page_of_range va : 0 <= va -> 0 <= page_of va <= va /\ va < page_of va + PAGE_SIZE /\ page_of va mod PAGE_SIZE = 0.
Proof. unfold page_of, PAGE_SIZE. intros. dlia. Qed.

Lemma elo_fields p : 0 <= p -> p mod PAGE_SIZE = 0 ->
  let elo := Z.lor (Z.lor p TLBLO_DIRTY) TLBLO_VALID in
  page_of elo = p /\ Z.land elo TLBLO_VALID <> 0 /\ Z.land elo TLBLO_DIRTY <> 0.
Proof.
  intros Hp Hm elo. assert (elo = p + 0x600) as E.
  { unfold elo. rewrite <- Z.lor_assoc. change (Z.lor TLBLO_DIRTY TLBLO_VALID) with 0x600.
    assert (Z.land p 0x600 = 0) as Hd.
    { apply Z.bits_inj'. intros i Hi. rewrite Z.land_spec, Z.bits_0. destruct (decide (i < 12)) as [Hl|Hl].
      - assert (p = Z.shiftl (p / 4096) 12) as -> by (rewrite Z.shiftl_mul_pow2 by lia; unfold PAGE_SIZE in *; dlia).
        by rewrite Z.shiftl_spec_low.
      - rewrite (testbit_high 12 0x600) by lia. apply andb_false_r. }
    rewrite Z.add_nocarry_lxor by done. symmetry. by apply Z.lxor_lor. }
  split_and!.
  - rewrite E. unfold page_of, PAGE_SIZE in *. dlia.
  - assert (Z.testbit elo 9 = true) as Hb by (unfold elo; by rewrite !Z.lor_spec, orb_true_r). intros E0.
    assert (Z.testbit (Z.land elo TLBLO_VALID) 9 = true) as Hb' by (by rewrite Z.land_spec, Hb). by rewrite E0 in Hb'.
  - assert (Z.testbit elo 10 = true) as Hb by (unfold elo; by rewrite !Z.lor_spec, orb_true_r). intros E0.
    assert (Z.testbit (Z.land elo TLBLO_DIRTY) 10 = true) as Hb' by (by rewrite Z.land_spec, Hb). by rewrite E0 in Hb'.
Qed.

(** A page lies in a region with all its bytes, or with none. *)
Lemma find_pa_page l va : Forall region_ok l -> 0 <= va -> find_pa l va = (fun p => p + va mod PAGE_SIZE) <$> find_pa l (page_of va).
Proof.
  intros Hl Hva. destruct (page_of_range va Hva) as (Hp & Hp2 & Hpm). induction Hl as [|[[vb pb] n] l (Hv & Hpb & Hn & _) Hl IH]; [done|].
  simpl. rewrite IH. assert ((vb <=? va) && (va <? vb + n * PAGE_SIZE) = (vb <=? page_of va) && (page_of va <? vb + n * PAGE_SIZE)) as ->.
  { apply eq_true_iff_eq. rewrite !andb_true_iff, !Z.leb_le, !Z.ltb_lt. unfold page_of, PAGE_SIZE in *. split; intros; dlia. }
  destruct (_ && _); [|done]. simpl. f_equal. unfold page_of, PAGE_SIZE in *. dlia.
Qed.

Lemma find_pa_range l va pa : Forall region_ok l -> find_pa l va = Some pa ->
  0 < pa < RAM_MAX /\ 0 < va < USERSPACETOP /\ (va mod PAGE_SIZE = 0 -> pa mod PAGE_SIZE = 0).
Proof.
  intros Hl. induction Hl as [|[[vb pb] n] l (Hv & Hpb & Hn & Hv0 & Hp0 & Htop & Hram) Hl IH]; [done|]. simpl.
  destruct (_ && _) eqn:E; [|apply IH]. apply andb_true_iff in E as [E1%Z.leb_le E2%Z.ltb_lt]. intros [= <-].
  unfold PAGE_SIZE in *. split_and!; try lia. intros. dlia.
Qed.

(** ** The TLB *)

Definition valid (e : Z * Z) : Prop := Z.land (snd e) TLBLO_VALID <> 0.

Lemma tlb_fill_spec n i fa pa v (Q : bool -> vm -> Prop) R :
  0 <= i -> i + Z.of_nat n = zlen (tlb v) -> (forall k e, 0 <= k < i -> zlookup (tlb v) k = Some e -> valid e) ->
  (forall j e, zlookup (tlb v) j = Some e -> ~ valid e ->
     Q true (put_tlb (zinsert (tlb v) j (fa, Z.lor (Z.lor pa TLBLO_DIRTY) TLBLO_VALID)) v)) ->
  ((forall e, e ∈ tlb v -> valid e) -> Q false v) ->
  runs (tlb_fill n i fa pa v) Q R.
Proof.
  revert i. induction n as [|n IH]; intros i Hi Hlen Hbefore HS HN; cbn [tlb_fill].
  - runs_steps. apply HN. intros e He. apply list_elem_of_lookup in He as [k Hk]. apply (Hbefore (Z.of_nat k)).
    + apply lookup_lt_Some in Hk. unfold zlen in Hlen. lia.
    + unfold zlookup. rewrite bool_decide_true by lia. by rewrite Nat2Z.id.
  - unfold tlb_read. runs_steps. destruct (zlookup_is_Some (tlb v) i) as [[hi lo] Hlo]; [lia|].
    apply (runs_of_option _ _ (hi, lo)); [done|]. simpl.
    destruct (Z.land lo TLBLO_VALID =? 0) eqn:E; simpl.
    + apply Z.eqb_eq in E. unfold tlb_write. runs_steps. eapply HS; [done|]. unfold valid. simpl. lia.
    + apply Z.eqb_neq in E. apply IH; [lia|lia| |done|done]. intros k e Hk He. destruct (decide (k = i)) as [->|]; [by rewrite Hlo in He; injection He as <-|].
      apply (Hbefore k); [lia|done].
Qed.

Lemma ipl_restored n i i' : Spl.ipl_ok n i -> Spl.ipl_ok n i' -> Spl.t_curspl i' = Spl.t_curspl i -> i' = i.
Proof.
  destruct i as [s c b], i' as [s' c' b']. intros (_ & _ & Hc & Hb) (_ & _ & Hc' & Hb') E. simpl in *. by subst.
Qed.

(** Inserting an entry for a page that has none. *)
Lemma user_ref_insert t j e0 va pa va' :
  zlookup t j = Some e0 -> ~ valid e0 -> 0 <= va -> pa mod PAGE_SIZE = 0 -> 0 <= pa -> user_ref t va = None -> 
  user_ref (zinsert t j (page_of va, Z.lor (Z.lor pa TLBLO_DIRTY) TLBLO_VALID)) va' =
    if page_of va' =? page_of va then Some (pa + va' mod PAGE_SIZE) else user_ref t va'.
Proof.
  intros Hj Hinv Hva Hpa Hpa0 Hnone. destruct (elo_fields pa Hpa0 Hpa) as (Epage & Hvalid & _).
  set (e := (page_of va, _)). unfold user_ref in *.
  assert (exists l1 l2, t = l1 ++ e0 :: l2 /\ zinsert t j e = l1 ++ e :: l2) as (l1 & l2 & -> & ->).
  { pose proof (zlookup_Some_range _ _ _ Hj) as Hr. unfold zlookup in Hj. unfold zinsert. rewrite bool_decide_true in Hj |- * by lia.
    exists (take (Z.to_nat j) t), (drop (S (Z.to_nat j)) t). split; [by rewrite take_drop_middle|].
    apply insert_take_drop. by eapply lookup_lt_Some. }
  assert (forall x, entry_for x e0 = false) as He0.
  { intros x. unfold entry_for. destruct (Z.land (snd e0) TLBLO_VALID =? 0) eqn:E; [apply andb_false_r|]. destruct Hinv. by apply Z.eqb_neq in E. }
  assert (entry_for va' e = (page_of va' =? page_of va)) as He.
  { unfold entry_for. simpl. rewrite (proj2 (Z.eqb_neq _ _) Hvalid), andb_true_r.
    assert (page_of (page_of va) = page_of va) as -> by (unfold page_of, PAGE_SIZE; dlia). apply Z.eqb_sym. }
  assert (forall x, filter (fun e => entry_for x e = true) (l1 ++ e0 :: l2) = filter (fun e => entry_for x e = true) (l1 ++ l2)) as Hskip.
  { intros x. rewrite !filter_app, filter_cons, He0. by rewrite decide_False. }
  rewrite Hskip in Hnone |- *. rewrite filter_app, filter_cons, He. destruct (page_of va' =? page_of va) eqn:E.
  - rewrite decide_True by done. apply Z.eqb_eq in E.
    assert (forall x, entry_for va' x = entry_for va x) as Hext by (intros x; unfold entry_for; by rewrite E).
    rewrite filter_app in Hnone. rewrite (list_filter_iff _ (fun e => entry_for va e = true)) by (intros x; by rewrite Hext).
    destruct (filter _ l1); [|done]. simpl. by rewrite Epage.
  - rewrite decide_False by done. by rewrite filter_app.
Qed.

Lemma tlb_sound_insert a t j e0 va pa :
  tlb_sound a t -> zlookup t j = Some e0 -> 0 <= va -> as_ok a -> as_pa a (page_of va) = Some pa ->
  tlb_sound a (zinsert t j (page_of va, Z.lor (Z.lor pa TLBLO_DIRTY) TLBLO_VALID)).
Proof.
  intros [Hlen Hs] Hj Hva Ha Hpa. destruct (page_of_range va Hva) as (_ & _ & Hm).
  destruct (find_pa_range _ _ _ Ha Hpa) as (Hr & _ & Hal). specialize (Hal Hm).
  destruct (elo_fields pa ltac:(lia) Hal) as (Epage & Hvalid & Hdirty). split; [by rewrite zlen_zinsert|].
  intros e He Hv. unfold zinsert in He. rewrite bool_decide_true in He by (by apply zlookup_Some_range in Hj; lia).
  apply list_elem_of_lookup in He as [k [(_ & <- & _)|[_ Hk]]%list_lookup_insert_Some].
  - simpl. rewrite Epage. split_and!; [unfold page_of, PAGE_SIZE; dlia|done|done].
  - apply Hs; [by eapply list_elem_of_lookup_2|done].
Qed.

Lemma user_ref_sound a t va pa : as_ok a -> tlb_sound a t -> 0 <= va -> user_ref t va = Some pa -> as_pa a va = Some pa.
Proof.
  intros Ha [_ Hs] Hva. unfold user_ref. destruct (filter _ t) as [|e l] eqn:E; [done|]. intros [= <-].
  assert (e ∈ filter (fun e => entry_for va e = true) t) as He by (rewrite E; by left).
  apply list_elem_of_filter in He as [[Hp Hv]%andb_true_iff He]. apply Z.eqb_eq in Hp. apply negb_true_iff, Z.eqb_neq in Hv.
  destruct (Hs e He Hv) as (E1 & E2 & _). unfold as_pa in *. rewrite find_pa_page by done. rewrite <- Hp, E1, E2. done.
Qed.

(** What [vm_fault] does when it has found the frame. *)
Lemma fault_fill_spec a v va pa n (Q : unit -> vm -> Prop) (R : Z -> vm -> Prop) :
  as_ok a -> tlb_sound a (tlb v) -> Spl.ipl_ok n (vm_ipl v) -> 0 <= va -> as_pa a (page_of va) = Some pa ->
  (forall j e, zlookup (tlb v) j = Some e -> ~ valid e ->
     Q tt (put_tlb (zinsert (tlb v) j (page_of va, Z.lor (Z.lor pa TLBLO_DIRTY) TLBLO_VALID)) v)) ->
  ((forall e, e ∈ tlb v -> valid e) -> R EFAULT v) ->
  runs ((KASSERT (aligned pa) ;;
         let* spl := splhigh in
         let* found := tlb_fill (Z.to_nat NUM_TLB) 0 (page_of va) pa in
         let* _ := splx spl in
         if found then ret tt else err EFAULT) v) Q R.
Proof.
  intros Ha Ht Hipl Hva Hpa HQ HR. destruct (page_of_range va Hva) as (_ & _ & Hm).
  destruct (find_pa_range _ _ _ Ha Hpa) as (Hr & _ & Hal). unfold RAM_MAX in Hr. runs_steps.
  apply runs_KASSERT; [apply aligned_true; [unfold is_u32; lia|by apply Hal]|]. unfold splhigh, splx. runs_steps.
  eapply runs_mono; [by apply (Spl.splx_spec 0 n); [|right]| |done]. intros old i (-> & Hi & Hcur).
  set (v1 := put_ipl i v). assert (forall i', Spl.ipl_ok n i' -> Spl.t_curspl i' = Spl.t_curspl (vm_ipl v) -> forall t, put_ipl i' (put_tlb t v1) = put_tlb t v) as Hback.
  { intros i' Hi' E t. rewrite (ipl_restored _ _ _ Hipl Hi' E). by destruct v. }
  runs_steps. apply (tlb_fill_spec _ _ _ _ v1); [done|simpl; by rewrite (proj1 Ht)|lia| |].
  - intros j e Hj Hinv. runs_steps. eapply runs_mono; [apply (Spl.splx_spec 0 n); [done|apply Hipl]| |done].
    intros _ i' (_ & Hi' & E). rewrite Hback by done. runs_steps. by eapply HQ.
  - intros Hall. runs_steps. eapply runs_mono; [apply (Spl.splx_spec 0 n); [done|apply Hipl]| |done].
    intros _ i' (_ & Hi' & E). assert (put_ipl i' v1 = v) as -> by (rewrite (ipl_restored _ _ _ Hipl Hi' E); by destruct v).
    by apply HR.
Qed.

Lemma region_top vb pb n : region_ok (vb, pb, n) -> u32 (vb + u32 (n * PAGE_SIZE)) = vb + n * PAGE_SIZE /\ is_u32 vb /\ is_u32 pb.
Proof.
  intros (_ & _ & Hn & Hv & Hp & Ht & Hr). unfold USERSPACETOP, MIPS_KSEG0, RAM_MAX, PAGE_SIZE, is_u32 in *.
  rewrite (u32_small (n * _)) by (unfold is_u32; lia). rewrite u32_small by (unfold is_u32; lia). lia.
Qed.

Lemma region_pa vb pb n p : region_ok (vb, pb, n) -> (vb <=? p) && (p <? vb + n * PAGE_SIZE) = true -> u32 (u32 (p - vb) + pb) = pb + (p - vb).
Proof.
  intros (_ & _ & Hn & Hv & Hp & Ht & Hr) [E1%Z.leb_le E2%Z.ltb_lt]%andb_true_iff. unfold USERSPACETOP, MIPS_KSEG0, RAM_MAX, PAGE_SIZE in *.
  rewrite (u32_small (p - vb)) by (unfold is_u32; lia). rewrite u32_small by (unfold is_u32; lia). lia.
Qed.

Lemma vm_fault_spec a v ft va n :
  as_ok a -> tlb_sound a (tlb v) -> Spl.ipl_ok n (vm_ipl v) -> is_u32 va -> ft = VM_FAULT_READ \/ ft = VM_FAULT_WRITE ->
  runs (vm_fault (Some (Some a)) ft va v)
    (fun _ v' => exists j e pa, as_pa a (page_of va) = Some pa /\ zlookup (tlb v) j = Some e /\ ~ valid e /\
       v' = put_tlb (zinsert (tlb v) j (page_of va, Z.lor (Z.lor pa TLBLO_DIRTY) TLBLO_VALID)) v)
    (fun e v' => e = EFAULT /\ v' = v /\ (as_pa a (page_of va) = None \/ forall e, e ∈ tlb v -> valid e)).
Proof.
  intros Ha Ht Hipl Hva Hft. pose proof Ha as Hreg. unfold as_ok, regions in Hreg.
  apply Forall_cons in Hreg as [H1 [H2 [H3 _]%Forall_cons]%Forall_cons].
  destruct (region_top _ _ _ H1) as (E1 & U1 & U1'), (region_top _ _ _ H2) as (E2 & U2 & U2'), (region_top _ _ _ H3) as (_ & _ & U3').
  pose proof H1 as (A1 & A1' & N1 & V1 & P1 & _). pose proof H2 as (A2 & A2' & N2 & V2 & P2 & _). pose proof H3 as (_ & A3' & _ & _ & P3 & _).
  assert (vm_fault (Some (Some a)) ft va = vm_fault (Some (Some a)) VM_FAULT_READ va) as -> by (by destruct Hft as [-> | ->]).
  unfold vm_fault. rewrite page_of_land by done. unfold is_u32 in Hva.
  repeat (runs_steps; apply runs_KASSERT; [first [by apply negb_true_iff, Z.eqb_neq; lia | by apply aligned_true]|]).
  rewrite E1, E2. unfold as_pa, regions in *. cbn [find_pa].
  change USERSTACK with (USERSTACK - DUMBVM_STACKPAGES * PAGE_SIZE + DUMBVM_STACKPAGES * PAGE_SIZE) at 2.
  assert (forall pa, find_pa (regions a) (page_of va) = Some pa -> runs ((KASSERT (aligned pa) ;;
         let* spl := splhigh in
         let* found := tlb_fill (Z.to_nat NUM_TLB) 0 (page_of va) pa in
         let* _ := splx spl in
         if found then ret tt else err EFAULT) v)
    (fun _ v' => exists j e pa', Some pa = Some pa' /\ zlookup (tlb v) j = Some e /\ ~ valid e /\
       v' = put_tlb (zinsert (tlb v) j (page_of va, Z.lor (Z.lor pa' TLBLO_DIRTY) TLBLO_VALID)) v)
    (fun e v' => e = EFAULT /\ v' = v /\ (Some pa = None \/ forall e, e ∈ tlb v -> valid e))) as Hgo.
  { intros pa Hpa. eapply (fault_fill_spec a v va pa n); [done|done|done|lia|done| |].
    - intros j e Hj He. by exists j, e, pa.
    - intros Hall. by auto. }
  unfold regions in Hgo. cbn [find_pa] in Hgo.
  destruct ((as_vbase1 a <=? page_of va) && (page_of va <? as_vbase1 a + as_npages1 a * PAGE_SIZE)) eqn:C1.
  { rewrite (region_pa _ _ _ _ H1 C1). by apply Hgo. }
  destruct ((as_vbase2 a <=? page_of va) && (page_of va <? as_vbase2 a + as_npages2 a * PAGE_SIZE)) eqn:C2.
  { rewrite (region_pa _ _ _ _ H2 C2). by apply Hgo. }
  destruct ((USERSTACK - DUMBVM_STACKPAGES * PAGE_SIZE <=? page_of va) && _) eqn:C3.
  { rewrite (region_pa _ _ _ _ H3 C3). by apply Hgo. }
  simpl. by auto.
Qed.

Lemma vm_fault_result (a : addrspace) (v : vm) (ft : fault_type) (va n : Z) :
  as_ok a -> tlb_sound a (tlb v) -> Spl.ipl_ok n (vm_ipl v) -> is_u32 va -> ft = VM_FAULT_READ \/ ft = VM_FAULT_WRITE -> user_ref (tlb v) va = None ->
  runs (vm_fault (Some (Some a)) ft va v)
    (fun _ v' => is_Some (as_pa a va) /\ v' = put_tlb (tlb v') v /\ tlb_sound a (tlb v') /\
       (forall va', user_ref (tlb v') va' = if page_of va' =? page_of va then as_pa a va' else user_ref (tlb v) va') /\
       (forall va' pa', 0 <= va' -> user_ref (tlb v') va' = Some pa' -> as_pa a va' = Some pa'))
    (fun e v' => e = EFAULT /\ v' = v /\ (as_pa a va = None \/ forall e, e ∈ tlb v -> valid e)).
Proof.
  intros Ha Ht Hi Hva Hft Hmiss.
  eapply runs_mono; [by eapply vm_fault_spec| |]; unfold is_u32 in Hva; destruct (page_of_range va ltac:(lia)) as (_ & _ & Hm).
  - intros _ v' (j & e & pa & Hpa & Hj & He & ->). destruct (find_pa_range _ _ _ Ha Hpa) as (Hr & _ & Hal).
    pose proof (tlb_sound_insert a (tlb v) j e va pa Ht Hj ltac:(lia) Ha Hpa) as Hs'. simpl. split_and!; [|done|done| |].
    + unfold as_pa in *. rewrite find_pa_page, Hpa by (done || lia). by eexists.
    + intros va'. rewrite (user_ref_insert _ _ e) by (done || lia || by apply Hal). destruct (page_of va' =? page_of va) eqn:E; [|done].
      apply Z.eqb_eq in E. unfold as_pa in *. symmetry.
      assert (0 <= va') by (destruct (find_pa_range _ _ _ Ha Hpa) as (_ & ? & _); unfold page_of, PAGE_SIZE in *; dlia).
      by rewrite find_pa_page, E, Hpa by done.
    + intros va' pa' Hva'. by apply user_ref_sound.
  - intros e v' (-> & -> & Hor). split_and!; [done|done|]. destruct Hor as [Hn|?]; [left|by right].
    unfold as_pa in *. by rewrite find_pa_page, Hn by (done || lia).
Qed.

(** C9. A page fault of a process on a page that has no translation: if the address
    lies in one of the three regions and an entry is free, the TLB afterwards
    translates every byte of that page to the byte of the address space, all
    other translations are as before, and no translation leaves the address
    space; otherwise EFAULT, and nothing has changed.  No assertion fails, and
    the interrupt level is back where it was. *)
Theorem vm_fault_exact (a : addrspace) (v : vm) (ft : fault_type) (va n : Z)
    (Ha : as_ok a) (Ht : tlb_sound a (tlb v)) (Hi : Spl.ipl_ok n (vm_ipl v)) (Hva : is_u32 va)
    (Hft : ft = VM_FAULT_READ \/ ft = VM_FAULT_WRITE) (Hmiss : user_ref (tlb v) va = None) :
  runs (vm_fault (Some (Some a)) ft va v)
    (fun _ v' => is_Some (as_pa a va) /\ v' = put_tlb (tlb v') v /\ tlb_sound a (tlb v') /\
       (forall va', user_ref (tlb v') va' = if page_of va' =? page_of va then as_pa a va' else user_ref (tlb v) va') /\
       (forall va' pa', 0 <= va' -> user_ref (tlb v') va' = Some pa' -> as_pa a va' = Some pa'))
    (fun e v' => e = EFAULT /\ v' = v /\ (as_pa a va = None \/ forall e, e ∈ tlb v -> valid e)).
Proof. by eapply vm_fault_result. Qed.

(** ** Memory of its own *)

Lemma range_true p a n : (p <=? a) && (a <? p + n) = true <-> p <= a < p + n.
Proof. rewrite andb_true_iff, Z.leb_le, Z.ltb_lt. done. Qed.
Lemma range_false p a n : ~ (p <= a < p + n) -> (p <=? a) && (a <? p + n) = false.
Proof. intros H. apply not_true_iff_false. by rewrite range_true. Qed.

Lemma zero_range_out p n m a : ~ (p <= a < p + n) -> zero_range p n m a = m a.
Proof. intros H. unfold zero_range. by rewrite range_false. Qed.
Lemma zero_range_in p n m a : p <= a < p + n -> zero_range p n m a = 0.
Proof. intros H. unfold zero_range. by rewrite (proj2 (range_true _ _ _) H). Qed.
Lemma move_range_out d s n m a : ~ (d <= a < d + n) -> move_range d s n m a = m a.
Proof. intros H. unfold move_range. by rewrite range_false. Qed.
Lemma move_range_in d s n m a : d <= a < d + n -> move_range d s n m a = m (s + (a - d)).
Proof. intros H. unfold move_range. by rewrite (proj2 (range_true _ _ _) H). Qed.

(** The frames of a new address space: one after the other. *)
Definition laid_out (a : addrspace) (p : Z) : addrspace :=
  mkAs (as_vbase1 a) p (as_npages1 a) (as_vbase2 a) (p + as_npages1 a * PAGE_SIZE) (as_npages2 a)
    (p + as_npages1 a * PAGE_SIZE + as_npages2 a * PAGE_SIZE).

Definition total (a : addrspace) : Z := (as_npages1 a + as_npages2 a + DUMBVM_STACKPAGES) * PAGE_SIZE.

Lemma prepare_load_spec v a (Q : unit -> vm * addrspace -> Prop) R :
  vm_ok v -> 0 <= as_npages1 a <= 2 ^ 19 -> 0 <= as_npages2 a <= 2 ^ 19 ->
  as_pbase1 a = 0 -> as_pbase2 a = 0 -> as_stackpbase a = 0 ->
  (forall v', vm_ok v' -> firstpaddr (vm_ram v') = firstpaddr (vm_ram v) + total a -> lastpaddr (vm_ram v') = lastpaddr (vm_ram v) ->
     (forall x, phys v' x = if decide (firstpaddr (vm_ram v) <= x < firstpaddr (vm_ram v')) then 0 else phys v x) ->
     tlb v' = tlb v -> vm_ipl v' = vm_ipl v -> Q tt (v', laid_out a (firstpaddr (vm_ram v)))) ->
  (forall v' a', lastpaddr (vm_ram v) < firstpaddr (vm_ram v) + total a -> firstpaddr (vm_ram v) <= firstpaddr (vm_ram v') -> vm_ok v' -> phys v' = phys v -> tlb v' = tlb v -> R ENOMEM (v', a')) ->
  runs (as_prepare_load (v, a)) Q R.
Proof.
  intros Hv H1 H2 E1 E2 E3 HQ HR. unfold as_prepare_load, on_vm, put_as, as_zero_region. runs_steps.
  simpl. rewrite E1, E2, E3. repeat (apply runs_KASSERT; [done|]; runs_steps).
  destruct Hv as [Hlk Hram]. pose proof Hram as (Hf & _).
  apply getppages_spec; [done|done| |intros Hfull; runs_steps; simpl; runs_steps; by apply HR; [unfold total, DUMBVM_STACKPAGES, PAGE_SIZE in *; simpl in *; lia|unfold PAGE_SIZE in *; simpl in *; lia|..]].
  intros r1 Er1 Hr1 Hv1. cbn [fst snd vm_ram put_ram] in *. runs_steps. rewrite (proj2 (Z.eqb_neq _ _)) by lia. runs_steps. simpl.
  assert (firstpaddr r1 = firstpaddr (vm_ram v) + as_npages1 a * PAGE_SIZE) as F1 by (by rewrite Er1). assert (lastpaddr r1 = lastpaddr (vm_ram v)) as L1 by (by rewrite Er1). pose proof Hr1 as (Hf1 & _).
  apply getppages_spec; [done|done| |intros Hfull; runs_steps; simpl; runs_steps; by apply HR; [unfold total, DUMBVM_STACKPAGES, PAGE_SIZE in *; simpl in *; lia|unfold PAGE_SIZE in *; simpl in *; lia|..]].
  intros r2 Er2 Hr2 Hv2. cbn [fst snd vm_ram put_ram] in *. runs_steps. rewrite (proj2 (Z.eqb_neq _ _)) by lia. runs_steps. simpl.
  assert (firstpaddr r2 = firstpaddr r1 + as_npages2 a * PAGE_SIZE) as F2 by (by rewrite Er2). assert (lastpaddr r2 = lastpaddr r1) as L2 by (by rewrite Er2). pose proof Hr2 as (Hf2 & _).
  apply getppages_spec; [done|done| |intros Hfull; runs_steps; simpl; runs_steps; by apply HR; [unfold total, DUMBVM_STACKPAGES, PAGE_SIZE in *; simpl in *; lia|unfold PAGE_SIZE in *; simpl in *; lia|..]].
  intros r3 Er3 Hr3 Hv3. cbn [fst snd vm_ram put_ram] in *. runs_steps. rewrite (proj2 (Z.eqb_neq _ _)) by lia. runs_steps. simpl.
  assert (firstpaddr r3 = firstpaddr r2 + DUMBVM_STACKPAGES * PAGE_SIZE) as F3 by (by rewrite Er3).
  match goal with |- Q tt (?v', ?a') => assert (a' = laid_out a (firstpaddr (vm_ram v))) as -> end.
  { unfold laid_out, set_pbase1, set_pbase2, set_stackpbase. simpl. by rewrite F2, F1. }
  unfold total, DUMBVM_STACKPAGES, PAGE_SIZE in *. rewrite !u32_small by (unfold is_u32; lia). apply HQ; simpl; [done|lia|by rewrite Er3, Er2, Er1| |done|done].
  intros x. unfold zero_range. case_decide as E.
  - destruct (decide (firstpaddr r2 <= x)); [rewrite (proj2 (range_true _ _ _)) by lia; done|].
    rewrite (range_false (firstpaddr r2)) by lia. destruct (decide (firstpaddr r1 <= x)); [rewrite (proj2 (range_true _ _ _)) by lia; done|].
    rewrite (range_false (firstpaddr r1)) by lia. rewrite (proj2 (range_true _ _ _)) by lia. done.
  - by rewrite !range_false by lia.
Qed.

(** ** A copy for a child *)

(** The byte a process sees at [va]. *)
Definition user_byte (v : vm) (a : addrspace) (va : Z) : option Z := phys v <$> as_pa a va.

(** The frames of an address space lie below [lim]. *)
Definition frames_below (a : addrspace) (lim : Z) : Prop := Forall (fun '(_, pb, n) => pb + n * PAGE_SIZE <= lim) (regions a).

Lemma prepare_new_spec v a (Q : addrspace -> vm -> Prop) (R : Z -> vm -> Prop) :
  vm_ok v -> 0 <= as_npages1 a <= 2 ^ 19 -> 0 <= as_npages2 a <= 2 ^ 19 ->
  as_pbase1 a = 0 -> as_pbase2 a = 0 -> as_stackpbase a = 0 ->
  (forall v', vm_ok v' -> firstpaddr (vm_ram v') = firstpaddr (vm_ram v) + total a ->
     (forall x, x < firstpaddr (vm_ram v) -> phys v' x = phys v x) -> tlb v' = tlb v -> vm_ipl v' = vm_ipl v ->
     Q (laid_out a (firstpaddr (vm_ram v))) v') ->
  (forall v', lastpaddr (vm_ram v) < firstpaddr (vm_ram v) + total a -> firstpaddr (vm_ram v) <= firstpaddr (vm_ram v') -> vm_ok v' -> phys v' = phys v -> R ENOMEM v') ->
  runs (prepare_new a v) Q R.
Proof.
  intros Hv H1 H2 E1 E2 E3 HQ HR. unfold prepare_new.
  pose proof (prepare_load_spec v a (fun _ s => Q (snd s) (fst s)) (fun _ s => R ENOMEM (fst s)) Hv H1 H2 E1 E2 E3) as Hrun.
  destruct (as_prepare_load (v, a)) as [[] [v' a']|e [v' a']|c]; apply Hrun; clear Hrun.
  all: try (intros v'' Hv'' Hf _ Hx Ht Hi; apply HQ; [done|done| |done|done]; intros x Hx'; rewrite Hx; case_decide; [lia|done]).
  all: intros v'' a'' Hout Hle Hv'' Hp _; by apply HR.
Qed.

Lemma as_copy_spec old v (Q : addrspace -> vm -> Prop) (R : Z -> vm -> Prop) :
  vm_ok v -> as_ok old ->
  (forall v' m, vm_ok v' -> firstpaddr (vm_ram v') = firstpaddr (vm_ram v) + total old ->
     (forall x, x < firstpaddr (vm_ram v) -> m x = phys v x) ->
     let new := laid_out old (firstpaddr (vm_ram v)) in
     phys v' = move_range (as_stackpbase new) (as_stackpbase old) (DUMBVM_STACKPAGES * PAGE_SIZE)
       (move_range (as_pbase2 new) (as_pbase2 old) (as_npages2 old * PAGE_SIZE)
         (move_range (as_pbase1 new) (as_pbase1 old) (as_npages1 old * PAGE_SIZE) m)) -> tlb v' = tlb v -> vm_ipl v' = vm_ipl v -> Q new v') ->
  (forall v', lastpaddr (vm_ram v) < firstpaddr (vm_ram v) + total old -> firstpaddr (vm_ram v) <= firstpaddr (vm_ram v') -> vm_ok v' -> phys v' = phys v -> R ENOMEM v') ->
  runs (as_copy true old v) Q R.
Proof.
  intros Hv Ha HQ HR. pose proof Ha as Hreg. unfold as_ok, regions in Hreg.
  apply Forall_cons in Hreg as [(_ & _ & N1 & _ & P1 & _ & R1) [(_ & _ & N2 & _ & P2 & _ & R2) _]%Forall_cons].
  unfold RAM_MAX, PAGE_SIZE in R1, R2. pose proof Hv as [_ (Hf & _)].
  unfold as_copy. simpl. runs_steps. apply prepare_new_spec; simpl; try done; try lia.
  intros v1 Hv1 Hf1 Hx Et Ei. unfold memmove. repeat (runs_steps; apply runs_KASSERT; [apply negb_true_iff, Z.eqb_neq; unfold laid_out, PAGE_SIZE; simpl; lia|]).
  runs_steps. unfold PAGE_SIZE. rewrite !u32_small by (unfold is_u32; lia). by eapply (HQ _ (phys v1)).
Qed.

Lemma laid_out_ok old p lim : as_ok old -> 0 < p -> p mod PAGE_SIZE = 0 -> p + total old <= lim -> lim <= RAM_MAX -> as_ok (laid_out old p).
Proof.
  unfold as_ok, regions, laid_out, total, RAM_MAX, PAGE_SIZE. simpl. intros Ha Hp Hm Hlim Hram.
  apply Forall_cons in Ha as [(A1 & B1 & N1 & V1 & P1 & T1 & R1) [(A2 & B2 & N2 & V2 & P2 & T2 & R2) [(A3 & B3 & N3 & V3 & P3 & T3 & R3) _]%Forall_cons]%Forall_cons].
  unfold DUMBVM_STACKPAGES, PAGE_SIZE in *. repeat constructor; unfold PAGE_SIZE, RAM_MAX in *; try done; try lia; dlia.
Qed.

(** A child's byte and its parent's are found in the same region. *)
Lemma copied_byte old lim p m x va :
  as_ok old -> frames_below old lim -> lim <= p ->
  let new := laid_out old p in
  let m' := move_range (as_stackpbase new) (as_stackpbase old) (DUMBVM_STACKPAGES * PAGE_SIZE)
       (move_range (as_pbase2 new) (as_pbase2 old) (as_npages2 old * PAGE_SIZE)
         (move_range (as_pbase1 new) (as_pbase1 old) (as_npages1 old * PAGE_SIZE) m)) in
  (forall pa, as_pa new va = Some pa -> p <= pa < p + total old) /\
  m' <$> as_pa new va = m <$> as_pa old va /\ (x < p -> m' x = m x).
Proof.
  intros Ha Hbelow Hlim new m'. unfold as_ok, regions in Ha.
  apply Forall_cons in Ha as [(A1 & B1 & N1 & V1 & P1 & T1 & R1) [(A2 & B2 & N2 & V2 & P2 & T2 & R2) [(A3 & B3 & N3 & V3 & P3 & T3 & R3) _]%Forall_cons]%Forall_cons].
  unfold frames_below, regions in Hbelow. apply Forall_cons in Hbelow as [L1 [L2 [L3 _]%Forall_cons]%Forall_cons].
  unfold as_pa, regions, m', new, total. unfold DUMBVM_STACKPAGES, PAGE_SIZE in *. cbn [laid_out as_vbase1 as_pbase1 as_npages1 as_vbase2 as_pbase2 as_npages2 as_stackpbase find_pa].
  set (s1 := as_npages1 old * _) in *. set (s2 := as_npages2 old * _) in *.
  assert (0 < s1 /\ 0 < s2) as [S1 S2] by lia. replace ((as_npages1 old + as_npages2 old + 12) * 4096) with (s1 + s2 + 12 * 4096) by lia.
  clearbody s1 s2. set (sb := USERSTACK - 12 * 4096) in *. clearbody sb. change (12 * PAGE_SIZE) with (12 * 4096).
  destruct (_ && (va <? as_vbase1 old + s1)) eqn:C1; [apply range_true in C1|
    destruct (_ && (va <? as_vbase2 old + s2)) eqn:C2; [apply range_true in C2|
      destruct (_ && (va <? sb + 12 * 4096)) eqn:C3; [apply range_true in C3|]]].
  all: simpl; split_and!; [intros pa E; try done; injection E as <-; lia| |intros Hx; by rewrite !move_range_out by lia]; try done; f_equal.
  - rewrite !move_range_out by lia. rewrite move_range_in by lia. f_equal. lia.
  - rewrite move_range_out by lia. rewrite move_range_in by lia. rewrite !move_range_out by lia. f_equal. lia.
  - rewrite move_range_in by lia. rewrite !move_range_out by lia. f_equal. lia.
Qed.

Lemma below_pa a lim va pa : as_ok a -> frames_below a lim -> as_pa a va = Some pa -> pa < lim.
Proof.
  unfold as_ok, frames_below, as_pa. intros Ha Hb. induction Hb as [|[[vb pb] n] l Hlim Hb IH]; [done|]. simpl.
  apply Forall_cons in Ha as [_ Ha]. destruct (_ && _) eqn:E; [|by apply IH]. apply range_true in E. intros [= <-]. lia.
Qed.

Lemma laid_out_below old p : as_ok old -> frames_below (laid_out old p) (p + total old).
Proof.
  intros Ha. unfold as_ok, regions in Ha. apply Forall_cons in Ha as [(_ & _ & N1 & _) [(_ & _ & N2 & _) _]%Forall_cons].
  unfold frames_below, regions, laid_out, total, DUMBVM_STACKPAGES, PAGE_SIZE. simpl. repeat constructor; lia.
Qed.

Lemma as_copy_result (old : addrspace) (v : vm) : vm_ok v -> as_ok old -> frames_below old (firstpaddr (vm_ram v)) ->
  runs (as_copy true old v)
    (fun new v' => (vm_ok v' /\ as_ok new /\
       (forall va, user_byte v' new va = user_byte v old va /\ user_byte v' old va = user_byte v old va) /\
       (forall x, x < firstpaddr (vm_ram v) -> phys v' x = phys v x) /\
       (forall va pa, as_pa new va = Some pa -> firstpaddr (vm_ram v) <= pa < firstpaddr (vm_ram v'))) /\
       frames_below new (firstpaddr (vm_ram v')) /\ new = laid_out old (firstpaddr (vm_ram v)) /\ firstpaddr (vm_ram v') = firstpaddr (vm_ram v) + total old /\
       tlb v' = tlb v /\ vm_ipl v' = vm_ipl v)
    (fun e v' => e = ENOMEM /\ lastpaddr (vm_ram v) < firstpaddr (vm_ram v) + total old /\ firstpaddr (vm_ram v) <= firstpaddr (vm_ram v') /\ vm_ok v' /\ phys v' = phys v).
Proof.
  intros Hv Ha Hbelow. apply as_copy_spec; [done|done| |done]. intros v' m Hv' Hf Hm new Hphys Et Ei. destruct Hv as [_ (Hf1 & Hl & Hal)]. pose proof Hv' as [_ (Hf2 & Hl2 & _)].
  assert (forall va, m <$> as_pa old va = phys v <$> as_pa old va) as Hold.
  { intros va. destruct (as_pa old va) as [pa|] eqn:E; [|done]. simpl. f_equal. apply Hm. by eapply below_pa. }
  assert (forall x, x < firstpaddr (vm_ram v) -> phys v' x = phys v x) as Hkeep.
  { intros x Hx. rewrite Hphys. destruct (copied_byte old _ (firstpaddr (vm_ram v)) m x 0 Ha Hbelow ltac:(lia)) as (_ & _ & E). fold new in E. rewrite E by done. by apply Hm. }
  split; [|split_and!; [rewrite Hf; by apply laid_out_below|done|done|done|done]]. split_and!; [done|by eapply laid_out_ok; [|lia| |rewrite <- Hf|]; try done; lia| |done|].
  - intros va. unfold user_byte. split.
    + rewrite Hphys, <- Hold. by destruct (copied_byte old _ (firstpaddr (vm_ram v)) m 0 va Ha Hbelow ltac:(lia)) as (_ & E & _).
    + destruct (as_pa old va) as [pa|] eqn:E; [|done]. simpl. f_equal. apply Hkeep. by eapply below_pa.
  - intros va pa E. rewrite Hf. by destruct (copied_byte old _ (firstpaddr (vm_ram v)) m 0 va Ha Hbelow ltac:(lia)) as (Hr & _ & _); apply Hr.
Qed.

(** C30. [as_copy] gives the child an address space that reads the same at every
    address, in frames that were never handed out before; the parent's memory,
    and all other memory in use, is unchanged.  The only error is ENOMEM,
    for want of free memory, and it leaves memory as it was. *)
Theorem as_copy_exact (old : addrspace) (v : vm)
    (Hv : vm_ok v) (Ha : as_ok old) (Hbelow : frames_below old (firstpaddr (vm_ram v))) :
  runs (as_copy true old v)
    (fun new v' => vm_ok v' /\ as_ok new /\
       (forall va, user_byte v' new va = user_byte v old va /\ user_byte v' old va = user_byte v old va) /\
       (forall x, x < firstpaddr (vm_ram v) -> phys v' x = phys v x) /\
       (forall va pa, as_pa new va = Some pa -> firstpaddr (vm_ram v) <= pa < firstpaddr (vm_ram v')))
    (fun e v' => e = ENOMEM /\ lastpaddr (vm_ram v) < firstpaddr (vm_ram v) + total old /\ vm_ok v' /\ phys v' = phys v).
Proof. eapply runs_mono; [by apply as_copy_result| |by intros e v' (? & ? & _ & ? & ?)]. by intros new v' [H _]. Qed.

(** ** Regions *)

Lemma define_region_pages vaddr sz : is_u32 vaddr -> 0 <= sz -> vaddr mod PAGE_SIZE + sz <= 2 ^ 31 ->
  let n := Z.land (u32 (u32 (u32 (sz + Z.land vaddr NOT_PAGE_FRAME) + PAGE_SIZE) - 1)) PAGE_FRAME / PAGE_SIZE in
  0 <= n <= 2 ^ 19 /\ page_of vaddr + n * PAGE_SIZE = page_of (vaddr + sz + (PAGE_SIZE - 1)).
Proof.
  intros Hva Hsz Hle n. assert (is_u32 (u32 (u32 (u32 (sz + vaddr mod PAGE_SIZE) + PAGE_SIZE) - 1))) as Hu by (apply Z.mod_pos_bound; done).
  unfold n. rewrite land_not_frame, land_frame by done. unfold is_u32, page_of, PAGE_SIZE in *.
  assert (0 <= vaddr mod 4096 < 4096) by dlia.
  rewrite (u32_small (sz + _)) by (unfold is_u32; lia). rewrite (u32_small (_ + 4096)) by (unfold is_u32; lia).
  rewrite (u32_small (_ - 1)) by (unfold is_u32; lia). split; dlia.
Qed.

(** A defect: a program with a single region loads without an error, and its
    first page fault, at any address, panics the kernel. *)
Theorem one_region_panics (vaddr sz : Z) (v : vm)
    (Hv : vm_ok v) (Hva : is_u32 vaddr) (Hsz : 0 <= sz) (Hle : vaddr mod PAGE_SIZE + sz <= 2 ^ 31) :
  returns (as_define_region vaddr sz (mkAs 0 0 0 0 0 0 0))
    (fun _ a => runs (as_prepare_load (v, a))
       (fun _ s => forall va, vm_fault (Some (Some (snd s))) VM_FAULT_READ va (fst s) = Crash Panicked)
       (fun e _ => e = ENOMEM)).
Proof.
  destruct (define_region_pages vaddr sz Hva Hsz Hle) as [Hn _].
  unfold as_define_region. simpl. apply prepare_load_spec; simpl; try done.
  intros v' _ _ _ _ _ _ va. unfold vm_fault, bind, KASSERT, panic, crashed. simpl.
  by repeat (case_match; try done).
Qed.

(** ** Examples *)

(** C40. A defect: the end of a request for frames is computed in 32 bits.  A program
    with a segment of nearly 4 GB is given frames that do not exist, and the
    next frames handed out are in use. *)
Theorem huge_segment_wraps (v : vm) (n : Z) (Hv : vm_ok v) (Hn : n < 2 ^ 20 - 1) (Hbig : 2 ^ 32 <= firstpaddr (vm_ram v) + n * PAGE_SIZE) :
  as_define_region PAGE_SIZE (n * PAGE_SIZE) (mkAs 0 0 0 0 0 0 0) = Ret tt (mkAs PAGE_SIZE 0 n 0 0 0 0) /\
  returns (getppages n v) (fun p v' => p = firstpaddr (vm_ram v) /\ lastpaddr (vm_ram v) < p + n * PAGE_SIZE /\
    firstpaddr (vm_ram v') < firstpaddr (vm_ram v) /\ lastpaddr (vm_ram v') = lastpaddr (vm_ram v)).
Proof.
  destruct Hv as [Hlk (Hf & Hl & Ha)]. unfold RAM_MAX, PAGE_SIZE in *. split.
  - unfold as_define_region, bind, get, modify, PAGE_SIZE. cbn [as_vbase1 as_vbase2 as_pbase1 as_pbase2 as_npages2 as_stackpbase Z.eqb].
    replace (Z.land 4096 NOT_PAGE_FRAME) with 0 by done. replace (Z.land 4096 PAGE_FRAME) with 4096 by done. rewrite Z.add_0_r.
    rewrite (u32_small (n * 4096)), (u32_small (n * 4096 + 4096)), (u32_small (_ - 1)) by (unfold is_u32; lia).
    rewrite land_frame by (unfold is_u32; lia). unfold PAGE_SIZE. do 2 f_equal. dlia.
  - unfold getppages, ram_stealmem, PAGE_SIZE. runs_steps. apply runs_KASSERT; [by rewrite Hlk|]. runs_steps. simpl.
    rewrite (u32_small n), (u32_small (n * 4096)) by (unfold is_u32; lia).
    assert (u32 (firstpaddr (vm_ram v) + n * 4096) = firstpaddr (vm_ram v) + n * 4096 - 2 ^ 32) as Ew.
    { unfold u32. symmetry. apply (Z.mod_unique_pos _ _ 1); lia. }
    rewrite Ew. destruct (Z.ltb_spec (lastpaddr (vm_ram v)) (firstpaddr (vm_ram v) + n * 4096 - 2 ^ 32)); [lia|].
    runs_steps. simpl. rewrite Ew. split_and!; lia.
Qed.

Definition vm0 : vm := mkVm (mkRam 0x100000 0x200000) false (fun x => x mod 256) [] (Spl.mkIpl 0 0 true).
Definition as0 : addrspace := mkAs 0x400000 0x40000 2 0x10000000 0x50000 1 0x60000.
Definition vm1 : vm := after (as_activate (Some (Some as0))) (put_tlb (zrep NUM_TLB (0, 0)) vm0).

Lemma vm0_ok : vm_ok vm0.
Proof. by repeat split. Qed.
Lemma as0_ok : as_ok as0 /\ frames_below as0 0x100000.
Proof. split; repeat constructor; done. Qed.
Lemma tlb1_sound : tlb_sound as0 (tlb vm1).
Proof.
  split; [done|]. intros e He Hv. exfalso. apply Hv. clear Hv. revert e He. apply Forall_forall. vm_compute. repeat constructor.
Qed.

Lemma vm_fault_exact_witness :
  runs (vm_fault (Some (Some as0)) VM_FAULT_WRITE 0x10000123 vm1)
    (fun _ v' => is_Some (as_pa as0 0x10000123) /\ v' = put_tlb (tlb v') vm1 /\ tlb_sound as0 (tlb v') /\
       (forall va', user_ref (tlb v') va' = if page_of va' =? page_of 0x10000123 then as_pa as0 va' else user_ref (tlb vm1) va') /\
       (forall va' pa', 0 <= va' -> user_ref (tlb v') va' = Some pa' -> as_pa as0 va' = Some pa'))
    (fun e v' => e = EFAULT /\ v' = vm1 /\ (as_pa as0 0x10000123 = None \/ forall e, e ∈ tlb vm1 -> valid e)).
Proof.
  refine (vm_fault_exact as0 vm1 VM_FAULT_WRITE 0x10000123 0 (proj1 as0_ok) tlb1_sound _ _ (or_intror eq_refl) _).
  - split; [done|]. split; [by left|]. by split.
  - by vm_compute.
  - by vm_compute.
Defined.

Lemma as_copy_exact_witness :
  runs (as_copy true as0 vm0)
    (fun new v' => vm_ok v' /\ as_ok new /\
       (forall va, user_byte v' new va = user_byte vm0 as0 va /\ user_byte v' as0 va = user_byte vm0 as0 va) /\
       (forall x, x < firstpaddr (vm_ram vm0) -> phys v' x = phys vm0 x) /\
       (forall va pa, as_pa new va = Some pa -> firstpaddr (vm_ram vm0) <= pa < firstpaddr (vm_ram v')))
    (fun e v' => e = ENOMEM /\ lastpaddr (vm_ram vm0) < firstpaddr (vm_ram vm0) + total as0 /\ vm_ok v' /\ phys v' = phys vm0).
Proof. exact (as_copy_exact as0 vm0 vm0_ok (proj1 as0_ok) (proj2 as0_ok)). Defined.

Lemma one_region_panics_witness :
  returns (as_define_region 0x400000 100 (mkAs 0 0 0 0 0 0 0))
    (fun _ a => runs (as_prepare_load (vm0, a))
       (fun _ s => forall va, vm_fault (Some (Some (snd s))) VM_FAULT_READ va (fst s) = Crash Panicked)
       (fun e _ => e = ENOMEM)).
Proof. refine (one_region_panics 0x400000 100 vm0 vm0_ok _ _ _); by vm_compute. Defined.

Lemma huge_segment_wraps_witness :
  as_define_region PAGE_SIZE (1048500 * PAGE_SIZE) (mkAs 0 0 0 0 0 0 0) = Ret tt (mkAs PAGE_SIZE 0 1048500 0 0 0 0) /\
  returns (getppages 1048500 vm0) (fun p v' => p = firstpaddr (vm_ram vm0) /\ lastpaddr (vm_ram vm0) < p + 1048500 * PAGE_SIZE /\
    firstpaddr (vm_ram v') < firstpaddr (vm_ram vm0) /\ lastpaddr (vm_ram v') = lastpaddr (vm_ram vm0)).
Proof. exact (huge_segment_wraps vm0 1048500 vm0_ok ltac:(done) ltac:(by vm_compute)). Defined.
End DumbvmThm.
