(* ===== verification/KmallocThm.v ===== *)
(** * The kernel heap's contract

    [kmalloc] gives a block that is new, aligned, large enough and apart from
    all others, [kfree] takes it back, and neither touches what is stored in
    the other blocks.  [step] interleaves the critical sections of any number
    of threads, with clients writing into their blocks between them. *)

From S2P Require Import Prelude Spl Kmalloc KmallocInv KmallocRep Dumbvm.
Import Kmalloc KmallocInv KmallocRep.

Module KmallocThm.

Section Contract.
Context {P : Type} `{!KPages P}.
Abbreviation heap := (@heap P).
Implicit Types (h : heap) (L : gmap Z Z) (T : list (Z * Z)).

(** ** The parts of a call *)

(** Where a thread is in [kmalloc] or [kfree]: before [alloc_kpages(1)], before
    the second critical section, before a [free_kpages]. *)
Inductive tstate := TIdle | TNeed (sz blktype : Z) | TGrow (sz prpage blktype : Z) | TFree (addr : Z).

#[export] Instance tstate_eq : EqDecision tstate.
Proof. solve_decision. Defined.

(** The pages a thread holds. *)
Definition owns (k : tstate) (l : list (Z * Z)) : Prop :=
  match k with
  | TIdle => l = []
  | TNeed sz t => l = [] /\ 0 <= t < NSIZES /\ sz <= 2 ^ (4 + t)
  | TGrow sz p t => l = [(p, 1)] /\ 0 <= t < NSIZES /\ sz <= 2 ^ (4 + t)
  | TFree p => exists n, l = [(p, n)]
  end.

Definition npages (sz : Z) : Z := u32 (u32 (sz + PAGE_SIZE) - 1) / PAGE_SIZE.

(** [kmalloc] up to its first release, and from one of the points above to the
    next: the next state, the pointer returned (0 when there is none) and the
    size of its block. *)
Definition kmalloc_start (sz : Z) : M heap (tstate * Z * Z) :=
  if LARGEST_SUBPAGE_SIZE <=? sz then
    let* p := alloc_kpages (npages sz) in ret (TIdle, p, npages sz * PAGE_SIZE)
  else
    let* t := blocktype sz in
    let* p := subpage_try t in
    ret (match p with Some p => (TIdle, p, 2 ^ (4 + t)) | None => (TNeed sz t, 0, 0) end).

Definition resume (k : tstate) : M heap (tstate * Z * Z) :=
  match k with
  | TIdle => ret (TIdle, 0, 0)
  | TNeed sz t =>
      let* p := alloc_kpages 1 in
      ret (if p =? 0 then TIdle else TGrow sz p t, 0, 0)
  | TGrow sz p t =>
      let* x := subpage_grow p t in
      ret (match x with Some x => (TIdle, x, 2 ^ (4 + t)) | None => (TFree p, 0, 0) end)
  | TFree p => free_kpages p ;; ret (TIdle, 0, 0)
  end.

Definition kfree_start (x : Z) : M heap tstate :=
  if x =? 0 then ret TIdle
  else
    let* r := subpage_release x in
    match r with
    | NotOurs => KASSERT (x mod PAGE_SIZE =? 0) ;; ret (TFree x)
    | Freed => ret TIdle
    | FreedPage p => ret (TFree p)
    end.

(** The parts put together, by one thread alone. *)
Fixpoint drive (fuel : nat) (r : tstate * Z * Z) : M heap Z :=
  let '(k, p, _) := r in
  match k, fuel with
  | TIdle, _ => ret p
  | _, O => crashed Hung
  | _, S fuel' => let* r := resume k in drive fuel' r
  end.
Definition kmalloc_parts (sz : Z) : M heap Z := let* r := kmalloc_start sz in drive 3 r.
Definition kfree_parts (x : Z) : M heap unit := let* k := kfree_start x in (let* _ := drive 1 (k, 0, 0) in ret tt).

(** ** Any number of threads *)

Record world := mkWorld { w_heap : heap; w_live : gmap Z Z; w_threads : list tstate }.

Definition give (p s : Z) L : gmap Z Z := if p =? 0 then L else <[p := s]> L.

(** A step, and the address of the word a client writes in it. *)
Inductive step : world -> option Z -> world -> Prop :=
  | step_kmalloc h L ts i sz k p s h' :
      ts !! i = Some TIdle -> 0 <= sz <= 2 ^ 31 -> kmalloc_start sz h = Ret (k, p, s) h' ->
      step (mkWorld h L ts) None (mkWorld h' (give p s L) (<[i := k]> ts))
  | step_kfree h L ts i x s k h' :
      ts !! i = Some TIdle -> L !! x = Some s -> kfree_start x h = Ret k h' ->
      step (mkWorld h L ts) None (mkWorld h' (delete x L) (<[i := k]> ts))
  | step_resume h L ts i k k' p s h' :
      ts !! i = Some k -> resume k h = Ret (k', p, s) h' ->
      step (mkWorld h L ts) None (mkWorld h' (give p s L) (<[i := k']> ts))
  | step_write h L ts x s y v :
      L !! x = Some s -> x <= y < x + s -> step (mkWorld h L ts) (Some y) (mkWorld (poke y v h) L ts).

(** The heap at boot. *)
Definition boot (m : Z -> Z) (p : P) : heap :=
  mkHeap (zrep NPAGEREFS (mkPr None None 0 0 0)) (zrep INUSE_WORDS 0) (zrep NSIZES None) None false m p.

Definition reachable (m : Z -> Z) (p : P) (n : nat) : world -> Prop :=
  rtc (fun w w' => exists o, step w o w') (mkWorld (boot m p) ∅ (replicate n TIdle)).

Definition world_ok (w : world) : Prop :=
  exists ls, Forall2 owns (w_threads w) ls /\ Rep (w_heap w) (w_live w) (concat ls).

(** ** The parts *)

Lemma blocktype_spec sz h (Q : Z -> heap -> Prop) R :
  0 <= sz < LARGEST_SUBPAGE_SIZE -> (forall t, 0 <= t < NSIZES -> sz <= 2 ^ (4 + t) -> Q t h) -> runs (blocktype sz h) Q R.
Proof.
  unfold LARGEST_SUBPAGE_SIZE, NSIZES. intros Hsz HQ. unfold blocktype. simpl.
  repeat case_match; simplify_eq; try lia; (runs_steps; apply HQ; simpl; lia).
Qed.

Lemma npages_spec sz : LARGEST_SUBPAGE_SIZE <= sz <= 2 ^ 31 -> 0 < npages sz <= 2 ^ 19 /\ sz <= npages sz * PAGE_SIZE.
Proof. unfold npages, LARGEST_SUBPAGE_SIZE, PAGE_SIZE, u32. intros Hsz. dlia. Qed.

(** The parts still to come. *)
Definition rank (k : tstate) : nat := match k with TIdle => 0 | TFree _ => 1 | TGrow _ _ _ => 2 | TNeed _ _ => 3 end.
(** The request a thread is busy with. *)
Definition request (k : tstate) (sz : Z) : Prop := match k with TNeed sz' _ | TGrow sz' _ _ => sz' = sz | _ => True end.

(** What a part gives its thread, with at most [b] parts to come. *)
Definition given (b : nat) L h T (sz : Z) (r : tstate * Z * Z) h' : Prop :=
  let '(k, p, s) := r in
  exists l, owns k l /\ kept L h h' /\ Rep h' (give p s L) (l ++ T) /\ (p <> 0 -> L !! p = None /\ sz <= s /\ k = TIdle) /\
    (rank k <= b)%nat /\ request k sz.

Lemma kmalloc_start_spec sz h L T :
  Rep h L T -> 0 <= sz <= 2 ^ 31 -> returns (kmalloc_start sz h) (given 3 L h T sz).
Proof.
  intros Hrep Hsz. unfold kmalloc_start. destruct (LARGEST_SUBPAGE_SIZE <=? sz) eqn:E; [apply Z.leb_le in E|apply Z.leb_gt in E]; runs_steps.
  - destruct (npages_spec sz) as [Hn Hs]; [lia|]. eapply pages_spec; [done|done| |].
    + intros h' Hr Hk. runs_steps. exists []. split_and!; simpl; try done; lia.
    + intros p h' Hp HpL Hr _ Hk. runs_steps. exists []. unfold give. rewrite (proj2 (Z.eqb_neq p 0)) by done. split_and!; simpl; try done; lia.
  - apply blocktype_spec; [lia|]. intros t Ht Hs. runs_steps. eapply try_spec; [done|done| |].
    + intros x h' HxL Hx Hr Hk. runs_steps. exists []. unfold give. rewrite (proj2 (Z.eqb_neq x 0)) by done. split_and!; simpl; try done; lia.
    + intros h' Hr Hk. runs_steps. exists []. split_and!; simpl; try done; lia.
Qed.

Lemma resume_spec k l sz h L T : owns k l -> request k sz -> Rep h L (l ++ T) ->
  returns (resume k h) (given (pred (rank k)) L h T sz).
Proof.
  intros Hk Hreq Hrep. destruct k as [|sz' t|sz' p t|p]; simpl in Hk, Hreq; cbn [resume rank pred]; try subst sz'.
  - subst l. runs_steps. exists []. split_and!; simpl; try done; lia.
  - destruct Hk as (-> & Ht & Hs). runs_steps. eapply pages_spec; [done|done| |].
    + intros h' Hr Hk. runs_steps. exists []. split_and!; simpl; try done; lia.
    + intros p h' Hp HpL _ Hr Hk. runs_steps. rewrite (proj2 (Z.eqb_neq p 0)) by done. exists [(p, 1)]. split_and!; simpl; try done; lia.
  - destruct Hk as (-> & Ht & Hs). runs_steps. eapply grow_spec; [exact Hrep|done| |].
    + intros x h' HxL Hx Hr Hk. runs_steps. exists []. unfold give. rewrite (proj2 (Z.eqb_neq x 0)) by done. split_and!; simpl; try done; lia.
    + intros h' Hr Hk. runs_steps. exists [(p, 1)]. split_and!; simpl; try done; by exists 1.
  - destruct Hk as [n ->]. runs_steps. eapply free_spec; [exact Hrep|]. intros h' Hr Hk. runs_steps. exists []. split_and!; simpl; try done; lia.
Qed.

Lemma kfree_start_spec x s h L T : Rep h L T -> L !! x = Some s ->
  returns (kfree_start x h) (fun k h' => exists l, owns k l /\ kept (delete x L) h h' /\ Rep h' (delete x L) (l ++ T) /\ (rank k <= 1)%nat).
Proof.
  intros Hrep Hx. destruct (rep_range _ _ _ _ _ Hrep Hx) as (_ & _ & Hlo & _). unfold MIPS_KSEG0 in Hlo.
  unfold kfree_start. rewrite (proj2 (Z.eqb_neq x 0)) by lia. runs_steps. eapply rep_release_spec; [done|done| | |].
  - intros h' Hr Hk. runs_steps. exists []. split_and!; simpl; try done; lia.
  - intros p h' Hr Hk. runs_steps. exists [(p, 1)]. split_and!; simpl; try done; by exists 1.
  - intros n h' Hal Hr Hk. runs_steps. apply runs_KASSERT; [by apply Z.eqb_eq|]. runs_steps. exists [(x, n)]. split_and!; simpl; try done; by exists n.
Qed.

(** ** The whole calls *)

Lemma drive_idle fuel p s h : drive fuel (TIdle, p, s) h = Ret p h.
Proof. by destruct fuel. Qed.

(** [kmalloc] and [kfree] are their parts in sequence. *)
Lemma kmalloc_parts_eq sz h : kmalloc_parts sz h = kmalloc sz h.
Proof.
  unfold kmalloc_parts, kmalloc, kmalloc_start, subpage_kmalloc, npages, bind, ret. destruct (LARGEST_SUBPAGE_SIZE <=? sz).
  { by destruct (alloc_kpages _ h). }
  destruct (blocktype sz h) as [t h1| |]; [|done|done]. destruct (subpage_try t h1) as [[x|] h2| |]; [done| |done|done].
  cbn [drive resume]. unfold bind, ret. destruct (alloc_kpages 1 h2) as [p h3| |]; [|done|done]. destruct (p =? 0); [done|].
  cbn [drive resume]. unfold bind, ret. destruct (subpage_grow p t h3) as [[x|] h4| |]; [done| |done|done].
  cbn [drive resume]. unfold bind, ret. by destruct (free_kpages p h4).
Qed.

Lemma kfree_parts_eq x h : kfree_parts x h = kfree x h.
Proof.
  unfold kfree_parts, kfree, kfree_start, subpage_kfree, bind, ret. destruct (x =? 0); [done|].
  destruct (subpage_release x h) as [[| |p] h1| |]; try done.
  by destruct (KASSERT _ h1) as [[] h2| |].
Qed.

Lemma drive_spec n k p s sz h0 h L T :
  given n L h0 T sz (k, p, s) h ->
  returns (drive n (k, p, s) h) (fun p h' => exists s, kept L h0 h' /\ Rep h' (give p s L) T /\ (p <> 0 -> L !! p = None /\ sz <= s)).
Proof.
  revert k p s h. induction n as [|n IH]; intros k p s h (l & Hk & Hkept & Hrep & Hp & Hn & Hreq).
  - destruct k; simpl in Hn; try lia. simpl in Hk. subst l. simpl. exists s. split_and!; [done|done|]. intros Hp0. by destruct (Hp Hp0) as (? & ? & _).
  - destruct (decide (k = TIdle)) as [->|Hne].
    { simpl in Hk. subst l. simpl. exists s. split_and!; [done|done|]. intros Hp0. by destruct (Hp Hp0) as (? & ? & _). }
    assert (p = 0) as -> by (destruct (decide (p = 0)) as [|Hp0]; [done|by destruct (Hp Hp0) as (_ & _ & ?)]).
    assert (drive (S n) (k, 0, s) = bind (resume k) (drive n)) as -> by (by destruct k).
    apply runs_bind. eapply runs_mono; [by eapply resume_spec| |done]. intros [[k' p'] s'] h' Hg. apply IH.
    destruct Hg as (l' & H1 & H2 & H3 & H4 & H5 & H6). exists l'. split_and!; try done; [by eapply kept_trans|lia].
Qed.

(** ** Threads *)

Lemma concat_delete (ls : list (list (Z * Z))) i l : ls !! i = Some l -> concat ls ≡ₚ l ++ concat (delete i ls).
Proof.
  revert i. induction ls as [|l' ls IH]; intros [|i] Hi; simplify_eq/=; [done|].
  rewrite (IH i Hi). by rewrite !app_assoc, (Permutation_app_comm l' l).
Qed.

Lemma concat_insert (ls : list (list (Z * Z))) i l l' : ls !! i = Some l -> concat (<[i := l']> ls) ≡ₚ l' ++ concat (delete i ls).
Proof.
  intros Hi. rewrite (concat_delete _ i l'); [|by apply list_lookup_insert_eq; eapply lookup_lt_Some]. by rewrite delete_insert_same.
Qed.

(** A thread in a world, and what it holds. *)
Lemma world_thread w i k : world_ok w -> w_threads w !! i = Some k ->
  exists l T, owns k l /\ Rep (w_heap w) (w_live w) (l ++ T) /\
    forall h' L' k' l', owns k' l' -> Rep h' L' (l' ++ T) -> world_ok (mkWorld h' L' (<[i := k']> (w_threads w))).
Proof.
  intros (ls & Hls & Hrep) Hi. destruct (Forall2_lookup_l _ _ _ _ _ Hls Hi) as (l & Hl & Hk).
  exists l, (concat (delete i ls)). split_and!; [done|by rewrite <- (concat_delete _ _ _ Hl)|].
  intros h' L' k' l' Hk' Hrep'. exists (<[i := l']> ls). split; [by apply Forall2_insert|]. simpl. by rewrite (concat_insert _ _ _ _ Hl).
Qed.

Lemma heap_step_ok w o w' : world_ok w -> step w o w' -> world_ok w' /\
  forall x s y, w_live w !! x = Some s -> is_Some (w_live w' !! x) -> x <= y < x + s -> o <> Some y -> mem (w_heap w') y = mem (w_heap w) y.
Proof.
  intros Hw Hstep. destruct Hstep as [h L ts i sz k p s h' Hi Hsz Hrun|h L ts i x s k h' Hi Hx Hrun|h L ts i k k' p s h' Hi Hrun|h L ts x s y v Hx Hy].
  - destruct (world_thread _ _ _ Hw Hi) as (l & T & Hl & Hrep & Hnew). simpl in *. subst l.
    pose proof (kmalloc_start_spec sz h L T Hrep Hsz) as Hs. rewrite Hrun in Hs. destruct Hs as (l' & Hl' & Hk & Hrep' & _).
    split; [by eapply Hnew|]. intros x t y Hx _ Hy _. by apply (Hk x t y).
  - destruct (world_thread _ _ _ Hw Hi) as (l & T & Hl & Hrep & Hnew). simpl in *. subst l.
    pose proof (kfree_start_spec x s h L T Hrep Hx) as Hs. rewrite Hrun in Hs. destruct Hs as (l' & Hl' & Hk & Hrep' & _).
    split; [by eapply Hnew|]. intros z t y Hz [t' Hz'] Hy _. apply lookup_delete_Some in Hz' as [Hne _]. apply (Hk z t y); [by rewrite lookup_delete_ne|done].
  - destruct (world_thread _ _ _ Hw Hi) as (l & T & Hl & Hrep & Hnew). simpl in *.
    assert (exists sz, request k sz) as [sz Hreq] by (destruct k; simpl; eauto; by exists 0).
    pose proof (resume_spec k l sz h L T Hl Hreq Hrep) as Hs. rewrite Hrun in Hs. destruct Hs as (l' & Hl' & Hk & Hrep' & _).
    split; [by eapply Hnew|]. intros x t y Hx _ Hy _. by apply (Hk x t y).
  - destruct Hw as (ls & Hls & Hrep). split.
    + exists ls. split; [done|]. by eapply poke_spec.
    + intros z t y' Hz _ Hy' Hne. simpl. rewrite (proj2 (Z.eqb_neq y' y)); [done|congruence].
Qed.

Lemma boot_heap_ok m (p : P) : kp_ok p -> heap_ok (boot m p) false [].
Proof.
  intros Hp. split; simpl; try done.
  - split; [done|]. apply Forall_zrep. done.
  - intros j Hj. split; [|by intros ?%elem_of_nil]. unfold inuse. rewrite zlookup_zrep by (unfold INUSE_WORDS, NPAGEREFS in *; dlia).
    by rewrite Z.bits_0.
  - intros t Ht. by apply zlookup_zrep.
  - split; constructor.
Qed.

Lemma boot_ok m (p : P) n : kp_ok p -> world_ok (mkWorld (boot m p) ∅ (replicate n TIdle)).
Proof.
  intros Hp. exists (replicate n []). split; [apply Forall2_replicate; done|]. simpl.
  replace (concat (replicate n [])) with (@nil (Z * Z)) by (induction n; [done|simpl; done]).
  exists []. split; [by apply boot_heap_ok|by intros x s ?%lookup_empty_Some|constructor|by intros q k ?%elem_of_nil].
Qed.

Lemma heap_reachable_ok m (p : P) n w : kp_ok p -> reachable m p n w -> world_ok w.
Proof. intros Hp Hr. eapply rtc_ind_r; [by apply boot_ok| |exact Hr]. intros w1 w2 _ [o Hstep] Hw. by destruct (heap_step_ok _ _ _ Hw Hstep). Qed.

Lemma returns_is_ret {X} (o : outcome heap X) Q : returns o Q -> is_ret o = true.
Proof. by destruct o. Qed.

Lemma live_facts w x s : world_ok w -> w_live w !! x = Some s -> 16 <= s /\ x mod 16 = 0 /\ MIPS_KSEG0 <= x /\ x + s <= MIPS_KSEG1.
Proof. intros (ls & _ & Hrep). by eapply rep_range. Qed.

(** No part of a call can panic or hang. *)
Lemma parts_run w : world_ok w ->
  (forall k, k ∈ w_threads w -> is_ret (resume k (w_heap w)) = true) /\
  (forall sz, 0 <= sz <= 2 ^ 31 -> is_ret (kmalloc_start sz (w_heap w)) = true) /\
  (forall x s, w_live w !! x = Some s -> is_ret (kfree_start x (w_heap w)) = true).
Proof.
  intros Hw. split_and!.
  - intros k (i & Hi)%list_elem_of_lookup. destruct (world_thread _ _ _ Hw Hi) as (l & T & Hl & Hrep & _).
    assert (exists sz, request k sz) as [sz Hreq] by (destruct k; simpl; eauto; by exists 0).
    eapply returns_is_ret. by eapply resume_spec.
  - intros sz Hsz. destruct Hw as (ls & _ & Hrep). eapply returns_is_ret. by eapply kmalloc_start_spec.
  - intros x s Hx. destruct Hw as (ls & _ & Hrep). eapply returns_is_ret. by eapply kfree_start_spec.
Qed.


(** [kfree] of a block in use returns, takes that block and no other, and changes
    nothing in the others. *)
Theorem kfree_contract (x s : Z) (h : heap) (L : gmap Z Z) (Hrep : Rep h L []) (Hx : L !! x = Some s) :
  returns (kfree x h) (fun _ h' => kept (delete x L) h h' /\ Rep h' (delete x L) []).
Proof.
  rewrite <- kfree_parts_eq. unfold kfree_parts. apply runs_bind. eapply runs_mono; [by eapply kfree_start_spec| |done].
  intros k h1 (l & Hl & Hk & Hrep1 & Hrank). apply runs_bind. destruct k as [| | |p]; simpl in Hrank; try lia.
  - simpl in Hl. subst l. cbn [drive]. by runs_steps.
  - destruct Hl as [n ->]. cbn [drive resume]. runs_steps. eapply free_spec; [exact Hrep1|]. intros h' Hr Hk'. runs_steps.
    split; [by eapply kept_trans|done].
Qed.

End Contract.

(** ** Over [Dumbvm] *)

#[local] Existing Instance Dumbvm.ram_pages.
Import Ram.

Abbreviation page_heap := (@heap (Dumbvm.vm * gmap Z Z)).

Lemma kmalloc_pages (n sz : Z) (h : page_heap) :
  LARGEST_SUBPAGE_SIZE <= sz -> npages sz = n -> 0 <= n <= 2 ^ 19 -> Dumbvm.vm_ok (fst (pages h)) ->
  let r := Dumbvm.vm_ram (fst (pages h)) in firstpaddr r + n * PAGE_SIZE <= lastpaddr r ->
  exists h', kmalloc sz h = Ret (MIPS_KSEG0 + firstpaddr r) h' /\ Dumbvm.vm_ok (fst (pages h')) /\
    Dumbvm.vm_ram (fst (pages h')) = mkRam (firstpaddr r + n * PAGE_SIZE) (lastpaddr r).
Proof.
  intros Hsz En Hn Hv r Hroom. pose proof Hv as [_ (Hf & Hl & _)]. fold r in Hf, Hl. unfold RAM_MAX in Hl.
  unfold kmalloc. rewrite (proj2 (Z.leb_le _ _) Hsz). fold (npages sz). rewrite En.
  assert (returns (Dumbvm.alloc_kpages n (fst (pages h))) (fun a v => a = MIPS_KSEG0 + firstpaddr r /\ Dumbvm.vm_ok v /\
    Dumbvm.vm_ram v = mkRam (firstpaddr r + n * PAGE_SIZE) (lastpaddr r))) as Hrun.
  { unfold Dumbvm.alloc_kpages. runs_steps. apply Dumbvm.getppages_spec; [done|done| |unfold r in *; lia].
    intros r' -> Hr' Hv'. fold r. rewrite (proj2 (Z.eqb_neq _ _)) by lia. runs_steps.
    unfold Dumbvm.PADDR_TO_KVADDR, MIPS_KSEG0. rewrite u32_small by (unfold is_u32; lia). split_and!; [lia|done|done]. }
  unfold alloc_kpages, bind, get, put_pages, modify, ret. simpl. unfold Dumbvm.log_alloc.
  destruct (Dumbvm.alloc_kpages n (fst (pages h))) as [a v|e v|]; [|done|done]. destruct Hrun as (-> & Hv' & Hr').
  eexists. split; [done|]. simpl. done.
Qed.

(** A defect: a request of more than 2^32 - 4096 bytes is rounded up to 0 pages,
    and succeeds; the next large request gets the same address. *)
Theorem kmalloc_overflow (sz : Z) (h : page_heap) (Hv : Dumbvm.vm_ok (fst (pages h)))
    (Hsz : 2 ^ 32 - PAGE_SIZE < sz < 2 ^ 32)
    (Hroom : firstpaddr (Dumbvm.vm_ram (fst (pages h))) + PAGE_SIZE <= lastpaddr (Dumbvm.vm_ram (fst (pages h)))) :
  exists p h1 h2, p <> 0 /\ kmalloc sz h = Ret p h1 /\ kmalloc PAGE_SIZE h1 = Ret p h2.
Proof.
  pose proof Hv as [_ (Hf & _)]. unfold PAGE_SIZE in *.
  destruct (kmalloc_pages 0 sz h) as (h1 & E1 & Hv1 & Er1); [unfold LARGEST_SUBPAGE_SIZE; lia| |lia|done|unfold PAGE_SIZE; lia|].
  { unfold npages, PAGE_SIZE, u32. dlia. }
  destruct (kmalloc_pages 1 4096 h1) as (h2 & E2 & _); [done|done|done|done|rewrite Er1; unfold PAGE_SIZE; simpl; lia|].
  rewrite Er1 in E2. simpl in E2. rewrite Z.add_0_r in E2. exists (MIPS_KSEG0 + firstpaddr (Dumbvm.vm_ram (fst (pages h)))), h1, h2.
  unfold MIPS_KSEG0 in *. split_and!; [lia|done|done].
Qed.

(** ** Examples *)

Definition page_vm : Dumbvm.vm := Dumbvm.mkVm (mkRam 0x100000 0x200000) false (fun _ => 0) [] (Spl.mkIpl 0 0 true).
Definition heap0 : page_heap := boot (fun _ => 0) (page_vm, ∅).

Lemma page_vm_ok : kp_ok (page_vm, ∅ : gmap Z Z).
Proof. repeat split; try done; intros; by rewrite lookup_empty in *. Qed.

Lemma heap0_rep : Rep heap0 ∅ [].
Proof. destruct (boot_ok (fun _ => 0) (page_vm, ∅ : gmap Z Z) 0 page_vm_ok) as (ls & Hls & Hrep). apply Forall2_nil_inv_l in Hls as ->. exact Hrep. Qed.


Lemma kmalloc_overflow_witness :
  exists p h1 h2, p <> 0 /\ kmalloc 0xffffffff heap0 = Ret p h1 /\ kmalloc PAGE_SIZE h1 = Ret p h2.
Proof. refine (kmalloc_overflow 0xffffffff heap0 (proj1 page_vm_ok) _ _); by vm_compute. Defined.

(** A client holds one page. *)
Definition one_block : gmap Z Z := {[0x800ff000 := 1]}.
Definition heap1 : page_heap := boot (fun _ => 0) (page_vm, one_block).

Lemma one_page_ok : kp_ok (page_vm, one_block).
Proof.
  assert (forall a n, one_block !! a = Some n -> a = 0x800ff000 /\ n = 1) as Hone by (unfold one_block; intros a n [<- <-]%lookup_singleton_Some; done).
  split_and!; simpl; [by repeat split| |].
  - by intros a n [-> ->]%Hone.
  - by intros a n b m [-> _]%Hone [-> _]%Hone.
Qed.

Lemma heap1_rep : Rep heap1 {[0x800ff000 := 4096]} [].
Proof.
  exists []. split; [apply boot_heap_ok, one_page_ok| |constructor|by intros ? ? ?%elem_of_nil].
  intros x s [<- <-]%lookup_singleton_Some. right. exists 1. split_and!; [by apply lookup_singleton_Some|by intros ?%elem_of_nil|done].
Qed.

Lemma kfree_contract_witness :
  returns (kfree 0x800ff000 heap1) (fun _ h' =>
    kept (delete 0x800ff000 {[0x800ff000 := 4096]}) heap1 h' /\ Rep h' (delete 0x800ff000 {[0x800ff000 := 4096]}) []).
Proof. exact (kfree_contract 0x800ff000 4096 heap1 {[0x800ff000 := 4096]} heap1_rep (lookup_singleton_eq _ _)). Defined.

End KmallocThm.
