(* ===== verification/Copyinout.v ===== *)
(** * Copying between kernel and user memory: src/vm/copyinout.c

    [Copyinout] models user memory as the bytes that are mapped in the current
    address space, addressed from 0.  Touching an address that is not mapped
    faults; with [tm_badfaultfunc] set the fault is the [longjmp] that makes the
    copy return [EFAULT], with what was copied before it already stored, and
    without it the kernel dies. *)

From S2P Require Import Prelude.

Module Copyinout.

(** [MIPS_KSEG0] (src/arch/mips/include/vm.h). *)
Definition USERSPACETOP : Z := 0x80000000.

(** The mapped bytes, and whether the thread's [tm_badfaultfunc] is set. *)
Record uspace := mkUspace { um : gmap Z Z; tm_badfaultfunc : bool }.

Definition set_um (m : gmap Z Z) (u : uspace) : uspace := mkUspace m (tm_badfaultfunc u).
Definition set_badfault (b : bool) : M uspace unit := modify (fun u => mkUspace (um u) b).

(** A memory access that faults, in kernel mode: [copyfail()], if set. *)
Definition copyfail {A} : M uspace A :=
  let* u := get in
  if tm_badfaultfunc u then err EFAULT else panic.

Definition load (a : Z) : M uspace Z :=
  let* u := get in
  match um u !! a with Some b => ret b | None => copyfail end.

Definition store (a b : Z) : M uspace unit :=
  let* u := get in
  match um u !! a with
  | Some _ => modify (set_um (<[a := b]> (um u)))
  | None => copyfail
  end.

(** [memcpy] out of and into user memory, byte by byte. *)
Fixpoint load_bytes (n : nat) (a : Z) : M uspace (list Z) :=
  match n with
  | O => ret []
  | S n' => let* b := load a in let* bs := load_bytes n' (a + 1) in ret (b :: bs)
  end.

Fixpoint store_bytes (a : Z) (bs : list Z) : M uspace unit :=
  match bs with
  | [] => ret tt
  | b :: bs' => store a b ;; store_bytes (a + 1) bs'
  end.

(** The length that may be copied, or [EFAULT]. *)
Definition copycheck (userptr len : Z) : M uspace Z :=
  let bot := userptr in
  let top := u32 (u32 (bot + len) - 1) in
  if top <? bot then err EFAULT
  else if USERSPACETOP <=? bot then err EFAULT
  else ret (if USERSPACETOP <=? top then USERSPACETOP - bot else len).

(** [setjmp], then the body: a fault in the body resumes after the [setjmp]. *)
Definition guarded {A} (body : M uspace A) : M uspace A :=
  set_badfault true ;;
  let* r := try body in
  set_badfault false ;;
  match r with inl a => ret a | inr e => err e end.

(** The kernel buffer read is the result; on an error its contents are not
    used by any caller. *)
Definition copyin (usersrc len : Z) : M uspace (list Z) :=
  let* stoplen := copycheck usersrc len in
  if negb (stoplen =? len) then err EFAULT
  else guarded (load_bytes (Z.to_nat len) usersrc).

Definition copyout (src : list Z) (userdest : Z) : M uspace unit :=
  let* stoplen := copycheck userdest (zlen src) in
  if negb (stoplen =? zlen src) then err EFAULT
  else guarded (store_bytes userdest src).

(** [copystr] with a source and a destination that are read and written one
    character at a time, for [i < maxlen && i < stoplen], [n] of them left; the
    result is what was copied, terminator included. *)
Fixpoint copystr (n : nat) (i maxlen stoplen : Z) (src : Z -> M uspace Z) (dest : Z -> Z -> M uspace unit)
    : M uspace (list Z) :=
  match n with
  | O => if stoplen <? maxlen then err EFAULT else err ENAMETOOLONG
  | S n' =>
      let* c := src i in
      dest i c ;;
      if c =? 0 then ret [c]
      else let* rest := copystr n' (i + 1) maxlen stoplen src dest in ret (c :: rest)
  end.

Definition copyinstr (usersrc len : Z) : M uspace (list Z) :=
  let* stoplen := copycheck usersrc len in
  guarded (copystr (Z.to_nat (Z.min len stoplen)) 0 len stoplen
             (fun i => load (usersrc + i)) (fun _ _ => ret tt)).

(** [src] is the kernel string's buffer; [*actual] is the length of the result. *)
Definition copyoutstr (src : list Z) (userdest len : Z) : M uspace (list Z) :=
  let* stoplen := copycheck userdest len in
  guarded (copystr (Z.to_nat (Z.min len stoplen)) 0 len stoplen
             (fun i => of_option Wild (zlookup src i)) (fun i c => store (userdest + i) c)).

(** ** What a user range allows *)

(** A nonempty range that ends in user space and is mapped. *)
Definition in_user (a len : Z) : Prop := 0 < len /\ a + len <= USERSPACETOP.
Definition mapped (m : gmap Z Z) (a len : Z) : Prop := forall i, 0 <= i < len -> is_Some (m !! (a + i)).
Definition accessible (m : gmap Z Z) (a len : Z) : Prop := in_user a len /\ mapped m a len.

(** The bytes there. *)
Fixpoint bytes_at (m : gmap Z Z) (a : Z) (n : nat) : list Z :=
  match n with O => [] | S n' => default 0 (m !! a) :: bytes_at m (a + 1) n' end.

Fixpoint set_bytes (m : gmap Z Z) (a : Z) (bs : list Z) : gmap Z Z :=
  match bs with [] => m | b :: bs' => set_bytes (<[a := b]> m) (a + 1) bs' end.

Definition clear_fault (m : gmap Z Z) : uspace := mkUspace m false.

Lemma copycheck_spec a len u :
  is_u32 a -> is_u32 len ->
  runs (copycheck a len u)
    (fun stop u' => u' = u /\ 0 <= a < USERSPACETOP /\
       ((0 < len /\ stop = Z.min len (USERSPACETOP - a)) \/ (len = 0 /\ a = 0 /\ stop = USERSPACETOP)))
    (fun e u' => e = EFAULT /\ u' = u /\ ~ in_user a len /\ (len = 0 \/ 2 ^ 32 <= a + len - 1 \/ USERSPACETOP <= a)).
Proof.
  unfold is_u32, copycheck, in_user, USERSPACETOP. intros Ha Hl.
  assert (u32 (u32 (a + len) - 1) = (a + len - 1) mod 2 ^ 32) as ->.
  { unfold u32. by rewrite Zminus_mod_idemp_l. }
  destruct (decide (a + len = 0)) as [E|E].
  { assert (a = 0 /\ len = 0) as [-> ->] by lia. vm_compute. eauto 8. }
  destruct (decide (a + len - 1 < 2 ^ 32)).
  - rewrite Z.mod_small by lia. destruct (Z.ltb_spec (a + len - 1) a); [runs_steps; split_and!; try done; [lia|left; lia]|].
    destruct (Z.leb_spec 2147483648 a); runs_steps; [split_and!; try done; [lia|right; right; lia]|].
    split_and!; [done|lia|lia|]. left. split; [lia|]. destruct (Z.leb_spec 2147483648 (a + len - 1)); lia.
  - assert ((a + len - 1) mod 2 ^ 32 = a + len - 1 - 2 ^ 32) as ->.
    { rewrite <- (Z_mod_plus_full _ (-1)). rewrite Z.mod_small; lia. }
    destruct (Z.ltb_spec (a + len - 1 - 2 ^ 32) a); [|lia]. runs_steps. split_and!; try done; [lia|right; left; lia].
Qed.

Lemma mapped_cons m a n : 0 <= n -> mapped m a (n + 1) <-> is_Some (m !! a) /\ mapped m (a + 1) n.
Proof.
  intros Hn. split.
  - intros Hm. split; [specialize (Hm 0 ltac:(lia)); by rewrite Z.add_0_r in Hm|].
    intros i Hi. specialize (Hm (i + 1) ltac:(lia)). by replace (a + 1 + i) with (a + (i + 1)) by lia.
  - intros [H0 Hm] i Hi. destruct (decide (i = 0)) as [->|]; [by rewrite Z.add_0_r|].
    specialize (Hm (i - 1) ltac:(lia)). by replace (a + 1 + (i - 1)) with (a + i) in Hm by lia.
Qed.

Lemma mapped_insert m a x b len : is_Some (m !! x) -> mapped (<[x := b]> m) a len <-> mapped m a len.
Proof.
  intros Hx. split; intros Hm i Hi; specialize (Hm i Hi).
  - destruct (decide (x = a + i)) as [->|]; [done|]. by rewrite lookup_insert_ne in Hm.
  - destruct (decide (x = a + i)) as [->|]; [rewrite lookup_insert_eq; eauto|]. by rewrite lookup_insert_ne.
Qed.

(** A fault under [guarded] is an error; [um] is what the body made of it. *)
Lemma load_bytes_spec n a m :
  runs (load_bytes n a (mkUspace m true))
    (fun bs u' => u' = mkUspace m true /\ mapped m a (Z.of_nat n) /\ bs = bytes_at m a n)
    (fun e u' => u' = mkUspace m true /\ e = EFAULT /\ ~ mapped m a (Z.of_nat n)).
Proof.
  revert a. induction n as [|n IH]; intros a; cbn [load_bytes bytes_at].
  - runs_steps. split_and!; try done. intros i Hi. lia.
  - rewrite Nat2Z.inj_succ. unfold Z.succ, load. runs_steps. simpl. destruct (m !! a) as [b|] eqn:E.
    + runs_steps. eapply runs_mono; [apply (IH (a + 1))|..]; cbv beta.
      * intros bs u' (-> & Hm & ->). runs_steps. split_and!; [done| |done]. apply mapped_cons; [lia|].
        rewrite E. eauto.
      * intros e u' (-> & -> & Hn). split_and!; try done. rewrite mapped_cons by lia. tauto.
    + unfold copyfail. runs_steps. simpl. split_and!; try done.
      rewrite mapped_cons by lia. rewrite E. by intros [[? ?] _].
Qed.

Lemma store_bytes_spec a bs m :
  runs (store_bytes a bs (mkUspace m true))
    (fun _ u' => u' = mkUspace (set_bytes m a bs) true /\ mapped m a (zlen bs))
    (fun e u' => e = EFAULT /\ ~ mapped m a (zlen bs) /\
       exists k, (k < length bs)%nat /\ u' = mkUspace (set_bytes m a (take k bs)) true).
Proof.
  revert a m. induction bs as [|b bs IH]; intros a m; cbn [store_bytes set_bytes].
  - runs_steps. split_and!; try done. intros i Hi. change (zlen []) with 0 in Hi. lia.
  - rewrite zlen_cons. pose proof (zlen_nonneg bs). unfold store. runs_steps. simpl. destruct (m !! a) as [b0|] eqn:E.
    + runs_steps. simpl. eapply runs_mono; [apply (IH (a + 1))|..]; cbv beta.
      * intros [] u' (-> & Hm). rewrite mapped_insert in Hm by eauto. split_and!; [done|].
        apply mapped_cons; [lia|]. eauto.
      * intros e u' (-> & Hn & k & Hk & ->). rewrite mapped_insert in Hn by eauto. split_and!; [done| |].
        -- rewrite mapped_cons by lia. tauto.
        -- exists (S k). split; [simpl; lia|done].
    + unfold copyfail. runs_steps. simpl. split_and!; [done| |exists O; split; [simpl; lia|done]].
      rewrite mapped_cons by lia. rewrite E. by intros [[? ?] _].
Qed.

Lemma guarded_spec {A} (body : M uspace A) u (Q : A -> uspace -> Prop) R :
  runs (body (mkUspace (um u) true)) (fun a u' => Q a (clear_fault (um u'))) (fun e u' => R e (clear_fault (um u'))) ->
  runs (guarded body u) Q R.
Proof.
  intros Hb. unfold guarded, set_badfault, try, bind, modify. simpl.
  destruct (body (mkUspace (um u) true)) as [a u'|e u'|]; simpl in *; done.
Qed.

(** [copyin] copies exactly when the range is accessible. *)
Lemma copyin_spec a len m :
  is_u32 a -> is_u32 len ->
  runs (copyin a len (clear_fault m))
    (fun bs u' => accessible m a len /\ bs = bytes_at m a (Z.to_nat len) /\ u' = clear_fault m)
    (fun e u' => e = EFAULT /\ ~ accessible m a len /\ u' = clear_fault m).
Proof.
  intros Ha Hl. unfold copyin, accessible. runs_steps.
  eapply runs_mono; [by apply (copycheck_spec a len)|..]; cbv beta.
  - intros stop u' (-> & Hr & Hc). unfold in_user, is_u32, USERSPACETOP in *.
    destruct (Z.eqb_spec stop len) as [->|Hne]; simpl.
    + assert (0 < len /\ a + len <= 2147483648) as Hin by lia. apply guarded_spec.
      eapply runs_mono; [apply load_bytes_spec|..]; cbv beta.
      * intros bs u' (-> & Hm & ->). rewrite Z2Nat.id in Hm by lia. split_and!; try done; lia.
      * intros e u' (-> & -> & Hn). rewrite Z2Nat.id in Hn by lia. split_and!; try done. tauto.
    + runs_steps. split_and!; try done. lia.
  - intros e u' (-> & -> & Hn & _). split_and!; try done. tauto.
Qed.

(** [copyout] writes the whole range when it is accessible; otherwise it fails
    having written a proper prefix of it. *)
Lemma copyout_spec a bs m :
  is_u32 a -> is_u32 (zlen bs) ->
  runs (copyout bs a (clear_fault m))
    (fun _ u' => accessible m a (zlen bs) /\ u' = clear_fault (set_bytes m a bs))
    (fun e u' => e = EFAULT /\ ~ accessible m a (zlen bs) /\
       exists k, (k = 0%nat \/ a + Z.of_nat k <= USERSPACETOP) /\ (k = 0 \/ k < length bs)%nat /\
                 u' = clear_fault (set_bytes m a (take k bs))).
Proof.
  intros Ha Hl. unfold copyout, accessible. runs_steps.
  eapply runs_mono; [by apply (copycheck_spec a (zlen bs))|..]; cbv beta.
  - intros stop u' (-> & Hr & Hc). unfold in_user, is_u32, USERSPACETOP in *.
    destruct (Z.eqb_spec stop (zlen bs)) as [->|Hne]; simpl.
    + assert (0 < zlen bs /\ a + zlen bs <= 2147483648) as Hin by lia. apply guarded_spec.
      eapply runs_mono; [apply store_bytes_spec|..]; cbv beta.
      * intros [] u' (-> & Hm). split_and!; try done; lia.
      * intros e u' (-> & Hn & k & Hk & ->). split_and!; [done|tauto|]. exists k.
        unfold zlen in *. split_and!; [right; lia|by right|done].
    + runs_steps. split_and!; [done|lia|]. exists O. split_and!; [by left|by left|done].
  - intros e u' (-> & -> & Hn & _). split_and!; [done|tauto|]. exists O. split_and!; [by left|by left|done].
Qed.

Lemma set_bytes_lookup m a bs x :
  set_bytes m a bs !! x = if bool_decide (a <= x < a + zlen bs) then zlookup bs (x - a) else m !! x.
Proof.
  revert m a. induction bs as [|b bs IH]; intros m a; cbn [set_bytes].
  - change (zlen []) with 0. rewrite bool_decide_false by lia. done.
  - rewrite IH, zlen_cons. pose proof (zlen_nonneg bs). change (b :: bs) with ([b] ++ bs).
    case_bool_decide; [|destruct (decide (x = a)) as [->|]].
    + rewrite bool_decide_true by lia. rewrite zlookup_app_r by (change (zlen [b]) with 1; lia).
      f_equal. change (zlen [b]) with 1. lia.
    + rewrite bool_decide_true by lia. rewrite zlookup_app_l by (rewrite Z.sub_diag; change (zlen [b]) with 1; lia).
      rewrite Z.sub_diag, lookup_insert_eq. done.
    + rewrite bool_decide_false by lia. by rewrite lookup_insert_ne.
Qed.

Lemma bytes_at_ext m m' a n :
  (forall i, 0 <= i < Z.of_nat n -> m !! (a + i) = m' !! (a + i)) -> bytes_at m a n = bytes_at m' a n.
Proof.
  revert a. induction n as [|n IH]; intros a Hm; [done|]. cbn [bytes_at]. f_equal.
  - specialize (Hm 0 ltac:(lia)). by rewrite Z.add_0_r in Hm; rewrite Hm.
  - apply IH. intros i Hi. specialize (Hm (i + 1) ltac:(lia)). by replace (a + 1 + i) with (a + (i + 1)) by lia.
Qed.

Lemma bytes_at_set m a bs : bytes_at (set_bytes m a bs) a (length bs) = bs.
Proof.
  revert m a. induction bs as [|b bs IH]; intros m a; [done|]. cbn [length bytes_at set_bytes]. f_equal.
  - rewrite set_bytes_lookup, bool_decide_false by lia. by rewrite lookup_insert_eq.
  - apply IH.
Qed.

Lemma set_bytes_mapped m a bs x len : mapped m a (zlen bs) -> mapped (set_bytes m a bs) x len <-> mapped m x len.
Proof.
  intros Hb. split; intros Hm i Hi; specialize (Hm i Hi).
  - rewrite set_bytes_lookup in Hm. case_bool_decide; [|done].
    specialize (Hb (x + i - a) ltac:(lia)). by replace (a + (x + i - a)) with (x + i) in Hb by lia.
  - rewrite set_bytes_lookup. case_bool_decide; [|done]. destruct (zlookup_is_Some bs (x + i - a)) as [b ->]; [lia|eauto].
Qed.

(** ** Strings *)

(** The [n] characters at [a] are mapped and none is the terminator. *)
Definition nul_free (m : gmap Z Z) (a n : Z) : Prop :=
  forall i, 0 <= i < n -> exists b, m !! (a + i) = Some b /\ b <> 0.

Lemma copystr_in_spec n i a maxlen stoplen m :
  nul_free m a i -> 0 <= i ->
  runs (copystr n i maxlen stoplen (fun i => load (a + i)) (fun _ _ => ret tt) (mkUspace m true))
    (fun bs u' => u' = mkUspace m true /\ exists k, i <= k < i + Z.of_nat n /\ nul_free m a k /\
       m !! (a + k) = Some 0 /\ bs = bytes_at m (a + i) (Z.to_nat (k - i + 1)))
    (fun e u' => u' = mkUspace m true /\
       ((e = EFAULT /\ exists k, i <= k < i + Z.of_nat n /\ nul_free m a k /\ m !! (a + k) = None) \/
        (nul_free m a (i + Z.of_nat n) /\ e = if stoplen <? maxlen then EFAULT else ENAMETOOLONG))).
Proof.
  revert i. induction n as [|n IH]; intros i Hf Hi; cbn [copystr].
  - rewrite Z.add_0_r. destruct (stoplen <? maxlen); runs_steps; auto.
  - unfold load. runs_steps. simpl. destruct (m !! (a + i)) as [c|] eqn:E.
    + runs_steps. destruct (Z.eqb_spec c 0) as [->|Hc].
      * runs_steps. split; [done|]. exists i. split_and!; try done; try lia.
        replace (i - i + 1) with 1 by lia. simpl. by rewrite E.
      * runs_steps. assert (nul_free m a (i + 1)) as Hf'.
        { intros j Hj. destruct (decide (j = i)) as [->|]; [eauto|]. apply Hf. lia. }
        eapply runs_mono; [apply (IH (i + 1) Hf'); lia|..]; cbv beta.
        -- intros bs u' (-> & k & Hk & Hkf & Hk0 & ->). runs_steps. split; [done|]. exists k.
           split_and!; try done; try lia. replace (Z.to_nat (k - i + 1)) with (S (Z.to_nat (k - (i + 1) + 1))) by lia.
           cbn [bytes_at]. rewrite E. simpl. by replace (a + i + 1) with (a + (i + 1)) by lia.
        -- intros e u' (-> & [(-> & k & Hk & ? & ?)|[? ->]]); (split; [done|]).
           ++ left. split; [done|]. exists k. split_and!; try done; lia.
           ++ right. split; [|done]. by replace (i + Z.of_nat (S n)) with (i + 1 + Z.of_nat n) by lia.
    + unfold copyfail. runs_steps. simpl. split; [done|]. left. split; [done|]. exists i. split_and!; try done; lia.
Qed.

Lemma copyin_accessible a len m :
  is_u32 a -> is_u32 len -> accessible m a len ->
  copyin a len (clear_fault m) = Ret (bytes_at m a (Z.to_nat len)) (clear_fault m).
Proof.
  intros Ha Hl Hacc. pose proof (copyin_spec a len m Ha Hl) as Hr.
  destruct (copyin a len (clear_fault m)) as [bs u'|e u'|]; simpl in Hr; [|tauto|done].
  by destruct Hr as (_ & -> & ->).
Qed.

(** Copying to user memory is safe and exact.  [copyout] succeeds if
    and only if the range is not empty, lies below the kernel and is mapped;
    then the range holds the bytes, as [copyin] reads them back, and nothing
    else changed.  Otherwise the result is [EFAULT], and in either case no byte
    outside the range or in kernel space was written and [tm_badfaultfunc] is
    clear. *)
Theorem copyout_exact a bs m :
  is_u32 a -> is_u32 (zlen bs) ->
  runs (copyout bs a (clear_fault m))
    (fun _ u' => accessible m a (zlen bs) /\ copyin a (zlen bs) u' = Ret bs u' /\ tm_badfaultfunc u' = false /\
       forall x, ~ a <= x < a + zlen bs -> um u' !! x = m !! x)
    (fun e u' => e = EFAULT /\ ~ accessible m a (zlen bs) /\ tm_badfaultfunc u' = false /\
       forall x, ~ a <= x < a + zlen bs \/ USERSPACETOP <= x -> um u' !! x = m !! x).
Proof.
  intros Ha Hl. eapply runs_mono; [by apply copyout_spec|..]; cbv beta.
  - intros [] u' ([Hin Hm] & ->). split_and!; [done| |done|].
    + rewrite copyin_accessible; [|done..|split; [done|by rewrite set_bytes_mapped]].
      unfold zlen. by rewrite Nat2Z.id, bytes_at_set.
    + intros x Hx. simpl. by rewrite set_bytes_lookup, bool_decide_false.
  - intros e u' (-> & Hn & k & Hk & Hk2 & ->). split_and!; try done. intros x Hx. simpl.
    rewrite set_bytes_lookup. rewrite bool_decide_false; [done|].
    unfold zlen in *. rewrite length_take. destruct Hx; lia.
Qed.

(** Copying a string in is exact.  [copyinstr] returns the characters
    up to and including the first terminator when it is among the first [len]
    characters; [ENAMETOOLONG] when those are all mapped user characters but
    hold no terminator; and [EFAULT] when user space or the mapping ends
    first. *)
Theorem copyinstr_exact a len m :
  is_u32 a -> is_u32 len -> 0 < len ->
  runs (copyinstr a len (clear_fault m))
    (fun bs u' => u' = clear_fault m /\ exists k, 0 <= k < len /\ a + k < USERSPACETOP /\ nul_free m a k /\
       m !! (a + k) = Some 0 /\ bs = bytes_at m a (Z.to_nat (k + 1)))
    (fun e u' => u' = clear_fault m /\
       ((e = ENAMETOOLONG /\ nul_free m a len /\ a + len <= USERSPACETOP) \/
        (e = EFAULT /\ (2 ^ 32 <= a + len - 1 \/ exists k, 0 <= k < len /\ nul_free m a k /\
           (m !! (a + k) = None \/ USERSPACETOP <= a + k))))).
Proof.
  intros Ha Hl Hpos. unfold copyinstr. runs_steps. eapply runs_mono; [by apply (copycheck_spec a len)|..]; cbv beta.
  - intros stop u' (-> & Hr & Hc). destruct Hc as [[_ ->]|[? _]]; [|lia]. apply guarded_spec.
    eapply runs_mono; [apply (copystr_in_spec _ 0); [|lia]|..]; cbv beta.
    + intros i Hi. lia.
    + intros bs u' (-> & k & Hk & Hf & H0 & ->). split; [done|]. exists k. split_and!; try done; try lia.
      f_equal; lia.
    + intros e u' (-> & [(-> & k & Hk & Hf & H0)|[Hf ->]]); (split; [done|]).
      * right. split; [done|]. right. exists k. split_and!; try done; try lia. by left.
      * rewrite Z.add_0_l, Z2Nat.id in Hf by lia. destruct (Z.ltb_spec (Z.min len (USERSPACETOP - a)) len).
        -- right. split; [done|]. right. exists (USERSPACETOP - a). split_and!; [lia|lia| |right; lia].
           by replace (Z.min len (Z.min len (USERSPACETOP - a))) with (USERSPACETOP - a) in Hf by lia.
        -- left. split_and!; [done| |lia]. by replace (Z.min len (Z.min len (USERSPACETOP - a))) with len in Hf by lia.
  - intros e u' (-> & -> & _ & Hc). split; [done|]. right. split; [done|].
    destruct Hc as [?|[?|?]]; [lia|by left|right]. exists 0. split_and!; [lia|lia|intros i Hi; lia|right; lia].
Qed.

Definition demo : gmap Z Z := list_to_map [(0x400000, 104); (0x400001, 105); (0x400002, 0)].

Lemma copyout_exact_witness :
  runs (copyout [7; 8; 9] 0x400000 (clear_fault demo))
    (fun _ u' => copyin 0x400000 3 u' = Ret [7; 8; 9] u') (fun _ _ => False).
Proof.
  eapply runs_mono; [apply (copyout_exact 0x400000 [7; 8; 9] demo); vm_compute; split; congruence|..]; cbv beta.
  - intros [] u' (_ & Hc & _). exact Hc.
  - intros e u' (_ & Hn & _). apply Hn. split; [vm_compute; split; congruence|].
    intros i Hi. change (zlen [7; 8; 9]) with 3 in Hi. assert (i = 0 \/ i = 1 \/ i = 2) as [-> | [-> | ->]] by lia; eauto.
Defined.

Lemma copyinstr_exact_witness :
  copyinstr 0x400000 10 (clear_fault demo) = Ret [104; 105; 0] (clear_fault demo) /\
  runs (copyinstr 0x400000 2 (clear_fault demo)) (fun _ _ => False) (fun e _ => e = ENAMETOOLONG).
Proof.
  split; [reflexivity|]. eapply runs_mono; [apply (copyinstr_exact 0x400000 2 demo); try done; vm_compute; split; congruence|..]; cbv beta.
  - intros bs u' (_ & k & Hk & _ & _ & H0 & _). assert (k = 0 \/ k = 1) as [-> | ->] by lia; discriminate H0.
  - intros e u' (_ & [[? _]|[_ [?|(k & Hk & _ & [H0|H0])]]]); [done|lia| |unfold USERSPACETOP in *; lia].
    assert (k = 0 \/ k = 1) as [-> | ->] by lia; discriminate H0.
Defined.
End Copyinout.
