(* ===== verification/Uio.v ===== *)
(** * Memory regions for I/O: src/lib/uio.c

    [Uio] models a [struct uio] together with the memory it points into: a
    kernel buffer, addressed from 0, for [UIO_SYSSPACE], or the user memory of
    the current address space.  [uiomove] takes the contents of the kernel
    buffer [ptr] it is given, all [n] bytes of it, and returns what it leaves
    there. *)

From S2P Require Import Prelude Copyinout.
Import Copyinout.

Module Uio.

Inductive uio_rw := UIO_READ | UIO_WRITE.
Inductive uio_seg := UIO_USERISPACE | UIO_USERSPACE | UIO_SYSSPACE.
#[global] Instance uio_rw_eq_dec : EqDecision uio_rw.
Proof. solve_decision. Defined.
#[global] Instance uio_seg_eq_dec : EqDecision uio_seg.
Proof. solve_decision. Defined.

(** An iovec is its base address and length; an address space is a number,
    [None] is NULL. *)
Record uio := mkUio {
  uio_iov : list (Z * Z); uio_offset : Z; uio_resid : Z;
  uio_segflg : uio_seg; uio_dir : uio_rw; uio_space : option Z }.

(** [kmem] is the kernel buffer [iov_kbase] points into. *)
Record xfer := mkXfer { xu : uio; kmem : list Z; us : uspace; curproc_as : option Z }.

Definition with_iov (v : list (Z * Z)) (u : uio) :=
  mkUio v (uio_offset u) (uio_resid u) (uio_segflg u) (uio_dir u) (uio_space u).
Definition with_offset (o : Z) (u : uio) :=
  mkUio (uio_iov u) o (uio_resid u) (uio_segflg u) (uio_dir u) (uio_space u).
Definition with_resid (r : Z) (u : uio) :=
  mkUio (uio_iov u) (uio_offset u) r (uio_segflg u) (uio_dir u) (uio_space u).

Definition upd_uio (f : uio -> uio) : M xfer unit :=
  modify (fun x => mkXfer (f (xu x)) (kmem x) (us x) (curproc_as x)).
Definition put_kmem (m : list Z) : M xfer unit :=
  modify (fun x => mkXfer (xu x) m (us x) (curproc_as x)).
Definition on_user {A} (m : M uspace A) : M xfer A :=
  zoom us (fun v x => mkXfer (xu x) (kmem x) v (curproc_as x)) m.

(** [memmove] into and out of the kernel buffer. *)
Definition kstore (a : Z) (bs : list Z) : M xfer unit :=
  let* x := get in
  if (0 <=? a) && (a + zlen bs <=? zlen (kmem x)) then put_kmem (zsplice (kmem x) a bs) else crashed Wild.
Definition kload (a n : Z) : M xfer (list Z) :=
  let* x := get in
  if (0 <=? a) && (a + n <=? zlen (kmem x)) then ret (ztake n (zdrop a (kmem x))) else crashed Wild.

(** One transfer of the bytes [bs] (reading) or of as many bytes (writing)
    at [base]; what the kernel buffer holds then. *)
Definition move (base : Z) (bs : list Z) : M xfer (list Z) :=
  let* x := get in
  match uio_segflg (xu x), uio_dir (xu x) with
  | UIO_SYSSPACE, UIO_READ => kstore base bs ;; ret bs
  | UIO_SYSSPACE, UIO_WRITE => kload base (zlen bs)
  | _, UIO_READ => on_user (copyout bs base) ;; ret bs
  | _, UIO_WRITE => on_user (copyin base (zlen bs))
  end.

(** The loop; [rest] is the part of the buffer still to do. *)
Fixpoint uiomove_loop (fuel : nat) (done rest : list Z) : M xfer (list Z) :=
  let* x := get in
  if (0 <? zlen rest) && (0 <? uio_resid (xu x)) then
    match fuel with
    | O => crashed Hung
    | S fuel' =>
        match uio_iov (xu x) with
        | [] => crashed Wild
        | (base, len) :: iovs =>
            let size := if zlen rest <? len then zlen rest else len in
            if size =? 0 then
              match iovs with
              | [] => panic
              | _ => upd_uio (with_iov iovs) ;; uiomove_loop fuel' done rest
              end
            else
              let* moved := move base (ztake size rest) in
              upd_uio (with_iov ((u32 (base + size), u32 (len - size)) :: iovs)) ;;
              upd_uio (fun u => with_resid (u32 (uio_resid u - size)) u) ;;
              upd_uio (fun u => with_offset (s64 (uio_offset u + size)) u) ;;
              uiomove_loop fuel' (done ++ moved) (zdrop size rest)
        end
    end
  else ret (done ++ rest).

(** Every turn moves a byte or drops an iovec. *)
Definition uiomove (buf : list Z) : M xfer (list Z) :=
  let* x := get in
  KASSERT (match uio_segflg (xu x) with
           | UIO_SYSSPACE => bool_decide (uio_space (xu x) = None)
           | _ => bool_decide (uio_space (xu x) = curproc_as x)
           end) ;;
  uiomove_loop (length buf + length (uio_iov (xu x))) [] buf.

(** [n] bytes of zeros, sixteen at a time. *)
Fixpoint uiomovezeros_loop (fuel : nat) (n : Z) : M xfer unit :=
  if 0 <? n then
    match fuel with
    | O => crashed Hung
    | S fuel' =>
        let amt := if n <? 16 then n else 16 in
        let* _ := uiomove (zrep amt 0) in
        uiomovezeros_loop fuel' (n - amt)
    end
  else ret tt.

Definition uiomovezeros (n : Z) : M xfer unit :=
  let* x := get in
  KASSERT (bool_decide (uio_dir (xu x) = UIO_READ)) ;;
  uiomovezeros_loop (Z.to_nat n) n.

(** A uio on the kernel buffer [kbuf]. *)
Definition uio_kinit (len pos : Z) (rw : uio_rw) : uio := mkUio [(0, len)] pos len UIO_SYSSPACE rw None.

(** Run [m] on a uio over the kernel buffer [kbuf] and hand back the buffer. *)
Definition kxfer (kbuf : list Z) (pos : Z) (rw : uio_rw) (u : uspace) (cur : option Z) : xfer :=
  mkXfer (uio_kinit (zlen kbuf) pos rw) kbuf u cur.

(** ** Transfers through one iovec

    Every uio of the kernel has one iovec. *)

(** The memory the uio refers to. *)
Definition is_sys (x : xfer) : bool := bool_decide (uio_segflg (xu x) = UIO_SYSSPACE).
Definition peek (x : xfer) (a : Z) : option Z := if is_sys x then zlookup (kmem x) a else um (us x) !! a.
Definition get_bytes (x : xfer) (a n : Z) : list Z :=
  if is_sys x then ztake n (zdrop a (kmem x)) else bytes_at (um (us x)) a (Z.to_nat n).
Definition put_bytes (a : Z) (bs : list Z) (x : xfer) : xfer :=
  if is_sys x then mkXfer (xu x) (zsplice (kmem x) a bs) (us x) (curproc_as x)
  else mkXfer (xu x) (kmem x) (clear_fault (set_bytes (um (us x)) a bs)) (curproc_as x).

(** [n] bytes done. *)
Definition advance (n : Z) (x : xfer) : xfer :=
  mkXfer (mkUio (match uio_iov (xu x) with (b, l) :: v => (b + n, l - n) :: v | v => v end)
            (uio_offset (xu x) + n) (uio_resid (xu x) - n) (uio_segflg (xu x)) (uio_dir (xu x)) (uio_space (xu x)))
         (kmem x) (us x) (curproc_as x).

(** A uio on [l] bytes at [b], all of them in the kernel buffer if it is one. *)
Record xok (x : xfer) (b l : Z) : Prop := {
  xo_iov : uio_iov (xu x) = [(b, l)];
  xo_base : 0 <= b /\ b + l < 2 ^ 32;
  xo_resid : 0 <= uio_resid (xu x) <= l;
  xo_offset : 0 <= uio_offset (xu x) /\ uio_offset (xu x) + uio_resid (xu x) < 2 ^ 63;
  xo_space : uio_space (xu x) = if is_sys x then None else curproc_as x;
  xo_kmem : is_sys x = true -> b + l <= zlen (kmem x);
  xo_user : us x = clear_fault (um (us x)) }.

(** The next [n] bytes can be reached. *)
Definition reach (x : xfer) (b n : Z) : Prop := is_sys x = true \/ n = 0 \/ accessible (um (us x)) b n.

Definition iov_base (u : uio) : Z := match uio_iov u with (b, _) :: _ => b | [] => 0 end.

(** What a failed transfer may have changed: user memory in its range. *)
Definition faulted (x x' : xfer) (b n : Z) : Prop :=
  xu x' = xu x /\ kmem x' = kmem x /\ curproc_as x' = curproc_as x /\ us x' = clear_fault (um (us x')) /\
  is_sys x = false /\ forall a, ~ b <= a < b + n -> um (us x') !! a = um (us x) !! a.

Lemma zlen_get_bytes x b l n : xok x b l -> 0 <= n <= l -> zlen (get_bytes x b n) = n.
Proof.
  intros Hx Hn. unfold get_bytes. destruct (is_sys x) eqn:E.
  - pose proof (xo_kmem _ _ _ Hx E). pose proof (xo_base _ _ _ Hx). rewrite zlen_ztake; [done|]. rewrite zlen_zdrop; lia.
  - assert (forall m a k, length (bytes_at m a k) = k) as Hl by (intros m a k; revert a; induction k; simpl; auto).
    unfold zlen. rewrite Hl. lia.
Qed.

Lemma is_sys_put a bs x : is_sys (put_bytes a bs x) = is_sys x.
Proof. unfold put_bytes. by destruct (is_sys x) eqn:E. Qed.
Lemma is_sys_advance n x : is_sys (advance n x) = is_sys x.
Proof. done. Qed.
Lemma xu_put a bs x : xu (put_bytes a bs x) = xu x.
Proof. unfold put_bytes. by destruct (is_sys x). Qed.

(** What the transfer of [bs] leaves in memory. *)
Definition moved (b : Z) (bs : list Z) (x : xfer) : xfer :=
  match uio_dir (xu x) with UIO_READ => put_bytes b bs x | UIO_WRITE => x end.

Lemma move_spec x b l bs :
  xok x b l -> 0 < zlen bs -> zlen bs <= l ->
  runs (move b bs x)
    (fun r x' => reach x b (zlen bs) /\ x' = moved b bs x /\
       r = match uio_dir (xu x) with UIO_READ => bs | UIO_WRITE => get_bytes x b (zlen bs) end)
    (fun e x' => e = EFAULT /\ ~ reach x b (zlen bs) /\ faulted x x' b (zlen bs)).
Proof.
  intros [Hiov Hb Hres Hoff Hsp Hk Hu] Hpos Hl.
  unfold move, moved, reach, get_bytes, put_bytes, faulted. runs_steps.
  destruct (is_sys x) eqn:Hs; unfold is_sys in Hs.
  - apply bool_decide_eq_true in Hs. rewrite Hs. specialize (Hk eq_refl).
    destruct (uio_dir (xu x)); unfold kstore, kload; runs_steps;
      rewrite (proj2 (Z.leb_le 0 b)), (proj2 (Z.leb_le (b + _) _)) by lia; simpl.
    + unfold put_kmem. runs_steps. split_and!; auto.
    + runs_steps. split_and!; auto.
  - apply bool_decide_eq_false in Hs.
    assert (is_u32 b /\ is_u32 (zlen bs)) as [Hb1 Hb2] by (unfold is_u32; lia).
    destruct x as [u km [um0 f] ca]. simpl in *. injection Hu as ->. fold (clear_fault um0). destruct (uio_dir u).
    + destruct (uio_segflg u); try done; unfold on_user; runs_steps; simpl;
        (eapply runs_mono; [by apply (copyout_spec b bs)|..]; cbv beta; simpl).
      1,3: intros [] u' (Hacc & ->); runs_steps; split_and!; eauto.
      all: intros e u' (-> & Hn & k & Hk1 & Hk2 & ->); split_and!; try done; try (intros [?|[?|?]]; [done|lia|done]).
      all: intros a Ha; simpl; rewrite set_bytes_lookup, bool_decide_false; [done|]; unfold zlen in *;
        rewrite length_take; lia.
    + destruct (uio_segflg u); try done; unfold on_user; apply runs_zoom; simpl;
        (eapply runs_mono; [by apply (copyin_spec b (zlen bs))|..]; cbv beta; simpl).
      1,3: intros r u' (Hacc & -> & ->); split_and!; eauto.
      all: intros e u' (-> & Hn & ->); split_and!; try done; intros [?|[?|?]]; [done|lia|done].
Qed.

Lemma xfer_eq x x' : xu x = xu x' -> kmem x = kmem x' -> us x = us x' -> curproc_as x = curproc_as x' -> x = x'.
Proof. destruct x, x'. simpl. by intros -> -> -> ->. Qed.

Lemma zsplice_nil {A} (l : list A) i : 0 <= i <= zlen l -> zsplice l i [] = l.
Proof. intros Hi. unfold zsplice. change (zlen []) with 0. rewrite Z.add_0_r. apply ztake_zdrop. Qed.

Lemma advance_0 x b l : xok x b l -> advance 0 x = x.
Proof.
  intros Hx. destruct x as [[v o r sg d sp] km u ca]. pose proof (xo_iov _ _ _ Hx) as Hv. simpl in Hv. subst v.
  unfold advance. simpl. by rewrite !Z.add_0_r, !Z.sub_0_r.
Qed.

Lemma moved_nil x b l : xok x b l -> moved b [] x = x.
Proof.
  intros [Hiov Hb Hres Hoff Hsp Hk Hu]. unfold moved, put_bytes. destruct (uio_dir (xu x)); [|done].
  destruct (is_sys x) eqn:E; apply xfer_eq; simpl; try done.
  apply zsplice_nil. specialize (Hk eq_refl). lia.
Qed.

Lemma xu_moved b bs x : xu (moved b bs x) = xu x.
Proof. unfold moved. destruct (uio_dir (xu x)); [apply xu_put|done]. Qed.

Lemma loop_nil fuel done x : uiomove_loop fuel done [] x = Ret done x.
Proof. destruct fuel; cbn; by rewrite app_nil_r. Qed.

Lemma uiomove_spec x b l buf :
  xok x b l -> zlen buf <= uio_resid (xu x) ->
  runs (uiomove buf x)
    (fun r x' => reach x b (zlen buf) /\ x' = advance (zlen buf) (moved b buf x) /\
       r = match uio_dir (xu x) with UIO_READ => buf | UIO_WRITE => get_bytes x b (zlen buf) end)
    (fun e x' => e = EFAULT /\ ~ reach x b (zlen buf) /\ faulted x x' b (zlen buf)).
Proof.
  intros Hx Hn. pose proof Hx as [Hiov Hb Hres Hoff Hsp Hk Hu]. unfold uiomove. runs_steps.
  apply runs_KASSERT.
  { unfold is_sys in Hsp. destruct (uio_segflg (xu x)); rewrite Hsp; by apply bool_decide_eq_true. }
  rewrite Hiov. destruct buf as [|c buf].
  { rewrite loop_nil. change (zlen []) with 0. rewrite (moved_nil x b l), (advance_0 x b l) by done. simpl.
    split_and!; [by right; left|done|]. destruct (uio_dir (xu x)); [done|]. unfold get_bytes. by destruct (is_sys x). }
  remember (c :: buf) as bs eqn:Ebs. assert (0 < zlen bs) as Hpos by (subst; rewrite zlen_cons; pose proof (zlen_nonneg buf); lia).
  replace (length bs + length [(b, l)])%nat with (S (length bs)) by (simpl; lia). cbn [uiomove_loop]. runs_steps.
  rewrite (proj2 (Z.ltb_lt 0 (zlen bs))), (proj2 (Z.ltb_lt 0 (uio_resid (xu x)))) by lia. simpl. rewrite Hiov.
  assert ((if zlen bs <? l then zlen bs else l) = zlen bs) as -> by (destruct (Z.ltb_spec (zlen bs) l); lia).
  rewrite (proj2 (Z.eqb_neq (zlen bs) 0)) by lia. rewrite ztake_all by lia. runs_steps.
  eapply runs_mono; [eapply (move_spec x b l bs Hx); lia|..]; cbv beta; [|done].
  intros r x' (Hre & -> & ->). unfold upd_uio. runs_steps. simpl. rewrite xu_moved.
  assert (zdrop (zlen bs) bs = []) as -> by (unfold zdrop, zlen; rewrite Nat2Z.id; by apply drop_all).
  rewrite loop_nil. simpl. split_and!; [done| |done].
  apply xfer_eq; simpl; try done. rewrite xu_moved, Hiov.
  rewrite !u32_small by (unfold is_u32; lia). by rewrite s64_small by lia.
Qed.

(** After a transfer the uio is on the rest of its memory. *)
Lemma xok_advance x b l n :
  xok x b l -> 0 <= n <= uio_resid (xu x) -> xok (advance n x) (b + n) (l - n).
Proof.
  intros [Hiov Hb Hres Hoff Hsp Hk Hu] Hn. split; simpl; try done; try lia.
  - by rewrite Hiov.
  - intros Hs. specialize (Hk Hs). lia.
Qed.

Lemma xok_moved x b l bs :
  xok x b l -> zlen bs <= l -> xok (moved b bs x) b l.
Proof.
  intros [Hiov Hb Hres Hoff Hsp Hk Hu] Hn. unfold moved. destruct (uio_dir (xu x)) eqn:Hd; [|by split].
  assert (is_sys (put_bytes b bs x) = is_sys x) as Hs by apply is_sys_put.
  assert (curproc_as (put_bytes b bs x) = curproc_as x) as Hc by (unfold put_bytes; by destruct (is_sys x)).
  split; rewrite ?xu_put, ?Hs, ?Hc; try done.
  - intros Hsy. specialize (Hk Hsy). unfold put_bytes. rewrite Hsy. simpl. pose proof (zlen_nonneg bs).
    rewrite zlen_zsplice; lia.
  - unfold put_bytes. destruct (is_sys x); [done|]. done.
Qed.

Lemma xok_faulted x x' b l n : xok x b l -> faulted x x' b n -> xok x' b l.
Proof.
  intros [Hiov Hb Hres Hoff Hsp Hk Hu] (E1 & E2 & E3 & E4 & Hns & _).
  assert (is_sys x' = is_sys x) as Hs by (unfold is_sys; by rewrite E1).
  split; rewrite ?E1, ?Hs, ?E2, ?E3; done.
Qed.

Lemma zsplice_app {A} (l xs ys : list A) i :
  0 <= i -> i + zlen xs + zlen ys <= zlen l ->
  zsplice (zsplice l i xs) (i + zlen xs) ys = zsplice l i (xs ++ ys).
Proof.
  intros Hi Hl. pose proof (zlen_nonneg xs). pose proof (zlen_nonneg ys).
  apply zlist_eq; [rewrite !zlen_zsplice; rewrite ?zlen_zsplice, ?zlen_app; lia|].
  intros j Hj. rewrite !zlookup_zsplice; rewrite ?zlen_zsplice, ?zlen_app; try lia.
  repeat case_bool_decide; try lia; try done.
  - rewrite zlookup_app_r by lia. f_equal. lia.
  - by rewrite zlookup_app_l by lia.
Qed.

Lemma set_bytes_app m a xs ys : set_bytes (set_bytes m a xs) (a + zlen xs) ys = set_bytes m a (xs ++ ys).
Proof.
  revert m a. induction xs as [|x xs IH]; intros m a; cbn [set_bytes app].
  - change (zlen []) with 0. by rewrite Z.add_0_r.
  - rewrite zlen_cons, <- IH. f_equal. lia.
Qed.

Lemma bytes_at_app m a n1 n2 : bytes_at m a (n1 + n2) = bytes_at m a n1 ++ bytes_at m (a + Z.of_nat n1) n2.
Proof.
  revert a. induction n1 as [|n1 IH]; intros a; cbn [bytes_at app Nat.add].
  - by rewrite Z.add_0_r.
  - rewrite IH. do 2 f_equal. f_equal. lia.
Qed.

(** What a transfer of two parts takes from memory. *)
Lemma get_bytes_app x b n1 n2 :
  0 <= b -> 0 <= n1 -> 0 <= n2 -> get_bytes x b (n1 + n2) = get_bytes x b n1 ++ get_bytes x (b + n1) n2.
Proof.
  intros Hb H1 H2. unfold get_bytes. destruct (is_sys x).
  - rewrite ztake_add by lia. f_equal. by rewrite zdrop_zdrop by lia.
  - rewrite Z2Nat.inj_add by lia. rewrite bytes_at_app. by rewrite Z2Nat.id by lia.
Qed.

Lemma get_bytes_0 x a : get_bytes x a 0 = [].
Proof. unfold get_bytes. by destruct (is_sys x). Qed.

Lemma get_bytes_advance x k a n : get_bytes (advance k x) a n = get_bytes x a n.
Proof. done. Qed.

(** Two transfers in a row. *)
Lemma moved_app x b l xs ys :
  xok x b l -> zlen xs + zlen ys <= l ->
  advance (zlen ys) (moved (b + zlen xs) ys (advance (zlen xs) (moved b xs x))) =
  advance (zlen (xs ++ ys)) (moved b (xs ++ ys) x).
Proof.
  intros [Hiov Hb Hres Hoff Hsp Hk Hu] Hl.
  unfold moved at 1. change (uio_dir (xu (advance (zlen xs) (moved b xs x)))) with (uio_dir (xu (moved b xs x))).
  rewrite xu_moved. rewrite zlen_app. unfold moved. destruct (uio_dir (xu x)) eqn:Hd.
  - assert (is_sys (advance (zlen xs) (put_bytes b xs x)) = is_sys x) as Hs by (rewrite is_sys_advance; apply is_sys_put).
    unfold put_bytes at 1. rewrite Hs. unfold put_bytes. destruct (is_sys x) eqn:Hsy; apply xfer_eq; simpl; try done.
    + rewrite Hiov. f_equal; [f_equal; f_equal; lia|lia|lia].
    + specialize (Hk eq_refl). apply zsplice_app; lia.
    + rewrite Hiov. f_equal; [f_equal; f_equal; lia|lia|lia].
    + f_equal. apply set_bytes_app.
  - apply xfer_eq; simpl; try done. rewrite Hiov. f_equal; [f_equal; f_equal; lia|lia|lia].
Qed.

(** Memory that was mapped is after a transfer. *)
Definition still_mapped (x x' : xfer) : Prop :=
  is_sys x' = is_sys x /\ forall a, is_Some (um (us x) !! a) -> is_Some (um (us x') !! a).

Lemma set_bytes_still m a bs y : is_Some (m !! y) -> is_Some (set_bytes m a bs !! y).
Proof.
  revert m a. induction bs as [|c bs IH]; intros m a H; cbn [set_bytes]; [done|]. apply IH.
  rewrite lookup_insert. by case_decide.
Qed.

Lemma still_mapped_moved x b bs n : still_mapped x (advance n (moved b bs x)).
Proof.
  unfold still_mapped, moved. destruct (uio_dir (xu x)); [|done]. rewrite is_sys_advance, is_sys_put. split; [done|].
  intros a Ha. simpl. unfold put_bytes. destruct (is_sys x); [done|]. simpl. by apply set_bytes_still.
Qed.

Lemma reach_part x x' b n k m : still_mapped x x' -> 0 <= k -> 0 <= m -> k + m <= n -> reach x b n -> reach x' (b + k) m.
Proof.
  intros [Hs Hm] Hk Hm0 Hle [?|[?|[[H0 Ht] Hmap]]]; unfold reach; rewrite Hs; [by left|right; left; lia|right].
  destruct (decide (m = 0)); [by left|right]. split; [split; lia|]. intros i Hi. apply Hm.
  rewrite <- Z.add_assoc. apply Hmap. lia.
Qed.

Lemma reach_le x b n m : 0 <= m <= n -> reach x b n -> reach x b m.
Proof. intros Hle H. rewrite <- (Z.add_0_r b). by apply (reach_part x x b n 0 m); [|lia..|]. Qed.

(** A transfer that stopped with [EFAULT] after [k] bytes of [n]. *)
Definition stopped (x x' : xfer) (b l n : Z) : Prop :=
  ~ reach x b n /\ exists k, 0 <= k <= n /\ xok x' (b + k) (l - k) /\ xu x' = xu (advance k x).

Lemma uiomovezeros_loop_spec (fuel : nat) x b l n :
  xok x b l -> uio_dir (xu x) = UIO_READ -> 0 <= n <= uio_resid (xu x) -> n <= Z.of_nat fuel ->
  runs (uiomovezeros_loop fuel n x)
    (fun _ x' => x' = advance n (put_bytes b (zrep n 0) x))
    (fun e x' => e = EFAULT /\ stopped x x' b l n).
Proof.
  revert x b l n. induction fuel as [|f IH]; intros x b l n Hx Hd Hn Hf; cbn [uiomovezeros_loop].
  { assert (n = 0) as -> by lia. simpl. pose proof (moved_nil x b l Hx) as Hm. unfold moved in Hm. rewrite Hd in Hm.
    change (zrep 0 0) with (@nil Z). by rewrite Hm, (advance_0 x b l). }
  destruct (Z.ltb_spec 0 n) as [Hpos|].
  2: { assert (n = 0) as -> by lia. runs_steps. pose proof (moved_nil x b l Hx) as Hm. unfold moved in Hm. rewrite Hd in Hm.
    change (zrep 0 0) with (@nil Z). by rewrite Hm, (advance_0 x b l). }
  set (amt := if n <? 16 then n else 16).
  assert (1 <= amt <= n) as Ha by (subst amt; destruct (Z.ltb_spec n 16); lia).
  assert (zlen (zrep amt 0) = amt) as Hz by (apply zlen_zrep; lia).
  runs_steps. eapply runs_mono; [eapply (uiomove_spec x b l); [done|lia]|..]; cbv beta; rewrite ?Hz.
  - intros r x1 (_ & Hx1 & _). subst x1. set (x1 := advance amt (moved b (zrep amt 0) x)).
    pose proof (xo_resid _ _ _ Hx) as Hres.
    assert (xok x1 (b + amt) (l - amt)) as Hx1.
    { apply xok_advance; [apply xok_moved; [done|lia]|]. rewrite xu_moved. lia. }
    eapply runs_mono; [eapply (IH x1 (b + amt) (l - amt) (n - amt) Hx1)|..]; cbv beta; simpl; rewrite ?xu_moved; try done; try lia.
    + intros [] x' ->. pose proof (moved_app x b l (zrep amt 0) (zrep (n - amt) 0) Hx) as Hm.
      rewrite Hz, zlen_app, Hz, zlen_zrep in Hm by lia. specialize (Hm ltac:(lia)). fold x1 in Hm.
      unfold moved in Hm at 1 2. rewrite Hd in Hm.
      assert (uio_dir (xu x1) = UIO_READ) as Hd1 by (simpl; by rewrite xu_moved). rewrite Hd1 in Hm. rewrite Hm.
      replace (amt + (n - amt)) with n by lia. f_equal. f_equal. unfold zrep.
      rewrite <- replicate_add. f_equal. lia.
    + intros e x' (-> & Hs & k & Hk & Hxk & Hxu). split; [done|]. split.
      { intros Hr. apply Hs. by apply (reach_part x x1 b n amt); [apply still_mapped_moved|lia..|]. }
      exists (amt + k). split_and!; [lia|lia| |].
      * by replace (b + (amt + k)) with (b + amt + k) by lia; replace (l - (amt + k)) with (l - amt - k) by lia.
      * rewrite Hxu. simpl. rewrite xu_moved, (xo_iov _ _ _ Hx). f_equal; [f_equal; f_equal; lia|lia|lia].
  - intros e x' (-> & Hnr & Hfl). split; [done|]. pose proof Hfl as (E1 & _). split; [contradict Hnr; by apply (reach_le _ _ n); [lia|]|].
    exists 0. rewrite Z.add_0_r, Z.sub_0_r, (advance_0 x b l) by done. split_and!; [lia|lia|by eapply xok_faulted|done].
Qed.
End Uio.
