(* ===== verification/Vfs.v ===== *)
(** * The virtual file system: src/vfs/vfslist.c, vfslookup.c, vfspath.c, vfscwd.c

    [Vfs] models the device table, the translation of path names, the current
    directory and the path operations.  The file systems and device drivers
    behind the function tables of src/include/vnode.h and src/include/fs.h are
    the interface [FileSystems]: its operations, and what the VFS layer relies
    on, stated with the references the clients of the file systems hold.  The
    device vnodes of src/vfs/device.c discharge it in [DevVnode]. *)

From stdpp Require Import gmultiset.
From S2P Require Import Prelude Copyinout Uio.
Import Copyinout Uio.

Module Vfs.

(** A C string, without its NUL. *)
Definition name := list Z.
Definition COLON : Z := 58.
Definition SLASH : Z := 47.
Definition RAW : name := [114; 97; 119].

Definition NAME_MAX : Z := 255.
Definition O_RDONLY : Z := 0.
Definition O_WRONLY : Z := 1.
Definition O_RDWR : Z := 2.
Definition O_CREAT : Z := 4.
Definition O_EXCL : Z := 8.
Definition O_TRUNC : Z := 16.
Definition O_APPEND : Z := 32.
Definition O_ACCMODE : Z := 3.
Definition S_IFREG : Z := 0x1000.
Definition S_IFDIR : Z := 0x2000.
Definition S_IFCHR : Z := 0x6000.
Definition S_IFBLK : Z := 0x7000.

Definition has_flag (flags f : Z) : bool := negb (Z.land flags f =? 0).

(** ** What is behind the function tables *)

(** The vnode operations that hand nothing back. *)
Inductive request :=
  | Open (flags : Z)
  | Truncate (len : Z)
  | Symlink (n contents : name)
  | Mkdir (n : name) (mode : Z)
  | Link (n : name) (file : Z)
  | Remove (n : name)
  | Rmdir (n : name)
  | Rename (n1 : name) (dir2 : Z) (n2 : name).

Definition also (r : request) : list Z :=
  match r with Link _ v | Rename _ v _ => [v] | _ => [] end.

(** A uio that is ready for more. *)
Definition uio_ready (x : xfer) : Prop := (exists b l, xok x b l) /\ uio_dir (xu x) = UIO_READ.

(** [fs_ok f R O]: the state [f] is sound and its clients hold the references
    [R] and the open references [O] (a reference whose vnode was also counted
    as open).  A vnode may be used by who holds a reference to it. *)
Class FileSystems (F : Type) := {
  vn_fs : F -> Z -> option Z;
  vop : Z -> request -> M F unit;
  vop_gettype : Z -> M F Z;
  vop_lookup : Z -> name -> M F Z;
  vop_lookparent : Z -> name -> Z -> M F (Z * name);
  vop_creat : Z -> name -> bool -> Z -> M F Z;
  vop_readlink : Z -> M (F * xfer) unit;
  vop_namefile : Z -> M (F * xfer) unit;
  vnode_incref : Z -> M F unit;
  vnode_decref : Z -> M F unit;
  vnode_incopen : Z -> M F unit;
  vnode_decopen : Z -> M F unit;
  fsop_sync : Z -> M F unit;
  fsop_getvolname : F -> Z -> option name;
  fsop_getroot : Z -> M F Z;
  fsop_unmount : Z -> M F unit;
  (** [None]: no memory.  The device may be NULL. *)
  dev_create_vnode : option Z -> M F (option Z);
  (** [kfree] of a vnode *)
  free_vnode : Z -> M F unit;

  fs_ok : F -> gmultiset Z -> gmultiset Z -> Prop;
  mounted : F -> Z -> Prop;

  (** What stays as it was: the file system of the vnodes in use, and what is
      mounted. *)
  keeps (f : F) (U : gmultiset Z) (f' : F) : Prop :=
    (forall v, v ∈ U -> vn_fs f' v = vn_fs f v) /\ (forall x, mounted f x -> mounted f' x);

  vn_mounted f R O v x : fs_ok f R O -> v ∈ R ⊎ O -> vn_fs f v = Some x -> mounted f x;
  vop_ok f R O v r : fs_ok f R O -> v ∈ R ⊎ O -> Forall (fun w => w ∈ R ⊎ O) (also r) ->
    runs (vop v r f) (fun _ f' => fs_ok f' R O /\ keeps f (R ⊎ O) f') (fun _ f' => fs_ok f' R O /\ keeps f (R ⊎ O) f');
  gettype_ok f R O v : fs_ok f R O -> v ∈ R ⊎ O ->
    runs (vop_gettype v f) (fun t f' => (fs_ok f' R O /\ keeps f (R ⊎ O) f') /\ (t = S_IFDIR -> vn_fs f' v <> None))
      (fun _ f' => fs_ok f' R O /\ keeps f (R ⊎ O) f');
  lookup_ok f R O v p : fs_ok f R O -> v ∈ R ⊎ O ->
    runs (vop_lookup v p f) (fun w f' => fs_ok f' (R ⊎ {[+ w +]}) O /\ keeps f (R ⊎ O) f')
      (fun _ f' => fs_ok f' R O /\ keeps f (R ⊎ O) f');
  lookparent_ok f R O v p n : fs_ok f R O -> v ∈ R ⊎ O ->
    runs (vop_lookparent v p n f) (fun w f' => fs_ok f' (R ⊎ {[+ fst w +]}) O /\ keeps f (R ⊎ O) f')
      (fun _ f' => fs_ok f' R O /\ keeps f (R ⊎ O) f');
  creat_ok f R O v p x m : fs_ok f R O -> v ∈ R ⊎ O ->
    runs (vop_creat v p x m f) (fun w f' => fs_ok f' (R ⊎ {[+ w +]}) O /\ keeps f (R ⊎ O) f')
      (fun _ f' => fs_ok f' R O /\ keeps f (R ⊎ O) f');
  readlink_ok f R O v x : fs_ok f R O -> v ∈ R ⊎ O -> uio_ready x ->
    runs (vop_readlink v (f, x)) (fun _ s => fs_ok (fst s) R O /\ keeps f (R ⊎ O) (fst s))
      (fun _ s => fs_ok (fst s) R O /\ keeps f (R ⊎ O) (fst s));
  namefile_ok f R O v x : fs_ok f R O -> v ∈ R ⊎ O -> uio_ready x ->
    runs (vop_namefile v (f, x)) (fun _ s => fs_ok (fst s) R O /\ keeps f (R ⊎ O) (fst s))
      (fun _ s => fs_ok (fst s) R O /\ keeps f (R ⊎ O) (fst s));
  incref_ok f R O v : fs_ok f R O -> v ∈ R ⊎ O ->
    returns (vnode_incref v f) (fun _ f' => fs_ok f' (R ⊎ {[+ v +]}) O /\ keeps f (R ⊎ O) f');
  decref_ok f R O v : fs_ok f (R ⊎ {[+ v +]}) O ->
    returns (vnode_decref v f) (fun _ f' => fs_ok f' R O /\ keeps f (R ⊎ O) f');
  incopen_ok f R O v : fs_ok f (R ⊎ {[+ v +]}) O ->
    returns (vnode_incopen v f) (fun _ f' => fs_ok f' R (O ⊎ {[+ v +]}) /\ keeps f (R ⊎ O ⊎ {[+ v +]}) f');
  decopen_ok f R O v : fs_ok f R (O ⊎ {[+ v +]}) ->
    returns (vnode_decopen v f) (fun _ f' => fs_ok f' (R ⊎ {[+ v +]}) O /\ keeps f (R ⊎ O ⊎ {[+ v +]}) f');
  sync_ok f R O x : fs_ok f R O -> mounted f x ->
    runs (fsop_sync x f) (fun _ f' => fs_ok f' R O /\ keeps f (R ⊎ O) f') (fun _ f' => fs_ok f' R O /\ keeps f (R ⊎ O) f');
  getroot_ok f R O x : fs_ok f R O -> mounted f x ->
    returns (fsop_getroot x f) (fun v f' => fs_ok f' (R ⊎ {[+ v +]}) O /\ keeps f (R ⊎ O) f');
  (** A file system in use cannot be unmounted. *)
  unmount_ok f R O x : fs_ok f R O -> mounted f x ->
    runs (fsop_unmount x f)
      (fun _ f' => fs_ok f' R O /\ (forall v, v ∈ R ⊎ O -> vn_fs f' v = vn_fs f v) /\
        (forall y, y <> x -> mounted f y -> mounted f' y))
      (fun _ f' => fs_ok f' R O /\ keeps f (R ⊎ O) f');
  (** The vnode of no device is of no use; a new vnode can be freed again. *)
  dev_create_ok f R O d : fs_ok f R O ->
    returns (dev_create_vnode d f) (fun o f' => keeps f (R ⊎ O) f' /\
      fs_ok f' (R ⊎ match o, d with Some v, Some _ => {[+ v +]} | _, _ => ∅ end) O /\
      forall v, o = Some v -> returns (free_vnode v f') (fun _ f'' => fs_ok f'' R O /\ keeps f (R ⊎ O) f'')) }.

(** ** The device table (vfslist.c) *)

Record knowndev := mkKd {
  kd_name : name; kd_rawname : option name; kd_device : option Z; kd_vnode : Z; kd_fs : option Z }.

Definition with_fs (x : option Z) (kd : knowndev) :=
  mkKd (kd_name kd) (kd_rawname kd) (kd_device kd) (kd_vnode kd) x.

Definition streq (a b : name) : bool := bool_decide (a = b).
Definition is_null {A} (o : option A) : bool := match o with None => true | Some _ => false end.

Section Vfs.
Context {F : Type} `{!FileSystems F}.

(** The variables of the VFS layer, with the current process's directory;
    [oracle] says which allocations succeed (an exhausted one: all), and
    [blocks] counts the blocks of memory in use. *)
Record vfs := mkVfs {
  vs_fs : F; knowndevs : list knowndev; d_devnumber : gmap Z Z;
  bootfs_vnode : option Z; p_cwd : option Z;
  vfs_biglock_depth : Z; oracle : list bool; blocks : Z }.

Definition put_fs (x : F) (s : vfs) := mkVfs x (knowndevs s) (d_devnumber s) (bootfs_vnode s) (p_cwd s) (vfs_biglock_depth s) (oracle s) (blocks s).
Definition put_devs (x : list knowndev) (s : vfs) := mkVfs (vs_fs s) x (d_devnumber s) (bootfs_vnode s) (p_cwd s) (vfs_biglock_depth s) (oracle s) (blocks s).
Definition put_number (x : gmap Z Z) (s : vfs) := mkVfs (vs_fs s) (knowndevs s) x (bootfs_vnode s) (p_cwd s) (vfs_biglock_depth s) (oracle s) (blocks s).
Definition put_bootfs (x : option Z) (s : vfs) := mkVfs (vs_fs s) (knowndevs s) (d_devnumber s) x (p_cwd s) (vfs_biglock_depth s) (oracle s) (blocks s).
Definition put_cwd (x : option Z) (s : vfs) := mkVfs (vs_fs s) (knowndevs s) (d_devnumber s) (bootfs_vnode s) x (vfs_biglock_depth s) (oracle s) (blocks s).
Definition put_depth (x : Z) (s : vfs) := mkVfs (vs_fs s) (knowndevs s) (d_devnumber s) (bootfs_vnode s) (p_cwd s) x (oracle s) (blocks s).
Definition put_mem (o : list bool) (x : Z) (s : vfs) := mkVfs (vs_fs s) (knowndevs s) (d_devnumber s) (bootfs_vnode s) (p_cwd s) (vfs_biglock_depth s) o x.

Definition on_fs {A} (m : M F A) : M vfs A := zoom vs_fs put_fs m.
Definition lift {A} (m : M vfs A) : M (vfs * xfer) A := zoom fst (fun s t => (s, snd t)) m.
Definition lift_x {A} (m : M xfer A) : M (vfs * xfer) A := zoom snd (fun x t => (fst t, x)) m.
Definition on_fs_x {A} (m : M (F * xfer) A) : M (vfs * xfer) A :=
  zoom (fun t => (vs_fs (fst t), snd t)) (fun t t0 => (put_fs (fst t) (fst t0), snd t)) m.

Definition VOP_INCREF (v : Z) := on_fs (vnode_incref v).
Definition VOP_DECREF (v : Z) := on_fs (vnode_decref v).

(** Memory: does this allocation succeed? *)
Definition kmalloc : M vfs bool :=
  let* s := get in
  let ok := match oracle s with [] => true | b :: _ => b end in
  modify (fun s => put_mem (tail (oracle s)) (if ok then blocks s + 1 else blocks s) s) ;;
  ret ok.
Definition kfree : M vfs unit := modify (fun s => put_mem (oracle s) (blocks s - 1) s).

(** The big lock, as its holder sees it. *)
Definition vfs_biglock_acquire : M vfs unit := modify (fun s => put_depth (u32 (vfs_biglock_depth s + 1)) s).
Definition vfs_biglock_release : M vfs unit :=
  let* s := get in
  KASSERT (0 <? vfs_biglock_depth s) ;;
  modify (put_depth (vfs_biglock_depth s - 1)).
Definition vfs_biglock_do_i_hold (s : vfs) : bool := 0 <? vfs_biglock_depth s.

(** [m] under the lock, which is released on every way out. *)
Definition locked {A} (m : M vfs A) : M vfs A :=
  vfs_biglock_acquire ;;
  let* r := try m in
  vfs_biglock_release ;;
  match r with inl a => ret a | inr e => err e end.

Fixpoint sync_loop (l : list knowndev) : M vfs unit :=
  match l with
  | [] => ret tt
  | dev :: l' =>
      match kd_fs dev with
      | Some fs => let* _ := try (on_fs (fsop_sync fs)) in ret tt
      | None => ret tt
      end ;;
      sync_loop l'
  end.

Definition vfs_sync : M vfs unit := locked (let* s := get in sync_loop (knowndevs s)).

Fixpoint getroot_loop (l : list knowndev) (devname : name) : M vfs Z :=
  match l with
  | [] => err ENODEV
  | kd :: l' =>
      let* s := get in
      let the_device :=
        if streq (kd_name kd) devname then
          KASSERT (is_null (kd_fs kd)) ;;
          KASSERT (is_null (kd_rawname kd)) ;;
          KASSERT (negb (is_null (kd_device kd))) ;;
          VOP_INCREF (kd_vnode kd) ;;
          ret (kd_vnode kd)
        else
          match kd_rawname kd with
          | Some raw =>
              if streq raw devname then
                KASSERT (negb (is_null (kd_device kd))) ;;
                VOP_INCREF (kd_vnode kd) ;;
                ret (kd_vnode kd)
              else getroot_loop l' devname
          | None => getroot_loop l' devname
          end in
      match kd_fs kd with
      | Some fs =>
          if streq (kd_name kd) devname ||
             match fsop_getvolname (vs_fs s) fs with Some volname => streq volname devname | None => false end
          then on_fs (fsop_getroot fs)
          else the_device
      | None =>
          if negb (is_null (kd_rawname kd)) && streq (kd_name kd) devname then err ENXIO
          else the_device
      end
  end.

Definition vfs_getroot (devname : name) : M vfs Z :=
  let* s := get in
  KASSERT (vfs_biglock_do_i_hold s) ;;
  getroot_loop (knowndevs s) devname.

Fixpoint devname_loop (l : list knowndev) (fs : Z) : option name :=
  match l with
  | [] => None
  | kd :: l' => if bool_decide (kd_fs kd = Some fs) then Some (kd_name kd) else devname_loop l' fs
  end.

Definition vfs_getdevname (fs : Z) : M vfs (option name) :=
  let* s := get in
  KASSERT (vfs_biglock_do_i_hold s) ;;
  ret (devname_loop (knowndevs s) fs).

Definition mkrawname (n : name) : M vfs (option name) :=
  let* ok := kmalloc in
  if negb ok then ret None else ret (Some (n ++ RAW)).

Definition samestring (a b : option name) : bool :=
  match a, b with Some a, Some b => streq a b | _, _ => false end.
Definition samestring3 (a b c d : option name) : bool := samestring a b || samestring a c || samestring a d.

Fixpoint badnames_loop (f : F) (l : list knowndev) (n1 n2 n3 : option name) : bool :=
  match l with
  | [] => false
  | kd :: l' =>
      if match kd_fs kd with Some fs => samestring3 (fsop_getvolname f fs) n1 n2 n3 | None => false end then true
      else if samestring3 (kd_rawname kd) n1 n2 n3 || samestring3 (Some (kd_name kd)) n1 n2 n3 then true
      else badnames_loop f l' n1 n2 n3
  end.

Definition badnames (n1 n2 n3 : option name) : M vfs bool :=
  let* s := get in
  KASSERT (vfs_biglock_do_i_hold s) ;;
  ret (badnames_loop (vs_fs s) (knowndevs s) n1 n2 n3).

(** The index; [array_add] allocates when the array is full, here whenever the
    oracle says. *)
Definition knowndevarray_add (kd : knowndev) : M vfs Z :=
  let* s := get in
  let ok := match oracle s with [] => true | b :: _ => b end in
  modify (fun s => put_mem (tail (oracle s)) (blocks s) s) ;;
  if ok then
    modify (put_devs (knowndevs s ++ [kd])) ;;
    ret (zlen (knowndevs s))
  else err ENOMEM.

(** [goto nomem]: what was allocated so far is freed. *)
Definition nomem {A} (name rawname : bool) (vnode : option Z) : M vfs A :=
  (if* name then kfree) ;;
  (if* rawname then kfree) ;;
  match vnode with Some v => on_fs (free_vnode v) | None => ret tt end ;;
  err ENOMEM.

(** [vfs_doadd] with its names allocated.  A device that is turned down with
    EEXIST, or does not fit in the table, keeps its memory and its vnode. *)
Definition doadd_named (dname : name) (mountable : bool) (rawname : option name) (dev fs : option Z) : M vfs unit :=
  let* vnode := on_fs (dev_create_vnode dev) in
  match vnode with
  | None => nomem true mountable None
  | Some v =>
      let* kd_ok := kmalloc in
      if negb kd_ok then nomem true mountable (Some v)
      else
        let kd := mkKd dname rawname dev v fs in
        let* s := get in
        let volname := match fs with Some x => fsop_getvolname (vs_fs s) x | None => None end in
        let* bad := badnames (Some dname) rawname volname in
        if bad then err EEXIST
        else
          let* index := knowndevarray_add kd in
          match dev with
          | Some d => modify (fun s => put_number (<[d := index + 1]> (d_devnumber s)) s)
          | None => ret tt
          end
  end.

Definition vfs_doadd (dname : name) (mountable : bool) (dev : option Z) (fs : option Z) : M vfs unit :=
  locked (
    let* name_ok := kmalloc in
    if negb name_ok then nomem false false None
    else
      let* rawname := (if mountable then mkrawname dname else ret None) in
      if mountable && is_null rawname then nomem true false None
      else doadd_named dname mountable rawname dev fs).

Definition vfs_adddev (devname : name) (dev : Z) (mountable : bool) : M vfs unit := vfs_doadd devname mountable (Some dev) None.
Definition vfs_addfs (devname : name) (fs : Z) : M vfs unit := vfs_doadd devname false None (Some fs).

(** [devnull_create] of src/vfs/devnull.c, with the number the device gets. *)
Definition NULL_NAME : name := [110; 117; 108; 108].
Definition devnull_create (dev : Z) : M vfs unit :=
  let* ok := kmalloc in
  if negb ok then panic
  else
    let* r := try (vfs_adddev NULL_NAME dev false) in
    match r with inl _ => ret tt | inr _ => panic end.

(** The array, the lock, and the null device. *)
Definition vfs_bootstrap (dev : Z) : M vfs unit :=
  let* ok := kmalloc in
  if negb ok then panic
  else
    let* ok := kmalloc in
    if negb ok then panic
    else
      modify (put_devs []) ;;
      modify (put_depth 0) ;;
      devnull_create dev.

(** The index of the device found. *)
Fixpoint findmount_loop (l : list knowndev) (i : Z) (devname : name) : option (Z * knowndev) :=
  match l with
  | [] => None
  | dev :: l' =>
      if negb (is_null (kd_rawname dev)) && streq devname (kd_name dev) then Some (i, dev)
      else findmount_loop l' (i + 1) devname
  end.

Definition findmount (devname : name) : M vfs (Z * knowndev) :=
  let* s := get in
  KASSERT (vfs_biglock_do_i_hold s) ;;
  match findmount_loop (knowndevs s) 0 devname with
  | Some r => ret r
  | None => err ENODEV
  end.

Definition set_fs (i : Z) (kd : knowndev) (x : option Z) : M vfs unit :=
  modify (fun s => put_devs (zinsert (knowndevs s) i (with_fs x kd)) s).

(** [mountfunc] of the device gives the file system. *)
Definition vfs_mount (devname : name) (mountfunc : Z -> M F Z) : M vfs unit :=
  locked (
    let* '(i, kd) := findmount devname in
    if negb (is_null (kd_fs kd)) then err EBUSY
    else
      KASSERT (negb (is_null (kd_rawname kd))) ;;
      match kd_device kd with
      | None => panic
      | Some d =>
          let* fs := on_fs (mountfunc d) in
          set_fs i kd (Some fs)
      end).

Definition vfs_unmount (devname : name) : M vfs unit :=
  locked (
    let* '(i, kd) := findmount devname in
    match kd_fs kd with
    | None => err EINVAL
    | Some fs =>
        KASSERT (negb (is_null (kd_rawname kd))) ;;
        KASSERT (negb (is_null (kd_device kd))) ;;
        on_fs (fsop_sync fs) ;;
        on_fs (fsop_unmount fs) ;;
        set_fs i kd None
    end).

(** [n] devices are left, from index [i]. *)
Fixpoint unmountall_loop (n : nat) (i : Z) : M vfs unit :=
  match n with
  | O => ret tt
  | S n' =>
      let* s := get in
      let* dev := of_option Wild (zlookup (knowndevs s) i) in
      match kd_rawname dev, kd_fs dev with
      | Some _, Some fs =>
          let* r := try (on_fs (fsop_sync fs)) in
          let* r := match r with inl _ => ret r | inr _ => try (on_fs (fsop_sync fs)) end in
          match r with
          | inr _ => ret tt
          | inl _ =>
              let* r := try (on_fs (fsop_unmount fs)) in
              match r with inr _ => ret tt | inl _ => set_fs i dev None end
          end
      | _, _ => ret tt
      end ;;
      unmountall_loop n' (i + 1)
  end.

Definition vfs_unmountall : M vfs unit :=
  locked (let* s := get in unmountall_loop (length (knowndevs s)) 0).

(** ** The current directory (vfscwd.c) *)

Definition vfs_getcurdir : M vfs Z :=
  let* s := get in
  match p_cwd s with
  | Some v => VOP_INCREF v ;; ret v
  | None => err ENOENT
  end.

Definition vfs_setcurdir (dir : Z) : M vfs unit :=
  let* vtype := on_fs (vop_gettype dir) in
  if negb (vtype =? S_IFDIR) then err ENOTDIR
  else
    VOP_INCREF dir ;;
    let* s := get in
    modify (put_cwd (Some dir)) ;;
    match p_cwd s with Some old => VOP_DECREF old | None => ret tt end.

Definition vfs_clearcurdir : M vfs unit :=
  let* s := get in
  modify (put_cwd None) ;;
  match p_cwd s with Some old => VOP_DECREF old | None => ret tt end.

(** ** Path names (vfslookup.c) *)

(** The places of the first slash and the first colon, whichever is first. *)
Fixpoint find_sep (path : name) (i : Z) : Z * Z :=
  match path with
  | [] => (-1, -1)
  | c :: path' => if c =? COLON then (-1, i) else if c =? SLASH then (i, -1) else find_sep path' (i + 1)
  end.

Fixpoint skip_slashes (path : name) : name :=
  match path with c :: path' => if c =? SLASH then skip_slashes path' else path | [] => [] end.

(** The rest of the path, and the vnode to start from. *)
Definition start_at (path : name) (slash colon : Z) : M vfs (name * Z) :=
  if (colon <? 0) && negb (slash =? 0) then
    let* startvn := vfs_getcurdir in
    ret (path, startvn)
  else if 0 <? colon then
    let* startvn := vfs_getroot (ztake colon path) in
    ret (skip_slashes (zdrop (colon + 1) path), startvn)
  else
    KASSERT ((colon =? 0) || (slash =? 0)) ;;
    let* s := get in
    let* startvn :=
      (if bool_decide (zlookup path 0 = Some SLASH) then
         match bootfs_vnode s with
         | None => err ENOENT
         | Some b => VOP_INCREF b ;; ret b
         end
       else
         KASSERT (bool_decide (zlookup path 0 = Some COLON)) ;;
         let* vn := vfs_getcurdir in
         let* s := get in
         match vn_fs (vs_fs s) vn with
         | None => panic
         | Some fs =>
             let* startvn := on_fs (fsop_getroot fs) in
             VOP_DECREF vn ;;
             ret startvn
         end) in
    ret (skip_slashes (zdrop 1 path), startvn).

Definition getdevice (path : name) : M vfs (name * Z) :=
  let* s := get in
  KASSERT (vfs_biglock_do_i_hold s) ;;
  let '(slash, colon) := find_sep path 0 in
  start_at path slash colon.

Definition vfs_lookparent (path : name) (buflen : Z) : M vfs (Z * name) :=
  locked (
    let* '(path, startvn) := getdevice path in
    let* r := (if zlen path =? 0 then ret (inr EINVAL) else try (on_fs (vop_lookparent startvn path buflen))) in
    VOP_DECREF startvn ;;
    match r with inl a => ret a | inr e => err e end).

Definition vfs_lookup (path : name) : M vfs Z :=
  locked (
    let* '(path, startvn) := getdevice path in
    if zlen path =? 0 then ret startvn
    else
      let* r := try (on_fs (vop_lookup startvn path)) in
      VOP_DECREF startvn ;;
      match r with inl a => ret a | inr e => err e end).

Definition vfs_chdir (path : name) : M vfs unit :=
  let* vn := vfs_lookup path in
  let* r := try (vfs_setcurdir vn) in
  VOP_DECREF vn ;;
  match r with inl a => ret a | inr e => err e end.

Definition vfs_getcwd : M (vfs * xfer) unit :=
  let* t := get in
  KASSERT (bool_decide (uio_dir (xu (snd t)) = UIO_READ)) ;;
  let* cwd := lift vfs_getcurdir in
  let* t := get in
  match vn_fs (vs_fs (fst t)) cwd with
  | None => panic
  | Some fs =>
      let* volname :=
        (match fsop_getvolname (vs_fs (fst t)) fs with
         | Some n => ret (Some n)
         | None =>
             lift vfs_biglock_acquire ;;
             let* n := lift (vfs_getdevname fs) in
             lift vfs_biglock_release ;;
             ret n
         end) in
      let* n := of_option Panicked volname in
      let* r := try (
        let* _ := lift_x (uiomove n) in
        let* _ := lift_x (uiomove [COLON]) in
        on_fs_x (vop_namefile cwd)) in
      lift (VOP_DECREF cwd) ;;
      match r with inl a => ret a | inr e => err e end
  end.

Definition change_bootfs (newvn : option Z) : M vfs unit :=
  let* s := get in
  modify (put_bootfs newvn) ;;
  match bootfs_vnode s with Some old => VOP_DECREF old | None => ret tt end.

(** [snprintf] leaves at most [NAME_MAX - 1] characters of the name. *)
Definition vfs_setbootfs (fsname : name) : M vfs unit :=
  locked (
    let tmp := ztake (NAME_MAX - 1) fsname in
    if bool_decide (COLON ∈ tmp) then err EINVAL
    else
      vfs_chdir (tmp ++ [COLON]) ;;
      let* newguy := vfs_getcurdir in
      change_bootfs (Some newguy)).

Definition vfs_clearbootfs : M vfs unit := locked (change_bootfs None).

(** ** The path operations (vfspath.c) *)

Definition vfs_open (path : name) (openflags mode : Z) : M vfs Z :=
  let how := Z.land openflags O_ACCMODE in
  if negb ((how =? O_RDONLY) || (how =? O_WRONLY) || (how =? O_RDWR)) then err EINVAL
  else
    let canwrite := negb (how =? O_RDONLY) in
    let* vn :=
      (if has_flag openflags O_CREAT then
         let* '(dir, n) := vfs_lookparent path (NAME_MAX + 1) in
         let* r := try (on_fs (vop_creat dir n (has_flag openflags O_EXCL) mode)) in
         VOP_DECREF dir ;;
         match r with inl a => ret a | inr e => err e end
       else vfs_lookup path) in
    let* r := try (on_fs (vop vn (Open openflags))) in
    match r with
    | inr e => VOP_DECREF vn ;; err e
    | inl _ =>
        on_fs (vnode_incopen vn) ;;
        if has_flag openflags O_TRUNC then
          let* r := (if negb canwrite then ret (inr EINVAL) else try (on_fs (vop vn (Truncate 0)))) in
          match r with
          | inr e => on_fs (vnode_decopen vn) ;; VOP_DECREF vn ;; err e
          | inl _ => ret vn
          end
        else ret vn
    end.

Definition vfs_close (vn : Z) : M vfs unit := on_fs (vnode_decopen vn) ;; VOP_DECREF vn.

(** Find the parent, do [r] to it, and let it go. *)
Definition in_parent (path : name) (r : name -> request) : M vfs unit :=
  let* '(dir, n) := vfs_lookparent path (NAME_MAX + 1) in
  let* res := try (on_fs (vop dir (r n))) in
  VOP_DECREF dir ;;
  match res with inl _ => ret tt | inr e => err e end.

Definition vfs_remove (path : name) : M vfs unit := in_parent path Remove.
Definition vfs_symlink (contents path : name) : M vfs unit := in_parent path (fun n => Symlink n contents).
Definition vfs_mkdir (path : name) (mode : Z) : M vfs unit := in_parent path (fun n => Mkdir n mode).
Definition vfs_rmdir (path : name) : M vfs unit := in_parent path Rmdir.

(** The request [r] on two vnodes [first] and [newdir] of one file system. *)
Definition across (first newdir : Z) (target : Z) (r : request) : M vfs unit :=
  let* s := get in
  if is_null (vn_fs (vs_fs s) first) || is_null (vn_fs (vs_fs s) newdir) ||
     negb (bool_decide (vn_fs (vs_fs s) first = vn_fs (vs_fs s) newdir)) then
    VOP_DECREF newdir ;;
    VOP_DECREF first ;;
    err EXDEV
  else
    let* res := try (on_fs (vop target r)) in
    VOP_DECREF newdir ;;
    VOP_DECREF first ;;
    match res with inl _ => ret tt | inr e => err e end.

Definition vfs_rename (oldpath newpath : name) : M vfs unit :=
  let* '(olddir, oldname) := vfs_lookparent oldpath (NAME_MAX + 1) in
  let* r := try (vfs_lookparent newpath (NAME_MAX + 1)) in
  match r with
  | inr e => VOP_DECREF olddir ;; err e
  | inl (newdir, newname) => across olddir newdir olddir (Rename oldname newdir newname)
  end.

Definition vfs_link (oldpath newpath : name) : M vfs unit :=
  let* oldfile := vfs_lookup oldpath in
  let* r := try (vfs_lookparent newpath (NAME_MAX + 1)) in
  match r with
  | inr e => VOP_DECREF oldfile ;; err e
  | inl (newdir, newname) => across oldfile newdir newdir (Link newname oldfile)
  end.

Definition vfs_readlink (path : name) : M (vfs * xfer) unit :=
  let* vn := lift (vfs_lookup path) in
  let* r := try (on_fs_x (vop_readlink vn)) in
  lift (VOP_DECREF vn) ;;
  match r with inl a => ret a | inr e => err e end.
End Vfs.
End Vfs.
