(* ===== verification/DevVnode.v ===== *)
(** * Device vnodes: src/vfs/device.c, src/vfs/devnull.c and src/vfs/vnode.c

    [DevVnode] models the vnodes of devices with their reference counts and
    the operations of their function table, and shows that they are what the
    VFS layer relies on: [dev_file_systems] is an instance of [FileSystems].
    The counting functions of src/vfs/vnode.c also take the recursive big lock
    for their duration, which [Vfs] and [Sfs] count. *)

From stdpp Require Import gmultiset.
From S2P Require Import Prelude Copyinout Uio Vfs.
Import Copyinout Uio Vfs.

Module DevVnode.

(** [struct device]: what the driver's functions answer (0: success), and its
    size.  [d_io] is for both directions. *)
Record device := mkDevice {
  d_open : Z -> Z; d_close : Z; d_io : M xfer unit; d_ioctl : Z -> Z; d_blocks : Z; d_blocksize : Z }.

(** [struct vnode] with [dev_vnode_ops]; [vn_data] is the device. *)
Record vnode := mkVnode { vn_refcount : Z; vn_opencount : Z; vn_data : option Z }.

Record devs := mkDevs { vnodes : gmap Z vnode; devices : Z -> device; next_vnode : Z; memory : list bool }.

Definition put_vnodes (x : gmap Z vnode) : M devs unit :=
  modify (fun f => mkDevs x (devices f) (next_vnode f) (memory f)).
Definition get_vn (v : Z) : M devs vnode := let* f := get in of_option Wild (vnodes f !! v).
Definition upd_vn (v : Z) (g : vnode -> vnode) : M devs unit :=
  let* f := get in
  let* n := of_option Wild (vnodes f !! v) in
  put_vnodes (<[v := g n]> (vnodes f)).

(** [v->vn_data] and what it points to. *)
Definition device_of (v : Z) : M devs device :=
  let* n := get_vn v in
  let* d := of_option Wild (vn_data n) in
  let* f := get in
  ret (devices f d).

(** An error code: 0 is success. *)
Definition code {S : Type} (e : Z) : M S unit := if e =? 0 then ret tt else err e.

(** ** Counts (vnode.c) *)

Definition vnode_init (data : option Z) : vnode := mkVnode 1 0 data.

Definition vnode_check (v : Z) (reclaim : bool) : M devs unit :=
  let* n := get_vn v in
  (if* vn_refcount n <? 0 then panic) ;;
  (if* (vn_refcount n =? 0) && negb reclaim then panic) ;;
  if* vn_opencount n <? 0 then panic.

Definition vnode_incref (v : Z) : M devs unit :=
  upd_vn v (fun n => mkVnode (vn_refcount n + 1) (vn_opencount n) (vn_data n)).

(** Devices are permanent. *)
Definition dev_reclaim (v : Z) : M devs unit := ret tt.

Definition vnode_decref (v : Z) : M devs unit :=
  let* n := get_vn v in
  KASSERT (0 <? vn_refcount n) ;;
  if 1 <? vn_refcount n then upd_vn v (fun n => mkVnode (vn_refcount n - 1) (vn_opencount n) (vn_data n))
  else let* _ := try (vnode_check v true ;; dev_reclaim v) in ret tt.

Definition vnode_incopen (v : Z) : M devs unit :=
  upd_vn v (fun n => mkVnode (vn_refcount n) (vn_opencount n + 1) (vn_data n)).

Definition dev_close (v : Z) : M devs unit := let* d := device_of v in code (d_close d).

Definition vnode_decopen (v : Z) : M devs unit :=
  let* n := get_vn v in
  KASSERT (0 <? vn_opencount n) ;;
  upd_vn v (fun n => mkVnode (vn_refcount n) (vn_opencount n - 1) (vn_data n)) ;;
  if 0 <? vn_opencount n - 1 then ret tt
  else let* _ := try (vnode_check v false ;; dev_close v) in ret tt.

(** ** The operations (device.c) *)

Definition dev_open (v flags : Z) : M devs unit :=
  let* d := device_of v in
  if has_flag flags (Z.lor (Z.lor O_CREAT O_TRUNC) (Z.lor O_EXCL O_APPEND)) then err EINVAL
  else code (d_open d flags).

Definition lift {A} (m : M devs A) : M (devs * xfer) A := zoom fst (fun f t => (f, snd t)) m.
Definition lift_x {A} (m : M xfer A) : M (devs * xfer) A := zoom snd (fun x t => (fst t, x)) m.

Definition dev_io (rw : uio_rw) (v : Z) : M (devs * xfer) unit :=
  let* d := lift (device_of v) in
  let* t := get in
  KASSERT (bool_decide (uio_dir (xu (snd t)) = rw)) ;;
  lift_x (d_io d).
Definition dev_read := dev_io UIO_READ.
Definition dev_write := dev_io UIO_WRITE.

Definition dev_ioctl (v op : Z) : M devs unit := let* d := device_of v in code (d_ioctl d op).

Definition dev_gettype (v : Z) : M devs Z :=
  let* d := device_of v in
  ret (if 0 <? d_blocks d then S_IFBLK else S_IFCHR).

(** [st_size], [st_blksize], [st_mode], [st_nlink], [st_blocks], [st_dev] and
    [st_rdev]; the other fields are zero.  The size is computed in 32 bits. *)
Definition dev_stat (number : Z -> Z) (v : Z) : M devs (list Z) :=
  let* d := device_of v in
  let* n := get_vn v in
  let* dev := of_option Wild (vn_data n) in
  let size := if 0 <? d_blocks d then (u32 (d_blocks d * d_blocksize d), d_blocksize d) else (0, 0) in
  vnode_check v false ;;
  let* mode := dev_gettype v in
  ret [fst size; snd size; Z.lor mode 0x180; 1; d_blocks d; 0; number dev].

Definition dev_tryseek (v pos : Z) : M devs unit :=
  let* d := device_of v in
  if 0 <? d_blocks d then
    if negb (Z.rem pos (d_blocksize d) =? 0) then err EINVAL
    else if pos <? 0 then err EINVAL
    else if d_blocks d <=? Z.quot pos (d_blocksize d) then err EINVAL
    else ret tt
  else err ESPIPE.

Definition null_fsync (v : Z) : M devs unit := ret tt.
Definition dev_mmap (v : Z) : M devs unit := err EUNIMP.

Definition dev_truncate (v len : Z) : M devs unit :=
  let* d := device_of v in
  if (0 <? d_blocks d) && (u32 (d_blocks d * d_blocksize d) =? len) then ret tt else err EINVAL.

Definition dev_namefile (v : Z) : M (devs * xfer) unit := ret tt.
Definition null_io (v : Z) : M (devs * xfer) unit := err EINVAL.
Definition null_creat (v : Z) (n : name) (excl : bool) (mode : Z) : M devs Z := err ENOTDIR.
Definition null_mkdir (v : Z) (n : name) (mode : Z) : M devs unit := err ENOTDIR.
Definition null_symlink (v : Z) (contents n : name) : M devs unit := err ENOTDIR.
Definition null_nameop (v : Z) (n : name) : M devs unit := err ENOTDIR.
Definition null_link (v : Z) (n : name) (file : Z) : M devs unit := err ENOTDIR.
Definition null_rename (v : Z) (n1 : name) (v2 : Z) (n2 : name) : M devs unit := err ENOTDIR.

Definition dev_lookup (dir : Z) (pathname : name) : M devs Z :=
  if 0 <? zlen pathname then err ENOENT
  else
    vnode_incref dir ;;
    ret dir.
Definition dev_lookparent (dir : Z) (pathname : name) (buflen : Z) : M devs (Z * name) := err ENOTDIR.

(** [dev_vnode_ops], behind [vnode_check]. *)
Definition dev_vop (v : Z) (r : request) : M devs unit :=
  vnode_check v false ;;
  match r with
  | Open flags => dev_open v flags
  | Truncate len => dev_truncate v len
  | Symlink n contents => null_symlink v contents n
  | Mkdir n mode => null_mkdir v n mode
  | Link n file => null_link v n file
  | Remove n => null_nameop v n
  | Rmdir n => null_nameop v n
  | Rename n1 v2 n2 => null_rename v n1 v2 n2
  end.

(** [None]: no memory. *)
Definition dev_create_vnode (dev : option Z) : M devs (option Z) :=
  let* f := get in
  let ok := match memory f with [] => true | b :: _ => b end in
  modify (fun f => mkDevs (vnodes f) (devices f) (next_vnode f) (tail (memory f))) ;;
  if negb ok then ret None
  else
    modify (fun f => mkDevs (<[next_vnode f := vnode_init dev]> (vnodes f)) (devices f) (next_vnode f + 1) (memory f)) ;;
    ret (Some (next_vnode f)).
Definition free_vnode (v : Z) : M devs unit := let* f := get in put_vnodes (delete v (vnodes f)).

(** ** The null device (devnull.c) *)

Definition nullopen (flags : Z) : Z := 0.
Definition nullclose : Z := 0.
Definition nullio : M xfer unit :=
  let* x := get in
  if* bool_decide (uio_dir (xu x) = UIO_WRITE) then upd_uio (with_resid 0).
Definition nullioctl (op : Z) : Z := EINVAL.
Definition null_device : device := mkDevice nullopen nullclose nullio nullioctl 0 1.

(** ** The interface *)

(** The counts of a vnode are those of the references held; with none, one is
    left over. *)
Definition vn_ok (R O : gmultiset Z) (v : Z) (n : vnode) : Prop :=
  vn_refcount n = Z.max 1 (Z.of_nat (multiplicity v (R ⊎ O))) /\
  vn_opencount n = Z.of_nat (multiplicity v O).

Record devs_ok (f : devs) (R O : gmultiset Z) : Prop := {
  do_counts : forall v n, vnodes f !! v = Some n -> vn_ok R O v n;
  do_held : forall v, v ∈ R ⊎ O -> exists n, vnodes f !! v = Some n /\ vn_data n <> None;
  do_next : forall v n, vnodes f !! v = Some n -> v < next_vnode f;
  do_io : forall d x, 0 <= uio_resid (xu x) ->
    runs (d_io (devices f d) x) (fun _ x' => 0 <= uio_resid (xu x') <= uio_resid (xu x)) (fun _ _ => True) }.

Lemma held_vnode f R O v : devs_ok f R O -> v ∈ R ⊎ O ->
  exists n d, vnodes f !! v = Some n /\ vn_data n = Some d /\ 0 < vn_refcount n /\ 0 <= vn_opencount n.
Proof.
  intros Hf Hv. destruct (do_held _ _ _ Hf v Hv) as (n & Hn & Hd). destruct (vn_data n) as [d|] eqn:Ed; [|done]. exists n, d.
  destruct (do_counts _ _ _ Hf v n Hn) as [-> ->]. split_and!; [done|done|lia|lia].
Qed.

Lemma runs_device_of f R O v (Q : device -> devs -> Prop) E : devs_ok f R O -> v ∈ R ⊎ O -> (forall i, Q (devices f i) f) -> runs (device_of v f) Q E.
Proof.
  intros Hf Hv HQ. destruct (held_vnode f R O v Hf Hv) as (n & d & Hn & Hd & _). unfold device_of, get_vn. runs_steps.
  eapply runs_of_option; [exact Hn|]. runs_steps. eapply runs_of_option; [exact Hd|]. runs_steps. apply HQ.
Qed.

Lemma runs_check f R O v (Q : unit -> devs -> Prop) E : devs_ok f R O -> v ∈ R ⊎ O -> Q tt f -> runs (vnode_check v false f) Q E.
Proof.
  intros Hf Hv HQ. destruct (held_vnode f R O v Hf Hv) as (n & d & Hn & Hd & Hr & Ho). unfold vnode_check, get_vn. runs_steps.
  eapply runs_of_option; [exact Hn|]. rewrite (proj2 (Z.ltb_ge _ _)), (proj2 (Z.eqb_neq _ _)), (proj2 (Z.ltb_ge _ _)) by lia. done.
Qed.

(** Counting a vnode up or down. *)
Lemma upd_ok f R O R' O' v n n' : devs_ok f R O -> vnodes f !! v = Some n -> vn_data n' = vn_data n -> vn_ok R' O' v n' ->
  (forall w, w <> v -> multiplicity w (R' ⊎ O') = multiplicity w (R ⊎ O) /\ multiplicity w O' = multiplicity w O) ->
  (v ∈ R' ⊎ O' -> v ∈ R ⊎ O) ->
  devs_ok (mkDevs (<[v := n']> (vnodes f)) (devices f) (next_vnode f) (memory f)) R' O'.
Proof.
  intros [H1 H2 H3 H4] Hn Hd Hok Hw Hin. split; simpl; [| | |exact H4].
  - intros w m. destruct (decide (v = w)) as [<-|Hne]; [rewrite lookup_insert_eq; by intros [= <-]|rewrite lookup_insert_ne by done].
    intros Hm. destruct (Hw w ltac:(done)) as [E1 E2]. unfold vn_ok. rewrite E1, E2. by apply H1.
  - intros w Hw'. destruct (decide (v = w)) as [<-|Hne]; [rewrite lookup_insert_eq|rewrite lookup_insert_ne by done].
    + exists n'. split; [done|]. rewrite Hd. destruct (H2 v (Hin Hw')) as (m & Hm & Hdm). congruence.
    + apply H2. apply elem_of_multiplicity. apply elem_of_multiplicity in Hw'. by rewrite <- (proj1 (Hw w ltac:(done))).
  - intros w m. destruct (decide (v = w)) as [<-|Hne]; [intros _; by eapply H3|rewrite lookup_insert_ne by done; apply H3].
Qed.

Lemma incref_law f R O v : devs_ok f R O -> v ∈ R ⊎ O -> returns (vnode_incref v f) (fun _ f' => devs_ok f' (R ⊎ {[+ v +]}) O).
Proof.
  intros Hf Hv. destruct (do_held _ _ _ Hf v Hv) as (n & Hn & _). destruct (do_counts _ _ _ Hf v n Hn) as [Hr Ho].
  unfold vnode_incref, upd_vn, put_vnodes. runs_steps. eapply runs_of_option; [exact Hn|]. runs_steps.
  eapply upd_ok; [exact Hf|exact Hn|done| | |done].
  - rewrite elem_of_multiplicity in Hv. split; simpl; [|done]. rewrite Hr, !multiplicity_disj_union, multiplicity_singleton, decide_True by done.
    rewrite multiplicity_disj_union in Hv. lia.
  - intros w Hw. rewrite !multiplicity_disj_union, multiplicity_singleton, decide_False by done. lia.
Qed.

Lemma decref_law f R O v : devs_ok f (R ⊎ {[+ v +]}) O -> returns (vnode_decref v f) (fun _ f' => devs_ok f' R O).
Proof.
  intros Hf. assert (v ∈ (R ⊎ {[+ v +]}) ⊎ O) as Hv by multiset_solver. destruct (do_held _ _ _ Hf v Hv) as (n & Hn & _).
  destruct (do_counts _ _ _ Hf v n Hn) as [Hr Ho]. rewrite !multiplicity_disj_union, multiplicity_singleton, decide_True in Hr by done.
  unfold vnode_decref, get_vn, upd_vn, put_vnodes. runs_steps. eapply runs_of_option; [exact Hn|]. runs_steps. apply runs_KASSERT; [lia|].
  assert (forall n', vn_data n' = vn_data n -> vn_ok R O v n' -> devs_ok (mkDevs (<[v := n']> (vnodes f)) (devices f) (next_vnode f) (memory f)) R O) as Hupd.
  { intros n' Hd Hn'. eapply upd_ok; [exact Hf|exact Hn|done|done| |multiset_solver].
    intros w Hw. rewrite !multiplicity_disj_union, multiplicity_singleton, decide_False by done. lia. }
  destruct (1 <? vn_refcount n) eqn:E.
  - runs_steps. eapply runs_of_option; [exact Hn|]. runs_steps. apply Hupd; [done|]. split; simpl; [|done].
    rewrite !multiplicity_disj_union. lia.
  - assert (devs_ok f R O) as Hf'.
    { specialize (Hupd n eq_refl). rewrite insert_id in Hupd by done. destruct f. apply Hupd. split; [|done]. rewrite multiplicity_disj_union. lia. }
    unfold vnode_check, get_vn, dev_reclaim. runs_steps. eapply runs_of_option; [exact Hn|].
    rewrite (proj2 (Z.ltb_ge (vn_refcount n) 0)), andb_false_r, (proj2 (Z.ltb_ge (vn_opencount n) 0)) by lia. done.
Qed.

Lemma incopen_law f R O v : devs_ok f (R ⊎ {[+ v +]}) O -> returns (vnode_incopen v f) (fun _ f' => devs_ok f' R (O ⊎ {[+ v +]})).
Proof.
  intros Hf. assert (v ∈ (R ⊎ {[+ v +]}) ⊎ O) as Hv by multiset_solver. destruct (do_held _ _ _ Hf v Hv) as (n & Hn & _).
  destruct (do_counts _ _ _ Hf v n Hn) as [Hr Ho]. unfold vnode_incopen, upd_vn, put_vnodes. runs_steps.
  eapply runs_of_option; [exact Hn|]. runs_steps. eapply upd_ok; [exact Hf|exact Hn|done| | |done].
  - rewrite !multiplicity_disj_union, multiplicity_singleton, decide_True in Hr by done.
    split; simpl; rewrite ?Hr, ?Ho, !multiplicity_disj_union, multiplicity_singleton, decide_True by done; lia.
  - intros w Hw. rewrite !multiplicity_disj_union, multiplicity_singleton, decide_False by done. lia.
Qed.

Lemma decopen_law f R O v : devs_ok f R (O ⊎ {[+ v +]}) -> returns (vnode_decopen v f) (fun _ f' => devs_ok f' (R ⊎ {[+ v +]}) O).
Proof.
  intros Hf. assert (v ∈ R ⊎ (O ⊎ {[+ v +]})) as Hv by multiset_solver. destruct (do_held _ _ _ Hf v Hv) as (n & Hn & _).
  destruct (do_counts _ _ _ Hf v n Hn) as [Hr Ho]. rewrite !multiplicity_disj_union, multiplicity_singleton, decide_True in Hr by done.
  rewrite multiplicity_disj_union, multiplicity_singleton, decide_True in Ho by done.
  unfold vnode_decopen, get_vn, upd_vn, put_vnodes. runs_steps. eapply runs_of_option; [exact Hn|]. runs_steps. apply runs_KASSERT; [lia|].
  runs_steps. eapply runs_of_option; [exact Hn|]. runs_steps. set (f1 := mkDevs _ _ _ _). assert (devs_ok f1 (R ⊎ {[+ v +]}) O) as Hf1.
  { eapply upd_ok; [exact Hf|exact Hn|done| | |multiset_solver].
    - split; simpl; rewrite ?Hr, ?Ho, ?multiplicity_disj_union, ?multiplicity_singleton, ?decide_True by done; lia.
    - intros w Hw. rewrite !multiplicity_disj_union, multiplicity_singleton, decide_False by done. lia. }
  destruct (0 <? vn_opencount n - 1); [done|]. runs_steps. assert (v ∈ (R ⊎ {[+ v +]}) ⊎ O) as Hv1 by multiset_solver.
  eapply runs_check; [exact Hf1|done|]. unfold dev_close. runs_steps. eapply runs_device_of; [exact Hf1|done|]. intros d.
  unfold code. by destruct (_ =? 0).
Qed.

Lemma create_law f R O d : devs_ok f R O ->
  returns (dev_create_vnode d f) (fun o f' => devs_ok f' (R ⊎ match o, d with Some v, Some _ => {[+ v +]} | _, _ => ∅ end) O /\
    forall v, o = Some v -> returns (free_vnode v f') (fun _ f'' => devs_ok f'' R O)).
Proof.
  intros Hf. pose proof Hf as [H1 H2 H3 H4]. unfold dev_create_vnode. runs_steps.
  assert (devs_ok (mkDevs (vnodes f) (devices f) (next_vnode f) (tail (memory f))) R O) as Hf1 by (by split).
  destruct (match memory f with [] => true | b :: _ => b end); simpl; [|split; [by rewrite gmultiset_disj_union_right_id|done]].
  assert (vnodes f !! next_vnode f = None) as Hnew.
  { destruct (vnodes f !! next_vnode f) as [n|] eqn:En; [|done]. apply H3 in En. lia. }
  assert (multiplicity (next_vnode f) (R ⊎ O) = 0%nat) as Hzero.
  { destruct (decide (next_vnode f ∈ R ⊎ O)) as [Hin|Hout]; [destruct (H2 _ Hin) as (n & Hn & _); congruence|].
    rewrite elem_of_multiplicity in Hout. lia. }
  rewrite multiplicity_disj_union in Hzero. runs_steps. simpl. split.
  - set (T := match d with Some _ => {[+ next_vnode f +]} | None => ∅ end : gmultiset Z).
    assert (forall w, multiplicity w T <= if decide (w = next_vnode f) then 1 else 0)%nat as HT.
    { intros w. unfold T. destruct d; [rewrite multiplicity_singleton|rewrite multiplicity_empty]; case_decide; lia. }
    split; simpl; [| | |exact H4].
    + intros w n. destruct (decide (w = next_vnode f)) as [->|Hne].
      * rewrite lookup_insert_eq. intros [= <-]. specialize (HT (next_vnode f)). rewrite decide_True in HT by done.
        unfold vn_ok, vnode_init. cbn [vn_refcount vn_opencount]. rewrite !multiplicity_disj_union. lia.
      * rewrite lookup_insert_ne by done. intros [Hr Ho]%H1. specialize (HT w). rewrite decide_False in HT by done.
        split; [rewrite Hr|done]. rewrite !multiplicity_disj_union. lia.
    + intros w Hw. destruct (decide (w = next_vnode f)) as [->|Hne].
      * rewrite lookup_insert_eq. exists (vnode_init d). split; [done|]. simpl. intros ->. unfold T in Hw.
        rewrite gmultiset_disj_union_right_id, elem_of_multiplicity, multiplicity_disj_union in Hw. lia.
      * rewrite lookup_insert_ne by done. apply H2. rewrite elem_of_multiplicity in Hw |- *. specialize (HT w). rewrite decide_False in HT by done.
        rewrite !multiplicity_disj_union in Hw. rewrite multiplicity_disj_union. lia.
    + intros w n. destruct (decide (w = next_vnode f)) as [->|Hne]; [lia|]. rewrite lookup_insert_ne by done. intros Hn%H3. lia.
  - intros ? [= <-]. rewrite delete_insert_id by done. split; simpl; [done|done| |exact H4]. intros w n Hn%H3. lia.
Qed.

Lemma dev_vop_law f R O v r : devs_ok f R O -> v ∈ R ⊎ O -> runs (dev_vop v r f) (fun _ f' => f' = f) (fun _ f' => f' = f).
Proof.
  intros Hf Hv. unfold dev_vop. runs_steps. eapply runs_check; [exact Hf|done|].
  destruct r; try done; unfold dev_open, dev_truncate; runs_steps; (eapply runs_device_of; [exact Hf|done|]); intros d.
  - destruct (has_flag _ _); [done|]. unfold code. by destruct (_ =? 0).
  - by destruct (_ && _).
Qed.

(** There is no file system here, so none is mounted. *)
#[export, refine] Instance dev_file_systems : FileSystems devs := {
  vn_fs f v := None;
  vop := dev_vop;
  vop_gettype v := vnode_check v false ;; dev_gettype v;
  vop_lookup v p := vnode_check v false ;; dev_lookup v p;
  vop_lookparent v p n := vnode_check v false ;; dev_lookparent v p n;
  vop_creat v n x m := vnode_check v false ;; null_creat v n x m;
  vop_readlink v := lift (vnode_check v false) ;; null_io v;
  vop_namefile v := lift (vnode_check v false) ;; dev_namefile v;
  Vfs.vnode_incref := vnode_incref;
  Vfs.vnode_decref := vnode_decref;
  Vfs.vnode_incopen := vnode_incopen;
  Vfs.vnode_decopen := vnode_decopen;
  fsop_sync x := crashed Wild;
  fsop_getvolname f x := None;
  fsop_getroot x := crashed Wild;
  fsop_unmount x := crashed Wild;
  Vfs.dev_create_vnode := dev_create_vnode;
  Vfs.free_vnode := free_vnode;
  fs_ok := devs_ok;
  mounted f x := False }.
Proof.
  all: try done.
  - intros f R O v r Hf Hv _. eapply runs_mono; [by eapply dev_vop_law|by intros ? ? ->|by intros ? ? ->].
  - intros f R O v Hf Hv. runs_steps. eapply runs_check; [exact Hf|done|]. unfold dev_gettype. runs_steps. eapply runs_device_of; [exact Hf|done|].
    intros d. runs_steps. split; [done|]. by destruct (0 <? _).
  - intros f R O v p Hf Hv. runs_steps. eapply runs_check; [exact Hf|done|]. unfold dev_lookup. destruct (0 <? zlen p); [done|]. runs_steps.
    eapply runs_mono; [by apply incref_law| |done]. intros ? f' Hf'. done.
  - intros f R O v p n Hf Hv. runs_steps. by eapply runs_check.
  - intros f R O v p x m Hf Hv. runs_steps. by eapply runs_check.
  - intros f R O v x Hf Hv _. runs_steps. apply runs_zoom. by eapply runs_check.
  - intros f R O v x Hf Hv _. runs_steps. apply runs_zoom. by eapply runs_check.
  - intros f R O v Hf Hv. eapply runs_mono; [by apply incref_law| |done]. by intros.
  - intros f R O v Hf. eapply runs_mono; [by apply decref_law| |done]. by intros.
  - intros f R O v Hf. eapply runs_mono; [by apply incopen_law| |done]. by intros.
  - intros f R O v Hf. eapply runs_mono; [by apply decopen_law| |done]. by intros.
  - intros f R O d Hf. eapply runs_mono; [by apply create_law| |done]. intros o f' [Hf' Hfree]. split; [done|split; [done|]].
    intros v Hv. eapply runs_mono; [by apply Hfree| |done]. by intros.
Defined.
End DevVnode.
