(* ===== verification/VfsThm.v ===== *)
(** * Theorems about the virtual file system

    The VFS layer gives back every reference it takes, whatever the file
    systems answer; path names mean what the documentation says; device names
    are unique. *)

From stdpp Require Import gmultiset.
From S2P Require Import Prelude Copyinout Uio Vfs DevVnode.
Import Copyinout Uio Vfs.

Module VfsThm.

Lemma NoDup_mid {A} (l1 l2 : list A) x : NoDup (l1 ++ x :: l2) <-> NoDup (l1 ++ l2) /\ x ∉ l1 ++ l2.
Proof. rewrite <- Permutation_middle, NoDup_cons. tauto. Qed.

(** A reference or none, and those of the structures of a table. *)
Definition opt_ref (o : option Z) : gmultiset Z := match o with Some v => {[+ v +]} | None => ∅ end.
Definition refs_of {A} (f : A -> option Z) (m : gmap Z A) : gmultiset Z := list_to_set_disj (omap (fun p => f (snd p)) (map_to_list m)).

Section RefsOf.
Context {A : Type} (f : A -> option Z).
Implicit Types (m : gmap Z A).

Lemma refs_of_insert m i x : m !! i = None -> refs_of f (<[i := x]> m) = refs_of f m ⊎ opt_ref (f x).
Proof.
  intros Hi. unfold refs_of. rewrite (list_to_set_disj_perm _ (omap (fun p => f (snd p)) ((i, x) :: map_to_list m))).
  - cbn [omap list_omap snd]. destruct (f x); cbn [list_to_set_disj opt_ref].
    + apply gmultiset_disj_union_comm.
    + by rewrite gmultiset_disj_union_right_id.
  - apply omap_Permutation. by apply map_to_list_insert.
Qed.

Lemma refs_delete m i x : m !! i = Some x -> refs_of f m = refs_of f (delete i m) ⊎ opt_ref (f x).
Proof. intros Hi. rewrite <- (refs_of_insert (delete i m) i x) by apply lookup_delete_eq. by rewrite insert_delete_id. Qed.

Lemma refs_update m i x x' : m !! i = Some x -> f x' = f x -> refs_of f (<[i := x']> m) = refs_of f m.
Proof. intros Hi Hf. rewrite <- (insert_delete_eq m i x'), refs_of_insert, Hf by apply lookup_delete_eq. by rewrite <- (refs_delete m i x). Qed.

Lemma refs_elem m i x v : m !! i = Some x -> f x = Some v -> v ∈ refs_of f m.
Proof. intros Hi Hf. rewrite (refs_delete m i x Hi), Hf. simpl. multiset_solver. Qed.
End RefsOf.

Section Refs.
Context {F : Type} `{!FileSystems F}.
(** The current directories of the other processes. *)
Context (D : gmultiset Z).
Implicit Types (s : vfs (F := F)) (R O : gmultiset Z).

(** The references the VFS layer itself holds; the vnode of a file system
    without a device is none. *)
Definition kd_ref (kd : knowndev) : option Z := match kd_device kd with Some _ => Some (kd_vnode kd) | None => None end.
Definition own s : gmultiset Z :=
  D ⊎ opt_ref (p_cwd s) ⊎ opt_ref (bootfs_vnode s) ⊎ list_to_set_disj (omap kd_ref (knowndevs s)).

Definition kd_ok (f : F) (kd : knowndev) : Prop :=
  (forall x, kd_fs kd = Some x -> mounted f x) /\
  (kd_rawname kd <> None -> kd_device kd <> None) /\
  (kd_fs kd = None -> kd_device kd <> None).

Definition kd_names (kd : knowndev) : list name :=
  kd_name kd :: match kd_rawname kd with Some r => [r] | None => [] end.

(** [d]: how often the big lock is held.  [R] and [O]: the references and open
    references of the callers. *)
Record vok (d : Z) (R O : gmultiset Z) s : Prop := {
  v_fs : fs_ok (vs_fs s) (R ⊎ own s) O;
  v_kd : Forall (kd_ok (vs_fs s)) (knowndevs s);
  v_cwd : forall v, p_cwd s = Some v \/ v ∈ D -> vn_fs (vs_fs s) v <> None;
  v_depth : vfs_biglock_depth s = d;
  v_mounts : NoDup (omap kd_fs (knowndevs s));
  v_names : NoDup (concat (kd_names <$> knowndevs s)) }.

(** Nothing of the VFS layer's own has changed. *)
Definition same s s' : Prop :=
  knowndevs s' = knowndevs s /\ bootfs_vnode s' = bootfs_vnode s /\ p_cwd s' = p_cwd s /\ oracle s' = oracle s.

Definition vat (d : Z) (s0 : vfs) R O s : Prop := vok d R O s /\ same s0 s.

Lemma same_refl s : same s s.
Proof. done. Qed.

Lemma vok_put_fs d s R O R' O' f' :
  vok d R O s -> fs_ok f' (R' ⊎ own s) O' -> (forall v, v ∈ own s -> vn_fs f' v = vn_fs (vs_fs s) v) ->
  (forall x, mounted (vs_fs s) x -> mounted f' x) -> vok d R' O' (put_fs f' s).
Proof.
  intros [H1 H2 H3 H4 H5 H6] Hf Hv Hm. split; try done; simpl.
  - eapply Forall_impl; [exact H2|]. intros kd (? & ?). split; auto.
  - intros v Hc. rewrite Hv; [by apply H3|]. unfold own, opt_ref. destruct Hc as [Hc|Hc]; [rewrite Hc|]; multiset_solver.
Qed.

(** A call of a file system, which gives the references [R'] and [O']. *)
Lemma vat_put_fs d s0 s R O R' O' f' X U :
  vat d s0 R O s -> fs_ok f' X O' /\ keeps (vs_fs s) U f' -> X = R' ⊎ own s -> own s ⊆ U -> vat d s0 R' O' (put_fs f' s).
Proof.
  intros [Hok Hs] [Hf [Hk1 Hk2]] -> Hsub. split; [|done]. eapply vok_put_fs; [exact Hok|done| |done]. multiset_solver.
Qed.

(** [v] is held: by a caller or by the VFS layer. *)
Definition heldv R O s (v : Z) : Prop := v ∈ (R ⊎ own s) ⊎ O.

Lemma swap_refs R O w : R ⊎ O ⊎ {[+ w +]} = R ⊎ {[+ w +]} ⊎ O :> gmultiset Z.
Proof. multiset_solver. Qed.

Ltac at_fs law := apply runs_zoom; eapply runs_mono;
  [apply law; [match goal with H : vat _ _ _ _ _ |- _ => apply H end|..]; try done
  |intros ? ? Hpost; first [done|eapply vat_put_fs; [eassumption|exact Hpost|multiset_solver|multiset_solver]]
  |intros ? ? Hpost; first [done|eapply vat_put_fs; [eassumption|exact Hpost|multiset_solver|multiset_solver]]].

Section Specs.
Context (d : Z) (s0 : vfs (F := F)).

Lemma vop_spec s R O v r :
  vat d s0 R O s -> heldv R O s v -> Forall (heldv R O s) (also r) ->
  runs (on_fs (vop v r) s) (fun _ => vat d s0 R O) (fun _ => vat d s0 R O).
Proof. intros H Hv Hr. at_fs vop_ok. Qed.

Lemma lookup_spec s R O v p : vat d s0 R O s -> heldv R O s v ->
  runs (on_fs (vop_lookup v p) s) (fun w => vat d s0 (R ⊎ {[+ w +]}) O) (fun _ => vat d s0 R O).
Proof. intros H Hv. at_fs lookup_ok. Qed.

Lemma lookparent_spec s R O v p n : vat d s0 R O s -> heldv R O s v ->
  runs (on_fs (vop_lookparent v p n) s) (fun w => vat d s0 (R ⊎ {[+ fst w +]}) O) (fun _ => vat d s0 R O).
Proof. intros H Hv. at_fs lookparent_ok. Qed.

Lemma creat_spec s R O v p x m : vat d s0 R O s -> heldv R O s v ->
  runs (on_fs (vop_creat v p x m) s) (fun w => vat d s0 (R ⊎ {[+ w +]}) O) (fun _ => vat d s0 R O).
Proof. intros H Hv. at_fs creat_ok. Qed.

Lemma incref_spec s R O v : vat d s0 R O s -> heldv R O s v ->
  returns (VOP_INCREF v s) (fun _ => vat d s0 (R ⊎ {[+ v +]}) O).
Proof. intros H Hv. at_fs incref_ok. Qed.

Lemma getroot_spec s R O x : vat d s0 R O s -> mounted (vs_fs s) x ->
  returns (on_fs (fsop_getroot x) s) (fun v => vat d s0 (R ⊎ {[+ v +]}) O).
Proof. intros H Hx. at_fs getroot_ok. Qed.

Lemma sync_spec s R O x : vat d s0 R O s -> mounted (vs_fs s) x ->
  runs (on_fs (fsop_sync x) s) (fun _ => vat d s0 R O) (fun _ => vat d s0 R O).
Proof. intros H Hx. at_fs sync_ok. Qed.

Lemma decref_spec s R O v : vat d s0 (R ⊎ {[+ v +]}) O s -> returns (VOP_DECREF v s) (fun _ => vat d s0 R O).
Proof. intros H. pose proof (v_fs _ _ _ _ (proj1 H)) as Hf. rewrite <- swap_refs in Hf.
  apply runs_zoom. eapply runs_mono; [by apply decref_ok| |done]. intros ? ? Hpost. eapply vat_put_fs; [exact H|exact Hpost|done|multiset_solver].
Qed.

Lemma incopen_spec s R O v : vat d s0 (R ⊎ {[+ v +]}) O s -> returns (on_fs (vnode_incopen v) s) (fun _ => vat d s0 R (O ⊎ {[+ v +]})).
Proof. intros H. pose proof (v_fs _ _ _ _ (proj1 H)) as Hf. rewrite <- swap_refs in Hf.
  apply runs_zoom. eapply runs_mono; [by apply incopen_ok| |done]. intros ? ? Hpost. eapply vat_put_fs; [exact H|exact Hpost|done|multiset_solver].
Qed.

Lemma decopen_spec s R O v : vat d s0 R (O ⊎ {[+ v +]}) s -> returns (on_fs (vnode_decopen v) s) (fun _ => vat d s0 (R ⊎ {[+ v +]}) O).
Proof. intros H. at_fs decopen_ok. Qed.

Lemma vat_depth d' R O s : vat d s0 R O s -> vat d' s0 R O (put_depth d' s).
Proof. intros [[? ? ? ? ? ?] Hs]. split; [by split|done]. Qed.
End Specs.

Lemma locked_runs {A} (m : M vfs A) s (Q : A -> vfs -> Prop) (E : Z -> vfs -> Prop) d :
  vfs_biglock_depth s = d -> 0 <= d < 2 ^ 31 ->
  runs (m (put_depth (d + 1) s)) (fun a s' => vfs_biglock_depth s' = d + 1 /\ Q a (put_depth d s'))
    (fun e s' => vfs_biglock_depth s' = d + 1 /\ E e (put_depth d s')) ->
  runs (locked m s) Q E.
Proof.
  intros Hd Hr Hm. unfold locked, vfs_biglock_acquire, vfs_biglock_release. runs_steps.
  rewrite Hd, u32_small by (unfold is_u32; lia). eapply runs_mono; [exact Hm| |]; cbv beta; intros x s' [Hd' HQ]; runs_steps;
    apply runs_KASSERT; try lia; runs_steps; rewrite Hd'; replace (d + 1 - 1) with d by lia; done.
Qed.

Lemma biglocked_spec {A} (m : M vfs A) d s0 s R O (RQ : A -> gmultiset Z) :
  0 <= d < 2 ^ 31 -> vat d s0 R O s ->
  (forall s1, vat (d + 1) s0 R O s1 -> runs (m s1) (fun a => vat (d + 1) s0 (RQ a) O) (fun _ => vat (d + 1) s0 R O)) ->
  runs (locked m s) (fun a => vat d s0 (RQ a) O) (fun _ => vat d s0 R O).
Proof.
  intros Hd Hs Hm. apply (locked_runs m s _ _ d); [apply Hs|done|]. eapply runs_mono; [apply Hm; by eapply vat_depth| |]; cbv beta;
    intros ? s' Hs'; (split; [apply Hs'|by eapply vat_depth]).
Qed.

Section Lookup.
Context (d : Z) (s0 : vfs (F := F)).

Lemma held_cwd R O s v : p_cwd s = Some v -> heldv R O s v.
Proof. intros Hc. unfold heldv, own. rewrite Hc. simpl. multiset_solver. Qed.

Lemma held_bootfs R O s v : bootfs_vnode s = Some v -> heldv R O s v.
Proof. intros Hc. unfold heldv, own. rewrite Hc. simpl. multiset_solver. Qed.

Lemma held_dev R O s kd : kd ∈ knowndevs s -> kd_device kd <> None -> heldv R O s (kd_vnode kd).
Proof.
  intros Hk Hd. unfold heldv. assert (kd_vnode kd ∈ own s); [|multiset_solver]. unfold own.
  apply gmultiset_elem_of_disj_union. right. apply elem_of_list_to_set_disj.
  apply list_elem_of_omap. exists kd. split; [done|]. unfold kd_ref. by destruct (kd_device kd).
Qed.

Lemma getcurdir_spec s R O : vat d s0 R O s ->
  runs (vfs_getcurdir s) (fun v s' => vat d s0 (R ⊎ {[+ v +]}) O s' /\ p_cwd s' = Some v) (fun _ => vat d s0 R O).
Proof.
  intros Hs. unfold vfs_getcurdir. runs_steps. destruct (p_cwd s) as [v|] eqn:Ec; runs_steps; [|done].
  eapply runs_mono; [by apply incref_spec; [done|apply held_cwd]| |done]. intros ? s' Hs'. runs_steps. split; [done|].
  destruct Hs as [_ (_ & _ & E1 & _)], Hs' as [_ (_ & _ & E2 & _)]. congruence.
Qed.

Lemma getroot_loop_spec devname l s R O : vat d s0 R O s -> (forall kd, kd ∈ l -> kd ∈ knowndevs s) ->
  runs (getroot_loop l devname s) (fun v => vat d s0 (R ⊎ {[+ v +]}) O) (fun _ => vat d s0 R O).
Proof.
  intros Hs. induction l as [|kd l IH]; intros Hl; simpl; runs_steps; [done|].
  assert (kd ∈ knowndevs s) as Hkd by (apply Hl; by left).
  assert (kd_ok (vs_fs s) kd) as (Hm & Hr & Hf). { pose proof (v_kd _ _ _ _ (proj1 Hs)) as Hall. rewrite Forall_forall in Hall. by apply Hall. }
  specialize (IH ltac:(intros; apply Hl; by right)).
  assert (kd_device kd <> None -> runs ((VOP_INCREF (kd_vnode kd) ;; ret (kd_vnode kd)) s) (fun v => vat d s0 (R ⊎ {[+ v +]}) O) (fun _ => vat d s0 R O)) as Hinc.
  { intros Hd. runs_steps. eapply runs_mono; [by apply incref_spec; [|apply held_dev]| |done]. by intros. }
  destruct (kd_fs kd) as [x|] eqn:Ex; simpl.
  - destruct (streq (kd_name kd) devname) eqn:En; simpl.
    { eapply runs_mono; [by apply getroot_spec; [|apply Hm]|done|done]. }
    destruct (match fsop_getvolname (vs_fs s) x with Some _ => _ | None => _ end).
    { eapply runs_mono; [by apply getroot_spec; [|apply Hm]|done|done]. }
    destruct (kd_rawname kd) as [raw|]; [|done]. destruct (streq raw devname); [|done].
    runs_steps. by apply runs_KASSERT; [destruct (kd_device kd); [|destruct Hr]|apply Hinc, Hr].
  - destruct (kd_rawname kd) as [raw|] eqn:Eraw; simpl.
    + destruct (streq (kd_name kd) devname); simpl; runs_steps; [done|]. destruct (streq raw devname); [|done].
      runs_steps. by apply runs_KASSERT; [destruct (kd_device kd); [|destruct Hr]|apply Hinc, Hr].
    + destruct (streq (kd_name kd) devname); [|done]. runs_steps.
      by apply runs_KASSERT; [destruct (kd_device kd); [|destruct Hf]|apply Hinc, Hf].
Qed.

Lemma vfs_getroot_spec s R O devname : 0 < d -> vat d s0 R O s ->
  runs (vfs_getroot devname s) (fun v => vat d s0 (R ⊎ {[+ v +]}) O) (fun _ => vat d s0 R O).
Proof.
  intros Hd Hs. unfold vfs_getroot. runs_steps. apply runs_KASSERT.
  { unfold vfs_biglock_do_i_hold. rewrite (v_depth _ _ _ _ (proj1 Hs)). lia. }
  by apply getroot_loop_spec.
Qed.

Lemma find_sep_head path i : 0 <= i -> let '(slash, colon) := find_sep path i in
  (colon < 0 /\ slash <> i \/ i < colon \/ colon = i /\ zlookup path 0 = Some COLON \/ slash = i /\ zlookup path 0 = Some SLASH).
Proof.
  intros Hi. destruct path as [|c path]; simpl; [lia|]. bool_case; [subst; auto|]. bool_case; [subst; auto|].
  assert (forall j, i < j -> let '(slash, colon) := find_sep path j in colon < 0 /\ slash <> i \/ i < colon) as Hlater.
  { clear -Hi. induction path as [|c path IH]; intros j Hj; simpl; [lia|]. bool_case; [lia|]. bool_case; [lia|]. apply IH. lia. }
  specialize (Hlater (i + 1) ltac:(lia)). destruct (find_sep path (i + 1)). lia.
Qed.

(** The first character decides when the separator is there. *)
Lemma start_root_spec s R O : vat d s0 R O s ->
  runs ((let* vn := vfs_getcurdir in
         let* s := get in
         match vn_fs (vs_fs s) vn with
         | None => panic
         | Some fs =>
             let* startvn := on_fs (fsop_getroot fs) in
             VOP_DECREF vn ;;
             ret startvn
         end) s) (fun v => vat d s0 (R ⊎ {[+ v +]}) O) (fun _ => vat d s0 R O).
Proof.
  intros Hs. runs_steps. eapply runs_mono; [by apply getcurdir_spec| |done]. intros vn s1 [Hs1 Hc]. runs_steps.
  pose proof (v_cwd _ _ _ _ (proj1 Hs1) _ (or_introl Hc)) as Hn. destruct (vn_fs (vs_fs s1) vn) as [x|] eqn:Ex; [|done]. runs_steps.
  eapply runs_mono; [apply getroot_spec; [done|]| |done].
  { eapply vn_mounted; [apply Hs1|by apply held_cwd|done]. }
  intros w s2 Hs2. runs_steps. eapply runs_mono; [apply (decref_spec d s0 s2 (R ⊎ {[+ w +]}) O)| |done]; [by rewrite swap_refs|by intros].
Qed.

Lemma getdevice_spec s R O path : 0 < d -> vat d s0 R O s ->
  runs (getdevice path s) (fun r => vat d s0 (R ⊎ {[+ snd r +]}) O) (fun _ => vat d s0 R O).
Proof.
  intros Hd Hs. unfold getdevice, start_at. runs_steps. apply runs_KASSERT.
  { unfold vfs_biglock_do_i_hold. rewrite (v_depth _ _ _ _ (proj1 Hs)). lia. }
  pose proof (find_sep_head path 0 ltac:(lia)) as Hsep. destruct (find_sep path 0) as [slash colon].
  destruct ((colon <? 0) && negb (slash =? 0)) eqn:E1.
  { runs_steps. eapply runs_mono; [by apply getcurdir_spec| |done]. by intros v s1 [Hs1 _]. }
  destruct (0 <? colon) eqn:E2.
  { runs_steps. eapply runs_mono; [by apply vfs_getroot_spec| |done]. by intros. }
  runs_steps. apply runs_KASSERT; [lia|]. runs_steps.
  assert (zlookup path 0 = Some COLON \/ zlookup path 0 = Some SLASH) as [-> | ->] by (destruct Hsep as [|[|[|]]]; lia || tauto).
  - rewrite bool_decide_false by done. runs_steps. rewrite bool_decide_true by done. apply runs_KASSERT; [done|].
    eapply runs_mono; [by apply start_root_spec| |done]. by intros.
  - rewrite bool_decide_true by done. destruct (bootfs_vnode s) as [b|] eqn:Eb; runs_steps; [|done].
    eapply runs_mono; [by apply incref_spec; [|apply held_bootfs]| |done]. by intros.
Qed.
End Lookup.

(** Letting go of a reference on the way out. *)
Lemma drop_out {A} d s0 s R O v (r : A + Z) (RQ : A -> gmultiset Z) :
  match r with inl a => vat d s0 (RQ a ⊎ {[+ v +]}) O s | inr _ => vat d s0 (R ⊎ {[+ v +]}) O s end ->
  runs ((VOP_DECREF v ;; match r with inl a => ret a | inr e => err e end) s) (fun a => vat d s0 (RQ a) O) (fun _ => vat d s0 R O).
Proof.
  intros Hs. runs_steps. destruct r as [a|e]; (eapply runs_mono; [by apply decref_spec| |done]); by intros.
Qed.

Lemma held_ref R O s v : heldv (R ⊎ {[+ v +]}) O s v.
Proof. unfold heldv. multiset_solver. Qed.

Lemma vfs_lookparent_spec d s0 s R O path n : 0 <= d < 2 ^ 31 -> vat d s0 R O s ->
  runs (vfs_lookparent path n s) (fun r => vat d s0 (R ⊎ {[+ fst r +]}) O) (fun _ => vat d s0 R O).
Proof.
  intros Hd Hs. apply biglocked_spec; [done|done|]. intros s1 Hs1. runs_steps.
  eapply runs_mono; [apply (getdevice_spec (d + 1) s0 s1 R O); [lia|done]| |done]. intros [p v] s2 Hs2. apply runs_bind.
  assert (forall r s3, match r with inl a => vat (d + 1) s0 (R ⊎ {[+ v +]} ⊎ {[+ fst a +]}) O s3 | inr _ => vat (d + 1) s0 (R ⊎ {[+ v +]}) O s3 end ->
    runs ((VOP_DECREF v ;; match r with inl a => ret a | inr e => err e end) s3) (fun a : Z * name => vat (d + 1) s0 (R ⊎ {[+ fst a +]}) O)
      (fun _ => vat (d + 1) s0 R O)) as Hout.
  { intros r s3 Hr. apply drop_out. destruct r; [by rewrite swap_refs|done]. }
  destruct (zlen p =? 0).
  - apply runs_ret. by apply (Hout (inr EINVAL)).
  - apply runs_try. eapply runs_mono; [eapply lookparent_spec; [exact Hs2|apply held_ref]| |]; cbv beta; intros a s3 Hs3; [by apply (Hout (inl a))|by apply (Hout (inr a))].
Qed.

Lemma vfs_lookup_spec d s0 s R O path : 0 <= d < 2 ^ 31 -> vat d s0 R O s ->
  runs (vfs_lookup path s) (fun v => vat d s0 (R ⊎ {[+ v +]}) O) (fun _ => vat d s0 R O).
Proof.
  intros Hd Hs. apply biglocked_spec; [done|done|]. intros s1 Hs1. runs_steps.
  eapply runs_mono; [apply (getdevice_spec (d + 1) s0 s1 R O); [lia|done]| |done]. intros [p v] s2 Hs2.
  destruct (zlen p =? 0); [done|]. apply runs_bind, runs_try.
  eapply runs_mono; [eapply lookup_spec; [exact Hs2|apply held_ref]| |]; cbv beta; intros a s3 Hs3.
  - apply (drop_out _ _ _ R O v (inl a)). by rewrite swap_refs.
  - by apply (drop_out _ _ _ R O v (inr a)).
Qed.

(** ** Path operations *)

Lemma open_vnode_spec d s0 s R O path flags mode : 0 <= d < 2 ^ 31 -> vat d s0 R O s ->
  runs ((if has_flag flags O_CREAT then
         let* '(dir, n) := vfs_lookparent path (NAME_MAX + 1) in
         let* r := try (on_fs (vop_creat dir n (has_flag flags O_EXCL) mode)) in
         VOP_DECREF dir ;;
         match r with inl a => ret a | inr e => err e end
       else vfs_lookup path) s) (fun v => vat d s0 (R ⊎ {[+ v +]}) O) (fun _ => vat d s0 R O).
Proof.
  intros Hd Hs. destruct (has_flag flags O_CREAT); [|by apply vfs_lookup_spec]. apply runs_bind.
  eapply runs_mono; [by apply vfs_lookparent_spec| |done]. intros [dir n] s1 Hs1. apply runs_bind, runs_try.
  eapply runs_mono; [eapply creat_spec; [exact Hs1|apply held_ref]| |]; cbv beta; intros a s2 Hs2.
  - apply (drop_out _ _ _ R O dir (inl a)). by rewrite swap_refs.
  - by apply (drop_out _ _ _ R O dir (inr a)).
Qed.

Lemma vfs_open_spec d s0 s R O path flags mode : 0 <= d < 2 ^ 31 -> vat d s0 R O s ->
  runs (vfs_open path flags mode s) (fun v => vat d s0 R (O ⊎ {[+ v +]})) (fun _ => vat d s0 R O).
Proof.
  intros Hd Hs. unfold vfs_open. destruct (negb _); [done|]. apply runs_bind.
  eapply runs_mono; [by apply open_vnode_spec| |done]. intros v s1 Hs1. apply runs_bind, runs_try.
  eapply runs_mono; [eapply vop_spec; [exact Hs1|apply held_ref|constructor]| |]; cbv beta; [intros ? s2 Hs2|intros e s2 Hs2].
  2: { runs_steps. eapply runs_mono; [by apply decref_spec| |done]. by intros. }
  runs_steps. eapply runs_mono; [by apply incopen_spec| |done]. intros ? s3 Hs3.
  assert (forall e s4, vat d s0 R (O ⊎ {[+ v +]}) s4 ->
    runs ((on_fs (vnode_decopen v) ;; VOP_DECREF v ;; err e) s4) (fun v : Z => vat d s0 R (O ⊎ {[+ v +]})) (fun _ => vat d s0 R O)) as Hback.
  { intros e s4 Hs4. runs_steps. eapply runs_mono; [by apply decopen_spec| |done]. intros ? s5 Hs5. runs_steps.
    eapply runs_mono; [eapply decref_spec; exact Hs5| |done]. by intros. }
  destruct (has_flag flags O_TRUNC); [|done]. apply runs_bind. destruct (negb _); [apply runs_ret; by apply Hback|]. apply runs_try.
  eapply runs_mono; [eapply vop_spec; [exact Hs3|unfold heldv; multiset_solver|constructor]| |]; cbv beta; [done|]. intros e s4. apply Hback.
Qed.

Lemma vfs_close_spec d s0 s R O v : vat d s0 R (O ⊎ {[+ v +]}) s -> returns (vfs_close v s) (fun _ => vat d s0 R O).
Proof.
  intros Hs. unfold vfs_close. runs_steps. eapply runs_mono; [by apply decopen_spec| |done]. intros ? s1 Hs1. by apply decref_spec.
Qed.

Lemma in_parent_spec d s0 s R O path r : 0 <= d < 2 ^ 31 -> vat d s0 R O s -> (forall n, also (r n) = []) ->
  runs (in_parent path r s) (fun _ => vat d s0 R O) (fun _ => vat d s0 R O).
Proof.
  intros Hd Hs Hr. unfold in_parent. apply runs_bind. eapply runs_mono; [by apply vfs_lookparent_spec| |done].
  intros [dir n] s1 Hs1. apply runs_bind, runs_try.
  eapply runs_mono; [eapply vop_spec; [exact Hs1|apply held_ref|rewrite Hr; constructor]| |]; cbv beta; intros a s2 Hs2;
    runs_steps; (eapply runs_mono; [by apply decref_spec| |done]); by intros.
Qed.

(** Two vnodes, both let go in the end. *)
Lemma across_spec d s0 s R O a b t r : vat d s0 (R ⊎ {[+ a +]} ⊎ {[+ b +]}) O s -> t = a \/ t = b -> Forall (fun w => w = a \/ w = b) (also r) ->
  runs (across a b t r s) (fun _ => vat d s0 R O) (fun _ => vat d s0 R O).
Proof.
  intros Hs Ht Hr. unfold across. runs_steps.
  assert (forall w, w = a \/ w = b -> heldv (R ⊎ {[+ a +]} ⊎ {[+ b +]}) O s w) as Hw by (unfold heldv; intros w [-> | ->]; multiset_solver).
  assert (forall s1 (k : M vfs unit), vat d s0 (R ⊎ {[+ a +]} ⊎ {[+ b +]}) O s1 ->
    (forall s2, vat d s0 R O s2 -> runs (k s2) (fun _ => vat d s0 R O) (fun _ => vat d s0 R O)) ->
    runs ((VOP_DECREF b ;; VOP_DECREF a ;; k) s1) (fun _ => vat d s0 R O) (fun _ => vat d s0 R O)) as Hout.
  { intros s1 k Hs1 Hk. runs_steps. eapply runs_mono; [by apply decref_spec| |done]. intros ? s2 Hs2. runs_steps.
    eapply runs_mono; [eapply decref_spec; exact Hs2| |done]. intros ?. apply Hk. }
  destruct (_ || _); [by apply Hout|]. apply runs_bind, runs_try.
  eapply runs_mono; [eapply vop_spec; [exact Hs|by apply Hw|]| |].
  { eapply Forall_impl; [exact Hr|]. apply Hw. }
  - intros ? s1 Hs1. by apply Hout.
  - intros e s1 Hs1. by apply Hout.
Qed.

Lemma vfs_rename_spec d s0 s R O p1 p2 : 0 <= d < 2 ^ 31 -> vat d s0 R O s ->
  runs (vfs_rename p1 p2 s) (fun _ => vat d s0 R O) (fun _ => vat d s0 R O).
Proof.
  intros Hd Hs. unfold vfs_rename. apply runs_bind. eapply runs_mono; [by apply vfs_lookparent_spec| |done].
  intros [a n] s1 Hs1. apply runs_bind, runs_try. eapply runs_mono; [apply vfs_lookparent_spec; [done|exact Hs1]| |]; cbv beta.
  - intros [b n'] s2 Hs2. eapply across_spec; [exact Hs2|by left|]. constructor; [by right|constructor].
  - intros e s2 Hs2. runs_steps. eapply runs_mono; [by apply decref_spec| |done]. by intros.
Qed.

Lemma vfs_link_spec d s0 s R O p1 p2 : 0 <= d < 2 ^ 31 -> vat d s0 R O s ->
  runs (vfs_link p1 p2 s) (fun _ => vat d s0 R O) (fun _ => vat d s0 R O).
Proof.
  intros Hd Hs. unfold vfs_link. apply runs_bind. eapply runs_mono; [by apply vfs_lookup_spec| |done].
  intros a s1 Hs1. apply runs_bind, runs_try. eapply runs_mono; [apply vfs_lookparent_spec; [done|exact Hs1]| |]; cbv beta.
  - intros [b n'] s2 Hs2. eapply across_spec; [exact Hs2|by right|]. constructor; [by left|constructor].
  - intros e s2 Hs2. runs_steps. eapply runs_mono; [by apply decref_spec| |done]. by intros.
Qed.

(** ** The current directory and the boot file system *)

Lemma vok_put_cwd d R O s c : vok d (R ⊎ opt_ref c) O s -> (forall v, c = Some v -> vn_fs (vs_fs s) v <> None) ->
  vok d (R ⊎ opt_ref (p_cwd s)) O (put_cwd c s).
Proof.
  intros [H1 H2 H3 H4 H5 H6] Hc. split; try done.
  - replace (_ ⊎ own _) with (R ⊎ opt_ref c ⊎ own s); [done|]. unfold own. simpl. multiset_solver.
  - intros v [Hv|Hv]; [by apply Hc|]. apply H3. by right.
Qed.

Lemma vok_put_bootfs d R O s c : vok d (R ⊎ opt_ref c) O s -> vok d (R ⊎ opt_ref (bootfs_vnode s)) O (put_bootfs c s).
Proof.
  intros [H1 H2 H3 H4 H5 H6]. split; try done. replace (_ ⊎ own _) with (R ⊎ opt_ref c ⊎ own s); [done|]. unfold own. simpl.
  multiset_solver.
Qed.

Lemma vok_vat d R O s : vok d R O s -> vat d s R O s.
Proof. by split. Qed.

Lemma release_opt d R O s o : vok d (R ⊎ opt_ref o) O s ->
  returns (match o with Some old => VOP_DECREF old | None => ret tt end s) (fun _ => vok d R O).
Proof.
  intros Hs. destruct o as [v|].
  - eapply runs_mono; [eapply decref_spec, vok_vat, Hs|by intros ? ? []|done].
  - simpl in Hs. rewrite gmultiset_disj_union_right_id in Hs. done.
Qed.

Lemma setcurdir_spec d R O s dir : vok d R O s -> heldv R O s dir ->
  runs (vfs_setcurdir dir s) (fun _ => vok d R O) (fun _ => vok d R O).
Proof.
  intros Hs Hdir. unfold vfs_setcurdir. runs_steps. apply runs_zoom.
  eapply runs_mono; [by apply gettype_ok; [apply Hs|]| |]; cbv beta.
  2: { intros e f' Hf. eapply vat_put_fs; [by apply vok_vat|exact Hf|done|multiset_solver]. }
  intros t f1 [Hf1 Ht]. assert (vat d s R O (put_fs f1 s)) as [Hs1 _] by (eapply vat_put_fs; [by apply vok_vat|exact Hf1|done|multiset_solver]).
  destruct (Z.eqb_spec t S_IFDIR) as [->|]; simpl; [|done]. runs_steps. specialize (Ht eq_refl). apply runs_zoom.
  eapply runs_mono; [by apply incref_ok; [apply Hs1|]| |done]. intros ? f2 Hf2. simpl in Hf2.
  assert (vat d (put_fs f1 s) (R ⊎ {[+ dir +]}) O (put_fs f2 (put_fs f1 s))) as [Hs2 _].
  { eapply vat_put_fs; [by apply vok_vat|exact Hf2|multiset_solver|multiset_solver]. }
  runs_steps. apply returns_runs.
  apply release_opt, (vok_put_cwd _ _ _ (put_fs f2 (put_fs f1 s)) (Some dir)); [done|]. intros ? [= <-]. simpl.
  destruct Hf2 as [_ [Hk _]]. by rewrite Hk.
Qed.

Lemma vfs_chdir_spec d R O s path : 0 <= d < 2 ^ 31 -> vok d R O s ->
  runs (vfs_chdir path s) (fun _ => vok d R O) (fun _ => vok d R O).
Proof.
  intros Hd Hs. unfold vfs_chdir. apply runs_bind. eapply runs_mono; [by apply vfs_lookup_spec; [|apply vok_vat]| |by intros ? ? []].
  intros v s1 [Hs1 _]. apply runs_bind, runs_try. eapply runs_mono; [apply setcurdir_spec; [exact Hs1|apply held_ref]| |]; cbv beta;
    intros a s2 Hs2; runs_steps; (eapply runs_mono; [eapply decref_spec, vok_vat, Hs2| |done]); by intros ? ? [].
Qed.

Lemma vfs_clearcurdir_spec d R O s : vok d R O s -> returns (vfs_clearcurdir s) (fun _ => vok d R O).
Proof.
  intros Hs. unfold vfs_clearcurdir. runs_steps. apply release_opt, (vok_put_cwd _ _ _ _ None); [|done].
  simpl. by rewrite gmultiset_disj_union_right_id.
Qed.

Lemma change_bootfs_spec d R O s o : vok d (R ⊎ opt_ref o) O s -> returns (change_bootfs o s) (fun _ => vok d R O).
Proof. intros Hs. unfold change_bootfs. runs_steps. by apply release_opt, vok_put_bootfs. Qed.

Lemma vok_depth d d' R O s : vok d R O s -> vok d' R O (put_depth d' s).
Proof. intros []. by split. Qed.

(** [locked] around a function that changes the VFS layer's own state. *)
Lemma locked_vok {A} (m : M vfs A) d s R O (RQ : A -> gmultiset Z) (RE : Z -> gmultiset Z -> Prop) :
  0 <= d < 2 ^ 31 -> vok d R O s ->
  (forall s1, vok (d + 1) R O s1 -> vs_fs s1 = vs_fs s -> knowndevs s1 = knowndevs s ->
    runs (m s1) (fun a => vok (d + 1) (RQ a) O) (fun e s' => exists R', RE e R' /\ vok (d + 1) R' O s')) ->
  runs (locked m s) (fun a => vok d (RQ a) O) (fun e s' => exists R', RE e R' /\ vok d R' O s').
Proof.
  intros Hd Hs Hm. apply (locked_runs m s _ _ d); [apply Hs|done|]. eapply runs_mono; [apply Hm; [by eapply vok_depth|done|done]| |]; cbv beta.
  - intros ? s' Hs'. split; [apply Hs'|by eapply vok_depth].
  - intros ? s' (R' & HR & Hs'). split; [apply Hs'|]. exists R'. split; [done|by eapply vok_depth].
Qed.

Lemma locked_vok_same {A} (m : M vfs A) d s R O : 0 <= d < 2 ^ 31 -> vok d R O s ->
  (forall s1, vok (d + 1) R O s1 -> runs (m s1) (fun _ => vok (d + 1) R O) (fun _ => vok (d + 1) R O)) ->
  runs (locked m s) (fun _ => vok d R O) (fun _ => vok d R O).
Proof.
  intros Hd Hs Hm. eapply runs_mono; [apply (locked_vok m d s R O (fun _ => R) (fun _ R' => R' = R)); [done|done|]|done|].
  - intros s1 Hs1 _ _. eapply runs_mono; [by apply Hm|done|]. intros. by exists R.
  - intros e s' (? & -> & Hs'). done.
Qed.

Lemma vfs_setbootfs_spec d R O s n : 0 <= d < 2 ^ 30 -> vok d R O s ->
  runs (vfs_setbootfs n s) (fun _ => vok d R O) (fun _ => vok d R O).
Proof.
  intros Hd Hs. apply locked_vok_same; [lia|done|]. intros s1 Hs1. cbv beta zeta. case_bool_decide; [done|]. runs_steps.
  eapply runs_mono; [apply (vfs_chdir_spec (d + 1)); [lia|exact Hs1]| |done]. intros ? s2 Hs2. runs_steps.
  eapply runs_mono; [eapply getcurdir_spec, vok_vat, Hs2| |by intros ? ? []]. intros v s3 [[Hs3 _] _].
  by apply returns_runs, (change_bootfs_spec _ _ _ _ (Some v)).
Qed.

Lemma vfs_clearbootfs_spec d R O s : 0 <= d < 2 ^ 31 -> vok d R O s ->
  runs (vfs_clearbootfs s) (fun _ => vok d R O) (fun _ => vok d R O).
Proof.
  intros Hd Hs. apply locked_vok_same; [lia|done|]. intros s1 Hs1. apply returns_runs, (change_bootfs_spec _ _ _ _ None).
  simpl. by rewrite gmultiset_disj_union_right_id.
Qed.

(** ** The device table *)

Lemma zlookup_split {A} (l : list A) i kd : zlookup l i = Some kd ->
  exists l1 l2, l = l1 ++ kd :: l2 /\ forall y, zinsert l i y = l1 ++ y :: l2.
Proof.
  unfold zlookup, zinsert. case_bool_decide; [|done]. intros Hi. exists (take (Z.to_nat i) l), (drop (S (Z.to_nat i)) l).
  split; [symmetry; by apply take_drop_middle|]. intros y. apply insert_take_drop. by eapply lookup_lt_Some.
Qed.

(** Mounting and unmounting change one entry's file system. *)
Lemma vok_set_fs d R O s f i kd x :
  vok d R O s -> zlookup (knowndevs s) i = Some kd -> fs_ok f (R ⊎ own s) O ->
  (forall v, v ∈ own s -> vn_fs f v = vn_fs (vs_fs s) v) ->
  (forall kd' y, kd' ∈ knowndevs s -> kd_fs kd' = Some y -> kd_fs kd <> Some y -> mounted f y) ->
  kd_rawname kd <> None -> (forall y, x = Some y -> mounted f y /\ y ∉ omap kd_fs (knowndevs s)) ->
  vok d R O (put_devs (zinsert (knowndevs s) i (with_fs x kd)) (put_fs f s)).
Proof.
  intros [H1 H2 H3 H4 H5 H6] Hi Hf Hv Hm Hraw Hx. destruct (zlookup_split _ _ _ Hi) as (l1 & l2 & El & Hins).
  assert (omap kd_ref (zinsert (knowndevs s) i (with_fs x kd)) = omap kd_ref (knowndevs s)) as Evn by (by rewrite Hins, El, !omap_app).
  assert (kd_names <$> zinsert (knowndevs s) i (with_fs x kd) = kd_names <$> knowndevs s) as Enm by (by rewrite Hins, El, !fmap_app).
  assert (own (put_devs (zinsert (knowndevs s) i (with_fs x kd)) (put_fs f s)) = own s) as Eown by (unfold own; simpl; by rewrite Evn).
  split; try done; simpl.
  - by rewrite Eown.
  - rewrite Hins. rewrite El in H2, H5, Hm. apply Forall_app in H2 as [Ha [Hk Hb]%Forall_cons].
    assert (forall kd', kd' ∈ l1 \/ kd' ∈ l2 -> kd_ok (vs_fs s) kd' -> kd_ok f kd') as Hothers.
    { intros kd' Hin (K1 & K2). split; [|done]. intros y Hy. apply (Hm kd' y); [|done|].
      - rewrite elem_of_app, elem_of_cons. tauto.
      - intros Hkd. rewrite omap_app in H5. simpl in H5. rewrite Hkd in H5. apply NoDup_app in H5 as (_ & N1 & [N2 _]%NoDup_cons).
        destruct Hin as [Hin|Hin]; [apply (N1 y)|apply N2]; [|by left|]; apply list_elem_of_omap; by exists kd'. }
    apply Forall_app. split; [|apply Forall_cons; split].
    + rewrite Forall_forall in Ha |- *. intros kd' Hin. by apply Hothers; [left|apply Ha].
    + destruct Hk as (_ & K2 & _). split_and!; [intros y Hy; by apply (Hx y)|done|]. intros _. by apply K2.
    + rewrite Forall_forall in Hb |- *. intros kd' Hin. by apply Hothers; [right|apply Hb].
  - intros v Hc. rewrite Hv; [by apply H3|]. unfold own. destruct Hc as [Hc|Hc]; [rewrite Hc; simpl|]; multiset_solver.
  - rewrite Hins. rewrite El in H5, Hx. rewrite omap_app in H5 |- *. simpl in H5 |- *.
    assert (NoDup (omap kd_fs l1 ++ omap kd_fs l2)) as Hnd by (by destruct (kd_fs kd); [apply NoDup_mid in H5 as []|]).
    destruct x as [y|]; [|done]. destruct (Hx y eq_refl) as [_ Hy]. apply NoDup_mid. split; [done|].
    rewrite omap_app in Hy. simpl in Hy. destruct (kd_fs kd); rewrite elem_of_app in Hy; [rewrite elem_of_cons in Hy|]; rewrite elem_of_app; tauto.
  - by rewrite Enm.
Qed.

Lemma findmount_loop_spec l i n j kd : 0 <= i -> findmount_loop l i n = Some (j, kd) ->
  i <= j /\ zlookup l (j - i) = Some kd /\ kd_name kd = n /\ kd_rawname kd <> None.
Proof.
  revert i. induction l as [|k l IH]; intros i Hi; simpl; [done|]. destruct (negb _ && _) eqn:E.
  - intros [= <- <-]. apply andb_prop in E as [E1 E2]. rewrite Z.sub_diag. split_and!; [lia|done|by apply bool_decide_eq_true in E2|].
    by destruct (kd_rawname k).
  - intros (H1 & H2 & H3 & H4)%IH; [|lia]. split_and!; [lia| |done..].
    pose proof (zlookup_Some_range _ _ _ H2) as Hr. change (k :: l) with ([k] ++ l).
    rewrite zlookup_app_r; change (zlen [k]) with 1; [by replace (j - i - 1) with (j - (i + 1)) by lia|lia].
Qed.

Lemma findmount_spec d R O s n : 0 < d -> vok d R O s ->
  runs (findmount n s) (fun r s' => s' = s /\ zlookup (knowndevs s) (fst r) = Some (snd r) /\ kd_rawname (snd r) <> None) (fun e s' => e = ENODEV /\ s' = s).
Proof.
  intros Hd Hs. unfold findmount. runs_steps. apply runs_KASSERT. { unfold vfs_biglock_do_i_hold. rewrite (v_depth _ _ _ _ Hs). lia. }
  destruct (findmount_loop _ _ _) as [[j kd]|] eqn:E; [|done]. apply findmount_loop_spec in E as (Hj & Hl & _ & Hr); [|done].
  rewrite Z.sub_0_r in Hl. done.
Qed.

Lemma kd_ok_at d R O s i kd : vok d R O s -> zlookup (knowndevs s) i = Some kd -> kd_ok (vs_fs s) kd.
Proof. intros Hs Hi. eapply Forall_zlookup; [apply Hs|exact Hi]. Qed.

Lemma zlookup_kd_elem (l : list knowndev) i kd : zlookup l i = Some kd -> kd ∈ l.
Proof. intros Hi. apply zlookup_split in Hi as (l1 & l2 & -> & _). apply elem_of_app. right. by left. Qed.

(** What [vfs_mount] relies on of [mountfunc]: a file system not mounted
    before, or an error. *)
Definition mount_ok (mountfunc : Z -> M F Z) : Prop := forall dev f R O, fs_ok f R O ->
  runs (mountfunc dev f) (fun x f' => (fs_ok f' R O /\ keeps f (R ⊎ O) f') /\ mounted f' x /\ ~ mounted f x)
    (fun _ f' => fs_ok f' R O /\ keeps f (R ⊎ O) f').

Lemma vfs_mount_spec d R O s n mf : 0 <= d < 2 ^ 31 -> vok d R O s -> mount_ok mf ->
  runs (vfs_mount n mf s) (fun _ => vok d R O) (fun _ => vok d R O).
Proof.
  intros Hd Hs Hmf. apply locked_vok_same; [done|done|]. intros s1 Hs1. runs_steps.
  eapply runs_mono; [apply (findmount_spec (d + 1) R O); [lia|exact Hs1]| |by intros ? ? [_ ->]]. intros [i kd] ? (-> & Hi & Hraw). simpl in Hi, Hraw.
  pose proof (kd_ok_at _ _ _ _ _ _ Hs1 Hi) as (_ & Hdev & _). specialize (Hdev Hraw). destruct (kd_fs kd) as [y|] eqn:Efs; simpl; [done|].
  runs_steps. apply runs_KASSERT; [by destruct (kd_rawname kd)|]. destruct (kd_device kd) as [dv|]; [|done]. runs_steps. apply runs_zoom.
  eapply runs_mono; [eapply Hmf, Hs1| |]; cbv beta.
  - intros x f' [[Hf [Hk1 Hk2]] [Hx Hnx]]. unfold set_fs. runs_steps. apply (vok_set_fs _ _ _ s1 f'); try done.
    + intros v Hv. apply Hk1. multiset_solver.
    + intros kd' y Hin Hy _. apply Hk2. pose proof (v_kd _ _ _ _ Hs1) as Hall. rewrite Forall_forall in Hall. by apply (Hall kd' Hin).
    + intros y [= <-]. split; [done|]. intros (kd' & Hin & Hy)%list_elem_of_omap. apply Hnx.
      pose proof (v_kd _ _ _ _ Hs1) as Hall. rewrite Forall_forall in Hall. by apply (Hall kd' Hin).
  - intros e f' Hf. eapply vat_put_fs; [by apply vok_vat|exact Hf|done|multiset_solver].
Qed.

(** Sync and unmount of entry [i]; [k] decides what a failure does. *)
Lemma unmount_spec d R O s i kd x : vok d R O s -> zlookup (knowndevs s) i = Some kd -> kd_rawname kd <> None -> kd_fs kd = Some x ->
  runs ((on_fs (fsop_unmount x) ;; set_fs i kd None) s) (fun _ s' => vok d R O s' /\ length (knowndevs s') = length (knowndevs s))
    (fun _ s' => vok d R O s' /\ length (knowndevs s') = length (knowndevs s)).
Proof.
  intros Hs Hi Hraw Hfs. runs_steps. apply runs_zoom. pose proof (kd_ok_at _ _ _ _ _ _ Hs Hi) as (Hm & _).
  eapply runs_mono; [apply unmount_ok; [apply Hs|by apply Hm]| |]; cbv beta.
  - intros _ f' (Hf & Hk1 & Hk2). unfold set_fs. runs_steps. split.
    + apply (vok_set_fs _ _ _ s f'); try done.
      * intros v Hv. apply Hk1. multiset_solver.
      * intros kd' y Hin Hy Hne. apply Hk2; [congruence|]. pose proof (v_kd _ _ _ _ Hs) as Hall. rewrite Forall_forall in Hall. by apply (Hall kd' Hin).
    + simpl. pose proof (zlen_zinsert (knowndevs s) i (with_fs None kd)) as El. unfold zlen in El. lia.
  - intros e f' Hf. split; [|done]. eapply vat_put_fs; [by apply vok_vat|exact Hf|done|multiset_solver].
Qed.

Lemma vfs_unmount_spec d R O s n : 0 <= d < 2 ^ 31 -> vok d R O s ->
  runs (vfs_unmount n s) (fun _ => vok d R O) (fun _ => vok d R O).
Proof.
  intros Hd Hs. apply locked_vok_same; [done|done|]. intros s1 Hs1. runs_steps.
  eapply runs_mono; [apply (findmount_spec (d + 1) R O); [lia|exact Hs1]| |by intros ? ? [_ ->]]. intros [i kd] ? (-> & Hi & Hraw). simpl in Hi, Hraw.
  pose proof (kd_ok_at _ _ _ _ _ _ Hs1 Hi) as (Hm & Hdev & _). specialize (Hdev Hraw). destruct (kd_fs kd) as [x|] eqn:Efs; [|done].
  runs_steps. apply runs_KASSERT; [by destruct (kd_rawname kd)|]. runs_steps. apply runs_KASSERT; [by destruct (kd_device kd)|].
  runs_steps. eapply runs_mono; [eapply sync_spec; [by apply vok_vat|by apply Hm]| |by intros ? ? []].
  intros ? s2 [Hs2 (Ed & _)]. eapply runs_mono; [apply (unmount_spec (d + 1) R O s2 i kd x); [done|by rewrite Ed|done|done]| |]; by intros ? ? [].
Qed.

Lemma sync_loop_spec d R O s l : vok d R O s -> (forall kd, kd ∈ l -> kd ∈ knowndevs s) ->
  returns (sync_loop l s) (fun _ => vok d R O).
Proof.
  revert s. induction l as [|kd l IH]; intros s Hs Hl; simpl; runs_steps; [done|].
  assert (kd_ok (vs_fs s) kd) as (Hm & _). { pose proof (v_kd _ _ _ _ Hs) as Hall. rewrite Forall_forall in Hall. apply Hall, Hl. by left. }
  destruct (kd_fs kd) as [x|]; runs_steps; [|by apply IH; [|intros; apply Hl; right]].
  eapply runs_mono; [eapply sync_spec; [by apply vok_vat|by apply Hm]| |]; intros ? s1 [Hs1 (Ed & _)]; runs_steps;
    (apply IH; [done|]; rewrite Ed; intros; apply Hl; by right).
Qed.

Lemma vfs_sync_spec d R O s : 0 <= d < 2 ^ 31 -> vok d R O s -> runs (vfs_sync s) (fun _ => vok d R O) (fun _ => vok d R O).
Proof. intros Hd Hs. apply locked_vok_same; [done|done|]. intros s1 Hs1. runs_steps. by apply returns_runs, sync_loop_spec. Qed.

(** The body of the loop of [vfs_unmountall], for a mounted entry. *)
Lemma unmount_one d R O s i kd x : vok d R O s -> zlookup (knowndevs s) i = Some kd -> kd_rawname kd <> None -> kd_fs kd = Some x ->
  returns ((let* r := try (on_fs (fsop_sync x)) in
    let* r := match r with inl _ => ret r | inr _ => try (on_fs (fsop_sync x)) end in
    match r with
    | inr _ => ret tt
    | inl _ =>
        let* r := try (on_fs (fsop_unmount x)) in
        match r with inr _ => ret tt | inl _ => set_fs i kd None end
    end) s) (fun _ s' => vok d R O s' /\ length (knowndevs s') = length (knowndevs s)).
Proof.
  intros Hs Hi Hraw Hfs.
  assert (forall s1, vat d s R O s1 -> mounted (vs_fs s1) x /\ zlookup (knowndevs s1) i = Some kd) as Hsame.
  { intros s1 [Hs1 (Ed & _)]. rewrite Ed. split; [|done]. rewrite <- Ed in Hi. by apply (kd_ok_at _ _ _ _ _ _ Hs1 Hi). }
  assert (forall s1, vat d s R O s1 -> returns ((let* r := try (on_fs (fsop_unmount x)) in
     match r with inr _ => ret tt | inl _ => set_fs i kd None end) s1) (fun _ s' => vok d R O s' /\ length (knowndevs s') = length (knowndevs s))) as Hun.
  { intros s1 Hs1. pose proof (proj2 (Hsame s1 Hs1)) as Hi1. destruct Hs1 as [Hs1 (Ed & _)]. rewrite <- Ed.
    pose proof (unmount_spec d R O s1 i kd x Hs1 Hi1 Hraw Hfs) as Hspec. apply runs_bind_inv in Hspec. runs_steps.
    eapply runs_mono; [exact Hspec| |]; cbv beta; [|done]. intros ? s2 Hs2. exact Hs2. }
  apply runs_bind, runs_try. assert (vat d s R O s) as Hv by by apply vok_vat.
  eapply runs_mono; [eapply sync_spec; [exact Hv|by apply Hsame]| |]; cbv beta; intros ? s1 Hs1; apply runs_bind; [by apply Hun|].
  apply runs_try. eapply runs_mono; [eapply sync_spec; [exact Hs1|by apply Hsame]| |]; cbv beta; intros ? s2 Hs2; [by apply Hun|].
  split; [apply Hs2|]. by rewrite (proj1 (proj2 Hs2)).
Qed.

Lemma unmountall_loop_spec d R O n : forall s i, vok d R O s -> 0 <= i -> i + Z.of_nat n = zlen (knowndevs s) ->
  returns (unmountall_loop n i s) (fun _ => vok d R O).
Proof.
  induction n as [|n IH]; intros s i Hs Hi Hn; simpl; runs_steps; [done|].
  destruct (zlookup_is_Some (knowndevs s) i ltac:(lia)) as [kd Hkd]. eapply runs_of_option; [exact Hkd|]. runs_steps.
  assert (forall s', vok d R O s' /\ length (knowndevs s') = length (knowndevs s) -> returns (unmountall_loop n (i + 1) s') (fun _ => vok d R O)) as Hnext.
  { intros s' [Hs' El]. apply IH; [done|lia|unfold zlen in *; lia]. }
  destruct (kd_rawname kd) as [raw|] eqn:Eraw; [|by apply Hnext]. destruct (kd_fs kd) as [x|] eqn:Ex; [|by apply Hnext].
  eapply runs_mono; [eapply (unmount_one d R O); [done|exact Hkd|congruence|done]| |done]. intros ? s' Hs'. by apply Hnext.
Qed.

Lemma vfs_unmountall_spec d R O s : 0 <= d < 2 ^ 31 -> vok d R O s -> runs (vfs_unmountall s) (fun _ => vok d R O) (fun _ => vok d R O).
Proof.
  intros Hd Hs. apply locked_vok_same; [done|done|]. intros s1 Hs1. runs_steps. by apply returns_runs, unmountall_loop_spec; [|lia|].
Qed.

(** ** New devices *)

Lemma samestring_false a b c d n : samestring3 a b c d = false -> (b = Some n \/ c = Some n \/ d = Some n) -> a <> Some n.
Proof.
  unfold samestring3, samestring, streq. intros H Hn ->. destruct Hn as [->|[->| ->]]; rewrite bool_decide_true in H by done;
    rewrite ?orb_true_r in H; simpl in H; try done; by rewrite ?orb_true_r in H.
Qed.

Lemma badnames_fresh f l n1 n2 n3 : badnames_loop f l n1 n2 n3 = false ->
  forall n, n1 = Some n \/ n2 = Some n -> n ∉ concat (kd_names <$> l).
Proof.
  induction l as [|kd l IH]; simpl; intros Hb n Hn; [apply not_elem_of_nil|].
  destruct (match kd_fs kd with Some _ => _ | None => _ end); [done|]. destruct (samestring3 _ _ _ _) eqn:E1; [done|].
  destruct (samestring3 (Some _) _ _ _) eqn:E2; [done|]. specialize (IH Hb n Hn).
  assert (kd_rawname kd <> Some n) as H1 by (eapply samestring_false; [exact E1|tauto]).
  assert (Some (kd_name kd) <> Some n) as H2 by (eapply samestring_false; [exact E2|tauto]).
  change (n ∉ kd_names kd ++ concat (kd_names <$> l)). rewrite elem_of_app. intros [Hin|?]; [|done]. unfold kd_names in Hin. apply elem_of_cons in Hin as [->|Hin]; [done|].
  destruct (kd_rawname kd); [|by apply elem_of_nil in Hin]. apply list_elem_of_singleton in Hin as ->. done.
Qed.

(** Allocating and freeing change nothing else. *)
Definition mem_only s s' : Prop := exists o x, s' = put_mem o x s.

Lemma kmalloc_spec s (Q : bool -> vfs -> Prop) : (forall b s', mem_only s s' -> Q b s') -> returns (kmalloc s) Q.
Proof. intros HQ. unfold kmalloc. runs_steps. apply HQ. by eexists _, _. Qed.

Lemma vok_mem d R O s s' : mem_only s s' -> vok d R O s -> vok d R O s'.
Proof. intros (o & x & ->) []. by split. Qed.

Lemma nomem_spec {A} d s R O a b vnode (Q : A -> vfs -> Prop) :
  match vnode with None => vok d R O s | Some v => returns (free_vnode v (vs_fs s)) (fun _ f' => vok d R O (put_fs f' s)) end ->
  runs (nomem a b vnode s) Q (fun e s' => vok d R O s').
Proof.
  intros Hs. unfold nomem.
  assert (forall (c : bool) s1 (P : unit -> vfs -> Prop) E, (forall s2, mem_only s1 s2 -> P tt s2) -> runs ((if* c then kfree) s1) P E) as Hfree.
  { intros [] s1 P E HQ; apply HQ; [by eexists _, _|]. exists (oracle s1), (blocks s1). by destruct s1. }
  runs_steps. apply Hfree. intros s1 (o1 & x1 & ->). runs_steps. apply Hfree. intros s2 (o2 & x2 & ->). runs_steps.
  destruct vnode as [v|]; [|runs_steps; by destruct Hs; split]. apply runs_zoom.
  eapply runs_mono; [exact Hs| |done]. intros ? f' Hf'. runs_steps. by destruct Hf'; split.
Qed.

Lemma raw_ne (n : name) : n <> n ++ RAW.
Proof. intros E. apply (f_equal length) in E. rewrite length_app in E. simpl in E. lia. Qed.

(** A device added to the table. *)
Lemma vok_add d R O s kd :
  vok d (R ⊎ opt_ref (kd_ref kd)) O s -> kd_ok (vs_fs s) kd -> (forall x, kd_fs kd = Some x -> x ∉ omap kd_fs (knowndevs s)) ->
  (kd_rawname kd = None \/ kd_rawname kd = Some (kd_name kd ++ RAW)) ->
  (forall n, n ∈ kd_names kd -> n ∉ concat (kd_names <$> knowndevs s)) ->
  vok d R O (put_devs (knowndevs s ++ [kd]) s).
Proof.
  intros [H1 H2 H3 H4 H5 H6] Hkd Hfs Hraw Hn. split; try done; simpl.
  - replace (R ⊎ own _) with (R ⊎ opt_ref (kd_ref kd) ⊎ own s); [done|]. unfold own. simpl.
    rewrite omap_app, list_to_set_disj_app. simpl. destruct (kd_ref kd); simpl; multiset_solver.
  - apply Forall_app. split; [done|]. by constructor.
  - rewrite omap_app. simpl. apply NoDup_app. split_and!; [done| |by destruct (kd_fs kd); [apply NoDup_singleton|constructor]].
    intros y Hy. destruct (kd_fs kd) as [x|]; [|apply not_elem_of_nil]. intros ->%list_elem_of_singleton. by apply (Hfs x).
  - rewrite fmap_app, concat_app. simpl. rewrite app_nil_r. apply NoDup_app. split_and!; [done| |].
    + intros y Hy Hin. by apply (Hn y).
    + unfold kd_names. destruct Hraw as [-> | ->]; [apply NoDup_singleton|]. apply NoDup_cons. split; [|apply NoDup_singleton].
      intros E%list_elem_of_singleton. by apply raw_ne in E.
Qed.

(** What a failed addition leaves: at worst the reference of a device vnode
    that nothing uses. *)
Definition leak_of (e : Z) R R' : Prop := R' = R \/ (e = EEXIST \/ e = ENOMEM) /\ exists o, R' = R ⊎ opt_ref o.

(** The end of [vfs_doadd], once everything is allocated. *)
Lemma add_spec d R O s kd : 0 < d -> vok d (R ⊎ opt_ref (kd_ref kd)) O s -> kd_ok (vs_fs s) kd ->
  (forall x, kd_fs kd = Some x -> x ∉ omap kd_fs (knowndevs s)) ->
  (kd_rawname kd = None \/ kd_rawname kd = Some (kd_name kd ++ RAW)) ->
  runs ((let* bad := badnames (Some (kd_name kd)) (kd_rawname kd) (match kd_fs kd with Some x => fsop_getvolname (vs_fs s) x | None => None end) in
    if bad then err EEXIST
    else
      let* index := knowndevarray_add kd in
      match kd_device kd with
      | Some d => modify (fun s => put_number (<[d := index + 1]> (d_devnumber s)) s)
      | None => ret tt
      end) s) (fun _ => vok d R O) (fun e s' => exists R', leak_of e R R' /\ vok d R' O s').
Proof.
  intros Hd Hs Hkd Hfs Hraw. unfold badnames. runs_steps. apply runs_KASSERT.
  { unfold vfs_biglock_do_i_hold. rewrite (v_depth _ _ _ _ Hs). lia. }
  runs_steps. destruct (badnames_loop _ _ _ _ _) eqn:Eb.
  { exists (R ⊎ opt_ref (kd_ref kd)). split; [right; split; [by left|by eexists]|done]. }
  unfold knowndevarray_add. runs_steps. set (s1 := put_mem _ _ s). assert (vok d (R ⊎ opt_ref (kd_ref kd)) O s1) as Hs1 by (by destruct Hs; split).
  destruct (match oracle s with [] => true | b :: _ => b end).
  - runs_steps. assert (vok d R O (put_devs (knowndevs s ++ [kd]) s1)) as Hs2.
    { apply (vok_add d R O s1 kd); try done. intros n Hn. eapply (badnames_fresh _ _ _ _ _ Eb). unfold kd_names in Hn.
      apply elem_of_cons in Hn as [->|Hn]; [by left|right]. destruct (kd_rawname kd); [|by apply elem_of_nil in Hn].
      by apply list_elem_of_singleton in Hn as ->. }
    destruct (kd_device kd); runs_steps; [by destruct Hs2; split|done].
  - runs_steps. exists (R ⊎ opt_ref (kd_ref kd)). split; [right; split; [by right|by eexists]|done].
Qed.

Lemma nomem_none d R O s a b : vok d R O s ->
  runs (nomem a b None s) (fun _ : unit => vok d R O) (fun e s' => exists R', leak_of e R R' /\ vok d R' O s').
Proof.
  intros Hs. eapply runs_mono; [by eapply (nomem_spec d s R O _ _ None)|intros ? ? HQ; exact HQ|].
  intros e s2 Hs2. exists R. split; [by left|done].
Qed.

Lemma doadd_named_spec d R O s n mountable rawname dev fs : 0 < d -> vok d R O s ->
  (rawname <> None -> dev <> None) -> (fs = None -> dev <> None) ->
  (forall x, fs = Some x -> mounted (vs_fs s) x /\ x ∉ omap kd_fs (knowndevs s)) ->
  (rawname = None \/ rawname = Some (n ++ RAW)) ->
  runs (doadd_named n mountable rawname dev fs s) (fun _ => vok d R O) (fun e s' => exists R', leak_of e R R' /\ vok d R' O s').
Proof.
  intros Hd Hs Hmt Hdev Hfs Hraw. unfold doadd_named. runs_steps. apply runs_zoom.
  eapply runs_mono; [apply dev_create_ok, Hs| |done]. intros vn f' (Hk & Hf' & Hfree).
  set (kd := mkKd n rawname dev (default 0 vn) fs). assert (vok d (R ⊎ match vn with Some _ => opt_ref (kd_ref kd) | None => ∅ end) O (put_fs f' s)) as Hs4.
  { eapply vat_put_fs; [by apply vok_vat|split; [exact Hf'|exact Hk]| |multiset_solver]. destruct vn, dev; simpl; clear; multiset_solver. }
  destruct vn as [v|]; [|apply nomem_none; by rewrite gmultiset_disj_union_right_id in Hs4].
  runs_steps. apply returns_runs, kmalloc_spec. intros ok s5 (o5 & x5 & ->).
  assert (vok d (R ⊎ opt_ref (kd_ref kd)) O (put_mem o5 x5 (put_fs f' s))) as Hs5 by (by destruct Hs4; split).
  destruct ok; simpl.
  2: { eapply runs_mono; [apply (nomem_spec d _ R O _ _ (Some v))|intros ? ? HQ; exact HQ|].
       - simpl. eapply runs_mono; [by apply Hfree| |done]. intros ? f2 Hf2. assert (vok d R O (put_fs f2 s)) as Hok.
         { eapply vat_put_fs; [by apply vok_vat|exact Hf2|done|multiset_solver]. } by destruct Hok; split.
       - intros e s6 Hs6. exists R. split; [by left|done]. }
  apply runs_bind, runs_get. cbv beta. apply (add_spec d R O _ kd); simpl; [lia|done| | |done].
  - destruct Hk as [_ Hk]. split_and!; simpl; [intros x Hx; apply Hk; by apply (Hfs x)|done|done].
  - intros x Hx. by apply (Hfs x).
Qed.

Lemma vfs_doadd_spec d R O s n mountable dev fs : 0 <= d < 2 ^ 31 -> vok d R O s ->
  (mountable = true -> dev <> None) -> (fs = None -> dev <> None) ->
  (forall x, fs = Some x -> mounted (vs_fs s) x /\ x ∉ omap kd_fs (knowndevs s)) ->
  runs (vfs_doadd n mountable dev fs s) (fun _ => vok d R O) (fun e s' => exists R', leak_of e R R' /\ vok d R' O s').
Proof.
  intros Hd Hs Hmt Hdev Hfs. apply (locked_vok _ d s R O (fun _ => R)); [done|done|]. intros s1 Hs1 Ef Ek. rewrite <- Ef, <- Ek in Hfs.
  runs_steps. apply returns_runs, kmalloc_spec. intros name_ok s2 (o2 & x2 & ->). set (s2 := put_mem o2 x2 s1).
  assert (vok (d + 1) R O s2) as Hs2 by (by destruct Hs1; split). destruct name_ok; [|by apply nomem_none]. simpl. apply runs_bind.
  destruct mountable; [|apply runs_ret, doadd_named_spec; auto; lia].
  unfold mkrawname. runs_steps. apply returns_runs, kmalloc_spec. intros ok s3 (o3 & x3 & ->). set (s3 := put_mem o3 x3 s2).
  assert (vok (d + 1) R O s3) as Hs3 by (by destruct Hs2; split). destruct ok; apply runs_ret; [|by apply nomem_none].
  apply doadd_named_spec; auto. lia.
Qed.

Lemma vfs_readlink_spec d R O s x path : 0 <= d < 2 ^ 31 -> vok d R O s -> uio_ready x ->
  runs (vfs_readlink path (s, x)) (fun _ t => vok d R O (fst t)) (fun _ t => vok d R O (fst t)).
Proof.
  intros Hd Hs Hx. unfold vfs_readlink. runs_steps. apply runs_zoom.
  eapply runs_mono; [by apply vfs_lookup_spec; [|apply vok_vat]| |by intros ? ? []]. intros v s1 Hs1. apply runs_bind, runs_try, runs_zoom.
  eapply runs_mono; [apply readlink_ok; [apply Hs1|apply held_ref|done]| |]; cbv beta; intros a [f' x'] Hf; runs_steps; apply runs_zoom;
    (eapply runs_mono; [eapply decref_spec, vat_put_fs; [exact Hs1|exact Hf|done|multiset_solver]| |done]); by intros ? ? [].
Qed.

(** ** Any sequence of calls *)

Inductive call :=
  | COpen (path : name) (flags mode : Z)
  | CClose (v : Z)
  | CRemove (path : name)
  | CRename (oldpath newpath : name)
  | CLink (oldpath newpath : name)
  | CSymlink (contents path : name)
  | CMkdir (path : name) (mode : Z)
  | CRmdir (path : name)
  | CChdir (path : name)
  | CClearcurdir
  | CSetbootfs (n : name)
  | CClearbootfs
  | CSync
  | CAdddev (n : name) (dev : Z) (mountable : bool)
  | CAddfs (n : name) (fs : Z)
  | CMount (n : name) (mountfunc : Z -> M F Z)
  | CUnmount (n : name)
  | CUnmountall.

(** The vnode a call hands out, if any. *)
Definition nothing (m : M (vfs (F := F)) unit) : M (vfs (F := F)) (option Z) := m ;; ret None.
Definition vfs_call (c : call) : M (vfs (F := F)) (option Z) :=
  match c with
  | COpen p f m => let* v := vfs_open p f m in ret (Some v)
  | CClose v => nothing (vfs_close v)
  | CRemove p => nothing (vfs_remove p)
  | CRename p q => nothing (vfs_rename p q)
  | CLink p q => nothing (vfs_link p q)
  | CSymlink c p => nothing (vfs_symlink c p)
  | CMkdir p m => nothing (vfs_mkdir p m)
  | CRmdir p => nothing (vfs_rmdir p)
  | CChdir p => nothing (vfs_chdir p)
  | CClearcurdir => nothing vfs_clearcurdir
  | CSetbootfs n => nothing (vfs_setbootfs n)
  | CClearbootfs => nothing vfs_clearbootfs
  | CSync => nothing vfs_sync
  | CAdddev n d m => nothing (vfs_adddev n d m)
  | CAddfs n x => nothing (vfs_addfs n x)
  | CMount n mf => nothing (vfs_mount n mf)
  | CUnmount n => nothing (vfs_unmount n)
  | CUnmountall => nothing vfs_unmountall
  end.

(** What callers must see to: to close what is open, to add a file system that
    exists and is not in the table, and to mount with a proper function. *)
Definition allowed (c : call) s O : Prop :=
  match c with
  | CClose v => v ∈ O
  | CAddfs _ x => mounted (vs_fs s) x /\ x ∉ omap kd_fs (knowndevs s)
  | CMount _ mf => mount_ok mf
  | _ => True
  end.

Definition opens (c : call) (r : option Z) O : gmultiset Z :=
  match c with CClose v => O ∖ {[+ v +]} | _ => O ⊎ opt_ref r end.

(** An addition that failed may have left a vnode behind. *)
Definition spills (c : call) (e : Z) : bool :=
  match c with CAdddev _ _ _ | CAddfs _ _ => (e =? EEXIST) || (e =? ENOMEM) | _ => false end.

Lemma nothing_spec (m : M (vfs (F := F)) unit) c s R O :
  runs (m s) (fun _ => vok 0 R (opens c None O)) (fun e s' => exists R', (R' = R \/ spills c e = true) /\ vok 0 R' O s') ->
  runs (nothing m s) (fun r => vok 0 R (opens c r O)) (fun e s' => exists R', (R' = R \/ spills c e = true) /\ vok 0 R' O s').
Proof. intros Hm. unfold nothing. runs_steps. eapply runs_mono; [exact Hm| |done]. by intros. Qed.

Lemma vfs_call_spec c s R O : vok 0 R O s -> allowed c s O ->
  runs (vfs_call c s) (fun r => vok 0 R (opens c r O)) (fun e s' => exists R', (R' = R \/ spills c e = true) /\ vok 0 R' O s').
Proof.
  intros Hs Ha. assert (vat 0 s R O s) as Hv by by apply vok_vat.
  assert (forall m, (forall r, opens c r O = O ⊎ opt_ref r) -> runs (m s) (fun _ => vok 0 R O) (fun _ => vok 0 R O) ->
    runs (nothing m s) (fun r => vok 0 R (opens c r O)) (fun e s' => exists R', (R' = R \/ spills c e = true) /\ vok 0 R' O s')) as Hplain.
  { intros m Ho Hm. apply nothing_spec. rewrite Ho. simpl. rewrite gmultiset_disj_union_right_id. eapply runs_mono; [exact Hm|done|].
    intros e s' Hs'. exists R. split; [by left|done]. }
  assert (forall m : M (vfs (F := F)) unit, runs (m s) (fun _ => vat 0 s R O) (fun _ => vat 0 s R O) -> runs (m s) (fun _ => vok 0 R O) (fun _ => vok 0 R O)) as Hvat.
  { intros m Hm. eapply runs_mono; [exact Hm| |]; by intros ? ? []. }
  assert (forall n m d f, c = CAdddev n f m \/ c = CAddfs n f -> runs (vfs_doadd n m d (match c with CAddfs _ x => Some x | _ => None end) s)
      (fun _ => vok 0 R O) (fun e s' => exists R', leak_of e R R' /\ vok 0 R' O s') ->
    runs (nothing (vfs_doadd n m d (match c with CAddfs _ x => Some x | _ => None end)) s) (fun r => vok 0 R (opens c r O))
      (fun e s' => exists R', (R' = R \/ spills c e = true) /\ vok 0 R' O s')) as Hadd.
  { intros n m dv f Hc Hm. apply nothing_spec. replace (opens c None O) with O by (destruct Hc as [-> | ->]; simpl; by rewrite gmultiset_disj_union_right_id).
    eapply runs_mono; [exact Hm|done|]. intros e s' (R' & HR & Hs'). exists R'. split; [|done]. destruct HR as [?|[He _]]; [by left|right].
    destruct Hc as [-> | ->], He as [-> | ->]; done. }
  destruct c as [p f m|v|p|p q|p q|c p|p m|p|p| |n| | |n dv mt|n x|n mf|n|]; simpl in Ha; cbn [vfs_call].
  - runs_steps. eapply runs_mono; [by apply vfs_open_spec| |]; [by intros ? ? []|]. intros e s' [Hs' _]. exists R. split; [by left|done].
  - apply nothing_spec, returns_runs. eapply runs_mono; [apply (vfs_close_spec 0 s s R (O ∖ {[+ v +]}) v)| |done]; [|by intros ? ? []].
    replace (O ∖ {[+ v +]} ⊎ {[+ v +]}) with O by multiset_solver. done.
  - by apply Hplain, Hvat, in_parent_spec.
  - by apply Hplain, Hvat, vfs_rename_spec.
  - by apply Hplain, Hvat, vfs_link_spec.
  - by apply Hplain, Hvat, in_parent_spec.
  - by apply Hplain, Hvat, in_parent_spec.
  - by apply Hplain, Hvat, in_parent_spec.
  - by apply Hplain, vfs_chdir_spec.
  - by apply Hplain, returns_runs, vfs_clearcurdir_spec.
  - by apply Hplain, vfs_setbootfs_spec.
  - by apply Hplain, vfs_clearbootfs_spec.
  - by apply Hplain, vfs_sync_spec.
  - apply (Hadd n mt (Some dv) dv); [by left|]. by apply vfs_doadd_spec.
  - apply (Hadd n false None x); [by right|]. apply vfs_doadd_spec; try done. by intros ? [= <-].
  - by apply Hplain, vfs_mount_spec.
  - by apply Hplain, vfs_unmount_spec.
  - by apply Hplain, vfs_unmountall_spec.
Qed.

End Refs.

Section Calls.
Context {F : Type} `{!FileSystems F}.
Implicit Types (s : vfs (F := F)) (R O : gmultiset Z).

(** The state of the VFS layer with the open files of its callers, and whether
    an addition has failed. *)
Definition world : Type := vfs (F := F) * gmultiset Z * bool.

Inductive step : world -> world -> Prop :=
  | step_ret c s O b r s' : allowed c s O -> vfs_call c s = Ret r s' -> step (s, O, b) (s', opens c r O, b)
  | step_err c s O b e s' : allowed c s O -> vfs_call c s = Err e s' -> step (s, O, b) (s', O, b || spills c e).

(** [vfs_bootstrap] before it adds the null device. *)
Definition start (f : F) (o : list bool) : vfs := mkVfs f [] ∅ None None 0 o 0.

Lemma start_vok f o : fs_ok f ∅ ∅ -> vok ∅ 0 ∅ ∅ (start f o).
Proof.
  intros Hf. split; [|constructor|intros v [?|?]; [done|multiset_solver]|done|apply NoDup_nil_2|apply NoDup_nil_2].
  assert (own ∅ (start f o) = ∅) as -> by (unfold own; simpl; multiset_solver). by rewrite gmultiset_disj_union_left_id.
Qed.

Lemma reachable_vok f o w : fs_ok f ∅ ∅ -> rtc step (start f o, ∅, false) w ->
  exists L, (w.2 = false -> L = ∅) /\ vok ∅ 0 L w.1.2 w.1.1.
Proof.
  intros Hf Hr. apply (rtc_ind_r (R := step) (fun w : world => exists L, (w.2 = false -> L = ∅) /\ vok ∅ 0 L w.1.2 w.1.1) (start f o, ∅, false)); [|clear Hr w|exact Hr].
  { exists ∅. split; [done|]. by apply start_vok. }
  intros w w' _ Hstep (L & HL & Hok). destruct Hstep as [c s O b r s' Ha He|c s O b e s' Ha He]; simpl in *;
    pose proof (vfs_call_spec ∅ c s L O Hok Ha) as Hspec; rewrite He in Hspec; simpl in Hspec; [by exists L|].
  destruct Hspec as (R' & HR & Hs'). exists R'. split; [|done]. intros [Hb Hsp]%orb_false_iff. destruct HR as [->|?]; [by apply HL|congruence].
Qed.


(** ** Path names *)

Lemma find_sep_app dev rest i : COLON ∉ dev -> SLASH ∉ dev -> find_sep (dev ++ rest) i = find_sep rest (i + zlen dev).
Proof.
  revert i. induction dev as [|c dev IH]; intros i Hc Hs; simpl; [f_equal; unfold zlen; simpl; lia|].
  apply not_elem_of_cons in Hc as [Hc1 Hc2], Hs as [Hs1 Hs2]. rewrite (proj2 (Z.eqb_neq c COLON)), (proj2 (Z.eqb_neq c SLASH)) by done.
  rewrite IH by done. f_equal. rewrite zlen_cons. lia.
Qed.

Lemma skip_slashes_app k rest : head rest <> Some SLASH -> skip_slashes (replicate k SLASH ++ rest) = rest.
Proof.
  intros Hr. induction k as [|k IH]; simpl; [|done]. destruct rest as [|c rest]; [done|]. simpl in Hr |- *.
  by rewrite (proj2 (Z.eqb_neq c SLASH)) by congruence.
Qed.

(** The four forms of a path: "device:path" starts at the device's file system
    or the device itself, "/path" at the boot file system, ":path" at the root
    of the current file system, and any other at the current directory; slashes
    after the start are skipped. *)
Theorem path_forms (s : vfs (F := F)) (dev rest : name) (k : nat)
    (Hlock : 0 < vfs_biglock_depth s) (Hc : COLON ∉ dev) (Hs : SLASH ∉ dev) (Hrest : head rest <> Some SLASH) :
  (dev <> [] -> getdevice (dev ++ COLON :: replicate k SLASH ++ rest) s = (let* v := vfs_getroot dev in ret (rest, v)) s) /\
  getdevice (SLASH :: replicate k SLASH ++ rest) s =
    match bootfs_vnode s with None => Err ENOENT s | Some b => (VOP_INCREF b ;; ret (rest, b)) s end /\
  getdevice (COLON :: replicate k SLASH ++ rest) s =
    (let* cwd := vfs_getcurdir in
     let* s := get in
     match vn_fs (vs_fs s) cwd with
     | None => panic
     | Some x => let* v := on_fs (fsop_getroot x) in VOP_DECREF cwd ;; ret (rest, v)
     end) s /\
  getdevice dev s = (let* v := vfs_getcurdir in ret (dev, v)) s /\
  (dev <> [] -> getdevice (dev ++ SLASH :: rest) s = (let* v := vfs_getcurdir in ret (dev ++ SLASH :: rest, v)) s).
Proof.
  assert (forall path slash colon, find_sep path 0 = (slash, colon) -> getdevice path s = start_at path slash colon s) as Hget.
  { intros path slash colon E. unfold getdevice, bind, get, KASSERT, vfs_biglock_do_i_hold. by rewrite (proj2 (Z.ltb_lt _ _) Hlock), E. }
  assert (dev <> [] -> 0 < zlen dev) as Hpos by (intros; destruct dev; [done|rewrite zlen_cons; pose proof (zlen_nonneg dev); lia]).
  assert (forall c l, ztake (zlen dev) (dev ++ c :: l) = dev /\ zdrop (zlen dev + 1) (dev ++ c :: l) = l) as Hsplit.
  { intros c l. pose proof (zlen_nonneg dev). unfold ztake, zdrop, zlen. rewrite Z2Nat.inj_add, Nat2Z.id by lia. rewrite take_app_length. split; [done|].
    rewrite <- drop_drop, drop_app_length. done. }
  split_and!.
  - intros Hd. specialize (Hpos Hd). rewrite (Hget _ (-1) (zlen dev)) by (by rewrite find_sep_app). unfold start_at.
    rewrite (proj2 (Z.ltb_ge (zlen dev) 0)), (proj2 (Z.ltb_lt 0 (zlen dev))) by lia. simpl.
    destruct (Hsplit COLON (replicate k SLASH ++ rest)) as [-> ->]. by rewrite skip_slashes_app.
  - rewrite (Hget _ 0 (-1)) by done. unfold start_at. change (zdrop 1 (SLASH :: replicate k SLASH ++ rest)) with (replicate k SLASH ++ rest).
    rewrite skip_slashes_app by done. unfold bind, get. simpl.
    destruct (bootfs_vnode s); [|done]. by destruct (VOP_INCREF z s).
  - rewrite (Hget _ (-1) 0) by done. unfold start_at. change (zdrop 1 (COLON :: replicate k SLASH ++ rest)) with (replicate k SLASH ++ rest).
    rewrite skip_slashes_app by done. unfold bind, get. simpl.
    destruct (vfs_getcurdir s) as [v s1| |]; [|done|done]. destruct (vn_fs (vs_fs s1) v) as [x|]; [|done].
    destruct (on_fs (fsop_getroot x) s1) as [w s2| |]; [|done|done]. by destruct (VOP_DECREF v s2).
  - rewrite (Hget _ (-1) (-1)); [done|]. rewrite <- (app_nil_r dev), find_sep_app by done. done.
  - intros Hd. specialize (Hpos Hd). rewrite (Hget _ (zlen dev) (-1)) by (by rewrite find_sep_app). unfold start_at.
    by rewrite (proj2 (Z.eqb_neq (zlen dev) 0)) by lia.
Qed.

(** ** Device names *)

(** Whose name it is, [kd] is what the loop finds. *)
Lemma getroot_loop_exact s n kd l1 l2 :
  (forall kd' x, kd' ∈ l1 ++ kd :: l2 -> kd_fs kd' = Some x -> fsop_getvolname (vs_fs s) x <> Some n) ->
  (forall kd', kd' ∈ l1 -> n ∉ kd_names kd') ->
  getroot_loop (l1 ++ kd :: l2) n s = getroot_loop (kd :: l2) n s.
Proof.
  intros Hvol. induction l1 as [|k l1 IH]; intros Hn; [done|]. simpl app. rewrite <- IH.
  2: { intros kd' x Hin. apply Hvol. by right. }
  2: { intros kd' Hin. apply Hn. by right. }
  pose proof (Hn k ltac:(by left)) as Hk. unfold kd_names in Hk. apply not_elem_of_cons in Hk as [Hk1 Hk2].
  cbn [getroot_loop]. unfold bind at 1, get. unfold streq. rewrite (bool_decide_false (kd_name k = n)) by congruence.
  rewrite andb_false_r. simpl. assert (forall r, kd_rawname k = Some r -> r <> n) as Hraw.
  { intros r Hr. rewrite Hr in Hk2. intros ->. apply Hk2. by left. }
  destruct (kd_fs k) as [x|] eqn:Ex.
  - assert (match fsop_getvolname (vs_fs s) x with Some v => bool_decide (v = n) | None => false end = false) as ->.
    { destruct (fsop_getvolname (vs_fs s) x) eqn:Ev; [|done]. apply bool_decide_eq_false. intros ->. by apply (Hvol k x ltac:(by left)). }
    destruct (kd_rawname k) as [r|]; [|done]. by rewrite bool_decide_false by (by apply Hraw).
  - destruct (kd_rawname k) as [r|]; [|done]. by rewrite bool_decide_false by (by apply Hraw).
Qed.

Lemma getroot_loop_none s n l :
  (forall kd x, kd ∈ l -> kd_fs kd = Some x -> fsop_getvolname (vs_fs s) x <> Some n) -> n ∉ concat (kd_names <$> l) ->
  getroot_loop l n s = Err ENODEV s.
Proof.
  intros Hvol Hn. destruct l as [|k l] using rev_ind; [done|]. clear IHl. rewrite getroot_loop_exact; [|done|].
  2: { intros kd Hin Hnk. apply Hn. rewrite fmap_app, concat_app, elem_of_app. left. apply list_elem_of_In, in_concat. exists (kd_names kd).
       split; apply list_elem_of_In; [by apply list_elem_of_fmap_2|done]. }
  rewrite fmap_app, concat_app in Hn. apply not_elem_of_app in Hn as [_ Hn]. simpl in Hn. rewrite app_nil_r in Hn. unfold kd_names in Hn.
  apply not_elem_of_cons in Hn as [Hn1 Hn2]. assert (forall r, kd_rawname k = Some r -> r <> n) as Hraw.
  { intros r Hr ->. rewrite Hr in Hn2. apply Hn2. by left. }
  specialize (Hvol k). assert (k ∈ l ++ [k]) as Hk by (apply elem_of_app; right; by left).
  cbn [getroot_loop]. unfold bind at 1, get, streq. rewrite (bool_decide_false (kd_name k = n)) by congruence. rewrite andb_false_r. simpl.
  assert (match kd_rawname k with Some raw => if bool_decide (raw = n) then
      (KASSERT (negb (is_null (kd_device k))) ;; VOP_INCREF (kd_vnode k) ;; ret (kd_vnode k)) else err ENODEV | None => err ENODEV end s = Err ENODEV s) as Hend.
  { destruct (kd_rawname k) as [r|]; [|done]. by rewrite bool_decide_false by (by apply Hraw). }
  destruct (kd_fs k) as [x|]; [|done]. destruct (fsop_getvolname (vs_fs s) x) eqn:Ev; [|done].
  rewrite bool_decide_false; [done|]. intros ->. by apply (Hvol x).
Qed.

(** A name that no mounted volume has: a device's name stands for the root of
    the file system on it, or, without one, for the device if no file system
    can be mounted on it (ENXIO if one can); its raw name stands for the
    device; and a name of no device gives ENODEV. *)
Theorem device_lookup (d : Z) (R O : gmultiset Z) (s : vfs (F := F)) (n : name) (Hd : 0 < d) (Hs : vok ∅ d R O s)
    (Hvol : forall kd x, kd ∈ knowndevs s -> kd_fs kd = Some x -> fsop_getvolname (vs_fs s) x <> Some n) :
  (forall kd, kd ∈ knowndevs s -> n = kd_name kd ->
     vfs_getroot n s = match kd_fs kd, kd_rawname kd with
       | Some x, _ => on_fs (fsop_getroot x) s
       | None, Some _ => Err ENXIO s
       | None, None => (VOP_INCREF (kd_vnode kd) ;; ret (kd_vnode kd)) s
       end) /\
  (forall kd, kd ∈ knowndevs s -> Some n = kd_rawname kd -> vfs_getroot n s = (VOP_INCREF (kd_vnode kd) ;; ret (kd_vnode kd)) s) /\
  (n ∉ concat (kd_names <$> knowndevs s) -> vfs_getroot n s = Err ENODEV s).
Proof.
  assert (vfs_getroot n s = getroot_loop (knowndevs s) n s) as ->.
  { unfold vfs_getroot, bind, get, KASSERT, vfs_biglock_do_i_hold. rewrite (v_depth _ _ _ _ _ Hs). by rewrite (proj2 (Z.ltb_lt 0 d)). }
  assert (forall kd, kd ∈ knowndevs s -> n ∈ kd_names kd -> (exists l2, getroot_loop (knowndevs s) n s = getroot_loop (kd :: l2) n s) /\
    kd_ok (vs_fs s) kd /\ (Some n = kd_rawname kd -> n <> kd_name kd)) as Hfind.
  { intros kd Hin Hn. pose proof (v_names _ _ _ _ _ Hs) as Hnd. pose proof (v_kd _ _ _ _ _ Hs) as Hok. rewrite Forall_forall in Hok.
    split_and!; [|by apply Hok|].
    - apply list_elem_of_split in Hin as (l1 & l2 & El). exists l2. rewrite El in Hvol, Hnd |- *. apply getroot_loop_exact; [done|].
      intros kd' Hin Hn'. rewrite fmap_app, concat_app in Hnd. apply NoDup_app in Hnd as (_ & Hdis & _). apply (Hdis n).
      + apply list_elem_of_In, in_concat. exists (kd_names kd'). split; apply list_elem_of_In; [by apply list_elem_of_fmap_2|done].
      + rewrite fmap_cons. simpl. apply (elem_of_app (kd_names kd)). by left.
    - intros Hr ->. apply list_elem_of_split in Hin as (l1 & l2 & El). rewrite El, fmap_app, concat_app in Hnd.
      apply NoDup_app in Hnd as (_ & _ & Hnd). rewrite fmap_cons in Hnd. simpl in Hnd. apply NoDup_cons in Hnd as [Hnd _]. apply Hnd.
      rewrite <- Hr. apply elem_of_app. left. by left. }
  split_and!.
  - intros kd Hin ->. destruct (Hfind kd Hin ltac:(by left)) as ([l2 ->] & (_ & _ & Hdev) & _). cbn [getroot_loop]. unfold bind at 1, get, streq.
    rewrite bool_decide_true by done. destruct (kd_fs kd); [done|]. destruct (kd_rawname kd); [done|]. specialize (Hdev eq_refl). simpl.
    by destruct (kd_device kd).
  - intros kd Hin Hr. destruct (Hfind kd Hin ltac:(unfold kd_names; rewrite <- Hr; right; by left)) as ([l2 ->] & (_ & Hdev & _) & Hne).
    specialize (Hne Hr). cbn [getroot_loop]. unfold bind at 1, get, streq. rewrite (bool_decide_false (kd_name kd = n)) by congruence. rewrite <- Hr in Hdev |- *. simpl.
    specialize (Hdev ltac:(done)). rewrite (bool_decide_true (n = n)) by done. specialize (Hvol kd). destruct (kd_fs kd) as [x|].
    + assert (match fsop_getvolname (vs_fs s) x with Some v => bool_decide (v = n) | None => false end = false) as ->.
      { destruct (fsop_getvolname (vs_fs s) x) eqn:Ev; [|done]. apply bool_decide_eq_false. intros ->. by apply (Hvol x). }
      by destruct (kd_device kd).
    + by destruct (kd_device kd).
  - by apply getroot_loop_none.
Qed.
End Calls.

(** ** Examples: the null device *)

Import DevVnode.

Definition ex_devs : devs := mkDevs ∅ (fun _ => null_device) 0 [].
Definition NULL_PATH : name := NULL_NAME ++ [COLON].
Definition ex_added : vfs (F := devs) := after (vfs_call (CAdddev NULL_NAME 7 false)) (start ex_devs []).
Definition ex_opened : vfs (F := devs) := after (vfs_call (COpen NULL_PATH O_RDWR 0)) ex_added.

Lemma ex_devs_ok : fs_ok ex_devs ∅ ∅.
Proof.
  split; simpl; [done| |done|]; [intros v Hv; multiset_solver|]. intros d x Hx. unfold nullio. runs_steps. by case_bool_decide; simpl; lia.
Qed.

Lemma ex_reachable : rtc step (start ex_devs [], ∅, false) (ex_opened, ∅ ⊎ opt_ref None ⊎ opt_ref (Some 0), false).
Proof.
  eapply rtc_l; [|eapply rtc_l; [|apply rtc_refl]].
  - apply (step_ret (CAdddev NULL_NAME 7 false) _ _ _ None); [done|by vm_compute].
  - apply (step_ret (COpen NULL_PATH O_RDWR 0) ex_added _ _ (Some 0)); [done|by vm_compute].
Qed.


(** The state above, with the lock. *)
Definition ex_locked : vfs (F := devs) := put_depth 1 ex_opened.

Lemma ex_locked_ok : exists L O, vok ∅ 1 L O ex_locked.
Proof.
  destruct (reachable_vok ex_devs [] _ ex_devs_ok ex_reachable) as (L & _ & Hok). simpl in Hok. eexists L, _. eapply vok_depth, Hok.
Qed.

Lemma path_forms_witness :
  getdevice (NULL_NAME ++ COLON :: replicate 2 SLASH ++ [1]) ex_locked = (let* v := vfs_getroot NULL_NAME in ret ([1], v)) ex_locked.
Proof.
  refine (proj1 (path_forms ex_locked NULL_NAME [1] 2 _ _ _ _) _); [by vm_compute| | |done|done].
  - apply (bool_decide_unpack (COLON ∉ NULL_NAME)). by vm_compute.
  - apply (bool_decide_unpack (SLASH ∉ NULL_NAME)). by vm_compute.
Defined.

Lemma device_lookup_witness : exists kd, kd ∈ knowndevs ex_locked /\
  vfs_getroot NULL_NAME ex_locked = (VOP_INCREF (kd_vnode kd) ;; ret (kd_vnode kd)) ex_locked.
Proof.
  destruct ex_locked_ok as (L & O & Hok). exists (mkKd NULL_NAME None (Some 7) 0 None). assert (mkKd NULL_NAME None (Some 7) 0 None ∈ knowndevs ex_locked) as Hin.
  { change (knowndevs ex_locked) with [mkKd NULL_NAME None (Some 7) 0 None]. by left. }
  split; [done|]. apply (proj1 (device_lookup 1 L O ex_locked NULL_NAME ltac:(lia) Hok ltac:(done)) _ Hin). done.
Defined.
End VfsThm.
