(* ===== verification/FileTable.v ===== *)
(** * File tables and file system calls: src/syscall/file.c, file_syscalls.c

    [FileTable] models the file tables of the processes over the VFS layer: a
    table of descriptors that point to entries, which descriptors of one
    process, and after [sys_fork] of several, may share.  The entries are a
    heap of their own, so that an entry that was freed is gone. *)

From stdpp Require Import gmultiset.
From S2P Require Import Prelude Copyinout Uio Vfs DevVnode VfsThm.
Import Copyinout Uio Vfs.

Module FileTable.

(** A uio that [mk_useruio] has just filled in. *)
Definition fresh_uio (x : xfer) : Prop :=
  (exists b, uio_iov (xu x) = [(b, uio_resid (xu x))]) /\ is_u32 (uio_resid (xu x)) /\ 0 <= uio_offset (xu x) /\
  uio_segflg (xu x) = UIO_USERSPACE /\ uio_space (xu x) = curproc_as x.

(** [VOP_READ] and [VOP_WRITE]: some of the bytes asked for are moved. *)
Class FileIO (F : Type) `{!FileSystems F} := {
  vop_read : Z -> M (F * xfer) unit;
  vop_write : Z -> M (F * xfer) unit;
  read_ok f R O v x : fs_ok f R O -> v ∈ R ⊎ O -> fresh_uio x -> uio_dir (xu x) = UIO_READ ->
    runs (vop_read v (f, x)) (fun _ t => (fs_ok (fst t) R O /\ keeps f (R ⊎ O) (fst t)) /\ 0 <= uio_resid (xu (snd t)) <= uio_resid (xu x))
      (fun _ t => fs_ok (fst t) R O /\ keeps f (R ⊎ O) (fst t));
  write_ok f R O v x : fs_ok f R O -> v ∈ R ⊎ O -> fresh_uio x -> uio_dir (xu x) = UIO_WRITE ->
    runs (vop_write v (f, x)) (fun _ t => (fs_ok (fst t) R O /\ keeps f (R ⊎ O) (fst t)) /\ 0 <= uio_resid (xu (snd t)) <= uio_resid (xu x))
      (fun _ t => fs_ok (fst t) R O /\ keeps f (R ⊎ O) (fst t)) }.

Definition OPEN_MAX : Z := 128.
Definition PATH_MAX : Z := 1024.
Definition CON_PATH : name := [99; 111; 110; 58].

Record entry := mkEntry {
  filetable_vnode : option Z; filetable_pos : Z; filetable_flags : Z; filetable_count : Z }.

Definition with_pos (p : Z) (e : entry) := mkEntry (filetable_vnode e) p (filetable_flags e) (filetable_count e).
Definition with_count (c : Z) (e : entry) := mkEntry (filetable_vnode e) (filetable_pos e) (filetable_flags e) c.

Section FileTable.
Context {F : Type} `{!FileSystems F} `{!FileIO F}.
(** The current directories of the other processes. *)
Context (D : gmultiset Z).

(** The tables of the processes, each an array of [OPEN_MAX] pointers to
    entries (or NULL), and the entries. *)
Record files := mkFiles {
  fvfs : vfs (F := F); tables : list (list (option Z)); entries : gmap Z entry; next_entry : Z }.

Definition put_vfs (x : vfs) (s : files) := mkFiles x (tables s) (entries s) (next_entry s).
Definition put_tables (x : list (list (option Z))) (s : files) := mkFiles (fvfs s) x (entries s) (next_entry s).
Definition put_entries (x : gmap Z entry) (s : files) := mkFiles (fvfs s) (tables s) x (next_entry s).

Definition on_vfs {A} (m : M vfs A) : M files A := zoom fvfs put_vfs m.

(** [curthread->t_filetable] of process [p]. *)
Definition get_table (p : Z) : M files (list (option Z)) := let* s := get in of_option Wild (zlookup (tables s) p).
Definition put_slot (p fd : Z) (e : option Z) : M files unit :=
  let* l := get_table p in
  modify (fun s => put_tables (zinsert (tables s) p (zinsert l fd e)) s).
Definition get_entry (e : Z) : M files entry := let* s := get in of_option Wild (entries s !! e).
Definition put_entry (e : Z) (x : entry) : M files unit := modify (fun s => put_entries (<[e := x]> (entries s)) s).

(** [kmalloc] of an entry, which is written to without a look at the pointer. *)
Definition new_entry (x : entry) : M files Z :=
  let* ok := on_vfs kmalloc in
  if negb ok then crashed Wild
  else
    let* s := get in
    modify (fun s => mkFiles (fvfs s) (tables s) (<[next_entry s := x]> (entries s)) (next_entry s + 1)) ;;
    ret (next_entry s).

(** The first descriptor that is free, from [fd] on. *)
Fixpoint first_free (l : list (option Z)) (fd : Z) : Z :=
  match l with
  | [] => fd
  | None :: _ => fd
  | Some _ :: l' => first_free l' (fd + 1)
  end.

Definition file_open (p : Z) (filename : name) (flags mode : Z) : M files Z :=
  let how := Z.land flags O_ACCMODE in
  if negb (how =? O_RDONLY) && negb (how =? O_WRONLY) && negb (how =? O_RDWR) then err EINVAL
  else
    let* filetable := get_table p in
    let fd := first_free filetable 0 in
    if fd =? OPEN_MAX then err EMFILE
    else
      let* new_vnode := on_vfs (vfs_open filename flags mode) in
      let* e := new_entry (mkEntry (Some new_vnode) 0 flags 1) in
      put_slot p fd (Some e) ;;
      ret fd.

(** The entry of a descriptor and its vnode, or EBADF. *)
Definition check_fd (p fd : Z) : M files (Z * entry * Z) :=
  let* filetable := get_table p in
  if (fd <? 0) || (OPEN_MAX <=? fd) then err EBADF
  else
    let* slot := of_option Wild (zlookup filetable fd) in
    match slot with
    | None => err EBADF
    | Some e =>
        let* x := get_entry e in
        match filetable_vnode x with
        | None => err EBADF
        | Some v => ret (e, x, v)
        end
    end.

Definition file_close (p fd : Z) : M files unit :=
  let* '(e, x, v) := check_fd p fd in
  let count := filetable_count x - 1 in
  put_entry e (with_count count x) ;;
  (if count =? 0 then
     on_vfs (vfs_close v) ;;
     modify (fun s => put_entries (delete e (entries s)) s) ;;
     on_vfs kfree
   else ret tt) ;;
  put_slot p fd None.

(** The table of a new process, with the console three times; the result of
    opening the console is not looked at.  The process gets the next number. *)
Definition filetable_init : M files Z :=
  let* ok := on_vfs kmalloc in
  if negb ok then crashed Wild
  else
    let* r := try (on_vfs (vfs_open CON_PATH O_RDWR 0)) in
    let cons_vnode := match r with inl v => Some v | inr _ => None end in
    let* e := new_entry (mkEntry cons_vnode 0 O_RDWR 3) in
    let* s := get in
    modify (fun s => put_tables (tables s ++ [[Some e; Some e; Some e] ++ zrep (OPEN_MAX - 3) None]) s) ;;
    ret (zlen (tables s)).

(** [memcpy] of the table in [sys_fork] (src/syscall/proc_syscalls.c). *)
Definition fork_table (p : Z) : M files Z :=
  let* ok := on_vfs kmalloc in
  if negb ok then panic
  else
    let* l := get_table p in
    let* s := get in
    modify (fun s => put_tables (tables s ++ [l]) s) ;;
    ret (zlen (tables s)).

(** ** The system calls *)

Definition lift {A} (m : M files A) : M (files * uspace) A := zoom fst (fun s t => (s, snd t)) m.
Definition lift_u {A} (m : M uspace A) : M (files * uspace) A := zoom snd (fun u t => (fst t, u)) m.

Definition mk_useruio (buf len offset : Z) (rw : uio_rw) (space : option Z) : uio :=
  mkUio [(buf, len)] offset len UIO_USERSPACE rw space.

(** Run a vnode operation on the uio; what is left of it afterwards. *)
Definition do_io (op : Z -> M (F * xfer) unit) (v : Z) (u : uio) (space : option Z) : M (files * uspace) Z :=
  fun t =>
    match op v (vs_fs (fvfs (fst t)), mkXfer u [] (snd t) space) with
    | Ret _ (f, x) => Ret (uio_resid (xu x)) (put_vfs (put_fs f (fvfs (fst t))) (fst t), us x)
    | Err e (f, x) => Err e (put_vfs (put_fs f (fvfs (fst t))) (fst t), us x)
    | Crash c => Crash c
    end.

(** [filetable_entries[fd]->filetable_pos += *retval] *)
Definition move_pos (p fd n : Z) : M files unit :=
  let* filetable := get_table p in
  let* slot := of_option Wild (zlookup filetable fd) in
  let* e := of_option Wild slot in
  let* x := get_entry e in
  put_entry e (with_pos (s32 (filetable_pos x + n)) x).

(** [sys_write] and [sys_read] differ in what they do with the spinlock of the
    table; [space] is the current process's address space. *)
Definition sys_rw (op : Z -> M (F * xfer) unit) (rw : uio_rw) (p fd buf len : Z) (space : option Z) : M (files * uspace) Z :=
  let* '(e, x, v) := lift (check_fd p fd) in
  let* resid := do_io op v (mk_useruio buf len (filetable_pos x) rw space) space in
  let retval := s32 (len - resid) in
  lift (move_pos p fd retval) ;;
  ret retval.
Definition sys_write := sys_rw vop_write UIO_WRITE.
Definition sys_read := sys_rw vop_read UIO_READ.

Definition sys_open (p filename flags mode : Z) : M (files * uspace) Z :=
  let* ok := lift (on_vfs kmalloc) in
  if negb ok then err ENOMEM
  else
    let* r := try (lift_u (copyinstr filename PATH_MAX)) in
    match r with
    | inr e => lift (on_vfs kfree) ;; err e
    | inl fname =>
        let* r := try (lift (file_open p (ztake (zlen fname - 1) fname) flags mode)) in
        lift (on_vfs kfree) ;;
        match r with inl fd => ret fd | inr e => err e end
    end.

Definition sys_close (p fd : Z) : M files unit := file_close p fd.

(** ** The invariant *)

(** How many descriptors point to [e]. *)
Definition uses (ts : list (list (option Z))) (e : Z) : Z := zlen (filter (fun o => o = Some e) (concat ts)).

(** The open vnodes: one for each entry. *)
Definition opened (es : gmap Z entry) : gmultiset Z := VfsThm.refs_of filetable_vnode es.

Record fok (L : gmultiset Z) (s : files) : Prop := {
  fo_vfs : VfsThm.vok D 0 L (opened (entries s)) (fvfs s);
  fo_mem : oracle (fvfs s) = [];
  fo_len : Forall (fun l => zlen l = OPEN_MAX) (tables s);
  fo_slots : forall e, Some e ∈ concat (tables s) -> is_Some (entries s !! e);
  fo_count : forall e x, entries s !! e = Some x -> filetable_count x = uses (tables s) e /\ 0 < uses (tables s) e;
  fo_pos : forall e x, entries s !! e = Some x -> 0 <= filetable_pos x < 2 ^ 31;
  fo_next : forall e x, entries s !! e = Some x -> e < next_entry s }.

(** One slot changes from [old] to [new]. *)
Lemma uses_slot ts p l fd old new e : zlookup ts p = Some l -> zlookup l fd = Some old ->
  uses (zinsert ts p (zinsert l fd new)) e =
    uses ts e - (if decide (old = Some e) then 1 else 0) + (if decide (new = Some e) then 1 else 0).
Proof.
  intros Hp Hfd. apply VfsThm.zlookup_split in Hp as (t1 & t2 & -> & Hts). apply VfsThm.zlookup_split in Hfd as (l1 & l2 & -> & Hl).
  rewrite Hts, Hl. unfold uses. rewrite !concat_app. cbn [concat]. rewrite !filter_app, !filter_cons.
  repeat case_decide; rewrite ?zlen_app, ?zlen_cons; lia.
Qed.

Lemma elem_slot (ts : list (list (option Z))) p l fd old new o : zlookup ts p = Some l -> zlookup l fd = Some old ->
  o ∈ concat (zinsert ts p (zinsert l fd new)) -> o = new \/ o ∈ concat ts.
Proof.
  intros Hp Hfd. apply VfsThm.zlookup_split in Hp as (t1 & t2 & -> & Hts). apply VfsThm.zlookup_split in Hfd as (l1 & l2 & -> & Hl).
  rewrite Hts, Hl, !concat_app. cbn [concat]. rewrite !elem_of_app, !elem_of_cons. tauto.
Qed.

Lemma slot_elem (ts : list (list (option Z))) p l fd o : zlookup ts p = Some l -> zlookup l fd = Some o -> o ∈ concat ts.
Proof.
  intros Hp Hfd. apply VfsThm.zlookup_split in Hp as (t1 & t2 & -> & Hts). apply VfsThm.zlookup_split in Hfd as (l1 & l2 & -> & Hl).
  rewrite !concat_app. cbn [concat]. rewrite !elem_of_app, !elem_of_cons. tauto.
Qed.

Lemma uses_zero ts e : Some e ∉ concat ts -> uses ts e = 0.
Proof.
  unfold uses. induction (concat ts) as [|o l IH]; [done|]. intros [Ho Hl]%not_elem_of_cons.
  rewrite filter_cons, decide_False by congruence. by apply IH.
Qed.

Lemma uses_pos ts e : Some e ∈ concat ts -> 0 < uses ts e.
Proof.
  unfold uses. induction (concat ts) as [|o l IH]; [by intros ?%elem_of_nil|]. rewrite filter_cons.
  intros [->|Hin]%elem_of_cons; [rewrite decide_True by done|case_decide]; [unfold zlen; simpl; lia|unfold zlen; simpl; lia|by apply IH].
Qed.

Lemma first_free_spec l i : let fd := first_free l i in
  i <= fd <= i + zlen l /\ (fd < i + zlen l -> zlookup l (fd - i) = Some None) /\
  (forall j, i <= j < fd -> exists e, zlookup l (j - i) = Some (Some e)).
Proof.
  revert i. induction l as [|[e|] l IH]; intros i; simpl.
  - change (zlen []) with 0. split_and!; lia.
  - destruct (IH (i + 1)) as (H1 & H2 & H3). rewrite zlen_cons.
    assert (forall k, 1 <= k -> zlookup (Some e :: l) k = zlookup l (k - 1)) as Hs.
    { intros k Hk. change (Some e :: l) with ([Some e] ++ l). rewrite zlookup_app_r; change (zlen [Some e]) with 1; [done|lia]. }
    split_and!; [lia|lia| |].
    + intros Hlt. rewrite Hs by lia. replace (first_free l (i + 1) - i - 1) with (first_free l (i + 1) - (i + 1)) by lia. apply H2. lia.
    + intros j Hj. destruct (decide (j = i)) as [->|]; [rewrite Z.sub_diag; by exists e|]. rewrite Hs by lia.
      replace (j - i - 1) with (j - (i + 1)) by lia. apply H3. lia.
  - pose proof (zlen_nonneg l). rewrite zlen_cons. split_and!; [lia|lia| |lia]. intros _. by rewrite Z.sub_diag.
Qed.

(** ** The operations *)

Lemma fok_vfs L s v : fok L s -> VfsThm.vok D 0 L (opened (entries s)) v -> oracle v = [] -> fok L (put_vfs v s).
Proof. intros [] ? ?. by split. Qed.

Lemma kmalloc_ok L O v (Q : bool -> vfs -> Prop) : VfsThm.vok D 0 L O v -> oracle v = [] ->
  (forall v', VfsThm.vok D 0 L O v' -> oracle v' = [] -> Q true v') -> returns (kmalloc v) Q.
Proof.
  intros Hv Ho HQ. unfold kmalloc. runs_steps. rewrite Ho. apply HQ; [|done]. eapply VfsThm.vok_mem; [|exact Hv]. by eexists _, _.
Qed.

Lemma open_ok L O v n flags mode : VfsThm.vok D 0 L O v -> oracle v = [] ->
  runs (vfs_open n flags mode v) (fun w v' => VfsThm.vok D 0 L (O ⊎ {[+ w +]}) v' /\ oracle v' = [])
    (fun _ v' => VfsThm.vok D 0 L O v' /\ oracle v' = []).
Proof.
  intros Hv Ho. eapply runs_mono; [apply (VfsThm.vfs_open_spec D 0 v); [lia|by apply VfsThm.vok_vat]| |]; intros ? v' [Hv' (_ & _ & _ & E)];
    (split; [done|congruence]).
Qed.

(** An entry that no descriptor points to yet, and one descriptor that does. *)
Lemma fok_new L s p l fd x v : fok L s -> zlookup (tables s) p = Some l -> zlookup l fd = Some None ->
  VfsThm.vok D 0 L (opened (entries s) ⊎ VfsThm.opt_ref (filetable_vnode x)) v -> oracle v = [] -> filetable_count x = 1 -> filetable_pos x = 0 ->
  fok L (mkFiles v (zinsert (tables s) p (zinsert l fd (Some (next_entry s)))) (<[next_entry s := x]> (entries s)) (next_entry s + 1)).
Proof.
  intros [H1 H2 H3 H4 H5 H6 H7] Hp Hfd Hv Ho Hc Hpos.
  assert (entries s !! next_entry s = None) as Hnew. { destruct (entries s !! next_entry s) eqn:E; [|done]. apply H7 in E. lia. }
  assert (Some (next_entry s) ∉ concat (tables s)) as Hno. { intros Hin. apply H4 in Hin as [? ?]. congruence. }
  split; simpl; try done.
  - unfold opened. by rewrite VfsThm.refs_of_insert.
  - apply Forall_zinsert; [done|]. rewrite zlen_zinsert. by eapply (Forall_zlookup (fun l => zlen l = OPEN_MAX)).
  - intros e [He|He]%(elem_slot _ _ _ _ _ _ _ Hp Hfd).
    + injection He as ->. rewrite lookup_insert_eq. by eexists.
    + rewrite lookup_insert_ne by (intros <-; done). by apply H4.
  - intros e y. rewrite (uses_slot _ _ _ _ _ _ _ Hp Hfd), (decide_False (P := None = Some e)) by done.
    destruct (decide (next_entry s = e)) as [<-|Hne].
    + rewrite lookup_insert_eq, decide_True, uses_zero by done. intros [= <-]. lia.
    + rewrite lookup_insert_ne, decide_False by congruence. intros Hy%H5. lia.
  - intros e y. destruct (decide (next_entry s = e)) as [<-|Hne]; [rewrite lookup_insert_eq; intros [= <-]; lia|].
    rewrite lookup_insert_ne by done. apply H6.
  - intros e y. destruct (decide (next_entry s = e)) as [<-|Hne]; [lia|]. rewrite lookup_insert_ne by done. intros Hy%H7. lia.
Qed.

Lemma file_open_spec L s p l n flags mode : fok L s -> zlookup (tables s) p = Some l ->
  runs (file_open p n flags mode s)
    (fun fd s' => fok L s' /\ zlookup l fd = Some None /\ (forall j, 0 <= j < fd -> exists e, zlookup l j = Some (Some e)) /\
      tables s' = zinsert (tables s) p (zinsert l fd (Some (next_entry s))) /\
      exists v, entries s' = <[next_entry s := mkEntry (Some v) 0 flags 1]> (entries s))
    (fun e s' => fok L s' /\ tables s' = tables s /\ entries s' = entries s).
Proof.
  intros Hs Hp. assert (zlen l = OPEN_MAX) as Hlen by (eapply (Forall_zlookup (fun l => zlen l = OPEN_MAX)); [apply Hs|exact Hp]).
  unfold file_open. destruct (_ && _ && _); [done|]. unfold get_table. runs_steps. eapply runs_of_option; [exact Hp|].
  destruct (first_free_spec l 0) as (H1 & H2 & H3). set (fd := first_free l 0) in *. destruct (Z.eqb_spec fd OPEN_MAX); [done|].
  assert (zlookup l fd = Some None) as Hfd by (rewrite <- (Z.sub_0_r fd); apply H2; lia).
  runs_steps. apply runs_zoom. eapply runs_mono; [apply open_ok; apply Hs| |]; cbv beta.
  2: { intros e v' [Hv' Ho]. split; [by apply fok_vfs|done]. }
  intros v v1 [Hv1 Ho1]. unfold new_entry. runs_steps. apply runs_zoom, returns_runs. eapply kmalloc_ok; [exact Hv1|exact Ho1|].
  intros v2 Hv2 Ho2. simpl. runs_steps. unfold put_slot, get_table. runs_steps. eapply runs_of_option; [exact Hp|]. runs_steps. simpl.
  split_and!; [by apply fok_new|done| |done|by exists v]. intros j Hj. rewrite <- (Z.sub_0_r j). apply H3. lia.
Qed.

(** What [check_fd] finds. *)
Lemma check_fd_spec L s p l fd : fok L s -> zlookup (tables s) p = Some l ->
  runs (check_fd p fd s)
    (fun r s' => s' = s /\ let '(e, x, v) := r in zlookup l fd = Some (Some e) /\ entries s !! e = Some x /\ filetable_vnode x = Some v)
    (fun e s' => e = EBADF /\ s' = s /\ (fd < 0 \/ OPEN_MAX <= fd \/ zlookup l fd = Some None \/
       exists i x, zlookup l fd = Some (Some i) /\ entries s !! i = Some x /\ filetable_vnode x = None)).
Proof.
  intros Hs Hp. assert (zlen l = OPEN_MAX) as Hlen by (eapply (Forall_zlookup (fun l => zlen l = OPEN_MAX)); [apply Hs|exact Hp]).
  unfold check_fd, get_table, get_entry. runs_steps. eapply runs_of_option; [exact Hp|].
  destruct ((fd <? 0) || (OPEN_MAX <=? fd)) eqn:Er; [split_and!; [done|done|lia]|].
  destruct (zlookup_is_Some l fd ltac:(lia)) as [o Ho]. runs_steps. eapply runs_of_option; [exact Ho|].
  destruct o as [e|]; [|split_and!; tauto]. destruct (fo_slots _ _ Hs e) as [x Hx]; [by eapply slot_elem|]. runs_steps.
  eapply runs_of_option; [exact Hx|]. destruct (filetable_vnode x) as [v|] eqn:Ev; [done|]. split_and!; [done|done|]. do 3 right. by exists e, x.
Qed.

(** A descriptor of [e] is closed; with its last one the entry goes. *)
Definition unlinked (es : gmap Z entry) (e : Z) (x : entry) : gmap Z entry :=
  if decide (filetable_count x = 1) then delete e es else <[e := with_count (filetable_count x - 1) x]> es.

Lemma fok_unlink L s p l fd e x v : fok L s -> zlookup (tables s) p = Some l -> zlookup l fd = Some (Some e) -> entries s !! e = Some x ->
  VfsThm.vok D 0 L (opened (unlinked (entries s) e x)) v -> oracle v = [] ->
  fok L (mkFiles v (zinsert (tables s) p (zinsert l fd None)) (unlinked (entries s) e x) (next_entry s)).
Proof.
  intros [H1 H2 H3 H4 H5 H6 H7] Hp Hfd He Hv Ho. destruct (H5 e x He) as [Hc _].
  assert (forall i y, unlinked (entries s) e x !! i = Some y -> (i <> e /\ entries s !! i = Some y) \/
    (i = e /\ y = with_count (filetable_count x - 1) x /\ filetable_count x <> 1)) as Hold.
  { intros i y. unfold unlinked. case_decide.
    - intros [? ?]%lookup_delete_Some. left. split; congruence.
    - intros [[-> <-]|[? ?]]%lookup_insert_Some; [by right|left; split; congruence]. }
  assert (forall i, uses (zinsert (tables s) p (zinsert l fd None)) i = uses (tables s) i - if decide (Some e = Some i) then 1 else 0) as Huse.
  { intros i. rewrite (uses_slot _ _ _ _ _ _ _ Hp Hfd), (decide_False (P := None = Some i)) by done. lia. }
  split; simpl; try done.
  - apply Forall_zinsert; [done|]. rewrite zlen_zinsert. by eapply (Forall_zlookup (fun l => zlen l = OPEN_MAX)).
  - intros i Hi. pose proof (uses_pos _ _ Hi) as Hu. rewrite Huse in Hu. apply (elem_slot _ _ _ _ _ _ _ Hp Hfd) in Hi as [|Hi]; [done|].
    apply H4 in Hi. unfold unlinked. destruct (decide (filetable_count x = 1)).
    + rewrite lookup_delete_ne; [done|]. intros ->. rewrite decide_True in Hu by done. lia.
    + destruct (decide (e = i)) as [<-|]; [rewrite lookup_insert_eq; by eexists|by rewrite lookup_insert_ne].
  - intros i y Hy. rewrite Huse. destruct (Hold i y Hy) as [[Hne Hy']|(-> & -> & Hn1)].
    + rewrite decide_False by congruence. apply H5 in Hy'. lia.
    + rewrite decide_True by done. simpl. pose proof (H5 e x He). lia.
  - intros i y Hy. destruct (Hold i y Hy) as [[Hne Hy']|(-> & -> & Hn1)]; [by eapply H6|simpl; by apply H6 in He].
  - intros i y Hy. destruct (Hold i y Hy) as [[Hne Hy']|(-> & -> & Hn1)]; [by eapply H7|by eapply H7].
Qed.

Lemma file_close_spec L s p l fd : fok L s -> zlookup (tables s) p = Some l ->
  runs (file_close p fd s)
    (fun _ s' => fok L s' /\ exists e x, zlookup l fd = Some (Some e) /\ entries s !! e = Some x /\
      tables s' = zinsert (tables s) p (zinsert l fd None) /\ entries s' = unlinked (entries s) e x)
    (fun e s' => e = EBADF /\ s' = s).
Proof.
  intros Hs Hp. unfold file_close. runs_steps. eapply runs_mono; [by eapply check_fd_spec| |by intros ? ? (-> & -> & _)].
  intros [[e x] v] ? (-> & Hfd & He & Hv). destruct (fo_count _ _ Hs e x He) as [Hc Hpos]. unfold put_entry. runs_steps.
  assert (forall s1, tables s1 = tables s -> next_entry s1 = next_entry s -> entries s1 = unlinked (entries s) e x ->
    VfsThm.vok D 0 L (opened (unlinked (entries s) e x)) (fvfs s1) -> oracle (fvfs s1) = [] ->
    runs (put_slot p fd None s1) (fun _ s' => fok L s' /\ exists e x, zlookup l fd = Some (Some e) /\ entries s !! e = Some x /\
      tables s' = zinsert (tables s) p (zinsert l fd None) /\ entries s' = unlinked (entries s) e x) (fun e s' => e = EBADF /\ s' = s)) as Hend.
  { intros [v1 t1 e1 n1] Et En Ee Hok Ho. simpl in *. subst. unfold put_slot, get_table. runs_steps. eapply runs_of_option; [exact Hp|]. runs_steps.
    split; [|by exists e, x]. by apply (fok_unlink L s p l fd e x v1). }
  destruct (Z.eqb_spec (filetable_count x - 1) 0) as [Hz|Hz].
  - assert (unlinked (entries s) e x = delete e (entries s)) as Eu by (unfold unlinked; by rewrite decide_True by lia).
    pose proof (fo_vfs _ _ Hs) as Hok. unfold opened in Hok. rewrite (VfsThm.refs_delete _ _ _ _ He), Hv in Hok. simpl in Hok.
    runs_steps. apply runs_zoom, returns_runs. eapply runs_mono; [eapply VfsThm.vfs_close_spec, VfsThm.vok_vat, Hok| |done].
    intros ? v1 [Hv1 (_ & _ & _ & Eo)]. unfold kfree. runs_steps. apply runs_zoom. runs_steps. apply Hend; simpl; try done.
    + by rewrite Eu, delete_insert_eq.
    + rewrite Eu. eapply VfsThm.vok_mem; [|exact Hv1]. by eexists _, _.
    + rewrite Eo. apply Hs.
  - assert (unlinked (entries s) e x = <[e := with_count (filetable_count x - 1) x]> (entries s)) as Eu by (unfold unlinked; by rewrite decide_False by lia).
    runs_steps. apply Hend; simpl; try done; [|apply Hs]. unfold opened. rewrite Eu, (VfsThm.refs_update _ _ _ x) by done. apply Hs.
Qed.

Lemma concat_one {A} (l : list A) : concat [l] = l.
Proof. apply app_nil_r. Qed.

Lemma uses_app ts l e : uses (ts ++ [l]) e = uses ts e + zlen (filter (fun o => o = Some e) l).
Proof. unfold uses. rewrite concat_app, filter_app, zlen_app. simpl. by rewrite app_nil_r. Qed.

Lemma filter_none_nil n e : filter (fun o : option Z => o = Some e) (replicate n None) = [].
Proof. induction n as [|n IH]; [done|]. simpl. by rewrite filter_cons, decide_False. Qed.

(** The console's entry and its three descriptors. *)
Definition std_table (e : Z) : list (option Z) := [Some e; Some e; Some e] ++ zrep (OPEN_MAX - 3) None.

Lemma std_uses e i : zlen (filter (fun o => o = Some i) (std_table e)) = if decide (e = i) then 3 else 0.
Proof.
  unfold std_table, zrep. rewrite filter_app, filter_none_nil, app_nil_r, !filter_cons.
  destruct (decide (e = i)) as [->|Hne]; [rewrite !decide_True by done|rewrite !decide_False by congruence]; done.
Qed.

Lemma filetable_init_spec L s : fok L s ->
  returns (filetable_init s) (fun p s' => fok L s' /\ p = zlen (tables s) /\ tables s' = tables s ++ [std_table (next_entry s)]).
Proof.
  intros Hs. pose proof Hs as [H1 H2 H3 H4 H5 H6 H7]. unfold filetable_init. runs_steps. apply runs_zoom. eapply kmalloc_ok; [exact H1|exact H2|].
  intros v1 Hv1 Ho1. simpl. runs_steps. apply runs_zoom.
  assert (forall c v2, VfsThm.vok D 0 L (opened (entries s) ⊎ VfsThm.opt_ref c) v2 -> oracle v2 = [] ->
    returns ((let* e := new_entry (mkEntry c 0 O_RDWR 3) in
      let* s := get in
      modify (fun s => put_tables (tables s ++ [[Some e; Some e; Some e] ++ zrep (OPEN_MAX - 3) None]) s) ;;
      ret (zlen (tables s))) (put_vfs v2 (put_vfs v1 s)))
    (fun p s' => fok L s' /\ p = zlen (tables s) /\ tables s' = tables s ++ [std_table (next_entry s)])) as Hend.
  { intros c v2 Hv2 Ho2. unfold new_entry. runs_steps. apply runs_zoom. eapply kmalloc_ok; [exact Hv2|exact Ho2|]. intros v3 Hv3 Ho3. simpl. runs_steps.
    split_and!; [|done|done]. assert (entries s !! next_entry s = None) as Hnew. { destruct (entries s !! next_entry s) eqn:E; [|done]. apply H7 in E. lia. }
    assert (Some (next_entry s) ∉ concat (tables s)) as Hno. { intros Hin. apply H4 in Hin as [? ?]. congruence. }
    split; cbn [fvfs tables entries next_entry put_tables put_vfs]; try done;
      change (Some (next_entry s) :: _) with (std_table (next_entry s)).
    - unfold opened. by rewrite VfsThm.refs_of_insert.
    - apply Forall_app. split; [done|]. by constructor.
    - intros e. rewrite concat_app, elem_of_app, concat_one. intros [He|He].
      + rewrite lookup_insert_ne by (intros <-; done). by apply H4.
      + assert (next_entry s = e) as <-; [|rewrite lookup_insert_eq; by eexists].
        pose proof (uses_pos [std_table (next_entry s)] e) as Hu. unfold uses in Hu. rewrite concat_one, std_uses in Hu.
        specialize (Hu He). by destruct (decide (next_entry s = e)).
    - intros e y. rewrite uses_app, std_uses. destruct (decide (next_entry s = e)) as [<-|Hne].
      + rewrite lookup_insert_eq, uses_zero by done. intros [= <-]. done.
      + rewrite lookup_insert_ne by done. intros Hy%H5. lia.
    - intros e y. destruct (decide (next_entry s = e)) as [<-|Hne]; [rewrite lookup_insert_eq; intros [= <-]; done|].
      rewrite lookup_insert_ne by done. apply H6.
    - intros e y. destruct (decide (next_entry s = e)) as [<-|Hne]; [lia|]. rewrite lookup_insert_ne by done. intros Hy%H7. lia. }
  eapply runs_mono; [by apply open_ok| |]; cbv beta.
  - intros v v2 [Hv2 Ho2]. by apply (Hend (Some v)).
  - intros e v2 [Hv2 Ho2]. apply (Hend None); [|done]. simpl. by rewrite gmultiset_disj_union_right_id.
Qed.

(** Moving on in a file. *)
Lemma fok_pos L s e x n v : fok L s -> entries s !! e = Some x -> 0 <= n < 2 ^ 31 ->
  VfsThm.vok D 0 L (opened (entries s)) v -> oracle v = [] ->
  fok L (mkFiles v (tables s) (<[e := with_pos n x]> (entries s)) (next_entry s)).
Proof.
  intros [H1 H2 H3 H4 H5 H6 H7] He Hn Hv Ho. split; simpl; try done.
  - unfold opened. by rewrite (VfsThm.refs_update _ _ _ x).
  - intros i Hi%H4. destruct (decide (e = i)) as [<-|]; [rewrite lookup_insert_eq; by eexists|by rewrite lookup_insert_ne].
  - intros i y [[<- <-]|[_ Hy]]%lookup_insert_Some; [by apply H5 in He|by apply H5].
  - intros i y [[<- <-]|[_ Hy]]%lookup_insert_Some; [done|by eapply H6].
  - intros i y [[<- <-]|[_ Hy]]%lookup_insert_Some; by eapply H7.
Qed.

(** [VOP_READ] or [VOP_WRITE] on an open file. *)
Definition io_law (op : Z -> M (F * xfer) unit) (rw : uio_rw) : Prop := forall f R O v x,
  fs_ok f R O -> v ∈ R ⊎ O -> fresh_uio x -> uio_dir (xu x) = rw ->
  runs (op v (f, x)) (fun _ t => (fs_ok (fst t) R O /\ keeps f (R ⊎ O) (fst t)) /\ 0 <= uio_resid (xu (snd t)) <= uio_resid (xu x))
    (fun _ t => fs_ok (fst t) R O /\ keeps f (R ⊎ O) (fst t)).

Lemma do_io_spec op rw L s u e x v buf len space : io_law op rw -> fok L s -> entries s !! e = Some x -> filetable_vnode x = Some v -> is_u32 len ->
  runs (do_io op v (mk_useruio buf len (filetable_pos x) rw space) space (s, u))
    (fun r t => 0 <= r <= len /\ exists v', fst t = put_vfs v' s /\ VfsThm.vok D 0 L (opened (entries s)) v' /\ oracle v' = [])
    (fun _ t => exists v', fst t = put_vfs v' s /\ VfsThm.vok D 0 L (opened (entries s)) v' /\ oracle v' = []).
Proof.
  intros Hop Hs He Hv Hlen. pose proof (fo_vfs _ _ Hs) as Hok. pose proof (fo_pos _ _ Hs e x He) as Hpos. unfold do_io. simpl.
  specialize (Hop (vs_fs (fvfs s)) (L ⊎ VfsThm.own D (fvfs s)) (opened (entries s)) v (mkXfer (mk_useruio buf len (filetable_pos x) rw space) [] u space)).
  assert (v ∈ opened (entries s)) as Hin by by eapply VfsThm.refs_elem.
  specialize (Hop (VfsThm.v_fs _ _ _ _ _ Hok) ltac:(multiset_solver)). unfold fresh_uio in Hop. simpl in Hop.
  specialize (Hop ltac:(split; [by eexists|split; [exact Hlen|split; [lia|done]]]) eq_refl).
  assert (forall f', fs_ok f' (L ⊎ VfsThm.own D (fvfs s)) (opened (entries s)) /\ keeps (vs_fs (fvfs s)) (L ⊎ VfsThm.own D (fvfs s) ⊎ opened (entries s)) f' ->
    VfsThm.vok D 0 L (opened (entries s)) (put_fs f' (fvfs s))) as Hput.
  { intros f' Hf'. eapply VfsThm.vat_put_fs; [by apply VfsThm.vok_vat|exact Hf'|done|clear; multiset_solver]. }
  destruct (op v _) as [[] [f' x']|er [f' x']|]; simpl in Hop |- *; [|eexists; split_and!; [done|by apply Hput|apply Hs]|done].
  destruct Hop as [Hf' Hr]. split; [done|]. eexists. split_and!; [done|by apply Hput|apply Hs].
Qed.

Lemma sys_rw_spec op rw L s u p l fd buf len space : io_law op rw -> fok L s -> zlookup (tables s) p = Some l -> is_u32 len ->
  (forall e x, zlookup l fd = Some (Some e) -> entries s !! e = Some x -> filetable_pos x + len < 2 ^ 31) ->
  runs (sys_rw op rw p fd buf len space (s, u))
    (fun n t => fok L (fst t) /\ 0 <= n <= len /\ tables (fst t) = tables s /\
      exists e x, zlookup l fd = Some (Some e) /\ entries s !! e = Some x /\ entries (fst t) = <[e := with_pos (filetable_pos x + n) x]> (entries s))
    (fun _ t => fok L (fst t) /\ tables (fst t) = tables s /\ entries (fst t) = entries s).
Proof.
  intros Hop Hs Hp Hlen Hbig. unfold sys_rw. runs_steps. apply runs_zoom. eapply runs_mono; [by eapply check_fd_spec| |].
  2: { intros er ? (_ & -> & _). done. }
  intros [[e x] v] ? (-> & Hfd & He & Hv). pose proof (fo_pos _ _ Hs e x He) as Hpos. specialize (Hbig e x Hfd He). runs_steps.
  eapply runs_mono; [by eapply (do_io_spec op rw L s u e x)| |]; cbv beta.
  2: { intros er [s' u'] (v' & Es & Hv' & Ho). simpl in Es. subst s'. simpl. split; [by apply fok_vfs|done]. }
  intros r [s' u'] (Hr & v' & Es & Hv' & Ho). simpl in Es. subst s'. rewrite (s32_small (len - r)) by lia. runs_steps. apply runs_zoom.
  unfold move_pos, get_table, get_entry, put_entry. runs_steps. eapply runs_of_option; [exact Hp|]. runs_steps. eapply runs_of_option; [exact Hfd|].
  runs_steps. eapply runs_of_option; [done|]. runs_steps. eapply runs_of_option; [exact He|]. runs_steps. simpl. rewrite s32_small by lia.
  split_and!; [apply (fok_pos L s); [done|done|lia|done|done]|lia|lia|done|]. by exists e, x.
Qed.

(** ** Any sequence of calls *)

Inductive fcall :=
  | FInit
  | FOpen (p : Z) (n : name) (flags mode : Z)
  | FClose (p fd : Z)
  | FRead (p fd buf len : Z)
  | FWrite (p fd buf len : Z).

Definition fexec (space : option Z) (c : fcall) : M (files * uspace) Z :=
  match c with
  | FInit => lift filetable_init
  | FOpen p n flags mode => lift (file_open p n flags mode)
  | FClose p fd => lift (sys_close p fd) ;; ret 0
  | FRead p fd buf len => sys_read p fd buf len space
  | FWrite p fd buf len => sys_write p fd buf len space
  end.

(** The process has a file table, and the position does not leave an [int]. *)
Definition fallowed (c : fcall) (s : files) : Prop :=
  match c with
  | FInit => True
  | FOpen p _ _ _ | FClose p _ => 0 <= p < zlen (tables s)
  | FRead p fd _ len | FWrite p fd _ len => 0 <= p < zlen (tables s) /\ is_u32 len /\
      forall l e x, zlookup (tables s) p = Some l -> zlookup l fd = Some (Some e) -> entries s !! e = Some x -> filetable_pos x + len < 2 ^ 31
  end.

Inductive fstep (space : option Z) : files * uspace -> files * uspace -> Prop :=
  | fstep_ret c t r t' : fallowed c (fst t) -> fexec space c t = Ret r t' -> fstep space t t'
  | fstep_err c t e t' : fallowed c (fst t) -> fexec space c t = Err e t' -> fstep space t t'.

Lemma fexec_spec L space c t : fok L (fst t) -> fallowed c (fst t) ->
  runs (fexec space c t) (fun _ t' => fok L (fst t')) (fun _ t' => fok L (fst t')).
Proof.
  destruct t as [s u]. simpl. intros Hs Ha. destruct c as [|p n flags mode|p fd|p fd buf len|p fd buf len]; simpl in Ha |- *.
  - apply runs_zoom, returns_runs. eapply runs_mono; [by apply filetable_init_spec| |done]. by intros ? ? [].
  - destruct (zlookup_is_Some _ _ Ha) as [l Hl]. apply runs_zoom. eapply runs_mono; [by eapply file_open_spec| |]; by intros ? ? [].
  - destruct (zlookup_is_Some _ _ Ha) as [l Hl]. runs_steps. apply runs_zoom. eapply runs_mono; [by eapply file_close_spec| |]; [by intros ? ? []|].
    by intros ? ? [_ ->].
  - destruct Ha as (Hp & Hlen & Hbig). destruct (zlookup_is_Some _ _ Hp) as [l Hl].
    eapply runs_mono; [eapply (sys_rw_spec vop_read UIO_READ); [exact read_ok|done|done|done|by intros; eapply Hbig]| |]; by intros ? ? [].
  - destruct Ha as (Hp & Hlen & Hbig). destruct (zlookup_is_Some _ _ Hp) as [l Hl].
    eapply runs_mono; [eapply (sys_rw_spec vop_write UIO_WRITE); [exact write_ok|done|done|done|by intros; eapply Hbig]| |]; by intros ? ? [].
Qed.

Definition fstart (v : vfs) : files := mkFiles v [] ∅ 0.

Lemma fstart_ok L v : VfsThm.vok D 0 L ∅ v -> oracle v = [] -> fok L (fstart v).
Proof. intros Hv Ho. split; simpl; try done. by intros e ?%elem_of_nil. Qed.

Lemma freachable_ok L space v u t : VfsThm.vok D 0 L ∅ v -> oracle v = [] -> rtc (fstep space) (fstart v, u) t -> fok L (fst t).
Proof.
  intros Hv Ho Hr. apply (rtc_ind_r (R := fstep space) (fun t => fok L (fst t)) (fstart v, u)); [by apply fstart_ok|clear Hr t|exact Hr].
  intros t t' _ Hstep Hok. destruct Hstep as [c t r t' Ha He|c t e t' Ha He]; pose proof (fexec_spec L space c t Hok Ha) as Hspec; by rewrite He in Hspec.
Qed.

(** C26. Whatever sequence of opens, closes, reads and writes processes make, none
    crashes; every descriptor in use points to an entry that is there, with a
    count of the descriptors that point to it; and the file system sees each
    entry's file open exactly once.  Allocations succeed ([oracle v = []]):
    [file_open] does not check for NULL; and processes made by [sys_fork] are
    another matter, below. *)
Theorem file_tables_safe (L : gmultiset Z) (v : vfs (F := F)) (u : uspace) (space : option Z) (t : files * uspace)
    (Hv : VfsThm.vok D 0 L ∅ v) (Ho : oracle v = []) (Hr : rtc (fstep space) (fstart v, u) t) :
  (forall e x, entries (fst t) !! e = Some x -> filetable_count x = uses (tables (fst t)) e /\ 0 < filetable_count x) /\
  (forall e, Some e ∈ concat (tables (fst t)) -> is_Some (entries (fst t) !! e)) /\
  fs_ok (vs_fs (fvfs (fst t))) (L ⊎ VfsThm.own D (fvfs (fst t))) (opened (entries (fst t))) /\
  (forall c, fallowed c (fst t) -> runs (fexec space c t) (fun _ _ => True) (fun _ _ => True)).
Proof.
  pose proof (freachable_ok L space v u t Hv Ho Hr) as Hok. split_and!; [|apply Hok|apply Hok|].
  - intros e x [Hc Hpos]%(fo_count _ _ Hok). lia.
  - intros c Ha. eapply runs_mono; [by apply (fexec_spec L)|done|done].
Qed.

(** [file_open] gives the lowest free descriptor an entry of its own at the
    start of the file, and on any error changes no table and no entry;
    [file_close] frees exactly its descriptor, and the entry with its last one. *)
Theorem file_open_close_exact (L : gmultiset Z) (s : files) (p : Z) (l : list (option Z)) (n : name) (flags mode fd : Z)
    (Hs : fok L s) (Hp : zlookup (tables s) p = Some l) :
  runs (file_open p n flags mode s)
    (fun fd s' => zlookup l fd = Some None /\ (forall j, 0 <= j < fd -> exists e, zlookup l j = Some (Some e)) /\
      tables s' = zinsert (tables s) p (zinsert l fd (Some (next_entry s))) /\
      exists v, entries s' = <[next_entry s := mkEntry (Some v) 0 flags 1]> (entries s))
    (fun e s' => tables s' = tables s /\ entries s' = entries s) /\
  runs (file_close p fd s)
    (fun _ s' => exists e x, zlookup l fd = Some (Some e) /\ entries s !! e = Some x /\
      tables s' = zinsert (tables s) p (zinsert l fd None) /\
      entries s' = if decide (filetable_count x = 1) then delete e (entries s) else <[e := with_count (filetable_count x - 1) x]> (entries s))
    (fun e s' => e = EBADF /\ s' = s).
Proof.
  split.
  - eapply runs_mono; [by eapply file_open_spec| |]; by intros ? ? [_ ?].
  - eapply runs_mono; [by eapply file_close_spec| |done]. by intros ? ? [_ ?].
Qed.

Lemma check_fd_wild s p l fd e : 0 <= fd < OPEN_MAX -> zlookup (tables s) p = Some l -> zlookup l fd = Some (Some e) -> entries s !! e = None ->
  check_fd p fd s = Crash Wild.
Proof.
  intros Hr Hp Hfd He. unfold check_fd, get_table, get_entry, bind, get, of_option. rewrite Hp. simpl.
  rewrite (proj2 (Z.ltb_ge fd 0)), (proj2 (Z.leb_gt OPEN_MAX fd)), Hfd by lia. simpl. by rewrite He.
Qed.

(** A defect: the table of a forked process is a copy that the counts do not
    know of.  When the parent closes a file, the child's descriptor points to
    an entry that has been freed, and closing or reading it follows that
    pointer. *)
Theorem fork_shares_entries (L : gmultiset Z) (s : files) (p fd e v : Z) (l : list (option Z)) (x : entry) (u : uspace) (buf len : Z) (space : option Z)
    (Hs : fok L s) (Hp : zlookup (tables s) p = Some l) (Hfd : zlookup l fd = Some (Some e)) (He : entries s !! e = Some x)
    (Hv : filetable_vnode x = Some v) (Hc : filetable_count x = 1) :
  returns (fork_table p s) (fun child s1 =>
    returns (file_close p fd s1) (fun _ s2 =>
      file_close child fd s2 = Crash Wild /\ sys_read child fd buf len space (s2, u) = Crash Wild)).
Proof.
  assert (zlen l = OPEN_MAX) as Hlen by (eapply (Forall_zlookup (fun l => zlen l = OPEN_MAX)); [apply Hs|exact Hp]).
  pose proof (zlookup_Some_range _ _ _ Hfd) as Hr. pose proof (zlookup_Some_range _ _ _ Hp) as Hpr. rewrite Hlen in Hr.
  unfold fork_table, get_table. runs_steps. apply runs_zoom. eapply kmalloc_ok; [apply Hs|apply Hs|]. intros v1 Hv1 Ho1. simpl. runs_steps.
  eapply runs_of_option; [exact Hp|]. runs_steps. set (s1 := put_tables _ _).
  assert (zlookup (tables s1) p = Some l) as Hp1 by (simpl; by rewrite zlookup_app_l by lia).
  assert (forall ts, zlen ts = zlen (tables s) -> zlookup (ts ++ [l]) (zlen (tables s)) = Some l) as Hchild.
  { intros ts Et. rewrite zlookup_app_r by lia. rewrite Et, Z.sub_diag. done. }
  assert (runs (check_fd p fd s1) (fun r s' => r = (e, x, v) /\ s' = s1) (fun _ _ => False)) as Hck.
  { unfold check_fd, get_table, get_entry. runs_steps. eapply runs_of_option; [exact Hp1|]. rewrite (proj2 (Z.ltb_ge fd 0)), (proj2 (Z.leb_gt OPEN_MAX fd)) by lia. cbn [orb].
    runs_steps. eapply runs_of_option; [exact Hfd|]. cbv beta iota. runs_steps. eapply runs_of_option; [exact He|]. by rewrite Hv. }
  unfold file_close at 1. runs_steps. eapply runs_mono; [exact Hck| |done]. intros r s' [-> ->]. unfold put_entry. rewrite Hc. simpl. runs_steps. apply runs_zoom.
  pose proof (fo_vfs _ _ Hs) as Hok. unfold opened in Hok, Hv1. rewrite (VfsThm.refs_delete _ _ _ _ He), Hv in Hok, Hv1. simpl in Hok, Hv1.
  eapply runs_mono; [eapply VfsThm.vfs_close_spec, VfsThm.vok_vat, Hv1| |done]. intros ? v2 _. unfold kfree. runs_steps. apply runs_zoom. runs_steps.
  unfold put_slot, get_table. runs_steps. eapply runs_of_option; [exact Hp1|]. runs_steps. set (s2 := put_tables _ _).
  assert (check_fd (zlen (tables s)) fd s2 = Crash Wild) as Hcrash.
  { apply (check_fd_wild s2 _ l fd e); [lia| |done|].
    - simpl. assert (zinsert (tables s ++ [l]) p (zinsert l fd None) = zinsert (tables s) p (zinsert l fd None) ++ [l]) as ->.
      { unfold zinsert. rewrite !bool_decide_true by lia. apply insert_app_l. unfold zlen in Hpr. lia. }
      apply Hchild. apply zlen_zinsert.
    - simpl. apply lookup_delete_eq. }
  split.
  - unfold file_close, bind. by rewrite Hcrash.
  - unfold sys_read, sys_rw, bind at 1, lift at 1, zoom. simpl. by rewrite Hcrash.
Qed.
End FileTable.

(** ** Devices as files *)

#[local] Existing Instance DevVnode.dev_file_systems.

Lemma dev_io_law rw f R O v x : DevVnode.devs_ok f R O -> v ∈ R ⊎ O -> 0 <= uio_resid (xu x) -> uio_dir (xu x) = rw ->
  runs ((DevVnode.lift (DevVnode.vnode_check v false) ;; DevVnode.dev_io rw v) (f, x))
    (fun _ t => fst t = f /\ 0 <= uio_resid (xu (snd t)) <= uio_resid (xu x)) (fun _ t => fst t = f).
Proof.
  intros Hf Hv Hx Hdir. runs_steps. apply runs_zoom. eapply DevVnode.runs_check; [exact Hf|done|]. unfold DevVnode.dev_io. runs_steps. apply runs_zoom.
  eapply DevVnode.runs_device_of; [exact Hf|done|]. intros d. runs_steps. apply runs_KASSERT; [by apply bool_decide_eq_true|]. apply runs_zoom.
  eapply runs_mono; [by apply (DevVnode.do_io _ _ _ Hf d x)|done|done].
Qed.

#[export, refine] Instance dev_file_io : FileIO DevVnode.devs := {
  vop_read v := DevVnode.lift (DevVnode.vnode_check v false) ;; DevVnode.dev_read v;
  vop_write v := DevVnode.lift (DevVnode.vnode_check v false) ;; DevVnode.dev_write v }.
Proof.
  all: intros f R O v x Hf Hv (_ & [Hx _] & _) Hdir; (eapply runs_mono; [by apply (dev_io_law _ f R O v x)| |]); cbv beta;
    [intros ? ? [-> ?]; done|intros ? ? ->; done].
Defined.

(** A system with the null device, in which process 0 has opened it. *)
Definition ex_process : files * uspace := after (fexec None FInit) (fstart VfsThm.ex_added, Copyinout.clear_fault ∅).
Definition ex_file : files * uspace := after (fexec None (FOpen 0 VfsThm.NULL_PATH O_RDWR 0)) ex_process.

Lemma ex_added_ok : VfsThm.vok ∅ 0 ∅ ∅ VfsThm.ex_added.
Proof.
  assert (rtc VfsThm.step (VfsThm.start VfsThm.ex_devs [], ∅, false) (VfsThm.ex_added, ∅ ⊎ VfsThm.opt_ref None, false)) as Hr.
  { apply rtc_once. apply (VfsThm.step_ret (VfsThm.CAdddev NULL_NAME 7 false) _ _ _ None); [done|by vm_compute]. }
  destruct (VfsThm.reachable_vok VfsThm.ex_devs [] _ VfsThm.ex_devs_ok Hr) as (L & HL & Hok). simpl in HL, Hok. rewrite HL in Hok by done.
  by rewrite gmultiset_disj_union_right_id in Hok.
Qed.

Lemma ex_file_reachable : rtc (fstep None) (fstart VfsThm.ex_added, Copyinout.clear_fault ∅) ex_file.
Proof.
  eapply rtc_l; [|apply rtc_once].
  - apply (fstep_ret None FInit (fstart VfsThm.ex_added, Copyinout.clear_fault ∅) 0 ex_process); [done|by vm_compute].
  - apply (fstep_ret None (FOpen 0 VfsThm.NULL_PATH O_RDWR 0) ex_process 3 ex_file); [|by vm_compute]. vm_compute. by split.
Qed.

Lemma ex_file_ok : fok ∅ ∅ (fst ex_file).
Proof. exact (freachable_ok ∅ ∅ None VfsThm.ex_added _ ex_file ex_added_ok eq_refl ex_file_reachable). Qed.

Definition ex_table : list (option Z) := zinsert (std_table 0) 3 (Some 1).

Lemma ex_table_eq : zlookup (tables (fst ex_file)) 0 = Some ex_table.
Proof. by vm_compute. Qed.

Lemma ex_slot : zlookup ex_table 3 = Some (Some 1).
Proof. by vm_compute. Qed.

Lemma ex_entry : entries (fst ex_file) !! 1 = Some (mkEntry (Some 0) 0 O_RDWR 1).
Proof. by vm_compute. Qed.

Lemma file_tables_safe_witness :
  (forall e x, entries (fst ex_file) !! e = Some x -> filetable_count x = uses (tables (fst ex_file)) e /\ 0 < filetable_count x) /\
  (forall e, Some e ∈ concat (tables (fst ex_file)) -> is_Some (entries (fst ex_file) !! e)) /\
  fs_ok (vs_fs (fvfs (fst ex_file))) (∅ ⊎ VfsThm.own ∅ (fvfs (fst ex_file))) (opened (entries (fst ex_file))) /\
  (forall c, fallowed c (fst ex_file) -> runs (fexec None c ex_file) (fun _ _ => True) (fun _ _ => True)).
Proof. exact (file_tables_safe ∅ ∅ VfsThm.ex_added (Copyinout.clear_fault ∅) None ex_file ex_added_ok eq_refl ex_file_reachable). Defined.

Lemma fork_shares_entries_witness :
  returns (fork_table 0 (fst ex_file)) (fun child s1 =>
    returns (file_close 0 3 s1) (fun _ s2 =>
      file_close child 3 s2 = Crash Wild /\ sys_read child 3 0 1 None (s2, Copyinout.clear_fault ∅) = Crash Wild)).
Proof.
  exact (fork_shares_entries ∅ ∅ (fst ex_file) 0 3 1 0 ex_table (mkEntry (Some 0) 0 O_RDWR 1) (Copyinout.clear_fault ∅) 0 1 None ex_file_ok
           ex_table_eq ex_slot ex_entry eq_refl eq_refl).
Defined.

Lemma file_open_close_exact_witness :
  runs (file_close 0 3 (fst ex_file))
    (fun _ s' => exists e x, zlookup ex_table 3 = Some (Some e) /\ entries (fst ex_file) !! e = Some x /\
      tables s' = zinsert (tables (fst ex_file)) 0 (zinsert ex_table 3 None) /\
      entries s' = if decide (filetable_count x = 1) then delete e (entries (fst ex_file)) else <[e := with_count (filetable_count x - 1) x]> (entries (fst ex_file)))
    (fun e s' => e = EBADF /\ s' = fst ex_file).
Proof. exact (proj2 (file_open_close_exact ∅ ∅ (fst ex_file) 0 ex_table VfsThm.NULL_PATH O_RDWR 0 3 ex_file_ok ex_table_eq)). Defined.
End FileTable.
