(* ===== verification/SfsDisk.v ===== *)
(** * The on-disk format of SFS: src/include/kern/sfs.h

    [SfsDisk] gives the constants and structures of the format, the bytes a
    structure has in a disk block on a big-endian machine, and the fact that a
    structure survives being written and read back. *)

From S2P Require Import Prelude.

Module SfsDisk.

Definition SFS_MAGIC : Z := 0xabadf001.
Definition SFS_BLOCKSIZE : Z := 512.
Definition SFS_VOLNAME_SIZE : Z := 32.
Definition SFS_NDIRECT : Z := 15.
Definition SFS_DBPERIDB : Z := 128.
Definition SFS_NAMELEN : Z := 60.
Definition SFS_SB_LOCATION : Z := 0.
Definition SFS_ROOT_LOCATION : Z := 1.
Definition SFS_MAP_LOCATION : Z := 2.
Definition SFS_NOINO : Z := 0.
Definition SFS_BLOCKBITS : Z := SFS_BLOCKSIZE * 8.
Definition SFS_TYPE_INVAL : Z := 0.
Definition SFS_TYPE_FILE : Z := 1.
Definition SFS_TYPE_DIR : Z := 2.

(** On 32-bit unsigned operands. *)
Definition SFS_ROUNDUP (a b : Z) : Z := u32 ((u32 (u32 (a + b) - 1) / b) * b).
Definition SFS_BITMAPSIZE (nblocks : Z) : Z := SFS_ROUNDUP nblocks SFS_BLOCKBITS.
Definition SFS_BITBLOCKS (nblocks : Z) : Z := SFS_BITMAPSIZE nblocks / SFS_BLOCKBITS.

Record sfs_super := mkSuper {
  sp_magic : Z; sp_nblocks : Z; sp_volname : list Z; reserved : list Z }.
Record sfs_inode := mkInode {
  sfi_size : Z; sfi_type : Z; sfi_linkcount : Z;
  sfi_direct : list Z; sfi_indirect : Z; sfi_waste : list Z }.
Record sfs_dir := mkDir { sfd_ino : Z; sfd_name : list Z }.

(** ** Bytes *)

(** The low [n] bytes of [v], most significant first, and back. *)
Fixpoint be (n : nat) (v : Z) : list Z :=
  match n with O => [] | S n' => u8 (v / 2 ^ (8 * Z.of_nat n')) :: be n' v end.
Fixpoint unbe (l : list Z) : Z :=
  match l with [] => 0 | b :: l' => b * 2 ^ (8 * zlen l') + unbe l' end.

(** An array of 32-bit words, and [n] words out of a byte array. *)
Definition words (ws : list Z) : list Z := concat (be 4 <$> ws).
Fixpoint unwords (n : nat) (bs : list Z) : list Z :=
  match n with O => [] | S n' => unbe (take 4 bs) :: unwords n' (drop 4 bs) end.

Definition field (a n : Z) (bs : list Z) : list Z := ztake n (zdrop a bs).

Definition encode_super (s : sfs_super) : list Z :=
  be 4 (sp_magic s) ++ be 4 (sp_nblocks s) ++ sp_volname s ++ words (reserved s).
Definition decode_super (bs : list Z) : sfs_super :=
  mkSuper (unbe (field 0 4 bs)) (unbe (field 4 4 bs)) (field 8 32 bs) (unwords 118 (zdrop 40 bs)).

Definition encode_inode (i : sfs_inode) : list Z :=
  be 4 (sfi_size i) ++ be 2 (sfi_type i) ++ be 2 (sfi_linkcount i) ++
  words (sfi_direct i) ++ be 4 (sfi_indirect i) ++ words (sfi_waste i).
Definition decode_inode (bs : list Z) : sfs_inode :=
  mkInode (unbe (field 0 4 bs)) (unbe (field 4 2 bs)) (unbe (field 6 2 bs))
    (unwords 15 (zdrop 8 bs)) (unbe (field 68 4 bs)) (unwords 110 (zdrop 72 bs)).

Definition encode_dir (d : sfs_dir) : list Z := be 4 (sfd_ino d) ++ sfd_name d.
Definition decode_dir (bs : list Z) : sfs_dir := mkDir (unbe (field 0 4 bs)) (field 4 60 bs).

(** ** Round trips *)

Definition byte_list (bs : list Z) : Prop := Forall is_u8 bs.

Record super_wf (s : sfs_super) : Prop := {
  sw_magic : is_u32 (sp_magic s); sw_nblocks : is_u32 (sp_nblocks s);
  sw_volname : zlen (sp_volname s) = 32 /\ byte_list (sp_volname s);
  sw_reserved : zlen (reserved s) = 118 /\ Forall is_u32 (reserved s) }.
Record inode_wf (i : sfs_inode) : Prop := {
  iw_size : is_u32 (sfi_size i); iw_type : is_u16 (sfi_type i); iw_links : is_u16 (sfi_linkcount i);
  iw_direct : zlen (sfi_direct i) = SFS_NDIRECT /\ Forall is_u32 (sfi_direct i);
  iw_indirect : is_u32 (sfi_indirect i);
  iw_waste : zlen (sfi_waste i) = 110 /\ Forall is_u32 (sfi_waste i) }.
Record dir_wf (d : sfs_dir) : Prop := {
  dw_ino : is_u32 (sfd_ino d); dw_name : zlen (sfd_name d) = SFS_NAMELEN /\ byte_list (sfd_name d) }.

Lemma length_be n v : length (be n v) = n.
Proof. induction n; simpl; lia. Qed.

Lemma be_bytes n v : byte_list (be n v).
Proof. induction n; constructor; [apply Z.mod_pos_bound; lia|done]. Qed.

Lemma unbe_be n v : unbe (be n v) = v mod 2 ^ (8 * Z.of_nat n).
Proof.
  induction n as [|n IH]; cbn [be unbe]; [by rewrite Z.mod_1_r|].
  unfold zlen. rewrite length_be, IH. unfold u8.
  replace (8 * Z.of_nat (S n)) with (8 * Z.of_nat n + 8) by lia. rewrite Z.pow_add_r by lia.
  set (q := 2 ^ (8 * Z.of_nat n)). assert (0 < q) by (apply Z.pow_pos_nonneg; lia).
  rewrite Z.rem_mul_r by lia. lia.
Qed.

Lemma unbe_range bs : byte_list bs -> 0 <= unbe bs < 2 ^ (8 * zlen bs).
Proof.
  induction 1 as [|b bs Hb Hbs IH]; cbn [unbe]; [done|]. rewrite zlen_cons.
  replace (8 * (zlen bs + 1)) with (8 * zlen bs + 8) by lia. pose proof (zlen_nonneg bs).
  rewrite Z.pow_add_r by lia. unfold is_u8 in Hb. nia.
Qed.

Lemma be_unbe_gen bs k : byte_list bs -> be (length bs) (k * 2 ^ (8 * zlen bs) + unbe bs) = bs.
Proof.
  intros Hbs. revert k. induction Hbs as [|b bs Hb Hbs IH]; intros k; cbn [be unbe length]; [done|].
  pose proof (unbe_range bs Hbs) as Hr. change (Z.of_nat (length bs)) with (zlen bs). pose proof (zlen_nonneg bs).
  rewrite zlen_cons. replace (8 * (zlen bs + 1)) with (8 * zlen bs + 8) by lia. rewrite Z.pow_add_r by lia.
  set (q := 2 ^ (8 * zlen bs)) in *. assert (0 < q) by (apply Z.pow_pos_nonneg; lia).
  replace (k * (q * 2 ^ 8) + (b * q + unbe bs)) with ((k * 2 ^ 8 + b) * q + unbe bs) by lia. f_equal; [|apply IH].
  rewrite Z.div_add_l by lia. rewrite (Z.div_small (unbe bs)) by lia. unfold u8, is_u8 in *.
  rewrite Z.add_0_r, Z.add_comm, Z_mod_plus_full. by apply Z.mod_small.
Qed.

Lemma be_unbe bs : byte_list bs -> be (length bs) (unbe bs) = bs.
Proof. intros Hbs. by rewrite <- (be_unbe_gen bs 0 Hbs) at 3. Qed.

Lemma zlen_words ws : zlen (words ws) = 4 * zlen ws.
Proof.
  induction ws as [|w ws IH]; [done|]. change (words (w :: ws)) with (be 4 w ++ words ws).
  rewrite zlen_app, zlen_cons, IH. change (zlen (be 4 w)) with 4. lia.
Qed.

Lemma words_bytes ws : byte_list (words ws).
Proof.
  unfold words, byte_list. induction ws as [|w ws IH]; [constructor|]. rewrite fmap_cons, concat_cons.
  apply Forall_app. split; [apply be_bytes|done].
Qed.

Lemma unwords_words ws : Forall is_u32 ws -> unwords (length ws) (words ws) = ws.
Proof.
  induction 1 as [|w ws Hw Hws IH]; [done|]. change (words (w :: ws)) with (be 4 w ++ words ws).
  cbn [unwords length]. f_equal.
  - change (take 4 (be 4 w ++ words ws)) with (be 4 w). rewrite unbe_be. by apply Z.mod_small.
  - change (drop 4 (be 4 w ++ words ws)) with (words ws). done.
Qed.

Lemma length_unwords n bs : length (unwords n bs) = n.
Proof. revert bs. induction n; intros; simpl; auto. Qed.

Lemma unwords_range n bs : byte_list bs -> Forall is_u32 (unwords n bs).
Proof.
  revert bs. induction n as [|n IH]; intros bs Hbs; cbn [unwords]; constructor.
  - pose proof (unbe_range (take 4 bs) (Forall_take _ _ _ Hbs)) as Hr. unfold is_u32.
    assert (2 ^ (8 * zlen (take 4 bs)) <= 2 ^ 32).
    { apply Z.pow_le_mono_r; [lia|]. unfold zlen. rewrite length_take. lia. }
    lia.
  - apply IH. by apply Forall_drop.
Qed.

Lemma words_unwords n bs : byte_list bs -> length bs = (4 * n)%nat -> words (unwords n bs) = bs.
Proof.
  revert bs. induction n as [|n IH]; intros bs Hbs Hl; cbn [unwords].
  - destruct bs; [done|]. simpl in Hl. lia.
  - rewrite <- (take_drop 4 bs) at 3. change (words (unbe (take 4 bs) :: unwords n (drop 4 bs)))
      with (be 4 (unbe (take 4 bs)) ++ words (unwords n (drop 4 bs))). f_equal.
    + rewrite <- (be_unbe (take 4 bs)) at 2 by (by apply Forall_take). rewrite length_take. f_equal. lia.
    + apply IH; [by apply Forall_drop|]. rewrite length_drop. lia.
Qed.

Lemma unwords_app ws tl : Forall is_u32 ws -> unwords (length ws) (words ws ++ tl) = ws.
Proof.
  induction 1 as [|w ws Hw Hws IH]; [done|]. change (words (w :: ws) ++ tl) with (be 4 w ++ (words ws ++ tl)).
  cbn [unwords length]. f_equal; [|exact IH].
  change (take 4 (be 4 w ++ (words ws ++ tl))) with (be 4 w). rewrite unbe_be. by apply Z.mod_small.
Qed.

Lemma zdrop_app_exact {A} (l k : list A) n : zlen l = n -> zdrop n (l ++ k) = k.
Proof. intros <-. unfold zdrop, zlen. rewrite Nat2Z.id. apply drop_app_length. Qed.

Lemma ztake_app_exact {A} (l k : list A) n : zlen l = n -> ztake n (l ++ k) = l.
Proof. intros <-. unfold ztake, zlen. rewrite Nat2Z.id. apply take_app_length. Qed.

Lemma zdrop_split {A} (m n : Z) (l : list A) : 0 <= m -> 0 <= n -> zdrop (m + n) l = zdrop n (zdrop m l).
Proof. intros. by rewrite zdrop_zdrop. Qed.

Lemma unbe4 v : is_u32 v -> unbe (be 4 v) = v.
Proof. intros Hv. rewrite unbe_be. by apply Z.mod_small. Qed.
Lemma unbe2 v : is_u16 v -> unbe (be 2 v) = v.
Proof. intros Hv. rewrite unbe_be. by apply Z.mod_small. Qed.

Lemma decode_encode_inode i : inode_wf i -> decode_inode (encode_inode i) = i.
Proof.
  destruct i as [sz ty lk dir ind waste]. intros [Hs Ht Hl [Hdl Hd] Hi [Hwl Hw]]. simpl in *.
  unfold encode_inode, decode_inode. simpl sfi_size. simpl sfi_type. simpl sfi_linkcount. simpl sfi_direct.
  simpl sfi_indirect. simpl sfi_waste.
  set (rest := words dir ++ be 4 ind ++ words waste).
  assert (zdrop 8 (be 4 sz ++ be 2 ty ++ be 2 lk ++ rest) = rest) as H8 by reflexivity.
  assert (zlen (words dir) = 60) as H60 by (rewrite zlen_words, Hdl; done).
  assert (zdrop 68 (be 4 sz ++ be 2 ty ++ be 2 lk ++ rest) = be 4 ind ++ words waste) as H68.
  { change 68 with (8 + 60). rewrite zdrop_split, H8 by lia. by apply zdrop_app_exact. }
  unfold field at 1 2 3 4. f_equal.
  - change (ztake 4 (zdrop 0 (be 4 sz ++ be 2 ty ++ be 2 lk ++ rest))) with (be 4 sz). by apply unbe4.
  - change (ztake 2 (zdrop 4 (be 4 sz ++ be 2 ty ++ be 2 lk ++ rest))) with (be 2 ty). by apply unbe2.
  - change (ztake 2 (zdrop 6 (be 4 sz ++ be 2 ty ++ be 2 lk ++ rest))) with (be 2 lk). by apply unbe2.
  - rewrite H8. assert (length dir = 15%nat) as <- by (unfold zlen, SFS_NDIRECT in *; lia). by apply unwords_app.
  - rewrite H68. change (ztake 4 (be 4 ind ++ words waste)) with (be 4 ind). by apply unbe4.
  - change 72 with (68 + 4). rewrite zdrop_split, H68 by lia.
    change (zdrop 4 (be 4 ind ++ words waste)) with (words waste).
    assert (length waste = 110%nat) as <- by (unfold zlen in *; lia). by apply unwords_words.
Qed.

Lemma encode_inode_block i : inode_wf i -> zlen (encode_inode i) = SFS_BLOCKSIZE /\ byte_list (encode_inode i).
Proof.
  intros [_ _ _ [Hdl _] _ [Hwl _]]. unfold encode_inode. split.
  - rewrite !zlen_app, !zlen_words, Hdl, Hwl. unfold zlen. rewrite !length_be. done.
  - unfold byte_list. rewrite !Forall_app. split_and!; try apply be_bytes; apply words_bytes.
Qed.

Lemma field_bytes a n bs : byte_list bs -> byte_list (field a n bs).
Proof. intros Hb. apply Forall_take, Forall_drop, Hb. Qed.

Lemma zlen_field a n bs : 0 <= a -> 0 <= n -> a + n <= zlen bs -> zlen (field a n bs) = n.
Proof. intros. unfold field. rewrite zlen_ztake; [done|]. rewrite zlen_zdrop; lia. Qed.

Lemma unbe_field a n bs :
  byte_list bs -> 0 <= a -> 0 <= n -> a + n <= zlen bs -> 0 <= unbe (field a n bs) < 2 ^ (8 * n).
Proof.
  intros Hb Ha Hn Hl. pose proof (unbe_range _ (field_bytes a n bs Hb)) as Hr. by rewrite zlen_field in Hr by lia.
Qed.

(** Any block decodes to a well-formed inode. *)
Lemma decode_inode_wf bs : zlen bs = SFS_BLOCKSIZE -> byte_list bs -> inode_wf (decode_inode bs).
Proof.
  unfold SFS_BLOCKSIZE. intros Hl Hb. unfold decode_inode.
  pose proof (unbe_field 0 4 bs Hb ltac:(lia) ltac:(lia) ltac:(lia)).
  pose proof (unbe_field 4 2 bs Hb ltac:(lia) ltac:(lia) ltac:(lia)).
  pose proof (unbe_field 6 2 bs Hb ltac:(lia) ltac:(lia) ltac:(lia)).
  pose proof (unbe_field 68 4 bs Hb ltac:(lia) ltac:(lia) ltac:(lia)).
  split; cbn [sfi_size sfi_type sfi_linkcount sfi_direct sfi_indirect sfi_waste]; try done.
  all: split; [unfold zlen; by rewrite length_unwords|]; apply unwords_range, Forall_drop, Hb.
Qed.

Lemma decode_encode_dir d : dir_wf d -> decode_dir (encode_dir d) = d.
Proof.
  destruct d as [ino name]. intros [Hi [Hl Hn]]. simpl in *. unfold decode_dir, encode_dir, field. simpl sfd_ino.
  simpl sfd_name. f_equal.
  - change (ztake 4 (zdrop 0 (be 4 ino ++ name))) with (be 4 ino). by apply unbe4.
  - change (zdrop 4 (be 4 ino ++ name)) with name. apply ztake_all. unfold SFS_NAMELEN in *. lia.
Qed.

Lemma encode_dir_len d : dir_wf d -> zlen (encode_dir d) = 64 /\ byte_list (encode_dir d).
Proof.
  intros [_ [Hl Hn]]. unfold encode_dir. rewrite zlen_app, Hl. split; [done|].
  apply Forall_app. split; [apply be_bytes|done].
Qed.

Lemma encode_decode_dir bs : zlen bs = 64 -> byte_list bs -> encode_dir (decode_dir bs) = bs.
Proof.
  intros Hl Hb. unfold encode_dir, decode_dir. cbn [sfd_ino sfd_name]. etrans; [|apply (ztake_zdrop 4)]. f_equal.
  - unfold field. rewrite zdrop_0. pose proof (be_unbe (ztake 4 bs) (Forall_take _ _ _ Hb)) as He.
    assert (length (ztake 4 bs) = 4%nat) as H4; [|by rewrite H4 in He].
    pose proof (zlen_ztake 4 bs ltac:(lia)) as Hz. unfold zlen in Hz. lia.
  - unfold field. apply ztake_all. rewrite zlen_zdrop; lia.
Qed.

Lemma decode_dir_wf bs : zlen bs = 64 -> byte_list bs -> dir_wf (decode_dir bs).
Proof.
  intros Hl Hb. pose proof (unbe_field 0 4 bs Hb ltac:(lia) ltac:(lia) ltac:(lia)).
  split; simpl; [done|]. split; [apply (zlen_field 4 60); lia|]. by apply field_bytes.
Qed.

(** On-disk inodes and superblocks survive a write and a read. *)
Lemma decode_encode_super s : super_wf s -> decode_super (encode_super s) = s.
Proof.
  destruct s as [mg nb vol rs]. intros [Hm Hn [Hvl Hv] [Hrl Hr]]. simpl in *.
  unfold decode_super, encode_super, field. simpl sp_magic. simpl sp_nblocks. simpl sp_volname. simpl reserved.
  assert (zdrop 8 (be 4 mg ++ be 4 nb ++ vol ++ words rs) = vol ++ words rs) as H8 by reflexivity. f_equal.
  - change (ztake 4 (zdrop 0 (be 4 mg ++ be 4 nb ++ vol ++ words rs))) with (be 4 mg). by apply unbe4.
  - change (ztake 4 (zdrop 4 (be 4 mg ++ be 4 nb ++ vol ++ words rs))) with (be 4 nb). by apply unbe4.
  - rewrite H8. by apply ztake_app_exact.
  - change 40 with (8 + 32). rewrite zdrop_split, H8, zdrop_app_exact by (done || lia).
    assert (length rs = 118%nat) as <- by (unfold zlen in *; lia). by apply unwords_words.
Qed.

#[global] Arguments unwords : simpl never.
#[global] Arguments be : simpl never.
#[global] Arguments unbe : simpl never.
End SfsDisk.
