(* ===== verification/Runprogram.v ===== *)
(** * The arguments of a new program: src/syscall/runprogram.c

    [Runprogram] models how [runprogram] lays out the arguments on the user
    stack: the strings from the top down, the last one first, then the array
    of pointers to them, word-aligned. *)

From S2P Require Import Prelude Copyinout SfsDisk.
Import Copyinout.

Module Runprogram.

Definition USERSTACK : Z := USERSPACETOP.

(** The bytes of a word in memory. *)
Definition word_bytes (w : Z) : list Z := SfsDisk.be 4 w.
Definition word_at (m : gmap Z Z) (a : Z) : Z := SfsDisk.unbe (bytes_at m a 4).

(** The first loop, for [args] from the last to the first: the stack pointer,
    the total length and the pointers.  The results of the copies are not
    looked at. *)
Fixpoint copy_strings (args : list (list Z)) (stackptr : Z) : M uspace (Z * Z * list Z) :=
  match args with
  | [] => ret (stackptr, 0, [])
  | arg :: rest =>
      let* '(stackptr, total_kernel_mem, argv) := copy_strings rest stackptr in
      let len := zlen arg + 1 in
      let stackptr := u32 (stackptr - len) in
      let* _ := try (copyoutstr (arg ++ [0]) stackptr len) in
      ret (stackptr, s32 (total_kernel_mem + len), stackptr :: argv)
  end.

(** The second loop, for the words of [argv] from the last to the first. *)
Fixpoint copy_words (argv : list Z) (stackptr : Z) : M uspace Z :=
  match argv with
  | [] => ret stackptr
  | w :: rest =>
      let* stackptr := copy_words rest stackptr in
      let stackptr := u32 (stackptr - 4) in
      let* _ := try (copyout (word_bytes w) stackptr) in
      ret stackptr
  end.

(** [argv_ok]: whether the [kmalloc] of [argv] succeeds. *)
Definition setup_args (argv_ok : bool) (args : list (list Z)) : M uspace Z :=
  if negb argv_ok then err ENOMEM
  else
    let* '(stackptr, total_kernel_mem, argv) := copy_strings args USERSTACK in
    let stackptr := u32 (stackptr - (4 - Z.rem total_kernel_mem 4)) in
    copy_words (argv ++ [0]) stackptr.

(** ** The layout *)

Definition total (args : list (list Z)) : Z := foldr (fun a n => zlen a + 1 + n) 0 args.

(** Two memories agree but in the range. *)
Definition only_in (m m' : gmap Z Z) (lo hi : Z) : Prop := forall x, ~ lo <= x < hi -> m' !! x = m !! x.

Lemma bytes_only_in m m' lo hi a n : only_in m m' lo hi -> a + Z.of_nat n <= lo \/ hi <= a -> bytes_at m' a n = bytes_at m a n.
Proof. intros Ho Ha. apply bytes_at_ext. intros i Hi. apply Ho. lia. Qed.

Lemma only_in_set m a bs lo hi : lo <= a -> a + zlen bs <= hi -> only_in m (set_bytes m a bs) lo hi.
Proof. intros H1 H2 x Hx. rewrite set_bytes_lookup, bool_decide_false by lia. done. Qed.

Lemma total_nonneg args : 0 <= total args.
Proof.
  induction args as [|a args IH]; [done|]. change (total (a :: args)) with (zlen a + 1 + total args). pose proof (zlen_nonneg a). lia.
Qed.

(** [copyoutstr] of a string that fits. *)
Lemma copystr_out n i (s : list Z) a maxlen stoplen m :
  Forall (fun c => c <> 0) s -> 0 <= i -> (Z.to_nat i <= length s)%nat -> (length s - Z.to_nat i < n)%nat -> mapped m a (zlen s + 1) ->
  returns (copystr n i maxlen stoplen (fun i => of_option Wild (zlookup (s ++ [0]) i)) (fun i c => store (a + i) c) (mkUspace m true))
    (fun _ u' => u' = mkUspace (set_bytes m (a + i) (drop (Z.to_nat i) s ++ [0])) true).
Proof.
  intros Hs. revert i m. induction n as [|n IH]; intros i m Hi Hle Hn Hm; [lia|]. cbn [copystr]. runs_steps.
  assert (is_Some (m !! (a + i))) as [b Hb] by (apply Hm; unfold zlen; lia).
  destruct (decide (Z.to_nat i = length s)) as [Heq|Hne].
  - assert (zlookup (s ++ [0]) i = Some 0) as Hc.
    { rewrite zlookup_app_r by (unfold zlen; lia). replace (i - zlen s) with 0 by (unfold zlen; lia). done. }
    eapply runs_of_option; [exact Hc|]. unfold store. runs_steps. simpl. rewrite Hb. runs_steps. simpl.
    rewrite drop_ge by lia. done.
  - destruct (zlookup_is_Some s i) as [c Hc]; [unfold zlen; lia|]. assert (zlookup (s ++ [0]) i = Some c) as Hc'.
    { rewrite zlookup_app_l; [done|]. unfold zlen. lia. }
    eapply runs_of_option; [exact Hc'|]. unfold store. runs_steps. simpl. rewrite Hb. runs_steps.
    rewrite (proj2 (Z.eqb_neq c 0)) by (by eapply (Forall_zlookup (fun c => c <> 0))). runs_steps.
    eapply runs_mono; [apply (IH (i + 1)); [lia|lia|lia|]| |done].
    { intros j Hj. destruct (decide (a + i = a + j)) as [->|]; simpl; [rewrite lookup_insert_eq; by eexists|rewrite lookup_insert_ne by done; by apply Hm]. }
    intros r u' ->. runs_steps. unfold zlookup in Hc. rewrite bool_decide_true in Hc by lia. rewrite (drop_S s c (Z.to_nat i)) by done. simpl.
    replace (Z.to_nat (i + 1)) with (S (Z.to_nat i)) by lia. by replace (a + i + 1) with (a + (i + 1)) by lia.
Qed.

Lemma copyoutstr_fits (s : list Z) a m : Forall (fun c => c <> 0) s -> 0 <= a -> accessible m a (zlen s + 1) ->
  returns (copyoutstr (s ++ [0]) a (zlen s + 1) (clear_fault m)) (fun _ u' => u' = clear_fault (set_bytes m a (s ++ [0]))).
Proof.
  intros Hs Ha [[Hu1 Hu2] Hm]. unfold copyoutstr. pose proof (zlen_nonneg s). unfold USERSPACETOP in Hu2. runs_steps.
  eapply runs_mono; [apply (copycheck_spec a (zlen s + 1)); unfold is_u32; lia| |].
  2: { intros e u' (_ & _ & Hn & _). apply Hn. unfold in_user, USERSPACETOP. lia. }
  intros stop u' (-> & Hr & Hc). unfold USERSPACETOP in *. assert (stop = zlen s + 1) as -> by lia. apply guarded_spec.
  eapply runs_mono; [apply (copystr_out _ 0); [done|lia|simpl; lia|unfold zlen; simpl; lia|done]| |done].
  intros r u' ->. simpl. by rewrite Z.add_0_r.
Qed.

(** After the strings: each is where its pointer says. *)
Definition strings_at (m : gmap Z Z) (lo hi : Z) (args : list (list Z)) (argv : list Z) : Prop :=
  Forall2 (fun arg p => lo <= p /\ p + zlen arg + 1 <= hi /\ bytes_at m p (length (arg ++ [0])) = arg ++ [0]) args argv.

Lemma strings_only_in m m' lo hi lo' hi' args argv : strings_at m lo hi args argv -> only_in m m' lo' hi' -> hi' <= lo -> strings_at m' lo hi args argv.
Proof.
  intros Hs Ho Hle. eapply Forall2_impl; [exact Hs|]. intros arg p (H1 & H2 & H3). split_and!; [done|done|].
  rewrite <- H3 at 2. apply (bytes_only_in _ _ lo' hi'); [done|]. right. lia.
Qed.

Lemma strings_wider m lo lo' hi args argv : strings_at m lo hi args argv -> lo' <= lo -> strings_at m lo' hi args argv.
Proof. intros Hs Hle. eapply Forall2_impl; [exact Hs|]. intros arg p (H1 & H2 & H3). split_and!; [lia|done|done]. Qed.

Lemma copy_strings_spec args sp m :
  Forall (Forall (fun c => c <> 0)) args -> 0 < sp - total args -> sp <= USERSPACETOP -> mapped m (sp - total args) (total args) ->
  returns (copy_strings args sp (clear_fault m)) (fun r u' => exists argv m', r = (sp - total args, total args, argv) /\ u' = clear_fault m' /\
    only_in m m' (sp - total args) sp /\ strings_at m' (sp - total args) sp args argv /\ (forall a n, mapped m a n -> mapped m' a n)).
Proof.
  intros Hz. revert m. induction args as [|arg args IH]; intros m H0 Htop Hm.
  { simpl. exists [], m. rewrite Z.sub_0_r. split_and!; try done. constructor. }
  apply Forall_cons in Hz as [Harg Hz]. change (total (arg :: args)) with (zlen arg + 1 + total args) in *.
  pose proof (zlen_nonneg arg) as Hl. pose proof (total_nonneg args) as Ht. cbn [copy_strings]. runs_steps.
  eapply runs_mono; [apply (IH Hz m); [lia|done|]| |done].
  { intros i Hi. specialize (Hm (i + zlen arg + 1) ltac:(lia)). by replace (sp - (zlen arg + 1 + total args) + (i + zlen arg + 1)) with (sp - total args + i) in Hm by lia. }
  intros r u' (argv & m1 & -> & -> & Ho1 & Hs1 & Hm1). unfold USERSPACETOP in Htop.
  set (p := sp - (zlen arg + 1 + total args)) in *. assert (u32 (sp - total args - (zlen arg + 1)) = p) as Ep by (rewrite u32_small; unfold is_u32; lia).
  rewrite Ep. assert (s32 (total args + (zlen arg + 1)) = zlen arg + 1 + total args) as ->.
  { unfold s32. rewrite Z.mod_small; lia. }
  apply runs_bind, runs_try. eapply runs_mono; [apply (copyoutstr_fits arg p m1); [done|lia|]| |done].
  { split; [unfold in_user, USERSPACETOP; lia|]. intros i Hi. apply (Hm1 p (zlen arg + 1 + total args)); [done|lia]. }
  intros r u' ->. runs_steps. assert (zlen (arg ++ [0]) = zlen arg + 1) as El by (by rewrite zlen_app).
  assert (only_in m1 (set_bytes m1 p (arg ++ [0])) p (p + zlen arg + 1)) as Hset by (apply only_in_set; lia).
  eexists (p :: argv), (set_bytes m1 p (arg ++ [0])). split_and!; [done|done| | |].
  - intros x Hx. rewrite Hset by lia. apply Ho1. lia.
  - constructor; [split_and!; [lia|lia|apply bytes_at_set]|]. apply (strings_wider _ (sp - total args)); [|lia].
    eapply strings_only_in; [exact Hs1|exact Hset|lia].
  - intros a n Hn. apply set_bytes_mapped; [|by apply Hm1]. rewrite El. intros i Hi. apply (Hm1 p (zlen arg + 1 + total args)); [done|lia].
Qed.

Lemma copy_words_spec ws sp m : 0 <= sp - 4 * zlen ws -> sp <= USERSPACETOP -> mapped m (sp - 4 * zlen ws) (4 * zlen ws) -> Forall is_u32 ws ->
  returns (copy_words ws sp (clear_fault m)) (fun r u' => exists m', r = sp - 4 * zlen ws /\ u' = clear_fault m' /\
    only_in m m' (sp - 4 * zlen ws) sp /\ (forall i w, zlookup ws i = Some w -> word_at m' (sp - 4 * zlen ws + 4 * i) = w) /\
    (forall a n, mapped m a n -> mapped m' a n)).
Proof.
  intros H0 Htop Hm Hws. revert H0 Hm. induction ws as [|w ws IH]; intros H0 Hm.
  { simpl. change (zlen []) with 0. exists m. rewrite Z.sub_0_r. split_and!; try done. intros i w Hi%zlookup_Some_range. change (zlen []) with 0 in Hi. lia. }
  apply Forall_cons in Hws as [Hw Hws]. specialize (IH Hws). rewrite zlen_cons in *. pose proof (zlen_nonneg ws) as Hl. cbn [copy_words]. runs_steps.
  eapply runs_mono; [apply IH; [lia|]| |done].
  { intros i Hi. specialize (Hm (i + 4) ltac:(lia)). by replace (sp - 4 * (zlen ws + 1) + (i + 4)) with (sp - 4 * zlen ws + i) in Hm by lia. }
  intros r u' (m1 & -> & -> & Ho1 & Hw1 & Hm1). unfold USERSPACETOP in Htop. set (p := sp - 4 * (zlen ws + 1)) in *.
  assert (u32 (sp - 4 * zlen ws - 4) = p) as -> by (rewrite u32_small; unfold is_u32; lia).
  assert (zlen (word_bytes w) = 4) as El by (unfold zlen, word_bytes; by rewrite SfsDisk.length_be).
  assert (mapped m1 p 4) as Hp. { intros i Hi. apply (Hm1 p (4 * (zlen ws + 1))); [done|lia]. }
  apply runs_bind, runs_try. eapply runs_mono; [apply (copyout_spec p (word_bytes w) m1); rewrite ?El; unfold is_u32; lia| |].
  2: { intros e u' (_ & Hn & _). exfalso. apply Hn. rewrite El. split; [unfold in_user, USERSPACETOP; lia|done]. }
  intros r u' (_ & ->). runs_steps. assert (only_in m1 (set_bytes m1 p (word_bytes w)) p (p + 4)) as Hset by (apply only_in_set; lia).
  exists (set_bytes m1 p (word_bytes w)). split_and!; [done|done| | |].
  - intros x Hx. rewrite Hset by lia. apply Ho1. lia.
  - intros i w' Hi. pose proof (zlookup_Some_range _ _ _ Hi) as Hr. destruct (decide (i = 0)) as [->|Hi0].
    + injection Hi as ->. rewrite Z.mul_0_r, Z.add_0_r. unfold word_at. replace 4%nat with (length (word_bytes w')) by (unfold word_bytes; apply SfsDisk.length_be).
      rewrite bytes_at_set. unfold word_bytes. rewrite SfsDisk.unbe_be. by apply Z.mod_small.
    + change (w :: ws) with ([w] ++ ws) in Hi. rewrite zlookup_app_r in Hi by (change (zlen [w]) with 1; lia). change (zlen [w]) with 1 in Hi.
      rewrite <- (Hw1 _ _ Hi). unfold word_at. rewrite (bytes_only_in m1 _ p (p + 4)); [|done|lia]. f_equal. f_equal. lia.
  - intros a n Hn. apply set_bytes_mapped; [by rewrite El|by apply Hm1].
Qed.

(** The stack an argument list needs. *)
Definition stack_size (args : list (list Z)) : Z := total args + (4 - total args mod 4) + 4 * (zlen args + 1).

(** With room on the stack, [setup_args] leaves an aligned stack pointer to an
    array of pointers that ends with NULL, each the address of the copy of its
    argument with its terminator, and changes no memory below the stack
    pointer; without memory for the array it changes nothing. *)
Theorem args_layout (args : list (list Z)) (m : gmap Z Z)
    (Hz : Forall (Forall (fun c => c <> 0)) args) (Hroom : stack_size args <= USERSTACK)
    (Hmap : mapped m (USERSTACK - stack_size args) (stack_size args)) :
  returns (setup_args true args (clear_fault m)) (fun sp u' =>
    sp = USERSTACK - stack_size args /\ sp mod 4 = 0 /\ tm_badfaultfunc u' = false /\
    (forall i arg, zlookup args i = Some arg ->
       bytes_at (um u') (word_at (um u') (sp + 4 * i)) (length (arg ++ [0])) = arg ++ [0]) /\
    word_at (um u') (sp + 4 * zlen args) = 0 /\
    (forall x, ~ sp <= x < USERSTACK -> um u' !! x = m !! x)) /\
  setup_args false args (clear_fault m) = Err ENOMEM (clear_fault m).
Proof.
  split; [|done]. unfold setup_args. cbn [negb]. pose proof (total_nonneg args) as Ht. pose proof (zlen_nonneg args) as Hl.
  assert (0 <= total args mod 4 < 4) as Hmod by (apply Z.mod_pos_bound; lia).
  unfold stack_size in *. set (pad := 4 - total args mod 4) in *. set (size := total args + pad + 4 * (zlen args + 1)) in *. unfold USERSTACK, USERSPACETOP in *.
  runs_steps. eapply runs_mono; [apply (copy_strings_spec args); [done|lia|unfold USERSPACETOP; lia|]| |done].
  { intros i Hi. specialize (Hmap (i + size - total args) ltac:(lia)). by replace (2147483648 - size + (i + size - total args)) with (2147483648 - total args + i) in Hmap by lia. }
  intros r u' (argv & m1 & -> & -> & Ho1 & Hs1 & Hm1). rewrite Z.rem_mod_nonneg by lia. fold pad.
  assert (zlen argv = zlen args) as Ea by (unfold zlen; by rewrite (Forall2_length _ _ _ Hs1)).
  assert (u32 (2147483648 - total args - pad) = 2147483648 - total args - pad) as -> by (apply u32_small; unfold is_u32; lia).
  assert (zlen (argv ++ [0]) = zlen args + 1) as Ew by (rewrite zlen_app, Ea; done).
  eapply runs_mono; [apply (copy_words_spec (argv ++ [0])); rewrite ?Ew| |done]; [lia|unfold USERSPACETOP; lia| | |].
  { replace (2147483648 - total args - pad - 4 * (zlen args + 1)) with (2147483648 - size) by lia. intros i Hi. apply (Hm1 _ size); [done|lia]. }
  { apply Forall_app. split; [|by repeat constructor]. eapply Forall2_Forall_r; [exact Hs1|]. apply Forall_forall. intros arg _ p (H1 & H2 & _).
    pose proof (zlen_nonneg arg). unfold is_u32. lia. }
  intros sp u' (m2 & -> & -> & Ho2 & Hw2 & _). rewrite Ew in Ho2, Hw2 |- *. cbn [um clear_fault tm_badfaultfunc]. replace (2147483648 - total args - pad - 4 * (zlen args + 1)) with (2147483648 - size) in * by lia.
  split_and!; [done|unfold size, pad; dlia|done| | |].
  - intros i arg Hi. pose proof (zlookup_Some_range _ _ _ Hi) as Hr. destruct (zlookup_is_Some argv i) as [p Hp]; [lia|].
    rewrite (Hw2 i p) by (by rewrite zlookup_app_l by lia).
    assert (2147483648 - total args <= p /\ bytes_at m1 p (length (arg ++ [0])) = arg ++ [0]) as [Hlo Hb].
    { unfold zlookup in Hi, Hp. case_bool_decide; [|done]. destruct (Forall2_lookup_lr _ _ _ _ _ _ Hs1 Hi Hp) as (H1 & _ & H3). done. }
    rewrite <- Hb at 2. eapply bytes_only_in; [exact Ho2|]. lia.
  - apply Hw2. rewrite zlookup_app_r by lia. by replace (zlen args - zlen argv) with 0 by lia.
  - intros x Hx. rewrite Ho2 by lia. apply Ho1. lia.
Qed.

Definition ex_args : list (list Z) := [[97; 98]; [99]].
Definition ex_stack : gmap Z Z := set_bytes ∅ (USERSTACK - stack_size ex_args) (zrep (stack_size ex_args) 0).

Lemma args_layout_witness :
  returns (setup_args true ex_args (clear_fault ex_stack)) (fun sp u' =>
    sp = USERSTACK - stack_size ex_args /\ sp mod 4 = 0 /\ tm_badfaultfunc u' = false /\
    (forall i arg, zlookup ex_args i = Some arg ->
       bytes_at (um u') (word_at (um u') (sp + 4 * i)) (length (arg ++ [0])) = arg ++ [0]) /\
    word_at (um u') (sp + 4 * zlen ex_args) = 0 /\
    (forall x, ~ sp <= x < USERSTACK -> um u' !! x = ex_stack !! x)) /\
  setup_args false ex_args (clear_fault ex_stack) = Err ENOMEM (clear_fault ex_stack).
Proof.
  refine (args_layout ex_args ex_stack _ _ _); [by repeat constructor|by vm_compute|]. intros i Hi. unfold ex_stack. rewrite set_bytes_lookup.
  assert (0 <= stack_size ex_args) as Hs by (by vm_compute). rewrite zlen_zrep by done. rewrite bool_decide_true by lia.
  apply zlookup_is_Some. rewrite zlen_zrep by done. lia.
Defined.
End Runprogram.
