(* ===== verification/Device.v ===== *)
(** * Block devices

    What a file system relies on of the device it is mounted on: the [d_io],
    [d_blocks] and [d_blocksize] of a [struct device] (src/include/device.h).
    The disk driver discharges it in [Lhd]. *)

From S2P Require Import Prelude Copyinout Uio.
Import Uio.

Module Device.

(** [dev_block d b] is the contents of sector [b]; [dev_sound d] says that the
    medium has no errors. *)
Class BlockDevice (D : Type) := {
  d_blocks : D -> Z;
  d_blocksize : D -> Z;
  d_io : M (D * xfer) unit;
  dev_block : D -> Z -> list Z;
  dev_sound : D -> Prop;

  d_blocks_range d : dev_sound d -> 0 <= d_blocks d < 2 ^ 32;
  dev_block_len d b : dev_sound d -> 0 <= b < d_blocks d ->
    zlen (dev_block d b) = d_blocksize d /\ Forall is_u8 (dev_block d b);
  (** One sector, in either direction: it is transferred, or the memory of the
      uio cannot be reached. *)
  d_io_ok d x base l b :
    dev_sound d -> xok x base l -> uio_resid (xu x) = d_blocksize d ->
    uio_offset (xu x) = b * d_blocksize d -> 0 <= b < d_blocks d ->
    (uio_dir (xu x) = UIO_WRITE -> Forall is_u8 (get_bytes x base (d_blocksize d))) ->
    runs (d_io (d, x))
      (fun _ s => reach x base (d_blocksize d) /\ dev_sound (fst s) /\ d_blocks (fst s) = d_blocks d /\
         d_blocksize (fst s) = d_blocksize d /\
         snd s = advance (d_blocksize d) (moved base (dev_block d b) x) /\
         forall c, dev_block (fst s) c =
           match uio_dir (xu x) with
           | UIO_WRITE => if c =? b then get_bytes x base (d_blocksize d) else dev_block d c
           | UIO_READ => dev_block d c
           end)
      (fun e s => e = EFAULT /\ ~ reach x base (d_blocksize d) /\ dev_sound (fst s) /\
         d_blocks (fst s) = d_blocks d /\ d_blocksize (fst s) = d_blocksize d /\
         (forall c, dev_block (fst s) c = dev_block d c) /\ faulted x (snd s) base (d_blocksize d)) }.
End Device.
