(* ===== verification/Lhd.v ===== *)
(** * The LAMEbus hard disk driver

    [Lhd] models src/dev/lamebus/lhd.c: a transfer in sectors through the
    card's buffer, the command and status registers, and the interrupt handler
    that posts the result.  The card itself is hardware, the class [LhdCard]:
    what its registers do.  The driver is a [BlockDevice]. *)

From S2P Require Import Prelude Copyinout Uio Device.
Import Copyinout Uio Device.

Module Lhd.

Definition LHD_SECTSIZE : Z := 512.
Definition LHD_REG_NSECT : Z := 0.
Definition LHD_REG_STAT : Z := 4.
Definition LHD_REG_SECT : Z := 8.
Definition LHD_IDLE : Z := 0.
Definition LHD_WORKING : Z := 1.
Definition LHD_OK : Z := 4.
Definition LHD_INVSECT : Z := 12.
Definition LHD_MEDIA : Z := 20.
Definition LHD_ISWRITE : Z := 2.
Definition LHD_STATEMASK : Z := 29.

(** The card: its registers, its buffer, and [card_run], the time until the
    operation in progress is over and the interrupt is raised. *)
Class LhdCard (C : Type) := {
  card_rdreg : Z -> C -> Z;
  card_wreg : Z -> Z -> C -> C;
  card_buf : C -> list Z;
  card_setbuf : list Z -> C -> C;
  card_run : C -> C;

  (** The medium, and that it has no errors. *)
  card_sector : C -> Z -> list Z;
  card_sound : C -> Prop;

  card_nsect c : card_sound c -> 0 <= card_rdreg LHD_REG_NSECT c < 2 ^ 32;
  card_sector_len c s : card_sound c -> 0 <= s < card_rdreg LHD_REG_NSECT c ->
    zlen (card_sector c s) = LHD_SECTSIZE /\ Forall is_u8 (card_sector c s);
  card_buf_len c : card_sound c -> zlen (card_buf c) = LHD_SECTSIZE;
  (** Filling the buffer changes nothing else. *)
  card_setbuf_ok c b : card_sound c -> zlen b = LHD_SECTSIZE -> Forall is_u8 b ->
    card_sound (card_setbuf b c) /\ card_buf (card_setbuf b c) = b /\
    card_rdreg LHD_REG_NSECT (card_setbuf b c) = card_rdreg LHD_REG_NSECT c /\
    forall s, card_sector (card_setbuf b c) s = card_sector c s;
  (** A read command. *)
  card_read c s : card_sound c -> 0 <= s < card_rdreg LHD_REG_NSECT c ->
    let c' := card_run (card_wreg LHD_REG_STAT LHD_WORKING (card_wreg LHD_REG_SECT s c)) in
    Z.land (card_rdreg LHD_REG_STAT c') LHD_STATEMASK = LHD_OK /\
    let c'' := card_wreg LHD_REG_STAT 0 c' in
    card_sound c'' /\ card_buf c'' = card_sector c s /\
    card_rdreg LHD_REG_NSECT c'' = card_rdreg LHD_REG_NSECT c /\
    forall t, card_sector c'' t = card_sector c t;
  (** A write command. *)
  card_write c s : card_sound c -> 0 <= s < card_rdreg LHD_REG_NSECT c -> Forall is_u8 (card_buf c) ->
    let c' := card_run (card_wreg LHD_REG_STAT (Z.lor LHD_WORKING LHD_ISWRITE) (card_wreg LHD_REG_SECT s c)) in
    Z.land (card_rdreg LHD_REG_STAT c') LHD_STATEMASK = LHD_OK /\
    let c'' := card_wreg LHD_REG_STAT 0 c' in
    card_sound c'' /\
    card_rdreg LHD_REG_NSECT c'' = card_rdreg LHD_REG_NSECT c /\
    forall t, card_sector c'' t = if t =? s then card_buf c else card_sector c t }.

Section Driver.
Context {C : Type} `{!LhdCard C}.

(** The softc: the card at its slot, and the counts of the two semaphores. *)
Record lhd_softc := mkLhd {
  lh_card : C; lh_result : Z; lh_clear : Z; lh_done : Z; lh_blocks : Z; lh_blocksize : Z }.

Definition on_card (F : C -> C) : M lhd_softc unit :=
  modify (fun h => mkLhd (F (lh_card h)) (lh_result h) (lh_clear h) (lh_done h) (lh_blocks h) (lh_blocksize h)).
Definition put_result (r : Z) : M lhd_softc unit :=
  modify (fun h => mkLhd (lh_card h) r (lh_clear h) (lh_done h) (lh_blocks h) (lh_blocksize h)).
Definition put_clear (n : Z) : M lhd_softc unit :=
  modify (fun h => mkLhd (lh_card h) (lh_result h) n (lh_done h) (lh_blocks h) (lh_blocksize h)).
Definition put_done (n : Z) : M lhd_softc unit :=
  modify (fun h => mkLhd (lh_card h) (lh_result h) (lh_clear h) n (lh_blocks h) (lh_blocksize h)).

Definition lhd_rdreg (reg : Z) : M lhd_softc Z := let* h := get in ret (card_rdreg reg (lh_card h)).
Definition lhd_wreg (reg val : Z) : M lhd_softc unit := on_card (card_wreg reg val).

Definition lhd_code_to_errno (code : Z) : Z :=
  let st := Z.land code LHD_STATEMASK in
  if st =? LHD_OK then 0 else if st =? LHD_INVSECT then EINVAL else if st =? LHD_MEDIA then EIO else EAGAIN.

Definition lhd_iodone (e : Z) : M lhd_softc unit :=
  put_result e ;;
  let* h := get in put_done (lh_done h + 1).

Definition lhd_irq : M lhd_softc unit :=
  let* val := lhd_rdreg LHD_REG_STAT in
  let st := Z.land val LHD_STATEMASK in
  if (st =? LHD_IDLE) || (st =? LHD_WORKING) then ret tt
  else if (st =? LHD_OK) || (st =? LHD_INVSECT) || (st =? LHD_MEDIA) then
    lhd_wreg LHD_REG_STAT 0 ;; lhd_iodone (lhd_code_to_errno val)
  else ret tt.

Definition lhd_open : M lhd_softc unit := ret tt.
Definition lhd_close : M lhd_softc unit := ret tt.
Definition lhd_ioctl (op data : Z) : M lhd_softc unit := err EIOCTL.

(** [P(lh->lh_clear)]: with nobody else on the device, a count of 0 stays 0. *)
Definition P_clear : M lhd_softc unit :=
  let* h := get in
  if lh_clear h =? 0 then crashed Hung else put_clear (lh_clear h - 1).
Definition V_clear : M lhd_softc unit := let* h := get in put_clear (lh_clear h + 1).

(** [P(lh->lh_done)]: the thread sleeps while the card works and its interrupt
    comes; if the handler does not post, it sleeps forever. *)
Definition P_done : M lhd_softc unit :=
  let* h := get in
  (if* lh_done h =? 0 then (on_card card_run ;; lhd_irq)) ;;
  let* h := get in
  if lh_done h =? 0 then crashed Hung else put_done (lh_done h - 1).

Definition lift_h {A} (m : M lhd_softc A) : M (lhd_softc * xfer) A := zoom fst (fun h s => (h, snd s)) m.
Definition lift_u {A} (m : M xfer A) : M (lhd_softc * xfer) A := zoom snd (fun x s => (fst s, x)) m.

(** [uiomove(lh->lh_buf, LHD_SECTSIZE, uio)] *)
Definition move_buf : M (lhd_softc * xfer) unit :=
  let* s := get in
  let* b := lift_u (uiomove (card_buf (lh_card (fst s)))) in
  lift_h (on_card (card_setbuf b)).

(** One round of the loop of [lhd_io]. *)
Definition lhd_sector (sector statval : Z) : M (lhd_softc * xfer) unit :=
  lift_h P_clear ;;
  let* s := get in
  let rw := uio_dir (xu (snd s)) in
  let* moved := (match rw with UIO_WRITE => try move_buf | UIO_READ => ret (inl tt) end) in
  match moved with
  | inr e => lift_h V_clear ;; err e
  | inl _ =>
      lift_h (lhd_wreg LHD_REG_SECT sector) ;;
      lift_h (lhd_wreg LHD_REG_STAT statval) ;;
      lift_h P_done ;;
      let* s := get in
      let result := lh_result (fst s) in
      let* result :=
        (match rw with
         | UIO_READ =>
             if result =? 0 then
               (let* r := try move_buf in ret (match r with inl _ => 0 | inr e => e end))
             else ret result
         | UIO_WRITE => ret result
         end) in
      lift_h V_clear ;;
      if result =? 0 then ret tt else err result
  end.

Fixpoint lhd_loop (len : nat) (sector statval : Z) : M (lhd_softc * xfer) unit :=
  match len with
  | O => ret tt
  | S len' => lhd_sector sector statval ;; lhd_loop len' (u32 (sector + 1)) statval
  end.

Definition lhd_io : M (lhd_softc * xfer) unit :=
  let* s := get in
  let u := xu (snd s) in
  let sector := u32 (Z.quot (uio_offset u) LHD_SECTSIZE) in
  let sectoff := u32 (Z.rem (uio_offset u) LHD_SECTSIZE) in
  let len := uio_resid u / LHD_SECTSIZE in
  let lenoff := uio_resid u mod LHD_SECTSIZE in
  if negb (sectoff =? 0) || negb (lenoff =? 0) then err EINVAL
  else if lh_blocks (fst s) <? u32 (sector + len) then err EINVAL
  else
    let statval := match uio_dir u with UIO_WRITE => Z.lor LHD_WORKING LHD_ISWRITE | UIO_READ => LHD_WORKING end in
    lhd_loop (Z.to_nat len) sector statval.

(** [config_lhd] up to the registration with the VFS; the arguments say whether
    the two calls of [sem_create] succeed. *)
Definition config_lhd (clear_ok done_ok : bool) (card : C) : lhd_softc + Z :=
  if negb clear_ok then inr ENOMEM
  else if negb done_ok then inr ENOMEM
  else inl (mkLhd card 0 1 0 (card_rdreg LHD_REG_NSECT card) LHD_SECTSIZE).

(** ** The driver between requests *)

Record idle (h : lhd_softc) : Prop := {
  id_card : card_sound (lh_card h);
  id_clear : lh_clear h = 1;
  id_done : lh_done h = 0;
  id_blocks : lh_blocks h = card_rdreg LHD_REG_NSECT (lh_card h);
  id_size : lh_blocksize h = LHD_SECTSIZE }.

(** The command is over and its result is [e]. *)
Lemma P_done_spec h e (Q : unit -> lhd_softc -> Prop) R :
  lh_done h = 0 ->
  let c := card_run (lh_card h) in
  Z.land (card_rdreg LHD_REG_STAT c) LHD_STATEMASK ∈ [LHD_OK; LHD_INVSECT; LHD_MEDIA] ->
  e = lhd_code_to_errno (card_rdreg LHD_REG_STAT c) ->
  Q tt (mkLhd (card_wreg LHD_REG_STAT 0 c) e (lh_clear h) 0 (lh_blocks h) (lh_blocksize h)) ->
  runs (P_done h) Q R.
Proof.
  intros Hd c Hst He HQ. unfold P_done. runs_steps. rewrite Hd. simpl. unfold on_card, lhd_irq, lhd_rdreg. runs_steps. simpl.
  fold c. assert (forall st, st ∈ [LHD_OK; LHD_INVSECT; LHD_MEDIA] ->
    (st =? LHD_IDLE) || (st =? LHD_WORKING) = false /\ (st =? LHD_OK) || (st =? LHD_INVSECT) || (st =? LHD_MEDIA) = true) as Hsw.
  { intros st Hin. rewrite !elem_of_cons, elem_of_nil in Hin. by destruct Hin as [->|[->|[->|[]]]]. }
  destruct (Hsw _ Hst) as [-> ->]. unfold lhd_wreg, on_card, lhd_iodone, put_result, put_done. runs_steps. simpl. runs_steps.
  simpl. rewrite Hd. simpl. rewrite <- He. exact HQ.
Qed.

(** The transfer between the buffer and memory. *)
Lemma move_buf_spec h x base l (Q : unit -> lhd_softc * xfer -> Prop) (R : Z -> lhd_softc * xfer -> Prop) :
  xok x base l -> card_sound (lh_card h) -> LHD_SECTSIZE <= uio_resid (xu x) ->
  let b := match uio_dir (xu x) with UIO_READ => card_buf (lh_card h) | UIO_WRITE => get_bytes x base LHD_SECTSIZE end in
  (reach x base LHD_SECTSIZE ->
   Q tt (mkLhd (card_setbuf b (lh_card h)) (lh_result h) (lh_clear h) (lh_done h) (lh_blocks h) (lh_blocksize h),
         advance LHD_SECTSIZE (moved base (card_buf (lh_card h)) x))) ->
  (forall x', ~ reach x base LHD_SECTSIZE -> faulted x x' base LHD_SECTSIZE -> R EFAULT (h, x')) ->
  runs (move_buf (h, x)) Q R.
Proof.
  intros Hx Hs Hres b HQ HR. pose proof (card_buf_len _ Hs) as Hl. unfold move_buf, lift_u, lift_h. runs_steps. simpl.
  eapply runs_mono; [eapply (uiomove_spec x base l); [done|lia]| |]; cbv beta; rewrite Hl.
  - intros r x' (Hr & -> & ->). unfold on_card. runs_steps. simpl. by apply HQ.
  - intros e x' (-> & Hr & Hf). simpl. by apply HR.
Qed.

Lemma moved_write x base bs : uio_dir (xu x) = UIO_WRITE -> moved base bs x = x.
Proof. intros H. unfold moved. by rewrite H. Qed.

Lemma sector_write h x base l b :
  idle h -> xok x base l -> LHD_SECTSIZE <= uio_resid (xu x) -> 0 <= b < lh_blocks h ->
  uio_dir (xu x) = UIO_WRITE -> Forall is_u8 (get_bytes x base LHD_SECTSIZE) -> zlen (get_bytes x base LHD_SECTSIZE) = LHD_SECTSIZE ->
  runs (lhd_sector b (Z.lor LHD_WORKING LHD_ISWRITE) (h, x))
    (fun _ s => reach x base LHD_SECTSIZE /\ snd s = advance LHD_SECTSIZE x /\ idle (fst s) /\ lh_blocks (fst s) = lh_blocks h /\
       forall t, card_sector (lh_card (fst s)) t =
         if t =? b then get_bytes x base LHD_SECTSIZE else card_sector (lh_card h) t)
    (fun e s => e = EFAULT /\ ~ reach x base LHD_SECTSIZE /\ fst s = h /\ faulted x (snd s) base LHD_SECTSIZE).
Proof.
  intros [Hc Hcl Hd Hb Hsz] Hx Hres Hr Hdir Hby Hlen. unfold lhd_sector, lift_h, P_clear, put_clear. runs_steps. simpl.
  rewrite Hcl. simpl. runs_steps. simpl. rewrite Hdir. runs_steps.
  eapply move_buf_spec; [done|done|done|..]; simpl.
  - rewrite Hdir. intros Hre. runs_steps. rewrite moved_write by done. unfold lhd_wreg, on_card. simpl. runs_steps. simpl.
    destruct (card_setbuf_ok (lh_card h) _ Hc Hlen Hby) as (S1 & S2 & S3 & S4).
    destruct (card_write _ b S1) as (W1 & W2 & W3 & W4); [lia|by rewrite S2|].
    eapply (P_done_spec _ 0); [done| | |]; simpl.
    + rewrite W1. by constructor.
    + unfold lhd_code_to_errno. by rewrite W1.
    + runs_steps. unfold V_clear, put_clear. runs_steps. simpl. runs_steps. split; [done|]. split; [done|]. simpl.
      split; [|split; [done|]].
      * split; simpl; try done. lia.
      * intros t. rewrite W4, S2. by destruct (t =? b).
  - intros x' Hnr Hf. unfold V_clear, put_clear. runs_steps. simpl. split; [done|]. split; [done|]. split; [|done].
    destruct h. simpl in *. by subst.
Qed.

Lemma sector_read h x base l b :
  idle h -> xok x base l -> LHD_SECTSIZE <= uio_resid (xu x) -> 0 <= b < lh_blocks h ->
  uio_dir (xu x) = UIO_READ ->
  runs (lhd_sector b LHD_WORKING (h, x))
    (fun _ s => reach x base LHD_SECTSIZE /\ snd s = advance LHD_SECTSIZE (moved base (card_sector (lh_card h) b) x) /\
       idle (fst s) /\ lh_blocks (fst s) = lh_blocks h /\ forall t, card_sector (lh_card (fst s)) t = card_sector (lh_card h) t)
    (fun e s => e = EFAULT /\ ~ reach x base LHD_SECTSIZE /\ idle (fst s) /\ lh_blocks (fst s) = lh_blocks h /\
       (forall t, card_sector (lh_card (fst s)) t = card_sector (lh_card h) t) /\ faulted x (snd s) base LHD_SECTSIZE).
Proof.
  intros [Hc Hcl Hd Hb Hsz] Hx Hres Hr Hdir. unfold lhd_sector, lift_h, P_clear, put_clear. runs_steps. simpl.
  rewrite Hcl. simpl. runs_steps. simpl. rewrite Hdir. runs_steps. unfold lhd_wreg, on_card. runs_steps. simpl.
  destruct (card_read (lh_card h) b Hc) as (W1 & W2 & W3 & W4 & W5); [lia|].
  destruct (card_sector_len (lh_card h) b Hc) as [Hlen Hby]; [lia|]. rewrite <- W3 in Hlen, Hby.
  eapply (P_done_spec _ 0); [done| | |]; simpl.
  - rewrite W1. by constructor.
  - unfold lhd_code_to_errno. by rewrite W1.
  - runs_steps. simpl. runs_steps. eapply move_buf_spec; [done|done|done|..]; simpl.
    + rewrite Hdir, W3. intros Hre. rewrite W3 in Hlen, Hby. destruct (card_setbuf_ok _ _ W2 Hlen Hby) as (S1 & S2 & S3 & S4).
      unfold V_clear, put_clear. runs_steps. simpl. runs_steps. split; [done|]. split; [done|]. simpl. split; [|split; [done|]].
      * split; simpl; try done. congruence.
      * intros t. by rewrite S4, W5.
    + intros x' Hnr Hf. unfold V_clear, put_clear. runs_steps. simpl. runs_steps. split; [done|]. split; [done|]. simpl.
      split; [split; simpl; try done; congruence|]. by split_and!.
Qed.

(** The driver is what a file system expects of its device. *)
#[export, refine] Instance lhd_device : BlockDevice lhd_softc := {
  d_blocks := lh_blocks;
  d_blocksize := lh_blocksize;
  d_io := lhd_io;
  dev_block h b := card_sector (lh_card h) b;
  dev_sound := idle }.
Proof.
  - intros h [Hc _ _ Hb _]. rewrite Hb. by apply card_nsect.
  - intros h b [Hc _ _ Hb Hs] Hr. rewrite Hs. apply card_sector_len; [done|]. by rewrite <- Hb.
  - intros h x base l b Hid Hx Hres Hoff Hr Hby. pose proof (id_size _ Hid) as Hsz. rewrite Hsz in *.
    pose proof (card_nsect _ (id_card _ Hid)) as Hn. rewrite <- (id_blocks _ Hid) in Hn. pose proof (xo_resid _ _ _ Hx) as Hxr.
    unfold lhd_io. runs_steps. simpl. rewrite Hoff, Hres. change (LHD_SECTSIZE mod LHD_SECTSIZE) with 0.
    change (LHD_SECTSIZE / LHD_SECTSIZE) with 1.
    rewrite Z.quot_mul, Z.rem_mul by done. rewrite (u32_small b) by (unfold is_u32; lia). change (u32 0) with 0. simpl.
    destruct (Z.ltb_spec (lh_blocks h) (u32 (b + 1))) as [Hlt|_].
    { destruct (decide (b + 1 < 2 ^ 32)); [rewrite u32_small in Hlt; unfold is_u32 in *; lia|].
      replace (b + 1) with (2 ^ 32) in Hlt by lia. change (u32 (2 ^ 32)) with 0 in Hlt. lia. }
    change (Z.to_nat 1) with 1%nat. cbn [lhd_loop]. runs_steps. destruct (uio_dir (xu x)) eqn:Hdir.
    + eapply runs_mono; [eapply sector_read; try done; lia| |]; cbv beta.
      * intros _ s (? & ? & Hi & ? & ?). runs_steps. pose proof (id_size _ Hi). by split_and!.
      * intros e s (? & ? & Hi & ? & ? & ?). pose proof (id_size _ Hi). by split_and!.
    + eapply runs_mono; [eapply sector_write; try done; [lia|by apply Hby|eapply zlen_get_bytes; [done|]; lia]| |]; cbv beta.
      * intros _ s (? & Hs & Hi & ? & ?). runs_steps. pose proof (id_size _ Hi). rewrite moved_write by done. by split_and!.
      * intros e s (? & ? & -> & ?). by split_and!.
Defined.
End Driver.

(** ** A card in memory

    [rc_errors] says which of the next operations meet a media error. *)

Record ram_card := mkRam { rc_sectors : list (list Z); rc_buf : list Z; rc_sect : Z; rc_stat : Z; rc_errors : list bool }.

Definition ram_run (c : ram_card) : ram_card :=
  if Z.testbit (rc_stat c) 0 then
    let w := Z.land (rc_stat c) LHD_ISWRITE in
    let done b secs st := mkRam secs b (rc_sect c) (Z.lor st w) (tail (rc_errors c)) in
    match zlookup (rc_sectors c) (rc_sect c) with
    | None => done (rc_buf c) (rc_sectors c) LHD_INVSECT
    | Some sec =>
        if default false (head (rc_errors c)) then done (rc_buf c) (rc_sectors c) LHD_MEDIA
        else if w =? 0 then done sec (rc_sectors c) LHD_OK
        else done (rc_buf c) (zinsert (rc_sectors c) (rc_sect c) (rc_buf c)) LHD_OK
    end
  else c.

Definition is_sector (b : list Z) : Prop := zlen b = LHD_SECTSIZE /\ Forall is_u8 b.

Definition ram_sound (c : ram_card) : Prop :=
  zlen (rc_sectors c) < 2 ^ 32 /\ Forall is_sector (rc_sectors c) /\ zlen (rc_buf c) = LHD_SECTSIZE /\
  Forall (fun e => e = false) (rc_errors c).

Lemma no_error es : Forall (fun e => e = false) es -> default false (head es) = false /\ Forall (fun e => e = false) (tail es).
Proof. by intros [|? ? -> ?]. Qed.

#[export, refine] Instance ram_lhd : LhdCard ram_card := {
  card_rdreg reg c :=
    if reg =? LHD_REG_NSECT then zlen (rc_sectors c) else if reg =? LHD_REG_STAT then rc_stat c else
    if reg =? LHD_REG_SECT then rc_sect c else 0;
  card_wreg reg v c :=
    if reg =? LHD_REG_STAT then mkRam (rc_sectors c) (rc_buf c) (rc_sect c) v (rc_errors c) else
    if reg =? LHD_REG_SECT then mkRam (rc_sectors c) (rc_buf c) v (rc_stat c) (rc_errors c) else c;
  card_buf := rc_buf;
  card_setbuf b c := mkRam (rc_sectors c) b (rc_sect c) (rc_stat c) (rc_errors c);
  card_run := ram_run;
  card_sector c s := default [] (zlookup (rc_sectors c) s);
  card_sound := ram_sound }.
Proof.
  - intros c (Hl & _). simpl. pose proof (zlen_nonneg (rc_sectors c)). lia.
  - intros c s (_ & Hs & _) Hr. simpl in *. destruct (zlookup_is_Some (rc_sectors c) s) as [b Hb]; [lia|].
    rewrite Hb. simpl. by apply (Forall_zlookup _ _ _ _ Hs Hb).
  - intros c (_ & _ & Hb & _). done.
  - intros c b (? & ? & ? & ?) Hb _. simpl. by split_and!.
  - intros c s (Hl & Hs & Hb & He) Hr. simpl in *. destruct (zlookup_is_Some (rc_sectors c) s) as [b Hsec]; [lia|].
    destruct (no_error _ He) as [He1 He2]. unfold ram_run. simpl. rewrite Hsec, He1. simpl. split; [done|]. split; [|done].
    destruct (Forall_zlookup _ _ _ _ Hs Hsec). by split_and!.
  - intros c s (Hl & Hs & Hb & He) Hr Hby. simpl in *. destruct (zlookup_is_Some (rc_sectors c) s) as [b Hsec]; [lia|].
    destruct (no_error _ He) as [He1 He2]. unfold ram_run. simpl. rewrite Hsec, He1. simpl. split; [done|]. simpl. split; [|split].
    + split_and!; simpl; try done; [by rewrite zlen_zinsert|by apply Forall_zinsert].
    + by rewrite zlen_zinsert.
    + intros t. rewrite zlookup_zinsert by lia. destruct (Z.eqb_spec t s) as [->|]; [by rewrite bool_decide_true|].
      by rewrite bool_decide_false.
Defined.
End Lhd.
