(* ===== verification/Sfs.v ===== *)
(** * The simple file system: src/fs/sfs/*.c and src/vfs/vnode.c

    [Sfs] models SFS over any block device ([Device.BlockDevice]): the block
    and inode layer, file and directory I/O, the vnode operations with the
    reference counts of src/vfs/vnode.c, and mounting, syncing and unmounting.
    A vnode is a number; the state holds the loaded vnodes, the free map, the
    superblock, the device and the depth at which this thread holds the (recursive)
    big lock, under which all of it runs. *)

From S2P Require Import Prelude Copyinout Bitmap Uio Device SfsDisk.
Import Copyinout Uio Device SfsDisk.

Module Sfs.

(** The operation table of a vnode: [sfs_fileops] or [sfs_dirops]. *)
Inductive vnode_ops := Fileops | Dirops.

(** [struct sfs_vnode], with its [struct vnode]. *)
Record sfs_vnode := mkSv {
  vn_refcount : Z; vn_opencount : Z; vn_ops : vnode_ops;
  sv_i : sfs_inode; sv_ino : Z; sv_dirty : bool }.

Definition with_refcount (r : Z) (v : sfs_vnode) := mkSv r (vn_opencount v) (vn_ops v) (sv_i v) (sv_ino v) (sv_dirty v).
Definition with_opencount (c : Z) (v : sfs_vnode) := mkSv (vn_refcount v) c (vn_ops v) (sv_i v) (sv_ino v) (sv_dirty v).
Definition with_dirty (d : bool) (v : sfs_vnode) := mkSv (vn_refcount v) (vn_opencount v) (vn_ops v) (sv_i v) (sv_ino v) d.
Definition with_inode (i : sfs_inode) (v : sfs_vnode) := mkSv (vn_refcount v) (vn_opencount v) (vn_ops v) i (sv_ino v) (sv_dirty v).

Definition with_size (n : Z) (i : sfs_inode) :=
  mkInode n (sfi_type i) (sfi_linkcount i) (sfi_direct i) (sfi_indirect i) (sfi_waste i).
Definition with_type (t : Z) (i : sfs_inode) :=
  mkInode (sfi_size i) t (sfi_linkcount i) (sfi_direct i) (sfi_indirect i) (sfi_waste i).
Definition with_links (n : Z) (i : sfs_inode) :=
  mkInode (sfi_size i) (sfi_type i) n (sfi_direct i) (sfi_indirect i) (sfi_waste i).
Definition with_direct (d : list Z) (i : sfs_inode) :=
  mkInode (sfi_size i) (sfi_type i) (sfi_linkcount i) d (sfi_indirect i) (sfi_waste i).
Definition with_indirect (b : Z) (i : sfs_inode) :=
  mkInode (sfi_size i) (sfi_type i) (sfi_linkcount i) (sfi_direct i) b (sfi_waste i).

Section Sfs.
Context {D : Type} `{!BlockDevice D}.

(** [struct sfs_fs]; [vnodes] is the memory of the loaded vnodes and
    [next_vnode] the next to be allocated; [oracle] says which allocations
    succeed. *)
Record sfs_fs := mkFs {
  sfs_super : sfs_super; sfs_superdirty : bool; sfs_device : D;
  sfs_vnodes : list Z; sfs_freemap : Bitmap.bitmap; sfs_freemapdirty : bool;
  vnodes : gmap Z sfs_vnode; next_vnode : Z; vfs_biglock_depth : Z; oracle : list bool }.

Definition put_super (x : SfsDisk.sfs_super) : M sfs_fs unit := modify (fun f =>
  mkFs x (sfs_superdirty f) (sfs_device f) (sfs_vnodes f) (sfs_freemap f) (sfs_freemapdirty f) (vnodes f) (next_vnode f) (vfs_biglock_depth f) (oracle f)).
Definition put_superdirty (x : bool) : M sfs_fs unit := modify (fun f =>
  mkFs (sfs_super f) x (sfs_device f) (sfs_vnodes f) (sfs_freemap f) (sfs_freemapdirty f) (vnodes f) (next_vnode f) (vfs_biglock_depth f) (oracle f)).
Definition put_device (x : D) (f : sfs_fs) : sfs_fs :=
  mkFs (sfs_super f) (sfs_superdirty f) x (sfs_vnodes f) (sfs_freemap f) (sfs_freemapdirty f) (vnodes f) (next_vnode f) (vfs_biglock_depth f) (oracle f).
Definition put_table (x : list Z) : M sfs_fs unit := modify (fun f =>
  mkFs (sfs_super f) (sfs_superdirty f) (sfs_device f) x (sfs_freemap f) (sfs_freemapdirty f) (vnodes f) (next_vnode f) (vfs_biglock_depth f) (oracle f)).
Definition put_freemap (x : Bitmap.bitmap) (f : sfs_fs) : sfs_fs :=
  mkFs (sfs_super f) (sfs_superdirty f) (sfs_device f) (sfs_vnodes f) x (sfs_freemapdirty f) (vnodes f) (next_vnode f) (vfs_biglock_depth f) (oracle f).
Definition put_freemapdirty (x : bool) : M sfs_fs unit := modify (fun f =>
  mkFs (sfs_super f) (sfs_superdirty f) (sfs_device f) (sfs_vnodes f) (sfs_freemap f) x (vnodes f) (next_vnode f) (vfs_biglock_depth f) (oracle f)).
Definition put_vnodes (x : gmap Z sfs_vnode) : M sfs_fs unit := modify (fun f =>
  mkFs (sfs_super f) (sfs_superdirty f) (sfs_device f) (sfs_vnodes f) (sfs_freemap f) (sfs_freemapdirty f) x (next_vnode f) (vfs_biglock_depth f) (oracle f)).
Definition put_next (x : Z) : M sfs_fs unit := modify (fun f =>
  mkFs (sfs_super f) (sfs_superdirty f) (sfs_device f) (sfs_vnodes f) (sfs_freemap f) (sfs_freemapdirty f) (vnodes f) x (vfs_biglock_depth f) (oracle f)).
Definition put_depth (x : Z) : M sfs_fs unit := modify (fun f =>
  mkFs (sfs_super f) (sfs_superdirty f) (sfs_device f) (sfs_vnodes f) (sfs_freemap f) (sfs_freemapdirty f) (vnodes f) (next_vnode f) x (oracle f)).
Definition put_oracle (x : list bool) : M sfs_fs unit := modify (fun f =>
  mkFs (sfs_super f) (sfs_superdirty f) (sfs_device f) (sfs_vnodes f) (sfs_freemap f) (sfs_freemapdirty f) (vnodes f) (next_vnode f) (vfs_biglock_depth f) x).

(** Does the next [kmalloc] succeed?  (An exhausted oracle: yes.) *)
Definition alloc : M sfs_fs bool :=
  let* f := get in
  match oracle f with [] => ret true | b :: o => put_oracle o ;; ret b end.

Definition get_sv (p : Z) : M sfs_fs sfs_vnode :=
  let* f := get in of_option Wild (vnodes f !! p).
Definition upd_sv (p : Z) (g : sfs_vnode -> sfs_vnode) : M sfs_fs unit :=
  let* f := get in
  let* v := of_option Wild (vnodes f !! p) in
  put_vnodes (<[p := g v]> (vnodes f)).
Definition upd_inode (p : Z) (g : sfs_inode -> sfs_inode) : M sfs_fs unit :=
  upd_sv p (fun v => with_inode (g (sv_i v)) v).
Definition on_freemap {A} (m : M Bitmap.bitmap A) : M sfs_fs A := zoom sfs_freemap put_freemap m.

(** ** The big lock (src/vfs/vfslist.c), as its holder sees it *)

Definition vfs_biglock_acquire : M sfs_fs unit :=
  let* f := get in put_depth (u32 (vfs_biglock_depth f + 1)).
Definition vfs_biglock_release : M sfs_fs unit :=
  let* f := get in
  KASSERT (0 <? vfs_biglock_depth f) ;;
  put_depth (vfs_biglock_depth f - 1).
Definition vfs_biglock_do_i_hold (f : sfs_fs) : bool := 0 <? vfs_biglock_depth f.

(** Run [m] with the lock, which is released on every way out. *)
Definition locked {A} (m : M sfs_fs A) : M sfs_fs A :=
  vfs_biglock_acquire ;;
  let* r := try m in
  vfs_biglock_release ;;
  match r with inl a => ret a | inr e => err e end.

(** ** Block I/O (src/fs/sfs/sfs_io.c) *)

Definition lift {A} (m : M sfs_fs A) : M (sfs_fs * xfer) A := zoom fst (fun f s => (f, snd s)) m.
Definition lift_x {A} (m : M xfer A) : M (sfs_fs * xfer) A := zoom snd (fun x s => (fst s, x)) m.
Definition device_io : M (sfs_fs * xfer) unit :=
  fun s => match d_io (sfs_device (fst s), snd s) with
           | Ret _ (d, x) => Ret tt (put_device d (fst s), x)
           | Err e (d, x) => Err e (put_device d (fst s), x)
           | Crash c => Crash c
           end.

(** [tries] retries are left. *)
Fixpoint rwblock_try (tries : nat) : M (sfs_fs * xfer) unit :=
  let* r := try device_io in
  match r with
  | inl _ => ret tt
  | inr e =>
      if e =? EINVAL then panic
      else if e =? EIO then
        match tries with
        | O => err e
        | S tries' => rwblock_try tries'
        end
      else err e
  end.

Definition sfs_rwblock : M (sfs_fs * xfer) unit :=
  let* s := get in
  KASSERT (vfs_biglock_do_i_hold (fst s)) ;;
  rwblock_try 10.

(** [SFSUIO] on the kernel buffer [data], then [m]; the buffer afterwards. *)
Definition with_kbuf (data : list Z) (pos : Z) (rw : uio_rw) (m : M (sfs_fs * xfer) unit)
    : M sfs_fs (list Z * uio) :=
  fun f => match m (f, kxfer data pos rw (clear_fault ∅) None) with
           | Ret _ (f', x) => Ret (kmem x, xu x) f'
           | Err e (f', _) => Err e f'
           | Crash c => Crash c
           end.

Definition sfs_rblock (block : Z) : M sfs_fs (list Z) :=
  let* r := with_kbuf (zrep SFS_BLOCKSIZE 0) (block * SFS_BLOCKSIZE) UIO_READ sfs_rwblock in
  ret (fst r).
Definition sfs_wblock (data : list Z) (block : Z) : M sfs_fs unit :=
  let* _ := with_kbuf data (block * SFS_BLOCKSIZE) UIO_WRITE sfs_rwblock in
  ret tt.

(** ** Simple stuff, space allocation *)

Definition sfs_clearblock (block : Z) : M sfs_fs unit := sfs_wblock (zrep SFS_BLOCKSIZE 0) block.

Definition sfs_sync_inode (sv : Z) : M sfs_fs unit :=
  let* v := get_sv sv in
  if* sv_dirty v then
    (sfs_wblock (encode_inode (sv_i v)) (sv_ino v) ;;
     upd_sv sv (with_dirty false)).

Definition sfs_balloc : M sfs_fs Z :=
  let* diskblock := on_freemap Bitmap.bitmap_alloc in
  put_freemapdirty true ;;
  let* f := get in
  (if* sp_nblocks (sfs_super f) <=? diskblock then panic) ;;
  sfs_clearblock diskblock ;;
  ret diskblock.

Definition sfs_bfree (diskblock : Z) : M sfs_fs unit :=
  on_freemap (Bitmap.bitmap_unmark diskblock) ;;
  put_freemapdirty true.

Definition sfs_bused (diskblock : Z) : M sfs_fs bool :=
  let* f := get in
  (if* sp_nblocks (sfs_super f) <=? diskblock then panic) ;;
  let* b := on_freemap (Bitmap.bitmap_isset diskblock) in
  ret (negb (b =? 0)).

(** ** Block mapping *)

(** "Hand back the block": it must be marked in use. *)
Definition hand_back (block : Z) : M sfs_fs Z :=
  (if* negb (block =? 0) then
     let* used := sfs_bused block in
     if* negb used then panic) ;;
  ret block.

Definition sfs_bmap (sv fileblock : Z) (doalloc : bool) : M sfs_fs Z :=
  let* v := get_sv sv in
  if fileblock <? SFS_NDIRECT then
    let* block := of_option Wild (zlookup (sfi_direct (sv_i v)) fileblock) in
    if (block =? 0) && doalloc then
      let* block := sfs_balloc in
      upd_inode sv (fun i => with_direct (zinsert (sfi_direct i) fileblock block) i) ;;
      upd_sv sv (with_dirty true) ;;
      hand_back block
    else hand_back block
  else
    let fileblock := u32 (fileblock - SFS_NDIRECT) in
    let idnum := fileblock / SFS_DBPERIDB in
    let idoff := fileblock mod SFS_DBPERIDB in
    if 0 <? idnum then err EFBIG
    else
      let idblock := sfi_indirect (sv_i v) in
      if (idblock =? 0) && negb doalloc then ret 0
      else
        let* id :=
          (if idblock =? 0 then
             let* idblock := sfs_balloc in
             upd_inode sv (with_indirect idblock) ;;
             upd_sv sv (with_dirty true) ;;
             ret (idblock, zrep SFS_DBPERIDB 0)
           else
             let* bs := sfs_rblock idblock in
             ret (idblock, unwords (Z.to_nat SFS_DBPERIDB) bs)) in
        let '(idblock, idbuf) := id in
        let* block := of_option Wild (zlookup idbuf idoff) in
        if (block =? 0) && doalloc then
          let* block := sfs_balloc in
          sfs_wblock (words (zinsert idbuf idoff block)) idblock ;;
          hand_back block
        else hand_back block.

(** ** File-level I/O *)

Definition is_write (u : uio) : bool := bool_decide (uio_dir u = UIO_WRITE).

Definition sfs_partialio (sv skipstart len : Z) : M (sfs_fs * xfer) unit :=
  let* s := get in
  let u := xu (snd s) in
  let doalloc := is_write u in
  KASSERT (u32 (skipstart + len) <=? SFS_BLOCKSIZE) ;;
  let fileblock := u32 (Z.quot (uio_offset u) SFS_BLOCKSIZE) in
  let* diskblock := lift (sfs_bmap sv fileblock doalloc) in
  let* iobuf :=
    (if diskblock =? 0 then KASSERT (negb doalloc) ;; ret (zrep SFS_BLOCKSIZE 0)
     else lift (sfs_rblock diskblock)) in
  let* part := lift_x (uiomove (field skipstart len iobuf)) in
  if* doalloc then lift (sfs_wblock (zsplice iobuf skipstart part) diskblock).

Definition sfs_blockio (sv : Z) : M (sfs_fs * xfer) unit :=
  let* s := get in
  let u := xu (snd s) in
  let doalloc := is_write u in
  let fileblock := u32 (Z.quot (uio_offset u) SFS_BLOCKSIZE) in
  let* diskblock := lift (sfs_bmap sv fileblock doalloc) in
  if diskblock =? 0 then
    KASSERT (negb doalloc) ;;
    lift_x (uiomovezeros SFS_BLOCKSIZE)
  else
    let saveoff := uio_offset u in
    let diskoff := u32 (diskblock * SFS_BLOCKSIZE) in
    lift_x (upd_uio (with_offset diskoff)) ;;
    KASSERT (SFS_BLOCKSIZE <=? uio_resid u) ;;
    let saveres := uio_resid u in
    let diskres := SFS_BLOCKSIZE in
    lift_x (upd_uio (with_resid diskres)) ;;
    let* result := try sfs_rwblock in
    lift_x (upd_uio (fun u => with_offset (s64 (s64 (uio_offset u - diskoff) + saveoff)) u)) ;;
    lift_x (upd_uio (fun u => with_resid (u32 (uio_resid u - diskres + saveres)) u)) ;;
    match result with inl _ => ret tt | inr e => err e end.

(** The whole blocks: [for (i=0; i<nblocks; i++)]. *)
Fixpoint io_blocks (nblocks : nat) (sv : Z) : M (sfs_fs * xfer) unit :=
  match nblocks with
  | O => ret tt
  | S n => sfs_blockio sv ;; io_blocks n sv
  end.

(** From the leading partial block to the label [out]. *)
Definition io_body (sv : Z) : M (sfs_fs * xfer) unit :=
  let* s := get in
  let u := xu (snd s) in
  let blkoff := u32 (Z.rem (uio_offset u) SFS_BLOCKSIZE) in
  (if* negb (blkoff =? 0) then
     let len := SFS_BLOCKSIZE - blkoff in
     let len := if uio_resid u <? len then uio_resid u else len in
     sfs_partialio sv blkoff len) ;;
  let* s := get in
  let u := xu (snd s) in
  if uio_resid u =? 0 then ret tt
  else
    KASSERT (Z.rem (uio_offset u) SFS_BLOCKSIZE =? 0) ;;
    io_blocks (Z.to_nat (uio_resid u / SFS_BLOCKSIZE)) sv ;;
    let* s := get in
    let u := xu (snd s) in
    KASSERT (uio_resid u <? SFS_BLOCKSIZE) ;;
    if* 0 <? uio_resid u then sfs_partialio sv 0 (uio_resid u).

(** From the label [out] on. *)
Definition io_out (sv extraresid : Z) : M (sfs_fs * xfer) unit :=
  let* s := get in
  let u := xu (snd s) in
  let* v := lift (get_sv sv) in
  (if* is_write u && (sfi_size (sv_i v) <? uio_offset u) then
     (lift (upd_inode sv (with_size (u32 (uio_offset u)))) ;;
      lift (upd_sv sv (with_dirty true)))) ;;
  lift_x (upd_uio (fun u => with_resid (u32 (uio_resid u + extraresid)) u)).

Definition sfs_io (sv : Z) : M (sfs_fs * xfer) unit :=
  let* s := get in
  let u := xu (snd s) in
  let* v := lift (get_sv sv) in
  let size := sfi_size (sv_i v) in
  let endpos := s64 (uio_offset u + uio_resid u) in
  if negb (is_write u) && (size <=? uio_offset u) then ret tt
  else
    let extraresid := if negb (is_write u) && (size <? endpos) then u32 (endpos - size) else 0 in
    (if* negb (is_write u) && (size <? endpos) then
       (KASSERT (extraresid <? uio_resid u) ;;
        lift_x (upd_uio (fun u => with_resid (uio_resid u - extraresid) u)))) ;;
    let* result := try (io_body sv) in
    io_out sv extraresid ;;
    match result with inl _ => ret tt | inr e => err e end.

(** ** Directory I/O *)

(** [sizeof(struct sfs_dir)] *)
Definition DIRSIZE : Z := 64.

Definition sfs_readdir (sv slot : Z) : M sfs_fs sfs_dir :=
  let actualpos := u32 (slot * DIRSIZE) in
  let* r := with_kbuf (zrep DIRSIZE 0) actualpos UIO_READ (sfs_io sv) in
  (if* 0 <? uio_resid (snd r) then panic) ;;
  ret (decode_dir (fst r)).

Definition sfs_writedir (sv : Z) (sd : sfs_dir) (slot : Z) : M sfs_fs unit :=
  KASSERT (0 <=? slot) ;;
  let actualpos := u32 (slot * DIRSIZE) in
  let* r := with_kbuf (encode_dir sd) actualpos UIO_WRITE (sfs_io sv) in
  if* 0 <? uio_resid (snd r) then panic.

Definition sfs_dir_nentries (sv : Z) : M sfs_fs Z :=
  let* v := get_sv sv in
  KASSERT (sfi_type (sv_i v) =? SFS_TYPE_DIR) ;;
  let size := sfi_size (sv_i v) in
  (if* negb (size mod DIRSIZE =? 0) then panic) ;;
  ret (size / DIRSIZE).

(** A C string: the characters up to the terminator. *)
Fixpoint cstr (l : list Z) : list Z :=
  match l with [] => [] | c :: l' => if c =? 0 then [] else c :: cstr l' end.

(** The entry's name, terminated just in case. *)
Definition entry_name (sd : sfs_dir) : list Z := cstr (zinsert (sfd_name sd) (SFS_NAMELEN - 1) 0).

(** [found] is the inode number and slot of the name, [emptyslot] the last
    free slot seen, or -1. *)
Fixpoint findname_loop (n : nat) (sv i : Z) (name : list Z) (found : option (Z * Z)) (emptyslot : Z)
    : M sfs_fs (option (Z * Z) * Z) :=
  match n with
  | O => ret (found, emptyslot)
  | S n' =>
      let* tsd := sfs_readdir sv i in
      if sfd_ino tsd =? SFS_NOINO then findname_loop n' sv (i + 1) name found i
      else if bool_decide (entry_name tsd = name) then
        KASSERT (match found with None => true | Some _ => false end) ;;
        findname_loop n' sv (i + 1) name (Some (sfd_ino tsd, i)) emptyslot
      else findname_loop n' sv (i + 1) name found emptyslot
  end.

(** [None] is the result [ENOENT]. *)
Definition sfs_dir_findname (sv : Z) (name : list Z) : M sfs_fs (option (Z * Z) * Z) :=
  let* nentries := sfs_dir_nentries sv in
  findname_loop (Z.to_nat nentries) sv 0 name None (-1).

(** The slot used. *)
Definition sfs_dir_link (sv : Z) (name : list Z) (ino : Z) : M sfs_fs Z :=
  let* r := sfs_dir_findname sv name in
  let '(found, emptyslot) := r in
  match found with
  | Some _ => err EEXIST
  | None =>
      if SFS_NAMELEN <? zlen name + 1 then err ENAMETOOLONG
      else
        let* slot := (if emptyslot <? 0 then sfs_dir_nentries sv else ret emptyslot) in
        sfs_writedir sv (mkDir ino (zsplice (zrep SFS_NAMELEN 0) 0 name)) slot ;;
        ret slot
  end.

Definition sfs_dir_unlink (sv slot : Z) : M sfs_fs unit :=
  sfs_writedir sv (mkDir SFS_NOINO (zrep SFS_NAMELEN 0)) slot.

(** ** Reference counts (src/vfs/vnode.c) *)

(** [vnode_check]: before every operation but [reclaim] there is a reference. *)
Definition vnode_check (v : Z) (reclaim : bool) : M sfs_fs unit :=
  locked (let* n := get_sv v in
          (if* vn_refcount n <? 0 then panic) ;;
          (if* (vn_refcount n =? 0) && negb reclaim then panic) ;;
          if* vn_opencount n <? 0 then panic).

Definition vnode_incref (v : Z) : M sfs_fs unit :=
  locked (upd_sv v (fun n => with_refcount (vn_refcount n + 1) n)).

Definition vnode_incopen (v : Z) : M sfs_fs unit :=
  locked (upd_sv v (fun n => with_opencount (vn_opencount n + 1) n)).

(** ** Vnode operations *)

(** The direct blocks from [i] on: free those past the new end. *)
Fixpoint trunc_direct (n : nat) (sv i blocklen : Z) : M sfs_fs unit :=
  match n with
  | O => ret tt
  | S n' =>
      let* v := get_sv sv in
      let* block := of_option Wild (zlookup (sfi_direct (sv_i v)) i) in
      (if* (blocklen <=? i) && negb (block =? 0) then
         (sfs_bfree block ;;
          upd_inode sv (fun d => with_direct (zinsert (sfi_direct d) i 0) d) ;;
          upd_sv sv (with_dirty true))) ;;
      trunc_direct n' sv (i + 1) blocklen
  end.

(** The indirect block's entries [l], the first of them entry [j]: the entries
    left, and whether any was discarded ([iddirty]). *)
Fixpoint trunc_indirect (l : list Z) (j blocklen baseblock : Z) : M sfs_fs (list Z * bool) :=
  match l with
  | [] => ret ([], false)
  | b :: l' =>
      if (blocklen <? baseblock + j) && negb (b =? 0) then
        sfs_bfree b ;;
        let* r := trunc_indirect l' (j + 1) blocklen baseblock in
        ret (0 :: fst r, true)
      else
        let* r := trunc_indirect l' (j + 1) blocklen baseblock in
        ret (b :: fst r, snd r)
  end.

Definition sfs_truncate (sv len : Z) : M sfs_fs unit :=
  let blocklen := u32 (Z.quot (s64 (s64 (len + SFS_BLOCKSIZE) - 1)) SFS_BLOCKSIZE) in
  locked (
    trunc_direct (Z.to_nat SFS_NDIRECT) sv 0 blocklen ;;
    let* v := get_sv sv in
    let idblock := sfi_indirect (sv_i v) in
    let baseblock := SFS_NDIRECT in
    let highblock := baseblock + SFS_DBPERIDB - 1 in
    (if* (blocklen <? highblock) && negb (idblock =? 0) then
       let* bs := sfs_rblock idblock in
       let* r := trunc_indirect (unwords (Z.to_nat SFS_DBPERIDB) bs) 0 blocklen baseblock in
       let '(idbuf, iddirty) := r in
       let hasnonzero := existsb (fun b => negb (b =? 0)) idbuf in
       if negb hasnonzero then
         sfs_bfree idblock ;;
         upd_inode sv (with_indirect 0) ;;
         upd_sv sv (with_dirty true)
       else if* iddirty then sfs_wblock (words idbuf) idblock) ;;
    upd_inode sv (with_size (u32 len)) ;;
    upd_sv sv (with_dirty true)).

Definition VOP_TRUNCATE (v len : Z) : M sfs_fs unit :=
  vnode_check v false ;;
  let* n := get_sv v in
  match vn_ops n with Fileops => sfs_truncate v len | Dirops => err EISDIR end.

Definition sfs_fsync (v : Z) : M sfs_fs unit := locked (sfs_sync_inode v).
Definition VOP_FSYNC (v : Z) : M sfs_fs unit := vnode_check v false ;; sfs_fsync v.
Definition sfs_close (v : Z) : M sfs_fs unit := VOP_FSYNC v.

Definition vnode_cleanup (v : Z) : M sfs_fs unit :=
  let* n := get_sv v in
  KASSERT (vn_refcount n =? 1) ;;
  KASSERT (vn_opencount n =? 0).

(** Where [p] is in the vnode table. *)
Fixpoint table_index (p i : Z) (l : list Z) : option Z :=
  match l with [] => None | q :: l' => if q =? p then Some i else table_index p (i + 1) l' end.

Definition remove_index (l : list Z) (i : Z) : list Z := ztake i l ++ zdrop (i + 1) l.

Definition sfs_reclaim (v : Z) : M sfs_fs unit :=
  locked (
    let* n := get_sv v in
    if negb (vn_refcount n =? 1) then
      KASSERT (1 <? vn_refcount n) ;;
      upd_sv v (fun n => with_refcount (vn_refcount n - 1) n) ;;
      err EBUSY
    else
      (if* sfi_linkcount (sv_i n) =? 0 then VOP_TRUNCATE v 0) ;;
      sfs_sync_inode v ;;
      let* n := get_sv v in
      (if* sfi_linkcount (sv_i n) =? 0 then sfs_bfree (sv_ino n)) ;;
      let* f := get in
      match table_index v 0 (sfs_vnodes f) with
      | None => panic
      | Some ix => put_table (remove_index (sfs_vnodes f) ix)
      end ;;
      vnode_cleanup v) ;;
  let* f := get in
  put_vnodes (delete v (vnodes f)).

Definition VOP_RECLAIM (v : Z) : M sfs_fs unit := vnode_check v true ;; sfs_reclaim v.

(** A failed reclaim is reported on the console and forgotten. *)
Definition vnode_decref (v : Z) : M sfs_fs unit :=
  locked (let* n := get_sv v in
          KASSERT (0 <? vn_refcount n) ;;
          if 1 <? vn_refcount n then upd_sv v (fun n => with_refcount (vn_refcount n - 1) n)
          else let* _ := try (VOP_RECLAIM v) in ret tt).

Definition vnode_decopen (v : Z) : M sfs_fs unit :=
  locked (let* n := get_sv v in
          KASSERT (0 <? vn_opencount n) ;;
          upd_sv v (fun n => with_opencount (vn_opencount n - 1) n) ;;
          if 0 <? vn_opencount n - 1 then ret tt
          else let* _ := try (vnode_check v false ;; sfs_close v) in ret tt).

(** ** Loading vnodes *)

(** The search of the vnode table. *)
Fixpoint table_search (l : list Z) (ino : Z) : M sfs_fs (option Z) :=
  match l with
  | [] => ret None
  | p :: l' =>
      let* n := get_sv p in
      let* used := sfs_bused (sv_ino n) in
      (if* negb used then panic) ;;
      if sv_ino n =? ino then ret (Some p) else table_search l' ino
  end.

Definition sfs_loadvnode (ino forcetype : Z) : M sfs_fs Z :=
  let* f := get in
  let* r := table_search (sfs_vnodes f) ino in
  match r with
  | Some p =>
      KASSERT (forcetype =? SFS_TYPE_INVAL) ;;
      vnode_incref p ;;
      ret p
  | None =>
      let* ok := alloc in
      if negb ok then err ENOMEM
      else
        let* used := sfs_bused ino in
        (if* negb used then panic) ;;
        let* bs := sfs_rblock ino in
        let i := decode_inode bs in
        (if* negb (forcetype =? SFS_TYPE_INVAL) then KASSERT (sfi_type i =? SFS_TYPE_INVAL)) ;;
        let dirty := negb (forcetype =? SFS_TYPE_INVAL) in
        let i := if dirty then with_type forcetype i else i in
        let* ops :=
          (if sfi_type i =? SFS_TYPE_FILE then ret Fileops
           else if sfi_type i =? SFS_TYPE_DIR then ret Dirops
           else panic) in
        let* ok := alloc in         (* vnodearray_add *)
        if negb ok then err ENOMEM
        else
          let* f := get in
          let p := next_vnode f in
          put_next (p + 1) ;;
          put_vnodes (<[p := mkSv 1 0 ops i ino dirty]> (vnodes f)) ;;
          put_table (sfs_vnodes f ++ [p]) ;;
          ret p
  end.

Definition sfs_lookonce (sv : Z) (name : list Z) : M sfs_fs (Z * Z) :=
  let* r := sfs_dir_findname sv name in
  match fst r with
  | None => err ENOENT
  | Some (ino, slot) =>
      let* p := sfs_loadvnode ino SFS_TYPE_INVAL in
      let* n := get_sv p in
      (if* sfi_linkcount (sv_i n) =? 0 then panic) ;;
      ret (p, slot)
  end.

Definition sfs_makeobj (type : Z) : M sfs_fs Z :=
  let* ino := sfs_balloc in
  sfs_loadvnode ino type.

(** Open flags (src/include/kern/fcntl.h). *)
Definition O_ACCMODE : Z := 3.
Definition O_RDONLY : Z := 0.
Definition O_APPEND : Z := 32.

Definition sfs_open (openflags : Z) : M sfs_fs unit :=
  if negb (Z.land openflags O_APPEND =? 0) then err EUNIMP else ret tt.
Definition sfs_opendir (openflags : Z) : M sfs_fs unit :=
  if negb (Z.land openflags O_ACCMODE =? O_RDONLY) then err EISDIR
  else if negb (Z.land openflags O_APPEND =? 0) then err EISDIR
  else ret tt.

(** With the uio of a caller. *)
Definition locked_x {A} (m : M (sfs_fs * xfer) A) : M (sfs_fs * xfer) A :=
  lift vfs_biglock_acquire ;;
  let* r := try m in
  lift vfs_biglock_release ;;
  match r with inl a => ret a | inr e => err e end.

Definition sfs_read (sv : Z) : M (sfs_fs * xfer) unit :=
  let* s := get in
  KASSERT (negb (is_write (xu (snd s)))) ;;
  locked_x (sfs_io sv).
Definition sfs_write (sv : Z) : M (sfs_fs * xfer) unit :=
  let* s := get in
  KASSERT (is_write (xu (snd s))) ;;
  locked_x (sfs_io sv).

Definition sfs_ioctl : M sfs_fs unit := err EINVAL.
Definition sfs_mmap : M sfs_fs unit := err EUNIMP.
Definition sfs_notdir {A} : M sfs_fs A := err ENOTDIR.
Definition sfs_isdir {A} : M sfs_fs A := err EISDIR.
Definition sfs_unimp {A} : M sfs_fs A := err EUNIMP.
Definition sfs_tryseek (pos : Z) : M sfs_fs unit := if pos <? 0 then err EINVAL else ret tt.

Definition S_IFREG : Z := 0x1000.
Definition S_IFDIR : Z := 0x2000.

Definition sfs_gettype (sv : Z) : M sfs_fs Z :=
  locked (let* v := get_sv sv in
          if sfi_type (sv_i v) =? SFS_TYPE_FILE then ret S_IFREG
          else if sfi_type (sv_i v) =? SFS_TYPE_DIR then ret S_IFDIR
          else panic).

(** [st_mode] and [st_size]; the other fields are 0. *)
Definition sfs_stat (sv : Z) : M sfs_fs (Z * Z) :=
  vnode_check sv false ;;
  let* mode := sfs_gettype sv in
  let* v := get_sv sv in
  ret (mode, sfi_size (sv_i v)).

Definition sfs_namefile (sv : Z) : M sfs_fs unit :=
  let* v := get_sv sv in KASSERT (sv_ino v =? SFS_ROOT_LOCATION).

(** ** The directory *)

Definition sfs_creat (sv : Z) (name : list Z) (excl : bool) : M sfs_fs Z :=
  locked (
    let* r := sfs_dir_findname sv name in
    match fst r with
    | Some (ino, _) =>
        if excl then err EEXIST else sfs_loadvnode ino SFS_TYPE_INVAL
    | None =>
        let* newguy := sfs_makeobj SFS_TYPE_FILE in
        let* n := get_sv newguy in
        let* r := try (sfs_dir_link sv name (sv_ino n)) in
        match r with
        | inr e => vnode_decref newguy ;; err e
        | inl _ =>
            upd_inode newguy (fun i => with_links (u16 (sfi_linkcount i + 1)) i) ;;
            upd_sv newguy (with_dirty true) ;;
            ret newguy
        end
    end).

(** Both vnodes are of this file system. *)
Definition sfs_link (sv : Z) (name : list Z) (file : Z) : M sfs_fs unit :=
  locked (
    let* f := get_sv file in
    let* _ := sfs_dir_link sv name (sv_ino f) in
    upd_inode file (fun i => with_links (u16 (sfi_linkcount i + 1)) i) ;;
    upd_sv file (with_dirty true)).

Definition sfs_remove (sv : Z) (name : list Z) : M sfs_fs unit :=
  locked (
    let* r := sfs_lookonce sv name in
    let '(victim, slot) := r in
    let* r := try (sfs_dir_unlink sv slot) in
    match r with
    | inl _ =>
        let* n := get_sv victim in
        KASSERT (0 <? sfi_linkcount (sv_i n)) ;;
        upd_inode victim (fun i => with_links (sfi_linkcount i - 1) i) ;;
        upd_sv victim (with_dirty true) ;;
        vnode_decref victim
    | inr e => vnode_decref victim ;; err e
    end).

(** The two directories are the same. *)
Definition sfs_rename (sv : Z) (n1 n2 : list Z) : M sfs_fs unit :=
  locked (
    let* v := get_sv sv in
    KASSERT (sv_ino v =? SFS_ROOT_LOCATION) ;;
    let* r := sfs_lookonce sv n1 in
    let '(g1, slot1) := r in
    let* g := get_sv g1 in
    KASSERT (sfi_type (sv_i g) =? SFS_TYPE_FILE) ;;
    let* r := try (sfs_dir_link sv n2 (sv_ino g)) in
    match r with
    | inr e => vnode_decref g1 ;; err e
    | inl slot2 =>
        upd_inode g1 (fun i => with_links (u16 (sfi_linkcount i + 1)) i) ;;
        upd_sv g1 (with_dirty true) ;;
        let* r := try (sfs_dir_unlink sv slot1) in
        match r with
        | inl _ =>
            let* g := get_sv g1 in
            KASSERT (0 <? sfi_linkcount (sv_i g)) ;;
            upd_inode g1 (fun i => with_links (sfi_linkcount i - 1) i) ;;
            upd_sv g1 (with_dirty true) ;;
            vnode_decref g1
        | inr e =>
            let* r2 := try (sfs_dir_unlink sv slot2) in
            match r2 with
            | inr _ => panic
            | inl _ =>
                upd_inode g1 (fun i => with_links (u16 (sfi_linkcount i - 1)) i) ;;
                vnode_decref g1 ;;
                err e
            end
        end
    end).

(** The directory and the last component. *)
Definition sfs_lookparent (sv : Z) (path : list Z) (buflen : Z) : M sfs_fs (Z * list Z) :=
  locked (
    let* v := get_sv sv in
    if negb (sfi_type (sv_i v) =? SFS_TYPE_DIR) then err ENOTDIR
    else if buflen <? zlen path + 1 then err ENAMETOOLONG
    else vnode_incref sv ;; ret (sv, path)).

Definition sfs_lookup (sv : Z) (path : list Z) : M sfs_fs Z :=
  locked (
    let* v := get_sv sv in
    if negb (sfi_type (sv_i v) =? SFS_TYPE_DIR) then err ENOTDIR
    else let* r := sfs_lookonce sv path in ret (fst r)).

Definition sfs_getroot : M sfs_fs Z :=
  locked (
    let* r := try (sfs_loadvnode SFS_ROOT_LOCATION SFS_TYPE_INVAL) in
    match r with inl p => ret p | inr _ => panic end).

(** ** File-system level (src/fs/sfs/sfs_fs.c) *)

(** The free map, sector by sector: [n] of them from [j]. *)
Fixpoint mapio_loop (n : nat) (j : Z) (rw : uio_rw) : M sfs_fs unit :=
  match n with
  | O => ret tt
  | S n' =>
      let* f := get in
      let bitdata := Bitmap.bitmap_getdata (sfs_freemap f) in
      match rw with
      | UIO_READ =>
          let* bs := sfs_rblock (SFS_MAP_LOCATION + j) in
          modify (fun f => put_freemap (Bitmap.set_v (zsplice bitdata (j * SFS_BLOCKSIZE) bs) (sfs_freemap f)) f)
      | UIO_WRITE => sfs_wblock (field (j * SFS_BLOCKSIZE) SFS_BLOCKSIZE bitdata) (SFS_MAP_LOCATION + j)
      end ;;
      mapio_loop n' (j + 1) rw
  end.

Definition sfs_mapio (rw : uio_rw) : M sfs_fs unit :=
  let* f := get in
  mapio_loop (Z.to_nat (SFS_BITBLOCKS (sp_nblocks (sfs_super f)))) 0 rw.

Fixpoint sync_all (l : list Z) : M sfs_fs unit :=
  match l with [] => ret tt | v :: l' => let* _ := try (VOP_FSYNC v) in sync_all l' end.

Definition sfs_sync : M sfs_fs unit :=
  locked (
    let* f := get in
    sync_all (sfs_vnodes f) ;;
    let* f := get in
    (if* sfs_freemapdirty f then (sfs_mapio UIO_WRITE ;; put_freemapdirty false)) ;;
    let* f := get in
    if* sfs_superdirty f then
      (sfs_wblock (encode_super (sfs_super f)) SFS_SB_LOCATION ;; put_superdirty false)).

Definition sfs_getvolname : M sfs_fs (list Z) := locked (gets (fun f => sp_volname (sfs_super f))).

(** The file system object is gone when this returns. *)
Definition sfs_unmount : M sfs_fs unit :=
  locked (
    let* f := get in
    if 0 <? zlen (sfs_vnodes f) then err EBUSY
    else
      KASSERT (negb (sfs_superdirty f)) ;;
      KASSERT (negb (sfs_freemapdirty f))).

(** The state is the new object, of which only the device is set. *)
Definition sfs_domount : M sfs_fs unit :=
  locked (
    let* f := get in
    if negb (d_blocksize (sfs_device f) =? SFS_BLOCKSIZE) then err ENXIO
    else
      let* ok := alloc in
      if negb ok then err ENOMEM
      else
        let* ok := alloc in
        if negb ok then err ENOMEM
        else
          put_table [] ;;
          let* bs := sfs_rblock SFS_SB_LOCATION in
          let super := decode_super bs in
          if negb (sp_magic super =? SFS_MAGIC) then err EINVAL
          else
            put_super (mkSuper (sp_magic super) (sp_nblocks super)
                         (zinsert (sp_volname super) (SFS_VOLNAME_SIZE - 1) 0) (reserved super)) ;;
            let* m1 := alloc in
            let* m2 := (if m1 then alloc else ret false) in
            match Bitmap.bitmap_create m1 m2 (SFS_BITMAPSIZE (sp_nblocks super)) with
            | Ret (Some b) _ =>
                modify (put_freemap b) ;;
                sfs_mapio UIO_READ ;;
                put_superdirty false ;;
                put_freemapdirty false
            | Ret None _ => err ENOMEM
            | Err e _ => err e
            | Crash c => crashed c
            end).
End Sfs.
End Sfs.
