(* ===== verification/SfsInv.v ===== *)
(** * The structure of an SFS volume and its invariant

    [SfsInv] says what a consistent volume is ([fsinv]), with the inodes as
    they are now, in memory or on disk, and gives the lemmas about the block
    layer on which the theorems about files and directories rest. *)

From S2P Require Import Prelude Copyinout Bitmap Uio Device SfsDisk Sfs.
Import Copyinout Uio Device SfsDisk Sfs.

Module SfsInv.
Section Inv.
Context {D : Type} `{!BlockDevice D}.
Abbreviation sfs_fs := (@sfs_fs D).
Implicit Types (f : sfs_fs) (g : Z -> list Z).

(** ** The block layer *)

(** [f]'s device holds the blocks [g], and the big lock is held. *)
Record fsv f g : Prop := {
  fv_sound : dev_sound (sfs_device f);
  fv_size : d_blocksize (sfs_device f) = SFS_BLOCKSIZE;
  fv_blocks : forall c, dev_block (sfs_device f) c = g c;
  fv_n : 0 < sp_nblocks (sfs_super f) <= d_blocks (sfs_device f);
  fv_lock : 0 < vfs_biglock_depth f }.

Definition write_block g (b : Z) (data : list Z) : Z -> list Z := fun c => if c =? b then data else g c.

Lemma fsv_len f g b :
  fsv f g -> 0 <= b < sp_nblocks (sfs_super f) -> zlen (g b) = SFS_BLOCKSIZE /\ byte_list (g b).
Proof.
  intros [Hs Hz Hb Hn _] Hr. destruct (dev_block_len (sfs_device f) b Hs) as [Hl Hu]; [lia|].
  rewrite Hz in Hl. by rewrite Hb in Hl, Hu.
Qed.

Lemma rwblock_spec f g x base l b :
  fsv f g -> xok x base l -> uio_resid (xu x) = SFS_BLOCKSIZE -> uio_offset (xu x) = b * SFS_BLOCKSIZE ->
  0 <= b < sp_nblocks (sfs_super f) ->
  (uio_dir (xu x) = UIO_WRITE -> byte_list (get_bytes x base SFS_BLOCKSIZE)) ->
  runs (sfs_rwblock (f, x))
    (fun _ s => reach x base SFS_BLOCKSIZE /\ exists d',
       s = (put_device d' f, advance SFS_BLOCKSIZE (moved base (g b) x)) /\
       fsv (put_device d' f)
         (match uio_dir (xu x) with
          | UIO_WRITE => write_block g b (get_bytes x base SFS_BLOCKSIZE)
          | UIO_READ => g end))
    (fun e s => e = EFAULT /\ ~ reach x base SFS_BLOCKSIZE /\ exists d' x',
       s = (put_device d' f, x') /\ fsv (put_device d' f) g /\ faulted x x' base SFS_BLOCKSIZE).
Proof.
  intros [Hs Hz Hb Hn Hl] Hx Hres Hoff Hr Hby. unfold sfs_rwblock. runs_steps.
  apply runs_KASSERT; [apply Z.ltb_lt, Hl|]. cbn [rwblock_try]. runs_steps.
  pose proof (d_io_ok (sfs_device f) x base l b Hs Hx) as Hio. rewrite Hz in Hio.
  specialize (Hio Hres Hoff ltac:(lia) Hby). unfold try, device_io. simpl fst. simpl snd.
  destruct (d_io (sfs_device f, x)) as [[] [d' x']|e [d' x']|]; simpl in Hio.
  - destruct Hio as (Hre & Hs' & Hn' & Hz' & -> & Hbl). simpl. runs_steps. split; [done|]. exists d'.
    rewrite Hb. split; [done|]. split; simpl; try done; [|lia].
    intros c. rewrite Hbl. unfold write_block. destruct (uio_dir (xu x)); [apply Hb|]. by destruct (c =? b).
  - destruct Hio as (-> & Hre & Hs' & Hn' & Hz' & Hbl & Hf). simpl. runs_steps. split_and!; [done|done|].
    exists d', x'. split_and!; [done| |done]. split; simpl; try done; [|lia]. intros c. by rewrite Hbl, Hb.
  - done.
Qed.

Lemma kxfer_ok kbuf pos rw :
  zlen kbuf < 2 ^ 32 -> 0 <= pos -> pos + zlen kbuf < 2 ^ 63 ->
  xok (kxfer kbuf pos rw (clear_fault ∅) None) 0 (zlen kbuf).
Proof. intros H1 H2 H3. pose proof (zlen_nonneg kbuf). by split; simpl; try done; try lia. Qed.

Lemma rblock_spec f g b (Q : list Z -> sfs_fs -> Prop) R :
  fsv f g -> 0 <= b < sp_nblocks (sfs_super f) ->
  (forall d', fsv (put_device d' f) g -> Q (g b) (put_device d' f)) ->
  runs (sfs_rblock b f) Q R.
Proof.
  intros Hf Hr HQ. unfold sfs_rblock, with_kbuf. runs_steps. unfold runs.
  pose proof (fv_n _ _ Hf) as Hn. pose proof (d_blocks_range _ (fv_sound _ _ Hf)) as Hrange.
  set (x := kxfer _ _ _ _ _). assert (xok x 0 512) as Hx by (apply (kxfer_ok (zrep SFS_BLOCKSIZE 0)); change (zlen (zrep SFS_BLOCKSIZE 0)) with 512; unfold SFS_BLOCKSIZE; lia).
  pose proof (rwblock_spec f g x 0 512 b Hf Hx eq_refl eq_refl Hr ltac:(done)) as Hrw.
  destruct (sfs_rwblock (f, x)) as [[] [f' x']|e [f' x']|]; simpl in Hrw.
  - destruct Hrw as (_ & d' & [= -> ->] & Hf'). simpl.
    destruct (fsv_len f g b Hf Hr) as [Hlen _]. unfold SFS_BLOCKSIZE in Hlen.
    replace (zsplice (zrep SFS_BLOCKSIZE 0) 0 (g b)) with (g b).
    + apply HQ. done.
    + unfold zsplice. rewrite Hlen. unfold ztake, zdrop. simpl take. rewrite drop_ge by done. by rewrite app_nil_r.
  - destruct Hrw as (_ & Hre & _). destruct Hre. by left.
  - done.
Qed.

Lemma wblock_spec f g b data (Q : unit -> sfs_fs -> Prop) R :
  fsv f g -> 0 <= b < sp_nblocks (sfs_super f) -> zlen data = SFS_BLOCKSIZE -> byte_list data ->
  (forall d', fsv (put_device d' f) (write_block g b data) -> Q tt (put_device d' f)) ->
  runs (sfs_wblock data b f) Q R.
Proof.
  intros Hf Hr Hlen Hby HQ. unfold sfs_wblock, with_kbuf. runs_steps. unfold runs.
  pose proof (fv_n _ _ Hf) as Hn. pose proof (d_blocks_range _ (fv_sound _ _ Hf)) as Hrange.
  set (x := kxfer _ _ _ _ _).
  assert (xok x 0 (zlen data)) as Hx by (apply kxfer_ok; rewrite ?Hlen; unfold SFS_BLOCKSIZE; lia).
  assert (get_bytes x 0 SFS_BLOCKSIZE = data) as Hget.
  { unfold get_bytes. simpl. rewrite zdrop_0. apply ztake_all. lia. }
  pose proof (rwblock_spec f g x 0 (zlen data) b Hf Hx Hlen eq_refl Hr) as Hrw. rewrite Hget in Hrw.
  specialize (Hrw ltac:(done)).
  destruct (sfs_rwblock (f, x)) as [[] [f' x']|e [f' x']|]; simpl in Hrw.
  - destruct Hrw as (_ & d' & [= -> ->] & Hf'). by apply HQ.
  - destruct Hrw as (_ & Hre & _). destruct Hre. by left.
  - done.
Qed.

(** ** Files and their blocks *)

(** Blocks a file can have. *)
Definition MAXBLOCKS : Z := SFS_NDIRECT + SFS_DBPERIDB.

(** The disk block of file block [fb], 0 if there is none. *)
Definition bmap_of g (i : sfs_inode) (fb : Z) : Z :=
  if fb <? SFS_NDIRECT then default 0 (zlookup (sfi_direct i) fb)
  else if sfi_indirect i =? 0 then 0
  else default 0 (zlookup (unwords 128 (g (sfi_indirect i))) (fb - SFS_NDIRECT)).

(** Byte [off] of the file. *)
Definition byte_of g (i : sfs_inode) (off : Z) : Z :=
  let b := bmap_of g i (off / SFS_BLOCKSIZE) in
  if b =? 0 then 0 else default 0 (zlookup (g b) (off mod SFS_BLOCKSIZE)).

(** What a block can be used for in a file. *)
Inductive slot := SInode | SIndirect | SData (fb : Z).
#[global] Instance slot_eq_dec : EqDecision slot.
Proof. solve_decision. Defined.

Definition at_slot g (i : sfs_inode) (ino : Z) (sl : slot) : Z :=
  match sl with SInode => ino | SIndirect => sfi_indirect i | SData fb => bmap_of g i fb end.

(** The blocks files may use: not the superblock or the free map. *)
Definition is_data f (b : Z) : Prop :=
  0 < b < sp_nblocks (sfs_super f) /\
  (b = SFS_ROOT_LOCATION \/ SFS_MAP_LOCATION + SFS_BITBLOCKS (sp_nblocks (sfs_super f)) <= b).
Definition used f (b : Z) : bool := Bitmap.bit (sfs_freemap f) b.

Definition ops_ok (v : sfs_vnode) : Prop :=
  sfi_type (sv_i v) = match vn_ops v with Fileops => SFS_TYPE_FILE | Dirops => SFS_TYPE_DIR end.

(** [I]: the inodes as they are now. *)
Record fsinv f g (I : gmap Z sfs_inode) : Prop := {
  fi_view : fsv f g;
  fi_map : Bitmap.bitmap_wf (sfs_freemap f);
  fi_nbits : Bitmap.nbits (sfs_freemap f) = SFS_BITMAPSIZE (sp_nblocks (sfs_super f)) /\
             sp_nblocks (sfs_super f) <= Bitmap.nbits (sfs_freemap f);
  fi_rest : forall b, 0 <= b < Bitmap.nbits (sfs_freemap f) -> ~ is_data f b -> used f b = true;
  fi_wf : forall ino i, I !! ino = Some i -> inode_wf i /\ ino <> 0;
  fi_used : forall ino i sl, I !! ino = Some i -> at_slot g i ino sl <> 0 ->
    is_data f (at_slot g i ino sl) /\ used f (at_slot g i ino sl) = true;
  fi_inj : forall ino1 i1 s1 ino2 i2 s2, I !! ino1 = Some i1 -> I !! ino2 = Some i2 ->
    at_slot g i1 ino1 s1 <> 0 -> at_slot g i1 ino1 s1 = at_slot g i2 ino2 s2 -> ino1 = ino2 /\ s1 = s2;
  fi_loaded : forall p v, vnodes f !! p = Some v ->
    I !! sv_ino v = Some (sv_i v) /\ 1 <= vn_refcount v /\ 0 <= vn_opencount v /\ ops_ok v /\ p < next_vnode f;
  fi_uniq : forall p p' v v', vnodes f !! p = Some v -> vnodes f !! p' = Some v' -> sv_ino v = sv_ino v' -> p = p';
  fi_table : NoDup (sfs_vnodes f) /\ forall p, p ∈ sfs_vnodes f <-> is_Some (vnodes f !! p);
  fi_disk : forall ino i, I !! ino = Some i ->
    (forall p v, vnodes f !! p = Some v -> sv_ino v = ino -> sv_dirty v = false) -> decode_inode (g ino) = i }.

Lemma bmap_of_range g i fb : inode_wf i -> bmap_of g i fb <> 0 -> 0 <= fb < MAXBLOCKS.
Proof.
  intros [_ _ _ [Hd _] _ _] Hb. unfold bmap_of, MAXBLOCKS, SFS_DBPERIDB in *.
  destruct (Z.ltb_spec fb SFS_NDIRECT).
  - destruct (zlookup (sfi_direct i) fb) eqn:E; [|done]. apply zlookup_Some_range in E.
    unfold SFS_NDIRECT in *. lia.
  - destruct (sfi_indirect i =? 0); [done|].
    destruct (zlookup (unwords 128 (g (sfi_indirect i))) (fb - SFS_NDIRECT)) eqn:E; [|done].
    apply zlookup_Some_range in E. unfold zlen in E. rewrite length_unwords in E. unfold SFS_NDIRECT in *. lia.
Qed.

(** Writing a block that is no inode's indirect block moves no file block. *)
Lemma at_slot_write g b data i ino sl :
  (sfi_indirect i = b -> b = 0) -> at_slot (write_block g b data) i ino sl = at_slot g i ino sl.
Proof.
  intros Hne. destruct sl as [| |fb]; [done|done|]. simpl. unfold bmap_of.
  destruct (fb <? SFS_NDIRECT); [done|]. destruct (Z.eqb_spec (sfi_indirect i) 0); [done|].
  unfold write_block. destruct (Z.eqb_spec (sfi_indirect i) b) as [E|]; [|done]. pose proof (Hne E). congruence.
Qed.

(** Block [b] belongs to no file. *)
Definition fresh g (I : gmap Z sfs_inode) (b : Z) : Prop :=
  forall ino i sl, I !! ino = Some i -> at_slot g i ino sl <> b.

(** Same volume in memory, but for the device and the free map. *)
Definition same_mem f f' : Prop :=
  sfs_super f' = sfs_super f /\ sfs_superdirty f' = sfs_superdirty f /\ sfs_vnodes f' = sfs_vnodes f /\
  vnodes f' = vnodes f /\ next_vnode f' = next_vnode f /\ vfs_biglock_depth f' = vfs_biglock_depth f /\
  oracle f' = oracle f.

#[global] Instance same_mem_preorder : PreOrder same_mem.
Proof. split; [by intros f|]. intros f1 f2 f3 (?&?&?&?&?&?&?) (?&?&?&?&?&?&?). unfold same_mem. split_and!; congruence. Qed.

(** The same files, under another block map. *)
Definition same_files g (I : gmap Z sfs_inode) g' (I' : gmap Z sfs_inode) : Prop :=
  forall ino, match I !! ino, I' !! ino with
    | Some i, Some i' => sfi_size i' = sfi_size i /\ sfi_type i' = sfi_type i /\ sfi_linkcount i' = sfi_linkcount i /\
        forall off, 0 <= off -> byte_of g' i' off = byte_of g i off
    | None, None => True
    | _, _ => False
    end.

(** Changing the device or the free map: what must still be checked. *)
Lemma fsinv_same f f' g g' I :
  fsinv f g I -> same_mem f f' -> fsv f' g' ->
  Bitmap.bitmap_wf (sfs_freemap f') -> Bitmap.nbits (sfs_freemap f') = Bitmap.nbits (sfs_freemap f) ->
  (forall b, 0 <= b -> used f' b = true \/ (is_data f b /\ fresh g I b) \/ used f b = false) ->
  (forall ino i sl, I !! ino = Some i -> at_slot g' i ino sl = at_slot g i ino sl) ->
  (forall ino i, I !! ino = Some i -> g' ino = g ino) ->
  fsinv f' g' I.
Proof.
  intros [Hv Hm Hnb Hr Hwf Hu Hinj Hld Huq Htb Hdk] (E1 & _ & E3 & E4 & E5 & _ & _) Hv' Hm' Hn' Hus Hsl Hg.
  assert (forall b, is_data f' b <-> is_data f b) as Hda by (intros b; unfold is_data; by rewrite E1).
  split; rewrite ?E1, ?E3, ?E4, ?E5; try done.
  - by rewrite Hn'.
  - intros b Hb Hnd. rewrite Hn' in Hb. rewrite Hda in Hnd. specialize (Hr b Hb Hnd).
    destruct (Hus b) as [?|[[? _]|?]]; [lia|done|done|congruence].
  - intros ino i sl Hi Hne. rewrite (Hsl ino i sl Hi) in *. destruct (Hu ino i sl Hi Hne) as [Hd1 Hu1].
    split; [by apply Hda|]. destruct (Hus (at_slot g i ino sl)) as [?|[[_ Hf]|?]];
      [destruct Hd1 as [? _]; lia|done| |congruence]. by destruct (Hf ino i sl Hi).
  - intros ino1 i1 s1 ino2 i2 s2 H1 H2. rewrite !Hsl by done. by apply Hinj.
  - intros ino i Hi Hc. rewrite (Hg ino i Hi). by apply Hdk.
Qed.

(** ** Allocation *)

Definition zeros : list Z := zrep SFS_BLOCKSIZE 0.

Lemma zeros_block : zlen zeros = SFS_BLOCKSIZE /\ byte_list zeros.
Proof. split; [done|]. by apply Forall_replicate. Qed.

Lemma data_used f g I b : fsinv f g I -> 0 <= b < Bitmap.nbits (sfs_freemap f) -> used f b = false -> is_data f b.
Proof.
  intros Hi Hb Hu. destruct (decide (0 < b /\ b < sp_nblocks (sfs_super f))) as [?|];
    [destruct (decide (b = SFS_ROOT_LOCATION \/ SFS_MAP_LOCATION + SFS_BITBLOCKS (sp_nblocks (sfs_super f)) <= b))|].
  1: by split.
  all: exfalso; pose proof (fi_rest _ _ _ Hi b Hb) as Hr; rewrite Hu in Hr; discriminate Hr; unfold is_data; tauto.
Qed.

Lemma unused_fresh f g I b : fsinv f g I -> b <> 0 -> used f b = false -> fresh g I b.
Proof. intros Hi Hb Hu ino i sl HI E. destruct (fi_used _ _ _ Hi ino i sl HI) as [_ Hu']; [congruence|]. congruence. Qed.

Lemma fresh_write g I b data c : fresh g I b -> b <> 0 -> fresh g I c -> fresh (write_block g b data) I c.
Proof.
  intros Hb Hnz Hc ino i sl HI. rewrite at_slot_write; [by apply Hc|]. intros E. by destruct (Hb ino i SIndirect HI).
Qed.

Lemma same_files_write f g I b data : fsinv f g I -> fresh g I b -> b <> 0 -> same_files g I (write_block g b data) I.
Proof.
  intros Hi Hb Hnz ino. destruct (I !! ino) as [i|] eqn:HI; [|done]. split_and!; try done. intros off Hoff.
  pose proof (at_slot_write g b data i ino (SData (off / SFS_BLOCKSIZE))) as Hs. simpl in Hs.
  unfold byte_of. rewrite Hs; [|intros E; by destruct (Hb ino i SIndirect HI)].
  destruct (Z.eqb_spec (bmap_of g i (off / SFS_BLOCKSIZE)) 0); [done|]. unfold write_block.
  destruct (Z.eqb_spec (bmap_of g i (off / SFS_BLOCKSIZE)) b) as [E|]; [|done].
  by destruct (Hb ino i (SData (off / SFS_BLOCKSIZE)) HI).
Qed.

Lemma balloc_spec f g I (Q : Z -> sfs_fs -> Prop) (R : Z -> sfs_fs -> Prop) :
  fsinv f g I ->
  (forall b f', is_data f b -> used f' b = true -> fresh g I b -> same_mem f f' ->
     fsinv f' (write_block g b zeros) I -> Q b f') ->
  R ENOSPC f ->
  runs (sfs_balloc f) Q R.
Proof.
  intros Hi HQ HR. unfold sfs_balloc, on_freemap. runs_steps.
  eapply runs_mono; [apply Bitmap.alloc_spec, Hi|..]; cbv beta.
  2: { intros e fm (-> & -> & _). by destruct f. }
  intros b fm (Hb & Hf & _ & Hwf & Hn & Hbit). runs_steps.
  set (f1 := put_freemap fm f).
  assert (is_data f b) as Hd by (by eapply data_used).
  assert (fresh g I b) as Hfr by (eapply unused_fresh; [done|destruct Hd; lia|done]).
  unfold put_freemapdirty. runs_steps. set (f2 := mkFs _ _ _ _ _ _ _ _ _ _).
  rewrite (proj2 (Z.leb_gt _ _)) by (destruct Hd; simpl; lia). runs_steps. unfold sfs_clearblock.
  assert (fsv f2 g) as Hv2 by (destruct (fi_view _ _ _ Hi); by split).
  eapply (wblock_spec f2 g b zeros); [done|destruct Hd; simpl; lia|apply zeros_block..|].
  intros d' Hv3. runs_steps. assert (same_mem f (put_device d' f2)) as Hsm by done.
  assert (used (put_device d' f2) b = true) as Hus.
  { unfold used. simpl. rewrite Hbit by lia. by rewrite bool_decide_true. }
  apply HQ; try done. eapply fsinv_same; try done.
  - intros c Hc. unfold used. simpl. rewrite Hbit by lia.
    destruct (Bitmap.bit (sfs_freemap f) c); [left; apply orb_true_r|by right; right].
  - intros ino i sl HI. apply at_slot_write. intros E. by destruct (Hfr ino i SIndirect HI).
  - intros ino i HI. unfold write_block. destruct (Z.eqb_spec ino b) as [->|]; [|done]. by destruct (Hfr b i SInode HI).
Qed.

Lemma bfree_spec f g I b (Q : unit -> sfs_fs -> Prop) R :
  fsinv f g I -> is_data f b -> used f b = true -> fresh g I b ->
  (forall f', same_mem f f' -> fsinv f' g I -> Q tt f') ->
  runs (sfs_bfree b f) Q R.
Proof.
  intros Hi Hd Hu Hfr HQ. unfold sfs_bfree, on_freemap, put_freemapdirty. runs_steps.
  pose proof (fi_nbits _ _ _ Hi) as [_ Hnb].
  eapply runs_mono; [apply (Bitmap.unmark_spec (sfs_freemap f) b); [apply Hi|destruct Hd; lia|done]| |done]; cbv beta.
  intros [] fm (Hwf & Hn & _ & Hbit). runs_steps. apply HQ; [done|].
  eapply fsinv_same; try done; [destruct (fi_view _ _ _ Hi); by split|]. intros c Hc. unfold used. simpl. rewrite Hbit by done.
  bool_case; [subst; right; left; by split|]. simpl. destruct (Bitmap.bit (sfs_freemap f) c); auto.
Qed.

Lemma bused_spec f g I b (Q : bool -> sfs_fs -> Prop) R :
  fsinv f g I -> 0 <= b < sp_nblocks (sfs_super f) -> Q (used f b) f -> runs (sfs_bused b f) Q R.
Proof.
  intros Hi Hb HQ. unfold sfs_bused, on_freemap. runs_steps. rewrite (proj2 (Z.leb_gt _ _)) by lia. runs_steps.
  pose proof (fi_nbits _ _ _ Hi) as [_ Hnb].
  eapply runs_mono; [apply (Bitmap.isset_spec (sfs_freemap f) b); [apply Hi|lia]| |done]; cbv beta.
  intros r fm (-> & Hr). runs_steps. rewrite Hr. by destruct f.
Qed.

Lemma hand_back_spec f g I b (Q : Z -> sfs_fs -> Prop) R :
  fsinv f g I -> b = 0 \/ (is_data f b /\ used f b = true) -> Q b f -> runs (hand_back b f) Q R.
Proof.
  intros Hi Hb HQ. unfold hand_back. runs_steps. destruct (Z.eqb_spec b 0) as [->|Hne]; simpl; runs_steps; [done|].
  destruct Hb as [|[Hd Hu]]; [done|]. eapply bused_spec; [done|destruct Hd; lia|]. rewrite Hu. by runs_steps.
Qed.

(** ** Changing an inode in memory *)

(** [v'] is [v] with a new inode, or a new block map on the same inode. *)
Definition revised (v v' : sfs_vnode) (i' : sfs_inode) : Prop :=
  vn_refcount v' = vn_refcount v /\ vn_opencount v' = vn_opencount v /\ vn_ops v' = vn_ops v /\
  sv_ino v' = sv_ino v /\ sv_i v' = i' /\ sfi_type i' = sfi_type (sv_i v).

(** [f'] differs from [f] in vnode [p] and the device. *)
Definition same_but (p : Z) (v' : sfs_vnode) f f' : Prop :=
  sfs_super f' = sfs_super f /\ sfs_superdirty f' = sfs_superdirty f /\ sfs_vnodes f' = sfs_vnodes f /\
  vnodes f' = <[p := v']> (vnodes f) /\ next_vnode f' = next_vnode f /\
  vfs_biglock_depth f' = vfs_biglock_depth f /\ oracle f' = oracle f /\ sfs_freemap f' = sfs_freemap f.

Lemma fsinv_revise f g I f' g' p v v' i' s0 bnew :
  fsinv f g I -> vnodes f !! p = Some v -> revised v v' i' -> inode_wf i' -> same_but p v' f f' -> fsv f' g' ->
  let ino := sv_ino v in let i := sv_i v in
  (sv_dirty v' = true \/ (sv_dirty v' = sv_dirty v /\ i' = i /\ g' ino = g ino)) ->
  (forall sl, at_slot g' i' ino sl = 0 \/ at_slot g' i' ino sl = at_slot g i ino sl \/
              (sl = s0 /\ at_slot g' i' ino sl = bnew)) ->
  (bnew = 0 \/ (is_data f bnew /\ used f bnew = true /\ fresh g I bnew)) ->
  (forall ino2 i2, I !! ino2 = Some i2 -> ino2 <> ino ->
     g' ino2 = g ino2 /\ forall sl, at_slot g' i2 ino2 sl = at_slot g i2 ino2 sl) ->
  fsinv f' g' (<[ino := i']> I).
Proof.
  intros Hi Hp (R1 & R2 & R3 & R4 & R5 & R6) Hw' (E1 & E2 & E3 & E4 & E5 & E6 & E7 & E8) Hv' ino i Hdir Hsl Hnew Hoth.
  pose proof Hi as [Hv Hm Hnb Hr Hwf Hu Hinj Hld Huq Htb Hdk].
  destruct (Hld p v Hp) as (HI & Href & Hop & Hops & Hpn). fold ino i in HI.
  assert (forall b, is_data f' b <-> is_data f b) as Hda by (intros b; unfold is_data; by rewrite E1).
  assert (forall b, used f' b = used f b) as Hus by (intros b; unfold used; by rewrite E8).
  split; rewrite ?E1, ?E3, ?E4, ?E5, ?E8; try done.
  - intros b Hb Hnd. rewrite Hus. apply Hr; [done|]. by rewrite <- Hda.
  - intros ino2 i2 [[<- <-]|[_ H2]]%lookup_insert_Some; [split; [done|by apply (Hwf ino i)]|by apply Hwf].
  - intros ino2 i2 sl [[<- <-]|[Hne H2]]%lookup_insert_Some Hnz; rewrite Hda, Hus.
    + destruct (Hsl sl) as [?|[E|[-> E]]]; [done|rewrite E in *; by apply Hu|].
      destruct Hnew as [->|(? & ? & _)]; [congruence|]. by rewrite E.
    + destruct (Hoth ino2 i2 H2 ltac:(congruence)) as [_ Hs2]. rewrite Hs2 in *. by apply Hu.
  - assert (forall ino2 i2 s2 sl, I !! ino2 = Some i2 -> ino2 <> ino -> at_slot g' i' ino sl <> 0 ->
              at_slot g' i' ino sl = at_slot g' i2 ino2 s2 -> False) as Hclash.
    { intros ino2 i2 s2 sl H2 Hne Hnz E. destruct (Hoth ino2 i2 H2 Hne) as [_ Hs2]. rewrite Hs2 in E.
      destruct (Hsl sl) as [?|[E2'|[-> E2']]]; [done|..].
      - rewrite E2' in *. destruct (Hinj ino i sl ino2 i2 s2 HI H2 Hnz E). congruence.
      - destruct Hnew as [->|(_ & _ & Hfr)]; [congruence|]. apply (Hfr ino2 i2 s2 H2). congruence. }
    intros ino1 i1 s1 ino2 i2 s2 [[<- <-]|[Hne1 H1]]%lookup_insert_Some [[<- <-]|[Hne2 H2]]%lookup_insert_Some Hnz E.
    + split; [done|]. destruct (Hsl s1) as [?|[Ea|[-> Ea]]], (Hsl s2) as [?|[Eb|[-> Eb]]]; try done; try congruence.
      * rewrite Ea, Eb in *. by destruct (Hinj ino i s1 ino i s2 HI HI Hnz E).
      * exfalso. destruct Hnew as [->|(_ & _ & Hfr)]; [congruence|]. apply (Hfr ino i s1 HI). congruence.
      * exfalso. destruct Hnew as [->|(_ & _ & Hfr)]; [congruence|]. apply (Hfr ino i s2 HI). congruence.
    + exfalso. by eapply (Hclash ino2 i2 s2 s1).
    + exfalso. eapply (Hclash ino1 i1 s1 s2); try done; congruence.
    + destruct (Hoth ino1 i1 H1 ltac:(congruence)) as [_ Hs1]. destruct (Hoth ino2 i2 H2 ltac:(congruence)) as [_ Hs2].
      rewrite Hs1, Hs2 in *. by apply (Hinj _ i1 _ _ i2).
  - intros q w [[<- <-]|[Hne Hq]]%lookup_insert_Some.
    + rewrite R4, R5, lookup_insert_eq. split_and!; [done|lia|lia| |done]. unfold ops_ok in *. rewrite R3, R5, R6. done.
    + destruct (Hld q w Hq) as (HIq & ? & ? & ? & ?). split_and!; try done.
      rewrite lookup_insert_ne; [done|]. intros E. apply Hne. by eapply Huq.
  - intros q q' w w' [[<- <-]|[Hne Hq]]%lookup_insert_Some [[<- <-]|[Hne' Hq']]%lookup_insert_Some E; [done|..].
    + rewrite R4 in E. by eapply Huq.
    + rewrite R4 in E. by eapply Huq.
    + by eapply Huq.
  - destruct Htb as [Hnd Htb]. split; [done|]. intros q. rewrite Htb. destruct (decide (p = q)) as [->|].
    + rewrite lookup_insert_eq, Hp. split; eauto.
    + by rewrite lookup_insert_ne.
  - intros ino2 i2 [[<- <-]|[Hne H2]]%lookup_insert_Some Hc.
    + specialize (Hc p v' (lookup_insert_eq _ _ _) R4). destruct Hdir as [|(Hd & -> & ->)]; [congruence|].
      apply Hdk; [done|]. intros q w Hq Ew. assert (q = p) as -> by (by eapply Huq). simplify_eq. congruence.
    + destruct (Hoth ino2 i2 H2 ltac:(congruence)) as [-> _]. apply Hdk; [done|]. intros q w Hq Ew.
      apply (Hc q w); [|done]. rewrite lookup_insert_ne; [done|]. intros ->. simplify_eq.
Qed.

(** ** Growing a file's block map *)

Definition set_vn (p : Z) (v : sfs_vnode) f : sfs_fs :=
  mkFs (sfs_super f) (sfs_superdirty f) (sfs_device f) (sfs_vnodes f) (sfs_freemap f) (sfs_freemapdirty f)
       (<[p := v]> (vnodes f)) (next_vnode f) (vfs_biglock_depth f) (oracle f).

Lemma runs_get_sv f p v (Q : sfs_vnode -> sfs_fs -> Prop) R :
  vnodes f !! p = Some v -> Q v f -> runs (get_sv p f) Q R.
Proof. intros Hp HQ. unfold get_sv. runs_steps. by apply (runs_of_option _ _ v). Qed.

Lemma runs_upd_sv f p v F (Q : unit -> sfs_fs -> Prop) R :
  vnodes f !! p = Some v -> Q tt (set_vn p (F v) f) -> runs (upd_sv p F f) Q R.
Proof. intros Hp HQ. unfold upd_sv, put_vnodes. runs_steps. apply (runs_of_option _ _ v); [done|]. by runs_steps. Qed.

Lemma set_vn_lookup p v f : vnodes (set_vn p v f) !! p = Some v.
Proof. apply lookup_insert_eq. Qed.

Lemma set_vn_twice p v v' f : set_vn p v' (set_vn p v f) = set_vn p v' f.
Proof. unfold set_vn. simpl. by rewrite insert_insert_eq. Qed.

(** Vnode [p] may have changed its block map; the files are the same. *)
Record grown f g I f' g' I' (p : Z) : Prop := {
  gr_inv : fsinv f' g' I';
  gr_files : same_files g I g' I';
  gr_rest : sfs_super f' = sfs_super f /\ sfs_superdirty f' = sfs_superdirty f /\ sfs_vnodes f' = sfs_vnodes f /\
    next_vnode f' = next_vnode f /\ vfs_biglock_depth f' = vfs_biglock_depth f /\ oracle f' = oracle f;
  gr_vn : exists v v', vnodes f !! p = Some v /\ vnodes f' = <[p := v']> (vnodes f) /\ revised v v' (sv_i v') }.

Lemma same_files_refl g I : same_files g I g I.
Proof. intros ino. by destruct (I !! ino). Qed.

Lemma same_files_trans g1 I1 g2 I2 g3 I3 :
  same_files g1 I1 g2 I2 -> same_files g2 I2 g3 I3 -> same_files g1 I1 g3 I3.
Proof.
  intros H1 H2 ino. specialize (H1 ino). specialize (H2 ino).
  destruct (I1 !! ino), (I2 !! ino), (I3 !! ino); try done.
  destruct H1 as (? & ? & ? & A), H2 as (? & ? & ? & B). split_and!; try congruence.
  intros off Hoff. by rewrite B, A.
Qed.

Lemma revised_refl v : revised v v (sv_i v).
Proof. by split_and!. Qed.

Lemma revised_trans v1 v2 v3 i2 i3 : revised v1 v2 i2 -> revised v2 v3 i3 -> revised v1 v3 i3.
Proof. intros (?&?&?&?&E&?) (?&?&?&?&?&?). split_and!; congruence. Qed.

Lemma grown_refl f g I p : fsinv f g I -> is_Some (vnodes f !! p) -> grown f g I f g I p.
Proof.
  intros Hi [v Hp]. split; [done|apply same_files_refl|by split_and!|].
  exists v, v. split_and!; [done|by rewrite insert_id|apply revised_refl].
Qed.

Lemma grown_trans f1 g1 I1 f2 g2 I2 f3 g3 I3 p :
  grown f1 g1 I1 f2 g2 I2 p -> grown f2 g2 I2 f3 g3 I3 p -> grown f1 g1 I1 f3 g3 I3 p.
Proof.
  intros [A1 A2 (?&?&?&?&?&?) (v & v' & A4 & A5 & A6)] [B1 B2 (?&?&?&?&?&?) (w & w' & B4 & B5 & B6)].
  split; [done|by eapply same_files_trans|split_and!; congruence|]. exists v, w'.
  rewrite A5, lookup_insert_eq in B4. injection B4 as <-.
  split_and!; [done|by rewrite B5, A5, insert_insert_eq|by eapply revised_trans].
Qed.

Lemma grown_same_mem f g I f' g' p :
  fsinv f' g' I -> same_files g I g' I -> same_mem f f' -> is_Some (vnodes f !! p) -> grown f g I f' g' I p.
Proof.
  intros Hi Hs (?&?&?&E&?&?&?) [v Hp]. split; [done|done|by split_and!|].
  exists v, v. split_and!; [done|by rewrite insert_id|apply revised_refl].
Qed.

(** A device that holds the same blocks. *)
Lemma fsinv_device f g I d' : fsinv f g I -> fsv (put_device d' f) g -> fsinv (put_device d' f) g I.
Proof.
  intros Hi Hv. eapply (fsinv_same f); try done; [apply Hi|]. intros b Hb. unfold used. simpl.
  destruct (Bitmap.bit (sfs_freemap f) b); auto.
Qed.

Lemma loaded f g I p v : fsinv f g I -> vnodes f !! p = Some v -> I !! sv_ino v = Some (sv_i v) /\ inode_wf (sv_i v).
Proof. intros Hi Hp. destruct (fi_loaded _ _ _ Hi p v Hp) as (HI & _). split; [done|]. by eapply fi_wf. Qed.

Lemma data_u32 f g I b : fsinv f g I -> is_data f b -> is_u32 b.
Proof.
  intros Hi [Hb _]. pose proof (fv_n _ _ (fi_view _ _ _ Hi)). pose proof (d_blocks_range _ (fv_sound _ _ (fi_view _ _ _ Hi))).
  unfold is_u32. lia.
Qed.

Lemma Forall_is_u32_insert l i b : Forall is_u32 l -> is_u32 b -> Forall is_u32 (zinsert l i b).
Proof. intros. by apply Forall_zinsert. Qed.

Lemma unwords_zeros : unwords 128 zeros = zrep 128 0.
Proof. vm_compute. reflexivity. Qed.

Lemma zlookup_zeros n k : default 0 (zlookup (zrep n 0) k) = 0.
Proof.
  destruct (zlookup (zrep n 0) k) eqn:E; [|done]. simpl.
  apply (Forall_zlookup (fun x => x = 0)) in E; [done|]. by apply Forall_zrep.
Qed.

(** A new inode for [p] whose slots are those of the old one, but for a fresh
    block of zeros at [s0]. *)
Lemma grow_inode f g I p v i' s0 b :
  fsinv f g I -> vnodes f !! p = Some v -> inode_wf i' ->
  sfi_size i' = sfi_size (sv_i v) /\ sfi_type i' = sfi_type (sv_i v) /\ sfi_linkcount i' = sfi_linkcount (sv_i v) ->
  (forall sl, at_slot g i' (sv_ino v) sl = if decide (sl = s0) then b else at_slot g (sv_i v) (sv_ino v) sl) ->
  at_slot g (sv_i v) (sv_ino v) s0 = 0 -> is_data f b -> used f b = true -> fresh g I b -> g b = zeros ->
  let f' := set_vn p (with_dirty true (with_inode i' v)) f in
  grown f g I f' g (<[sv_ino v := i']> I) p.
Proof.
  intros Hi Hp Hw (H1 & H2 & H3) Hsl H0 Hd Hu Hfr Hz f'. destruct (loaded _ _ _ _ _ Hi Hp) as [HI Hwv]. split.
  - eapply (fsinv_revise f g I f' g p v _ i' s0 b); try done.
    + by split_and!.
    + destruct (fi_view _ _ _ Hi). by split.
    + by left.
    + intros sl. rewrite Hsl. case_decide; auto.
    + auto.
  - intros ino2. destruct (decide (ino2 = sv_ino v)) as [->|Hne].
    + rewrite lookup_insert_eq, HI. split; [done|split; [done|split; [done|]]]. intros off Hoff.
      pose proof (Hsl (SData (off / SFS_BLOCKSIZE))) as Hs. simpl in Hs. unfold byte_of. rewrite Hs.
      case_decide as E; [|done]. subst s0. simpl in H0. rewrite H0.
      destruct (Z.eqb_spec b 0); [done|]. rewrite Hz. simpl. apply zlookup_zeros.
    + rewrite lookup_insert_ne by congruence. by destruct (I !! ino2).
  - by split_and!.
  - exists v. eexists. split_and!; [done|reflexivity|]. by split_and!.
Qed.

(** A fresh block of zeros entered in the indirect block. *)
Lemma grow_entry f g I p v k b idbuf d' :
  fsinv f g I -> vnodes f !! p = Some v -> sfi_indirect (sv_i v) <> 0 ->
  idbuf = unwords 128 (g (sfi_indirect (sv_i v))) -> zlookup idbuf k = Some 0 -> is_data f b -> used f b = true ->
  fresh g I b -> g b = zeros ->
  let g' := write_block g (sfi_indirect (sv_i v)) (words (zinsert idbuf k b)) in
  fsv (put_device d' f) g' ->
  grown f g I (put_device d' f) g' I p /\ bmap_of g' (sv_i v) (SFS_NDIRECT + k) = b.
Proof.
  intros Hi Hp Hid Hbuf Hk Hd Hu Hfr Hz g' Hv. destruct (loaded _ _ _ _ _ Hi Hp) as [HI Hwv].
  pose proof (zlookup_Some_range _ _ _ Hk) as Hkr.
  destruct (fi_used _ _ _ Hi _ _ SIndirect HI Hid) as [Hdi _]. simpl in Hdi.
  destruct (fsv_len _ _ (sfi_indirect (sv_i v)) (fi_view _ _ _ Hi)) as [Hl Hby]; [destruct Hdi; lia|].
  assert (unwords 128 (g' (sfi_indirect (sv_i v))) = zinsert idbuf k b) as Hun.
  { unfold g', write_block. rewrite Z.eqb_refl.
    assert (length (zinsert idbuf k b) = 128%nat) as <-.
    { pose proof (zlen_zinsert idbuf k b) as Hz1. unfold zlen in Hz1. rewrite Hbuf, length_unwords in Hz1. subst. lia. }
    apply unwords_words, Forall_is_u32_insert; [subst; by apply unwords_range|by eapply data_u32]. }
  assert (forall sl, at_slot g' (sv_i v) (sv_ino v) sl =
            if decide (sl = SData (SFS_NDIRECT + k)) then b else at_slot g (sv_i v) (sv_ino v) sl) as Hsl.
  { intros [| |fb]; [by rewrite decide_False..|]. simpl. unfold bmap_of.
    destruct (Z.ltb_spec fb SFS_NDIRECT).
    - rewrite decide_False; [done|]. intros [= ->]. lia.
    - rewrite (proj2 (Z.eqb_neq _ _) Hid), Hun, zlookup_zinsert by done. rewrite <- Hbuf.
      case_decide as E; [injection E as ->; rewrite bool_decide_true by lia; done|].
      rewrite bool_decide_false; [done|]. intros E2. apply E. f_equal. lia. }
  assert (forall ino2 i2, I !! ino2 = Some i2 -> ino2 <> sv_ino v -> sfi_indirect i2 <> sfi_indirect (sv_i v)) as Hoi.
  { intros ino2 i2 H2 Hne E. destruct (fi_inj _ _ _ Hi _ _ SIndirect _ _ SIndirect HI H2 Hid (eq_sym E)). congruence. }
  assert (forall ino2 i2, I !! ino2 = Some i2 -> ino2 <> sfi_indirect (sv_i v)) as Hii.
  { intros ino2 i2 H2 E. destruct (fi_inj _ _ _ Hi _ _ SIndirect _ _ SInode HI H2 Hid (eq_sym E)). done. }
  split; [|by pose proof (Hsl (SData (SFS_NDIRECT + k))) as Hs; rewrite decide_True in Hs by done].
  assert (at_slot g (sv_i v) (sv_ino v) (SData (SFS_NDIRECT + k)) = 0) as H0.
  { simpl. unfold bmap_of. rewrite (proj2 (Z.ltb_ge _ _)), (proj2 (Z.eqb_neq _ _) Hid) by lia.
    rewrite <- Hbuf. replace (SFS_NDIRECT + k - SFS_NDIRECT) with k by lia. by rewrite Hk. }
  split.
  - rewrite <- (insert_id I _ _ HI).
    eapply (fsinv_revise f g I _ g' p v v (sv_i v) (SData (SFS_NDIRECT + k)) b); try done.
    + split_and!; try done. by rewrite insert_id.
    + right. split_and!; try done. unfold g', write_block. rewrite (proj2 (Z.eqb_neq _ _)); [done|]. by eapply Hii.
    + intros sl. rewrite Hsl. case_decide; auto.
    + auto.
    + intros ino2 i2 H2 Hne. split.
      * unfold g', write_block. rewrite (proj2 (Z.eqb_neq _ _)); [done|]. by eapply Hii.
      * intros sl. apply at_slot_write. intros E. by destruct (Hoi ino2 i2 H2 Hne).
  - intros ino2. destruct (I !! ino2) as [i2|] eqn:H2; [|done]. split; [done|split; [done|split; [done|]]]. intros off Hoff.
    assert (forall c, c <> sfi_indirect (sv_i v) -> g' c = g c) as Hg'.
    { intros c Hc. unfold g', write_block. by rewrite (proj2 (Z.eqb_neq _ _)). }
    assert (bmap_of g' i2 (off / SFS_BLOCKSIZE) <> 0 -> bmap_of g' i2 (off / SFS_BLOCKSIZE) = bmap_of g i2 (off / SFS_BLOCKSIZE) ->
            bmap_of g i2 (off / SFS_BLOCKSIZE) <> sfi_indirect (sv_i v)) as Hni.
    { intros Hnz E E2. rewrite E in Hnz.
      destruct (fi_inj _ _ _ Hi ino2 i2 (SData (off / SFS_BLOCKSIZE)) _ _ SIndirect H2 HI Hnz E2). done. }
    assert (bmap_of g' i2 (off / SFS_BLOCKSIZE) = bmap_of g i2 (off / SFS_BLOCKSIZE) \/
            (bmap_of g' i2 (off / SFS_BLOCKSIZE) = b /\ bmap_of g i2 (off / SFS_BLOCKSIZE) = 0)) as [E|[E E0]].
    { destruct (decide (ino2 = sv_ino v)) as [->|Hne].
      - assert (i2 = sv_i v) as -> by congruence. pose proof (Hsl (SData (off / SFS_BLOCKSIZE))) as Hs. simpl in Hs.
        case_decide as Ed; [|by left]. right. split; [done|]. injection Ed as Ed. rewrite Ed. exact H0.
      - left. pose proof (at_slot_write g (sfi_indirect (sv_i v)) (words (zinsert idbuf k b)) i2 ino2 (SData (off / SFS_BLOCKSIZE))) as Hs.
        apply Hs. intros E. by destruct (Hoi ino2 i2 H2 Hne). }
    + unfold byte_of. destruct (Z.eqb_spec (bmap_of g' i2 (off / SFS_BLOCKSIZE)) 0) as [Hz0|Hnz].
      * rewrite <- E, Hz0. done.
      * rewrite E in *. rewrite (proj2 (Z.eqb_neq _ _) Hnz). rewrite Hg'; [done|]. by apply Hni.
    + unfold byte_of. rewrite E, E0. simpl. destruct (Z.eqb_spec b 0); [done|].
      rewrite Hg'; [rewrite Hz; apply zlookup_zeros|]. intros Eb. apply (Hfr _ _ SIndirect HI). by symmetry.
  - by split_and!.
  - exists v, v. split_and!; [done|by rewrite insert_id|apply revised_refl].
Qed.

(** The block map after a fresh direct block, or a fresh indirect block. *)
Lemma slots_direct g i ino fb b :
  zlen (sfi_direct i) = SFS_NDIRECT -> 0 <= fb < SFS_NDIRECT ->
  forall sl, at_slot g (with_direct (zinsert (sfi_direct i) fb b) i) ino sl =
             if decide (sl = SData fb) then b else at_slot g i ino sl.
Proof.
  intros Hl Hfb [| |fb']; [by rewrite decide_False..|]. simpl. unfold bmap_of. simpl.
  destruct (Z.ltb_spec fb' SFS_NDIRECT).
  - rewrite zlookup_zinsert by lia. case_decide as E; [injection E as ->; by rewrite bool_decide_true|].
    rewrite bool_decide_false; [done|]. congruence.
  - rewrite decide_False; [done|]. intros [= ->]. lia.
Qed.

Lemma slots_indirect g i ino b :
  sfi_indirect i = 0 -> g b = zeros ->
  forall sl, at_slot g (with_indirect b i) ino sl = if decide (sl = SIndirect) then b else at_slot g i ino sl.
Proof.
  intros Hi Hz [| |fb]; [by rewrite decide_False|by rewrite decide_True|]. rewrite decide_False by done. simpl.
  unfold bmap_of. simpl. destruct (fb <? SFS_NDIRECT); [done|]. rewrite Hi. simpl.
  destruct (b =? 0); [done|]. rewrite Hz, unwords_zeros. apply zlookup_zeros.
Qed.

Lemma with_direct_wf i fb b : inode_wf i -> is_u32 b -> inode_wf (with_direct (zinsert (sfi_direct i) fb b) i).
Proof.
  intros [A1 A2 A3 [A4 A5] A6 A7] Hb. split; simpl; try done. rewrite zlen_zinsert. split; [done|].
  by apply Forall_zinsert.
Qed.

Lemma with_indirect_wf i b : inode_wf i -> is_u32 b -> inode_wf (with_indirect b i).
Proof. intros [A1 A2 A3 A4 A6 A7] Hb. by split. Qed.

Lemma write_block_eq g b data : write_block g b data b = data.
Proof. unfold write_block. by rewrite Z.eqb_refl. Qed.
Lemma write_block_ne g b data c : c <> b -> write_block g b data c = g c.
Proof. intros Hc. unfold write_block. by rewrite (proj2 (Z.eqb_neq _ _)). Qed.

(** A fresh block of zeros, before it is entered anywhere. *)
Lemma alloc_grown f g I p (Q : Z -> sfs_fs -> Prop) (R : Z -> sfs_fs -> Prop) :
  fsinv f g I -> is_Some (vnodes f !! p) ->
  (forall b f', let g' := write_block g b zeros in
     grown f g I f' g' I p -> is_data f' b -> used f' b = true -> fresh g I b -> fresh g' I b -> g' b = zeros ->
     vnodes f' = vnodes f -> Q b f') ->
  R ENOSPC f ->
  runs (sfs_balloc f) Q R.
Proof.
  intros Hi Hp HQ HR. eapply balloc_spec; [done| |done]. intros b f' Hd Hu Hfr Hsm Hi'.
  pose proof Hsm as (E1 & _ & _ & E4 & _).
  assert (b <> 0) as Hnz by (destruct Hd; lia).
  apply HQ; try done.
  - apply grown_same_mem; [done|by eapply same_files_write|done|done].
  - unfold is_data in *. by rewrite E1.
  - by apply fresh_write.
  - apply write_block_eq.
Qed.

Lemma bmap_direct f g I p v fb doalloc (Q : Z -> sfs_fs -> Prop) (R : Z -> sfs_fs -> Prop) :
  fsinv f g I -> vnodes f !! p = Some v -> 0 <= fb < SFS_NDIRECT ->
  (forall b f' g' I' v', grown f g I f' g' I' p -> vnodes f' !! p = Some v' -> b = bmap_of g' (sv_i v') fb ->
     (doalloc = true -> b <> 0) -> (doalloc = false -> f' = f /\ g' = g /\ I' = I) -> Q b f') ->
  (doalloc = true -> R ENOSPC f) ->
  runs (sfs_bmap p fb doalloc f) Q R.
Proof.
  intros Hi Hp Hfb HQ HR. destruct (loaded _ _ _ _ _ Hi Hp) as [HI Hwv]. pose proof (iw_direct _ Hwv) as [Hdl _].
  unfold sfs_bmap. runs_steps. eapply runs_get_sv; [done|]. rewrite (proj2 (Z.ltb_lt _ _)) by lia.
  destruct (zlookup_is_Some (sfi_direct (sv_i v)) fb) as [b0 Hb0]; [lia|]. runs_steps.
  apply (runs_of_option _ _ b0); [done|].
  assert (bmap_of g (sv_i v) fb = b0) as Hbm by (unfold bmap_of; rewrite (proj2 (Z.ltb_lt _ _)), Hb0 by lia; done).
  destruct ((b0 =? 0) && doalloc) eqn:E.
  - apply andb_true_iff in E as [->%Z.eqb_eq ->]. runs_steps. eapply alloc_grown; [done|eauto| |auto].
    intros b f1 g1 Hg1 Hd1 Hu1 Hfr Hfr1 Hz1 Hvn. pose proof (gr_inv _ _ _ _ _ _ _ Hg1) as Hi1.
    assert (vnodes f1 !! p = Some v) as Hp1 by (by rewrite Hvn). runs_steps.
    unfold upd_inode. eapply runs_upd_sv; [done|]. runs_steps.
    eapply runs_upd_sv; [apply set_vn_lookup|]. rewrite set_vn_twice. runs_steps.
    set (i' := with_direct (zinsert (sfi_direct (sv_i v)) fb b) (sv_i v)).
    change (with_inode _ v) with (with_inode i' v).
    assert (forall ino sl, at_slot g1 i' ino sl = if decide (sl = SData fb) then b else at_slot g1 (sv_i v) ino sl) as Hsl.
    { intros ino. by apply slots_direct. }
    assert (bmap_of g1 (sv_i v) fb = 0) as H0.
    { unfold bmap_of. rewrite (proj2 (Z.ltb_lt _ _)), Hb0 by lia. done. }
    assert (grown f1 g1 I (set_vn p (with_dirty true (with_inode i' v)) f1) g1 (<[sv_ino v := i']> I) p) as Hg2.
    { eapply (grow_inode f1 g1 I p v i' (SData fb) b); try done.
      apply with_direct_wf; [done|by eapply data_u32]. }
    eapply hand_back_spec; [apply Hg2|right; done|].
    eapply (HQ b _ g1 _ (with_dirty true (with_inode i' v))); [by eapply grown_trans|apply set_vn_lookup| | |done].
    + pose proof (Hsl 0 (SData fb)) as Hs. by rewrite decide_True in Hs.
    + intros _. destruct Hd1. lia.
  - eapply hand_back_spec; [done| |].
    + destruct (decide (b0 = 0)); [by left|right]. rewrite <- Hbm in *.
      apply (fi_used _ _ _ Hi _ _ (SData fb) HI). done.
    + eapply (HQ b0 f g I v); [apply grown_refl; [done|eauto]|done|done| |done].
      intros ->. rewrite andb_true_r in E. by apply Z.eqb_neq in E.
Qed.

(** The indirect block, allocated if need be. *)
Lemma indirect_spec f g I p v (Q : Z * list Z -> sfs_fs -> Prop) (R : Z -> sfs_fs -> Prop) :
  fsinv f g I -> vnodes f !! p = Some v ->
  (forall f' g' I' v', grown f g I f' g' I' p -> vnodes f' !! p = Some v' -> sfi_indirect (sv_i v') <> 0 ->
     (sfi_indirect (sv_i v) <> 0 -> g' = g /\ I' = I /\ v' = v /\ same_mem f f') ->
     Q (sfi_indirect (sv_i v'), unwords 128 (g' (sfi_indirect (sv_i v')))) f') ->
  (sfi_indirect (sv_i v) = 0 -> R ENOSPC f) ->
  runs ((if sfi_indirect (sv_i v) =? 0 then
             let* idblock := sfs_balloc in
             upd_inode p (with_indirect idblock) ;;
             upd_sv p (with_dirty true) ;;
             ret (idblock, zrep SFS_DBPERIDB 0)
           else
             let* bs := sfs_rblock (sfi_indirect (sv_i v)) in
             ret (sfi_indirect (sv_i v), unwords (Z.to_nat SFS_DBPERIDB) bs)) f) Q R.
Proof.
  intros Hi Hp HQ HR. destruct (loaded _ _ _ _ _ Hi Hp) as [HI Hwv].
  destruct (Z.eqb_spec (sfi_indirect (sv_i v)) 0) as [E|E].
  - runs_steps. eapply alloc_grown; [done|eauto| |auto].
    intros b f1 g1 Hg1 Hd1 Hu1 Hfr Hfr1 Hz1 Hvn. pose proof (gr_inv _ _ _ _ _ _ _ Hg1) as Hi1.
    assert (vnodes f1 !! p = Some v) as Hp1 by (by rewrite Hvn). runs_steps.
    unfold upd_inode. eapply runs_upd_sv; [done|]. runs_steps.
    eapply runs_upd_sv; [apply set_vn_lookup|]. rewrite set_vn_twice. runs_steps.
    set (i' := with_indirect b (sv_i v)). set (v' := with_dirty true (with_inode i' v)).
    assert (b <> 0) as Hnz by (destruct Hd1; lia).
    assert (grown f1 g1 I (set_vn p v' f1) g1 (<[sv_ino v := i']> I) p) as Hg2.
    { eapply (grow_inode f1 g1 I p v i' SIndirect b); try done; [apply with_indirect_wf; [done|by eapply data_u32]|].
      by apply slots_indirect. }
    replace (b, zrep SFS_DBPERIDB 0) with (sfi_indirect (sv_i v'), unwords 128 (g1 (sfi_indirect (sv_i v')))).
    + eapply (HQ (set_vn p v' f1) g1 (<[sv_ino v := i']> I) v'); [by eapply grown_trans|apply set_vn_lookup|done|done].
    + simpl. rewrite Hz1, unwords_zeros. done.
  - destruct (fi_used _ _ _ Hi _ _ SIndirect HI E) as [Hdi _]. runs_steps.
    eapply rblock_spec; [apply Hi|destruct Hdi; simpl in *; lia|]. intros d' Hv'. runs_steps.
    change (Z.to_nat SFS_DBPERIDB) with 128%nat.
    pose proof (fsinv_device f g I d' Hi Hv') as Hi'.
    eapply (HQ (put_device d' f) g I v); [|done|done|done].
    apply grown_same_mem; [done|apply same_files_refl|done|eauto].
Qed.

Lemma unwords_lookup bs k : 0 <= k < 128 -> exists b, zlookup (unwords 128 bs) k = Some b.
Proof. intros Hk. apply zlookup_is_Some. unfold zlen. rewrite length_unwords. lia. Qed.

Lemma bmap_indirect f g I p v fb doalloc (Q : Z -> sfs_fs -> Prop) (R : Z -> sfs_fs -> Prop) :
  fsinv f g I -> vnodes f !! p = Some v -> SFS_NDIRECT <= fb < 2 ^ 32 ->
  (forall b f' g' I' v', grown f g I f' g' I' p -> vnodes f' !! p = Some v' -> b = bmap_of g' (sv_i v') fb ->
     fb < MAXBLOCKS -> (doalloc = true -> b <> 0) ->
     (doalloc = false -> g' = g /\ I' = I /\ v' = v /\ same_mem f f') -> Q b f') ->
  (forall e f' g' I', grown f g I f' g' I' p -> (e = ENOSPC \/ (e = EFBIG /\ MAXBLOCKS <= fb)) ->
     (doalloc = false -> e = EFBIG /\ f' = f) -> R e f') ->
  runs (sfs_bmap p fb doalloc f) Q R.
Proof.
  intros Hi Hp Hfb HQ HR. unfold SFS_NDIRECT, MAXBLOCKS, SFS_DBPERIDB in *.
  assert (is_Some (vnodes f !! p)) as Hps by eauto.
  unfold sfs_bmap. runs_steps. eapply runs_get_sv; [done|].
  rewrite (proj2 (Z.ltb_ge _ _)) by (unfold SFS_NDIRECT; lia). cbv zeta.
  replace (u32 (fb - SFS_NDIRECT)) with (fb - 15) by (rewrite u32_small; [done|unfold is_u32, SFS_NDIRECT; lia]).
  unfold SFS_DBPERIDB. destruct (Z.ltb_spec 0 ((fb - 15) / 128)) as [Hbig|Hsm].
  { runs_steps. eapply (HR EFBIG f g I); [by apply grown_refl|right; split; [done|unfold SFS_NDIRECT; dlia]|done]. }
  assert (0 <= fb - 15 < 128) as Hk by dlia. rewrite (Z.mod_small (fb - 15)) by lia. set (k := fb - 15) in *.
  assert (fb = SFS_NDIRECT + k) as Hfbk by (unfold SFS_NDIRECT, k; lia).
  destruct ((sfi_indirect (sv_i v) =? 0) && negb doalloc) eqn:E.
  { apply andb_true_iff in E as [E ->%negb_true_iff]. runs_steps. eapply (HQ 0 f g I v); try done; [by apply grown_refl| |lia].
    unfold bmap_of. rewrite (proj2 (Z.ltb_ge _ _)), E by (unfold SFS_NDIRECT; lia). done. }
  runs_steps. eapply indirect_spec; [done|done| |].
  2: { intros E0. eapply (HR ENOSPC f g I); [by apply grown_refl|by left|]. intros ->. by rewrite E0 in E. }
  intros f1 g1 I1 v1 Hg1 Hp1 Hid Hsame. cbv beta iota. pose proof (gr_inv _ _ _ _ _ _ _ Hg1) as Hi1.
  destruct (loaded _ _ _ _ _ Hi1 Hp1) as [HI1 Hwv1].
  destruct (unwords_lookup (g1 (sfi_indirect (sv_i v1))) k Hk) as [b0 Hb0]. runs_steps.
  apply (runs_of_option _ _ b0); [done|].
  assert (bmap_of g1 (sv_i v1) fb = b0) as Hbm.
  { unfold bmap_of. rewrite (proj2 (Z.ltb_ge _ _)), (proj2 (Z.eqb_neq _ _) Hid) by (unfold SFS_NDIRECT; lia).
    rewrite Hfbk. replace (SFS_NDIRECT + k - SFS_NDIRECT) with k by lia. by rewrite Hb0. }
  destruct ((b0 =? 0) && doalloc) eqn:E2.
  - apply andb_true_iff in E2 as [->%Z.eqb_eq ->]. runs_steps. eapply alloc_grown; [done|eauto|..].
    2: { eapply (HR ENOSPC f1 g1 I1); [done|by left|done]. }
    intros b f2 g2 Hg2 Hd2 Hu2 Hfr Hfr2 Hz2 Hvn. pose proof (gr_inv _ _ _ _ _ _ _ Hg2) as Hi2.
    assert (vnodes f2 !! p = Some v1) as Hp2 by (by rewrite Hvn).
    assert (sfi_indirect (sv_i v1) <> b) as Hib by (intros Eb; by apply (Hfr _ _ SIndirect HI1)).
    assert (unwords 128 (g1 (sfi_indirect (sv_i v1))) = unwords 128 (g2 (sfi_indirect (sv_i v1)))) as Hbuf.
    { unfold g2. by rewrite write_block_ne. }
    rewrite Hbuf in *. runs_steps.
    destruct (fi_used _ _ _ Hi2 _ _ SIndirect HI1 Hid) as [Hdi _]. simpl in Hdi.
    assert (zlen (zinsert (unwords 128 (g2 (sfi_indirect (sv_i v1)))) k b) = 128) as Hzl.
    { rewrite zlen_zinsert. unfold zlen. by rewrite length_unwords. }
    eapply (wblock_spec f2 g2); [apply Hi2|destruct Hdi; lia|by rewrite zlen_words, Hzl|apply words_bytes|].
    intros d' Hv'. runs_steps.
    destruct (grow_entry f2 g2 I1 p v1 k b _ d' Hi2 Hp2 Hid eq_refl Hb0 Hd2 Hu2 Hfr2 Hz2 Hv') as [Hg3 Hbm3].
    eapply hand_back_spec; [apply Hg3|right; done|].
    eapply (HQ b _ _ I1 v1); [eapply grown_trans; [done|]; by eapply grown_trans|done|by rewrite Hfbk|lia| |done].
    intros _. destruct Hd2. lia.
  - eapply hand_back_spec; [done| |].
    + destruct (decide (b0 = 0)); [by left|right]. rewrite <- Hbm in *.
      apply (fi_used _ _ _ Hi1 _ _ (SData fb) HI1). done.
    + eapply (HQ b0 f1 g1 I1 v1); [done|done|done|lia| |].
      * intros ->. rewrite andb_true_r in E2. by apply Z.eqb_neq in E2.
      * intros ->. apply Hsame. rewrite andb_true_r in E. by apply Z.eqb_neq in E.
Qed.

Lemma bmap_spec f g I p v fb doalloc (Q : Z -> sfs_fs -> Prop) (R : Z -> sfs_fs -> Prop) :
  fsinv f g I -> vnodes f !! p = Some v -> 0 <= fb < 2 ^ 32 ->
  (forall b f' g' I' v', grown f g I f' g' I' p -> vnodes f' !! p = Some v' -> b = bmap_of g' (sv_i v') fb ->
     fb < MAXBLOCKS -> (doalloc = true -> b <> 0) ->
     (doalloc = false -> g' = g /\ I' = I /\ v' = v /\ same_mem f f') -> Q b f') ->
  (forall e f' g' I', grown f g I f' g' I' p -> (e = ENOSPC \/ (e = EFBIG /\ MAXBLOCKS <= fb)) ->
     (doalloc = false -> e = EFBIG /\ f' = f) -> R e f') ->
  runs (sfs_bmap p fb doalloc f) Q R.
Proof.
  intros Hi Hp Hfb HQ HR. destruct (decide (fb < SFS_NDIRECT)); [|by eapply bmap_indirect; try done; lia].
  assert (is_Some (vnodes f !! p)) as Hps by eauto.
  eapply bmap_direct; [done|done|lia| |].
  - intros b f' g' I' v' Hg Hp' Hb Hnz Hsame. eapply HQ; try done; [unfold MAXBLOCKS, SFS_DBPERIDB; lia|].
    intros Hd. destruct (Hsame Hd) as (-> & -> & ->). split_and!; try done. congruence.
  - intros ->. eapply (HR ENOSPC f g I); [by apply grown_refl|by left|done].
Qed.
End Inv.
End SfsInv.
