(* ===== verification/SfsFile.v ===== *)
(** * Reading and writing SFS files

    [SfsFile] shows that [sfs_io] reads and writes the bytes of a file as if it
    were one array, whatever the alignment: the refinement of
    src/fs/sfs/sfs_vnode.c's file-level I/O. *)

From S2P Require Import Prelude Copyinout Bitmap Uio Device SfsDisk Sfs SfsInv.
Import Copyinout Uio Device SfsDisk Sfs SfsInv.

Module SfsFile.

(** The bytes [off .. off+n-1] of a file. *)
Definition file_bytes (g : Z -> list Z) (i : sfs_inode) (off n : Z) : list Z :=
  (fun k => byte_of g i (off + Z.of_nat k)) <$> seq 0 (Z.to_nat n).

Lemma zlen_file_bytes g i off n : 0 <= n -> zlen (file_bytes g i off n) = n.
Proof. intros. unfold file_bytes, zlen. rewrite length_fmap, length_seq. lia. Qed.

Lemma zlookup_file_bytes g i off n k :
  0 <= k < n -> zlookup (file_bytes g i off n) k = Some (byte_of g i (off + k)).
Proof.
  intros Hk. unfold file_bytes, zlookup. rewrite bool_decide_true by lia.
  rewrite list_lookup_fmap, lookup_seq_lt by lia. simpl. by rewrite Z2Nat.id by lia.
Qed.

(** Memory holds bytes. *)
Definition mem_bytes (x : xfer) : Prop := byte_list (kmem x) /\ map_Forall (fun _ b => is_u8 b) (um (us x)).

Lemma bytes_at_bytes m a n : map_Forall (fun _ b => is_u8 b) m -> byte_list (bytes_at m a n).
Proof.
  intros Hm. revert a. induction n as [|n IH]; intros a; cbn [bytes_at]; constructor; [|apply IH].
  destruct (m !! a) eqn:E; [by apply (Hm a)|done].
Qed.

Lemma get_bytes_bytes x a n : mem_bytes x -> byte_list (get_bytes x a n).
Proof.
  intros [Hk Hu]. unfold get_bytes. destruct (is_sys x); [by apply Forall_take, Forall_drop|by apply bytes_at_bytes].
Qed.

Lemma set_bytes_Forall m a bs :
  map_Forall (fun _ b => is_u8 b) m -> byte_list bs -> map_Forall (fun _ b => is_u8 b) (set_bytes m a bs).
Proof.
  intros Hm Hb. revert m a Hm. induction Hb as [|b bs Hb Hbs IH]; intros m a Hm; cbn [set_bytes]; [done|].
  apply IH. by apply map_Forall_insert_2.
Qed.

Lemma Forall_zsplice {A} (P : A -> Prop) l i xs : Forall P l -> Forall P xs -> Forall P (zsplice l i xs).
Proof.
  intros Hl Hx. unfold zsplice. apply Forall_app. split; [by apply Forall_take|].
  apply Forall_app. split; [done|]. by apply Forall_drop.
Qed.

Lemma mem_bytes_moved x b bs : mem_bytes x -> byte_list bs -> mem_bytes (moved b bs x).
Proof.
  intros [Hk Hu] Hb. unfold moved, put_bytes. destruct (uio_dir (xu x)); [|done].
  destruct (is_sys x); split; simpl; try done.
  - by apply Forall_zsplice.
  - by apply set_bytes_Forall.
Qed.

(** The uio with another position and length. *)
Definition redirect (off res : Z) (x : xfer) : xfer :=
  mkXfer (with_resid res (with_offset off (xu x))) (kmem x) (us x) (curproc_as x).

Lemma xok_redirect off res x b l :
  xok x b l -> 0 <= res <= l -> 0 <= off -> off + res < 2 ^ 63 -> xok (redirect off res x) b l.
Proof. intros [Hiov Hb Hres Hoff Hsp Hk Hu] ???. by split. Qed.

Lemma redirect_moved off res x b bs : moved b bs (redirect off res x) = redirect off res (moved b bs x).
Proof. unfold moved. simpl. destruct (uio_dir (xu x)); [|done]. unfold put_bytes, is_sys. simpl. by destruct (bool_decide _). Qed.

Lemma redirect_advance off res n x :
  advance n (redirect off res x) = redirect (off + n) (res - n) (advance n x).
Proof. done. Qed.

Lemma redirect_back off res off' res' x :
  off = uio_offset (xu x) -> res = uio_resid (xu x) ->
  mkXfer (with_resid res (with_offset off (xu (redirect off' res' x)))) (kmem x) (us x) (curproc_as x) = x.
Proof. intros -> ->. by destruct x as [[] ???]. Qed.

Section File.
Context {D : Type} `{!BlockDevice D}.
Abbreviation sfs_fs := (@sfs_fs D).
Implicit Types (f : sfs_fs) (g : Z -> list Z) (I : gmap Z sfs_inode) (x : xfer).

(** The files after the bytes [bs] were stored at [off] of inode [ino]. *)
Definition files_edited g I g' I' (ino off : Z) (bs : list Z) : Prop :=
  forall n, match I !! n, I' !! n with
    | Some i, Some i' => sfi_size i' = sfi_size i /\ sfi_type i' = sfi_type i /\ sfi_linkcount i' = sfi_linkcount i /\
        forall o, 0 <= o -> byte_of g' i' o =
          if decide (n = ino /\ off <= o < off + zlen bs) then default 0 (zlookup bs (o - off)) else byte_of g i o
    | None, None => True
    | _, _ => False
    end.

(** Vnode [p]'s file holds [bs] at [off]; nothing else changed. *)
Record edited f g I f' g' I' (p off : Z) (bs : list Z) : Prop := {
  ed_inv : fsinv f' g' I';
  ed_rest : sfs_super f' = sfs_super f /\ sfs_superdirty f' = sfs_superdirty f /\ sfs_vnodes f' = sfs_vnodes f /\
    next_vnode f' = next_vnode f /\ vfs_biglock_depth f' = vfs_biglock_depth f /\ oracle f' = oracle f;
  ed_vn : exists v v', vnodes f !! p = Some v /\ vnodes f' = <[p := v']> (vnodes f) /\ revised v v' (sv_i v') /\
    files_edited g I g' I' (sv_ino v) off bs }.

Lemma files_edited_nil g I g' I' ino off : same_files g I g' I' -> files_edited g I g' I' ino off [].
Proof.
  intros Hs n. specialize (Hs n). destruct (I !! n), (I' !! n); try done.
  destruct Hs as (? & ? & ? & Hb). split; [done|split; [done|split; [done|]]]. intros o Ho.
  rewrite decide_False; [by apply Hb|]. change (zlen []) with 0. lia.
Qed.

Lemma grown_edited f g I f' g' I' p off : grown f g I f' g' I' p -> edited f g I f' g' I' p off [].
Proof.
  intros [Hi Hs Hr (v & v' & Hp & Hvn & Hrev)]. split; [done|done|]. exists v, v'. split_and!; try done.
  by apply files_edited_nil.
Qed.

Lemma files_edited_app g1 I1 g2 I2 g3 I3 ino off bs1 bs2 :
  files_edited g1 I1 g2 I2 ino off bs1 -> files_edited g2 I2 g3 I3 ino (off + zlen bs1) bs2 ->
  files_edited g1 I1 g3 I3 ino off (bs1 ++ bs2).
Proof.
  intros H1 H2 n. specialize (H1 n). specialize (H2 n). pose proof (zlen_nonneg bs1). pose proof (zlen_nonneg bs2).
  destruct (I1 !! n), (I2 !! n), (I3 !! n); try done. destruct H1 as (?&?&?&A), H2 as (?&?&?&B).
  split; [congruence|split; [congruence|split; [congruence|]]]. intros o Ho. rewrite B, A by done. rewrite zlen_app.
  repeat case_decide; try lia; try done.
  - rewrite zlookup_app_r by lia. do 2 f_equal. lia.
  - by rewrite zlookup_app_l by lia.
Qed.

Lemma edited_app f1 g1 I1 f2 g2 I2 f3 g3 I3 p off bs1 bs2 :
  edited f1 g1 I1 f2 g2 I2 p off bs1 -> edited f2 g2 I2 f3 g3 I3 p (off + zlen bs1) bs2 ->
  edited f1 g1 I1 f3 g3 I3 p off (bs1 ++ bs2).
Proof.
  intros [A1 (?&?&?&?&?&?) (v & v' & A4 & A5 & A6 & A7)] [B1 (?&?&?&?&?&?) (w & w' & B4 & B5 & B6 & B7)].
  split; [done|split_and!; congruence|]. exists v, w'.
  rewrite A5, lookup_insert_eq in B4. injection B4 as <-.
  split_and!; [done|by rewrite B5, A5, insert_insert_eq|by eapply revised_trans|].
  eapply files_edited_app; [done|]. destruct A6 as (_&_&_&<-&_). done.
Qed.

Lemma edited_vnode f g I f' g' I' p off bs v :
  edited f g I f' g' I' p off bs -> vnodes f !! p = Some v ->
  exists v', vnodes f' !! p = Some v' /\ revised v v' (sv_i v').
Proof.
  intros [_ _ (w & v' & Hp & Hvn & Hrev & _)] Hv. simplify_eq. exists v'. split; [|done]. by rewrite Hvn, lookup_insert_eq.
Qed.

(** A data block is no file's inode or indirect block. *)
Lemma data_write f g I p v fb b data d' :
  fsinv f g I -> vnodes f !! p = Some v -> b = bmap_of g (sv_i v) fb -> b <> 0 ->
  let g' := write_block g b data in
  fsv (put_device d' f) g' ->
  fsinv (put_device d' f) g' I /\
  forall n i o, I !! n = Some i -> byte_of g' i o =
    if decide (n = sv_ino v /\ o / SFS_BLOCKSIZE = fb) then default 0 (zlookup data (o mod SFS_BLOCKSIZE)) else byte_of g i o.
Proof.
  intros Hi Hp Hb Hnz g' Hv. destruct (loaded _ _ _ _ _ Hi Hp) as [HI _].
  assert (forall n i sl, I !! n = Some i -> at_slot g i n sl = b -> n = sv_ino v /\ sl = SData fb) as Hinj.
  { intros n i sl Hn E. apply (fi_inj _ _ _ Hi n i sl (sv_ino v) (sv_i v) (SData fb) Hn HI); [congruence|].
    simpl. congruence. }
  assert (forall n i sl, I !! n = Some i -> at_slot g' i n sl = at_slot g i n sl) as Hsl.
  { intros n i sl Hn. apply at_slot_write. intros E. by destruct (Hinj n i SIndirect Hn E). }
  split.
  - eapply (fsinv_same f); try done; [apply Hi| |].
    + intros c Hc. unfold used. simpl. destruct (Bitmap.bit (sfs_freemap f) c); auto.
    + intros n i Hn. unfold g'. apply write_block_ne. intros ->. by destruct (Hinj b i SInode Hn eq_refl).
  - intros n i o Hn. unfold byte_of. pose proof (Hsl n i (SData (o / SFS_BLOCKSIZE)) Hn) as Hs. simpl in Hs. rewrite Hs.
    destruct (Z.eqb_spec (bmap_of g i (o / SFS_BLOCKSIZE)) 0) as [E0|E0].
    + rewrite decide_False; [done|]. intros [-> Hfb]. rewrite Hfb in E0. congruence.
    + destruct (decide (bmap_of g i (o / SFS_BLOCKSIZE) = b)) as [E|E].
      * destruct (Hinj n i (SData (o / SFS_BLOCKSIZE)) Hn E) as [-> [= Hfb]]. rewrite decide_True by done.
        unfold g'. rewrite E, write_block_eq. done.
      * rewrite decide_False; [unfold g'; by rewrite write_block_ne|]. intros [-> Hfb]. apply E.
        assert (i = sv_i v) as -> by congruence. by rewrite Hfb.
Qed.

Lemma data_edited f g I p v fb b skip bs d' :
  fsinv f g I -> vnodes f !! p = Some v -> b = bmap_of g (sv_i v) fb -> b <> 0 ->
  0 <= skip -> skip + zlen bs <= SFS_BLOCKSIZE -> zlen (g b) = SFS_BLOCKSIZE -> 0 <= fb ->
  let g' := write_block g b (zsplice (g b) skip bs) in
  fsv (put_device d' f) g' ->
  edited f g I (put_device d' f) g' I p (fb * SFS_BLOCKSIZE + skip) bs.
Proof.
  intros Hi Hp Hb Hnz Hs Hl Hlen Hfb g' Hv. destruct (data_write f g I p v fb b _ d' Hi Hp Hb Hnz Hv) as [Hi' Hby].
  split; [done|by split_and!|]. exists v, v. split_and!; [done|by rewrite insert_id|apply revised_refl|].
  unfold SFS_BLOCKSIZE in *. pose proof (zlen_nonneg bs). destruct (loaded _ _ _ _ _ Hi Hp) as [HI _].
  intros n. destruct (I !! n) as [i|] eqn:Hn; [|done]. split; [done|split; [done|split; [done|]]]. intros o Ho.
  unfold g'. rewrite (Hby n i o Hn). destruct (decide (n = sv_ino v /\ o / 512 = fb)) as [[-> Hof]|Hnot].
  - rewrite zlookup_zsplice by dlia. assert (o = fb * 512 + o mod 512) as Hod by dlia.
    case_bool_decide; case_decide; try dlia.
    + do 2 f_equal. dlia.
    + unfold byte_of, SFS_BLOCKSIZE. rewrite Hof. assert (i = sv_i v) as -> by congruence. rewrite <- Hb.
      by rewrite (proj2 (Z.eqb_neq _ _) Hnz).
  - rewrite decide_False; [done|]. intros [-> Hr]. apply Hnot. split; [done|]. dlia.
Qed.

(** ** One block *)

Lemma data_block f g I p v fb :
  fsinv f g I -> vnodes f !! p = Some v -> bmap_of g (sv_i v) fb <> 0 ->
  is_data f (bmap_of g (sv_i v) fb) /\ zlen (g (bmap_of g (sv_i v) fb)) = SFS_BLOCKSIZE /\
  byte_list (g (bmap_of g (sv_i v) fb)).
Proof.
  intros Hi Hp Hnz. destruct (loaded _ _ _ _ _ Hi Hp) as [HI _].
  destruct (fi_used _ _ _ Hi _ _ (SData fb) HI Hnz) as [Hd _]. simpl in Hd. split; [done|].
  apply (fsv_len f); [apply Hi|destruct Hd; lia].
Qed.

Lemma byte_of_u8 f g I p v o : fsinv f g I -> vnodes f !! p = Some v -> is_u8 (byte_of g (sv_i v) o).
Proof.
  intros Hi Hp. unfold byte_of. destruct (Z.eqb_spec (bmap_of g (sv_i v) (o / SFS_BLOCKSIZE)) 0) as [|Hnz]; [done|].
  destruct (data_block f g I p v _ Hi Hp Hnz) as (_ & _ & Hb).
  destruct (zlookup _ (o mod SFS_BLOCKSIZE)) eqn:E; [|done]. simpl. by eapply Forall_zlookup.
Qed.

Lemma file_bytes_u8 f g I p v o n : fsinv f g I -> vnodes f !! p = Some v -> byte_list (file_bytes g (sv_i v) o n).
Proof.
  intros Hi Hp. apply Forall_forall. intros b (k & -> & _)%list_elem_of_fmap. by eapply byte_of_u8.
Qed.

Lemma file_bytes_app g i o n1 n2 :
  0 <= n1 -> 0 <= n2 -> file_bytes g i o (n1 + n2) = file_bytes g i o n1 ++ file_bytes g i (o + n1) n2.
Proof.
  intros H1 H2. apply zlist_eq; [rewrite zlen_app, !zlen_file_bytes; lia|]. intros k Hk.
  rewrite zlen_file_bytes in Hk by lia. rewrite zlookup_file_bytes by done.
  destruct (decide (k < n1)).
  - rewrite zlookup_app_l by (rewrite zlen_file_bytes; lia). by rewrite zlookup_file_bytes by lia.
  - rewrite zlookup_app_r, zlen_file_bytes by (rewrite ?zlen_file_bytes; lia). rewrite zlookup_file_bytes by lia.
    do 2 f_equal. lia.
Qed.

Lemma block_bytes g i fb skip n :
  0 <= skip -> 0 <= n -> skip + n <= SFS_BLOCKSIZE -> 0 <= fb ->
  (bmap_of g i fb <> 0 -> zlen (g (bmap_of g i fb)) = SFS_BLOCKSIZE) ->
  field skip n (if bmap_of g i fb =? 0 then zeros else g (bmap_of g i fb)) =
  file_bytes g i (fb * SFS_BLOCKSIZE + skip) n.
Proof.
  unfold SFS_BLOCKSIZE. intros Hs Hn Hle Hfb Hlen.
  assert (zlen (if bmap_of g i fb =? 0 then zeros else g (bmap_of g i fb)) = 512) as Hl.
  { destruct (Z.eqb_spec (bmap_of g i fb) 0); [done|auto]. }
  apply zlist_eq; [rewrite zlen_field, zlen_file_bytes; lia|]. intros k Hk. rewrite zlen_field in Hk by lia.
  rewrite zlookup_file_bytes by done. unfold field. rewrite zlookup_ztake, zlookup_zdrop by lia.
  unfold byte_of, SFS_BLOCKSIZE. assert ((fb * 512 + skip + k) / 512 = fb) as -> by dlia.
  assert ((fb * 512 + skip + k) mod 512 = skip + k) as -> by dlia.
  destruct (zlookup_is_Some (if bmap_of g i fb =? 0 then zeros else g (bmap_of g i fb)) (skip + k)) as [c Hc]; [lia|].
  rewrite Hc. f_equal. destruct (bmap_of g i fb =? 0); [|by rewrite Hc].
  pose proof (zlookup_zeros 512 (skip + k)) as Hz. change (zrep 512 0) with zeros in Hz. rewrite Hc in Hz. done.
Qed.

(** ** Progress of a transfer *)

(** [n] bytes were transferred between the file and memory at [base]. *)
Definition io_done f g I x (p base n : Z) (s : sfs_fs * xfer) : Prop :=
  match uio_dir (xu x) with
  | UIO_WRITE => exists f' g' I', s = (f', advance n x) /\
      edited f g I f' g' I' p (uio_offset (xu x)) (get_bytes x base n)
  | UIO_READ => exists f' v, vnodes f !! p = Some v /\
      s = (f', advance n (moved base (file_bytes g (sv_i v) (uio_offset (xu x)) n) x)) /\
      fsinv f' g I /\ same_mem f f'
  end.

(** The transfer failed after [k] of [n] bytes. *)
Definition io_stop f g I x (p base l n : Z) (s : sfs_fs * xfer) : Prop :=
  exists k f' x', 0 <= k <= n /\ s = (f', x') /\ xok x' (base + k) (l - k) /\ xu x' = xu (advance k x) /\
    match uio_dir (xu x) with
    | UIO_WRITE => exists g' I', edited f g I f' g' I' p (uio_offset (xu x)) (get_bytes x base k)
    | UIO_READ => fsinv f' g I /\ same_mem f f'
    end.

(** Why a transfer fails: the request ends past the largest file, its memory
    cannot be reached, or the disk is full. *)
Definition io_error (x : xfer) (e : Z) : Prop :=
  (e = EFBIG /\ MAXBLOCKS * SFS_BLOCKSIZE < uio_offset (xu x) + uio_resid (xu x)) \/
  (e = EFAULT /\ ~ reach x (iov_base (xu x)) (uio_resid (xu x))) \/
  (e = ENOSPC /\ uio_dir (xu x) = UIO_WRITE).

Lemma unreached x base l n : xok x base l -> 0 <= n <= uio_resid (xu x) -> ~ reach x base n -> ~ reach x (iov_base (xu x)) (uio_resid (xu x)).
Proof. intros Hx Hn Hnr Hr. apply Hnr. unfold iov_base in Hr. rewrite (xo_iov _ _ _ Hx) in Hr. by apply (reach_le _ _ (uio_resid (xu x))). Qed.

(** The state a transfer goes on from. *)
Record io_pre f g I x (p base l : Z) (v : sfs_vnode) : Prop := {
  ip_inv : fsinv f g I; ip_vn : vnodes f !! p = Some v; ip_x : xok x base l; ip_mem : mem_bytes x;
  ip_off : uio_offset (xu x) + uio_resid (xu x) < 2 ^ 41; ip_vol : sp_nblocks (sfs_super f) <= 2 ^ 23 }.

(** After some progress the transfer goes on as a shorter one. *)
Lemma io_then f g I x p base l v n s :
  io_pre f g I x p base l v -> 0 <= n <= uio_resid (xu x) -> io_done f g I x p base n s ->
  exists f1 g1 I1 x1 v1, s = (f1, x1) /\ io_pre f1 g1 I1 x1 p (base + n) (l - n) v1 /\ xu x1 = xu (advance n x) /\ still_mapped x x1 /\
    (forall m s', 0 <= m -> n + m <= uio_resid (xu x) ->
       io_done f1 g1 I1 x1 p (base + n) m s' -> io_done f g I x p base (n + m) s') /\
    (forall m s', 0 <= m -> n + m <= uio_resid (xu x) ->
       io_stop f1 g1 I1 x1 p (base + n) (l - n) m s' -> io_stop f g I x p base l (n + m) s').
Proof.
  intros [Hi Hp Hx Hm Ho Hvol] Hn Hd. pose proof (xo_resid _ _ _ Hx) as Hres. pose proof (xo_base _ _ _ Hx) as Hbase.
  unfold io_done in *. destruct (uio_dir (xu x)) eqn:Hdir.
  - destruct Hd as (f' & w & Hw & -> & Hi' & Hsm). simplify_eq. set (bs := file_bytes _ _ _ _).
    assert (zlen bs = n) as Hbs by (apply zlen_file_bytes; lia).
    assert (xu (advance n (moved base bs x)) = xu (advance n x)) as Hxu by (simpl; by rewrite xu_moved).
    assert (vnodes f' = vnodes f) as Ev by apply Hsm.
    exists f', g, I, (advance n (moved base bs x)), v. split; [done|]. split; [|split; [done|split; [apply still_mapped_moved|split]]].
    + split; [done|by rewrite Ev| | | |].
      * apply xok_advance; [apply xok_moved; [done|lia]|]. by rewrite xu_moved.
      * apply (mem_bytes_moved x base bs Hm). apply (file_bytes_u8 f g I p); done.
      * rewrite Hxu. simpl. lia.
      * destruct Hsm as [-> _]. done.
    + intros m s' H1 H2 Hd. rewrite Hxu in Hd. simpl in Hd. rewrite Hdir in Hd.
      destruct Hd as (f2 & v2 & Hv2 & -> & Hi2 & Hsm2). rewrite Ev in Hv2. simplify_eq.
      exists f2, v. split; [done|]. split; [|split; [done|by etrans]]. f_equal.
      rewrite file_bytes_app by lia. fold bs.
      pose proof (moved_app x base l bs (file_bytes g (sv_i v) (uio_offset (xu x) + n) m) Hx) as Hap.
      rewrite zlen_app, zlen_file_bytes, Hbs in Hap by lia. apply Hap. lia.
    + intros m s' H1 H2 (k & f2 & x2 & Hk & -> & Hx2 & Exu & Hrest). rewrite Hxu in Hrest. simpl in Hrest.
      rewrite Hdir in Hrest. cbv iota in Hrest. exists (n + k), f2, x2. split; [lia|]. split; [done|].
      split; [by replace (base + (n + k)) with (base + n + k) by lia; replace (l - (n + k)) with (l - n - k) by lia|].
      split; [|rewrite Hdir; destruct Hrest; split; [done|by etrans]]. rewrite Exu. unfold advance. simpl. rewrite xu_moved.
      rewrite (xo_iov _ _ _ Hx). f_equal; [|lia..]. do 2 f_equal; lia.
  - destruct Hd as (f' & g' & I' & -> & He). destruct (edited_vnode _ _ _ _ _ _ _ _ _ _ He Hp) as (v' & Hp' & _).
    assert (zlen (get_bytes x base n) = n) as Hbs by (eapply zlen_get_bytes; [done|lia]).
    exists f', g', I', (advance n x), v'. split; [done|]. split; [|split; [done|split; [done|split]]].
    + split; [apply He|done|by apply xok_advance|done|simpl; lia|]. by destruct (ed_rest _ _ _ _ _ _ _ _ _ He) as [-> _].
    + intros m s' H1 H2 Hd. simpl in Hd. rewrite Hdir in Hd. destruct Hd as (f2 & g2 & I2 & -> & He2).
      exists f2, g2, I2. split; [|rewrite get_bytes_app by lia; eapply edited_app; [done|by rewrite Hbs]].
      f_equal. unfold advance. simpl. rewrite (xo_iov _ _ _ Hx). do 2 f_equal; [|lia..]. do 2 f_equal; lia.
    + intros m s' H1 H2 (k & f2 & x2 & Hk & -> & Hx2 & Exu & Hrest). simpl in Hrest.
      rewrite Hdir in Hrest. cbv iota in Hrest. exists (n + k), f2, x2. split; [lia|]. split; [done|].
      split; [by replace (base + (n + k)) with (base + n + k) by lia; replace (l - (n + k)) with (l - n - k) by lia|].
      split.
      * rewrite Exu. unfold advance. simpl. rewrite (xo_iov _ _ _ Hx). f_equal; [|lia..]. do 2 f_equal; lia.
      * rewrite Hdir. destruct Hrest as (g2 & I2 & He2). exists g2, I2. rewrite get_bytes_app by lia.
        eapply edited_app; [done|by rewrite Hbs].
Qed.

Lemma io_stop_grown f g I x p base l n f' g' I' :
  xok x base l -> 0 <= n -> uio_dir (xu x) = UIO_WRITE -> grown f g I f' g' I' p ->
  io_stop f g I x p base l n (f', x).
Proof.
  intros Hx Hn Hdir Hg. exists 0, f', x. rewrite Z.add_0_r, Z.sub_0_r, (advance_0 _ _ _ Hx), Hdir.
  split; [lia|]. split_and!; try done. exists g', I'.
  rewrite get_bytes_0. by apply grown_edited.
Qed.

Lemma io_stop_faulted f g I x p base l n k f' g' I' x' :
  xok x base l -> 0 <= n -> faulted x x' base k ->
  match uio_dir (xu x) with UIO_WRITE => grown f g I f' g' I' p | UIO_READ => fsinv f' g I /\ same_mem f f' end ->
  io_stop f g I x p base l n (f', x').
Proof.
  intros Hx Hn Hf Hm. exists 0, f', x'. rewrite Z.add_0_r, Z.sub_0_r, (advance_0 _ _ _ Hx).
  split; [lia|]. split; [done|]. split; [by eapply xok_faulted|]. split; [apply Hf|].
  destruct (uio_dir (xu x)); [done|]. exists g', I'.
  rewrite get_bytes_0. by apply grown_edited.
Qed.

Lemma edited_device f g I p v fb b skip bs d f1 g1 I1 :
  grown f g I f1 g1 I1 p -> vnodes f1 !! p = Some v -> b = bmap_of g1 (sv_i v) fb -> b <> 0 ->
  0 <= skip -> skip + zlen bs <= SFS_BLOCKSIZE -> 0 <= fb ->
  fsv (put_device d f1) (write_block g1 b (zsplice (g1 b) skip bs)) ->
  edited f g I (put_device d f1) (write_block g1 b (zsplice (g1 b) skip bs)) I1 p (fb * SFS_BLOCKSIZE + skip) bs.
Proof.
  intros Hg Hp Hb Hnz Hs Hl Hfb Hv. change bs with ([] ++ bs) at 2. eapply edited_app; [by apply grown_edited|].
  change (zlen []) with 0. rewrite Z.add_0_r. eapply data_edited; try done; [apply Hg|].
  subst b. eapply data_block; [apply Hg|done|done].
Qed.

Lemma bmap_io f g I x p v base l n fb (Q : Z -> sfs_fs -> Prop) :
  io_pre f g I x p base l v -> 0 <= n -> 0 <= fb < 2 ^ 32 -> fb * SFS_BLOCKSIZE < uio_offset (xu x) + uio_resid (xu x) ->
  (forall b f' g' I' v', grown f g I f' g' I' p -> vnodes f' !! p = Some v' -> b = bmap_of g' (sv_i v') fb ->
     match uio_dir (xu x) with
     | UIO_WRITE => b <> 0
     | UIO_READ => g' = g /\ I' = I /\ v' = v /\ same_mem f f' end -> Q b f') ->
  runs (sfs_bmap p fb (is_write (xu x)) f) Q
    (fun e f' => io_error x e /\ io_stop f g I x p base l n (f', x)).
Proof.
  intros [Hi Hp Hx Hm Ho Hvol] Hn Hfb Hlt HQ. unfold is_write. eapply bmap_spec; [done|done|done| |].
  - intros b f' g' I' v' Hg Hp' Hb _ H1 H2. eapply HQ; try done. destruct (uio_dir (xu x)); auto.
  - intros e f' g' I' Hg He Hs. destruct (uio_dir (xu x)) eqn:Hdir.
    + destruct Hs as [-> ->]; [done|]. destruct He as [?|[_ He]]; [done|]. split; [left; split; [done|]; unfold SFS_BLOCKSIZE in *; lia|]. exists 0, f, x.
      rewrite Z.add_0_r, Z.sub_0_r, (advance_0 _ _ _ Hx), Hdir. split; [lia|]. done.
    + split; [|by eapply io_stop_grown]. destruct He as [->|[-> He]]; [by right; right|left].
      split; [done|]. unfold SFS_BLOCKSIZE in *. lia.
Qed.

Lemma grown_device f g I f' g' I' p d :
  grown f g I f' g' I' p -> fsv (put_device d f') g' -> grown f g I (put_device d f') g' I' p.
Proof. intros [Hi Hs Hr Hv] Hf. split; [by apply fsinv_device|done..]. Qed.

(** The block a partial transfer works on. *)
Lemma fetch_spec f g I f1 g1 I1 x p v1 fb b (Q : list Z -> sfs_fs * xfer -> Prop) R :
  grown f g I f1 g1 I1 p -> vnodes f1 !! p = Some v1 -> b = bmap_of g1 (sv_i v1) fb ->
  match uio_dir (xu x) with UIO_WRITE => b <> 0 | UIO_READ => same_mem f f1 end ->
  (forall f2 buf, grown f g I f2 g1 I1 p -> vnodes f2 !! p = Some v1 ->
     match uio_dir (xu x) with UIO_WRITE => True | UIO_READ => same_mem f f2 end ->
     buf = (if bmap_of g1 (sv_i v1) fb =? 0 then zeros else g1 (bmap_of g1 (sv_i v1) fb)) -> Q buf (f2, x)) ->
  runs ((if b =? 0 then KASSERT (negb (is_write (xu x))) ;; ret (zrep SFS_BLOCKSIZE 0) else lift (sfs_rblock b)) (f1, x)) Q R.
Proof.
  intros Hg Hp Hb Hcase HQ. rewrite <- Hb in HQ. destruct (Z.eqb_spec b 0) as [->|Hnz].
  - runs_steps. apply runs_KASSERT; [unfold is_write; by destruct (uio_dir (xu x))|]. runs_steps. apply HQ; try done.
    by destruct (uio_dir (xu x)).
  - destruct (data_block f1 g1 I1 p v1 fb) as (Hd & _); [apply Hg|done|congruence|].
    unfold lift. runs_steps. simpl. eapply rblock_spec; [apply (gr_inv _ _ _ _ _ _ _ Hg)|rewrite <- Hb in Hd; destruct Hd; lia|].
    intros d Hf. simpl. apply HQ; [by apply grown_device|done| |done]. by destruct (uio_dir (xu x)).
Qed.

Lemma write_is_write x : is_write (xu x) = match uio_dir (xu x) with UIO_WRITE => true | UIO_READ => false end.
Proof. unfold is_write. by destruct (uio_dir (xu x)). Qed.

(** The transfer between the block and memory, and the block written back. *)
Lemma partial_move f g I x p base l v f2 g1 I1 v1 fb b skip n buf :
  io_pre f g I x p base l v -> 0 <= n <= uio_resid (xu x) -> 0 <= skip -> skip + n <= SFS_BLOCKSIZE -> 0 <= fb ->
  uio_offset (xu x) = fb * SFS_BLOCKSIZE + skip ->
  grown f g I f2 g1 I1 p -> vnodes f2 !! p = Some v1 -> b = bmap_of g1 (sv_i v1) fb ->
  buf = (if bmap_of g1 (sv_i v1) fb =? 0 then zeros else g1 (bmap_of g1 (sv_i v1) fb)) ->
  match uio_dir (xu x) with
  | UIO_WRITE => b <> 0
  | UIO_READ => g1 = g /\ I1 = I /\ v1 = v /\ same_mem f f2 end ->
  runs (uiomove (field skip n buf) x)
    (fun part x' => runs ((if* is_write (xu x) then lift (sfs_wblock (zsplice buf skip part) b)) (f2, x'))
       (fun _ s => io_done f g I x p base n s) (fun e s => io_error x e /\ io_stop f g I x p base l n s))
    (fun e x' => io_error x e /\ io_stop f g I x p base l n (f2, x')).
Proof.
  intros [Hi Hp Hx Hm Ho Hvol] Hn Hs Hle Hfb Hoff Hg Hp2 Hb Hbuf Hcase.
  assert (bmap_of g1 (sv_i v1) fb <> 0 -> zlen (g1 (bmap_of g1 (sv_i v1) fb)) = SFS_BLOCKSIZE) as Hblk
    by (intros; eapply data_block; [apply Hg|done|done]).
  assert (zlen buf = SFS_BLOCKSIZE) as Hlb by (rewrite Hbuf; destruct (Z.eqb_spec (bmap_of g1 (sv_i v1) fb) 0); [done|auto]).
  assert (zlen (field skip n buf) = n) as Hlf by (apply zlen_field; lia).
  eapply runs_mono; [apply (uiomove_spec x base l); [done|lia]| |]; cbv beta; rewrite Hlf.
  - intros part x' (_ & -> & ->). rewrite write_is_write. unfold io_done. destruct (uio_dir (xu x)) eqn:Hdir.
    + destruct Hcase as (-> & -> & -> & Hsm). exists f2, v. split; [done|]. split; [|split; [apply Hg|done]].
      rewrite Hbuf, block_bytes, Hoff by (done || lia). done.
    + rewrite (proj2 (Z.eqb_neq _ _)) in Hbuf by congruence. rewrite <- Hb in Hbuf, Hblk.
      assert (zlen (get_bytes x base n) = n) as Hgb by (eapply zlen_get_bytes; [done|]; pose proof (xo_resid _ _ _ Hx); lia).
      destruct (data_block f2 g1 I1 p v1 fb) as ([Hd _] & _ & Hby); [apply Hg|done|congruence|]. rewrite <- Hb in Hd, Hby.
      cbv iota. unfold lift. runs_steps. eapply wblock_spec; [apply (gr_inv _ _ _ _ _ _ _ Hg)|simpl; lia| | |].
      * rewrite zlen_zsplice; lia.
      * rewrite Hbuf. apply Forall_zsplice; [done|by apply get_bytes_bytes].
      * intros d Hf. exists (put_device d f2), (write_block g1 b (zsplice (g1 b) skip (get_bytes x base n))), I1.
        unfold moved. rewrite Hdir. split; [done|]. rewrite Hoff. eapply edited_device; try done; [lia|].
        by rewrite <- Hbuf.
  - intros e x' (-> & Hnr & Hf). split; [right; left; split; [done|by apply (unreached x base l n)]|]. eapply io_stop_faulted; [done|lia|done|].
    destruct (uio_dir (xu x)); [|done]. destruct Hcase as (-> & -> & _ & ?). split; [apply Hg|done].
Qed.

Lemma partialio_spec f g I x p base l v skip n :
  io_pre f g I x p base l v -> skip = uio_offset (xu x) mod SFS_BLOCKSIZE -> 0 <= n -> 0 < skip + n -> skip + n <= SFS_BLOCKSIZE ->
  n <= uio_resid (xu x) ->
  runs (sfs_partialio p skip n (f, x)) (fun _ s => io_done f g I x p base n s)
    (fun e s => io_error x e /\ io_stop f g I x p base l n s).
Proof.
  intros Hpre Hskip Hn Hpos Hle Hnr. pose proof Hpre as [Hi Hp Hx Hm Ho Hvol].
  pose proof (xo_offset _ _ _ Hx) as Hoff. pose proof (xo_resid _ _ _ Hx) as Hres.
  set (o := uio_offset (xu x)) in *. set (fb := o / SFS_BLOCKSIZE).
  assert (0 <= fb < 2 ^ 32 /\ 0 <= skip /\ o = fb * SFS_BLOCKSIZE + skip) as (Hfb & Hs0 & Ho') by (unfold fb, SFS_BLOCKSIZE in *; dlia).
  unfold sfs_partialio, lift, lift_x. runs_steps. simpl.
  apply runs_KASSERT; [apply Z.leb_le; unfold SFS_BLOCKSIZE in *; rewrite u32_small; unfold is_u32; lia|].
  fold o. assert (u32 (Z.quot o SFS_BLOCKSIZE) = fb) as -> by (unfold fb, SFS_BLOCKSIZE in *; rewrite Z.quot_div_nonneg by lia; by apply u32_small).
  runs_steps. simpl. eapply bmap_io; [done|lia|done|fold o; unfold SFS_BLOCKSIZE in *; lia|]. intros b f1 g1 I1 v1 Hg Hp1 Hb Hcase. simpl.
  runs_steps. eapply fetch_spec; [done|done|done|destruct (uio_dir (xu x)); naive_solver|].
  intros f2 buf Hg2 Hp2 Hsm Hbuf. runs_steps. simpl. eapply (partial_move _ _ _ _ _ _ _ _ _ _ _ _ fb); try done; [lia|].
  destruct (uio_dir (xu x)); naive_solver.
Qed.

Lemma file_bytes_hole g i fb :
  0 <= fb -> bmap_of g i fb = 0 -> file_bytes g i (fb * SFS_BLOCKSIZE) SFS_BLOCKSIZE = zrep SFS_BLOCKSIZE 0.
Proof.
  intros Hfb Hz. pose proof (block_bytes g i fb 0 SFS_BLOCKSIZE ltac:(done) ltac:(done) ltac:(done) Hfb) as Hb.
  rewrite Hz, Z.add_0_r in Hb. rewrite <- Hb by done. done.
Qed.

Lemma file_bytes_block g i fb :
  0 <= fb -> bmap_of g i fb <> 0 -> zlen (g (bmap_of g i fb)) = SFS_BLOCKSIZE ->
  file_bytes g i (fb * SFS_BLOCKSIZE) SFS_BLOCKSIZE = g (bmap_of g i fb).
Proof.
  intros Hfb Hnz Hl. pose proof (block_bytes g i fb 0 SFS_BLOCKSIZE ltac:(done) ltac:(done) ltac:(done) Hfb) as Hb.
  rewrite (proj2 (Z.eqb_neq _ _) Hnz), Z.add_0_r in Hb. rewrite <- Hb by done.
  unfold field. rewrite zdrop_0. apply ztake_all. lia.
Qed.

(** A hole reads as zeros. *)
Lemma hole_spec f g I x p base l v f1 fb :
  io_pre f g I x p base l v -> uio_dir (xu x) = UIO_READ -> SFS_BLOCKSIZE <= uio_resid (xu x) ->
  uio_offset (xu x) = fb * SFS_BLOCKSIZE -> 0 <= fb -> bmap_of g (sv_i v) fb = 0 -> fsinv f1 g I -> same_mem f f1 ->
  runs (uiomovezeros SFS_BLOCKSIZE x)
    (fun _ x' => io_done f g I x p base SFS_BLOCKSIZE (f1, x'))
    (fun e x' => io_error x e /\ io_stop f g I x p base l SFS_BLOCKSIZE (f1, x')).
Proof.
  intros [Hi Hp Hx Hm Ho Hvol] Hdir Hres Hoff Hfb Hz Hi1 Hsm. unfold uiomovezeros. runs_steps.
  apply runs_KASSERT; [by apply bool_decide_true|].
  eapply runs_mono; [eapply uiomovezeros_loop_spec; [done|done| |]; unfold SFS_BLOCKSIZE in *; lia| |]; cbv beta.
  - intros _ x' ->. unfold io_done. rewrite Hdir. exists f1, v. split; [done|]. split; [|done].
    rewrite Hoff, file_bytes_hole by done. unfold moved. by rewrite Hdir.
  - intros e x' (-> & Hnr & k & Hk & Hx' & Exu). split; [right; left; split; [done|apply (unreached x base l SFS_BLOCKSIZE); [done|done|exact Hnr]]|]. exists k, f1, x'. rewrite Hdir. done.
Qed.

(** A whole block goes between the disk and memory; the uio is put back. *)
Lemma direct_io f g I x p base l v f1 g1 I1 v1 fb b :
  io_pre f g I x p base l v -> SFS_BLOCKSIZE <= uio_resid (xu x) -> uio_offset (xu x) = fb * SFS_BLOCKSIZE ->
  0 <= fb -> grown f g I f1 g1 I1 p -> vnodes f1 !! p = Some v1 -> b = bmap_of g1 (sv_i v1) fb -> b <> 0 ->
  (uio_dir (xu x) = UIO_READ -> g1 = g /\ I1 = I /\ v1 = v /\ same_mem f f1) ->
  runs (sfs_rwblock (f1, redirect (b * SFS_BLOCKSIZE) SFS_BLOCKSIZE x))
    (fun _ s => exists y, snd s = redirect (b * SFS_BLOCKSIZE + SFS_BLOCKSIZE) 0 y /\
       uio_offset (xu y) = uio_offset (xu x) + SFS_BLOCKSIZE /\ uio_resid (xu y) = uio_resid (xu x) - SFS_BLOCKSIZE /\
       io_done f g I x p base SFS_BLOCKSIZE (fst s, y))
    (fun e s => exists y, snd s = redirect (b * SFS_BLOCKSIZE) SFS_BLOCKSIZE y /\
       uio_offset (xu y) = uio_offset (xu x) /\ uio_resid (xu y) = uio_resid (xu x) /\
       io_error x e /\ io_stop f g I x p base l SFS_BLOCKSIZE (fst s, y)).
Proof.
  intros [Hi Hp Hx Hm Ho Hvol] Hnr Hoff Hfb Hg Hp1 Hb Hnz Hcase.
  pose proof (xo_resid _ _ _ Hx) as Hres. pose proof (xo_base _ _ _ Hx) as Hbase.
  destruct (data_block f1 g1 I1 p v1 fb) as ([Hd _] & Hlen & _); [apply Hg|done|congruence|]. rewrite <- Hb in Hd, Hlen.
  assert (sp_nblocks (sfs_super f1) = sp_nblocks (sfs_super f)) as Hsup by (by destruct (gr_rest _ _ _ _ _ _ _ Hg) as [-> _]).
  eapply runs_mono; [eapply rwblock_spec with (b := b) (g := g1); try done| |].
  - apply (gr_inv _ _ _ _ _ _ _ Hg).
  - apply xok_redirect; [done|unfold SFS_BLOCKSIZE in *; lia..].
  - lia.
  - intros _. by apply (get_bytes_bytes x).
  - intros _ s (_ & d & -> & Hf). exists (advance SFS_BLOCKSIZE (moved base (g1 b) x)). simpl.
    split; [by rewrite redirect_moved|]. rewrite xu_moved. split; [done|]. split; [done|]. unfold io_done. simpl in Hf.
    destruct (uio_dir (xu x)) eqn:Hdir.
    + destruct Hcase as (-> & -> & -> & Hsm); [done|]. exists (put_device d f1), v. split; [done|]. split.
      * rewrite Hoff, file_bytes_block by congruence. by rewrite Hb.
      * split; [|done]. by apply (grown_device _ _ _ _ _ _ _ d Hg).
    + exists (put_device d f1). eexists. exists I1. split; [unfold moved; by rewrite Hdir|]. rewrite Hoff.
      rewrite <- (Z.add_0_r (fb * SFS_BLOCKSIZE)).
      assert (zlen (get_bytes x base SFS_BLOCKSIZE) = SFS_BLOCKSIZE) as Hgl by (eapply zlen_get_bytes; [done|]; unfold SFS_BLOCKSIZE in *; lia).
      eapply edited_device; try done; [by rewrite Hgl|].
      assert (zsplice (g1 b) 0 (get_bytes x base SFS_BLOCKSIZE) = get_bytes x base SFS_BLOCKSIZE) as ->; [|done].
      unfold zsplice, zdrop. rewrite Hgl, drop_ge by (unfold zlen in Hlen; lia). by rewrite app_nil_r.
  - intros e s (-> & Hun & d & x' & -> & Hf & Hfl).
    exists (redirect (uio_offset (xu x)) (uio_resid (xu x)) x'). simpl. destruct Hfl as (E & Hrest).
    split; [|split; [done|split; [done|split; [right; left; split; [done|apply (unreached x base l SFS_BLOCKSIZE); [done|done|exact Hun]]|]]]].
    + destruct x' as [[] ???]. simpl in E. unfold redirect, with_offset, with_resid in *. simpl in *. by injection E as -> -> -> -> -> ->.
    + eapply (io_stop_faulted _ _ _ _ _ _ _ _ SFS_BLOCKSIZE); [done|done| |].
      * destruct Hrest as (? & ? & ? & ? & ?). split; [|done]. simpl. rewrite E. by destruct x as [[] ???].
      * destruct (uio_dir (xu x)) eqn:Hdir; [|by apply grown_device].
        destruct Hcase as (-> & -> & -> & Hsm); [done|]. split; [|done]. by apply (grown_device _ _ _ _ _ _ _ d Hg).
Qed.

Lemma blockio_spec f g I x p base l v :
  io_pre f g I x p base l v -> uio_offset (xu x) mod SFS_BLOCKSIZE = 0 -> SFS_BLOCKSIZE <= uio_resid (xu x) ->
  runs (sfs_blockio p (f, x)) (fun _ s => io_done f g I x p base SFS_BLOCKSIZE s)
    (fun e s => io_error x e /\ io_stop f g I x p base l SFS_BLOCKSIZE s).
Proof.
  intros Hpre Hal Hnr. pose proof Hpre as [Hi Hp Hx Hm Ho Hvol].
  pose proof (xo_offset _ _ _ Hx) as Hoff. pose proof (xo_resid _ _ _ Hx) as Hres. pose proof (xo_base _ _ _ Hx) as Hbase.
  set (o := uio_offset (xu x)) in *. set (fb := o / SFS_BLOCKSIZE).
  assert (0 <= fb < 2 ^ 32 /\ o = fb * SFS_BLOCKSIZE) as (Hfb & Ho') by (unfold fb, SFS_BLOCKSIZE in *; dlia).
  unfold sfs_blockio, lift, lift_x. runs_steps. simpl.
  fold o. assert (u32 (Z.quot o SFS_BLOCKSIZE) = fb) as -> by (unfold fb, SFS_BLOCKSIZE in *; rewrite Z.quot_div_nonneg by lia; by apply u32_small).
  eapply bmap_io; [done|done|done|fold o; unfold SFS_BLOCKSIZE in *; lia|]. intros b f1 g1 I1 v1 Hg Hp1 Hb Hcase. simpl.
  destruct (Z.eqb_spec b 0) as [Hz|Hnz].
  - destruct (uio_dir (xu x)) eqn:Hdir; [|done]. destruct Hcase as (-> & -> & -> & Hsm).
    runs_steps. apply runs_KASSERT; [by rewrite write_is_write, Hdir|]. runs_steps. simpl.
    eapply (hole_spec _ _ _ _ _ _ _ _ _ fb); try done; [lia|congruence|apply Hg].
  - unfold upd_uio. runs_steps. simpl. apply runs_KASSERT; [lia|]. runs_steps. simpl.
    assert (u32 (b * SFS_BLOCKSIZE) = b * SFS_BLOCKSIZE) as ->.
    { destruct (data_block f1 g1 I1 p v1 fb) as ([Hd _] & _); [apply Hg|done|congruence|]. rewrite <- Hb in Hd.
      destruct (gr_rest _ _ _ _ _ _ _ Hg) as [Es _]. rewrite Es in Hd. apply u32_small. unfold is_u32, SFS_BLOCKSIZE. lia. }
    eapply runs_mono; [eapply (direct_io f g I x p base l v f1 g1 I1 v1 fb b); try done; [lia|]| |]; cbv beta.
    + intros Hdir. by rewrite Hdir in Hcase.
    + intros _ [f2 x2] (y & -> & Eo & Er & Hd). simpl in *.
      match goal with |- context [(f2, ?z)] => assert (z = y) as ->; [|done] end. apply redirect_back.
      * unfold SFS_BLOCKSIZE in *. rewrite (s64_small (_ - _)) by lia. rewrite s64_small; lia.
      * rewrite u32_small; unfold is_u32, SFS_BLOCKSIZE in *; lia.
    + intros e [f2 x2] (y & -> & Eo & Er & He & Hd). simpl in *.
      match goal with |- context [(f2, ?z)] => assert (z = y) as ->; [|done] end. apply redirect_back.
      * unfold SFS_BLOCKSIZE in *. rewrite (s64_small (_ - _)) by lia. rewrite s64_small; lia.
      * rewrite u32_small; unfold is_u32, SFS_BLOCKSIZE in *; lia.
Qed.

(** ** The whole transfer *)

Lemma io_zero f g I x p base l v : io_pre f g I x p base l v -> io_done f g I x p base 0 (f, x).
Proof.
  intros [Hi Hp Hx Hm Ho Hvol]. unfold io_done. destruct (uio_dir (xu x)) eqn:Hdir.
  - exists f, v. split; [done|]. split; [|done]. change (file_bytes g (sv_i v) (uio_offset (xu x)) 0) with (@nil Z).
    by rewrite (moved_nil _ _ _ Hx), (advance_0 _ _ _ Hx).
  - exists f, g, I. rewrite (advance_0 _ _ _ Hx), get_bytes_0. split; [done|]. apply grown_edited, grown_refl; [done|by eexists].
Qed.

Lemma io_stop_le f g I x p base l n m s : n <= m -> io_stop f g I x p base l n s -> io_stop f g I x p base l m s.
Proof. intros Hnm (k & f' & x' & Hk & Hrest). exists k, f', x'. split; [lia|done]. Qed.

(** One part of a transfer after another. *)
Lemma io_bind f g I x p base l v n m (m1 m2 : M (sfs_fs * xfer) unit) :
  io_pre f g I x p base l v -> 0 <= n -> 0 <= m -> n + m <= uio_resid (xu x) ->
  runs (m1 (f, x)) (fun _ s => io_done f g I x p base n s) (fun e s => io_error x e /\ io_stop f g I x p base l n s) ->
  (forall f1 g1 I1 x1 v1, io_pre f1 g1 I1 x1 p (base + n) (l - n) v1 -> xu x1 = xu (advance n x) ->
     runs (m2 (f1, x1)) (fun _ s => io_done f1 g1 I1 x1 p (base + n) m s)
       (fun e s => io_error x1 e /\ io_stop f1 g1 I1 x1 p (base + n) (l - n) m s)) ->
  runs ((m1 ;; m2) (f, x)) (fun _ s => io_done f g I x p base (n + m) s)
    (fun e s => io_error x e /\ io_stop f g I x p base l (n + m) s).
Proof.
  intros Hpre Hn Hm Hle H1 H2. runs_steps. eapply runs_mono; [exact H1| |]; cbv beta.
  - intros _ s Hd. destruct (io_then f g I x p base l v n s Hpre ltac:(lia) Hd) as (f1 & g1 & I1 & x1 & v1 & -> & Hp1 & Hxu & Hst & A & B).
    eapply runs_mono; [by eapply H2| |]; cbv beta.
    + intros _ s Hd2. by apply A.
    + intros e s [He Hs]. split; [|by apply B]. unfold io_error, iov_base in *. rewrite Hxu in He. simpl in He.
      rewrite (xo_iov _ _ _ (ip_x _ _ _ _ _ _ _ _ Hpre)) in *. destruct He as [[-> He]|[[-> He]|He]]; [left; split; [done|lia]|right; left|by right; right].
      split; [done|]. contradict He. apply (reach_part x x1 base (uio_resid (xu x))); [done|lia..|done].
  - intros e s [He Hs]. split; [done|]. eapply io_stop_le; [|done]. lia.
Qed.

Lemma io_blocks_spec (n : nat) f g I x p base l v :
  io_pre f g I x p base l v -> uio_offset (xu x) mod SFS_BLOCKSIZE = 0 -> Z.of_nat n * SFS_BLOCKSIZE <= uio_resid (xu x) ->
  runs (io_blocks n p (f, x)) (fun _ s => io_done f g I x p base (Z.of_nat n * SFS_BLOCKSIZE) s)
    (fun e s => io_error x e /\ io_stop f g I x p base l (Z.of_nat n * SFS_BLOCKSIZE) s).
Proof.
  revert f g I x base l v. induction n as [|n IH]; intros f g I x base l v Hpre Hal Hle; cbn [io_blocks].
  { by eapply io_zero. }
  replace (Z.of_nat (S n) * SFS_BLOCKSIZE) with (SFS_BLOCKSIZE + Z.of_nat n * SFS_BLOCKSIZE) in * by lia.
  unfold SFS_BLOCKSIZE in *. eapply io_bind; [done|lia|lia|lia|eapply blockio_spec; [done|done|unfold SFS_BLOCKSIZE; lia]|].
  intros f1 g1 I1 x1 v1 Hpre1 Hxu. eapply IH; [done| |]; rewrite Hxu; simpl; [|lia]. dlia.
Qed.

Lemma io_body_spec f g I x p base l v :
  io_pre f g I x p base l v ->
  runs (io_body p (f, x)) (fun _ s => io_done f g I x p base (uio_resid (xu x)) s)
    (fun e s => io_error x e /\ io_stop f g I x p base l (uio_resid (xu x)) s).
Proof.
  intros Hpre. pose proof Hpre as [Hi Hp Hx Hm Ho Hvol]. pose proof (xo_offset _ _ _ Hx) as Hoff. pose proof (xo_resid _ _ _ Hx) as Hres.
  unfold io_body. runs_step. runs_step. simpl. set (o := uio_offset (xu x)) in *. set (r := uio_resid (xu x)) in *.
  assert (u32 (Z.rem o SFS_BLOCKSIZE) = o mod SFS_BLOCKSIZE) as -> by (unfold SFS_BLOCKSIZE; rewrite Z.rem_mod_nonneg, u32_small; unfold is_u32; dlia).
  set (bo := o mod SFS_BLOCKSIZE). set (len := if r <? SFS_BLOCKSIZE - bo then r else SFS_BLOCKSIZE - bo).
  set (n := if bo =? 0 then 0 else len).
  assert (0 <= n <= r /\ (n = r \/ (o + n) mod SFS_BLOCKSIZE = 0)) as [Hn Hal].
  { unfold n, len, bo, SFS_BLOCKSIZE in *. repeat bool_case; dlia. }
  replace r with (n + (r - n)) by lia. eapply io_bind; [done|lia|lia|lia| |].
  - unfold n. destruct (Z.eqb_spec bo 0) as [Hz|Hnz]; simpl; [by eapply io_zero|].
    fold len. eapply partialio_spec; try done; unfold len, bo, SFS_BLOCKSIZE in *; repeat bool_case; dlia.
  - intros f1 g1 I1 x1 v1 Hpre1 Hxu. runs_step. runs_step. simpl. rewrite Hxu. simpl. fold r o.
    destruct (Z.eqb_spec (r - n) 0) as [->|Hnz].
    { by eapply io_zero. }
    destruct Hal as [?|Hal]; [lia|]. set (q := (r - n) / SFS_BLOCKSIZE). set (t := (r - n) mod SFS_BLOCKSIZE).
    assert (0 <= q /\ 0 <= t < SFS_BLOCKSIZE /\ r - n = q * SFS_BLOCKSIZE + t) as (Hq & Ht & Hrn) by (unfold q, t, SFS_BLOCKSIZE; dlia).
    runs_step. apply runs_KASSERT.
    { apply Z.eqb_eq. unfold SFS_BLOCKSIZE in *. rewrite Z.rem_mod_nonneg by lia. done. }
    pose proof (io_blocks_spec (Z.to_nat q) f1 g1 I1 x1 p _ _ v1 Hpre1) as Hblocks. rewrite Z2Nat.id in Hblocks by done.
    rewrite Hrn. eapply io_bind; [done|unfold SFS_BLOCKSIZE; lia|lia|rewrite Hxu; simpl; lia|apply Hblocks; rewrite Hxu; simpl; [done|lia]|].
    intros f2 g2 I2 x2 v2 Hpre2 Hxu2. runs_step. runs_step. simpl. rewrite Hxu2. simpl. rewrite Hxu. simpl. fold o r.
    replace (r - n - q * SFS_BLOCKSIZE) with t by lia.
    runs_step. apply runs_KASSERT; [lia|]. destruct (Z.ltb_spec 0 t); [|replace t with 0 by lia; by eapply io_zero].
    eapply partialio_spec; [done| |lia|lia|lia|]; rewrite Hxu2; simpl; rewrite Hxu; simpl; fold o; [|fold r; lia].
    unfold SFS_BLOCKSIZE in *. dlia.
Qed.

(** ** The file after a write *)

(** The size of a file of [size] bytes once the position reached [pos]. *)
Definition new_size (size pos : Z) : Z := if size <? pos then u32 pos else size.

(** The bytes [bs] were written at [off] of inode [ino]. *)
Definition files_stored g I g' I' (ino off : Z) (bs : list Z) : Prop :=
  forall n, match I !! n, I' !! n with
    | Some i, Some i' =>
        sfi_size i' = (if decide (n = ino) then new_size (sfi_size i) (off + zlen bs) else sfi_size i) /\
        sfi_type i' = sfi_type i /\ sfi_linkcount i' = sfi_linkcount i /\
        forall o, 0 <= o -> byte_of g' i' o =
          if decide (n = ino /\ off <= o < off + zlen bs) then default 0 (zlookup bs (o - off)) else byte_of g i o
    | None, None => True
    | _, _ => False
    end.

Record stored f g I f' g' I' (p off : Z) (bs : list Z) : Prop := {
  st_inv : fsinv f' g' I';
  st_rest : sfs_super f' = sfs_super f /\ sfs_superdirty f' = sfs_superdirty f /\ sfs_vnodes f' = sfs_vnodes f /\
    next_vnode f' = next_vnode f /\ vfs_biglock_depth f' = vfs_biglock_depth f /\ oracle f' = oracle f;
  st_vn : exists v v', vnodes f !! p = Some v /\ vnodes f' = <[p := v']> (vnodes f) /\ revised v v' (sv_i v') /\
    files_stored g I g' I' (sv_ino v) off bs }.

(** A new inode with the same blocks. *)
Lemma fsinv_meta f g I p v i' :
  fsinv f g I -> vnodes f !! p = Some v -> inode_wf i' -> sfi_type i' = sfi_type (sv_i v) ->
  sfi_direct i' = sfi_direct (sv_i v) -> sfi_indirect i' = sfi_indirect (sv_i v) ->
  fsinv (set_vn p (with_dirty true (with_inode i' v)) f) g (<[sv_ino v := i']> I).
Proof.
  intros Hi Hp Hwf Ht Hd Hn. eapply (fsinv_revise f g I _ g p v _ i' SInode 0); try done.
  - unfold revised. by split_and!.
  - by destruct (fi_view _ _ _ Hi).
  - by left.
  - intros sl. right. left. destruct sl; simpl; [done|done|]. unfold bmap_of. by rewrite Hd, Hn.
  - by left.
Qed.

Lemma byte_of_meta g i i' o :
  sfi_direct i' = sfi_direct i -> sfi_indirect i' = sfi_indirect i -> byte_of g i' o = byte_of g i o.
Proof. intros Hd Hn. unfold byte_of, bmap_of. by rewrite Hd, Hn. Qed.

Lemma files_edited_stored g I g1 I1 I2 ino off bs i1 i2 :
  files_edited g I g1 I1 ino off bs -> I1 !! ino = Some i1 -> I2 = <[ino := i2]> I1 ->
  sfi_size i2 = new_size (sfi_size i1) (off + zlen bs) -> sfi_type i2 = sfi_type i1 ->
  sfi_linkcount i2 = sfi_linkcount i1 -> sfi_direct i2 = sfi_direct i1 -> sfi_indirect i2 = sfi_indirect i1 ->
  files_stored g I g1 I2 ino off bs.
Proof.
  intros Hfe HI -> Hsz Hty Hlc Hd Hn n. specialize (Hfe n). destruct (decide (n = ino)) as [->|Hne].
  - rewrite lookup_insert_eq. rewrite HI in Hfe. destruct (I !! ino); [|done].
    destruct Hfe as (E1 & E2 & E3 & E4). rewrite Hsz, Hty, Hlc, E1. split; [done|]. split; [done|]. split; [done|].
    intros o Ho. rewrite (byte_of_meta g1 i1 i2) by done. by apply E4.
  - by rewrite lookup_insert_ne by done.
Qed.

Lemma size_wf i n : inode_wf i -> is_u32 n -> inode_wf (with_size n i).
Proof. intros [] Hn. by split. Qed.

(** The label [out] of a write. *)
Lemma io_out_write f g I f1 g1 I1 x p off bs :
  edited f g I f1 g1 I1 p off bs -> uio_dir (xu x) = UIO_WRITE -> uio_offset (xu x) = off + zlen bs ->
  is_u32 (uio_resid (xu x)) ->
  returns (io_out p 0 (f1, x)) (fun _ s => exists f2 I2, s = (f2, x) /\ stored f g I f2 g1 I2 p off bs).
Proof.
  intros He Hdir Hoff Hres. pose proof He as [Hi1 Hrest (v & v' & Hp & Hvn & Hrev & Hfe)].
  assert (vnodes f1 !! p = Some v') as Hp1 by (by rewrite Hvn, lookup_insert_eq).
  assert (sv_ino v' = sv_ino v) as Hino by apply Hrev.
  destruct (loaded _ _ _ _ _ Hi1 Hp1) as [HI1 Hwf]. rewrite Hino in HI1.
  assert (mkXfer (with_resid (u32 (uio_resid (xu x) + 0)) (xu x)) (kmem x) (us x) (curproc_as x) = x) as Hx.
  { rewrite Z.add_0_r, u32_small by done. by destruct x as [[] ???]. }
  unfold io_out, lift, lift_x. runs_steps. simpl. eapply runs_get_sv; [done|]. simpl.
  rewrite write_is_write, Hdir, Hoff. simpl. runs_steps. simpl. destruct (Z.ltb_spec (sfi_size (sv_i v')) (off + zlen bs)) as [Hlt|Hge].
  - runs_steps. simpl. eapply runs_upd_sv; [done|]. runs_steps. simpl. eapply runs_upd_sv; [apply set_vn_lookup|].
    simpl. rewrite Hx, set_vn_twice. eexists _, _. split; [done|].
    set (i2 := with_size (u32 (off + zlen bs)) (sv_i v')).
    pose proof (fsinv_meta f1 g1 I1 p v' i2 Hi1 Hp1 ltac:(apply size_wf; [done|apply u32_range]) eq_refl eq_refl eq_refl) as Hi2.
    split; [exact Hi2|exact Hrest|]. exists v, (with_dirty true (with_inode i2 v')). split; [done|].
    split; [simpl; by rewrite Hvn, insert_insert_eq|]. split.
    + destruct Hrev as (?&?&?&?&?&?). unfold revised. simpl. by split_and!.
    + rewrite Hino. eapply (files_edited_stored _ _ _ I1); try done. unfold new_size. by rewrite (proj2 (Z.ltb_lt _ _) Hlt).
  - runs_steps. simpl. rewrite Hx. exists f1, I1. split; [done|]. split; [exact Hi1|exact Hrest|].
    exists v, v'. split; [done|]. split; [done|]. split; [done|].
    eapply (files_edited_stored _ _ _ I1 _ _ _ _ (sv_i v') (sv_i v')); try done; [by rewrite insert_id|].
    unfold new_size. by rewrite (proj2 (Z.ltb_ge _ _) Hge).
Qed.

Lemma sfs_io_write f g I x p base l v :
  io_pre f g I x p base l v -> uio_dir (xu x) = UIO_WRITE ->
  let n := uio_resid (xu x) in
  runs (sfs_io p (f, x))
    (fun _ s => exists f' g' I', s = (f', advance n x) /\
       stored f g I f' g' I' p (uio_offset (xu x)) (get_bytes x base n))
    (fun e s => io_error x e /\ exists k f' g' I' x', 0 <= k <= n /\ s = (f', x') /\ xu x' = xu (advance k x) /\
       stored f g I f' g' I' p (uio_offset (xu x)) (get_bytes x base k)).
Proof.
  intros Hpre Hdir n. pose proof Hpre as [Hi Hp Hx Hm Ho Hvol].
  pose proof (xo_resid _ _ _ Hx) as Hres. pose proof (xo_base _ _ _ Hx) as Hbase.
  unfold sfs_io, lift, lift_x. runs_steps. simpl. eapply runs_get_sv; [done|]. simpl. rewrite write_is_write, Hdir. simpl.
  runs_steps. eapply runs_mono; [by eapply io_body_spec| |]; cbv beta; unfold io_done.
  - intros _ s Hd. rewrite Hdir in Hd. destruct Hd as (f1 & g1 & I1 & -> & He). runs_steps.
    assert (zlen (get_bytes x base n) = n) as Hl by (eapply zlen_get_bytes; [done|]; lia).
    eapply runs_mono; [eapply (io_out_write _ _ _ _ _ _ (advance n x)); [exact He|done|simpl; fold n; by rewrite Hl|]| |]; cbv beta; [..|done].
    + simpl. unfold n, is_u32. lia.
    + intros _ s (f2 & I2 & -> & Hst). runs_steps. by exists f2, g1, I2.
  - intros e s [He (k & f1 & x1 & Hk & -> & Hx1 & Exu & Hrest)]. rewrite Hdir in Hrest. destruct Hrest as (g1 & I1 & Hed). runs_steps.
    assert (zlen (get_bytes x base k) = k) as Hl by (eapply zlen_get_bytes; [done|]; lia).
    eapply runs_mono; [eapply (io_out_write _ _ _ _ _ _ x1); [exact Hed|by rewrite Exu|by rewrite Exu, Hl|]| |]; cbv beta; [..|done].
    + rewrite Exu. simpl. unfold is_u32. lia.
    + intros _ s (f2 & I2 & -> & Hst). runs_steps. split; [done|]. exists k, f2, g1, I2, x1. split; [exact Hk|]. split; [done|]. split; [|exact Hst].
      rewrite Exu. simpl. by rewrite Hdir.
Qed.

(** How much of the request lies before the end of the file. *)
Definition readable (size off n : Z) : Z := Z.max 0 (Z.min n (size - off)).

(** Why a read fails: its memory cannot be reached, or there are bytes to read
    past the end of the largest file. *)
Definition read_error (size : Z) (x : xfer) (e : Z) : Prop :=
  (e = EFBIG /\ MAXBLOCKS * SFS_BLOCKSIZE < Z.min size (uio_offset (xu x) + uio_resid (xu x))) \/
  (e = EFAULT /\ ~ reach x (iov_base (xu x)) (uio_resid (xu x))).

(** The label [out] of a read gives back the part after the end of the file. *)
Lemma io_out_read f x p v extra (Q : unit -> sfs_fs * xfer -> Prop) R :
  vnodes f !! p = Some v -> uio_dir (xu x) = UIO_READ ->
  Q tt (f, redirect (uio_offset (xu x)) (u32 (uio_resid (xu x) + extra)) x) -> runs (io_out p extra (f, x)) Q R.
Proof.
  intros Hp Hdir HQ. unfold io_out, lift, lift_x. runs_steps. simpl. eapply runs_get_sv; [done|]. simpl.
  rewrite write_is_write, Hdir. simpl. runs_steps. simpl. destruct x as [[] ???]. exact HQ.
Qed.

Lemma sfs_io_read f g I x p base l v :
  io_pre f g I x p base l v -> uio_dir (xu x) = UIO_READ ->
  let n := readable (sfi_size (sv_i v)) (uio_offset (xu x)) (uio_resid (xu x)) in
  runs (sfs_io p (f, x))
    (fun _ s => exists f', s = (f', advance n (moved base (file_bytes g (sv_i v) (uio_offset (xu x)) n) x)) /\
       fsinv f' g I /\ same_mem f f')
    (fun e s => read_error (sfi_size (sv_i v)) x e /\ exists k f' x', 0 <= k <= n /\ s = (f', x') /\ xu x' = xu (advance k x) /\
       fsinv f' g I /\ same_mem f f').
Proof.
  intros Hpre Hdir n. pose proof Hpre as [Hi Hp Hx Hm Ho Hvol]. destruct (loaded _ _ _ _ _ Hi Hp) as [_ Hwf].
  pose proof (xo_resid _ _ _ Hx) as Hres. pose proof (xo_base _ _ _ Hx) as Hbase. pose proof (xo_offset _ _ _ Hx) as Hoff.
  set (size := sfi_size (sv_i v)) in *. set (o := uio_offset (xu x)) in *. set (r := uio_resid (xu x)) in *.
  assert (is_u32 size) as Hsize by apply Hwf.
  unfold sfs_io, lift, lift_x. runs_steps. simpl. eapply runs_get_sv; [done|]. simpl. rewrite write_is_write, Hdir. simpl.
  fold o r size. destruct (Z.leb_spec size o) as [Hpast|Hin].
  { runs_steps. exists f. assert (n = 0) as -> by (unfold n, readable; lia).
    change (file_bytes g (sv_i v) o 0) with (@nil Z). by rewrite (moved_nil _ _ _ Hx), (advance_0 _ _ _ Hx). }
  rewrite s64_small by lia. set (extra := if size <? o + r then u32 (o + r - size) else 0).
  assert (extra = r - n /\ 0 <= n <= r /\ (extra <> 0 -> n <> 0) /\ (o + r <= size -> n = r)) as (Hextra & Hn & Hnz & Hall).
  { unfold extra, n, readable. destruct (Z.ltb_spec size (o + r)); [rewrite u32_small by (unfold is_u32 in *; lia)|]; lia. }
  assert (o + n <= size) as Hns by (unfold n, readable; lia). clearbody extra n. runs_step. eapply (runs_mono _ (fun _ s => s = (f, redirect o n x)) _ (fun _ _ => False)); [|intros _ s ->|done].
  { destruct (Z.ltb_spec size (o + r)).
    - runs_steps. apply runs_KASSERT; [lia|]. unfold upd_uio. runs_steps. simpl. f_equal.
      fold r. replace (r - extra) with n by lia. by destruct x as [[] ???].
    - runs_steps. f_equal. rewrite Hall by done. by destruct x as [[] ???]. }
  assert (io_pre f g I (redirect o n x) p base l v) as Hpre'.
  { split; try done; [apply xok_redirect; [done|lia..]|]. simpl. lia. }
  runs_steps. eapply runs_mono; [by eapply io_body_spec| |]; cbv beta; unfold io_done, io_stop; simpl; rewrite Hdir.
  - intros _ s (f1 & w & Hw & -> & Hi1 & Hsm). simplify_eq. rewrite redirect_moved. runs_steps.
    eapply io_out_read; [by destruct Hsm as (_&_&_&->&_)|by simpl; rewrite xu_moved|]. runs_steps.
    exists f1. split; [|done]. f_equal. simpl. rewrite u32_small by (unfold is_u32; lia).
    unfold advance, redirect, with_resid, with_offset. simpl. rewrite xu_moved. do 2 f_equal. fold r. lia.
  - intros e s [He (k & f1 & x1 & Hk & -> & Hx1 & Exu & Hi1 & Hsm)]. runs_steps.
    eapply io_out_read; [by destruct Hsm as (_&_&_&->&_)|by rewrite Exu|]. runs_steps. split.
    { destruct He as [[-> H]|[[-> H]|[_ H]]]; [left|right|simpl in H; congruence]; (split; [done|]).
      - simpl in H. fold size o r. lia.
      - contradict H. by apply (reach_le x _ r). }
    exists k, f1. eexists. split; [done|]. split; [done|]. split; [|done]. rewrite Exu. simpl.
    rewrite u32_small by (unfold is_u32; lia). unfold with_resid, with_offset. simpl. rewrite Exu. simpl. f_equal. lia.
Qed.

(** ** The big lock around an operation *)

Definition set_depth (n : Z) f : sfs_fs :=
  mkFs (sfs_super f) (sfs_superdirty f) (sfs_device f) (sfs_vnodes f) (sfs_freemap f) (sfs_freemapdirty f)
       (vnodes f) (next_vnode f) n (oracle f).

Definition held f : sfs_fs := set_depth (vfs_biglock_depth f + 1) f.
Definition unheld f : sfs_fs := set_depth (vfs_biglock_depth f - 1) f.

Lemma held_unheld f : held (unheld f) = f.
Proof. unfold held, unheld, set_depth. simpl. rewrite Z.sub_add. by destruct f. Qed.

(** A mounted volume as the callers of its operations see it. *)
Record volume f g I : Prop := {
  vo_depth : 0 <= vfs_biglock_depth f < 2 ^ 32 - 1;
  vo_inv : fsinv (held f) g I;
  vo_size : sp_nblocks (sfs_super f) <= 2 ^ 23 }.

Lemma locked_x_spec {A} (m : M (sfs_fs * xfer) A) f x Q R :
  0 <= vfs_biglock_depth f < 2 ^ 32 - 1 ->
  runs (m (held f, x))
    (fun a s => 0 < vfs_biglock_depth (fst s) /\ Q a (unheld (fst s), snd s))
    (fun e s => 0 < vfs_biglock_depth (fst s) /\ R e (unheld (fst s), snd s)) ->
  runs (locked_x m (f, x)) Q R.
Proof.
  intros Hd Hm. unfold locked_x, lift, vfs_biglock_acquire, vfs_biglock_release, put_depth. runs_steps. simpl.
  rewrite u32_small by (unfold is_u32; lia). eapply runs_mono; [exact Hm| |]; cbv beta.
  - intros a [f1 x1] [Hpos HQ]. runs_steps. simpl in *. apply runs_KASSERT; [by apply Z.ltb_lt|]. runs_steps. exact HQ.
  - intros e [f1 x1] [Hpos HR]. runs_steps. simpl in *. apply runs_KASSERT; [by apply Z.ltb_lt|]. runs_steps. exact HR.
Qed.

Lemma locked_spec {A} (m : M sfs_fs A) f Q R :
  0 <= vfs_biglock_depth f < 2 ^ 32 - 1 ->
  runs (m (held f))
    (fun a f' => 0 < vfs_biglock_depth f' /\ Q a (unheld f'))
    (fun e f' => 0 < vfs_biglock_depth f' /\ R e (unheld f')) ->
  runs (locked m f) Q R.
Proof.
  intros Hd Hm. unfold locked, vfs_biglock_acquire, vfs_biglock_release, put_depth. runs_steps. simpl.
  rewrite u32_small by (unfold is_u32; lia). eapply runs_mono; [exact Hm| |]; cbv beta.
  - intros a f1 [Hpos HQ]. runs_steps. simpl in *. apply runs_KASSERT; [by apply Z.ltb_lt|]. runs_steps. exact HQ.
  - intros e f1 [Hpos HR]. runs_steps. simpl in *. apply runs_KASSERT; [by apply Z.ltb_lt|]. runs_steps. exact HR.
Qed.

Lemma volume_unheld f g I f' g' I' :
  volume f g I -> sfs_super f' = sfs_super f -> vfs_biglock_depth f' = vfs_biglock_depth f + 1 -> fsinv f' g' I' ->
  volume (unheld f') g' I'.
Proof.
  intros [Hd _ Hs] E1 E2 Hi. split; [simpl; lia|by rewrite held_unheld|by simpl; rewrite E1].
Qed.

(** A request to transfer [l] bytes between a file and memory at [base]. *)
Record request x (rw : uio_rw) (base l : Z) : Prop := {
  rq_ok : xok x base l; rq_dir : uio_dir (xu x) = rw; rq_bytes : mem_bytes x;
  rq_off : uio_offset (xu x) + uio_resid (xu x) < 2 ^ 41 }.
End File.
End SfsFile.
