(* ===== verification/SfsVol.v ===== *)
(** * A small volume

    [SfsVol] is an SFS volume of eight blocks on a disk in memory, with an empty
    root directory and a file of five bytes, all of it a hole, whose vnode is loaded.  It satisfies the
    volume invariant; the theorems on SFS are evaluated on it. *)

From S2P Require Import Prelude Copyinout Bitmap Uio Device Lhd SfsDisk Sfs SfsInv SfsFile.
Import Copyinout Uio Device Lhd SfsDisk Sfs SfsInv SfsFile.

Module SfsVol.

(** A file of [size] bytes that is one hole. *)
Definition hole_inode (size t links : Z) : sfs_inode := mkInode size t links (zrep 15 0) 0 (zrep 110 0).
Definition vol_super : SfsDisk.sfs_super := mkSuper SFS_MAGIC 8 (zrep 32 0) (zrep 118 0).

(** Blocks 0 to 3 are taken, and the bits past the end of the disk. *)
Definition vol_map : Bitmap.bitmap := Bitmap.mkBitmap 4096 (15 :: zrep 511 255).

Definition vol_card : ram_card :=
  mkRam [encode_super vol_super; encode_inode (hole_inode 0 SFS_TYPE_DIR 1); Bitmap.v vol_map;
         encode_inode (hole_inode 5 SFS_TYPE_FILE 1); zeros; zeros; zeros; zeros] zeros 0 LHD_IDLE [].
Definition vol_disk : lhd_softc := mkLhd vol_card 0 1 0 8 512.
Definition vol_vnode : sfs_vnode := mkSv 1 1 Fileops (hole_inode 5 SFS_TYPE_FILE 1) 3 false.
Definition vol : sfs_fs := mkFs vol_super false vol_disk [0] vol_map false {[0 := vol_vnode]} 1 0 [].
Definition vol_inodes : gmap Z sfs_inode :=
  {[1 := hole_inode 0 SFS_TYPE_DIR 1; 3 := hole_inode 5 SFS_TYPE_FILE 1]}.
Definition vol_blocks (b : Z) : list Z := dev_block vol_disk b.

Lemma u8_all (l : list Z) : forallb (fun b => (0 <=? b) && (b <? 256)) l = true -> Forall is_u8 l.
Proof. rewrite forallb_forall, Forall_forall. intros H x Hx%list_elem_of_In. specialize (H x Hx). unfold is_u8. lia. Qed.

Lemma vol_sound : dev_sound vol_disk.
Proof.
  split; try done. split_and!; try done.
  repeat (constructor; [split; [by vm_compute|apply u8_all; by vm_compute]|]). constructor.
Qed.

Lemma hole_wf z t n : is_u32 z -> is_u16 t -> is_u16 n -> inode_wf (hole_inode z t n).
Proof. intros Hz Ht Hn. split; try done; split; try done; by apply Forall_zrep. Qed.

Lemma hole_slots g z t n ino sl : at_slot g (hole_inode z t n) ino sl <> 0 -> sl = SInode.
Proof.
  destruct sl as [| |fb]; simpl; [done|done|]. unfold bmap_of. simpl. destruct (fb <? SFS_NDIRECT); [|done].
  intros H. destruct H. apply (zlookup_zeros 15).
Qed.

Lemma vol_inodes_Some ino i :
  vol_inodes !! ino = Some i -> (ino = 1 /\ i = hole_inode 0 SFS_TYPE_DIR 1) \/ (ino = 3 /\ i = hole_inode 5 SFS_TYPE_FILE 1).
Proof. unfold vol_inodes. intros [[<- <-]|[_ [<- <-]%lookup_singleton_Some]]%lookup_insert_Some; auto. Qed.

Lemma vol_rest b : 0 <= b < 4096 -> ~ is_data vol b -> used vol b = true.
Proof.
  intros Hb Hnd.
  assert (Forall (fun b => used vol b = true \/ is_data vol b) (Z.of_nat <$> seq 0 4096)) as Hall.
  { apply Forall_forall. intros c Hc.
    assert (forallb (fun c => used vol c || ((0 <? c) && (c <? 8) && ((c =? 1) || (3 <=? c)))) (Z.of_nat <$> seq 0 4096) = true) as Ht
      by (by vm_compute).
    rewrite forallb_forall in Ht. specialize (Ht c (proj1 (list_elem_of_In _ _) Hc)).
    destruct (used vol c); [by left|]. right. simpl in Ht. unfold is_data. change (sp_nblocks (sfs_super vol)) with 8.
    change (SFS_MAP_LOCATION + SFS_BITBLOCKS 8) with 3. unfold SFS_ROOT_LOCATION. lia. }
  rewrite Forall_forall in Hall. destruct (Hall b); [|done..].
  apply list_elem_of_fmap. exists (Z.to_nat b). split; [lia|]. apply elem_of_seq. lia.
Qed.

Lemma vol_vnodes p v : vnodes (held vol) !! p = Some v -> p = 0 /\ v = vol_vnode.
Proof. change (vnodes (held vol)) with ({[0 := vol_vnode]} : gmap Z sfs_vnode). by intros [<- <-]%lookup_singleton_Some. Qed.

Lemma vol_ok : volume vol vol_blocks vol_inodes.
Proof.
  split; [done| |done]. split.
  - split; try done; exact vol_sound.
  - split; [done|]. split; [done|]. split; [by apply u8_all; vm_compute|].
    intros i Hi. exfalso. assert (4096 <= i < 4096) by exact Hi. lia.
  - done.
  - exact vol_rest.
  - intros ino i [[-> ->]|[-> ->]]%vol_inodes_Some; (split; [by apply hole_wf|done]).
  - intros ino i sl H Hnz.
    assert (sl = SInode) as -> by (destruct (vol_inodes_Some _ _ H) as [[-> ->]|[-> ->]]; by eapply hole_slots).
    simpl. destruct (vol_inodes_Some _ _ H) as [[-> ->]|[-> ->]]; (split; [|done]); (split; [done|]); [by left|by right].
  - intros n1 i1 s1 n2 i2 s2 H1 H2 Hnz E.
    assert (s1 = SInode) as -> by (destruct (vol_inodes_Some _ _ H1) as [[-> ->]|[-> ->]]; by eapply hole_slots).
    rewrite E in Hnz.
    assert (s2 = SInode) as -> by (destruct (vol_inodes_Some _ _ H2) as [[-> ->]|[-> ->]]; by eapply hole_slots).
    done.
  - intros p v [-> ->]%vol_vnodes. by split_and!.
  - intros p p' v v' [-> _]%vol_vnodes [-> _]%vol_vnodes. done.
  - split; [apply NoDup_singleton|]. intros p. change (sfs_vnodes (held vol)) with [0]. rewrite list_elem_of_singleton. split.
    + intros ->. by eexists.
    + by intros [v [-> _]%vol_vnodes].
  - intros ino i [[-> ->]|[-> ->]]%vol_inodes_Some _; by vm_compute.
Qed.
End SfsVol.
