(* ===== verification/SfsThm.v ===== *)
(** * What the file system promises its callers

    [SfsThm] states the theorems about SFS: a write stores the caller's bytes
    and nothing else, a read returns them.  [Disk] is a small volume on a disk
    in memory, on which the theorems are evaluated. *)

From S2P Require Import Prelude Copyinout Bitmap Uio Device Lhd SfsDisk Sfs SfsInv SfsFile SfsVol.
Import Copyinout Uio Device Lhd SfsDisk Sfs SfsInv SfsFile SfsVol.

Module SfsThm.

Section Thm.
Context {D : Type} `{!BlockDevice D}.
Abbreviation sfs_fs := (@sfs_fs D).
Implicit Types (f : sfs_fs) (g : Z -> list Z) (I : gmap Z sfs_inode) (x : xfer).

(** What a file operation leaves alone: the mount, the other vnodes, the lock. *)
Definition same_mount (p : Z) f f' : Prop :=
  sfs_super f' = sfs_super f /\ sfs_vnodes f' = sfs_vnodes f /\ vfs_biglock_depth f' = vfs_biglock_depth f /\
  sv_ino <$> vnodes f' !! p = sv_ino <$> vnodes f !! p /\ forall q, q <> p -> vnodes f' !! q = vnodes f !! q.

Lemma request_pre f g I x rw base l p v :
  volume f g I -> vnodes f !! p = Some v -> request x rw base l -> io_pre (held f) g I x p base l v.
Proof. intros [Hd Hi Hs] Hp [Hx Hdir Hm Ho]. by split. Qed.

Lemma stored_volume f g I f' g' I' p v off bs :
  volume f g I -> vnodes f !! p = Some v -> stored (held f) g I f' g' I' p off bs ->
  0 < vfs_biglock_depth f' /\ volume (unheld f') g' I' /\ same_mount p f (unheld f') /\
  files_stored g I g' I' (sv_ino v) off bs.
Proof.
  intros Hv Hp [Hi (E1 & E2 & E3 & E4 & E5 & E6) (w & w' & Hw & Hvn & (_ & _ & _ & Hino & _) & Hfs)]. simpl in *. simplify_eq.
  pose proof (vo_depth _ _ _ Hv). split; [lia|]. split; [by eapply volume_unheld|]. split; [|done].
  split; [done|]. split; [done|]. split; [simpl; lia|]. simpl.
  split; [rewrite Hvn, Hp, lookup_insert_eq; simpl; by rewrite Hino|]. intros q Hq. rewrite Hvn. by apply lookup_insert_ne.
Qed.

(** [s] is the state after [k] bytes of request [x] were written. *)
Definition wrote f g I x (p ino base k : Z) (s : sfs_fs * xfer) : Prop :=
  exists g' I', xu (snd s) = xu (advance k x) /\ volume (fst s) g' I' /\ same_mount p f (fst s) /\
    files_stored g I g' I' ino (uio_offset (xu x)) (get_bytes x base k).

Lemma write_spec f g I x p v base l :
  volume f g I -> vnodes f !! p = Some v -> request x UIO_WRITE base l ->
  runs (sfs_write p (f, x))
    (fun _ s => snd s = advance (uio_resid (xu x)) x /\ wrote f g I x p (sv_ino v) base (uio_resid (xu x)) s)
    (fun e s => io_error x e /\ exists k, 0 <= k <= uio_resid (xu x) /\ wrote f g I x p (sv_ino v) base k s).
Proof.
  intros Hv Hp Hrq. pose proof (request_pre _ _ _ _ _ _ _ _ _ Hv Hp Hrq) as Hpre.
  unfold sfs_write. runs_steps. apply runs_KASSERT; [simpl; by rewrite write_is_write, (rq_dir _ _ _ _ Hrq)|].
  apply locked_x_spec; [apply Hv|]. eapply runs_mono; [eapply sfs_io_write; [done|apply Hrq]| |]; cbv beta.
  - intros _ s (f' & g' & I' & -> & Hst). destruct (stored_volume _ _ _ _ _ _ _ _ _ _ Hv Hp Hst) as (? & ? & ? & ?).
    split; [done|]. split; [done|]. by exists g', I'.
  - intros e s (He & k & f' & g' & I' & x' & Hk & -> & Exu & Hst).
    destruct (stored_volume _ _ _ _ _ _ _ _ _ _ Hv Hp Hst) as (? & ? & ? & ?).
    split; [done|]. split; [done|]. exists k. split; [done|]. by exists g', I'.
Qed.

(** The volume is as it was. *)
Definition untouched f g I f' : Prop :=
  volume f' g I /\ vnodes f' = vnodes f /\ sfs_vnodes f' = sfs_vnodes f /\ vfs_biglock_depth f' = vfs_biglock_depth f.

Lemma read_spec f g I x p v base l :
  volume f g I -> vnodes f !! p = Some v -> request x UIO_READ base l ->
  let off := uio_offset (xu x) in
  let n := readable (sfi_size (sv_i v)) off (uio_resid (xu x)) in
  runs (sfs_read p (f, x))
    (fun _ s => snd s = advance n (put_bytes base (file_bytes g (sv_i v) off n) x) /\ untouched f g I (fst s))
    (fun e s => read_error (sfi_size (sv_i v)) x e /\ untouched f g I (fst s) /\ exists k, 0 <= k <= n /\ xu (snd s) = xu (advance k x)).
Proof.
  intros Hv Hp Hrq off n. pose proof (request_pre _ _ _ _ _ _ _ _ _ Hv Hp Hrq) as Hpre. pose proof (rq_dir _ _ _ _ Hrq) as Hdir.
  unfold sfs_read. runs_steps. apply runs_KASSERT; [simpl; by rewrite write_is_write, Hdir|].
  assert (forall f', fsinv f' g I -> same_mem (held f) f' -> 0 < vfs_biglock_depth f' /\ untouched f g I (unheld f')) as Hback.
  { intros f' Hi (E1 & E2 & E3 & E4 & E5 & E6 & E7). simpl in *. pose proof (vo_depth _ _ _ Hv).
    split; [lia|]. split; [by eapply volume_unheld|]. split; [done|]. split; [done|]. simpl. lia. }
  apply locked_x_spec; [apply Hv|]. eapply runs_mono; [eapply sfs_io_read; [done|done]| |]; cbv beta.
  - intros _ s (f' & -> & Hi & Hsm). destruct (Hback f' Hi Hsm) as (? & ?).
    split; [done|]. split; [|done]. unfold moved. by rewrite Hdir.
  - intros e s (He & k & f' & x' & Hk & -> & Exu & Hi & Hsm). destruct (Hback f' Hi Hsm) as (? & ?).
    split; [done|]. split; [done|]. split; [done|]. exists k. split; [done|exact Exu].
Qed.


(** C3. [sfs_read] hands out the bytes of the file from its offset up to the end of
    the file or of the request (zeros for its holes), and changes no file.  It
    fails only when its memory cannot be reached or the file is too large. *)
Theorem sfs_read_exact f g I x p v base l :
  volume f g I -> vnodes f !! p = Some v -> request x UIO_READ base l ->
  let off := uio_offset (xu x) in
  let n := readable (sfi_size (sv_i v)) off (uio_resid (xu x)) in
  runs (sfs_read p (f, x))
    (fun _ s => snd s = advance n (put_bytes base (file_bytes g (sv_i v) off n) x) /\ untouched f g I (fst s))
    (fun e s => read_error (sfi_size (sv_i v)) x e /\ untouched f g I (fst s) /\ exists k, 0 <= k <= n /\ xu (snd s) = xu (advance k x)).
Proof. apply read_spec. Qed.

(** ** Reading back *)

(** A request on a kernel buffer. *)
Definition kreq (data : list Z) (off : Z) (rw : uio_rw) : xfer := kxfer data off rw (clear_fault ∅) None.

Lemma kreq_ok data off rw :
  byte_list data -> zlen data < 2 ^ 31 -> 0 <= off < 2 ^ 40 -> request (kreq data off rw) rw 0 (zlen data).
Proof.
  intros Hb Hl Ho. pose proof (zlen_nonneg data). split; simpl; try done; [|lia].
  apply kxfer_ok; lia.
Qed.

Lemma kreq_get data off : get_bytes (kreq data off UIO_WRITE) 0 (zlen data) = data.
Proof. unfold get_bytes. simpl. rewrite zdrop_0. apply ztake_all. lia. Qed.

(** The bytes a write stored are the bytes of the file. *)
Lemma stored_bytes g I g' I' ino i i' off bs :
  files_stored g I g' I' ino off bs -> I !! ino = Some i -> I' !! ino = Some i' -> 0 <= off ->
  file_bytes g' i' off (zlen bs) = bs.
Proof.
  intros Hst HI HI' Ho. specialize (Hst ino). rewrite HI, HI' in Hst. destruct Hst as (_ & _ & _ & Hb).
  pose proof (zlen_nonneg bs). apply zlist_eq; [by apply zlen_file_bytes|]. intros k Hk. rewrite zlen_file_bytes in Hk by done.
  rewrite zlookup_file_bytes by done. rewrite Hb by lia. rewrite decide_True by lia.
  replace (off + k - off) with k by lia. destruct (zlookup_is_Some bs k) as [c ->]; [lia|done].
Qed.

End Thm.

(** ** On the small volume *)

Definition two : xfer := kreq [104; 105] 510 UIO_WRITE.
Definition four : xfer := kreq [7; 7; 7; 7] 3 UIO_READ.


(** The two bytes before the end of the file, which are zero. *)
Lemma sfs_read_exact_witness :
  readable (sfi_size (sv_i vol_vnode)) 3 4 = 2 /\ file_bytes vol_blocks (sv_i vol_vnode) 3 2 = [0; 0] /\
  runs (sfs_read 0 (vol, four))
    (fun _ s => snd s = advance (readable (sfi_size (sv_i vol_vnode)) (uio_offset (xu four)) (uio_resid (xu four)))
         (put_bytes 0 (file_bytes vol_blocks (sv_i vol_vnode) (uio_offset (xu four))
            (readable (sfi_size (sv_i vol_vnode)) (uio_offset (xu four)) (uio_resid (xu four)))) four) /\
       untouched vol vol_blocks vol_inodes (fst s))
    (fun e s => read_error (sfi_size (sv_i vol_vnode)) four e /\ untouched vol vol_blocks vol_inodes (fst s) /\
       exists k, 0 <= k <= readable (sfi_size (sv_i vol_vnode)) (uio_offset (xu four)) (uio_resid (xu four)) /\
         xu (snd s) = xu (advance k four)).
Proof.
  split; [done|]. split; [by vm_compute|].
  exact (sfs_read_exact vol vol_blocks vol_inodes four 0 vol_vnode 0 4 vol_ok eq_refl
           (kreq_ok [7; 7; 7; 7] 3 UIO_READ ltac:(repeat constructor; done) ltac:(done) ltac:(done))).
Defined.

End SfsThm.
