(* ===== verification/LoadElf.v ===== *)
(** * Loading programs: src/syscall/loadelf.c

    [LoadElf] models [load_elf] from the bytes of the file to the memory of the
    process: the ELF structures of src/include/elf.h, the two passes over the
    program headers, and the reads through [VOP_READ] into the kernel's
    variables and into user memory.  A file is anything that reads as an array
    of bytes ([ExecFile]); SFS files are ([sfs_exec_file]).

    User memory is what the address space maps ([user_view]), as [vm_fault]
    makes it appear; that the TLB has an entry free for a page, when it is
    touched, is taken for granted. *)

From S2P Require Import Prelude Spl Kmalloc Dumbvm DumbvmThm Copyinout Uio SfsDisk Device Sfs SfsInv SfsFile SfsThm.
Import Ram Dumbvm DumbvmThm Copyinout Uio SfsDisk.

Module LoadElf.

(** ** ELF structures (big-endian) *)

Record Elf_Ehdr := mkEhdr {
  e_ident : list Z; e_type : Z; e_machine : Z; e_version : Z; e_entry : Z; e_phoff : Z;
  e_phentsize : Z; e_phnum : Z }.
Record Elf_Phdr := mkPhdr {
  p_type : Z; p_offset : Z; p_vaddr : Z; p_filesz : Z; p_memsz : Z; p_flags : Z }.

Definition EHDR_SIZE : Z := 52.
Definition PHDR_SIZE : Z := 32.
Definition decode_ehdr (bs : list Z) : Elf_Ehdr :=
  mkEhdr (field 0 16 bs) (unbe (field 16 2 bs)) (unbe (field 18 2 bs)) (unbe (field 20 4 bs)) (unbe (field 24 4 bs))
    (unbe (field 28 4 bs)) (unbe (field 42 2 bs)) (unbe (field 44 2 bs)).
Definition decode_phdr (bs : list Z) : Elf_Phdr :=
  mkPhdr (unbe (field 0 4 bs)) (unbe (field 4 4 bs)) (unbe (field 8 4 bs)) (unbe (field 16 4 bs)) (unbe (field 20 4 bs))
    (unbe (field 24 4 bs)).

Definition ELFMAG : list Z := [0x7f; 69; 76; 70].
Definition ELFCLASS32 : Z := 1.
Definition ELFDATA2MSB : Z := 2.
Definition EV_CURRENT : Z := 1.
Definition ET_EXEC : Z := 2.
Definition EM_MACHINE : Z := 8.
Definition PT_NULL : Z := 0.
Definition PT_LOAD : Z := 1.
Definition PT_PHDR : Z := 6.
Definition PT_MIPS_REGINFO : Z := 0x70000000.
Definition PF_X : Z := 1.

(** The test on the header. *)
Definition executable (eh : Elf_Ehdr) : bool :=
  bool_decide (take 7 (e_ident eh) = ELFMAG ++ [ELFCLASS32; ELFDATA2MSB; EV_CURRENT]) &&
  (e_version eh =? EV_CURRENT) && (e_type eh =? ET_EXEC) && (e_machine eh =? EM_MACHINE).

Definition skipped (ph : Elf_Phdr) : bool :=
  (p_type ph =? PT_NULL) || (p_type ph =? PT_PHDR) || (p_type ph =? PT_MIPS_REGINFO).

(** ** Files *)

(** [file_has f v data]: file [v] consists of the bytes [data]. *)
Class ExecFile (F : Type) := {
  VOP_READ : Z -> M (F * xfer) unit;
  file_has : F -> Z -> list Z -> Prop;
  file_has_bytes f v data : file_has f v data -> byte_list data /\ zlen data < 2 ^ 31;
  VOP_READ_ok f v data x base l :
    file_has f v data -> SfsFile.request x UIO_READ base l -> uio_offset (xu x) < 2 ^ 32 ->
    let off := uio_offset (xu x) in
    let n := SfsFile.readable (zlen data) off (uio_resid (xu x)) in
    runs (VOP_READ v (f, x))
      (fun _ s => file_has (fst s) v data /\ snd s = advance n (put_bytes base (field off n data) x))
      (fun e s => file_has (fst s) v data /\ ~ reach x base (uio_resid (xu x))) }.

(** ** User memory *)

(** The bytes of one region, and of the address space; the first region that
    has an address counts. *)
Definition region_map (v : vm) (r : Z * Z * Z) : gmap Z Z :=
  let '(vb, pb, n) := r in list_to_map ((fun i => (vb + i, phys v (pb + i))) <$> seqZ 0 (n * PAGE_SIZE)).
Definition user_view (v : vm) (a : addrspace) : gmap Z Z := foldr (fun r m => region_map v r ∪ m) ∅ (regions a).

(** Physical memory once the process sees [m]. *)
Fixpoint find_va (l : list (Z * Z * Z)) (pa : Z) : option Z :=
  match l with
  | [] => None
  | (vb, pb, n) :: l' => if (pb <=? pa) && (pa <? pb + n * PAGE_SIZE) then Some (vb + (pa - pb)) else find_va l' pa
  end.
Definition store_view (m : gmap Z Z) (a : addrspace) (old : Z -> Z) : Z -> Z := fun pa =>
  match find_va (regions a) pa with
  | Some va => if bool_decide (as_pa a va = Some pa) then default (old pa) (m !! va) else old pa
  | None => old pa
  end.

(** The assertions of [vm_fault] on the address space. *)
Definition faultable (a : addrspace) : bool :=
  negb (as_vbase1 a =? 0) && negb (as_pbase1 a =? 0) && negb (as_npages1 a =? 0) &&
  negb (as_vbase2 a =? 0) && negb (as_pbase2 a =? 0) && negb (as_npages2 a =? 0) && negb (as_stackpbase a =? 0).

(** ** Lemmas on user memory *)

Lemma region_map_lookup v vb pb n va :
  region_map v (vb, pb, n) !! va = if (vb <=? va) && (va <? vb + n * PAGE_SIZE) then Some (phys v (pb + (va - vb))) else None.
Proof.
  unfold region_map. destruct ((vb <=? va) && (va <? vb + n * PAGE_SIZE)) eqn:E.
  - apply range_true in E. apply elem_of_list_to_map_1.
    + rewrite <- list_fmap_compose. apply NoDup_fmap_2_strong; [|apply NoDup_seqZ]. intros ? ? _ _ ?. simpl in *. lia.
    + apply list_elem_of_fmap. exists (va - vb). split; [f_equal; lia|]. apply elem_of_seqZ. lia.
  - apply not_elem_of_list_to_map_1. rewrite <- list_fmap_compose. intros (i & -> & Hi%elem_of_seqZ)%list_elem_of_fmap. simpl in E.
    rewrite (proj2 (range_true vb (vb + i) (n * PAGE_SIZE))) in E; [done|lia].
Qed.

Lemma user_view_lookup v a va : user_view v a !! va = user_byte v a va.
Proof.
  unfold user_view, user_byte, as_pa. induction (regions a) as [|[[vb pb] n] l IH]; [done|]. cbn [foldr find_pa].
  rewrite lookup_union, region_map_lookup. destruct ((vb <=? va) && _); [by destruct (foldr _ _ _ !! va)|]. rewrite IH. by destruct (find_pa l va).
Qed.

(** No frame belongs to two regions. *)
Definition apart (r1 r2 : Z * Z * Z) : Prop :=
  let '(_, p1, n1) := r1 in let '(_, p2, n2) := r2 in p1 + n1 * PAGE_SIZE <= p2 \/ p2 + n2 * PAGE_SIZE <= p1.

Lemma find_va_pa l va pa : ForallOrdPairs apart l -> find_pa l va = Some pa -> find_va l pa = Some va.
Proof.
  induction 1 as [|[[vb pb] n] l Hr _ IH]; [done|]. cbn [find_pa find_va]. destruct ((vb <=? va) && _) eqn:E.
  - intros [= <-]. apply range_true in E. rewrite (proj2 (range_true _ _ _)) by lia. f_equal. lia.
  - intros Hf. rewrite range_false; [by apply IH|]. clear IH E. intros Hpa. induction l as [|[[vb' pb'] n'] l IHl]; [done|].
    apply Forall_cons in Hr as [Hap Hr]. cbn [find_pa] in Hf. destruct ((vb' <=? va) && _) eqn:E'; [|by apply IHl].
    injection Hf as <-. apply range_true in E'. simpl in Hap. lia.
Qed.

Lemma store_view_byte m a v va :
  ForallOrdPairs apart (regions a) -> (forall x, is_Some (m !! x) <-> is_Some (as_pa a x)) ->
  user_byte (put_phys (store_view m a (phys v)) v) a va = m !! va.
Proof.
  intros Hap Hdom. unfold user_byte. destruct (as_pa a va) as [pa|] eqn:E; simpl.
  - destruct (proj2 (Hdom va)) as [b Hb]; [by rewrite E|]. rewrite Hb. unfold store_view. rewrite (find_va_pa _ va) by done.
    by rewrite bool_decide_true, Hb.
  - symmetry. apply eq_None_not_Some. rewrite Hdom, E. by intros [].
Qed.

(** ** What a file asks for *)

Definition phdr_offset (eh : Elf_Ehdr) (i : Z) : Z := u32 (e_phoff eh + i * e_phentsize eh).

(** The program headers; [None]: not in the file. *)
Definition phdr_at (data : list Z) (eh : Elf_Ehdr) (i : Z) : option Elf_Phdr :=
  if phdr_offset eh i + PHDR_SIZE <=? zlen data then Some (decode_phdr (field (phdr_offset eh i) PHDR_SIZE data)) else None.
Definition phdrs (data : list Z) (eh : Elf_Ehdr) : list (option Elf_Phdr) := phdr_at data eh <$> seqZ 0 (e_phnum eh).

Definition loads (phs : list (option Elf_Phdr)) : list Elf_Phdr :=
  omap (fun o => match o with Some ph => if p_type ph =? PT_LOAD then Some ph else None | None => None end) phs.

(** The address space the headers define, or the error they are refused with. *)
Fixpoint define_all (phs : list (option Elf_Phdr)) (a : addrspace) : Z + addrspace :=
  match phs with
  | [] => inr a
  | None :: _ => inl ENOEXEC
  | Some ph :: phs' =>
      if skipped ph then define_all phs' a
      else if negb (p_type ph =? PT_LOAD) then inl ENOEXEC
      else match as_define_region (p_vaddr ph) (p_memsz ph) a with
           | Ret _ a' => define_all phs' a'
           | Err e _ => inl e
           | Crash _ => inl 0
           end
  end.

(** The memory of the program: zeros where there is memory, and the bytes of the
    segments. *)
Definition blank (a : addrspace) (va : Z) : option Z := (fun _ => 0) <$> as_pa a va.
Definition file_part (ph : Elf_Phdr) : Z := Z.min (p_filesz ph) (p_memsz ph).
Definition paint (data : list Z) (m : Z -> option Z) (ph : Elf_Phdr) (va : Z) : option Z :=
  if decide (p_vaddr ph <= va < p_vaddr ph + file_part ph) then zlookup data (p_offset ph + (va - p_vaddr ph)) else m va.
Definition image (data : list Z) (a : addrspace) (segs : list Elf_Phdr) : Z -> option Z := foldl (paint data) (blank a) segs.

(** A segment that is in the file, and in user memory. *)
Record segment_ok (data : list Z) (ph : Elf_Phdr) : Prop := {
  so_size : 0 < p_memsz ph; so_base : PAGE_SIZE <= p_vaddr ph;
  so_top : p_vaddr ph + p_memsz ph <= USERSPACETOP;
  so_file : 0 <= file_part ph /\ 0 <= p_offset ph < 2 ^ 32 /\ p_offset ph + file_part ph <= zlen data }.
Definition covers (a : addrspace) (ph : Elf_Phdr) : Prop :=
  forall va, p_vaddr ph <= va < p_vaddr ph + p_memsz ph -> is_Some (as_pa a va).

Lemma image_byte data a segs va :
  byte_list data -> Forall (segment_ok data) segs -> Forall (covers a) segs ->
  (is_Some (image data a segs va) <-> is_Some (as_pa a va)) /\ (forall b, image data a segs va = Some b -> is_u8 b).
Proof.
  intros Hd Hok Hc. unfold image. induction segs as [|ph segs IH] using rev_ind.
  - simpl. unfold blank. rewrite fmap_is_Some. split; [done|]. intros b. by destruct (as_pa a va); [intros [= <-]|].
  - apply Forall_app in Hok as [Hok [Hph _]%Forall_cons], Hc as [Hc [Hcp _]%Forall_cons]. rewrite foldl_app. simpl. unfold paint at 1 3.
    destruct (decide _) as [Hin|]; [|by apply IH]. destruct (so_file _ _ Hph) as (H0 & H1 & H2).
    assert (0 <= p_offset ph + (va - p_vaddr ph) < zlen data) as Hr by lia. split.
    + split; intros _; [|by apply zlookup_is_Some]. apply Hcp. unfold file_part in *. lia.
    + intros b Hb. by eapply (Forall_zlookup is_u8 data).
Qed.

(** ** The address space *)

Definition last_page (ph : Elf_Phdr) : Z := page_of (p_vaddr ph + p_memsz ph + (PAGE_SIZE - 1)).
Definition npages (ph : Elf_Phdr) : Z := (last_page ph - page_of (p_vaddr ph)) / PAGE_SIZE.
Definition as_empty : addrspace := mkAs 0 0 0 0 0 0 0.
Definition as_for (s1 s2 : Elf_Phdr) : addrspace := mkAs (page_of (p_vaddr s1)) 0 (npages s1) (page_of (p_vaddr s2)) 0 (npages s2) 0.

Fixpoint define_list (l : list Elf_Phdr) (a : addrspace) : Z + addrspace :=
  match l with
  | [] => inr a
  | ph :: l' =>
      match as_define_region (p_vaddr ph) (p_memsz ph) a with
      | Ret _ a' => define_list l' a'
      | Err e _ => inl e
      | Crash _ => inl 0
      end
  end.

Definition good (o : option Elf_Phdr) : Prop := exists ph, o = Some ph /\ (skipped ph = true \/ p_type ph = PT_LOAD).

Lemma skipped_load ph : skipped ph = true -> (p_type ph =? PT_LOAD) = false.
Proof. intros Hs. apply Z.eqb_neq. intros El. unfold skipped in Hs. by rewrite El in Hs. Qed.

Lemma define_all_list phs a : Forall good phs -> define_all phs a = define_list (loads phs) a.
Proof.
  intros Hg. revert a. induction Hg as [|o phs (ph & -> & Hph) _ IH]; intros a; [done|]. unfold loads. cbn [define_all omap list_omap].
  destruct Hph as [Hs|Hl]; [by rewrite Hs, skipped_load|]. assert (skipped ph = false) as -> by (unfold skipped; by rewrite Hl).
  rewrite Hl. cbn [negb Z.eqb PT_LOAD Pos.eqb define_list]. by destruct (as_define_region (p_vaddr ph) (p_memsz ph) a).
Qed.

Lemma segment_pages data ph : segment_ok data ph ->
  0 < npages ph <= 2 ^ 19 /\ page_of (p_vaddr ph) + npages ph * PAGE_SIZE = last_page ph /\ PAGE_SIZE <= page_of (p_vaddr ph) <= p_vaddr ph /\
  page_of (p_vaddr ph) mod PAGE_SIZE = 0 /\ p_vaddr ph + p_memsz ph <= last_page ph <= USERSPACETOP /\
  is_u32 (p_vaddr ph) /\ p_vaddr ph mod PAGE_SIZE + p_memsz ph <= 2 ^ 31.
Proof. intros [Hm Hv Ht _]. unfold npages, last_page, page_of, is_u32, USERSPACETOP, PAGE_SIZE in *. split_and!; dlia. Qed.

Lemma define_two data s1 s2 : segment_ok data s1 -> segment_ok data s2 -> define_list [s1; s2] as_empty = inr (as_for s1 s2).
Proof.
  intros H1 H2. pose proof (so_size _ _ H1). pose proof (so_size _ _ H2). destruct (segment_pages _ _ H1) as (N1 & E1 & B1 & _ & T1 & U1 & L1), (segment_pages _ _ H2) as (N2 & E2 & B2 & _ & T2 & U2 & L2).
  destruct (define_region_pages _ (p_memsz s1) U1) as [_ D1]; [lia|done|]. destruct (define_region_pages _ (p_memsz s2) U2) as [_ D2]; [lia|done|].
  fold (last_page s1) in D1. fold (last_page s2) in D2.
  unfold define_list, as_define_region, bind, get, modify. cbn [as_empty as_vbase1 Z.eqb as_vbase2 as_pbase1 as_pbase2 as_npages1 as_npages2 as_stackpbase].
  rewrite !page_of_land by done. unfold PAGE_SIZE in *. rewrite (proj2 (Z.eqb_neq (page_of (p_vaddr s1)) 0)) by lia. unfold as_for. cbn [as_vbase1 as_vbase2 as_pbase1 as_pbase2 as_npages1 as_npages2 as_stackpbase]. do 2 f_equal; lia.
Qed.

Definition in_pages (ph : Elf_Phdr) (va : Z) : Prop := page_of (p_vaddr ph) <= va < last_page ph.
Definition in_stack (va : Z) : Prop := USERSTACK - DUMBVM_STACKPAGES * PAGE_SIZE <= va < USERSTACK.

Lemma laid_out_for data s1 s2 p :
  segment_ok data s1 -> segment_ok data s2 -> 0 < p -> p mod PAGE_SIZE = 0 -> p + total (as_for s1 s2) <= RAM_MAX ->
  let a := laid_out (as_for s1 s2) p in
  as_ok a /\ faultable a = true /\ ForallOrdPairs apart (regions a) /\
  (forall va, is_Some (as_pa a va) <-> in_pages s1 va \/ in_pages s2 va \/ in_stack va).
Proof.
  intros H1 H2 Hp Hal Hmax a. destruct (segment_pages _ _ H1) as (N1 & E1 & B1 & A1 & T1 & _), (segment_pages _ _ H2) as (N2 & E2 & B2 & A2 & T2 & _).
  unfold total, in_pages, in_stack, RAM_MAX, Copyinout.USERSPACETOP, Dumbvm.USERSPACETOP, USERSTACK, MIPS_KSEG0, DUMBVM_STACKPAGES, PAGE_SIZE in *. cbn [as_for as_npages1 as_npages2] in Hmax.
  split_and!.
  - unfold as_ok, regions, a, laid_out. cbn [as_for as_vbase1 as_vbase2 as_npages1 as_npages2 as_pbase1 as_pbase2 as_stackpbase].
    rewrite !Forall_cons. unfold region_ok, RAM_MAX, PAGE_SIZE, DUMBVM_STACKPAGES, USERSTACK, Dumbvm.USERSPACETOP, MIPS_KSEG0.
    split_and!; first [apply Forall_nil; exact I|lia|dlia].
  - unfold faultable, a, laid_out. cbn [as_for as_vbase1 as_vbase2 as_npages1 as_npages2 as_pbase1 as_pbase2 as_stackpbase]. unfold PAGE_SIZE.
    repeat (apply andb_true_iff; split); apply negb_true_iff, Z.eqb_neq; lia.
  - unfold regions, a, laid_out. cbn [as_for as_vbase1 as_vbase2 as_npages1 as_npages2 as_pbase1 as_pbase2 as_stackpbase].
    repeat constructor; unfold apart, PAGE_SIZE; lia.
  - intros va. unfold as_pa, regions, a, laid_out, find_pa. cbn [as_for as_vbase1 as_vbase2 as_npages1 as_npages2 as_pbase1 as_pbase2 as_stackpbase].
    unfold PAGE_SIZE, DUMBVM_STACKPAGES, USERSTACK, Dumbvm.USERSPACETOP, MIPS_KSEG0.
    destruct ((page_of (p_vaddr s1) <=? va) && _) eqn:C1; [apply range_true in C1; rewrite is_Some_alt; lia|].
    destruct ((page_of (p_vaddr s2) <=? va) && _) eqn:C2; [apply range_true in C2; rewrite is_Some_alt; lia|].
    destruct ((_ <=? va) && (va <? 0x80000000 - _ + _)) eqn:C3; [apply range_true in C3; rewrite is_Some_alt; lia|].
    apply not_true_iff_false in C1, C2, C3. rewrite range_true in C1, C2, C3. split; [by intros []|lia].
Qed.

Lemma laid_out_frames s1 s2 p q va pa :
  as_pa (laid_out (as_for s1 s2) p) va = Some pa -> 0 <= npages s1 -> 0 <= npages s2 -> q = p + total (as_for s1 s2) -> p <= pa < q.
Proof.
  unfold as_pa, regions, laid_out, find_pa, total, DUMBVM_STACKPAGES, PAGE_SIZE.
  cbn [as_for as_vbase1 as_vbase2 as_npages1 as_npages2 as_pbase1 as_pbase2 as_stackpbase]. intros Hf N1 N2 ->.
  repeat case_match; simplify_eq; rewrite ?range_true in *; lia.
Qed.

Section Load.
Context {F : Type} `{!ExecFile F}.

(** The file system, the VM system and the address space of the process. *)
Record loader := mkLoader { ld_fs : F; ld_vm : vm; ld_as : addrspace }.

Definition on_as {A} (m : M addrspace A) : M loader A := zoom ld_as (fun a s => mkLoader (ld_fs s) (ld_vm s) a) m.
Definition on_both {A} (m : M (vm * addrspace) A) : M loader A :=
  zoom (fun s => (ld_vm s, ld_as s)) (fun p s => mkLoader (ld_fs s) (fst p) (snd p)) m.

(** The current address space. *)
Definition CURAS : option Z := Some 0.

(** [uio_kinit] and [VOP_READ] of a structure of [n] bytes; a short read is
    [ENOEXEC]. *)
Definition read_struct (v n offset : Z) : M loader (list Z) := fun s =>
  match VOP_READ v (ld_fs s, kxfer (zrep n 0) offset UIO_READ (clear_fault ∅) CURAS) with
  | Ret _ (f, x) =>
      let s' := mkLoader f (ld_vm s) (ld_as s) in
      if negb (uio_resid (xu x) =? 0) then Err ENOEXEC s' else Ret (kmem x) s'
  | Err e (f, _) => Err e (mkLoader f (ld_vm s) (ld_as s))
  | Crash c => Crash c
  end.

(** [VOP_READ] into user memory.  When the address space does not pass the
    assertions of [vm_fault], the first access panics. *)
Definition read_user (v : Z) (u : uio) : M loader uio := fun s =>
  let back x := put_phys (store_view (um (us x)) (ld_as s) (phys (ld_vm s))) (ld_vm s) in
  let m := if faultable (ld_as s) then user_view (ld_vm s) (ld_as s) else ∅ in
  match VOP_READ v (ld_fs s, mkXfer u [] (clear_fault m) CURAS) with
  | Ret _ (f, x) => Ret (xu x) (mkLoader f (back x) (ld_as s))
  | Err e (f, x) => if negb (faultable (ld_as s)) && (e =? EFAULT) then Crash Panicked else Err e (mkLoader f (back x) (ld_as s))
  | Crash c => Crash c
  end.

(** ** The loader *)

Definition load_segment (v offset vaddr memsize filesize : Z) (is_executable : bool) : M loader unit :=
  let filesize := if memsize <? filesize then memsize else filesize in
  let* u := read_user v (mkUio [(vaddr, memsize)] offset filesize
                          (if is_executable then UIO_USERISPACE else UIO_USERSPACE) UIO_READ CURAS) in
  if negb (uio_resid u =? 0) then err ENOEXEC else ret tt.

(** One turn of the loops over the program headers: [each] is for those to be
    loaded. *)
Fixpoint phdr_loop (v : Z) (eh : Elf_Ehdr) (each : Elf_Phdr -> M loader unit) (n : nat) (i : Z) : M loader unit :=
  match n with
  | O => ret tt
  | S n' =>
      let* bs := read_struct v PHDR_SIZE (phdr_offset eh i) in
      let ph := decode_phdr bs in
      if skipped ph then phdr_loop v eh each n' (i + 1)
      else if negb (p_type ph =? PT_LOAD) then err ENOEXEC
      else each ph ;; phdr_loop v eh each n' (i + 1)
  end.

Definition define_segment (ph : Elf_Phdr) : M loader unit := on_as (as_define_region (p_vaddr ph) (p_memsz ph)).
Definition read_segment (v : Z) (ph : Elf_Phdr) : M loader unit :=
  load_segment v (p_offset ph) (p_vaddr ph) (p_memsz ph) (p_filesz ph) (negb (Z.land (p_flags ph) PF_X =? 0)).

Definition load_elf (v : Z) : M loader Z :=
  let* bs := read_struct v EHDR_SIZE 0 in
  let eh := decode_ehdr bs in
  if negb (executable eh) then err ENOEXEC
  else
    phdr_loop v eh define_segment (Z.to_nat (e_phnum eh)) 0 ;;
    on_both as_prepare_load ;;
    phdr_loop v eh (read_segment v) (Z.to_nat (e_phnum eh)) 0 ;;
    on_both (let* a := gets snd in on_vm (as_complete_load a)) ;;
    ret (e_entry eh).

(** ** Reading structures *)

(** [s'] is [s], the file system apart. *)
Definition only_fs (v : Z) (data : list Z) (s s' : loader) : Prop :=
  ld_vm s' = ld_vm s /\ ld_as s' = ld_as s /\ file_has (ld_fs s') v data.

Lemma read_struct_spec v data n off s (Q : list Z -> loader -> Prop) (R : Z -> loader -> Prop) :
  file_has (ld_fs s) v data -> 0 < n < 2 ^ 16 -> 0 <= off < 2 ^ 32 ->
  (forall s', off + n <= zlen data -> only_fs v data s s' -> Q (field off n data) s') ->
  (forall s', zlen data < off + n -> only_fs v data s s' -> R ENOEXEC s') ->
  runs (read_struct v n off s) Q R.
Proof.
  intros Hf Hn Ho HQ HR. unfold read_struct. set (x := kxfer _ _ _ _ _). assert (zlen (zrep n 0) = n) as Hz by (apply zlen_zrep; lia).
  assert (xok x 0 n) as Hx by (split; simpl; rewrite ?Hz; try done; try lia).
  assert (SfsFile.request x UIO_READ 0 n) as Hreq by (split; [done|done|split; [by apply Forall_zrep|done]|simpl; rewrite Hz; lia]).
  pose proof (VOP_READ_ok (ld_fs s) v data x 0 n Hf Hreq ltac:(simpl; lia)) as Hr. cbv zeta in Hr. destruct (VOP_READ v (ld_fs s, x)) as [[] [f x']|e [f x']|c].
  - simpl in Hr. destruct Hr as [Hf' ->].
    change (xu (advance _ _)) with (xu (advance (SfsFile.readable (zlen data) off (zlen (zrep n 0))) x)). cbn [kmem advance put_bytes x kxfer].
    unfold x. simpl. rewrite Hz. set (k := SfsFile.readable (zlen data) off n). destruct (Z.eqb_spec (n - k) 0) as [E|E]; simpl.
    + assert (off + n <= zlen data /\ k = n) as [Hin ->] by (unfold k, SfsFile.readable in *; lia).
      assert (zsplice (zrep n 0) 0 (field off n data) = field off n data) as ->; [|by apply HQ].
      assert (zlen (field off n data) = n) as Hl by (unfold field; rewrite zlen_ztake; [done|rewrite zlen_zdrop; lia]).
      unfold zsplice. rewrite Hl. unfold zdrop at 1. rewrite drop_ge by (unfold zlen in Hz; lia). by rewrite app_nil_r.
    + apply HR; [unfold k, SfsFile.readable in *; lia|done].
  - exfalso. apply Hr. by left.
  - done.
Qed.

(** ** The loops *)

Lemma seqZ_S i (n : nat) : seqZ i (Z.of_nat (S n)) = i :: seqZ (i + 1) (Z.of_nat n).
Proof. rewrite seqZ_cons by lia. f_equal. f_equal; lia. Qed.

Lemma phdr_read v data eh i s (Q : list Z -> loader -> Prop) (R : Z -> loader -> Prop) :
  file_has (ld_fs s) v data ->
  (forall s' ph bs, phdr_at data eh i = Some ph -> ph = decode_phdr bs -> only_fs v data s s' -> Q bs s') ->
  (forall s', phdr_at data eh i = None -> only_fs v data s s' -> R ENOEXEC s') ->
  runs (read_struct v PHDR_SIZE (phdr_offset eh i) s) Q R.
Proof.
  intros Hf HQ HR. unfold phdr_at in *. assert (0 <= phdr_offset eh i < 2 ^ 32) as Ho by (apply Z.mod_pos_bound; lia).
  apply read_struct_spec with (data := data); [done|done|done| |]; intros s' Hl Hs.
  - rewrite (proj2 (Z.leb_le _ _)) in HQ by lia. by eapply HQ.
  - rewrite (proj2 (Z.leb_gt _ _)) in HR by lia. by apply HR.
Qed.

Lemma define_loop v data eh n i s :
  file_has (ld_fs s) v data ->
  let d := define_all (phdr_at data eh <$> seqZ i (Z.of_nat n)) (ld_as s) in
  runs (phdr_loop v eh define_segment n i s)
    (fun _ s' => d = inr (ld_as s') /\ ld_vm s' = ld_vm s /\ file_has (ld_fs s') v data)
    (fun e s' => d = inl e /\ ld_vm s' = ld_vm s /\ file_has (ld_fs s') v data).
Proof.
  revert i s. induction n as [|n IH]; intros i s Hf d; [done|]. unfold d. clear d. rewrite seqZ_S. cbn [phdr_loop fmap list_fmap].
  runs_steps. apply (phdr_read v data); [done| |intros s' -> (Ev & Ea & Hf'); by rewrite Ev].
  intros s' ph bs -> -> (Ev & Ea & Hf'). cbn [define_all]. rewrite <- Ea. rewrite <- Ev. clear s Ev Ea Hf. rename s' into s.
  destruct (skipped _); [by apply IH|]. destruct (p_type _ =? PT_LOAD); cbn [negb]; [|by runs_steps].
  runs_steps. unfold define_segment, on_as. apply runs_zoom. destruct (as_define_region _ _ (ld_as s)) as [[] a'|e a'|c] eqn:E; simpl.
  - by apply (IH (i + 1) (mkLoader (ld_fs s) (ld_vm s) a')).
  - done.
  - exfalso. revert E. unfold as_define_region, bind, get. by repeat case_match.
Qed.

Lemma define_all_good phs a a' : define_all phs a = inr a' -> Forall good phs.
Proof.
  revert a. induction phs as [|[ph|] phs IH]; intros a; cbn [define_all]; [done| |done].
  destruct (skipped ph) eqn:Es; [intros H; constructor; [by exists ph; split; [|left]|by eapply IH]|].
  destruct (Z.eqb_spec (p_type ph) PT_LOAD); [|done]. cbn [negb]. destruct (as_define_region _ _ a); try done.
  intros H. constructor; [by exists ph; split; [|right]|by eapply IH].
Qed.

(** A loop over the headers that never fails, with an invariant that names the
    segments done. *)
Lemma phdr_loop_rule v data eh each (I : list Elf_Phdr -> loader -> Prop) n i l s :
  let phs := phdr_at data eh <$> seqZ i (Z.of_nat n) in
  Forall good phs ->
  (forall l s s', only_fs v data s s' -> I l s -> I l s') -> (forall l s, I l s -> file_has (ld_fs s) v data) ->
  (forall l ph s, ph ∈ loads phs -> I l s -> returns (each ph s) (fun _ => I (l ++ [ph]))) ->
  I l s -> returns (phdr_loop v eh each n i s) (fun _ => I (l ++ loads phs)).
Proof.
  intros phs Hg Hfs Hf Heach. revert i l s phs Hg Heach. induction n as [|n IH]; intros i l s phs Hg Heach HI.
  { subst phs. simpl. by rewrite app_nil_r. }
  subst phs. rewrite seqZ_S in Hg, Heach |- *. cbn [phdr_loop fmap list_fmap] in *. runs_steps. apply (phdr_read v data); [by eapply Hf| |].
  2: { intros s' E _. apply Forall_cons in Hg as [(ph & Eph & _) _]. congruence. }
  intros s' ph bs E -> Hs'. rewrite E in Hg, Heach |- *. apply Forall_cons in Hg as [(ph & [= <-] & Hph) Hg]. unfold loads in *. cbn [omap list_omap] in *.
  specialize (Hfs _ _ _ Hs' HI). destruct Hph as [Hsk|Hld].
  - rewrite Hsk. rewrite skipped_load in * by done. by apply IH.
  - assert (skipped (decode_phdr bs) = false) as -> by (unfold skipped; by rewrite Hld).
    rewrite Hld in *. cbn [negb Z.eqb PT_LOAD Pos.eqb] in *. runs_steps.
    eapply runs_mono; [apply (Heach l _ s'); [by left|done]| |done]. intros ? s2 HI2. rewrite cons_middle, app_assoc. apply IH; [done| |done].
    intros l' ph s3 Hin. apply Heach. by right.
Qed.

(** ** Segments *)

Record loaded (v : Z) (data : list Z) (a : addrspace) (l : list Elf_Phdr) (s : loader) : Prop := {
  lo_as : ld_as s = a; lo_file : file_has (ld_fs s) v data;
  lo_segs : Forall (segment_ok data) l; lo_covers : Forall (covers a) l;
  lo_bytes : forall va, user_byte (ld_vm s) a va = image data a l va }.

Lemma read_segment_spec v data a l ph s :
  faultable a = true -> ForallOrdPairs apart (regions a) -> segment_ok data ph -> covers a ph ->
  loaded v data a l s -> returns (read_segment v ph s) (fun _ => loaded v data a (l ++ [ph])).
Proof.
  intros Hfa Hap Hph Hc [<- Hf Hs Hcs Hb]. destruct (file_has_bytes _ _ _ Hf) as [Hby Hlen]. pose proof Hph as [Hm Hv Ht (Hp & Ho & Hin)].
  unfold read_segment, load_segment. assert ((if p_memsz ph <? p_filesz ph then p_memsz ph else p_filesz ph) = file_part ph) as ->.
  { unfold file_part. destruct (Z.ltb_spec (p_memsz ph) (p_filesz ph)); lia. }
  assert (file_part ph <= p_memsz ph) as Hle by (unfold file_part; lia). unfold bind, read_user. rewrite Hfa. set (x := mkXfer _ _ _ _).
  assert (is_sys x = false) as Hsys by (unfold is_sys, x; simpl; by destruct (negb _)).
  assert (forall va, um (us x) !! va = image data (ld_as s) l va) as Hum by (intros va; simpl; by rewrite user_view_lookup).
  unfold USERSPACETOP, PAGE_SIZE in *.
  assert (xok x (p_vaddr ph) (p_memsz ph)) as Hx by (split; rewrite ?Hsys; simpl; try done; lia).
  assert (SfsFile.request x UIO_READ (p_vaddr ph) (p_memsz ph)) as Hreq.
  { split; [done|done|split; [by apply Forall_nil|]|simpl; lia]. intros va b. rewrite Hum. by apply image_byte. }
  assert (reach x (p_vaddr ph) (file_part ph)) as Hre.
  { right. destruct (decide (file_part ph = 0)); [by left|right]. split; [split; unfold USERSPACETOP; lia|]. intros i Hi. rewrite Hum.
    apply image_byte; [done..|]. apply Hc. lia. }
  pose proof (VOP_READ_ok (ld_fs s) v data x _ _ Hf Hreq ltac:(simpl; lia)) as Hr. cbv zeta in Hr.
  destruct (VOP_READ v (ld_fs s, x)) as [[] [f x']|e [f x']|c]; [|by destruct Hr as [_ []]|done]. simpl in Hr. destruct Hr as [Hf' ->].
  assert (SfsFile.readable (zlen data) (p_offset ph) (file_part ph) = file_part ph) as -> by (unfold SfsFile.readable; lia).
  cbn [xu advance put_bytes uio_resid]. rewrite xu_put. cbn [xu x uio_resid]. rewrite Z.sub_diag. simpl.
  assert (zlen (field (p_offset ph) (file_part ph) data) = file_part ph) as Hl by (unfold field; rewrite zlen_ztake; [done|rewrite zlen_zdrop; lia]).
  unfold put_bytes. rewrite Hsys. simpl. split; simpl; [done|done|by apply Forall_app; split; [|constructor]|by apply Forall_app; split; [|constructor]|].
  assert (forall va, set_bytes (user_view (ld_vm s) (ld_as s)) (p_vaddr ph) (field (p_offset ph) (file_part ph) data) !! va =
    image data (ld_as s) (l ++ [ph]) va) as Hset.
  { intros va. rewrite set_bytes_lookup, Hl. unfold image. rewrite foldl_app. simpl. unfold paint at 1. fold (image data (ld_as s) l). rewrite <- Hum.
    destruct (decide _) as [Hva|Hva]; [rewrite bool_decide_true by done|by rewrite bool_decide_false]. unfold field. by rewrite zlookup_ztake, zlookup_zdrop by lia. }
  intros va. rewrite store_view_byte; [apply Hset|done|]. intros y. rewrite Hset.
  apply image_byte; [done|by apply Forall_app; split; [|constructor]..].
Qed.

Lemma read_segment_vm v ph s (Q : loader -> Prop) :
  vm_ok (ld_vm s) -> returns (read_segment v ph s) (fun _ s' => Q s') ->
  returns (read_segment v ph s) (fun _ s' => Q s' /\ vm_ok (ld_vm s')).
Proof.
  intros Hv. unfold read_segment, load_segment, bind, read_user. destruct (VOP_READ v _) as [[] [f x]|e [f x]|c]; simpl.
  - by destruct (negb (uio_resid (xu x) =? 0)); simpl; [|intros HQ; split].
  - by destruct (negb (faultable (ld_as s)) && (e =? EFAULT)).
  - done.
Qed.

(** ** The whole load *)

Definition header (data : list Z) : Elf_Ehdr := decode_ehdr (field 0 EHDR_SIZE data).

Lemma phnum_range data : byte_list data -> EHDR_SIZE <= zlen data -> 0 <= e_phnum (header data).
Proof. intros Hd Hl. unfold header, decode_ehdr. simpl. by apply unbe_range, field_bytes, field_bytes. Qed.

Lemma phdrs_seq data eh : 0 <= e_phnum eh -> phdr_at data eh <$> seqZ 0 (Z.of_nat (Z.to_nat (e_phnum eh))) = phdrs data eh.
Proof. intros H. by rewrite Z2Nat.id. Qed.

(** C31. A program of two segments is loaded as its file says: every byte of a
    segment's file part comes from the file, the rest of its pages and the stack
    are zeros, and nothing else is mapped. *)
Theorem load_elf_exact (v : Z) (data : list Z) (s : loader) (s1 s2 : Elf_Phdr)
    (Hf : file_has (ld_fs s) v data) (Hv : vm_ok (ld_vm s)) (Has : ld_as s = as_empty)
    (Hlen : EHDR_SIZE <= zlen data) (Hex : executable (header data) = true)
    (Hgood : Forall good (phdrs data (header data))) (Hloads : loads (phdrs data (header data)) = [s1; s2])
    (H1 : segment_ok data s1) (H2 : segment_ok data s2)
    (Hroom : firstpaddr (vm_ram (ld_vm s)) + total (as_for s1 s2) <= lastpaddr (vm_ram (ld_vm s))) :
  returns (load_elf v s) (fun entry s' =>
    entry = e_entry (header data) /\ as_ok (ld_as s') /\ vm_ok (ld_vm s') /\ file_has (ld_fs s') v data /\
    (forall va, user_byte (ld_vm s') (ld_as s') va = image data (ld_as s') [s1; s2] va) /\
    (forall va, is_Some (user_byte (ld_vm s') (ld_as s') va) <-> in_pages s1 va \/ in_pages s2 va \/ in_stack va)).
Proof.
  destruct (file_has_bytes _ _ _ Hf) as [Hby _]. pose proof (phnum_range data Hby Hlen) as Hph.
  set (eh := header data) in *. unfold load_elf. runs_steps. apply (read_struct_spec v data); [done|done|done| |intros; lia]. intros t Hl (Ev & Ea & Hf0). change (decode_ehdr (field 0 EHDR_SIZE data)) with eh. clearbody eh. rewrite Hex. cbn [negb].
  runs_steps. pose proof (define_loop v data eh (Z.to_nat (e_phnum eh)) 0 t Hf0) as Hd. cbv zeta in Hd.
  rewrite phdrs_seq, define_all_list, Hloads, Ea, Has, (define_two data) in Hd by done.
  eapply runs_mono; [exact Hd| |by intros ? ? []]. intros [] t1 ([= Ea1] & Ev1 & Hf1). unfold on_both at 1. runs_steps. simpl. rewrite <- Ea1, Ev1, Ev.
  destruct (segment_pages _ _ H1) as (N1 & E1 & _), (segment_pages _ _ H2) as (N2 & E2 & _). destruct Hv as [Hlk Hram]. pose proof Hram as (Hr1 & Hr2 & Hr3).
  apply prepare_load_spec; simpl; try done; try lia. intros v' Hv' Ef El Hp _ _. set (p := firstpaddr (vm_ram (ld_vm s))) in *.
  destruct (laid_out_for data s1 s2 p) as (Hok & Hfa & Hap & Hdom); try done; try lia. set (a := laid_out (as_for s1 s2) p) in *.
  assert (Forall (covers a) [s1; s2]) as Hcov.
  { destruct (segment_pages _ _ H1) as (_ & _ & B1 & _ & T1 & _), (segment_pages _ _ H2) as (_ & _ & B2 & _ & T2 & _).
    repeat constructor; intros va Hva; apply Hdom; unfold in_pages; lia. }
  runs_steps. eapply runs_mono; [apply (phdr_loop_rule v data eh _ (fun l s => loaded v data a l s /\ vm_ok (ld_vm s)) _ _ [])| |done].
  - by rewrite phdrs_seq.
  - intros l u u' (E & E' & Hfu) [[A1 A2 A3 A4 A5] A6]. split; [split; rewrite ?E, ?E'; done|by rewrite E].
  - intros l u [[] _]. done.
  - intros l ph u. rewrite phdrs_seq, Hloads by done. intros Hin [Hu Hvu].
    assert (segment_ok data ph /\ covers a ph) as [Hsok Hsc].
    { apply list_elem_of_In in Hin. destruct Hin as [<-|[<-|[]]]; split; try done; by rewrite !Forall_cons in Hcov; apply Hcov. }
    pose proof (read_segment_spec v data a l ph u Hfa Hap Hsok Hsc Hu) as Hr. by apply read_segment_vm.
  - split; [|done]. split; simpl; [done|done|by constructor|by constructor|]. intros va. unfold image, blank, user_byte. simpl.
    destruct (as_pa a va) as [pa|] eqn:E; [|done]. simpl. f_equal. rewrite Hp. case_decide as Hd'; [done|]. exfalso. apply Hd'. eapply laid_out_frames; [exact E|lia|lia|exact Ef].
  - rewrite phdrs_seq, Hloads by done. intros ? u [[A1 A2 A3 A4 A5] A6]. unfold on_both, on_vm, as_complete_load. runs_steps.
    cbn [ld_vm ld_as ld_fs fst snd app] in *. rewrite A1. split_and!; try done. intros va. rewrite <- Hdom, A5. apply (image_byte data a [s1; s2] va Hby A3 A4).
Qed.

(** A file that is refused is refused with the error its headers call for, and
    no memory has been taken. *)
Theorem load_elf_rejects (v : Z) (data : list Z) (s : loader) (e : Z) (Hf : file_has (ld_fs s) v data)
    (He : (zlen data < EHDR_SIZE \/ executable (header data) = false) /\ e = ENOEXEC \/
          EHDR_SIZE <= zlen data /\ executable (header data) = true /\ define_all (phdrs data (header data)) (ld_as s) = inl e) :
  runs (load_elf v s) (fun _ _ => False) (fun e' s' => e' = e /\ ld_vm s' = ld_vm s /\ file_has (ld_fs s') v data).
Proof.
  destruct (file_has_bytes _ _ _ Hf) as [Hby _]. unfold load_elf. runs_steps. apply (read_struct_spec v data); [done|done|done| |].
  2: { intros t Hl (Ev & Ea & Hf0). destruct He as [[_ ->]|(? & _)]; [done|lia]. }
  intros t Hl (Ev & Ea & Hf0). fold (header data). pose proof (phnum_range data Hby Hl) as Hph.
  destruct He as [[[?|Hex] ->]|(_ & Hex & Hd)]; [lia|rewrite Hex; by runs_steps|]. rewrite Hex. cbn [negb]. runs_steps.
  pose proof (define_loop v data (header data) (Z.to_nat (e_phnum (header data))) 0 t Hf0) as Hloop. cbv zeta in Hloop.
  rewrite phdrs_seq, Ea, Hd, Ev in Hloop by done. eapply runs_mono; [exact Hloop|by intros ? ? []|]. intros e' s' ([= <-] & ? & ?). done.
Qed.
End Load.

(** ** SFS files *)

Section SfsExec.
Import Device Sfs SfsInv SfsFile SfsThm.
Context {D : Type} `{!BlockDevice D}.

Definition sfs_file_has (f : sfs_fs) (v : Z) (data : list Z) : Prop :=
  exists g I w, volume f g I /\ vnodes f !! v = Some w /\ sfi_size (sv_i w) <= MAXBLOCKS * SFS_BLOCKSIZE /\
    data = file_bytes g (sv_i w) 0 (sfi_size (sv_i w)).

Lemma field_file_bytes g i size off n : 0 <= off -> 0 <= n -> off + n <= size -> field off n (file_bytes g i 0 size) = file_bytes g i off n.
Proof.
  intros Ho Hn Hle. unfold field. assert (zlen (zdrop off (file_bytes g i 0 size)) = size - off) as Hlen.
  { rewrite zlen_zdrop; rewrite zlen_file_bytes; lia. }
  apply zlist_eq.
  - by rewrite zlen_ztake, zlen_file_bytes by (rewrite ?Hlen; lia).
  - intros k Hk. rewrite zlen_ztake in Hk by (rewrite Hlen; lia).
    rewrite zlookup_ztake, zlookup_zdrop, !zlookup_file_bytes by lia. done.
Qed.

#[export] Program Instance sfs_exec_file : ExecFile sfs_fs := {| VOP_READ := sfs_read; file_has := sfs_file_has |}.
Next Obligation.
  intros f v data (g & I & w & Hv & Hw & Hsz & ->). destruct (loaded _ _ _ _ _ (vo_inv _ _ _ Hv) Hw) as [_ Hwf]. pose proof (iw_size _ Hwf) as Hs.
  unfold is_u32 in Hs. split; [by eapply (file_bytes_u8 (held f) g I v), Hw; apply Hv|].
  rewrite zlen_file_bytes by lia. unfold MAXBLOCKS, SFS_BLOCKSIZE, SFS_DBPERIDB, SFS_NDIRECT in Hsz. lia.
Qed.
Next Obligation.
  intros f v data x base l (g & I & w & Hv & Hw & Hsz & ->) Hreq _. destruct (loaded _ _ _ _ _ (vo_inv _ _ _ Hv) Hw) as [_ Hwf]. pose proof (iw_size _ Hwf) as Hs.
  unfold is_u32 in Hs. cbv zeta. rewrite zlen_file_bytes by lia. pose proof (xo_offset _ _ _ (rq_ok _ _ _ _ Hreq)) as Ho. pose proof (xo_resid _ _ _ (rq_ok _ _ _ _ Hreq)) as Hr.
  assert (forall s : sfs_fs, untouched f g I s -> sfs_file_has s v (file_bytes g (sv_i w) 0 (sfi_size (sv_i w)))) as Hback.
  { intros f' (Hv' & Ev & _). exists g, I, w. by rewrite Ev. }
  eapply runs_mono; [by eapply read_spec| |]; cbv beta zeta.
  - intros _ s [-> Hu]. split; [by apply Hback|]. set (n := readable _ _ _). f_equal. f_equal.
    destruct (decide (n = 0)) as [->|]; [done|]. symmetry. apply field_file_bytes; unfold n, readable in *; lia.
  - intros e s ([[_ He]|[_ He]] & Hu & _); [lia|]. split; [by apply Hback|]. unfold iov_base in He. by rewrite (xo_iov _ _ _ (rq_ok _ _ _ _ Hreq)) in He.
Qed.
End SfsExec.

(** ** An example: a file in memory *)

Definition mem_read (v : Z) : M (list Z * xfer) unit :=
  let* s := get in
  let off := uio_offset (xu (snd s)) in
  let n := SfsFile.readable (zlen (fst s)) off (uio_resid (xu (snd s))) in
  let* _ := zoom snd (fun x s => (fst s, x)) (uiomove (field off n (fst s))) in
  ret tt.

#[local] Program Instance mem_exec_file : ExecFile (list Z) :=
  {| VOP_READ := mem_read; file_has f v data := f = data /\ byte_list data /\ zlen data < 2 ^ 31 |}.
Next Obligation. intros f v data (_ & ? & ?). done. Qed.
Next Obligation.
  intros f v data x base l (-> & Hb & Hl) Hreq _. destruct (SfsFile.rq_ok _ _ _ _ Hreq) as [Hiov Hbase Hres Hoff Hsp Hk Hu].
  cbv zeta. set (n := SfsFile.readable (zlen data) (uio_offset (xu x)) (uio_resid (xu x))).
  assert (0 <= n <= uio_resid (xu x)) as Hn by (unfold n, SfsFile.readable; lia).
  assert (zlen (field (uio_offset (xu x)) n data) = n) as Hz.
  { unfold field, n, SfsFile.readable. destruct (decide (zlen data <= uio_offset (xu x))).
    - by replace (Z.max _ _) with 0 by lia.
    - apply zlen_ztake. rewrite zlen_zdrop; lia. }
  unfold mem_read. runs_steps. simpl. fold n. eapply runs_mono; [eapply (uiomove_spec x base l); [apply Hreq|lia]| |]; cbv beta; rewrite Hz.
  - intros r x' (_ & -> & _). runs_steps. simpl. unfold moved. by rewrite (SfsFile.rq_dir _ _ _ _ Hreq).
  - intros e x' (_ & Hnr & _). simpl. split; [done|]. contradict Hnr. by apply (reach_le x base (uio_resid (xu x))).
Qed.

Definition demo_phdr (t off vaddr filesz memsz flags : Z) : list Z := words [t; off; vaddr; vaddr; filesz; memsz; flags; 4096].
Definition demo_elf : list Z :=
  ELFMAG ++ [ELFCLASS32; ELFDATA2MSB; EV_CURRENT] ++ zrep 9 0 ++ be 2 ET_EXEC ++ be 2 EM_MACHINE ++ words [EV_CURRENT; 0x400000; 52; 0; 0] ++
  be 2 52 ++ be 2 32 ++ be 2 3 ++ zrep 6 0 ++
  demo_phdr PT_MIPS_REGINFO 0 0 0 0 4 ++ demo_phdr PT_LOAD 148 0x400000 4 4 5 ++ demo_phdr PT_LOAD 152 0x10000000 2 8 6 ++
  [1; 2; 3; 4; 5; 6].
Definition demo_text : Elf_Phdr := mkPhdr PT_LOAD 148 0x400000 4 4 5.
Definition demo_data : Elf_Phdr := mkPhdr PT_LOAD 152 0x10000000 2 8 6.
Definition demo_loader (data : list Z) : loader (F := list Z) := mkLoader data vm0 as_empty.

Lemma demo_has : file_has (ld_fs (demo_loader demo_elf)) 0 demo_elf.
Proof. split; [done|]. split; [by repeat constructor|by vm_compute]. Qed.
Lemma demo_good : Forall good (phdrs demo_elf (header demo_elf)).
Proof.
  replace (phdrs demo_elf (header demo_elf)) with [Some (mkPhdr PT_MIPS_REGINFO 0 0 0 0 4); Some demo_text; Some demo_data] by (by vm_compute).
  repeat constructor; eexists; (split; [done|]); [by left|by right|by right].
Qed.
Lemma demo_segments : segment_ok demo_elf demo_text /\ segment_ok demo_elf demo_data.
Proof. split; (split; [done|by vm_compute|by vm_compute|by vm_compute]). Qed.

Lemma load_elf_exact_witness :
  is_ret (load_elf 0 (demo_loader demo_elf)) = true /\
  returns (load_elf 0 (demo_loader demo_elf)) (fun entry s' =>
    entry = e_entry (header demo_elf) /\ as_ok (ld_as s') /\ vm_ok (ld_vm s') /\ file_has (ld_fs s') 0 demo_elf /\
    (forall va, user_byte (ld_vm s') (ld_as s') va = image demo_elf (ld_as s') [demo_text; demo_data] va) /\
    (forall va, is_Some (user_byte (ld_vm s') (ld_as s') va) <-> in_pages demo_text va \/ in_pages demo_data va \/ in_stack va)).
Proof.
  assert (returns (load_elf 0 (demo_loader demo_elf)) (fun entry s' =>
    entry = e_entry (header demo_elf) /\ as_ok (ld_as s') /\ vm_ok (ld_vm s') /\ file_has (ld_fs s') 0 demo_elf /\
    (forall va, user_byte (ld_vm s') (ld_as s') va = image demo_elf (ld_as s') [demo_text; demo_data] va) /\
    (forall va, is_Some (user_byte (ld_vm s') (ld_as s') va) <-> in_pages demo_text va \/ in_pages demo_data va \/ in_stack va))) as H.
  { exact (load_elf_exact 0 demo_elf (demo_loader demo_elf) demo_text demo_data demo_has vm0_ok eq_refl ltac:(by vm_compute) ltac:(by vm_compute)
             demo_good ltac:(by vm_compute) (proj1 demo_segments) (proj2 demo_segments) ltac:(by vm_compute)). }
  split; [|exact H]. by destruct (load_elf 0 (demo_loader demo_elf)).
Defined.

Lemma load_elf_rejects_witness :
  runs (load_elf 0 (demo_loader [1; 2; 3])) (fun _ _ => False)
    (fun e' s' => e' = ENOEXEC /\ ld_vm s' = ld_vm (demo_loader [1; 2; 3]) /\ file_has (ld_fs s') 0 [1; 2; 3]).
Proof.
  refine (load_elf_rejects 0 [1; 2; 3] (demo_loader [1; 2; 3]) ENOEXEC _ _).
  - split; [done|]. split; [by repeat constructor|done].
  - left. split; [by left|done].
Defined.
End LoadElf.
