(* ===== verification/Emu.v ===== *)
(** * The emulator file system: src/dev/lamebus/emu.c

    [Emu] models the driver of the emulator's file server and the file system on
    top of it.  The server is hardware, the class [EmuCard]: what an operation
    does, given the registers and the I/O buffer.  A handle of the server is the
    only thing a vnode stands for, so that the interest is in the handles: who
    has them, and when they are closed. *)

From stdpp Require Import gmultiset.
From S2P Require Import Prelude Copyinout Uio Vfs.
Import Copyinout Uio Vfs.

Module Emu.

Definition EMU_MAXIO : Z := 16384.
Definition EMU_ROOTHANDLE : Z := 0.

Definition EMU_OP_OPEN : Z := 1.
Definition EMU_OP_CREATE : Z := 2.
Definition EMU_OP_EXCLCREATE : Z := 3.
Definition EMU_OP_CLOSE : Z := 4.
Definition EMU_OP_READ : Z := 5.
Definition EMU_OP_READDIR : Z := 6.
Definition EMU_OP_WRITE : Z := 7.
Definition EMU_OP_GETSIZE : Z := 8.
Definition EMU_OP_TRUNC : Z := 9.

Definition EMU_RES_SUCCESS : Z := 1.
Definition EMU_RES_BADHANDLE : Z := 2.
Definition EMU_RES_BADOP : Z := 3.
Definition EMU_RES_BADPATH : Z := 4.
Definition EMU_RES_BADSIZE : Z := 5.
Definition EMU_RES_EXISTS : Z := 6.
Definition EMU_RES_ISDIR : Z := 7.
Definition EMU_RES_MEDIA : Z := 8.
Definition EMU_RES_NOHANDLES : Z := 9.
Definition EMU_RES_NOSPACE : Z := 10.
Definition EMU_RES_NOTDIR : Z := 11.
Definition EMU_RES_UNKNOWN : Z := 12.
Definition EMU_RES_UNSUPP : Z := 13.
Definition ENFILE : Z := 29.

(** ** The server *)

(** [REG_HANDLE], [REG_OFFSET], [REG_IOLEN] and [REG_RESULT], and the buffer. *)
Record regs := mkRegs { reg_handle : Z; reg_offset : Z; reg_iolen : Z; reg_result : Z; reg_buf : list Z }.

Definition fatal (r : Z) : bool := (r =? EMU_RES_BADHANDLE) || (r =? EMU_RES_BADOP) || (r =? EMU_RES_BADSIZE).

(** How much of [n] bytes at [off] there is. *)
Definition available (size off n : Z) : Z := Z.max 0 (Z.min n (size - off)).

(** [handles] are those open, each for a file; [contents] what a file holds.
    [steady]: reading works. *)
Class EmuCard (C : Type) := {
  emu_exec : Z -> regs -> C -> C * regs;
  handles : C -> gmap Z Z;
  contents : C -> Z -> list Z;
  steady : C -> Prop;

  (** An operation on an open handle, of a size that fits, is not refused as
      such, and if it fails the handles are as before. *)
  exec_valid c op r c' r' : emu_exec op r c = (c', r') -> EMU_OP_OPEN <= op <= EMU_OP_TRUNC ->
    is_Some (handles c !! reg_handle r) -> 0 <= reg_iolen r <= EMU_MAXIO \/ op = EMU_OP_CLOSE \/ op = EMU_OP_GETSIZE \/ op = EMU_OP_TRUNC ->
    fatal (reg_result r') = false /\ zlen (reg_buf r') = zlen (reg_buf r) /\
    (reg_result r' <> EMU_RES_SUCCESS -> handles c' = handles c);
  (** A handle that was free, or none. *)
  exec_open c op r c' r' : emu_exec op r c = (c', r') -> op ∈ [EMU_OP_OPEN; EMU_OP_CREATE; EMU_OP_EXCLCREATE] ->
    reg_result r' = EMU_RES_SUCCESS -> handles c !! reg_handle r' = None /\ exists f, handles c' = <[reg_handle r' := f]> (handles c);
  exec_close c r c' r' : emu_exec EMU_OP_CLOSE r c = (c', r') -> reg_result r' = EMU_RES_SUCCESS ->
    handles c' = delete (reg_handle r) (handles c);
  exec_other c op r c' r' : emu_exec op r c = (c', r') -> EMU_OP_READ <= op <= EMU_OP_TRUNC -> handles c' = handles c;
  exec_iolen c op r c' r' : emu_exec op r c = (c', r') -> op ∈ [EMU_OP_READ; EMU_OP_READDIR] ->
    0 <= reg_iolen r -> 0 <= reg_iolen r' <= reg_iolen r /\ is_u32 (reg_offset r');
  exec_read c r c' r' f : emu_exec EMU_OP_READ r c = (c', r') -> steady c -> handles c !! reg_handle r = Some f ->
    0 <= reg_iolen r <= EMU_MAXIO -> zlen (reg_buf r) = EMU_MAXIO -> is_u32 (reg_offset r) -> zlen (contents c f) < 2 ^ 32 ->
    let n := available (zlen (contents c f)) (reg_offset r) (reg_iolen r) in
    steady c' /\ contents c' = contents c /\ reg_result r' = EMU_RES_SUCCESS /\
    reg_iolen r' = n /\ reg_offset r' = reg_offset r + n /\ ztake n (reg_buf r') = ztake n (zdrop (reg_offset r) (contents c f)) }.

Section Emu.
Context {C : Type} `{!EmuCard C}.

(** ** State *)

(** [struct emufs_vnode]; [ev_isdir] tells the function table. *)
Record evnode := mkEv { vn_refcount : Z; vn_opencount : Z; ev_handle : Z; ev_isdir : bool }.

(** The softc with the server, and the file system.  [e_lock]: whether this
    thread holds it; [depth] is the big lock's. *)
Record emu := mkEmu {
  e_card : C; e_regs : regs; e_result : Z; e_sem : Z; e_lock : bool;
  vnodes : gmap Z evnode; ef_vnodes : list Z; ef_root : option Z; next_vnode : Z; depth : Z; memory : list bool }.

Definition put_card (c : C) (r : regs) (s : emu) :=
  mkEmu c r (e_result s) (e_sem s) (e_lock s) (vnodes s) (ef_vnodes s) (ef_root s) (next_vnode s) (depth s) (memory s).
Definition put_sem (res n : Z) (s : emu) :=
  mkEmu (e_card s) (e_regs s) res n (e_lock s) (vnodes s) (ef_vnodes s) (ef_root s) (next_vnode s) (depth s) (memory s).
Definition put_lock (b : bool) (s : emu) :=
  mkEmu (e_card s) (e_regs s) (e_result s) (e_sem s) b (vnodes s) (ef_vnodes s) (ef_root s) (next_vnode s) (depth s) (memory s).
Definition put_pool (m : gmap Z evnode) (l : list Z) (s : emu) :=
  mkEmu (e_card s) (e_regs s) (e_result s) (e_sem s) (e_lock s) m l (ef_root s) (next_vnode s) (depth s) (memory s).
Definition put_root (r : option Z) (s : emu) :=
  mkEmu (e_card s) (e_regs s) (e_result s) (e_sem s) (e_lock s) (vnodes s) (ef_vnodes s) r (next_vnode s) (depth s) (memory s).
Definition put_next (n : Z) (s : emu) :=
  mkEmu (e_card s) (e_regs s) (e_result s) (e_sem s) (e_lock s) (vnodes s) (ef_vnodes s) (ef_root s) n (depth s) (memory s).
Definition put_depth (n : Z) (s : emu) :=
  mkEmu (e_card s) (e_regs s) (e_result s) (e_sem s) (e_lock s) (vnodes s) (ef_vnodes s) (ef_root s) (next_vnode s) n (memory s).
Definition put_memory (l : list bool) (s : emu) :=
  mkEmu (e_card s) (e_regs s) (e_result s) (e_sem s) (e_lock s) (vnodes s) (ef_vnodes s) (ef_root s) (next_vnode s) (depth s) l.

Definition vfs_biglock_acquire : M emu unit := modify (fun s => put_depth (depth s + 1) s).
Definition vfs_biglock_release : M emu unit := let* s := get in KASSERT (0 <? depth s) ;; modify (fun s => put_depth (depth s - 1) s).
(** A lock that the caller already holds is waited for in vain. *)
Definition lock_acquire : M emu unit := let* s := get in if e_lock s then crashed Hung else modify (put_lock true).
Definition lock_release : M emu unit := let* s := get in KASSERT (e_lock s) ;; modify (put_lock false).
Definition lock_do_i_hold : M emu bool := gets e_lock.

Definition kmalloc : M emu bool :=
  let* s := get in
  modify (put_memory (tail (memory s))) ;;
  ret (match memory s with [] => true | b :: _ => b end).

(** ** Hardware operations *)

Definition wreg_handle (h : Z) : M emu unit :=
  modify (fun s => let r := e_regs s in put_card (e_card s) (mkRegs h (reg_offset r) (reg_iolen r) (reg_result r) (reg_buf r)) s).
Definition wreg_offset (o : Z) : M emu unit :=
  modify (fun s => let r := e_regs s in put_card (e_card s) (mkRegs (reg_handle r) (u32 o) (reg_iolen r) (reg_result r) (reg_buf r)) s).
Definition wreg_iolen (n : Z) : M emu unit :=
  modify (fun s => let r := e_regs s in put_card (e_card s) (mkRegs (reg_handle r) (reg_offset r) (u32 n) (reg_result r) (reg_buf r)) s).
Definition wreg_result (n : Z) : M emu unit :=
  modify (fun s => let r := e_regs s in put_card (e_card s) (mkRegs (reg_handle r) (reg_offset r) (reg_iolen r) n (reg_buf r)) s).
Definition put_iobuf (b : list Z) : M emu unit :=
  modify (fun s => let r := e_regs s in put_card (e_card s) (mkRegs (reg_handle r) (reg_offset r) (reg_iolen r) (reg_result r) b) s).

Definition emu_irq : M emu unit :=
  let* s := get in
  modify (put_sem (reg_result (e_regs s)) (e_sem s)) ;;
  wreg_result 0 ;;
  modify (fun s => put_sem (e_result s) (e_sem s + 1) s).

(** [REG_OPER]: the server works, and interrupts when it is done. *)
Definition wreg_oper (op : Z) : M emu unit :=
  modify (fun s => let '(c, r) := emu_exec op (e_regs s) (e_card s) in put_card c r s) ;;
  emu_irq.

Definition translate_err (code : Z) : M emu unit :=
  if code =? EMU_RES_SUCCESS then ret tt
  else if (code =? EMU_RES_BADHANDLE) || (code =? EMU_RES_BADOP) || (code =? EMU_RES_BADSIZE) then panic
  else if code =? EMU_RES_BADPATH then err ENOENT
  else if code =? EMU_RES_EXISTS then err EEXIST
  else if code =? EMU_RES_ISDIR then err EISDIR
  else if code =? EMU_RES_MEDIA then err EIO
  else if code =? EMU_RES_NOHANDLES then err ENFILE
  else if code =? EMU_RES_NOSPACE then err ENOSPC
  else if code =? EMU_RES_NOTDIR then err ENOTDIR
  else if code =? EMU_RES_UNKNOWN then err EIO
  else if code =? EMU_RES_UNSUPP then err EUNIMP
  else err EAGAIN.

(** [P(sc->e_sem)] and the result. *)
Definition emu_waitdone : M emu unit :=
  let* s := get in
  if e_sem s =? 0 then crashed Hung
  else
    modify (put_sem (e_result s) (e_sem s - 1)) ;;
    translate_err (e_result s).

(** The end of a function: the lock is released, and the result returned. *)
Definition unlock_with {A} (r : A + Z) : M emu A :=
  lock_release ;;
  match r with inl a => ret a | inr e => err e end.

(** The new handle, and whether it is a directory. *)
Definition emu_open (handle : Z) (n : name) (create excl : bool) (mode : Z) : M emu (Z * bool) :=
  if EMU_MAXIO <? zlen n + 1 then err ENAMETOOLONG
  else
    let op := if create && excl then EMU_OP_EXCLCREATE else if create then EMU_OP_CREATE else EMU_OP_OPEN in
    lock_acquire ;;
    let* s := get in
    put_iobuf (zsplice (reg_buf (e_regs s)) 0 (n ++ [0])) ;;
    wreg_iolen (zlen n) ;;
    wreg_handle handle ;;
    wreg_oper op ;;
    let* r := try (emu_waitdone ;; let* s := get in ret (reg_handle (e_regs s), 0 <? reg_iolen (e_regs s))) in
    unlock_with r.

(** Ten more attempts on I/O errors. *)
Fixpoint close_loop (retries : nat) (handle : Z) : M emu unit :=
  wreg_handle handle ;;
  wreg_oper EMU_OP_CLOSE ;;
  let* r := try emu_waitdone in
  match r with
  | inl _ => ret tt
  | inr e =>
      match retries with
      | S n => if e =? EIO then close_loop n handle else err e
      | O => err e
      end
  end.

Definition emu_close (handle : Z) : M emu unit :=
  let* mine := lock_do_i_hold in
  (if* negb mine then lock_acquire) ;;
  let* r := try (close_loop 10 handle) in
  (if* negb mine then lock_release) ;;
  match r with inl _ => ret tt | inr e => err e end.

Definition lift {A} (m : M emu A) : M (emu * xfer) A := zoom fst (fun s t => (s, snd t)) m.
Definition lift_x {A} (m : M xfer A) : M (emu * xfer) A := zoom snd (fun x t => (fst t, x)) m.
Definition set_offset (o : Z) : M (emu * xfer) unit := lift_x (upd_uio (with_offset o)).

(** [uiomove(sc->e_iobuf, n, uio)] *)
Definition move_iobuf (n : Z) : M (emu * xfer) unit :=
  let* t := get in
  let buf := reg_buf (e_regs (fst t)) in
  let* b := lift_x (uiomove (ztake n buf)) in
  lift (put_iobuf (zsplice buf 0 b)).

Definition emu_doread (handle len op : Z) : M (emu * xfer) unit :=
  let* t := get in
  KASSERT (bool_decide (uio_dir (xu (snd t)) = UIO_READ)) ;;
  lift lock_acquire ;;
  lift (wreg_handle handle) ;;
  lift (wreg_iolen len) ;;
  let* t := get in
  lift (wreg_offset (uio_offset (xu (snd t)))) ;;
  lift (wreg_oper op) ;;
  let* r := try (lift emu_waitdone) in
  let* r :=
    (match r with
     | inr e => ret (inr e)
     | inl _ =>
         let* t := get in
         let* r := try (move_iobuf (reg_iolen (e_regs (fst t)))) in
         let* t := get in
         set_offset (reg_offset (e_regs (fst t))) ;;
         ret r
     end) in
  lift (unlock_with r).

Definition emu_read (handle len : Z) : M (emu * xfer) unit := emu_doread handle len EMU_OP_READ.
Definition emu_readdir (handle len : Z) : M (emu * xfer) unit := emu_doread handle len EMU_OP_READDIR.

Definition emu_write (handle len : Z) : M (emu * xfer) unit :=
  let* t := get in
  KASSERT (bool_decide (uio_dir (xu (snd t)) = UIO_WRITE)) ;;
  lift lock_acquire ;;
  lift (wreg_handle handle) ;;
  lift (wreg_iolen len) ;;
  let* t := get in
  lift (wreg_offset (uio_offset (xu (snd t)))) ;;
  let* r := try (move_iobuf len ;; lift (wreg_oper EMU_OP_WRITE) ;; lift emu_waitdone) in
  lift (unlock_with r).

Definition emu_getsize (handle : Z) : M emu Z :=
  lock_acquire ;;
  wreg_handle handle ;;
  wreg_oper EMU_OP_GETSIZE ;;
  let* r := try (emu_waitdone ;; let* s := get in ret (reg_iolen (e_regs s))) in
  unlock_with r.

Definition emu_trunc (handle len : Z) : M emu unit :=
  lock_acquire ;;
  wreg_handle handle ;;
  wreg_iolen len ;;
  wreg_oper EMU_OP_TRUNC ;;
  let* r := try emu_waitdone in
  unlock_with r.

(** ** Vnodes (vnode.c) *)

Definition get_ev (v : Z) : M emu evnode := let* s := get in of_option Wild (vnodes s !! v).
Definition upd_ev (v : Z) (g : evnode -> evnode) : M emu unit :=
  let* e := get_ev v in
  modify (fun s => put_pool (<[v := g e]> (vnodes s)) (ef_vnodes s) s).
Definition with_refs (r o : Z) (e : evnode) : evnode := mkEv r o (ev_handle e) (ev_isdir e).

Definition vnode_check (v : Z) (reclaim : bool) : M emu unit :=
  vfs_biglock_acquire ;;
  let* e := get_ev v in
  (if* vn_refcount e <? 0 then panic) ;;
  (if* (vn_refcount e =? 0) && negb reclaim then panic) ;;
  (if* vn_opencount e <? 0 then panic) ;;
  vfs_biglock_release.

Definition vnode_incref (v : Z) : M emu unit :=
  vfs_biglock_acquire ;;
  upd_ev v (fun e => with_refs (vn_refcount e + 1) (vn_opencount e) e) ;;
  vfs_biglock_release.

Definition vnode_cleanup (v : Z) : M emu unit :=
  let* e := get_ev v in
  KASSERT (vn_refcount e =? 1) ;;
  KASSERT (vn_opencount e =? 0) ;;
  upd_ev v (with_refs 0 0).

(** Where [v] is in the pool. *)
Fixpoint pool_index (l : list Z) (v i : Z) : option Z :=
  match l with
  | [] => None
  | w :: l' => if w =? v then Some i else pool_index l' v (i + 1)
  end.

(** The end of a function that holds both locks. *)
Definition unlock_both {A} (r : A + Z) : M emu A :=
  lock_release ;;
  vfs_biglock_release ;;
  match r with inl a => ret a | inr e => err e end.

Definition emufs_reclaim (v : Z) : M emu unit :=
  vfs_biglock_acquire ;;
  lock_acquire ;;
  let* e := get_ev v in
  if negb (vn_refcount e =? 1) then unlock_both (inr EBUSY)
  else
    let* r := try (emu_close (ev_handle e)) in
    match r with
    | inr e => unlock_both (inr e)
    | inl _ =>
        let* s := get in
        match pool_index (ef_vnodes s) v 0 with
        | None => panic
        | Some ix =>
            modify (fun s => put_pool (vnodes s) (delete (Z.to_nat ix) (ef_vnodes s)) s) ;;
            vnode_cleanup v ;;
            unlock_both (inl tt) ;;
            modify (fun s => put_pool (delete v (vnodes s)) (ef_vnodes s) s)
        end
    end.

Definition vnode_decref (v : Z) : M emu unit :=
  vfs_biglock_acquire ;;
  let* e := get_ev v in
  KASSERT (0 <? vn_refcount e) ;;
  (if 1 <? vn_refcount e then upd_ev v (fun e => with_refs (vn_refcount e - 1) (vn_opencount e) e)
   else let* _ := try (vnode_check v true ;; emufs_reclaim v) in ret tt) ;;
  vfs_biglock_release.

Definition vnode_incopen (v : Z) : M emu unit :=
  vfs_biglock_acquire ;;
  upd_ev v (fun e => with_refs (vn_refcount e) (vn_opencount e + 1) e) ;;
  vfs_biglock_release.

Definition emufs_close (v : Z) : M emu unit := ret tt.

Definition vnode_decopen (v : Z) : M emu unit :=
  vfs_biglock_acquire ;;
  let* e := get_ev v in
  KASSERT (0 <? vn_opencount e) ;;
  upd_ev v (fun e => with_refs (vn_refcount e) (vn_opencount e - 1) e) ;;
  (if 0 <? vn_opencount e - 1 then ret tt
   else let* _ := try (vnode_check v false ;; emufs_close v) in ret tt) ;;
  vfs_biglock_release.

(** ** Loading vnodes *)

(** The vnode of the pool with this handle. *)
Fixpoint pool_find (l : list Z) (handle : Z) : M emu (option Z) :=
  match l with
  | [] => ret None
  | v :: l' => let* e := get_ev v in if ev_handle e =? handle then ret (Some v) else pool_find l' handle
  end.

(** When there is no memory for the vnode, the big lock is not released. *)
Definition emufs_loadvnode (handle : Z) (isdir : bool) : M emu Z :=
  vfs_biglock_acquire ;;
  lock_acquire ;;
  let* s := get in
  let* found := pool_find (ef_vnodes s) handle in
  match found with
  | Some v =>
      vnode_incref v ;;
      unlock_both (inl v)
  | None =>
      let* ok := kmalloc in
      if negb ok then lock_release ;; err ENOMEM
      else
        let* v := gets next_vnode in
        modify (put_next (v + 1)) ;;
        modify (fun s => put_pool (<[v := mkEv 1 0 handle isdir]> (vnodes s)) (ef_vnodes s) s) ;;
        let* ok := kmalloc in
        if negb ok then
          vnode_cleanup v ;;
          let* r := try (unlock_both (inr ENOMEM : unit + Z)) in
          modify (fun s => put_pool (delete v (vnodes s)) (ef_vnodes s) s) ;;
          err ENOMEM
        else
          modify (fun s => put_pool (vnodes s) (ef_vnodes s ++ [v]) s) ;;
          unlock_both (inl v)
  end.

(** ** Operations on files and directories *)

Definition emufs_open (v openflags : Z) : M emu unit := if has_flag openflags O_APPEND then err EUNIMP else ret tt.
Definition emufs_opendir (v openflags : Z) : M emu unit :=
  if negb (Z.land openflags O_ACCMODE =? O_RDONLY) then err EISDIR
  else if has_flag openflags O_APPEND then err EISDIR
  else ret tt.

(** Fuel: a turn that does not end the loop lowers [uio_resid]. *)
Fixpoint io_loop (each : Z -> M (emu * xfer) unit) (fuel : nat) : M (emu * xfer) unit :=
  let* t := get in
  let resid := uio_resid (xu (snd t)) in
  if 0 <? resid then
    match fuel with
    | O => crashed Hung
    | S fuel' =>
        each (if EMU_MAXIO <? resid then EMU_MAXIO else resid) ;;
        let* t := get in
        if uio_resid (xu (snd t)) =? resid then ret tt else io_loop each fuel'
    end
  else ret tt.

Definition emufs_read (v : Z) : M (emu * xfer) unit :=
  let* e := lift (get_ev v) in
  let* t := get in
  KASSERT (bool_decide (uio_dir (xu (snd t)) = UIO_READ)) ;;
  io_loop (emu_read (ev_handle e)) (S (Z.to_nat (uio_resid (xu (snd t))))).

Definition emufs_getdirentry (v : Z) : M (emu * xfer) unit :=
  let* e := lift (get_ev v) in
  let* t := get in
  KASSERT (bool_decide (uio_dir (xu (snd t)) = UIO_READ)) ;;
  let resid := uio_resid (xu (snd t)) in
  emu_readdir (ev_handle e) (if EMU_MAXIO <? resid then EMU_MAXIO else resid).

Definition emufs_write (v : Z) : M (emu * xfer) unit :=
  let* e := lift (get_ev v) in
  let* t := get in
  KASSERT (bool_decide (uio_dir (xu (snd t)) = UIO_WRITE)) ;;
  io_loop (emu_write (ev_handle e)) (S (Z.to_nat (uio_resid (xu (snd t))))).

Definition emufs_ioctl (v op : Z) : M emu unit := err EINVAL.
Definition emufs_file_gettype (v : Z) : M emu Z := ret S_IFREG.
Definition emufs_dir_gettype (v : Z) : M emu Z := ret S_IFDIR.
Definition emufs_gettype (v : Z) : M emu Z :=
  let* e := get_ev v in
  vnode_check v false ;;
  if ev_isdir e then emufs_dir_gettype v else emufs_file_gettype v.

(** [st_size], [st_mode], [st_nlink] and [st_blocks]; the rest is zero. *)
Definition emufs_stat (v : Z) : M emu (list Z) :=
  let* e := get_ev v in
  let* size := emu_getsize (ev_handle e) in
  let* mode := emufs_gettype v in
  ret [size; Z.lor mode 0x1a4; 1; 0].

Definition emufs_tryseek (v pos : Z) : M emu unit := if pos <? 0 then err EINVAL else ret tt.
Definition emufs_dir_tryseek (v pos : Z) : M emu unit := err EUNIMP.
Definition emufs_fsync (v : Z) : M emu unit := ret tt.
Definition emufs_mmap (v : Z) : M emu unit := err EUNIMP.
Definition emufs_truncate (v len : Z) : M emu unit := let* e := get_ev v in emu_trunc (ev_handle e) len.

(** [emufs_creat] and [emufs_lookup] from the new handle on. *)
Definition load_or_close (r : Z * bool) : M emu Z :=
  let* l := try (emufs_loadvnode (fst r) (snd r)) in
  match l with
  | inl v => ret v
  | inr e => let* _ := try (emu_close (fst r)) in err e
  end.

Definition emufs_creat (dir : Z) (n : name) (excl : bool) (mode : Z) : M emu Z :=
  let* e := get_ev dir in
  let* r := emu_open (ev_handle e) n true excl mode in
  load_or_close r.
Definition emufs_lookup (dir : Z) (pathname : name) : M emu Z :=
  let* e := get_ev dir in
  let* r := emu_open (ev_handle e) pathname false false 0 in
  load_or_close r.

(** [strrchr(pathname, '/')]: what is before it, and after. *)
Fixpoint strrchr (p : name) : option (name * name) :=
  match p with
  | [] => None
  | c :: p' =>
      match strrchr p' with
      | Some (d, b) => Some (c :: d, b)
      | None => if c =? SLASH then Some ([], p') else None
      end
  end.

Definition emufs_lookparent (dir : Z) (pathname : name) (len : Z) : M emu (Z * name) :=
  match strrchr pathname with
  | None =>
      if len <? zlen pathname + 1 then err ENAMETOOLONG
      else vnode_incref dir ;; ret (dir, pathname)
  | Some (d, s) =>
      if len <? zlen s + 1 then err ENAMETOOLONG
      else let* v := emufs_lookup dir d in ret (v, s)
  end.

Definition emufs_namefile (v : Z) : M (emu * xfer) unit :=
  let* t := get in
  if bool_decide (ef_root (fst t) = Some v) then ret tt else err EUNIMP.

(** Not implemented, on directories. *)
Definition emufs_symlink (v : Z) (contents n : name) : M emu unit := err EUNIMP.
Definition emufs_mkdir (v : Z) (n : name) (mode : Z) : M emu unit := err EUNIMP.
Definition emufs_link (v : Z) (n : name) (target : Z) : M emu unit := err EUNIMP.
Definition emufs_remove (v : Z) (n : name) : M emu unit := err EUNIMP.
Definition emufs_rmdir (v : Z) (n : name) : M emu unit := err EUNIMP.
Definition emufs_rename (v1 : Z) (n1 : name) (v2 : Z) (n2 : name) : M emu unit := err EUNIMP.

(** Routines that fail. *)
Definition emufs_void_op_isdir (v : Z) : M emu unit := err EISDIR.
Definition emufs_uio_op_isdir (v : Z) : M (emu * xfer) unit := err EISDIR.
Definition emufs_uio_op_notdir (v : Z) : M (emu * xfer) unit := err ENOTDIR.
Definition emufs_name_op_notdir (v : Z) (n : name) : M emu unit := err ENOTDIR.
Definition emufs_readlink_notlink (v : Z) : M (emu * xfer) unit := err EINVAL.
Definition emufs_creat_notdir (v : Z) (n : name) (excl : bool) (mode : Z) : M emu Z := err ENOTDIR.
Definition emufs_symlink_notdir (v : Z) (contents n : name) : M emu unit := err ENOTDIR.
Definition emufs_mkdir_notdir (v : Z) (n : name) (mode : Z) : M emu unit := err ENOTDIR.
Definition emufs_link_notdir (v : Z) (n : name) (target : Z) : M emu unit := err ENOTDIR.
Definition emufs_rename_notdir (v1 : Z) (n1 : name) (v2 : Z) (n2 : name) : M emu unit := err ENOTDIR.
Definition emufs_lookup_notdir (v : Z) (pathname : name) : M emu Z := err ENOTDIR.
Definition emufs_lookparent_notdir (v : Z) (pathname : name) (len : Z) : M emu (Z * name) := err ENOTDIR.
Definition emufs_truncate_isdir (v len : Z) : M emu unit := err ENOTDIR.

(** ** The function tables *)

Definition emufs_fileops (v : Z) (r : request) : M emu unit :=
  match r with
  | Open flags => emufs_open v flags
  | Truncate len => emufs_truncate v len
  | Symlink n c => emufs_symlink_notdir v c n
  | Mkdir n m => emufs_mkdir_notdir v n m
  | Link n f => emufs_link_notdir v n f
  | Remove n | Rmdir n => emufs_name_op_notdir v n
  | Rename n1 v2 n2 => emufs_rename_notdir v n1 v2 n2
  end.
Definition emufs_dirops (v : Z) (r : request) : M emu unit :=
  match r with
  | Open flags => emufs_opendir v flags
  | Truncate len => emufs_truncate_isdir v len
  | Symlink n c => emufs_symlink v c n
  | Mkdir n m => emufs_mkdir v n m
  | Link n f => emufs_link v n f
  | Remove n => emufs_remove v n
  | Rmdir n => emufs_rmdir v n
  | Rename n1 v2 n2 => emufs_rename v n1 v2 n2
  end.

(** A call through the table: [vnode_check], then the function. *)
Definition dispatch {A} (v : Z) (file dir : M emu A) : M emu A :=
  vnode_check v false ;;
  let* e := get_ev v in
  if ev_isdir e then dir else file.
Definition dispatch_x (v : Z) (file dir : M (emu * xfer) unit) : M (emu * xfer) unit :=
  lift (vnode_check v false) ;;
  let* e := lift (get_ev v) in
  if ev_isdir e then dir else file.

Definition emu_vop (v : Z) (r : request) : M emu unit := dispatch v (emufs_fileops v r) (emufs_dirops v r).
Definition emu_vop_creat (v : Z) (n : name) (x : bool) (m : Z) : M emu Z := dispatch v (emufs_creat_notdir v n x m) (emufs_creat v n x m).
Definition emu_vop_lookup (v : Z) (p : name) : M emu Z := dispatch v (emufs_lookup_notdir v p) (emufs_lookup v p).
Definition emu_vop_lookparent (v : Z) (p : name) (len : Z) : M emu (Z * name) :=
  dispatch v (emufs_lookparent_notdir v p len) (emufs_lookparent v p len).
Definition emu_vop_read (v : Z) : M (emu * xfer) unit := dispatch_x v (emufs_read v) (emufs_uio_op_isdir v).
Definition emu_vop_write (v : Z) : M (emu * xfer) unit := dispatch_x v (emufs_write v) (emufs_uio_op_isdir v).
Definition emu_vop_readlink (v : Z) : M (emu * xfer) unit := dispatch_x v (emufs_readlink_notlink v) (emufs_uio_op_isdir v).
Definition emu_vop_getdirentry (v : Z) : M (emu * xfer) unit := dispatch_x v (emufs_uio_op_notdir v) (emufs_getdirentry v).
Definition emu_vop_namefile (v : Z) : M (emu * xfer) unit := dispatch_x v (emufs_uio_op_notdir v) (emufs_namefile v).
Definition emu_vop_tryseek (v pos : Z) : M emu unit := dispatch v (emufs_tryseek v pos) (emufs_dir_tryseek v pos).
Definition emu_vop_fsync (v : Z) : M emu unit := dispatch v (emufs_fsync v) (emufs_void_op_isdir v).
Definition emu_vop_mmap (v : Z) : M emu unit := dispatch v (emufs_mmap v) (emufs_void_op_isdir v).
Definition emu_vop_ioctl (v op : Z) : M emu unit := dispatch v (emufs_ioctl v op) (emufs_ioctl v op).
Definition emu_vop_stat (v : Z) : M emu (list Z) := dispatch v (emufs_stat v) (emufs_stat v).

(** ** The file system *)

Definition emufs_sync : M emu unit := ret tt.
Definition emufs_getvolname : option name := None.
Definition emufs_getroot : M emu Z :=
  let* s := get in
  match ef_root s with
  | None => panic
  | Some v => vnode_incref v ;; ret v
  end.
Definition emufs_unmount : M emu unit := err EBUSY.

(** [addfs] is [vfs_addfs(devname, ...)]. *)
Definition emufs_addtovfs (addfs : M emu unit) : M emu unit :=
  let* ok := kmalloc in
  if negb ok then err ENOMEM
  else
    modify (put_root None) ;;
    let* ok := kmalloc in
    if negb ok then err ENOMEM
    else
      modify (fun s => put_pool (vnodes s) [] s) ;;
      let* v := emufs_loadvnode EMU_ROOTHANDLE true in
      modify (put_root (Some v)) ;;
      let* r := try addfs in
      match r with
      | inl _ => ret tt
      | inr e => vnode_decref v ;; err e
      end.

(** [config_emu] after the semaphore and the lock were created. *)
Definition config_emu (lock_ok sem_ok : bool) (addfs : M emu unit) : M emu unit :=
  if negb lock_ok then err ENOMEM
  else if negb sem_ok then err ENOMEM
  else
    modify (put_lock false) ;;
    modify (put_sem 0 0) ;;
    emufs_addtovfs addfs.
End Emu.
End Emu.
