(* ===== verification/EmuThm.v ===== *)
(** * Theorems about the emulator file system

    [EmuThm] shows that the file system keeps its handles: a handle of the server
    is open exactly while a vnode stands for it, a vnode is loaded exactly while
    it is referred to, and the counts are those of the references.  Reading a
    file gives its bytes, so that programs can be loaded from it. *)

From stdpp Require Import gmultiset.
From S2P Require Import Prelude Copyinout Uio Vfs Emu.
Import Copyinout Uio Vfs Emu.

Module EmuThm.

(** Projections of updated states. *)
Ltac fields := cbn [e_card e_regs e_result e_sem e_lock vnodes ef_vnodes ef_root next_vnode depth memory
  put_card put_sem put_lock put_pool put_root put_next put_depth put_memory
  reg_handle reg_offset reg_iolen reg_result reg_buf fst snd] in *.

Section Thm.
Context {C : Type} `{!EmuCard C}.
Implicit Types (s : emu (C := C)) (R O : gmultiset Z).

(** ** Hardware operations *)

(** [s'] is [s] after operations of the server. *)
Definition served s s' : Prop :=
  exists c r res, s' = put_sem res 0 (put_card c r s) /\ zlen (reg_buf r) = zlen (reg_buf (e_regs s)) /\ e_sem s = 0.

Definition idle s : Prop := e_sem s = 0 /\ zlen (reg_buf (e_regs s)) = EMU_MAXIO.

Lemma served_refl s : idle s -> served s s.
Proof. intros [Hs Hb]. exists (e_card s), (e_regs s), (e_result s). split; [|done]. destruct s. simpl in *. by subst. Qed.

Lemma served_trans s1 s2 s3 : served s1 s2 -> served s2 s3 -> served s1 s3.
Proof. intros (c & r & n & -> & Hb & Hs) (c' & r' & n' & -> & Hb' & _). exists c', r', n'. split; [done|]. simpl in *. by rewrite Hb'. Qed.

Lemma served_idle s s' : idle s -> served s s' -> idle s'.
Proof. intros [Hs Hb] (c & r & n & -> & Hb' & _). split; simpl; [done|congruence]. Qed.

(** An operation and the wait for it. *)
Lemma operate op s (P : unit -> emu -> Prop) (E0 : Z -> emu -> Prop) :
  idle s -> EMU_OP_OPEN <= op <= EMU_OP_TRUNC -> is_Some (handles (e_card s) !! reg_handle (e_regs s)) ->
  0 <= reg_iolen (e_regs s) <= EMU_MAXIO \/ op = EMU_OP_CLOSE \/ op = EMU_OP_GETSIZE \/ op = EMU_OP_TRUNC ->
  (forall s1,
    (forall (Q : unit -> emu -> Prop) (E : Z -> emu -> Prop),
      (forall c r s', emu_exec op (e_regs s) (e_card s) = (c, r) -> served s s' -> e_card s' = c -> reg_result r = EMU_RES_SUCCESS ->
         e_regs s' = mkRegs (reg_handle r) (reg_offset r) (reg_iolen r) 0 (reg_buf r) -> Q tt s') ->
      (forall e s' c r, emu_exec op (e_regs s) (e_card s) = (c, r) -> served s s' -> handles (e_card s') = handles (e_card s) ->
         reg_result r <> EMU_RES_SUCCESS -> E e s') ->
      runs (emu_waitdone s1) Q E) -> P tt s1) ->
  runs (wreg_oper op s) P E0.
Proof.
  intros [Hs Hb] Hop Hh Hl HP. unfold wreg_oper, emu_irq, wreg_result. runs_steps. apply HP. clear HP P E0. intros Q E HQ HE.
  destruct (emu_exec op (e_regs s) (e_card s)) as [c r] eqn:Ex.
  destruct (exec_valid _ _ _ _ _ Ex Hop Hh Hl) as (Hf & Hlen & Hsame). unfold emu_waitdone. runs_steps. simpl. rewrite Hs. simpl. runs_steps.
  set (s' := put_sem _ _ _). assert (served s s') as Hsv.
  { exists c, (mkRegs (reg_handle r) (reg_offset r) (reg_iolen r) 0 (reg_buf r)), (reg_result r). by split. }
  unfold translate_err. fold (fatal (reg_result r)). rewrite Hf. destruct (Z.eqb_spec (reg_result r) EMU_RES_SUCCESS) as [E1|E1]; [by runs_steps; eapply HQ|].
  assert (forall e, E e s') as He by (intros e; eapply HE; [done|done|by apply Hsame|done]).
  repeat (match goal with |- context [if ?b then _ else _] => destruct b end; [by runs_steps|]). by runs_steps.
Qed.

Lemma unlock_served s s1 : e_lock s = false -> served (put_lock true s) s1 -> served s (put_lock false s1) /\ e_lock s1 = true.
Proof.
  intros Hl (c & r & n & -> & Hb & Hs). split; [|done]. exists c, r, n. split; [|done]. destruct s. simpl in *. by subst.
Qed.

(** Registers are written before an operation. *)
Lemma served_regs s r : idle s -> zlen (reg_buf r) = zlen (reg_buf (e_regs s)) -> served s (put_card (e_card s) r s).
Proof. intros [Hs Hb] Hl. exists (e_card s), r, (e_result s). split; [|done]. destruct s. simpl in *. by subst. Qed.

Lemma runs_unlock {A} (r : A + Z) s s1 (Q : A -> emu -> Prop) (E : Z -> emu -> Prop) :
  e_lock s = false -> served (put_lock true s) s1 ->
  (served s (put_lock false s1) -> match r with inl a => Q a (put_lock false s1) | inr e => E e (put_lock false s1) end) ->
  runs (unlock_with r s1) Q E.
Proof.
  intros Hl Hs Hr. destruct (unlock_served s s1 Hl Hs) as [Hs' Hl1]. unfold unlock_with, lock_release. runs_steps. apply runs_KASSERT; [done|]. runs_steps.
  specialize (Hr Hs'). by destruct r; runs_steps.
Qed.

Lemma emu_open_spec h n create excl mode s (Q : Z * bool -> emu -> Prop) (E : Z -> emu -> Prop) :
  idle s -> e_lock s = false -> is_Some (handles (e_card s) !! h) ->
  (forall h' d s' f, served s s' -> handles (e_card s) !! h' = None -> handles (e_card s') = <[h' := f]> (handles (e_card s)) -> Q (h', d) s') ->
  (forall e s', served s s' -> handles (e_card s') = handles (e_card s) -> E e s') ->
  runs (emu_open h n create excl mode s) Q E.
Proof.
  intros Hi Hl Hh HQ HE. unfold emu_open. destruct (Z.ltb_spec EMU_MAXIO (zlen n + 1)) as [Hlong|Hn]; [runs_steps; apply HE; [by apply served_refl|done]|].
  set (op := if create && excl then _ else _). assert (op ∈ [EMU_OP_OPEN; EMU_OP_CREATE; EMU_OP_EXCLCREATE]) as Hop.
  { unfold op. rewrite !elem_of_cons. destruct (create && excl), create; auto. }
  unfold lock_acquire, put_iobuf, wreg_iolen, wreg_handle. runs_steps. rewrite Hl. runs_steps. fields. pose proof (zlen_nonneg n) as Hn0. destruct Hi as [Hs Hb].
  set (s1 := put_card _ _ _). assert (zlen (reg_buf (e_regs s1)) = EMU_MAXIO) as Hb1.
  { simpl. rewrite zlen_zsplice; rewrite ?zlen_app; change (zlen [0]) with 1; lia. }
  assert (served (put_lock true s) s1) as Hs1 by (exists (e_card s), (e_regs s1), (e_result s); split; [destruct s; simpl in *; by subst|split; [simpl in *; congruence|done]]).
  assert (u32 (zlen n) = zlen n) as Hu by (apply u32_small; unfold is_u32, EMU_MAXIO in *; lia).
  apply (operate op); [by split| |done|left; simpl; unfold EMU_MAXIO in *; lia|].
  { unfold EMU_OP_OPEN, EMU_OP_TRUNC. rewrite !elem_of_cons in Hop. unfold EMU_OP_OPEN, EMU_OP_CREATE, EMU_OP_EXCLCREATE in Hop. set_solver by lia. }
  intros s2' Hw. runs_steps. apply Hw; clear Hw.
  - intros c r s2 Ex Hs2 Hc Hok Hr. runs_steps. apply (runs_unlock _ s); [done|by eapply served_trans|]. intros Hfin.
    destruct (exec_open _ _ _ _ _ Ex Hop Hok) as (Hnew & f & Hins). rewrite Hr. simpl. eapply (HQ _ _ _ f); [done|done|]. simpl. by rewrite Hc.
  - intros e s2 c r Ex Hs2 Hsame _. apply (runs_unlock _ s); [done|by eapply served_trans|]. intros Hfin. by apply HE.
Qed.

Lemma close_loop_spec retries h s (Q : unit -> emu -> Prop) (E : Z -> emu -> Prop) :
  idle s -> is_Some (handles (e_card s) !! h) ->
  (forall s', served s s' -> handles (e_card s') = delete h (handles (e_card s)) -> Q tt s') ->
  (forall e s', served s s' -> handles (e_card s') = handles (e_card s) -> E e s') ->
  runs (close_loop retries h s) Q E.
Proof.
  revert s. induction retries as [|n IH]; intros s Hi Hh HQ HE; cbn [close_loop]; unfold wreg_handle; runs_steps; set (s1 := put_card _ _ _).
  all: assert (served s s1) as Hs1 by (by apply served_regs). all: pose proof (served_idle _ _ Hi Hs1) as Hi1.
  all: apply (operate EMU_OP_CLOSE); [done|done|done|by right; left|]; intros s2' Hw; runs_steps; apply Hw; clear Hw.
  all: try (intros c r s2 Ex Hs2 Hc Hok Hr; runs_steps; apply HQ; [exact (served_trans _ _ _ Hs1 Hs2)|]; rewrite Hc; by apply (exec_close _ _ _ _ Ex)).
  all: intros e s2 c r Ex Hs2 Hsame _; pose proof (served_trans _ _ _ Hs1 Hs2) as H12; runs_steps.
  { by apply HE. }
  destruct (e =? EIO); [|runs_steps; by apply HE].
  apply IH; [by eapply served_idle|by rewrite Hsame| |]; rewrite Hsame; intros; (apply HQ || apply HE); try done; by apply (served_trans _ s2).
Qed.

Lemma emu_close_spec h s (Q : unit -> emu -> Prop) (E : Z -> emu -> Prop) :
  idle s -> is_Some (handles (e_card s) !! h) ->
  (forall s', served s s' -> handles (e_card s') = delete h (handles (e_card s)) -> Q tt s') ->
  (forall e s', served s s' -> handles (e_card s') = handles (e_card s) -> E e s') ->
  runs (emu_close h s) Q E.
Proof.
  intros Hi Hh HQ HE. unfold emu_close, lock_do_i_hold. runs_steps. destruct (e_lock s) eqn:El; cbn [negb]; runs_steps.
  - apply close_loop_spec; [done|done| |]; intros; runs_steps; auto.
  - unfold lock_acquire. runs_steps. rewrite El. runs_steps. unfold lock_release.
    apply close_loop_spec; [done|done| |]; intros; runs_steps; (apply runs_KASSERT; [by eapply unlock_served|]); runs_steps; (apply HQ || apply HE); try done; by eapply unlock_served.
Qed.

(** An operation that changes no handle, in a state [s] where only registers
    were written since [s0]. *)
Lemma quiet_operate op s0 s (P : unit -> emu -> Prop) (E0 : Z -> emu -> Prop) :
  idle s -> served s0 s -> e_card s = e_card s0 -> EMU_OP_READ <= op <= EMU_OP_TRUNC -> is_Some (handles (e_card s) !! reg_handle (e_regs s)) ->
  0 <= reg_iolen (e_regs s) <= EMU_MAXIO \/ op = EMU_OP_CLOSE \/ op = EMU_OP_GETSIZE \/ op = EMU_OP_TRUNC ->
  (forall s1,
    (forall (Q : unit -> emu -> Prop) (E : Z -> emu -> Prop),
      (forall s', served s0 s' -> handles (e_card s') = handles (e_card s0) -> Q tt s') ->
      (forall e s', served s0 s' -> handles (e_card s') = handles (e_card s0) -> E e s') ->
      runs (emu_waitdone s1) Q E) -> P tt s1) ->
  runs (wreg_oper op s) P E0.
Proof.
  intros Hi Hs Hc Hop Hh Hlen HP. apply (operate op); [done|unfold EMU_OP_READ, EMU_OP_OPEN in *; lia|done|done|].
  intros s2 Hw. apply HP. intros Q E HQ HE. rewrite <- Hc in HQ, HE. apply Hw.
  - intros c r' s3 Ex Hs3 Hc3 _ _. apply HQ; [by apply (served_trans _ s)|]. rewrite Hc3. by apply (exec_other _ _ _ _ _ Ex).
  - intros e s3 c r' _ Hs3 Hsame _. apply HE; [by apply (served_trans _ s)|done].
Qed.

(** Only registers were written. *)
Lemma served_written s r : idle s -> zlen (reg_buf r) = EMU_MAXIO -> served (put_lock true s) (put_card (e_card s) r (put_lock true s)).
Proof. intros Hi Hr. apply (served_regs (put_lock true s)); [done|]. destruct Hi as [_ Hi]. simpl. congruence. Qed.

Lemma emu_getsize_spec h s (Q : Z -> emu -> Prop) (E : Z -> emu -> Prop) :
  idle s -> e_lock s = false -> is_Some (handles (e_card s) !! h) ->
  (forall n s', served s s' -> handles (e_card s') = handles (e_card s) -> Q n s') ->
  (forall e s', served s s' -> handles (e_card s') = handles (e_card s) -> E e s') ->
  runs (emu_getsize h s) Q E.
Proof.
  intros Hi Hl Hh HQ HE. unfold emu_getsize, lock_acquire, wreg_handle. runs_steps. rewrite Hl. runs_steps.
  apply (quiet_operate EMU_OP_GETSIZE (put_lock true s)); [apply Hi|refine (served_written s _ Hi _); apply Hi|done|done|done|by right; right; left|]. intros s1 Hw. runs_steps.
  apply Hw; intros; runs_steps; (apply (runs_unlock _ s); [done|done|]); auto.
Qed.

Lemma emu_trunc_spec h len s (Q : unit -> emu -> Prop) (E : Z -> emu -> Prop) :
  idle s -> e_lock s = false -> is_Some (handles (e_card s) !! h) ->
  (forall s', served s s' -> handles (e_card s') = handles (e_card s) -> Q tt s') ->
  (forall e s', served s s' -> handles (e_card s') = handles (e_card s) -> E e s') ->
  runs (emu_trunc h len s) Q E.
Proof.
  intros Hi Hl Hh HQ HE. unfold emu_trunc, lock_acquire, wreg_handle, wreg_iolen. runs_steps. rewrite Hl. runs_steps.
  apply (quiet_operate EMU_OP_TRUNC (put_lock true s)); [apply Hi|refine (served_written s _ Hi _); apply Hi|done|done|done|by right; right; right|]. intros s1 Hw. runs_steps.
  apply Hw; intros; runs_steps; (apply (runs_unlock _ s); [done|done|]); auto.
Qed.

(** ** The vnodes *)

(** The counts of a vnode are those of the references held; with none, one is
    left over. *)
Definition vn_ok R O (v : Z) (e : evnode) : Prop :=
  vn_refcount e = Z.max 1 (Z.of_nat (multiplicity v (R ⊎ O))) /\ vn_opencount e = Z.of_nat (multiplicity v O).

(** [R] and [O] are the references held, counted and opened; [X] is a handle
    that has no vnode yet.  Each handle that is open is in one place. *)
Record pool_ok (H : gmap Z Z) (m : gmap Z evnode) (l : list Z) (nx : Z) R O (X : option Z) : Prop := {
  po_nodup : NoDup l;
  po_dom : forall v, v ∈ l <-> is_Some (m !! v);
  po_next : forall v e, m !! v = Some e -> v < nx;
  po_counts : forall v e, m !! v = Some e -> vn_ok R O v e;
  po_held : forall v, v ∈ R ⊎ O -> is_Some (m !! v);
  po_open : forall h, is_Some (H !! h) <-> X = Some h \/ exists v e, m !! v = Some e /\ ev_handle e = h;
  po_inj : forall v w e e', m !! v = Some e -> m !! w = Some e' -> ev_handle e = ev_handle e' -> v = w;
  po_spare : forall v e, m !! v = Some e -> X <> Some (ev_handle e) }.

Definition pool s R O X : Prop := pool_ok (handles (e_card s)) (vnodes s) (ef_vnodes s) (next_vnode s) R O X.

(** No allocation fails. *)
Definition plenty s : Prop := Forall (eq true) (memory s).

(** What a call leaves as it was; the vnodes of [U] stand for the same files. *)
Definition frame s (U : gmultiset Z) s' : Prop :=
  e_lock s' = e_lock s /\ depth s' = depth s /\ ef_root s' = ef_root s /\ (idle s -> idle s') /\
  (plenty s -> plenty s') /\
  forall v e, v ∈ U -> vnodes s !! v = Some e -> exists e', vnodes s' !! v = Some e' /\ ev_handle e' = ev_handle e /\ ev_isdir e' = ev_isdir e.

Lemma frame_trans s1 s2 s3 U : frame s1 U s2 -> frame s2 U s3 -> frame s1 U s3.
Proof.
  intros (H1 & H2 & H3 & H4 & H5 & H6) (H1' & H2' & H3' & H4' & H5' & H6'). unfold frame. split_and!; [congruence|congruence|congruence|auto|auto|].
  intros v e Hv He. destruct (H6 v e Hv He) as (e1 & He1 & ? & ?). destruct (H6' v e1 Hv He1) as (e2 & He2 & ? & ?). exists e2. split_and!; [done|congruence|congruence].
Qed.

Lemma served_frame s s' U : served s s' -> frame s U s'.
Proof. intros Hs. unfold frame. pose proof (served_idle s s') as Hi. destruct Hs as (c & r & n & -> & Hb & Hs). split_and!; try done; [intros Hi'; apply Hi; [done|by exists c, r, n]|]. intros v e _ He. by exists e. Qed.

(** The operations of the server leave the vnodes alone. *)
Lemma served_pool s s' R O X : served s s' -> handles (e_card s') = handles (e_card s) -> pool s R O X -> pool s' R O X.
Proof. intros (c & r & n & -> & _ & _) Hh. unfold pool. by rewrite Hh. Qed.

(** Counting a vnode up or down. *)
Lemma pool_upd_ok H m l nx R O X R' O' v e e' : pool_ok H m l nx R O X -> m !! v = Some e -> ev_handle e' = ev_handle e -> vn_ok R' O' v e' ->
  (forall w, w <> v -> multiplicity w (R' ⊎ O') = multiplicity w (R ⊎ O) /\ multiplicity w O' = multiplicity w O) ->
  pool_ok H (<[v := e']> m) l nx R' O' X.
Proof.
  intros Hp He Hh Hok Hw.
  assert (forall w a, <[v := e']> m !! w = Some a -> exists a', m !! w = Some a' /\ ev_handle a' = ev_handle a) as Hold.
  { intros w a. destruct (decide (v = w)) as [<-|Hne]; [rewrite lookup_insert_eq; intros [= <-]; by exists e|rewrite lookup_insert_ne by done; by exists a]. }
  assert (forall w, is_Some (<[v := e']> m !! w) <-> is_Some (m !! w)) as Hdom.
  { intros w. rewrite lookup_insert_is_Some. destruct (decide (v = w)) as [<-|Hne]; [|by intuition]. rewrite He. split; [by intros _|auto]. }
  split.
  - apply Hp.
  - intros w. rewrite Hdom. apply Hp.
  - intros w a (a' & Ha' & _)%Hold. by eapply po_next.
  - intros w a. destruct (decide (v = w)) as [<-|Hne]; [rewrite lookup_insert_eq; by intros [= <-]|rewrite lookup_insert_ne by done].
    intros Ha. destruct (Hw w ltac:(done)) as [E1 E2]. unfold vn_ok. rewrite E1, E2. by eapply po_counts.
  - intros w Hin. rewrite Hdom. destruct (decide (v = w)) as [<-|Hne]; [by rewrite He|]. eapply po_held; [done|].
    rewrite elem_of_multiplicity in Hin |- *. by rewrite <- (proj1 (Hw w ltac:(done))).
  - intros h. rewrite (po_open _ _ _ _ _ _ _ Hp h). apply or_iff_compat_l. split; intros (w & a & Ha & <-).
    + destruct (decide (v = w)) as [<-|Hne]; [exists v, e'; rewrite lookup_insert_eq; split; [done|congruence]|exists w, a; by rewrite lookup_insert_ne].
    + destruct (Hold w a Ha) as (a' & Ha' & Hh'). by exists w, a'.
  - intros w1 w2 a1 a2 (b1 & Hb1 & H1)%Hold (b2 & Hb2 & H2)%Hold Heq. eapply po_inj; [done|exact Hb1|exact Hb2|congruence].
  - intros w a (b & Hb & Hbh)%Hold. rewrite <- Hbh. by eapply po_spare.
Qed.

Lemma runs_get_ev s v e (Q : evnode -> emu -> Prop) E : vnodes s !! v = Some e -> Q e s -> runs (get_ev v s) Q E.
Proof. intros He HQ. unfold get_ev. runs_steps. by eapply runs_of_option. Qed.

Lemma runs_upd_ev s v e g (Q : unit -> emu -> Prop) E :
  vnodes s !! v = Some e -> Q tt (put_pool (<[v := g e]> (vnodes s)) (ef_vnodes s) s) -> runs (upd_ev v g s) Q E.
Proof. intros He HQ. unfold upd_ev. runs_steps. eapply runs_get_ev; [done|]. by runs_steps. Qed.

Lemma runs_biglock_release s (Q : unit -> emu -> Prop) E :
  0 < depth s -> Q tt (put_depth (depth s - 1) s) -> runs (vfs_biglock_release s) Q E.
Proof. intros Hd HQ. unfold vfs_biglock_release. runs_steps. apply runs_KASSERT; [lia|]. by runs_steps. Qed.

(** A vnode that is held can be counted. *)
Lemma held_ev s R O X v : pool s R O X -> v ∈ R ⊎ O ->
  exists e, vnodes s !! v = Some e /\ vn_ok R O v e /\ 0 < vn_refcount e /\ 0 <= vn_opencount e.
Proof.
  intros Hp Hv. destruct (po_held _ _ _ _ _ _ _ Hp v Hv) as [e He]. pose proof (po_counts _ _ _ _ _ _ _ Hp v e He) as Hok.
  exists e. split_and!; [done|done| |]; destruct Hok; lia.
Qed.

Lemma frame_upd s U v e e' d m : vnodes s !! v = Some e -> ev_handle e' = ev_handle e -> ev_isdir e' = ev_isdir e -> d = depth s -> m = <[v := e']> (vnodes s) ->
  frame s U (put_depth d (put_pool m (ef_vnodes s) s)).
Proof.
  intros He Hh Hd -> ->. unfold frame. split_and!; try done. simpl. intros w a _ Ha. destruct (decide (v = w)) as [<-|Hne].
  - exists e'. rewrite lookup_insert_eq. split_and!; [done|congruence|congruence].
  - exists a. by rewrite lookup_insert_ne.
Qed.

Lemma counted s R O X R' O' v e r o (Q : unit -> emu -> Prop) E g :
  pool s R O X -> 0 <= depth s -> vnodes s !! v = Some e -> g e = with_refs r o e -> vn_ok R' O' v (g e) ->
  (forall w, w <> v -> multiplicity w (R' ⊎ O') = multiplicity w (R ⊎ O) /\ multiplicity w O' = multiplicity w O) ->
  (forall s', pool s' R' O' X -> frame s (R ⊎ O) s' -> Q tt s') ->
  runs ((upd_ev v g ;; vfs_biglock_release) (put_depth (depth s + 1) s)) Q E.
Proof.
  intros Hp Hd He Hg Hok Hw HQ. runs_steps. eapply runs_upd_ev; [exact He|]. apply runs_biglock_release; [simpl; lia|]. apply HQ.
  - by eapply pool_upd_ok; [exact Hp|exact He|rewrite Hg|..].
  - rewrite Hg. eapply (frame_upd s _ v e (with_refs r o e)); [done|done|done|simpl; lia|done].
Qed.

Ltac count := rewrite ?multiplicity_disj_union, ?multiplicity_singleton, ?decide_True, ?decide_False by done; try lia.

Lemma emu_incref_law s R O X v (Q : unit -> emu -> Prop) E : pool s R O X -> 0 <= depth s -> v ∈ R ⊎ O ->
  (forall s', pool s' (R ⊎ {[+ v +]}) O X -> frame s (R ⊎ O) s' -> Q tt s') -> runs (vnode_incref v s) Q E.
Proof.
  intros Hp Hd Hv HQ. destruct (held_ev _ _ _ _ _ Hp Hv) as (e & He & [Hr Ho] & _). rewrite elem_of_multiplicity in Hv.
  unfold vnode_incref. apply runs_bind. unfold vfs_biglock_acquire. runs_step.
  eapply counted; [done|done|exact He|done| | |exact HQ].
  - split; simpl; [rewrite Hr; revert Hv; count|done].
  - intros w Hw. count.
Qed.

Lemma emu_incopen_law s R O X v (Q : unit -> emu -> Prop) E : pool s (R ⊎ {[+ v +]}) O X -> 0 <= depth s ->
  (forall s', pool s' R (O ⊎ {[+ v +]}) X -> frame s (R ⊎ O ⊎ {[+ v +]}) s' -> Q tt s') -> runs (vnode_incopen v s) Q E.
Proof.
  intros Hp Hd HQ. assert (v ∈ (R ⊎ {[+ v +]}) ⊎ O) as Hv by multiset_solver. destruct (held_ev _ _ _ _ _ Hp Hv) as (e & He & [Hr Ho] & _).
  replace (R ⊎ O ⊎ {[+ v +]}) with ((R ⊎ {[+ v +]}) ⊎ O) in HQ by multiset_solver.
  unfold vnode_incopen. apply runs_bind. unfold vfs_biglock_acquire. runs_step. eapply counted; [done|done|exact He|done| | |exact HQ].
  - split; simpl; rewrite ?Hr, ?Ho; count.
  - intros w Hw. count.
Qed.

Lemma check_law s R O X v b (Q : unit -> emu -> Prop) E : pool s R O X -> 0 <= depth s -> v ∈ R ⊎ O -> Q tt s -> runs (vnode_check v b s) Q E.
Proof.
  intros Hp Hd Hv HQ. destruct (held_ev _ _ _ _ _ Hp Hv) as (e & He & _ & Hr & Ho). unfold vnode_check, vfs_biglock_acquire. runs_steps.
  eapply runs_get_ev; [exact He|]. rewrite (proj2 (Z.ltb_ge _ _)), (proj2 (Z.eqb_neq _ _)), (proj2 (Z.ltb_ge _ _)) by lia. runs_steps.
  apply runs_biglock_release; [simpl; lia|]. simpl. replace (put_depth _ _) with s; [done|]. destruct s. simpl. unfold put_depth. simpl. f_equal. lia.
Qed.

Lemma emu_decopen_law s R O X v (Q : unit -> emu -> Prop) E : pool s R (O ⊎ {[+ v +]}) X -> 0 <= depth s ->
  (forall s', pool s' (R ⊎ {[+ v +]}) O X -> frame s (R ⊎ O ⊎ {[+ v +]}) s' -> Q tt s') -> runs (vnode_decopen v s) Q E.
Proof.
  intros Hp Hd HQ. assert (v ∈ R ⊎ (O ⊎ {[+ v +]})) as Hv by multiset_solver. destruct (held_ev _ _ _ _ _ Hp Hv) as (e & He & [Hr Ho] & _).
  rewrite !multiplicity_disj_union, multiplicity_singleton, decide_True in Hr by done. rewrite multiplicity_disj_union, multiplicity_singleton, decide_True in Ho by done.
  unfold vnode_decopen, vfs_biglock_acquire. runs_steps. eapply runs_get_ev; [exact He|]. runs_steps. apply runs_KASSERT; [lia|]. runs_steps.
  eapply runs_upd_ev; [exact He|]. set (s1 := put_pool _ _ _). assert (pool s1 (R ⊎ {[+ v +]}) O X) as Hp1.
  { eapply pool_upd_ok; [exact Hp|exact He|done| |].
    - split; simpl; rewrite ?Hr, ?Ho; count.
    - intros w Hw. count. }
  assert (runs (vfs_biglock_release s1) Q E) as Hend.
  { apply runs_biglock_release; [simpl; lia|]. apply HQ; [done|]. eapply (frame_upd s _ v e (with_refs (vn_refcount e) (vn_opencount e - 1) e)); [done|done|done|simpl; lia|done]. }
  destruct (0 <? vn_opencount e - 1); runs_steps; [done|]. eapply check_law; [exact Hp1|simpl; lia|multiset_solver|]. done.
Qed.

(** ** Reclaiming *)

Lemma pool_index_spec l v i : v ∈ l -> exists k, pool_index l v i = Some (i + Z.of_nat k) /\ l !! k = Some v.
Proof.
  revert i. induction l as [|w l IH]; intros i Hin; [by apply elem_of_nil in Hin|]. simpl. destruct (Z.eqb_spec w v) as [->|Hne].
  - exists 0%nat. split; [f_equal; lia|done].
  - apply elem_of_cons in Hin as [->|Hin]; [done|]. destruct (IH (i + 1) Hin) as (k & -> & Hk). exists (S k). split; [f_equal; lia|done].
Qed.

Lemma removed_from l (v : Z) k : NoDup l -> l !! k = Some v -> NoDup (delete k l) /\ forall w, w ∈ delete k l <-> w ∈ l /\ w <> v.
Proof.
  intros Hl Hk. pose proof (delete_Permutation l k v Hk) as Hp. pose proof Hl as Hl'. rewrite Hp in Hl'. apply NoDup_cons in Hl' as [Hv Hl'].
  split; [done|]. intros w. rewrite (elem_of_Permutation_proper w _ _ Hp), elem_of_cons. split; [|by intros [[->|] ]].
  intros Hw. split; [by right|]. by intros ->.
Qed.

(** A vnode that nobody holds leaves, and its handle with it. *)
Lemma remove_ok H m l nx R O X v e k : pool_ok H m l nx R O X -> m !! v = Some e -> v ∉ R ⊎ O -> l !! k = Some v ->
  pool_ok (delete (ev_handle e) H) (delete v m) (delete k l) nx R O X.
Proof.
  intros Hp He Hv Hk. destruct (removed_from l v k (po_nodup _ _ _ _ _ _ _ Hp) Hk) as [Hnd Hin].
  assert (forall w a, delete v m !! w = Some a <-> w <> v /\ m !! w = Some a) as Hold.
  { intros w a. rewrite lookup_delete_Some. by intuition. }
  split.
  - done.
  - intros w. rewrite Hin, (po_dom _ _ _ _ _ _ _ Hp w). unfold is_Some. setoid_rewrite Hold. naive_solver.
  - intros w a [_ Ha]%Hold. by eapply po_next.
  - intros w a [_ Ha]%Hold. by eapply po_counts.
  - intros w Hw. destruct (po_held _ _ _ _ _ _ _ Hp w Hw) as [a Ha]. exists a. apply Hold. split; [|done]. by intros ->.
  - intros h. destruct (decide (ev_handle e = h)) as [<-|Hne].
    + rewrite lookup_delete_eq. split; [by intros []|]. intros [HX|(w & a & [Hw Ha]%Hold & Hh)]; [by destruct (po_spare _ _ _ _ _ _ _ Hp v e He)|].
      by destruct Hw; eapply po_inj.
    + rewrite lookup_delete_ne by done. rewrite (po_open _ _ _ _ _ _ _ Hp h). apply or_iff_compat_l. setoid_rewrite Hold. split; [|naive_solver].
      intros (w & a & Ha & Hh). exists w, a. split; [split; [|done]|done]. intros ->. congruence.
  - intros w1 w2 a1 a2 [_ H1]%Hold [_ H2]%Hold. by eapply po_inj.
  - intros w a [_ Ha]%Hold. by eapply po_spare.
Qed.

(** The reference that is dropped was the only one. *)
Lemma last_reference H m l nx R O X v e : pool_ok H m l nx (R ⊎ {[+ v +]}) O X -> m !! v = Some e -> vn_refcount e <= 1 ->
  vn_refcount e = 1 /\ vn_opencount e = 0 /\ (v ∉ R ⊎ O) /\ pool_ok H m l nx R O X.
Proof.
  intros Hp He Hle. destruct (po_counts _ _ _ _ _ _ _ Hp v e He) as [Hr Ho]. revert Hr. rewrite !multiplicity_disj_union, multiplicity_singleton, decide_True by done. intros Hr.
  split_and!; [lia|lia|rewrite elem_of_multiplicity, multiplicity_disj_union; lia|].
  rewrite <- (insert_id m v e He). eapply pool_upd_ok; [exact Hp|exact He|done| |].
  - split; [|lia]. rewrite multiplicity_disj_union. lia.
  - intros w Hw. count.
Qed.

Lemma runs_unlock_both {A} (r : A + Z) s (Q : A -> emu -> Prop) (E : Z -> emu -> Prop) :
  e_lock s = true -> 0 < depth s ->
  match r with inl a => Q a (put_depth (depth s - 1) (put_lock false s)) | inr e => E e (put_depth (depth s - 1) (put_lock false s)) end ->
  runs (unlock_both r s) Q E.
Proof.
  intros Hl Hd Hr. unfold unlock_both, lock_release. runs_steps. apply runs_KASSERT; [done|]. runs_steps. apply runs_biglock_release; [done|]. by destruct r; runs_steps.
Qed.

Lemma reclaim_law s R O X v e (Q : unit -> emu -> Prop) (E : Z -> emu -> Prop) :
  pool s (R ⊎ {[+ v +]}) O X -> 0 <= depth s -> idle s -> e_lock s = false -> vnodes s !! v = Some e -> vn_refcount e <= 1 ->
  (forall s', pool s' R O X -> frame s (R ⊎ O) s' -> Q tt s') -> (forall x s', pool s' R O X -> frame s (R ⊎ O) s' -> E x s') ->
  runs (emufs_reclaim v s) Q E.
Proof.
  intros Hp Hd Hi Hl He Hle HQ HE. destruct (last_reference _ _ _ _ _ _ _ _ _ Hp He Hle) as (Hr & Ho & Hv & Hp').
  unfold emufs_reclaim, vfs_biglock_acquire, lock_acquire. runs_steps. fields. rewrite Hl. runs_steps. set (s1 := put_lock true _).
  eapply runs_get_ev; [exact He|]. rewrite Hr. cbn [negb]. change (1 =? 1) with true. cbn [negb]. runs_steps.
  assert (is_Some (handles (e_card s1) !! ev_handle e)) as Hh.
  { apply (po_open _ _ _ _ _ _ _ Hp). right. by exists v, e. }
  apply emu_close_spec; [apply Hi|done| |]; intros *; intros (c & r & n & -> & Hb & _) Hh'; runs_steps.
  - destruct (pool_index_spec (ef_vnodes s) v 0) as (k & Hix & Hk). { apply (po_dom _ _ _ _ _ _ _ Hp). by rewrite He. }
    fields. change (ef_vnodes s1) with (ef_vnodes s). rewrite Hix. runs_steps. unfold vnode_cleanup. runs_steps. eapply runs_get_ev; [exact He|]. runs_steps.
    apply runs_KASSERT; [lia|]. runs_steps. apply runs_KASSERT; [lia|]. runs_steps. eapply runs_upd_ev; [exact He|].
    apply runs_bind, runs_unlock_both; [done|simpl; lia|]. runs_steps. apply HQ.
    + unfold pool. simpl. simpl in Hh'. rewrite Hh'. rewrite delete_insert_eq. rewrite Z.add_0_l, Nat2Z.id. by apply remove_ok.
    + unfold frame. split_and!; simpl; try done; [lia|intros _; split; [done|]; simpl; rewrite Hb; apply Hi|]. intros w a Hw Ha. rewrite delete_insert_eq.
      exists a. rewrite lookup_delete_ne; [done|]. by intros ->.
  - apply runs_unlock_both; [done|simpl; lia|]. apply HE.
    + unfold pool. simpl. simpl in Hh'. by rewrite Hh'.
    + unfold frame. split_and!; simpl; try done; [lia|intros _; split; [done|]; simpl; rewrite Hb; apply Hi|]. intros w a Hw Ha. by exists a.
Qed.

Lemma emu_decref_law s R O X v (Q : unit -> emu -> Prop) (E : Z -> emu -> Prop) :
  pool s (R ⊎ {[+ v +]}) O X -> 0 <= depth s -> idle s -> e_lock s = false ->
  (forall s', pool s' R O X -> frame s (R ⊎ O) s' -> Q tt s') -> runs (vnode_decref v s) Q E.
Proof.
  intros Hp Hd Hi Hl HQ. assert (v ∈ (R ⊎ {[+ v +]}) ⊎ O) as Hv by multiset_solver. destruct (held_ev _ _ _ _ _ Hp Hv) as (e & He & [Hr Ho] & Hr0 & Ho0).
  unfold vnode_decref, vfs_biglock_acquire. apply runs_bind. runs_step. apply runs_bind. eapply runs_get_ev; [exact He|]. apply runs_bind.
  apply runs_KASSERT; [lia|]. destruct (Z.ltb_spec 1 (vn_refcount e)) as [Hbig|Hsmall].
  - eapply (counted s _ _ X R O); [exact Hp|done|exact He|done| | |].
    + revert Hr. rewrite !multiplicity_disj_union, multiplicity_singleton, decide_True by done. intros Hr. split; cbn [vn_refcount vn_opencount with_refs]; [rewrite multiplicity_disj_union; lia|exact Ho].
    + intros w Hw. count.
    + intros s' Hp' (H1 & H2 & H3 & H4 & H5 & H6). apply HQ; [done|]. unfold frame. split_and!; try done. intros w a Hw. apply H6. multiset_solver.
  - runs_steps. eapply check_law; [exact Hp|simpl; lia|exact Hv|].
    assert (forall s', pool s' R O X -> frame (put_depth (depth s + 1) s) (R ⊎ O) s' -> runs (vfs_biglock_release s') Q E) as Hend.
    { intros s' Hp' (H1 & H2 & H3 & H4 & H5 & H6). simpl in *. apply runs_biglock_release; [lia|]. apply HQ; [done|]. unfold frame. split_and!; try done. simpl. lia. }
    eapply reclaim_law; [exact Hp|simpl; lia|done|done|exact He|done| |]; intros; runs_steps; by apply Hend.
Qed.

(** ** Loading *)

Lemma pool_find_spec s l h (Q : option Z -> emu -> Prop) E : (forall v, v ∈ l -> exists e, vnodes s !! v = Some e /\ ev_handle e <> h) -> Q None s -> runs (pool_find l h s) Q E.
Proof.
  intros Hl HQ. induction l as [|v l IH]; simpl; [by runs_steps|]. destruct (Hl v) as (e & He & Hh); [by left|]. runs_steps.
  eapply runs_get_ev; [exact He|]. rewrite (proj2 (Z.eqb_neq _ _) Hh). apply IH. intros w Hw. apply Hl. by right.
Qed.

(** The handle gets a vnode, which the caller holds. *)
Lemma add_ok H m l nx R O h d : pool_ok H m l nx R O (Some h) -> pool_ok H (<[nx := mkEv 1 0 h d]> m) (l ++ [nx]) (nx + 1) (R ⊎ {[+ nx +]}) O None.
Proof.
  intros Hp. assert (m !! nx = None) as Hnew. { destruct (m !! nx) as [e|] eqn:He; [|done]. apply (po_next _ _ _ _ _ _ _ Hp) in He. lia. }
  assert (multiplicity nx (R ⊎ O) = 0%nat) as Hzero.
  { destruct (decide (nx ∈ R ⊎ O)) as [Hin|Hout]; [apply (po_held _ _ _ _ _ _ _ Hp) in Hin as [? ?]; congruence|]. rewrite elem_of_multiplicity in Hout. lia. }
  rewrite multiplicity_disj_union in Hzero.
  assert (forall w a, <[nx := mkEv 1 0 h d]> m !! w = Some a <-> (w = nx /\ a = mkEv 1 0 h d) \/ (w <> nx /\ m !! w = Some a)) as Hold.
  { intros w a. rewrite lookup_insert_Some. naive_solver. }
  split.
  - apply NoDup_app. split_and!; [apply Hp| |apply NoDup_singleton]. intros v Hv ->%list_elem_of_singleton. apply (po_dom _ _ _ _ _ _ _ Hp) in Hv as [? ?]. congruence.
  - intros v. rewrite elem_of_app, list_elem_of_singleton, (po_dom _ _ _ _ _ _ _ Hp v), lookup_insert_is_Some'. naive_solver.
  - intros v e [[-> ->]|[_ He]]%Hold; [lia|]. apply (po_next _ _ _ _ _ _ _ Hp) in He. lia.
  - intros v e [[-> ->]|[Hv He]]%Hold; [split; simpl; count|]. destruct (po_counts _ _ _ _ _ _ _ Hp v e He) as [Hr Ho]. split; [rewrite Hr|done]. count.
  - intros v Hv. rewrite lookup_insert_is_Some'. destruct (decide (v = nx)) as [->|Hne]; [by left|]. right. apply (po_held _ _ _ _ _ _ _ Hp). multiset_solver.
  - intros x. rewrite (po_open _ _ _ _ _ _ _ Hp x). split.
    + intros [[= <-]|(v & e & He & Hx)]; right; [exists nx, (mkEv 1 0 h d); split; [apply Hold; by left|done]|]. exists v, e. split; [|done]. apply Hold. right. split; [|done]. by intros ->; congruence.
    + intros [|(v & e & [[-> ->]|[Hv He]]%Hold & Hx)]; [done|left; simpl in Hx; congruence|right; by exists v, e].
  - intros v w e e' [[-> ->]|[Hv He]]%Hold [[-> ->]|[Hw He']]%Hold Hh; [done| | |by eapply po_inj]; simpl in Hh.
    + destruct (po_spare _ _ _ _ _ _ _ Hp w e' He'). congruence.
    + destruct (po_spare _ _ _ _ _ _ _ Hp v e He). congruence.
  - done.
Qed.

Lemma runs_kmalloc s (Q : bool -> emu -> Prop) E : plenty s -> (forall s', s' = put_memory (tail (memory s)) s -> plenty s' -> Q true s') -> runs (kmalloc s) Q E.
Proof.
  intros Hp HQ. unfold kmalloc. runs_steps. unfold plenty in *. specialize (HQ _ eq_refl). simpl in HQ. destruct (memory s) as [|b l]; [by apply HQ|].
  apply Forall_cons in Hp as [<- Hp]. by apply HQ.
Qed.

Lemma load_law s R O h d (Q : Z -> emu -> Prop) E :
  pool s R O (Some h) -> 0 <= depth s -> e_lock s = false -> plenty s ->
  (forall v s', pool s' (R ⊎ {[+ v +]}) O None -> frame s (R ⊎ O) s' -> Q v s') -> runs (emufs_loadvnode h d s) Q E.
Proof.
  intros Hp Hd Hl Hm HQ. unfold emufs_loadvnode, vfs_biglock_acquire, lock_acquire. runs_steps. fields. rewrite Hl. runs_steps. set (s1 := put_lock true _).
  apply pool_find_spec.
  { intros v Hv. apply (po_dom _ _ _ _ _ _ _ Hp) in Hv as [e He]. exists e. split; [done|]. intros <-. by eapply po_spare. }
  runs_steps. apply runs_kmalloc; [done|]. intros s2 E2 Hm2. cbn [negb]. runs_steps. apply runs_kmalloc; [done|]. intros s3 E3 Hm3. cbn [negb]. runs_steps.
  apply runs_unlock_both; [by subst|subst; simpl; lia|]. apply HQ.
  - unfold pool. subst s3 s2. simpl. by apply (add_ok _ _ _ _ _ _ h d).
  - unfold frame. subst s3 s2. split_and!; simpl; try done; [lia|]. intros v e Hv He. exists e. rewrite lookup_insert_ne; [done|].
    apply (po_next _ _ _ _ _ _ _ Hp) in He. simpl. lia.
Qed.

(** ** Reading and writing *)

(** The registers when a transfer of [len] bytes begins. *)
Definition io_regs s (h off len : Z) : regs := mkRegs h (u32 off) (u32 len) (reg_result (e_regs s)) (reg_buf (e_regs s)).
Definition at_offset (o : Z) (x : xfer) : xfer := mkXfer (with_offset o (xu x)) (kmem x) (us x) (curproc_as x).

Lemma served_put_iobuf s s' b : served s s' -> zlen b = zlen (reg_buf (e_regs s')) -> 
  served s (put_card (e_card s') (mkRegs (reg_handle (e_regs s')) (reg_offset (e_regs s')) (reg_iolen (e_regs s')) (reg_result (e_regs s')) b) s').
Proof. intros (c & r & n & -> & Hb & Hs) Hl. eexists c, _, n. split; [done|]. simpl in *. split; [congruence|done]. Qed.

(** A turn of [emu_doread]: what the server put in the buffer is moved. *)
Lemma doread_spec s x h len op base l (Q : unit -> emu * xfer -> Prop) (E : Z -> emu * xfer -> Prop) :
  idle s -> e_lock s = false -> is_Some (handles (e_card s) !! h) -> op ∈ [EMU_OP_READ; EMU_OP_READDIR] ->
  xok x base l -> uio_dir (xu x) = UIO_READ -> 0 <= len <= EMU_MAXIO -> len <= uio_resid (xu x) ->
  (forall s' r, served s s' -> emu_exec op (io_regs s h (uio_offset (xu x)) len) (e_card s) = (e_card s', r) -> reg_result r = EMU_RES_SUCCESS ->
     Q tt (s', at_offset (reg_offset r) (advance (reg_iolen r) (put_bytes base (ztake (reg_iolen r) (reg_buf r)) x)))) ->
  (forall e s' x' c r, served s s' -> emu_exec op (io_regs s h (uio_offset (xu x)) len) (e_card s) = (c, r) -> handles (e_card s') = handles (e_card s) ->
     reg_result r <> EMU_RES_SUCCESS \/ (e_card s' = c /\ ~ reach x base (reg_iolen r)) -> E e (s', x')) ->
  runs (emu_doread h len op (s, x)) Q E.
Proof.
  intros Hi Hl Hh Hop Hx Hdir Hlen Hres HQ HE. assert (u32 len = len) as Hu by (apply u32_small; unfold is_u32, EMU_MAXIO in *; lia).
  unfold emu_doread, lift, lift_x, lock_acquire, wreg_handle, wreg_iolen, wreg_offset. runs_steps. cbn [fst snd]. rewrite Hdir. apply runs_KASSERT; [done|].
  runs_steps. cbn [fst snd]. rewrite Hl. runs_steps. fields. set (s1 := put_card _ _ _).
  assert (served (put_lock true s) s1) as Hs1 by (refine (served_written s _ Hi _); apply Hi). change (e_regs s1) with (io_regs s h (uio_offset (xu x)) len) in *.
  apply (operate op); [apply Hi| |exact Hh|left; simpl; rewrite Hu; lia|].
  { unfold EMU_OP_OPEN, EMU_OP_TRUNC. rewrite !elem_of_cons in Hop. unfold EMU_OP_READ, EMU_OP_READDIR in Hop. set_solver by lia. }
  intros s2 Hw. runs_steps. cbn [fst snd]. apply Hw; clear Hw.
  - intros c r s3 Ex Hs3 Hc Hok Hr. runs_steps. unfold move_iobuf. runs_steps. cbn [fst snd]. fields.
    destruct (exec_iolen _ _ _ _ _ Ex Hop) as [Hn _]; [simpl; lia|]. simpl in Hn. rewrite Hu in Hn. rewrite Hr. fields.
    assert (zlen (reg_buf r) = EMU_MAXIO) as Hb. { destruct Hs3 as (c3 & r3 & n3 & -> & Hb3 & _). simpl in Hr, Hb3. subst r3. simpl in Hb3. rewrite Hb3. apply Hi. }
    assert (zlen (ztake (reg_iolen r) (reg_buf r)) = reg_iolen r) as Hz by (apply zlen_ztake; lia).
    unfold lift_x. runs_steps. cbn [fst snd]. eapply runs_mono; [eapply (uiomove_spec x base l); [done|lia]| |]; cbv beta; rewrite Hz, ?Hdir.
    + intros b x' (_ & -> & ->). unfold lift, put_iobuf. runs_steps. fields. unfold set_offset, lift_x, upd_uio. runs_steps. cbn [fst snd]. rewrite Hr. fields.
      apply (runs_unlock _ s); [done| |].
      { pose proof (served_put_iobuf _ _ (zsplice (reg_buf r) 0 (ztake (reg_iolen r) (reg_buf r))) (served_trans _ _ _ Hs1 Hs3)) as Hp. rewrite Hr in Hp. fields.
        apply Hp. apply zlen_zsplice; lia. }
      intros Hf. specialize (HQ _ r Hf). unfold moved in *. rewrite Hdir. apply HQ; [|done]. simpl. by rewrite Hc.
    + intros e x' (-> & Hnr & Hfl). unfold set_offset, lift_x, upd_uio. runs_steps. cbn [fst snd].
      apply (runs_unlock _ s); [done|by apply (served_trans _ s1)|]. intros Hf. eapply HE; [done|exact Ex| |right; by split].
      simpl. rewrite Hc. apply (exec_other _ _ _ _ _ Ex). rewrite !elem_of_cons in Hop. unfold EMU_OP_READ, EMU_OP_READDIR, EMU_OP_TRUNC in *. set_solver by lia.
  - intros e s3 c r Ex Hs3 Hsame Hno. runs_steps. cbn [fst snd]. apply (runs_unlock _ s); [done|by apply (served_trans _ s1)|]. intros Hf. eapply HE; [done|exact Ex|done|by left].
Qed.

(** A turn of [emu_write]: the bytes are in the buffer when the server works. *)
Lemma dowrite_spec s x h len base l (Q : unit -> emu * xfer -> Prop) (E : Z -> emu * xfer -> Prop) :
  idle s -> e_lock s = false -> is_Some (handles (e_card s) !! h) ->
  xok x base l -> uio_dir (xu x) = UIO_WRITE -> 0 <= len <= EMU_MAXIO -> len <= uio_resid (xu x) ->
  (forall s' r, served s s' ->
     emu_exec EMU_OP_WRITE (mkRegs h (u32 (uio_offset (xu x))) len (reg_result (e_regs s)) (zsplice (reg_buf (e_regs s)) 0 (get_bytes x base len))) (e_card s) = (e_card s', r) ->
     Q tt (s', advance len x)) ->
  (forall e s' x', served s s' -> handles (e_card s') = handles (e_card s) -> E e (s', x')) ->
  runs (emu_write h len (s, x)) Q E.
Proof.
  intros Hi Hl Hh Hx Hdir Hlen Hres HQ HE. assert (u32 len = len) as Hu by (apply u32_small; unfold is_u32, EMU_MAXIO in *; lia).
  unfold emu_write, lift, lift_x, lock_acquire, wreg_handle, wreg_iolen, wreg_offset. runs_steps. cbn [fst snd]. rewrite Hdir. apply runs_KASSERT; [done|].
  runs_steps. cbn [fst snd]. rewrite Hl. runs_steps. fields. unfold move_iobuf, lift_x. runs_steps. fields. rewrite Hu.
  assert (zlen (reg_buf (e_regs s)) = EMU_MAXIO) as Hb by apply Hi.
  assert (zlen (ztake len (reg_buf (e_regs s))) = len) as Hz by (apply zlen_ztake; lia).
  pose proof (xo_resid _ _ _ Hx) as Hr0. eapply runs_mono; [eapply (uiomove_spec x base l); [done|lia]| |]; cbv beta; rewrite Hz, ?Hdir.
  - intros b x' (_ & -> & ->). unfold lift, put_iobuf. runs_steps. fields. unfold moved. rewrite Hdir. pose proof (zlen_get_bytes x base l len Hx ltac:(lia)) as Hg.
    set (s1 := put_card _ (mkRegs _ _ _ _ (zsplice _ _ _)) _). assert (served (put_lock true s) s1) as Hs1.
    { refine (served_written s _ Hi _). simpl. rewrite zlen_zsplice; lia. }
    apply (operate EMU_OP_WRITE); [by apply (served_idle (put_lock true s))|done|exact Hh|left; simpl; lia|].
    intros s2 Hw. runs_steps. fields. apply Hw; clear Hw.
    + intros c r s3 Ex Hs3 Hc _ _. runs_steps. fields. apply (runs_unlock _ s); [done|by apply (served_trans _ s1)|]. intros Hf. eapply HQ; [done|]. simpl. rewrite Hc. exact Ex.
    + intros e s3 c r _ Hs3 Hsame _. runs_steps. fields. apply (runs_unlock _ s); [done|by apply (served_trans _ s1)|]. intros Hf. by apply HE.
  - intros e x' _. runs_steps. fields. apply (runs_unlock _ s); [done|refine (served_written s _ Hi _); done|]. intros Hf. by apply HE.
Qed.

(** Transfers leave everything but the server as it was, and [io_loop] ends. *)
Definition io_kept s (t : emu * xfer) : Prop := served s (fst t) /\ handles (e_card (fst t)) = handles (e_card s).
Definition io_turn (each : Z -> M (emu * xfer) unit) (h : Z) (d : uio_rw) : Prop := forall s x len base l,
  idle s -> e_lock s = false -> is_Some (handles (e_card s) !! h) -> xok x base l -> uio_dir (xu x) = d -> 0 <= len <= EMU_MAXIO -> len <= uio_resid (xu x) ->
  runs (each len (s, x))
    (fun _ t => io_kept s t /\ exists n, 0 <= n <= len /\ xok (snd t) (base + n) (l - n) /\ uio_resid (xu (snd t)) = uio_resid (xu x) - n /\ uio_dir (xu (snd t)) = d)
    (fun _ t => io_kept s t).

Lemma served_lock s s' : served s s' -> e_lock s' = e_lock s.
Proof. by intros (c & r & n & -> & _). Qed.

Lemma io_loop_ends each h d fuel s x base l : io_turn each h d ->
  idle s -> e_lock s = false -> is_Some (handles (e_card s) !! h) -> xok x base l -> uio_dir (xu x) = d -> uio_resid (xu x) < Z.of_nat fuel ->
  runs (io_loop each fuel (s, x)) (fun _ t => io_kept s t) (fun _ t => io_kept s t).
Proof.
  intros Heach. revert s x base l. induction fuel as [|fuel IH]; intros s x base l Hi Hl Hh Hx Hd Hf; cbn [io_loop]; runs_steps; cbn [fst snd]; pose proof (xo_resid _ _ _ Hx) as Hr; [lia|].
  assert (io_kept s (s, x)) as Hk by (split; [by apply served_refl|done]).
  destruct (Z.ltb_spec 0 (uio_resid (xu x))) as [Hpos|]; [|by runs_steps]. runs_steps. set (len := if EMU_MAXIO <? _ then _ else _).
  assert (0 <= len <= EMU_MAXIO /\ len <= uio_resid (xu x)) as [Hlen Hle] by (unfold len, EMU_MAXIO; destruct (Z.ltb_spec 16384 (uio_resid (xu x))); lia).
  eapply runs_mono; [by apply (Heach s x len base l)| |done]. cbv beta. intros _ [s' x'] [[Hs Hsame] (n & Hn & Hx' & Hr' & Hd')]. runs_steps. cbn [fst snd] in *.
  destruct (Z.eqb_spec (uio_resid (xu x')) (uio_resid (xu x))) as [|Hne]; [by runs_steps|].
  eapply runs_mono; [eapply (IH s' x')| |]; [by eapply served_idle|by rewrite (served_lock s)|by rewrite Hsame|exact Hx'|done|lia| |]; cbv beta;
    intros _ t [Ht1 Ht2]; (split; [by apply (served_trans _ s')|by rewrite Ht2]).
Qed.

Lemma read_turn h op : op ∈ [EMU_OP_READ; EMU_OP_READDIR] -> io_turn (fun len => emu_doread h len op) h UIO_READ.
Proof.
  intros Hop s x len base l Hi Hl Hh Hx Hd Hlen Hle. eapply doread_spec; try done.
  - intros s' r Hs Ex Hok. assert (u32 len = len) as Hu by (apply u32_small; unfold is_u32, EMU_MAXIO in *; lia).
    destruct (exec_iolen _ _ _ _ _ Ex Hop) as [Hn Ho]; [simpl; lia|]. simpl in Hn. rewrite Hu in Hn. split.
    + split; [done|]. apply (exec_other _ _ _ _ _ Ex). rewrite !elem_of_cons in Hop. unfold EMU_OP_READ, EMU_OP_READDIR, EMU_OP_TRUNC in *. set_solver by lia.
    + exists (reg_iolen r). cbn [snd]. pose proof (xo_resid _ _ _ Hx) as Hr. assert (xok (advance (reg_iolen r) (put_bytes base (ztake (reg_iolen r) (reg_buf r)) x)) (base + reg_iolen r) (l - reg_iolen r)) as Hx'.
      { apply xok_advance; [|rewrite xu_put; lia]. pose proof (xok_moved x base l (ztake (reg_iolen r) (reg_buf r)) Hx) as Hm. unfold moved in Hm. rewrite Hd in Hm. apply Hm.
        unfold zlen, ztake. rewrite length_take. lia. }
      split_and!; try lia; [|simpl; by rewrite xu_put|simpl; by rewrite xu_put]. destruct Hx' as [H1 H2 H3 H4 H5 H6 H7]. split; try done. unfold at_offset, is_u32 in *. simpl in *. rewrite xu_put in *. lia.
Qed.

Lemma write_turn h : io_turn (emu_write h) h UIO_WRITE.
Proof.
  intros s x len base l Hi Hl Hh Hx Hd Hlen Hle. eapply dowrite_spec; try done.
  intros s' r Hs Ex. split; [split; [done|by apply (exec_other _ _ _ _ _ Ex)]|]. exists len. cbn [snd]. split_and!; [lia|lia|apply xok_advance; [done|lia]|done|done].
Qed.

(** ** Reading a file *)

(** [h] is open for a file with these bytes, and reading works. *)
Definition reads s (h : Z) (data : list Z) : Prop :=
  idle s /\ e_lock s = false /\ steady (e_card s) /\ exists f, handles (e_card s) !! h = Some f /\ contents (e_card s) f = data /\ zlen data < 2 ^ 31.

Definition segment (off n : Z) (data : list Z) : list Z := ztake n (zdrop off data).

Lemma zlen_segment off n data : 0 <= off -> 0 <= n -> n = available (zlen data) off n -> zlen (segment off n data) = n.
Proof.
  intros Ho Hn Ha. unfold segment, available in *. destruct (decide (off <= zlen data)).
  - apply zlen_ztake. rewrite zlen_zdrop; lia.
  - assert (n = 0) as -> by lia. done.
Qed.

Lemma at_same_offset x : at_offset (uio_offset (xu x)) x = x.
Proof. by destruct x as [[] ? ? ?]. Qed.

Lemma read_turn_exact s x h data len base l :
  reads s h data -> xok x base l -> uio_dir (xu x) = UIO_READ -> 0 < len <= EMU_MAXIO -> len <= uio_resid (xu x) -> uio_offset (xu x) < 2 ^ 32 ->
  let n := available (zlen data) (uio_offset (xu x)) len in
  runs (emu_read h len (s, x))
    (fun _ t => io_kept s t /\ reads (fst t) h data /\ snd t = advance n (moved base (segment (uio_offset (xu x)) n data) x))
    (fun _ t => io_kept s t /\ reads (fst t) h data /\ ~ reach x base n).
Proof.
  intros (Hi & Hl & Hst & f & Hf & Hdata & Hsz) Hx Hd Hlen Hle Hoff n. pose proof (xo_offset _ _ _ Hx) as Ho. pose proof (xo_resid _ _ _ Hx) as Hr0.
  assert (u32 len = len) as Hu by (apply u32_small; unfold is_u32, EMU_MAXIO in *; lia).
  assert (u32 (uio_offset (xu x)) = uio_offset (xu x)) as Hu' by (apply u32_small; unfold is_u32; lia).
  assert (forall c r, emu_exec EMU_OP_READ (io_regs s h (uio_offset (xu x)) len) (e_card s) = (c, r) ->
    (forall s', served s s' -> e_card s' = c -> io_kept s (s', x) /\ reads s' h data) /\ reg_result r = EMU_RES_SUCCESS /\ reg_iolen r = n /\
    reg_offset r = uio_offset (xu x) + n /\ ztake n (reg_buf r) = segment (uio_offset (xu x)) n data) as Hexec.
  { intros c r Ex. pose proof (exec_other _ _ _ _ _ Ex ltac:(done)) as Hsame. eapply exec_read in Ex; [|done|exact Hf|simpl; lia|apply Hi|simpl; unfold is_u32; lia|rewrite Hdata; lia].
    simpl in Ex. rewrite Hu, Hu', Hdata in Ex. destruct Ex as (Hst' & Hc' & Hok & Hn & Hoff' & Hbuf). split_and!; try done.
    intros s' Hs' <-. split; [by split|]. split_and!; [by eapply served_idle|by rewrite (served_lock s)|done|]. exists f. by rewrite Hsame, Hc'. }
  eapply doread_spec; [done|done|by rewrite Hf|by left|exact Hx|done|lia|done| |].
  - intros s' r Hs Ex _. destruct (Hexec _ _ Ex) as (Hk & _ & Hn & Hoff' & Hbuf). destruct (Hk s' Hs eq_refl) as [Hk1 Hk2]. split_and!; [done|done|]. cbn [snd].
    rewrite Hn, Hbuf, Hoff'. unfold moved. rewrite Hd. rewrite <- (at_same_offset (advance _ _)) at 2. simpl. by rewrite xu_put.
  - intros e s' x' c r Hs Ex _ Hor. destruct (Hexec _ _ Ex) as (Hk & Hok & Hn & _). destruct Hor as [|[Hc Hnr]]; [done|]. destruct (Hk s' Hs Hc) as [Hk1 Hk2].
    split_and!; [done|done|by rewrite <- Hn].
Qed.
Lemma segment_app off n m data : 0 <= off -> 0 <= n -> 0 <= m -> segment off n data ++ segment (off + n) m data = segment off (n + m) data.
Proof. intros Ho Hn Hm. unfold segment. rewrite ztake_add by done. by rewrite zdrop_zdrop by done. Qed.

Lemma read_loop_exact fuel s x h data base l :
  reads s h data -> xok x base l -> uio_dir (xu x) = UIO_READ -> uio_offset (xu x) < 2 ^ 32 -> uio_resid (xu x) < Z.of_nat fuel ->
  let n := available (zlen data) (uio_offset (xu x)) (uio_resid (xu x)) in
  runs (io_loop (emu_read h) fuel (s, x))
    (fun _ t => io_kept s t /\ reads (fst t) h data /\ snd t = advance n (moved base (segment (uio_offset (xu x)) n data) x))
    (fun _ t => io_kept s t /\ reads (fst t) h data /\ ~ reach x base (uio_resid (xu x))).
Proof.
  revert s x base l. induction fuel as [|fuel IH]; intros s x base l Hrd Hx Hd Hoff Hf n; cbn [io_loop]; runs_steps; cbn [fst snd];
    pose proof (xo_resid _ _ _ Hx) as Hr; pose proof (xo_offset _ _ _ Hx) as Ho; [lia|].
  assert (io_kept s (s, x)) as Hk by (split; [apply served_refl, Hrd|done]).
  assert (n = 0 -> advance n (moved base (segment (uio_offset (xu x)) n data) x) = x) as Hzero.
  { intros ->. change (segment _ 0 data) with (@nil Z). by rewrite (moved_nil x base l), (advance_0 x base l). }
  destruct (Z.ltb_spec 0 (uio_resid (xu x))) as [Hpos|]; [|runs_steps; split_and!; [done|done|]; rewrite Hzero; [done|unfold n, available; lia]].
  runs_steps. set (len := if EMU_MAXIO <? _ then _ else _).
  assert (0 < len <= EMU_MAXIO /\ len <= uio_resid (xu x)) as [Hlen Hle] by (unfold len, EMU_MAXIO; destruct (Z.ltb_spec 16384 (uio_resid (xu x))); lia).
  set (n1 := available (zlen data) (uio_offset (xu x)) len). assert (0 <= n1 <= len) as Hn1 by (unfold n1, available; lia).
  assert (zlen (segment (uio_offset (xu x)) n1 data) = n1) as Hz1 by (apply zlen_segment; unfold n1, available; lia).
  eapply runs_mono; [by apply (read_turn_exact s x h data len base l)| |]; cbv beta; fold n1.
  2: { intros e [s' x'] (Hk' & Hrd' & Hnr). split_and!; [done|done|]. contradict Hnr. apply (reach_le _ _ (uio_resid (xu x))); [lia|done]. }
  intros _ [s' x'] (Hk' & Hrd' & Hx'). cbn [fst snd] in *. runs_steps. cbn [fst snd]. subst x'. set (x1 := advance n1 _).
  assert (uio_resid (xu x1) = uio_resid (xu x) - n1 /\ uio_offset (xu x1) = uio_offset (xu x) + n1) as [Er Eo] by (unfold x1; simpl; by rewrite xu_moved).
  rewrite Er. destruct (Z.eqb_spec (uio_resid (xu x) - n1) (uio_resid (xu x))) as [E|Hne].
  { runs_steps. split_and!; [done|done|]. assert (n1 = 0) as E1 by lia. assert (n = 0) as E0 by (unfold n, n1, available in *; lia).
    cbn [snd]. unfold x1. by rewrite E0, E1. }
  assert (xok x1 (base + n1) (l - n1)) as Hx1.
  { apply xok_advance; [apply xok_moved; [done|lia]|rewrite xu_moved; lia]. }
  set (m := available (zlen data) (uio_offset (xu x1)) (uio_resid (xu x1))).
  assert (0 <= m /\ n = n1 + m) as [Hm En] by (unfold m, n, n1, available in *; rewrite Er, Eo; lia).
  destruct Hrd as (_ & _ & _ & _ & _ & _ & Hsz).
  eapply runs_mono; [apply (IH s' x1 (base + n1) (l - n1)); [done|done|unfold x1; simpl; by rewrite xu_moved|rewrite Eo; unfold n1, available in *; lia|lia]| |]; cbv beta; fold m.
  - intros _ [s2 x2] ([Ht1 Ht2] & Hrd2 & Ex2). cbn [fst snd] in *. split_and!; [|done|].
    + destruct Hk' as [Hk1 Hk2]. split; [by apply (served_trans _ s')|simpl in *; congruence].
    + rewrite Ex2, Eo. pose proof (moved_app x base l (segment (uio_offset (xu x)) n1 data) (segment (uio_offset (xu x) + n1) m data) Hx) as Happ.
      rewrite segment_app, <- En in Happ by lia. rewrite !zlen_segment in Happ by (unfold m, n, n1, available in *; rewrite ?Er, ?Eo; lia).
      apply Happ. unfold m, n1, available in *; rewrite ?Er, ?Eo; lia.
  - intros e [s2 x2] ([Ht1 Ht2] & Hrd2 & Hnr). cbn [fst snd] in *. split_and!; [|done|].
    + destruct Hk' as [Hk1 Hk2]. split; [by apply (served_trans _ s')|simpl in *; congruence].
    + contradict Hnr. rewrite Er. apply (reach_part x x1 base (uio_resid (xu x)) n1); [apply still_mapped_moved|lia|lia|lia|done].
Qed.
(** ** The file system *)

(** A handle of the server that was opened. *)
Lemma opened_pool s s' R O h f : pool s R O None -> served s s' -> handles (e_card s) !! h = None -> handles (e_card s') = <[h := f]> (handles (e_card s)) -> pool s' R O (Some h).
Proof.
  intros Hp (c & r & n & -> & _) Hnew Hins. unfold pool in *. simpl in *. rewrite Hins. destruct Hp as [H1 H2 H3 H4 H5 H6 H7 H8].
  split; try done.
  - intros x. rewrite lookup_insert_is_Some', H6. naive_solver.
  - intros v e He [= ->]. assert (is_Some (handles (e_card s) !! ev_handle e)) as [? ?] by (apply H6; right; by exists v, e). congruence.
Qed.

Lemma handle_open s R O X v e : pool s R O X -> vnodes s !! v = Some e -> is_Some (handles (e_card s) !! ev_handle e).
Proof. intros Hp He. apply (po_open _ _ _ _ _ _ _ Hp). right. by exists v, e. Qed.

(** [emufs_creat] and [emufs_lookup]. *)
Lemma open_load_law s R O v e n create excl mode (Q : Z -> emu -> Prop) (E : Z -> emu -> Prop) :
  pool s R O None -> 0 <= depth s -> idle s -> e_lock s = false -> plenty s -> vnodes s !! v = Some e ->
  (forall w s', pool s' (R ⊎ {[+ w +]}) O None -> frame s (R ⊎ O) s' -> Q w s') ->
  (forall x s', pool s' R O None -> frame s (R ⊎ O) s' -> E x s') ->
  runs ((let* r := emu_open (ev_handle e) n create excl mode in load_or_close r) s) Q E.
Proof.
  intros Hp Hd Hi Hl Hm He HQ HE. runs_steps. apply emu_open_spec; [done|done|by eapply handle_open| |].
  - intros h d s1 f Hs1 Hnew Hins. pose proof (opened_pool _ _ _ _ _ _ Hp Hs1 Hnew Hins) as Hp1. pose proof (served_frame _ _ (R ⊎ O) Hs1) as Hf1.
    pose proof Hf1 as (Hl1 & Hd1 & _ & _ & Hm1 & _). unfold load_or_close. runs_steps. cbn [fst snd].
    apply (load_law _ R O); [done|lia|congruence|auto|]. intros w s2 Hp2 Hf2. runs_steps. apply HQ; [done|by eapply frame_trans].
  - intros x s1 Hs1 Hsame. apply HE; [by eapply served_pool|by apply served_frame].
Qed.

(** The references held outside; the file system holds one of the root. *)
Definition good s R O : Prop := exists r, ef_root s = Some r /\ pool s (R ⊎ {[+ r +]}) O None /\ idle s /\ e_lock s = false /\ 0 <= depth s /\ plenty s.

Lemma good_after s s' R O R' O' U : good s R O -> (forall r, ef_root s = Some r -> pool s' (R' ⊎ {[+ r +]}) O' None) -> frame s U s' -> good s' R' O'.
Proof.
  intros (r & Hr & Hp & Hi & Hl & Hd & Hm) Hp' (H1 & H2 & H3 & H4 & H5 & _). exists r. split_and!; [congruence|by apply Hp'|auto|congruence|lia|auto].
Qed.

Definition same s R O s' : Prop := good s' R O /\ frame s (R ⊎ O) s'.

Lemma good_quiet s s' R O : good s R O -> served s s' -> handles (e_card s') = handles (e_card s) -> same s R O s'.
Proof.
  intros Hg Hs Hh. pose proof (served_frame _ _ (R ⊎ O) Hs) as Hf. split; [|done]. eapply good_after; [exact Hg| |exact Hf].
  destruct Hg as (r & Hr & Hp & _). intros r' Hr'. replace r' with r by congruence. by eapply served_pool.
Qed.

(** A call of the VFS layer; [x] is the transfer of a call with a uio. *)
Inductive call :=
  | Incref (v : Z) | Decref (v : Z) | Incopen (v : Z) | Decopen (v : Z) | Getroot | Sync | Unmount
  | Lookup (v : Z) (p : name) | Lookparent (v : Z) (p : name) (n : Z) | Creat (v : Z) (p : name) (excl : bool) (mode : Z)
  | Request (v : Z) (r : request) | Gettype (v : Z) | Stat (v : Z) | Tryseek (v pos : Z) | Ioctl (v op : Z) | Fsync (v : Z) | Mmap (v : Z)
  | Read (v : Z) (x : xfer) | Write (v : Z) (x : xfer) | Getdirentry (v : Z) (x : xfer) | Readlink (v : Z) (x : xfer) | Namefile (v : Z) (x : xfer).

#[local] Abbreviation fs := (emu (C := C)).
Definition no_vnode {A} (m : M fs A) : M fs (option Z) := let* _ := m in ret None.
Definition a_vnode (m : M fs Z) : M fs (option Z) := let* v := m in ret (Some v).
Definition with_uio (x : xfer) (m : M (fs * xfer) unit) : M fs (option Z) := fun s =>
  match m (s, x) with Ret _ t => Ret None (fst t) | Err e t => Err e (fst t) | Crash c => Crash c end.

(** The reference it gives. *)
Definition emufs_call (c : call) : M fs (option Z) :=
  match c with
  | Incref v => no_vnode (vnode_incref v)
  | Decref v => no_vnode (vnode_decref v)
  | Incopen v => no_vnode (vnode_incopen v)
  | Decopen v => no_vnode (vnode_decopen v)
  | Getroot => a_vnode emufs_getroot
  | Sync => no_vnode emufs_sync
  | Unmount => no_vnode emufs_unmount
  | Lookup v p => a_vnode (emu_vop_lookup v p)
  | Lookparent v p n => a_vnode (let* r := emu_vop_lookparent v p n in ret (fst r))
  | Creat v p x m => a_vnode (emu_vop_creat v p x m)
  | Request v r => no_vnode (emu_vop v r)
  | Gettype v => no_vnode (emufs_gettype v)
  | Stat v => no_vnode (emu_vop_stat v)
  | Tryseek v pos => no_vnode (emu_vop_tryseek v pos)
  | Ioctl v op => no_vnode (emu_vop_ioctl v op)
  | Fsync v => no_vnode (emu_vop_fsync v)
  | Mmap v => no_vnode (emu_vop_mmap v)
  | Read v x => with_uio x (emu_vop_read v)
  | Write v x => with_uio x (emu_vop_write v)
  | Getdirentry v x => with_uio x (emu_vop_getdirentry v)
  | Readlink v x => with_uio x (emu_vop_readlink v)
  | Namefile v x => with_uio x (emu_vop_namefile v)
  end.

(** The caller has the references it uses; a uio is on one block of memory. *)
Definition transfer_ok (x : xfer) (d : uio_rw) : Prop := (exists b l, xok x b l) /\ uio_dir (xu x) = d.
Definition allowed R O (c : call) : Prop :=
  match c with
  | Decref v | Incopen v => v ∈ R
  | Decopen v => v ∈ O
  | Getroot | Sync | Unmount => True
  | Incref v | Lookup v _ | Lookparent v _ _ | Creat v _ _ _ | Request v _ | Gettype v | Stat v | Tryseek v _ | Ioctl v _ | Fsync v | Mmap v => v ∈ R ⊎ O
  | Read v x | Getdirentry v x | Readlink v x | Namefile v x => v ∈ R ⊎ O /\ transfer_ok x UIO_READ
  | Write v x => v ∈ R ⊎ O /\ transfer_ok x UIO_WRITE
  end.

(** The references the caller has after it. *)
Definition refs_after (c : call) (w : option Z) R O : gmultiset Z * gmultiset Z :=
  match c, w with
  | Incref v, _ => (R ⊎ {[+ v +]}, O)
  | Decref v, _ => (R ∖ {[+ v +]}, O)
  | Incopen v, _ => (R ∖ {[+ v +]}, O ⊎ {[+ v +]})
  | Decopen v, _ => (R ⊎ {[+ v +]}, O ∖ {[+ v +]})
  | _, Some w => (R ⊎ {[+ w +]}, O)
  | _, None => (R, O)
  end.
Definition in_use (c : call) R O : gmultiset Z := match c with Decref v => (R ∖ {[+ v +]}) ⊎ O | _ => R ⊎ O end.

Lemma good_ev s R O v : good s R O -> v ∈ R ⊎ O -> exists e, vnodes s !! v = Some e /\ is_Some (handles (e_card s) !! ev_handle e).
Proof.
  intros (r & _ & Hp & _) Hv. destruct (held_ev s _ _ _ v Hp) as (e & He & _); [multiset_solver|]. exists e. split; [done|by eapply handle_open].
Qed.

Lemma emu_same_refl s R O : good s R O -> same s R O s.
Proof. intros Hg. apply good_quiet; [done| |done]. apply served_refl. by destruct Hg as (r & _ & _ & Hi & _). Qed.

(** A call through the function table. *)
Lemma dispatch_law {A} s R O v (file dir : M emu A) (Q : A -> emu -> Prop) (E : Z -> emu -> Prop) :
  good s R O -> v ∈ R ⊎ O -> runs (file s) Q E -> runs (dir s) Q E -> runs (dispatch v file dir s) Q E.
Proof.
  intros Hg Hv Hf Hd. destruct (good_ev _ _ _ _ Hg Hv) as (e & He & _). destruct Hg as (r & _ & Hp & _ & _ & Hd0 & _). unfold dispatch. runs_steps.
  eapply check_law; [exact Hp|done|multiset_solver|]. apply runs_bind; eapply runs_get_ev; [exact He|]. by destruct (ev_isdir e).
Qed.

Lemma dispatch_x_law s R O v x (file dir : M (emu * xfer) unit) (Q : unit -> emu * xfer -> Prop) (E : Z -> emu * xfer -> Prop) :
  good s R O -> v ∈ R ⊎ O -> runs (file (s, x)) Q E -> runs (dir (s, x)) Q E -> runs (dispatch_x v file dir (s, x)) Q E.
Proof.
  intros Hg Hv Hf Hd. destruct (good_ev _ _ _ _ Hg Hv) as (e & He & _). destruct Hg as (r & _ & Hp & _ & _ & Hd0 & _). unfold dispatch_x, lift. runs_steps.
  eapply check_law; [exact Hp|done|multiset_solver|]. runs_steps. eapply runs_get_ev; [exact He|]. by destruct (ev_isdir e).
Qed.

Definition call_ok s R O (c : call) : Prop :=
  runs (emufs_call c s)
    (fun w s' => good s' (fst (refs_after c w R O)) (snd (refs_after c w R O)) /\ frame s (in_use c R O) s')
    (fun _ s' => same s R O s').

Lemma frame_sub s U U' s' : frame s U s' -> U' ⊆ U -> frame s U' s'.
Proof. intros (H1 & H2 & H3 & H4 & H5 & H6) Hsub. unfold frame. split_and!; try done. intros v e Hv. apply H6. multiset_solver. Qed.

Lemma incref_good s R O v (Q : unit -> emu -> Prop) E : good s R O -> v ∈ R ⊎ O ->
  (forall s', good s' (R ⊎ {[+ v +]}) O -> frame s (R ⊎ O) s' -> Q tt s') -> runs (vnode_incref v s) Q E.
Proof.
  intros Hg Hv HQ. pose proof Hg as (r & Hr & Hp & Hi & Hl & Hd & Hm). apply (emu_incref_law s _ _ _ _ _ _ Hp Hd); [multiset_solver|]. intros s' Hp' Hf.
  apply HQ; [|eapply frame_sub; [exact Hf|multiset_solver]]. eapply good_after; [exact Hg| |exact Hf]. intros r' Hr'. replace r' with r by congruence.
  by replace (R ⊎ {[+ v +]} ⊎ {[+ r +]}) with (R ⊎ {[+ r +]} ⊎ {[+ v +]}) by multiset_solver.
Qed.

Lemma count_calls s R O c : good s R O -> allowed R O c ->
  match c with Incref _ | Decref _ | Incopen _ | Decopen _ | Getroot => call_ok s R O c | _ => True end.
Proof.
  intros Hg Hc. pose proof Hg as (r & Hr & Hp & Hi & Hl & Hd & Hm). destruct c; try done; unfold call_ok; simpl in *; unfold no_vnode, a_vnode; runs_steps.
  - apply (incref_good s R O); [done|done|]. intros s' Hg' Hf. by runs_steps.
  - eapply (emu_decref_law s ((R ∖ {[+ v +]}) ⊎ {[+ r +]}) O); [|exact Hd|exact Hi|exact Hl|].
    { by replace (R ∖ {[+ v +]} ⊎ {[+ r +]} ⊎ {[+ v +]}) with (R ⊎ {[+ r +]}) by multiset_solver. }
    intros s' Hp' Hf. runs_steps. split; [|eapply frame_sub; [exact Hf|multiset_solver]].
    eapply good_after; [exact Hg| |exact Hf]. intros r' Hr'. by replace r' with r by congruence.
  - eapply (emu_incopen_law s ((R ∖ {[+ v +]}) ⊎ {[+ r +]}) O); [|exact Hd|].
    { by replace (R ∖ {[+ v +]} ⊎ {[+ r +]} ⊎ {[+ v +]}) with (R ⊎ {[+ r +]}) by multiset_solver. }
    intros s' Hp' Hf. runs_steps. split; [|eapply frame_sub; [exact Hf|multiset_solver]].
    eapply good_after; [exact Hg| |exact Hf]. intros r' Hr'. by replace r' with r by congruence.
  - eapply (emu_decopen_law s (R ⊎ {[+ r +]}) (O ∖ {[+ v +]})); [|exact Hd|].
    { by replace (O ∖ {[+ v +]} ⊎ {[+ v +]}) with O by multiset_solver. }
    intros s' Hp' Hf. runs_steps. split; [|eapply frame_sub; [exact Hf|multiset_solver]].
    eapply good_after; [exact Hg| |exact Hf]. intros r' Hr'. replace r' with r by congruence. by replace (R ⊎ {[+ v +]} ⊎ {[+ r +]}) with (R ⊎ {[+ r +]} ⊎ {[+ v +]}) by multiset_solver.
  - unfold emufs_getroot. runs_steps. rewrite Hr. runs_steps. apply (emu_incref_law s _ _ _ _ _ _ Hp Hd); [multiset_solver|]. intros s' Hp' Hf. runs_steps.
    split; [|eapply frame_sub; [exact Hf|multiset_solver]]. eapply good_after; [exact Hg| |exact Hf]. intros r' Hr'. by replace r' with r by congruence.
Qed.

(** [emufs_lookup] and [emufs_creat] from outside. *)
Lemma name_law s R O v e n create excl mode (Q : Z -> emu -> Prop) (E : Z -> emu -> Prop) :
  good s R O -> vnodes s !! v = Some e ->
  (forall w s', good s' (R ⊎ {[+ w +]}) O -> frame s (R ⊎ O) s' -> Q w s') -> (forall x s', same s R O s' -> E x s') ->
  runs ((let* r := emu_open (ev_handle e) n create excl mode in load_or_close r) s) Q E.
Proof.
  intros Hg He HQ HE. pose proof Hg as (r & Hr & Hp & Hi & Hl & Hd & Hm). eapply open_load_law; [exact Hp|done|done|done|done|exact He| |].
  - intros w s' Hp' Hf. apply HQ; [|eapply frame_sub; [exact Hf|multiset_solver]]. eapply good_after; [exact Hg| |exact Hf]. intros r' Hr'. replace r' with r by congruence.
    by replace (R ⊎ {[+ w +]} ⊎ {[+ r +]}) with (R ⊎ {[+ r +]} ⊎ {[+ w +]}) by multiset_solver.
  - intros x s' Hp' Hf. apply HE. split; [|eapply frame_sub; [exact Hf|multiset_solver]]. eapply good_after; [exact Hg| |exact Hf]. intros r' Hr'. by replace r' with r by congruence.
Qed.

Lemma name_calls s R O c : good s R O -> allowed R O c ->
  match c with Lookup _ _ | Lookparent _ _ _ | Creat _ _ _ _ => call_ok s R O c | _ => True end.
Proof.
  intros Hg Hc. destruct c; try done; unfold call_ok; simpl in *; unfold a_vnode; destruct (good_ev _ _ _ _ Hg Hc) as (e & He & _); pose proof (emu_same_refl _ _ _ Hg) as Hs; runs_steps.
  1,2: assert (forall (Q : Z -> emu -> Prop) (E : Z -> emu -> Prop) q, (forall w s', good s' (R ⊎ {[+ w +]}) O -> frame s (R ⊎ O) s' -> Q w s') ->
    (forall x s', same s R O s' -> E x s') -> runs (emufs_lookup v q s) Q E) as Hlook.
  1,3: intros Q E q HQ HE; unfold emufs_lookup; apply runs_bind; eapply runs_get_ev; [exact He|]; eapply name_law; [done|exact He|done|done].
  - apply (dispatch_law s R O); [done|done|by runs_steps|]. by apply Hlook.
  - apply (dispatch_law s R O); [done|done|by runs_steps|]. unfold emufs_lookparent. destruct (strrchr p) as [[d b]|].
    + destruct (n <? zlen b + 1); [by runs_steps|]. runs_steps. by apply Hlook.
    + destruct (n <? zlen p + 1); [by runs_steps|]. runs_steps. apply (incref_good s R O); [done|done|]. intros s' Hg' Hf. by runs_steps.
  - apply (dispatch_law s R O); [done|done|by runs_steps|]. unfold emufs_creat. apply runs_bind. eapply runs_get_ev; [exact He|]. eapply name_law; [done|exact He|done|done].
Qed.

(** The calls that change nothing but files. *)
Lemma request_law s R O v r (Q : unit -> emu -> Prop) (E : Z -> emu -> Prop) : good s R O -> v ∈ R ⊎ O ->
  (forall s', same s R O s' -> Q tt s') -> (forall e s', same s R O s' -> E e s') -> runs (emu_vop v r s) Q E.
Proof.
  intros Hg Hv HQ HE. pose proof (emu_same_refl _ _ _ Hg) as Hs. destruct (good_ev _ _ _ _ Hg Hv) as (e & He & Hh). pose proof Hg as (_ & _ & _ & Hi & Hl & _).
  unfold emu_vop. apply (dispatch_law s R O); [done|done| |].
  - destruct r; simpl; unfold emufs_open; try (destruct (has_flag _ _)); try (by runs_steps; (apply HQ || apply HE)).
    unfold emufs_truncate. runs_steps. eapply runs_get_ev; [exact He|]. eapply emu_trunc_spec; [done|done|done| |]; intros; (apply HQ || apply HE); by apply good_quiet.
  - destruct r; simpl; unfold emufs_opendir; try (by runs_steps; apply HE). repeat (match goal with |- context [if ?b then _ else _] => destruct b end); by runs_steps; (apply HQ || apply HE).
Qed.

Lemma gettype_law s R O v (Q : Z -> emu -> Prop) (E : Z -> emu -> Prop) : good s R O -> v ∈ R ⊎ O -> (forall t, Q t s) -> runs (emufs_gettype v s) Q E.
Proof.
  intros Hg Hv HQ. destruct (good_ev _ _ _ _ Hg Hv) as (e & He & Hh). pose proof Hg as (r & _ & Hp & _ & _ & Hd & _). unfold emufs_gettype. runs_steps.
  eapply runs_get_ev; [exact He|]. runs_steps. eapply check_law; [exact Hp|done|multiset_solver|]. destruct (ev_isdir e); unfold emufs_dir_gettype, emufs_file_gettype; by runs_steps.
Qed.

Lemma stat_law s R O v (Q : list Z -> emu -> Prop) (E : Z -> emu -> Prop) : good s R O -> v ∈ R ⊎ O ->
  (forall a s', same s R O s' -> Q a s') -> (forall e s', same s R O s' -> E e s') -> runs (emufs_stat v s) Q E.
Proof.
  intros Hg Hv HQ HE. destruct (good_ev _ _ _ _ Hg Hv) as (e & He & Hh). pose proof Hg as (_ & _ & _ & Hi & Hl & _). unfold emufs_stat. runs_steps.
  eapply runs_get_ev; [exact He|]. runs_steps. eapply emu_getsize_spec; [done|done|done| |]; intros * Hs Hsame; pose proof (good_quiet _ _ _ _ Hg Hs Hsame) as Hq; [|by apply HE].
  runs_steps. eapply gettype_law; [apply Hq|done|]. intros t. runs_steps. by apply HQ.
Qed.

Lemma still_calls s R O c : good s R O -> allowed R O c ->
  match c with
  | Sync | Unmount | Request _ _ | Gettype _ | Stat _ | Tryseek _ _ | Ioctl _ _ | Fsync _ | Mmap _ => call_ok s R O c
  | _ => True
  end.
Proof.
  intros Hg Hc. pose proof (emu_same_refl _ _ _ Hg) as Hs. destruct c; try done; unfold call_ok; simpl in *; unfold no_vnode; runs_steps; try done.
  - apply (request_law s R O); [done|done| |done]. intros. by runs_steps.
  - apply (gettype_law s R O); [done|done|]. intros. by runs_steps.
  - apply (dispatch_law s R O); [done|done| |]; (apply (stat_law s R O); [done|done| |done]); intros; by runs_steps.
  - apply (dispatch_law s R O); [done|done|unfold emufs_tryseek; destruct (pos <? 0)|unfold emufs_dir_tryseek]; by runs_steps.
  - apply (dispatch_law s R O); [done|done| |]; unfold emufs_ioctl; by runs_steps.
  - apply (dispatch_law s R O); [done|done|unfold emufs_fsync|unfold emufs_void_op_isdir]; by runs_steps.
  - apply (dispatch_law s R O); [done|done|unfold emufs_mmap|unfold emufs_void_op_isdir]; by runs_steps.
Qed.

Lemma runs_with_uio x (m : M (fs * xfer) unit) s (Q : option Z -> emu -> Prop) (E : Z -> emu -> Prop) :
  runs (m (s, x)) (fun _ t => Q None (fst t)) (fun e t => E e (fst t)) -> runs (with_uio x m s) Q E.
Proof. unfold with_uio. by destruct (m (s, x)). Qed.

Lemma uio_calls s R O c : good s R O -> allowed R O c ->
  match c with Read _ _ | Write _ _ | Getdirentry _ _ | Readlink _ _ | Namefile _ _ => call_ok s R O c | _ => True end.
Proof.
  intros Hg Hc. pose proof (emu_same_refl _ _ _ Hg) as Hs. pose proof Hg as (_ & _ & _ & Hi & Hl & _).
  assert (forall t : fs * xfer, io_kept s t -> same s R O (fst t)) as Hkept by (intros t [? ?]; by apply good_quiet).
  destruct c; try done; unfold call_ok; destruct Hc as (Hv & (b & l & Hx) & Hd); destruct (good_ev _ _ _ _ Hg Hv) as (e & He & Hh); apply runs_with_uio; simpl;
    (apply (dispatch_x_law s R O); [done|done| |]); try (by runs_steps); pose proof (xo_resid _ _ _ Hx) as Hr.
  - unfold emufs_read, lift. runs_steps. eapply runs_get_ev; [exact He|]. runs_steps. cbn [fst snd]. rewrite Hd. apply runs_KASSERT; [done|].
    eapply runs_mono; [eapply io_loop_ends; [apply (read_turn (ev_handle e)); by left|done|done|done|exact Hx|done|lia]| |]; intros ? t Ht; by apply Hkept.
  - unfold emufs_write, lift. runs_steps. eapply runs_get_ev; [exact He|]. runs_steps. cbn [fst snd]. rewrite Hd. apply runs_KASSERT; [done|].
    eapply runs_mono; [eapply io_loop_ends; [apply (write_turn (ev_handle e))|done|done|done|exact Hx|done|lia]| |]; intros ? t Ht; by apply Hkept.
  - unfold emufs_getdirentry, lift. runs_steps. eapply runs_get_ev; [exact He|]. runs_steps. cbn [fst snd]. rewrite Hd. apply runs_KASSERT; [done|].
    eapply runs_mono; [eapply (read_turn (ev_handle e) EMU_OP_READDIR ltac:(by right; left)); [done|done|done|exact Hx|done| |]| |].
    1,2: unfold EMU_MAXIO; destruct (Z.ltb_spec 16384 (uio_resid (xu x))); lia.
    + intros ? t [Ht _]. by apply Hkept.
    + intros ? t Ht. by apply Hkept.
  - unfold emufs_namefile. runs_steps. destruct (bool_decide _); by runs_steps.
Qed.

(** C32. The emulator file system keeps count: whatever its clients call, holding
    the references they use, no call crashes, a vnode is loaded while it is held
    and its counts are those of the references, a handle of the server is open
    exactly when a loaded vnode stands for it, the vnodes held stand for the
    same files, and the locks are as before.  Errors change nothing. *)
Theorem emufs_references s R O c : good s R O -> allowed R O c -> call_ok s R O c.
Proof.
  intros Hg Hc. pose proof (count_calls s R O c Hg Hc). pose proof (name_calls s R O c Hg Hc). pose proof (still_calls s R O c Hg Hc). pose proof (uio_calls s R O c Hg Hc).
  by destruct c.
Qed.

(** A read through the function table, of a file. *)
Lemma vop_read_law s R O v e data x base l :
  good s R O -> v ∈ R ⊎ O -> vnodes s !! v = Some e -> ev_isdir e = false -> reads s (ev_handle e) data ->
  xok x base l -> uio_dir (xu x) = UIO_READ -> uio_offset (xu x) < 2 ^ 32 ->
  let n := available (zlen data) (uio_offset (xu x)) (uio_resid (xu x)) in
  let after s' := good s' R O /\ vnodes s' = vnodes s /\ reads s' (ev_handle e) data in
  runs (emu_vop_read v (s, x))
    (fun _ t => after (fst t) /\ snd t = advance n (put_bytes base (segment (uio_offset (xu x)) n data) x))
    (fun _ t => after (fst t) /\ ~ reach x base (uio_resid (xu x))).
Proof.
  intros Hg Hv He Hdir Hrd Hx Hd Hoff n after. pose proof Hg as (r & _ & Hp & _ & _ & Hd0 & _). unfold emu_vop_read, dispatch_x, lift. runs_steps.
  eapply check_law; [exact Hp|done|multiset_solver|]. runs_steps. eapply runs_get_ev; [exact He|]. rewrite Hdir. unfold emufs_read, lift. runs_steps.
  eapply runs_get_ev; [exact He|]. runs_steps. cbn [fst snd]. rewrite Hd. apply runs_KASSERT; [done|].
  assert (forall t, io_kept s t -> reads (fst t) (ev_handle e) data -> after (fst t)) as Hback.
  { intros t [Hs Hsame] Hrd'. split_and!; [by apply (good_quiet s)| |done]. by destruct Hs as (? & ? & ? & -> & _). }
  eapply runs_mono; [eapply read_loop_exact; [done|exact Hx|done|done|pose proof (xo_resid _ _ _ Hx); lia]| |]; cbv beta; fold n; unfold moved; rewrite ?Hd.
  - intros _ t (Hk & Hrd' & ->). split; [by apply Hback|done].
  - intros _ t (Hk & Hrd' & Hnr). split; [by apply Hback|done].
Qed.

(** Reading a file of a server that works gives its bytes: as many as there
    are, from the offset, in the memory of the uio; a failure means that this
    memory cannot be reached. *)
Theorem emufs_read_exact s R O v e data x base l :
  good s R O -> v ∈ R ⊎ O -> vnodes s !! v = Some e -> ev_isdir e = false -> reads s (ev_handle e) data ->
  xok x base l -> uio_dir (xu x) = UIO_READ -> uio_offset (xu x) < 2 ^ 32 ->
  let n := available (zlen data) (uio_offset (xu x)) (uio_resid (xu x)) in
  runs (emu_vop_read v (s, x))
    (fun _ t => good (fst t) R O /\ reads (fst t) (ev_handle e) data /\ snd t = advance n (put_bytes base (segment (uio_offset (xu x)) n data) x))
    (fun _ t => good (fst t) R O /\ reads (fst t) (ev_handle e) data /\ ~ reach x base (uio_resid (xu x))).
Proof.
  intros. eapply runs_mono; [by eapply vop_read_law| |]; cbv beta zeta; intros ? t; naive_solver.
Qed.

(** Nothing is loaded at first. *)
Lemma fresh_pool s f : handles (e_card s) = {[EMU_ROOTHANDLE := f]} -> vnodes s = ∅ -> ef_vnodes s = [] -> pool s ∅ ∅ (Some EMU_ROOTHANDLE).
Proof.
  intros Hh Hv Hl. unfold pool. rewrite Hh, Hv, Hl. split.
  - constructor.
  - intros v. rewrite lookup_empty. split; [intros []%elem_of_nil|by intros [? ?]].
  - by intros v e; rewrite lookup_empty.
  - by intros v e; rewrite lookup_empty.
  - intros v. multiset_solver.
  - intros h. rewrite lookup_singleton_is_Some. split; [intros <-; by left|]. intros [[= <-]|(v & e & He & _)]; [done|by rewrite lookup_empty in He].
  - by intros v w e e'; rewrite lookup_empty.
  - by intros v e; rewrite lookup_empty.
Qed.

(** [config_emu] on a server that has just the root open. *)
Lemma config_emu_good s f addfs : handles (e_card s) = {[EMU_ROOTHANDLE := f]} -> zlen (reg_buf (e_regs s)) = EMU_MAXIO -> vnodes s = ∅ ->
  0 <= depth s -> plenty s -> (forall s', addfs s' = Ret tt s') -> returns (config_emu true true addfs s) (fun _ s' => good s' ∅ ∅).
Proof.
  intros Hh Hb Hv Hd Hm Ha. unfold config_emu, emufs_addtovfs. cbn [negb]. runs_steps. apply runs_kmalloc; [done|]. intros s1 E1 Hm1. cbn [negb]. runs_steps.
  apply runs_kmalloc; [done|]. intros s2 E2 Hm2. cbn [negb]. runs_steps. set (s3 := put_pool _ _ _).
  assert (pool s3 ∅ ∅ (Some EMU_ROOTHANDLE)) as Hp by (apply (fresh_pool _ f); by subst s3 s2 s1).
  apply (load_law s3 ∅ ∅); [done|by subst s3 s2 s1|by subst s3 s2 s1|done|]. intros v s4 Hp4 (Hl4 & Hd4 & Hr4 & Hi4 & Hm4 & _). runs_steps. rewrite Ha. runs_steps.
  exists v. split_and!; [done|exact Hp4|apply Hi4; subst s3 s2 s1; by split|simpl; rewrite Hl4; by subst s3 s2 s1|simpl; rewrite Hd4; by subst s3 s2 s1|by apply Hm4].
Qed.

(** Without memory for a vnode, [emufs_loadvnode] fails with the big lock still
    held once more than before. *)
Theorem loadvnode_keeps_biglock s R O h d m : pool s R O (Some h) -> e_lock s = false -> memory s = false :: m ->
  exists s', emufs_loadvnode h d s = Err ENOMEM s' /\ depth s' = depth s + 1 /\ e_lock s' = false /\ pool s' R O (Some h).
Proof.
  intros Hp Hl Hm. assert (runs (emufs_loadvnode h d s) (fun _ _ => False) (fun e s' => e = ENOMEM /\ s' = put_memory m (put_depth (depth s + 1) s))) as Hr.
  { unfold emufs_loadvnode, vfs_biglock_acquire, lock_acquire. runs_steps. fields. rewrite Hl. runs_steps. apply pool_find_spec.
    - intros v Hv. apply (po_dom _ _ _ _ _ _ _ Hp) in Hv as [e He]. exists e. split; [done|]. intros <-. by eapply po_spare.
    - unfold kmalloc. runs_steps. fields. rewrite Hm. cbn [negb]. unfold lock_release. runs_steps. apply runs_KASSERT; [done|]. runs_steps. split; [done|].
      destruct s. simpl in *. by subst. }
  destruct (emufs_loadvnode h d s) as [|e s'|]; simpl in Hr; [done| |done]. destruct Hr as [-> ->]. by eexists.
Qed.
End Thm.

(** ** An example: a server of one file that can only be read *)

Record server := mkServer { sv_handles : gmap Z Z; sv_files : Z -> list Z }.

Definition serve (op : Z) (r : regs) (c : server) : server * regs :=
  let answer c h off len res buf := (c, mkRegs h (u32 off) len res buf) in
  let fail e := answer c (reg_handle r) (reg_offset r) 0 e (reg_buf r) in
  match sv_handles c !! reg_handle r with
  | None => fail EMU_RES_BADHANDLE
  | Some f =>
      if op =? EMU_OP_OPEN then
        match sv_handles c !! 1 with
        | None => answer (mkServer (<[1 := 7]> (sv_handles c)) (sv_files c)) 1 (reg_offset r) 0 EMU_RES_SUCCESS (reg_buf r)
        | Some _ => fail EMU_RES_NOHANDLES
        end
      else if op =? EMU_OP_CLOSE then
        answer (mkServer (delete (reg_handle r) (sv_handles c)) (sv_files c)) (reg_handle r) (reg_offset r) 0 EMU_RES_SUCCESS (reg_buf r)
      else if op =? EMU_OP_READ then
        let n := available (zlen (sv_files c f)) (reg_offset r) (reg_iolen r) in
        answer c (reg_handle r) (reg_offset r + n) n EMU_RES_SUCCESS
          (let bs := segment (reg_offset r) n (sv_files c f) in if zlen bs <=? zlen (reg_buf r) then zsplice (reg_buf r) 0 bs else reg_buf r)
      else fail EMU_RES_MEDIA
  end.

Ltac serve_cases Ex := unfold serve in Ex; repeat case_match; simplify_eq; simpl in *; rewrite ?Z.eqb_eq, ?Z.eqb_neq, ?Z.leb_le, ?Z.leb_gt in *.

Lemma ztake_zsplice {A} (l k : list A) : ztake (zlen k) (zsplice l 0 k) = k.
Proof. unfold zsplice. change (ztake 0 l) with (@nil A). simpl. unfold ztake, zlen. rewrite Nat2Z.id. apply take_app_length. Qed.

#[local, refine] Instance server_card : EmuCard server := {
  emu_exec := serve; handles := sv_handles; contents := sv_files; steady c := True }.
Proof.
  - intros c op r c' r' Ex Hop [f Hf] Hlen. serve_cases Ex; split_and!; try done. rewrite zlen_zsplice; lia.
  - intros c op r c' r' Ex Hop Hok. serve_cases Ex; try done; try (by eauto); rewrite !elem_of_cons, elem_of_nil in Hop; unfold EMU_OP_OPEN, EMU_OP_CREATE, EMU_OP_EXCLCREATE, EMU_OP_CLOSE, EMU_OP_READ in *; lia.
  - intros c r c' r' Ex Hok. by serve_cases Ex.
  - intros c op r c' r' Ex Hop. serve_cases Ex; try done; unfold EMU_OP_OPEN, EMU_OP_CLOSE, EMU_OP_READ in *; lia.
  - intros c op r c' r' Ex Hop Hlen. serve_cases Ex; split; try (apply u32_range); unfold available; lia.
  - intros c r c' r' f Ex _ Hf Hlen Hb Ho Hsz n. assert (0 <= n <= reg_iolen r) as Hn by (unfold n, available; lia).
    assert (zlen (segment (reg_offset r) n (sv_files c f)) = n) as Hz by (apply zlen_segment; unfold n, available, is_u32 in *; lia).
    assert (u32 (reg_offset r + n) = reg_offset r + n) as Hu by (apply u32_small; unfold n, available, is_u32 in *; lia).
    unfold serve in Ex. rewrite Hf in Ex. change (EMU_OP_READ =? EMU_OP_OPEN) with false in Ex. change (EMU_OP_READ =? EMU_OP_CLOSE) with false in Ex.
    change (EMU_OP_READ =? EMU_OP_READ) with true in Ex. cbv zeta iota in Ex. fold n in Ex. rewrite Hz, (proj2 (Z.leb_le n _)) in Ex by lia. injection Ex as <- <-.
    cbn [reg_result reg_iolen reg_offset reg_buf]. split_and!; try done. rewrite <- Hz at 1. apply ztake_zsplice.
Defined.

Definition boot : emu := mkEmu (mkServer {[EMU_ROOTHANDLE := 3]} (fun _ => [104; 105])) (mkRegs 0 0 0 0 (zrep EMU_MAXIO 0)) 0 0 false ∅ [] None 1 0 [].
Definition mounted : emu := after (config_emu true true (ret tt)) boot.
Definition rooted : emu := after (emufs_call Getroot) mounted.
Definition opened : emu := after (emufs_call (Lookup 1 [102])) rooted.

Lemma mounted_good : good mounted ∅ ∅.
Proof. unfold mounted. apply (returns_after (config_emu true true (ret tt)) boot (fun s => good s ∅ ∅)). apply (config_emu_good boot 3); try done. constructor. Qed.

Lemma after_call c s w R O : call_ok s R O c -> emufs_call c s = Ret w (after (emufs_call c) s) -> good (after (emufs_call c) s) (fst (refs_after c w R O)) (snd (refs_after c w R O)).
Proof. unfold call_ok. intros Hc Hr. rewrite Hr in Hc. apply Hc. Qed.

Lemma rooted_good : good rooted {[+ 1 +]} ∅.
Proof.
  replace ({[+ 1 +]} : gmultiset Z) with (∅ ⊎ {[+ 1 +]} : gmultiset Z) by multiset_solver.
  refine (after_call Getroot mounted (Some 1) ∅ ∅ _ _); [apply (count_calls mounted ∅ ∅ Getroot); [apply mounted_good|done]|]. vm_compute. reflexivity.
Qed.

Lemma opened_good : good opened ({[+ 1 +]} ⊎ {[+ 2 +]}) ∅.
Proof.
  refine (after_call (Lookup 1 [102]) rooted (Some 2) {[+ 1 +]} ∅ _ _); [apply (name_calls rooted {[+ 1 +]} ∅ (Lookup 1 [102])); [apply rooted_good|simpl; multiset_solver]|].
  vm_compute. reflexivity.
Qed.

Lemma emufs_references_witness :
  good opened ({[+ 1 +]} ⊎ {[+ 2 +]}) ∅ /\ allowed ({[+ 1 +]} ⊎ {[+ 2 +]}) ∅ (Decref 2) /\ call_ok opened ({[+ 1 +]} ⊎ {[+ 2 +]}) ∅ (Decref 2).
Proof.
  assert (allowed ({[+ 1 +]} ⊎ {[+ 2 +]}) ∅ (Decref 2)) as Ha by (simpl; multiset_solver).
  split; [apply opened_good|split; [exact Ha|]]. apply (emufs_references opened _ _ (Decref 2)); [apply opened_good|exact Ha].
Defined.

Lemma loadvnode_keeps_biglock_witness :
  let s := put_memory [false] (put_card (mkServer {[EMU_ROOTHANDLE := 3]} (fun _ => [])) (e_regs boot) boot) in
  pool s ∅ ∅ (Some EMU_ROOTHANDLE) /\ exists s', emufs_loadvnode EMU_ROOTHANDLE true s = Err ENOMEM s' /\ depth s' = 1.
Proof.
  intros s. assert (pool s ∅ ∅ (Some EMU_ROOTHANDLE)) as Hp by (apply fresh_pool with 3; done).
  split; [exact Hp|]. destruct (loadvnode_keeps_biglock s ∅ ∅ EMU_ROOTHANDLE true [] Hp eq_refl eq_refl) as (s' & H1 & H2 & _). by exists s'.
Defined.

Definition a_buffer : xfer := kxfer (zrep 5 0) 0 UIO_READ (clear_fault ∅) None.

Lemma emufs_read_exact_witness :
  runs (emu_vop_read 2 (opened, a_buffer)) (fun _ t => ztake 5 (kmem (snd t)) = [104; 105; 0; 0; 0] /\ uio_resid (xu (snd t)) = 3) (fun _ _ => False).
Proof.
  eapply runs_mono; [apply (emufs_read_exact opened ({[+ 1 +]} ⊎ {[+ 2 +]}) ∅ 2 (mkEv 1 0 1 false) [104; 105] a_buffer 0 5)| |].
  - apply opened_good.
  - multiset_solver.
  - vm_compute. reflexivity.
  - done.
  - pose proof opened_good as (r & _ & _ & Hi & Hl & _). split_and!; [done|done|done|]. exists 7. split_and!; [vm_compute; reflexivity|vm_compute; reflexivity|done].
  - split; try done.
  - done.
  - done.
  - intros _ t (_ & _ & Ht). rewrite Ht. split; vm_compute; reflexivity.
  - intros e t (_ & _ & Ht). apply Ht. by left.
Defined.
End EmuThm.
