(* ===== verification/EmuExec.v ===== *)
(** * Programs on the emulator file system

    A file of the emulator file system that a process holds is one that
    [load_elf] can read ([emu_exec_file]): programs are usually run from there. *)

From stdpp Require Import gmultiset.
From S2P Require Import Prelude Copyinout Uio Vfs SfsDisk SfsFile LoadElf Emu EmuThm.
Import Copyinout Uio SfsDisk LoadElf Emu EmuThm.

Module EmuExec.
Section Exec.
Context {C : Type} `{!EmuCard C}.

(** Vnode [v] is held, and stands for a file with these bytes. *)
Definition emu_file_has (s : emu (C := C)) (v : Z) (data : list Z) : Prop :=
  byte_list data /\ exists R O e, good s R O /\ v ∈ R ⊎ O /\ vnodes s !! v = Some e /\ ev_isdir e = false /\ reads s (ev_handle e) data.

#[export] Program Instance emu_exec_file : ExecFile (emu (C := C)) := {| VOP_READ := emu_vop_read; file_has := emu_file_has |}.
Next Obligation. intros s v data (Hb & R & O & e & _ & _ & _ & _ & (_ & _ & _ & f & _ & _ & Hlen)). done. Qed.
Next Obligation.
  intros s v data x base l (Hb & R & O & e & Hg & Hv & He & Hd & Hr) Hreq Hoff. cbv zeta. destruct Hreq as [Hx Hdir _ _].
  assert (forall s', good s' R O /\ vnodes s' = vnodes s /\ reads s' (ev_handle e) data -> emu_file_has s' v data) as Hback.
  { intros s' (Hg' & Hvs & Hr'). split; [done|]. exists R, O, e. by rewrite Hvs. }
  eapply runs_mono; [by eapply vop_read_law| |]; cbv beta zeta.
  - intros _ t [Ha ->]. split; [by apply Hback|done].
  - intros _ t [Ha Hn]. split; [by apply Hback|done].
Qed.
End Exec.
End EmuExec.
