(* ===== verification/Proc.v ===== *)
(** * Processes and system calls: src/proc/proc.c, src/syscall/proc_syscalls.c,
      src/arch/mips/syscall/syscall.c and the rest of src/syscall/runprogram.c

    [Proc] puts the parts together: a process has an address space in physical
    memory ([Dumbvm]), a current directory, a console and a file table over the
    VFS layer ([FileTable]), and threads.  System calls act on the process of
    the current thread. *)

From stdpp Require Import gmultiset.
From S2P Require Import Prelude Spl Kmalloc Dumbvm DumbvmThm Copyinout Uio Vfs VfsThm FileTable SfsDisk Runprogram LoadElf.
Import Ram Dumbvm Copyinout Uio Vfs FileTable.

Module Proc.

(** [struct trapframe]: the registers the kernel looks at, and the others. *)
Record trapframe := mkTf { tf_v0 : Z; tf_a0 : Z; tf_a1 : Z; tf_a2 : Z; tf_a3 : Z; tf_sp : Z; tf_epc : Z; tf_others : list Z }.

(** [struct proc]; a process is a number, and so is a thread. *)
Record proc := mkProc {
  p_threads : list Z; p_addrspace : option addrspace; p_pid : Z; p_cwd : option Z; console : option Z }.

Definition with_threads (x : list Z) (p : proc) := mkProc x (p_addrspace p) (p_pid p) (p_cwd p) (console p).
Definition with_as (x : option addrspace) (p : proc) := mkProc (p_threads p) x (p_pid p) (p_cwd p) (console p).
Definition with_cwd (x : option Z) (p : proc) := mkProc (p_threads p) (p_addrspace p) (p_pid p) x (console p).
Definition with_console (x : option Z) (p : proc) := mkProc (p_threads p) (p_addrspace p) (p_pid p) (p_cwd p) x.

(** What of [struct thread] is about processes; [t_entry] is what a forked
    thread starts with, a trapframe and a file table. *)
Record thread := mkThread { t_proc : option Z; t_filetable : option Z; t_entry : option (trapframe * Z) }.

Definition with_proc (x : option Z) (t : thread) := mkThread x (t_filetable t) (t_entry t).
Definition with_filetable (x : option Z) (t : thread) := mkThread (t_proc t) x (t_entry t).
Definition with_entry (x : option (trapframe * Z)) (t : thread) := mkThread (t_proc t) (t_filetable t) x.

Section Proc.
Context {F : Type} `{!FileSystems F} `{!FileIO F}.

(** The semaphores are their counts. *)
Record kernel := mkKernel {
  k_files : files (F := F); k_vm : vm;
  procs : gmap Z proc; next_proc : Z; kproc : Z; next_pid : Z;
  proc_count : Z; proc_count_mutex : Z; no_proc_sem : Z;
  threads : gmap Z thread; next_thread : Z; curthread : Z }.

Definition put_files (x : files) (k : kernel) := mkKernel x (k_vm k) (procs k) (next_proc k) (kproc k) (next_pid k) (proc_count k) (proc_count_mutex k) (no_proc_sem k) (threads k) (next_thread k) (curthread k).
Definition put_vm (x : vm) (k : kernel) := mkKernel (k_files k) x (procs k) (next_proc k) (kproc k) (next_pid k) (proc_count k) (proc_count_mutex k) (no_proc_sem k) (threads k) (next_thread k) (curthread k).
Definition put_procs (x : gmap Z proc) (n : Z) (k : kernel) := mkKernel (k_files k) (k_vm k) x n (kproc k) (next_pid k) (proc_count k) (proc_count_mutex k) (no_proc_sem k) (threads k) (next_thread k) (curthread k).
Definition put_kproc (x : Z) (k : kernel) := mkKernel (k_files k) (k_vm k) (procs k) (next_proc k) x (next_pid k) (proc_count k) (proc_count_mutex k) (no_proc_sem k) (threads k) (next_thread k) (curthread k).
Definition put_next_pid (x : Z) (k : kernel) := mkKernel (k_files k) (k_vm k) (procs k) (next_proc k) (kproc k) x (proc_count k) (proc_count_mutex k) (no_proc_sem k) (threads k) (next_thread k) (curthread k).
Definition put_count (c m n : Z) (k : kernel) := mkKernel (k_files k) (k_vm k) (procs k) (next_proc k) (kproc k) (next_pid k) c m n (threads k) (next_thread k) (curthread k).
Definition put_threads (x : gmap Z thread) (n : Z) (k : kernel) := mkKernel (k_files k) (k_vm k) (procs k) (next_proc k) (kproc k) (next_pid k) (proc_count k) (proc_count_mutex k) (no_proc_sem k) x n (curthread k).
Definition put_curthread (x : Z) (k : kernel) := mkKernel (k_files k) (k_vm k) (procs k) (next_proc k) (kproc k) (next_pid k) (proc_count k) (proc_count_mutex k) (no_proc_sem k) (threads k) (next_thread k) x.

Definition get_proc (p : Z) : M kernel proc := let* k := get in of_option Wild (procs k !! p).
Definition upd_proc (p : Z) (g : proc -> proc) : M kernel unit :=
  let* x := get_proc p in
  modify (fun k => put_procs (<[p := g x]> (procs k)) (next_proc k) k).
Definition get_thread (t : Z) : M kernel thread := let* k := get in of_option Wild (threads k !! t).
Definition upd_thread (t : Z) (g : thread -> thread) : M kernel unit :=
  let* x := get_thread t in
  modify (fun k => put_threads (<[t := g x]> (threads k)) (next_thread k) k).

(** [curproc]: the current thread's, or NULL; what follows it does not check. *)
Definition cur (k : kernel) : option Z := match threads k !! curthread k with Some t => t_proc t | None => None end.
Definition curproc : M kernel Z := let* k := get in of_option Wild (cur k).

Definition on_vm {A} (m : M vm A) : M kernel A := zoom k_vm put_vm m.

(** The VFS layer finds the directory of the current process in [Vfs.p_cwd];
    otherwise that is unused. *)
Definition load_cwd (k : kernel) : files :=
  let c := match cur k with Some p => match procs k !! p with Some x => p_cwd x | None => None end | None => None end in
  put_vfs (put_cwd c (fvfs (k_files k))) (k_files k).
Definition store_cwd (f : files) (k : kernel) : kernel :=
  let k' := put_files (put_vfs (put_cwd None (fvfs f)) f) k in
  match cur k with
  | Some p => put_procs (alter (with_cwd (Vfs.p_cwd (fvfs f))) p (procs k)) (next_proc k) k'
  | None => k'
  end.
Definition on_files {A} (m : M files A) : M kernel A := zoom load_cwd store_cwd m.

(** Calls that do not look at the current directory. *)
Definition on_vfs {A} (m : M vfs A) : M kernel A := zoom k_files put_files (FileTable.on_vfs m).
Definition kmalloc : M kernel bool := on_vfs Vfs.kmalloc.
Definition kfree : M kernel unit := on_vfs Vfs.kfree.

(** A semaphore that is zero is waited for in vain. *)
Definition P_count : M kernel unit :=
  let* k := get in
  if proc_count_mutex k =? 0 then crashed Hung
  else modify (fun k => put_count (proc_count k) (proc_count_mutex k - 1) (no_proc_sem k) k).
Definition V_count : M kernel unit := modify (fun k => put_count (proc_count k) (proc_count_mutex k + 1) (no_proc_sem k) k).

(** ** Processes (proc.c) *)

Definition get_next_pid : M kernel Z :=
  let* k := get in
  modify (put_next_pid (s32 (next_pid k + 1))) ;;
  ret (next_pid k).

(** [None] is NULL. *)
Definition proc_create : M kernel (option Z) :=
  let* ok := kmalloc in
  if negb ok then ret None
  else
    let* ok := kmalloc in
    if negb ok then kfree ;; ret None
    else
      let* pid := get_next_pid in
      let* k := get in
      modify (put_procs (<[next_proc k := mkProc [] None pid None None]> (procs k)) (next_proc k + 1)) ;;
      ret (Some (next_proc k)).

Definition proc_destroy (p : Z) : M kernel unit :=
  let* k := get in
  KASSERT (negb (p =? kproc k)) ;;
  let* x := get_proc p in
  match p_cwd x with
  | Some v => on_vfs (VOP_DECREF v) ;; upd_proc p (with_cwd None)
  | None => ret tt
  end ;;
  match console x with
  | Some v => on_vfs (vfs_close v)
  | None => ret tt
  end ;;
  KASSERT (bool_decide (p_threads x = [])) ;;
  kfree ;;
  kfree ;;
  modify (fun k => put_procs (delete p (procs k)) (next_proc k) k) ;;
  P_count ;;
  let* k := get in
  KASSERT (0 <? proc_count k) ;;
  modify (put_count (proc_count k - 1) (proc_count_mutex k) (if proc_count k - 1 =? 0 then no_proc_sem k + 1 else no_proc_sem k)) ;;
  V_count.

(** [sems_ok]: whether the two semaphores could be created. *)
Definition proc_bootstrap (sem1_ok sem2_ok : bool) : M kernel unit :=
  let* p := proc_create in
  match p with
  | None => panic
  | Some p =>
      modify (put_kproc p) ;;
      let* k := get in
      if negb sem1_ok then panic
      else if negb sem2_ok then panic
      else modify (put_count 0 1 0)
  end.

Definition proc_create_runprogram : M kernel (option Z) :=
  let* p := proc_create in
  match p with
  | None => ret None
  | Some p =>
      let* ok := kmalloc in
      if negb ok then panic
      else
        let* r := try (on_files (FileTable.on_vfs (vfs_open CON_PATH O_WRONLY 0))) in
        match r with
        | inr _ => panic
        | inl v =>
            upd_proc p (with_console (Some v)) ;;
            kfree ;;
            upd_proc p (with_as None) ;;
            let* c := curproc in
            let* x := get_proc c in
            match p_cwd x with
            | Some d => on_vfs (VOP_INCREF d) ;; upd_proc p (with_cwd (Some d))
            | None => ret tt
            end ;;
            P_count ;;
            modify (fun k => put_count (u32 (proc_count k + 1)) (proc_count_mutex k) (no_proc_sem k) k) ;;
            V_count ;;
            ret (Some p)
        end
  end.

(** [threadarray_add] allocates when the array is full, here whenever the
    oracle says. *)
Definition proc_addthread (p t : Z) : M kernel unit :=
  let* x := get_thread t in
  KASSERT (bool_decide (t_proc x = None)) ;;
  let* ok := kmalloc in
  if negb ok then err ENOMEM
  else
    upd_proc p (fun x => with_threads (p_threads x ++ [t]) x) ;;
    upd_thread t (with_proc (Some p)).

(** Where the thread is. *)
Fixpoint find_thread (l : list Z) (t : Z) (i : nat) : option nat :=
  match l with
  | [] => None
  | u :: l' => if u =? t then Some i else find_thread l' t (S i)
  end.

Definition proc_remthread (t : Z) : M kernel unit :=
  let* x := get_thread t in
  match t_proc x with
  | None => panic
  | Some p =>
      let* y := get_proc p in
      match find_thread (p_threads y) t 0 with
      | None => panic
      | Some i =>
          upd_proc p (with_threads (delete i (p_threads y))) ;;
          upd_thread t (with_proc None)
      end
  end.

Definition curproc_getas : M kernel (option addrspace) :=
  let* k := get in
  match cur k with
  | None => ret None
  | Some p => let* x := get_proc p in ret (p_addrspace x)
  end.

Definition curproc_setas (newas : option addrspace) : M kernel (option addrspace) :=
  let* p := curproc in
  let* x := get_proc p in
  upd_proc p (with_as newas) ;;
  ret (p_addrspace x).

(** ** Threads of processes *)

(** [thread_fork] (src/thread/thread.c) without the scheduling, which is
    [Sched.thread_fork]: the new thread joins the process and will start with
    [entry].  [thread_create] makes two allocations, and the stack is one. *)
Definition thread_fork (proc : Z) (entry : trapframe * Z) : M kernel unit :=
  let* ok := kmalloc in
  if negb ok then err ENOMEM
  else
    let* ok := kmalloc in
    if negb ok then kfree ;; err ENOMEM
    else
      let* k := get in
      let t := next_thread k in
      modify (put_threads (<[t := mkThread None None None]> (threads k)) (t + 1)) ;;
      let destroy e : M kernel unit :=
        modify (fun k => put_threads (delete t (threads k)) (next_thread k) k) ;;
        kfree ;;
        kfree ;;
        err e in
      let* ok := kmalloc in
      if negb ok then destroy ENOMEM
      else
        let* r := try (proc_addthread proc t) in
        match r with
        | inr e => kfree ;; destroy e
        | inl _ => upd_thread t (with_entry (Some entry))
        end.

(** ** System calls (proc_syscalls.c) *)

(** [as_destroy] frees the structure; frames are not given back. *)
Definition as_destroy (a : addrspace) : M kernel unit := kfree.

(** Up to [thread_exit], which does not return. *)
Definition sys__exit (exitcode : Z) : M kernel unit :=
  let* p := curproc in
  let* x := get_proc p in
  KASSERT (match p_addrspace x with Some _ => true | None => false end) ;;
  on_vm as_deactivate ;;
  let* a := curproc_setas None in
  match a with Some a => as_destroy a | None => ret tt end ;;
  let* k := get in
  proc_remthread (curthread k) ;;
  proc_destroy p.

(** The early returns leave the interrupt level as it is. *)
Definition sys_fork (tf : trapframe) : M kernel Z :=
  let* s := on_vm splhigh in
  let* p := curproc in
  let* ok := kmalloc in
  if negb ok then err ENOMEM
  else
    let* child := proc_create_runprogram in
    match child with
    | None => err ENOMEM
    | Some child =>
        let* x := get_proc p in
        let* a := of_option Wild (p_addrspace x) in
        let* as_ok := kmalloc in
        let* r := try (on_vm (as_copy as_ok a)) in
        match r with
        | inr _ => panic
        | inl new =>
            upd_proc child (with_as (Some new)) ;;
            let* k := get in
            let* t := get_thread (curthread k) in
            let* table := of_option Wild (t_filetable t) in
            let* ft := on_files (fork_table table) in
            let* r := try (thread_fork child (tf, ft)) in
            let* _ := on_vm (splx s) in
            match r with
            | inr e => err e
            | inl _ =>
                let* x := get_proc child in
                ret (p_pid x)
            end
        end
    end.

Definition sys_getpid : M kernel Z :=
  let* p := curproc in
  let* x := get_proc p in
  ret (p_pid x).

(** User memory of the current process, as [vm_fault] makes it appear. *)
Definition cur_as (k : kernel) : option addrspace :=
  match cur k with Some p => match procs k !! p with Some x => p_addrspace x | None => None end | None => None end.
Definition with_user {A} (m : M (files * uspace) A) : M kernel A := fun k =>
  let a := cur_as k in
  let bad := match a with Some a => negb (LoadElf.faultable a) | None => false end in
  let view := match a with Some a => if LoadElf.faultable a then LoadElf.user_view (k_vm k) a else ∅ | None => ∅ end in
  let back t :=
    let k' := store_cwd (fst t) k in
    match a with
    | Some a => put_vm (put_phys (LoadElf.store_view (um (snd t)) a (phys (k_vm k))) (k_vm k)) k'
    | None => k'
    end in
  match m (load_cwd k, clear_fault view) with
  | Ret x t => Ret x (back t)
  | Err e t => if bad && (e =? EFAULT) then Crash Panicked else Err e (back t)
  | Crash c => Crash c
  end.
Definition on_user {A} (m : M uspace A) : M kernel A := with_user (FileTable.lift_u m).

Definition sys_waitpid (pid status options : Z) : M kernel Z :=
  if negb (options =? 0) then err EINVAL
  else
    on_user (copyout (SfsDisk.be 4 0) status) ;;
    ret pid.

(** [now] is what [gettime] reads from the clock: seconds and nanoseconds. *)
Definition sys___time (now : Z * Z) (user_seconds_ptr user_nanoseconds_ptr : Z) : M kernel unit :=
  on_user (copyout (SfsDisk.be 8 (fst now)) user_seconds_ptr) ;;
  on_user (copyout (SfsDisk.be 4 (snd now)) user_nanoseconds_ptr).

(** [shutdown] and [sys_reboot] (src/startup/main.c); the machine stops.
    [thread_shutdown], which stops the other processors, is left out. *)
Definition RB_REBOOT : Z := 0.
Definition RB_HALT : Z := 1.
Definition RB_POWEROFF : Z := 2.
Definition shutdown : M kernel unit :=
  on_vfs vfs_clearbootfs ;;
  on_files (FileTable.on_vfs vfs_clearcurdir) ;;
  on_vfs vfs_unmountall ;;
  let* _ := on_vm splhigh in
  ret tt.
Definition sys_reboot (code : Z) : M kernel unit :=
  if negb ((code =? RB_REBOOT) || (code =? RB_HALT) || (code =? RB_POWEROFF)) then err EINVAL
  else shutdown ;; crashed Hung.

(** ** The dispatcher (syscall.c) *)

Definition SYS_fork : Z := 0.
Definition SYS__exit : Z := 3.
Definition SYS_waitpid : Z := 4.
Definition SYS_getpid : Z := 5.
Definition SYS_open : Z := 45.
Definition SYS_close : Z := 49.
Definition SYS_read : Z := 50.
Definition SYS_write : Z := 55.
Definition SYS___time : Z := 113.
Definition SYS_reboot : Z := 119.

(** The file table of the current thread. *)
Definition cur_table : M kernel Z :=
  let* k := get in
  let* t := get_thread (curthread k) in
  of_option Wild (t_filetable t).

(** The address space as the uio sees it: that of the process, or NULL. *)
Definition SPACE : option Z := Some 0.

(** [sys__exit] does not come back: what follows it stands for the end of the
    thread. *)
Definition do_call (now : Z * Z) (tf : trapframe) : M kernel Z :=
  let callno := tf_v0 tf in
  if callno =? SYS_reboot then sys_reboot (s32 (tf_a0 tf)) ;; ret 0
  else if callno =? SYS___time then sys___time now (tf_a0 tf) (tf_a1 tf) ;; ret 0
  else if callno =? SYS_write then
    let* p := cur_table in with_user (sys_write p (s32 (tf_a0 tf)) (tf_a1 tf) (tf_a2 tf) SPACE)
  else if callno =? SYS__exit then sys__exit (s32 (tf_a0 tf)) ;; ret 0
  else if callno =? SYS_getpid then sys_getpid
  else if callno =? SYS_waitpid then sys_waitpid (s32 (tf_a0 tf)) (tf_a1 tf) (s32 (tf_a2 tf))
  else if callno =? SYS_fork then sys_fork tf
  else if callno =? SYS_open then
    let* p := cur_table in with_user (sys_open p (tf_a0 tf) (tf_a1 tf) (tf_a2 tf))
  else if callno =? SYS_close then
    let* p := cur_table in on_files (sys_close p (s32 (tf_a0 tf))) ;; ret 0
  else if callno =? SYS_read then
    let* p := cur_table in with_user (sys_read p (s32 (tf_a0 tf)) (tf_a1 tf) (tf_a2 tf) SPACE)
  else err ENOSYS.

(** The two checks on the interrupt level. *)
Definition check_spl : M kernel unit :=
  let* k := get in
  KASSERT (Spl.t_curspl (vm_ipl (k_vm k)) =? 0) ;;
  KASSERT (Spl.t_iplhigh_count (vm_ipl (k_vm k)) =? 0).

Definition finish (tf : trapframe) (r : Z + Z) : trapframe :=
  let '(v0, a3) := match r with inl retval => (u32 retval, 0) | inr e => (u32 e, 1) end in
  mkTf v0 (tf_a0 tf) (tf_a1 tf) (tf_a2 tf) a3 (tf_sp tf) (u32 (tf_epc tf + 4)) (tf_others tf).

(** The trapframe the process goes on with. *)
Definition syscall (now : Z * Z) (tf : trapframe) : M kernel trapframe :=
  check_spl ;;
  let* r := try (do_call now tf) in
  check_spl ;;
  ret (finish tf r).

(** The table is copied once more, to the kernel stack; what becomes of that
    when the stack is used again is not part of the model. *)
Definition enter_forked_process (tf : trapframe) (data2 : Z) : M kernel trapframe :=
  let* s := on_vm splhigh in
  let* ft := on_files (
    let* l := get_table data2 in
    let* f := get in
    modify (put_tables (tables f ++ [l])) ;;
    ret (zlen (tables f))) in
  let* k := get in
  upd_thread (curthread k) (with_filetable (Some ft)) ;;
  kfree ;;
  let* _ := on_vm (splx s) in
  ret (mkTf 0 (tf_a0 tf) (tf_a1 tf) (tf_a2 tf) 0 (tf_sp tf) (u32 (tf_epc tf + 4)) (tf_others tf)).

(** ** Starting a program (runprogram.c) *)

Section Run.
Context `{!LoadElf.ExecFile F}.

(** The loader works on the file system, the VM system and the address space of
    the process. *)
Definition on_loader {A} (m : M (LoadElf.loader (F := F)) A) : M kernel A := fun k =>
  let v := fvfs (k_files k) in
  let back l :=
    let k' := put_vm (LoadElf.ld_vm l) (put_files (put_vfs (put_fs (LoadElf.ld_fs l) v) (k_files k)) k) in
    match cur k with
    | Some p => put_procs (alter (with_as (Some (LoadElf.ld_as l))) p (procs k)) (next_proc k) k'
    | None => k'
    end in
  match cur_as k with
  | None => Crash Wild
  | Some a =>
      match m (LoadElf.mkLoader (vs_fs v) (k_vm k) a) with
      | Ret x l => Ret x (back l)
      | Err e l => Err e (back l)
      | Crash c => Crash c
      end
  end.

(** [enter_new_process]: the number of arguments, the stack pointer, which is
    also that of [argv], and the entry point. *)
Definition runprogram (progname : name) (args : list (list Z)) : M kernel (Z * Z * Z) :=
  let* v := on_files (FileTable.on_vfs (vfs_open progname O_RDONLY 0)) in
  let* old := curproc_getas in
  KASSERT (match old with None => true | Some _ => false end) ;;
  let* ok := kmalloc in
  match as_create ok with
  | None => on_vfs (vfs_close v) ;; err ENOMEM
  | Some a =>
      let* _ := curproc_setas (Some a) in
      let* k := get in
      on_vm (as_activate (Some (cur_as k))) ;;
      let* r := try (on_loader (LoadElf.load_elf v)) in
      on_vfs (vfs_close v) ;;
      match r with
      | inr e => err e
      | inl entrypoint =>
          let* k := get in
          let* a := of_option Wild (cur_as k) in
          let* _ := on_vm (as_define_stack a) in
          let* argv_ok := kmalloc in
          let* stackptr := on_user (Runprogram.setup_args argv_ok args) in
          kfree ;;
          let* ft := on_files filetable_init in
          let* k := get in
          upd_thread (curthread k) (with_filetable (Some ft)) ;;
          ret (zlen args, stackptr, entrypoint)
      end
  end.
End Run.
End Proc.
End Proc.
