(* ===== verification/ProcThm.v ===== *)
(** * Theorems about processes

    Whatever the processes do, their identifiers are distinct, the counter
    counts them, threads and processes agree on who belongs to whom, the
    references to directories and consoles are accounted for, and no two
    processes share a frame of memory.  A forked child is a copy. *)

From stdpp Require Import gmultiset.
From S2P Require Import Prelude Spl Kmalloc Dumbvm DumbvmThm Copyinout Uio Vfs DevVnode VfsThm FileTable LoadElf Proc.
Import Ram Dumbvm DumbvmThm Copyinout Uio Vfs FileTable Proc.

Module ProcThm.

(** Projections of updated states. *)
Ltac kfields := cbn [k_files k_vm procs next_proc kproc next_pid proc_count proc_count_mutex no_proc_sem threads next_thread curthread
  put_files put_vm put_procs put_kproc put_next_pid put_count put_threads put_curthread fvfs FileTable.put_vfs tables entries next_entry
  FileTable.put_tables p_threads p_addrspace p_pid p_cwd console with_threads with_as with_cwd with_console
  t_proc t_filetable t_entry with_proc with_filetable with_entry] in *.

Section Thm.
Context {F : Type} `{!FileSystems F} `{!FileIO F}.
Implicit Types (k : kernel (F := F)) (v : vfs (F := F)) (D L O : gmultiset Z).

(** ** The VFS layer under the processes *)

(** [D]: the directories of the processes. *)
Definition vinv D L O v : Prop := VfsThm.vok D 0 L O v /\ Vfs.p_cwd v = None /\ oracle v = [].

Definition kv k : vfs := fvfs (k_files k).
Definition put_v v k : kernel := put_files (put_vfs v (k_files k)) k.

(** Memory was allocated or freed. *)
Definition touch (b : Z) k : kernel := put_v (put_mem [] b (kv k)) k.

Lemma vinv_touch D L O v b : vinv D L O v -> vinv D L O (put_mem [] b v).
Proof. intros (Hv & Hc & Ho). split_and!; [|done|done]. eapply VfsThm.vok_mem; [|exact Hv]. by eexists _, _. Qed.

Lemma proc_alloc_spec k (Q : bool -> kernel -> Prop) E : oracle (kv k) = [] -> (forall b, Q true (touch b k)) -> runs (kmalloc k) Q E.
Proof. intros Ho HQ. unfold kmalloc, on_vfs, FileTable.on_vfs, Vfs.kmalloc. runs_steps. fold (kv k). rewrite Ho. apply HQ. Qed.

Lemma proc_free_spec k (Q : unit -> kernel -> Prop) E : oracle (kv k) = [] -> (forall b, Q tt (touch b k)) -> runs (kfree k) Q E.
Proof. intros Ho HQ. unfold kfree, on_vfs, FileTable.on_vfs, Vfs.kfree. runs_steps. fold (kv k). rewrite Ho. apply HQ. Qed.

(** The current process's directory goes from the processes to the VFS layer
    and back. *)
Lemma vok_load D c L O v : VfsThm.vok (D ⊎ VfsThm.opt_ref c) 0 L O v -> Vfs.p_cwd v = None -> VfsThm.vok D 0 L O (put_cwd c v).
Proof.
  intros [H1 H2 H3 H4 H5 H6] Hc. split; try done.
  - replace (VfsThm.own D (put_cwd c v)) with (VfsThm.own (D ⊎ VfsThm.opt_ref c) v); [done|]. unfold VfsThm.own. simpl. rewrite Hc. simpl. multiset_solver.
  - intros w [Hw|Hw]; apply H3; right; [simpl in Hw; subst c; simpl|]; multiset_solver.
Qed.

Lemma vok_store D c L O v : VfsThm.vok D 0 L O v -> Vfs.p_cwd v = c -> VfsThm.vok (D ⊎ VfsThm.opt_ref c) 0 L O (put_cwd None v).
Proof.
  intros [H1 H2 H3 H4 H5 H6] Hc. split; try done.
  - replace (VfsThm.own (D ⊎ VfsThm.opt_ref c) (put_cwd None v)) with (VfsThm.own D v); [done|]. unfold VfsThm.own. simpl. rewrite Hc. multiset_solver.
  - intros w [?|Hw]; [done|]. apply H3. rewrite Hc. destruct c as [c|]; simpl in Hw; [|right; multiset_solver]. apply gmultiset_elem_of_disj_union in Hw as [?|Hw]; [by right|].
    left. f_equal. symmetry. multiset_solver.
Qed.

(** A reference becomes that of a process's directory, and the other way. *)
Lemma vok_keep D L O v w : VfsThm.vok D 0 (L ⊎ {[+ w +]}) O v -> vn_fs (vs_fs v) w <> None -> VfsThm.vok (D ⊎ {[+ w +]}) 0 L O v.
Proof.
  intros [H1 H2 H3 H4 H5 H6] Hw. split; try done.
  - replace (L ⊎ VfsThm.own (D ⊎ {[+ w +]}) v) with (L ⊎ {[+ w +]} ⊎ VfsThm.own D v); [done|]. unfold VfsThm.own. multiset_solver.
  - intros u [Hu|Hu]; [apply H3; by left|]. apply gmultiset_elem_of_disj_union in Hu as [Hu|Hu]; [apply H3; by right|]. by replace u with w by multiset_solver.
Qed.

Lemma vok_drop D L O v w : VfsThm.vok (D ⊎ {[+ w +]}) 0 L O v -> VfsThm.vok D 0 (L ⊎ {[+ w +]}) O v.
Proof.
  intros [H1 H2 H3 H4 H5 H6]. split; try done.
  - replace (L ⊎ {[+ w +]} ⊎ VfsThm.own D v) with (L ⊎ VfsThm.own (D ⊎ {[+ w +]}) v); [done|]. unfold VfsThm.own. multiset_solver.
  - intros u [Hu|Hu]; apply H3; [by left|right; multiset_solver].
Qed.

Lemma incref_dir k D L O w (Q : unit -> kernel -> Prop) E : vinv D L O (kv k) -> w ∈ D ->
  (forall v', vinv (D ⊎ {[+ w +]}) L O v' -> Q tt (put_v v' k)) -> runs (on_vfs (VOP_INCREF w) k) Q E.
Proof.
  intros (Hv & Hc & Ho) Hw HQ. unfold on_vfs, FileTable.on_vfs. runs_steps.
  eapply returns_runs, runs_mono; [apply (VfsThm.incref_spec D 0 (kv k) (kv k) L O w); [by apply VfsThm.vok_vat|unfold VfsThm.heldv, VfsThm.own; multiset_solver]| |done].
  intros [] v' [Hv' (_ & _ & Ec & Eo)]. apply HQ. split_and!; [|congruence|congruence]. apply vok_keep; [done|]. eapply VfsThm.v_cwd; [exact Hv'|by right].
Qed.

Lemma decref_dir k D L O w (Q : unit -> kernel -> Prop) E : vinv (D ⊎ {[+ w +]}) L O (kv k) ->
  (forall v', vinv D L O v' -> Q tt (put_v v' k)) -> runs (on_vfs (VOP_DECREF w) k) Q E.
Proof.
  intros (Hv & Hc & Ho) HQ. unfold on_vfs, FileTable.on_vfs. runs_steps.
  eapply returns_runs, runs_mono; [apply (VfsThm.decref_spec D 0 (kv k) (kv k) L O w); by apply VfsThm.vok_vat, vok_drop| |done].
  intros [] v' [Hv' (_ & _ & Ec & Eo)]. apply HQ. split_and!; [done|congruence|congruence].
Qed.

Lemma close_spec k D L O w (Q : unit -> kernel -> Prop) E : vinv D L (O ⊎ {[+ w +]}) (kv k) ->
  (forall v', vinv D L O v' -> Q tt (put_v v' k)) -> runs (on_vfs (vfs_close w) k) Q E.
Proof.
  intros (Hv & Hc & Ho) HQ. unfold on_vfs, FileTable.on_vfs. runs_steps.
  eapply returns_runs, runs_mono; [apply (VfsThm.vfs_close_spec D 0 (kv k) (kv k) L O w); by apply VfsThm.vok_vat| |done].
  intros [] v' [Hv' (_ & _ & Ec & Eo)]. apply HQ. split_and!; [done|congruence|congruence].
Qed.

Lemma load_cwd_eq k p x : cur k = Some p -> procs k !! p = Some x -> load_cwd k = put_vfs (put_cwd (p_cwd x) (kv k)) (k_files k).
Proof. intros Hc Hp. unfold load_cwd. by rewrite Hc, Hp. Qed.

Lemma store_cwd_eq k p x f : cur k = Some p -> procs k !! p = Some x -> Vfs.p_cwd (fvfs f) = p_cwd x ->
  store_cwd f k = put_files (put_vfs (put_cwd None (fvfs f)) f) k.
Proof.
  intros Hc Hp Hv. unfold store_cwd. rewrite Hc. simpl. rewrite Hv. replace (alter (with_cwd (p_cwd x)) p (procs k)) with (procs k).
  - by destruct k.
  - symmetry. apply alter_id. intros y Hy. rewrite Hp in Hy. injection Hy as <-. by destruct x.
Qed.

Definition cwds k : gmultiset Z := VfsThm.refs_of p_cwd (procs k).
Definition consoles k : gmultiset Z := VfsThm.refs_of console (procs k).

(** Opening a file for the current process. *)
Lemma open_spec k p x L O path flags mode (Q : Z -> kernel -> Prop) (E : Z -> kernel -> Prop) :
  cur k = Some p -> procs k !! p = Some x -> vinv (cwds k) L O (kv k) ->
  (forall w v', vinv (cwds k) L (O ⊎ {[+ w +]}) v' -> Q w (put_v v' k)) ->
  (forall e v', is_ret (vfs_open path flags mode (fvfs (load_cwd k))) = false -> vinv (cwds k) L O v' -> E e (put_v v' k)) ->
  runs (on_files (FileTable.on_vfs (vfs_open path flags mode)) k) Q E.
Proof.
  intros Hc Hp (Hv & Hn & Ho) HQ HE. unfold on_files, FileTable.on_vfs. runs_steps. rewrite (load_cwd_eq k p x) in * by done. simpl in *.
  set (v1 := put_cwd (p_cwd x) (kv k)) in *. unfold cwds in Hv. rewrite (VfsThm.refs_delete _ _ _ _ Hp) in Hv.
  pose proof (vok_load _ _ _ _ _ Hv Hn) as Hv1. fold v1 in Hv1.
  pose proof (VfsThm.vfs_open_spec _ 0 v1 v1 L O path flags mode ltac:(lia) (VfsThm.vok_vat _ _ _ _ _ Hv1)) as Hrun.
  assert (forall O' s', VfsThm.vat (VfsThm.refs_of p_cwd (delete p (procs k))) 0 v1 L O' s' ->
    store_cwd (put_vfs s' (put_vfs v1 (k_files k))) k = put_v (put_cwd None s') k /\ vinv (cwds k) L O' (put_cwd None s')) as Hback.
  { intros O' s' [Hs' (_ & _ & Ec & Eo)]. split; [by rewrite (store_cwd_eq k p x)|]. split_and!; [|done|simpl; by rewrite Eo].
    unfold cwds. rewrite (VfsThm.refs_delete _ _ _ _ Hp). by apply vok_store. }
  destruct (vfs_open path flags mode v1) as [w s'|e s'|]; simpl in *; [| |done]; destruct (Hback _ _ Hrun) as [-> Hok]; [by apply HQ|by apply HE].
Qed.

(** ** Processes and threads *)

Record pinv (P : gmap Z proc) (np kp pid : Z) (T : gmap Z thread) (nt : Z) : Prop := {
  pi_kproc : is_Some (P !! kp);
  pi_fresh : forall p x, P !! p = Some x -> p < np;
  pi_tfresh : forall t y, T !! t = Some y -> t < nt;
  pi_pid : forall p x, P !! p = Some x -> p_pid x < pid;
  pi_pids : forall p q x y, P !! p = Some x -> P !! q = Some y -> p_pid x = p_pid y -> p = q;
  pi_nodup : forall p x, P !! p = Some x -> NoDup (p_threads x);
  pi_member : forall t p, (exists y, T !! t = Some y /\ t_proc y = Some p) <-> exists x, P !! p = Some x /\ t ∈ p_threads x }.

Lemma pinv_new P np kp pid T nt : pinv P np kp pid T nt -> P !! np = None.
Proof. intros H. destruct (P !! np) as [x|] eqn:E; [apply (pi_fresh _ _ _ _ _ _ H) in E; lia|done]. Qed.

(** The address spaces that [vm_fault] accepts; those below [lim] are in use. *)
Definition has_as (P : gmap Z proc) (p : Z) (a : addrspace) : Prop :=
  exists x, P !! p = Some x /\ p_addrspace x = Some a /\ LoadElf.faultable a = true.
Record minv (P : gmap Z proc) (lim : Z) : Prop := {
  mi_ok : forall p a, has_as P p a -> as_ok a /\ frames_below a lim;
  mi_apart : forall p q a b va vb pa, has_as P p a -> has_as P q b -> as_pa a va = Some pa -> as_pa b vb = Some pa -> p = q }.

Record kinv L k : Prop := {
  ki_vfs : vinv (cwds k) L (consoles k ⊎ opened (entries (k_files k))) (kv k);
  ki_procs : pinv (procs k) (next_proc k) (kproc k) (next_pid k) (threads k) (next_thread k);
  ki_mem : minv (procs k) (firstpaddr (vm_ram (k_vm k)));
  ki_vm : vm_ok (k_vm k);
  ki_ipl : Spl.ipl_ok 0 (vm_ipl (k_vm k));
  ki_count : proc_count k = Z.of_nat (size (procs k)) - 1;
  ki_mutex : proc_count_mutex k = 1 }.

Lemma runs_get_proc k p x (Q : proc -> kernel -> Prop) E : procs k !! p = Some x -> Q x k -> runs (get_proc p k) Q E.
Proof. intros Hp HQ. unfold get_proc. runs_steps. by eapply runs_of_option. Qed.
Lemma runs_upd_proc k p x g (Q : unit -> kernel -> Prop) E :
  procs k !! p = Some x -> Q tt (put_procs (<[p := g x]> (procs k)) (next_proc k) k) -> runs (upd_proc p g k) Q E.
Proof. intros Hp HQ. unfold upd_proc. runs_steps. eapply runs_get_proc; [done|]. by runs_steps. Qed.
Lemma runs_thread_of k t y (Q : thread -> kernel -> Prop) E : threads k !! t = Some y -> Q y k -> runs (get_thread t k) Q E.
Proof. intros Ht HQ. unfold get_thread. runs_steps. by eapply runs_of_option. Qed.
Lemma runs_with_thread k t y g (Q : unit -> kernel -> Prop) E :
  threads k !! t = Some y -> Q tt (put_threads (<[t := g y]> (threads k)) (next_thread k) k) -> runs (upd_thread t g k) Q E.
Proof. intros Ht HQ. unfold upd_thread. runs_steps. eapply runs_thread_of; [done|]. by runs_steps. Qed.
Lemma runs_curproc k p (Q : Z -> kernel -> Prop) E : cur k = Some p -> Q p k -> runs (curproc k) Q E.
Proof. intros Hc HQ. unfold curproc. runs_steps. by eapply runs_of_option. Qed.

Lemma kernel_ext k k' : k_files k = k_files k' -> k_vm k = k_vm k' -> procs k = procs k' -> next_proc k = next_proc k' -> kproc k = kproc k' ->
  next_pid k = next_pid k' -> proc_count k = proc_count k' -> proc_count_mutex k = proc_count_mutex k' -> no_proc_sem k = no_proc_sem k' ->
  threads k = threads k' -> next_thread k = next_thread k' -> curthread k = curthread k' -> k = k'.
Proof. destruct k, k'. simpl. intros. by subst. Qed.

Lemma runs_P_count k (Q : unit -> kernel -> Prop) E :
  proc_count_mutex k = 1 -> Q tt (put_count (proc_count k) 0 (no_proc_sem k) k) -> runs (P_count k) Q E.
Proof. intros H HQ. unfold P_count. runs_steps. rewrite H. simpl. by rewrite H. Qed.

(** What [proc_create_runprogram] makes of the kernel, when the current process
    is [x] and the console is open as [w]. *)
Definition spawned k (x : proc) (w : Z) v' : kernel :=
  mkKernel (put_vfs v' (k_files k)) (k_vm k) (<[next_proc k := mkProc [] None (next_pid k) (p_cwd x) (Some w)]> (procs k)) (next_proc k + 1) (kproc k)
    (next_pid k + 1) (proc_count k + 1) 1 (no_proc_sem k) (threads k) (next_thread k) (curthread k).

(** The console can be opened. *)
Definition console_ok k : Prop := forall b, is_ret (vfs_open CON_PATH O_WRONLY 0 (put_mem [] b (fvfs (load_cwd k)))) = true.

Lemma spawn_spec k p x L O (Q : option Z -> kernel -> Prop) E :
  vinv (cwds k) L O (kv k) -> cur k = Some p -> procs k !! p = Some x -> procs k !! next_proc k = None -> proc_count_mutex k = 1 ->
  0 <= next_pid k < 2 ^ 31 - 1 -> 0 <= proc_count k < 2 ^ 32 - 1 -> console_ok k ->
  (forall w v', vinv (cwds k ⊎ VfsThm.opt_ref (p_cwd x)) L (O ⊎ {[+ w +]}) v' -> Q (Some (next_proc k)) (spawned k x w v')) ->
  runs (proc_create_runprogram k) Q E.
Proof.
  intros Hv Hc Hp Hnew Hmx Hpid Hcount Hcon HQ. pose proof Hv as (_ & _ & Ho). unfold proc_create_runprogram, proc_create. runs_steps.
  apply proc_alloc_spec; [done|]. intros b1. cbn [negb]. runs_steps. apply proc_alloc_spec; [done|]. intros b2. cbn [negb]. unfold get_next_pid. runs_steps.
  unfold touch, put_v, kv. kfields. set (c := next_proc k) in *. set (new := mkProc [] None (next_pid k) None None).
  apply proc_alloc_spec; [done|]. intros b3. cbn [negb]. runs_steps. unfold touch, put_v, kv. kfields.
  set (k1 := put_files _ _). assert (kv k1 = put_mem [] b3 (kv k)) as Ekv by done. assert (cwds k1 = cwds k) as Ecw.
  { unfold cwds, k1. kfields. rewrite VfsThm.refs_of_insert by done. simpl. by rewrite gmultiset_disj_union_right_id. }
  assert (p <> c) as Hpc by congruence. assert (procs k1 !! p = Some x) as Hp1 by (unfold k1; kfields; by rewrite lookup_insert_ne).
  assert (cur k1 = Some p) as Hc1 by done.
  apply (open_spec k1 p x L O); [done|done|rewrite Ecw, Ekv; by apply vinv_touch| |].
  2: { intros e v' Hno _. exfalso. rewrite (load_cwd_eq k1 p x), Ekv in Hno by done. specialize (Hcon b3). rewrite (load_cwd_eq k p x) in Hcon by done. enough (true = false) by done. rewrite <- Hcon. exact Hno. }
  rewrite Ecw. intros w v1 Hv1. runs_steps. eapply runs_upd_proc; [unfold put_v, k1; kfields; apply lookup_insert_eq|]. runs_steps.
  unfold put_v, k1. kfields. apply proc_free_spec; [apply Hv1|]. intros b4. unfold touch, put_v, kv. kfields. runs_steps.
  eapply runs_upd_proc; [kfields; apply lookup_insert_eq|]. kfields. rewrite !insert_insert_eq. runs_steps.
  eapply runs_curproc; [exact Hc|]. runs_steps. eapply runs_get_proc; [kfields; rewrite lookup_insert_ne by done; exact Hp|]. runs_steps.
  set (v2 := put_mem [] b4 v1). assert (vinv (cwds k) L (O ⊎ {[+ w +]}) v2) as Hv2 by (by apply vinv_touch).
  set (k2 d v := mkKernel (put_vfs v (k_files k)) (k_vm k) (<[c := mkProc [] None (next_pid k) d (Some w)]> (procs k)) (c + 1) (kproc k)
    (next_pid k + 1) (proc_count k) 1 (no_proc_sem k) (threads k) (next_thread k) (curthread k)).
  match goal with |- runs (_ ?s) _ _ => assert (s = k2 None v2) as -> end. { apply kernel_ext; try reflexivity; kfields; unfold k2; kfields; [apply s32_small; lia|done]. }
  assert (forall d v', vinv (cwds k ⊎ VfsThm.opt_ref (p_cwd x)) L (O ⊎ {[+ w +]}) v' -> d = p_cwd x -> runs ((P_count ;;
    modify (fun k => put_count (u32 (proc_count k + 1)) (proc_count_mutex k) (no_proc_sem k) k) ;; V_count ;; ret (Some c)) (k2 d v')) Q E) as Hend.
  { intros d v' Hv' ->. runs_steps. apply runs_P_count; [done|]. unfold V_count. runs_steps. kfields. unfold k2. kfields.
    match goal with |- Q _ ?s => assert (s = spawned k x w v') as -> end; [|by apply HQ]. apply kernel_ext; try reflexivity. kfields. apply u32_small. red. simpl. lia. }
  destruct (p_cwd x) as [d|] eqn:Ex; runs_steps.
  - eapply incref_dir; [exact Hv2| |]. { unfold cwds. rewrite (VfsThm.refs_delete _ _ _ _ Hp), Ex. simpl. multiset_solver. }
    intros v' Hv'. runs_steps. eapply runs_upd_proc; [unfold put_v, k2; kfields; apply lookup_insert_eq|].
    refine (eq_ind _ (fun s => runs (_ s) Q E) (Hend (Some d) v' Hv' eq_refl) _ _). apply kernel_ext; try reflexivity. unfold k2, put_v. kfields. by rewrite insert_insert_eq.
  - apply Hend; [|done]. simpl. by rewrite gmultiset_disj_union_right_id.
Qed.

(** ** Fork *)

(** The tables with one more, and the thread of a new process. *)
Lemma fork_table_spec k p x n l L O (Q : Z -> kernel -> Prop) E :
  cur k = Some p -> procs k !! p = Some x -> vinv (cwds k) L O (kv k) -> zlookup (tables (k_files k)) n = Some l ->
  (forall b, Q (zlen (tables (k_files k))) (put_files (put_tables (tables (k_files k) ++ [l]) (put_vfs (put_mem [] b (kv k)) (k_files k))) k)) ->
  runs (on_files (fork_table n) k) Q E.
Proof.
  intros Hc Hp (_ & Hn & Ho) Hl HQ. unfold on_files, fork_table, get_table, FileTable.on_vfs, Vfs.kmalloc. runs_steps. rewrite (load_cwd_eq k p x) by done. kfields.
  cbn [oracle put_cwd]. rewrite Ho. simpl. runs_steps. eapply runs_of_option; [exact Hl|]. runs_steps. rewrite (store_cwd_eq k p x) by done. kfields.
  match goal with |- Q ?n (put_files ?f _) => assert (f = put_tables (tables (k_files k) ++ [l]) (put_vfs (put_mem [] (blocks (kv k) + 1) (kv k)) (k_files k))) as -> end; [|apply HQ].
  unfold put_vfs, put_tables. kfields. f_equal. destruct (kv k). simpl in *. by subst.
Qed.

Lemma thread_fork_spec k c y entry L D O (Q : unit -> kernel -> Prop) E :
  vinv D L O (kv k) -> procs k !! c = Some y ->
  (forall b, Q tt (put_threads (<[next_thread k := mkThread (Some c) None (Some entry)]> (threads k)) (next_thread k + 1)
     (put_procs (<[c := with_threads (p_threads y ++ [next_thread k]) y]> (procs k)) (next_proc k) (touch b k)))) ->
  runs (thread_fork c entry k) Q E.
Proof.
  intros (_ & _ & Ho) Hc HQ. unfold thread_fork. runs_steps. apply proc_alloc_spec; [done|]. intros b1. cbn [negb]. runs_steps.
  apply proc_alloc_spec; [done|]. intros b2. cbn [negb]. runs_steps. apply proc_alloc_spec; [done|]. intros b3. cbn [negb]. runs_steps. unfold proc_addthread. runs_steps.
  set (t := next_thread k). eapply runs_thread_of; [unfold touch, put_v; kfields; apply lookup_insert_eq|]. runs_steps. apply runs_KASSERT; [done|]. runs_steps.
  apply proc_alloc_spec; [done|]. intros b4. cbn [negb]. runs_steps. eapply runs_upd_proc; [exact Hc|]. runs_steps.
  eapply runs_with_thread; [unfold touch, put_v; kfields; apply lookup_insert_eq|]. runs_steps.
  eapply runs_with_thread; [unfold touch, put_v; kfields; apply lookup_insert_eq|]. 
  refine (eq_ind _ (Q tt) (HQ b4) _ _). apply kernel_ext; try reflexivity. unfold touch, put_v. kfields. by rewrite !insert_insert_eq.
Qed.


(** What [sys_fork] makes of the kernel: [x] is the current process and [l] its
    table; [w] is the child's console and [new] its address space. *)
Definition forked k (x : proc) (l : list (option Z)) (tf : trapframe) (new : addrspace) (w : Z) v' (vm' : vm) : kernel :=
  mkKernel (put_tables (tables (k_files k) ++ [l]) (put_vfs v' (k_files k))) vm'
    (<[next_proc k := mkProc [next_thread k] (Some new) (next_pid k) (p_cwd x) (Some w)]> (procs k)) (next_proc k + 1) (kproc k)
    (next_pid k + 1) (proc_count k + 1) 1 (no_proc_sem k)
    (<[next_thread k := mkThread (Some (next_proc k)) None (Some (tf, zlen (tables (k_files k))))]> (threads k)) (next_thread k + 1) (curthread k).

(** What a fork needs: a process of the current thread, with memory and files,
    and room for another. *)
Record can_fork k (p : Z) (x : proc) (y : thread) (a : addrspace) (n : Z) (l : list (option Z)) : Prop := {
  cf_thread : threads k !! curthread k = Some y;
  cf_proc : t_proc y = Some p;
  cf_table : t_filetable y = Some n;
  cf_slots : zlookup (tables (k_files k)) n = Some l;
  cf_x : procs k !! p = Some x;
  cf_as : p_addrspace x = Some a;
  cf_fault : LoadElf.faultable a = true;
  cf_frames : firstpaddr (vm_ram (k_vm k)) + total a <= lastpaddr (vm_ram (k_vm k));
  cf_console : console_ok k;
  cf_pid : 0 <= next_pid k < 2 ^ 31 - 1;
  cf_count : 0 <= proc_count k < 2 ^ 32 - 1 }.

(** What [as_copy] does. *)
Record copied (v : vm) (old new : addrspace) (v' : vm) : Prop := {
  co_vm : vm_ok v';
  co_as : as_ok new;
  co_byte : forall va, user_byte v' new va = user_byte v old va;
  co_keep : forall x, x < firstpaddr (vm_ram v) -> phys v' x = phys v x;
  co_fresh : forall va pa, as_pa new va = Some pa -> firstpaddr (vm_ram v) <= pa;
  co_below : frames_below new (firstpaddr (vm_ram v'));
  co_new : new = laid_out old (firstpaddr (vm_ram v));
  co_first : firstpaddr (vm_ram v') = firstpaddr (vm_ram v) + total old;
  co_ipl : vm_ipl v' = vm_ipl v }.

Lemma copy_spec i i' (v : vm) old (Q : addrspace -> vm -> Prop) E :
  vm_ok v -> as_ok old -> frames_below old (firstpaddr (vm_ram v)) -> firstpaddr (vm_ram v) + total old <= lastpaddr (vm_ram v) -> i' = vm_ipl v ->
  (forall new (v' : vm), vm_ipl v' = i -> copied v old new (put_ipl i' v') -> Q new v') -> runs (as_copy true old (put_ipl i v)) Q E.
Proof.
  intros Hv Ha Hb Hroom -> HQ. eapply runs_mono; [by apply as_copy_result| |intros e v' (_ & Hout & _); simpl in Hout; lia].
  intros new v' [(Hv' & Ha' & Hby & Hk & Hf) (Hb' & Hn & Hf' & _ & Hi)]. apply HQ; [done|]. split; try done; [by intros va; apply Hby|].
  intros va pa E'. by apply Hf in E' as [? _].
Qed.

Lemma sys_fork_spec k p x y a n l tf L (Q : Z -> kernel -> Prop) E : kinv L k -> can_fork k p x y a n l ->
  (forall w v' vm' new, vinv (cwds k ⊎ VfsThm.opt_ref (p_cwd x)) L (consoles k ⊎ opened (entries (k_files k)) ⊎ {[+ w +]}) v' ->
     copied (k_vm k) a new vm' ->
     Q (next_pid k) (forked k x l tf new w v' vm')) ->
  runs (sys_fork tf k) Q E.
Proof.
  intros [Hv Hps Hm Hvm Hipl Hcount Hmx] [Ht Hpr Hft Hl Hx Ha Hfa Hroom Hcon Hpid Hcnt] HQ. destruct (mi_ok _ _ Hm p a) as [Hok Hbelow]; [by exists x|].
  assert (cur k = Some p) as Hc by (unfold cur; by rewrite Ht). pose proof (pinv_new _ _ _ _ _ _ Hps) as Hnew.
  unfold sys_fork, on_vm, splhigh, splx. runs_steps.
  eapply runs_mono; [by apply (Spl.splx_spec 0 0); [|right]| |done]. intros old i (-> & Hi & Hcur). runs_steps. set (k0 := put_vm _ k).
  eapply runs_curproc; [exact Hc|]. runs_steps. apply proc_alloc_spec; [apply Hv|]. intros b1. cbn [negb]. runs_steps.
  apply (spawn_spec _ p x L (consoles k ⊎ opened (entries (k_files k)))); [by apply vinv_touch|done|done|done|done|done|done|intros b; exact (Hcon b)|].
  change (cwds (touch b1 k0)) with (cwds k). intros w v1 Hv1. runs_steps. set (k1 := spawned _ _ _ _). change (next_proc (touch b1 k0)) with (next_proc k).
  assert (next_proc k <> p) as Hne by (apply (pi_fresh _ _ _ _ _ _ Hps) in Hx; lia).
  eapply runs_get_proc; [unfold k1, spawned, touch, put_v; kfields; rewrite lookup_insert_ne by done; exact Hx|]. runs_steps.
  eapply runs_of_option; [exact Ha|]. runs_steps. apply proc_alloc_spec; [apply Hv1|]. intros b2. runs_steps.
  apply (copy_spec i (vm_ipl (k_vm k))); try done. intros new v2 Ei2 Hco. runs_steps.
  eapply runs_upd_proc; [unfold k1, spawned, touch, put_v; kfields; apply lookup_insert_eq|]. runs_steps.
  eapply runs_thread_of; [exact Ht|]. runs_steps. eapply runs_of_option; [exact Hft|]. runs_steps. set (k2 := put_procs _ _ _).
  assert (cwds k2 = cwds k ⊎ VfsThm.opt_ref (p_cwd x)) as Ecw.
  { unfold cwds, k2, k1, spawned, touch, put_v. kfields. rewrite insert_insert_eq, VfsThm.refs_of_insert by done. done. }
  apply (fork_table_spec _ p x n l L (consoles k ⊎ opened (entries (k_files k)) ⊎ {[+ w +]})); [done| |by rewrite Ecw; apply vinv_touch|done|].
  { unfold k2, k1, spawned, touch, put_v. kfields. by rewrite !lookup_insert_ne. }
  intros b3. runs_steps. eapply thread_fork_spec; [unfold kv; kfields; apply vinv_touch, vinv_touch; exact Hv1|unfold k2; kfields; apply lookup_insert_eq|].
  intros b4. runs_steps.
  eapply runs_mono; [apply (Spl.splx_spec 0 0); [unfold k2, touch, put_v; kfields; rewrite Ei2; exact Hi|apply Hipl]| |done]. intros old i' (_ & Hi' & Hcur'). runs_steps.
  eapply runs_get_proc; [kfields; apply lookup_insert_eq|]. runs_steps. rewrite (ipl_restored _ _ _ Hipl Hi' Hcur').
  refine (eq_ind _ (Q (next_pid k)) (HQ w (put_mem [] b4 v1) _ new (vinv_touch _ _ _ _ _ Hv1) Hco) _ _).
  apply kernel_ext; try reflexivity. unfold forked, k2, k1, spawned, touch, put_v. kfields. by rewrite !insert_insert_eq.
Qed.

Lemma pinv_insert P np kp pid T nt x y : pinv P np kp pid T nt -> p_threads x = [nt] -> p_pid x = pid -> t_proc y = Some np ->
  pinv (<[np := x]> P) (np + 1) kp (pid + 1) (<[nt := y]> T) (nt + 1).
Proof.
  intros H Et Ep Ey. pose proof (pinv_new _ _ _ _ _ _ H) as Hnew. destruct H as [H1 H2 H3 H4 H5 H6 H7].
  assert (T !! nt = None) as Hnt by (destruct (T !! nt) as [z|] eqn:E; [apply H3 in E; lia|done]).
  split.
  - destruct (decide (kp = np)) as [->|]; [by rewrite lookup_insert_eq|by rewrite lookup_insert_ne].
  - intros p z [[<- _]|[_ E]]%lookup_insert_Some; [lia|]. apply H2 in E. lia.
  - intros t z [[<- _]|[_ E]]%lookup_insert_Some; [lia|]. apply H3 in E. lia.
  - intros p z [[_ <-]|[_ E]]%lookup_insert_Some; [lia|]. apply H4 in E. lia.
  - intros p q z z' [[<- <-]|[_ E]]%lookup_insert_Some [[<- <-]|[_ E']]%lookup_insert_Some Epid; [done|apply H4 in E'; lia|apply H4 in E; lia|by eapply H5].
  - intros p z [[_ <-]|[_ E]]%lookup_insert_Some; [rewrite Et; by apply NoDup_singleton|by eapply H6].
  - intros t p. split.
    + intros (z & [[<- <-]|[Hne E]]%lookup_insert_Some & Ez).
      * rewrite Ey in Ez. injection Ez as <-. exists x. rewrite lookup_insert_eq, Et. split; [done|by left].
      * destruct (proj1 (H7 t p)) as (z' & E' & Hin); [by exists z|]. exists z'. split; [|done]. rewrite lookup_insert_ne; [done|congruence].
    + intros (z & [[<- <-]|[Hne E]]%lookup_insert_Some & Hin).
      * rewrite Et in Hin. apply list_elem_of_singleton in Hin as ->. exists y. by rewrite lookup_insert_eq.
      * destruct (proj2 (H7 t p)) as (z' & E' & Ez'); [by exists z|]. exists z'. split; [|done]. rewrite lookup_insert_ne; [done|congruence].
Qed.

Lemma minv_insert P np (v : vm) old new (v' : vm) x : P !! np = None -> p_addrspace x = Some new -> minv P (firstpaddr (vm_ram v)) -> as_ok old -> copied v old new v' ->
  minv (<[np := x]> P) (firstpaddr (vm_ram v')).
Proof.
  intros Hnew Ex [H1 H2] Hold Hco. assert (firstpaddr (vm_ram v) <= firstpaddr (vm_ram v')) as Hle.
  { rewrite (co_first _ _ _ _ Hco). unfold as_ok, regions in Hold. apply Forall_cons in Hold as [(_ & _ & N1 & _) [(_ & _ & N2 & _) _]%Forall_cons].
    unfold total, DUMBVM_STACKPAGES, PAGE_SIZE. lia. }
  assert (forall p a, has_as (<[np := x]> P) p a -> p = np /\ a = new \/ p <> np /\ has_as P p a) as Hcase.
  { intros p a (z & [[<- <-]|[Hne E]]%lookup_insert_Some & Ea & Hf); [left; split; congruence|right; split; [done|by exists z]]. }
  split.
  - intros p a [[-> ->]|[_ Ha]]%Hcase; [split; apply Hco|]. destruct (H1 p a Ha) as [Hok Hb]. split; [done|].
    eapply Forall_impl; [exact Hb|]. intros [[vb pb] n]. lia.
  - assert (forall p a va vb pa, has_as P p a -> as_pa a va = Some pa -> as_pa new vb = Some pa -> False) as Hapart.
    { intros p a va vb pa Ha E E'. destruct (H1 p a Ha) as [Hok Hb]. pose proof (below_pa _ _ _ _ Hok Hb E). apply (co_fresh _ _ _ _ Hco) in E'. lia. }
    intros p q a b va vb pa [[-> ->]|[_ Ha]]%Hcase [[-> ->]|[_ Hb]]%Hcase E E'; [done|by destruct (Hapart q b vb va pa)|by destruct (Hapart p a va vb pa)|by eapply H2].
Qed.

Lemma forked_ok k p x y a n l tf w v' vm' new L : kinv L k -> can_fork k p x y a n l ->
  vinv (cwds k ⊎ VfsThm.opt_ref (p_cwd x)) L (consoles k ⊎ opened (entries (k_files k)) ⊎ {[+ w +]}) v' -> copied (k_vm k) a new vm' ->
  kinv L (forked k x l tf new w v' vm').
Proof.
  intros [Hv Hps Hm Hvm Hipl Hcount Hmx] [Ht Hpr Hft Hl Hx Ha Hfa Hroom Hcon Hpid Hcnt] Hv' Hco. pose proof (pinv_new _ _ _ _ _ _ Hps) as Hnew. split; unfold forked; kfields.
  - unfold cwds, consoles, kv. kfields. rewrite !VfsThm.refs_of_insert by done. cbn [p_cwd console VfsThm.opt_ref].
    replace (VfsThm.refs_of console (procs k) ⊎ {[+ w +]} ⊎ _) with (consoles k ⊎ opened (entries (k_files k)) ⊎ {[+ w +]}); [done|]. unfold consoles. cbn. multiset_solver.
  - by apply pinv_insert.
  - eapply minv_insert; [done|done|done|eapply (mi_ok _ _ Hm p a); by exists x|done].
  - apply Hco.
  - by rewrite (co_ipl _ _ _ _ Hco).
  - rewrite map_size_insert_None by done. lia.
  - done.
Qed.

(** ** Exit *)

(** What [sys__exit] makes of the kernel; the thread is left without a process. *)
Definition exited k (p : Z) (y : thread) v' : kernel :=
  mkKernel (put_vfs v' (k_files k)) (k_vm k) (delete p (procs k)) (next_proc k) (kproc k) (next_pid k) (proc_count k - 1) 1
    (if proc_count k =? 1 then no_proc_sem k + 1 else no_proc_sem k) (<[curthread k := with_proc None y]> (threads k)) (next_thread k) (curthread k).

(** A user process's only thread is the current one. *)
Record can_exit k (p : Z) (x : proc) (y : thread) : Prop := {
  ce_thread : threads k !! curthread k = Some y;
  ce_proc : t_proc y = Some p;
  ce_x : procs k !! p = Some x;
  ce_only : p_threads x = [curthread k];
  ce_user : p <> kproc k;
  ce_as : is_Some (p_addrspace x);
  ce_count : 0 < proc_count k < 2 ^ 32 }.

Lemma put_same k : k = put_procs (procs k) (next_proc k) (put_v (kv k) k).
Proof. by destruct k as [[]]. Qed.

Lemma destroy_spec k p x L O (Q : unit -> kernel -> Prop) E :
  p <> kproc k -> procs k !! p = Some x -> p_threads x = [] -> 0 < proc_count k < 2 ^ 32 -> proc_count_mutex k = 1 ->
  vinv (cwds k) L (consoles k ⊎ O) (kv k) ->
  (forall v', vinv (VfsThm.refs_of p_cwd (delete p (procs k))) L (VfsThm.refs_of console (delete p (procs k)) ⊎ O) v' ->
     Q tt (put_count (proc_count k - 1) 1 (if proc_count k - 1 =? 0 then no_proc_sem k + 1 else no_proc_sem k)
       (put_procs (delete p (procs k)) (next_proc k) (put_v v' k)))) ->
  runs (proc_destroy p k) Q E.
Proof.
  intros Hk Hx Hth Hcount Hmx Hv HQ. unfold cwds, consoles in Hv. rewrite !(VfsThm.refs_delete _ _ _ _ Hx) in Hv.
  set (D := VfsThm.refs_of p_cwd _) in *. set (C := VfsThm.refs_of console (delete p (procs k))) in *.
  unfold proc_destroy. runs_steps. apply runs_KASSERT; [by apply negb_true_iff, Z.eqb_neq|]. runs_steps. eapply runs_get_proc; [done|]. runs_steps.
  eapply runs_mono with (Q := fun _ k1 => exists P v1, k1 = put_procs P (next_proc k) (put_v v1 k) /\ delete p P = delete p (procs k) /\ vinv D L (C ⊎ VfsThm.opt_ref (console x) ⊎ O) v1) (R := fun _ _ => False); [| |done].
  { destruct (p_cwd x) as [d|]; runs_steps.
    - eapply decref_dir; [exact Hv|]. intros v1 Hv1. eapply runs_upd_proc; [exact Hx|]. eexists _, v1. split_and!; [done|apply delete_insert_eq|done].
    - exists (procs k), (kv k). split_and!; [by apply put_same|done|]. simpl in Hv. by rewrite gmultiset_disj_union_right_id in Hv. }
  intros [] k1 (P & v1 & -> & Hdel & Hv1). runs_steps.
  eapply runs_mono with (Q := fun _ k2 => exists v2, k2 = put_procs P (next_proc k) (put_v v2 k) /\ vinv D L (C ⊎ O) v2) (R := fun _ _ => False); [| |done].
  { destruct (console x) as [w|]; runs_steps.
    - eapply close_spec; [|intros v2 Hv2; by exists v2]. unfold put_v, kv. kfields. replace (C ⊎ O ⊎ {[+ w +]}) with (C ⊎ {[+ w +]} ⊎ O) by multiset_solver. exact Hv1.
    - exists v1. split; [done|]. simpl in Hv1. by rewrite gmultiset_disj_union_right_id in Hv1. }
  intros [] k2 (v2 & -> & Hv2). runs_steps. apply runs_KASSERT; [by rewrite bool_decide_true|]. runs_steps. apply proc_free_spec; [apply Hv2|]. intros b1. runs_steps.
  apply proc_free_spec; [done|]. intros b2. runs_steps. apply runs_P_count; [done|]. runs_steps. apply runs_KASSERT; [apply Z.ltb_lt; unfold touch, put_v; kfields; lia|].
  unfold V_count. runs_steps. refine (eq_ind _ (Q tt) (HQ (put_mem [] b2 v2) (vinv_touch _ _ _ _ _ Hv2)) _ _).
  apply kernel_ext; try reflexivity. unfold touch, put_v. kfields. by rewrite Hdel.
Qed.

Lemma sys_exit_spec k p x y code L O (Q : unit -> kernel -> Prop) E : can_exit k p x y -> proc_count_mutex k = 1 ->
  vinv (cwds k) L (consoles k ⊎ O) (kv k) ->
  (forall v', vinv (VfsThm.refs_of p_cwd (delete p (procs k))) L (VfsThm.refs_of console (delete p (procs k)) ⊎ O) v' -> Q tt (exited k p y v')) ->
  runs (sys__exit code k) Q E.
Proof.
  intros [Ht Hpr Hx Honly Hk [a Ha] Hcount] Hmx Hv HQ. assert (cur k = Some p) as Hc by (unfold cur; by rewrite Ht).
  unfold sys__exit, curproc_setas, on_vm, as_deactivate, as_destroy, proc_remthread. runs_steps. eapply runs_curproc; [done|]. runs_steps. eapply runs_get_proc; [done|].
  runs_steps. apply runs_KASSERT; [by rewrite Ha|]. runs_steps. eapply runs_curproc; [exact Hc|]. runs_steps. eapply runs_get_proc; [exact Hx|]. runs_steps.
  eapply runs_upd_proc; [exact Hx|]. rewrite Ha. runs_steps. apply proc_free_spec; [apply Hv|]. intros b. runs_steps.
  eapply runs_thread_of; [exact Ht|]. runs_steps. rewrite Hpr. runs_steps. eapply runs_get_proc; [unfold touch, put_v; kfields; apply lookup_insert_eq|]. runs_steps.
  kfields. rewrite Honly. cbn [find_thread]. change (curthread (touch b _)) with (curthread k). rewrite Z.eqb_refl. runs_steps.
  eapply runs_upd_proc; [unfold touch, put_v; kfields; apply lookup_insert_eq|]. runs_steps. eapply runs_with_thread; [exact Ht|].
  set (x2 := with_threads [] (with_as None x)). set (P2 := <[p := x2]> (procs k)).
  assert (cwds (put_procs P2 (next_proc k) k) = cwds k /\ consoles (put_procs P2 (next_proc k) k) = consoles k) as [Ed Ec]
    by (split; by eapply VfsThm.refs_update).
  assert (delete p P2 = delete p (procs k)) as Edel by apply delete_insert_eq.
  match goal with |- runs (proc_destroy p ?s) _ _ =>
    assert (s = put_threads (<[curthread k := with_proc None y]> (threads k)) (next_thread k) (put_procs P2 (next_proc k) (touch b k))) as -> end.
  { apply kernel_ext; try reflexivity. unfold touch, put_v. kfields. by rewrite insert_insert_eq. }
  apply (destroy_spec _ p x2 L O); [done|unfold P2; kfields; apply lookup_insert_eq|done|done|done| |].
  { change (vinv (cwds (put_procs P2 (next_proc k) k)) L (consoles (put_procs P2 (next_proc k) k) ⊎ O) (put_mem [] b (kv k))). rewrite Ed, Ec. by apply vinv_touch. }
  kfields. rewrite Edel. intros v' Hv'. refine (eq_ind _ (Q tt) (HQ v' Hv') _ _). apply kernel_ext; try reflexivity. unfold exited, touch, put_v. kfields.
  by replace (proc_count k - 1 =? 0) with (proc_count k =? 1) by (apply eq_true_iff_eq; rewrite !Z.eqb_eq; lia).
Qed.

Lemma pinv_delete P np kp pid T nt p x t y : pinv P np kp pid T nt -> P !! p = Some x -> p <> kp -> p_threads x = [t] -> T !! t = Some y ->
  pinv (delete p P) np kp pid (<[t := with_proc None y]> T) nt.
Proof.
  intros [H1 H2 H3 H4 H5 H6 H7] Hx Hk Hth Ht. split.
  - by rewrite lookup_delete_ne.
  - intros q z [_ E]%lookup_delete_Some. by eapply H2.
  - intros u z [[<- _]|[_ E]]%lookup_insert_Some; by eapply H3.
  - intros q z [_ E]%lookup_delete_Some. by eapply H4.
  - intros q r z z' [_ E]%lookup_delete_Some [_ E']%lookup_delete_Some. by apply H5.
  - intros q z [_ E]%lookup_delete_Some. by eapply H6.
  - assert (forall u q, (exists z, T !! u = Some z /\ t_proc z = Some q) -> q = p -> u = t) as Honly.
    { intros u q Hu ->. destruct (proj1 (H7 u p) Hu) as (z & E & Hin). rewrite Hx in E. injection E as <-. rewrite Hth in Hin. by apply list_elem_of_singleton in Hin. }
    intros u q. split.
    + intros (z & [[<- <-]|[Hne E]]%lookup_insert_Some & Ez); [done|]. destruct (proj1 (H7 u q)) as (z' & E' & Hin); [by exists z|]. exists z'. split; [|done].
      apply lookup_delete_Some. split; [|done]. intros ->. apply Hne. symmetry. eapply (Honly u q); [by exists z|done].
    + intros (z & [Hne E]%lookup_delete_Some & Hin). destruct (proj2 (H7 u q)) as (z' & E' & Ez'); [by exists z|]. exists z'. split; [|done].
      rewrite lookup_insert_ne; [done|]. intros <-. destruct (proj1 (H7 t q)) as (? & E1 & _); [by exists z'|]. 
      destruct (proj2 (H7 t p)) as (z2 & E2 & Ez2); [exists x; rewrite Hth; split; [done|by left]|]. congruence.
Qed.

Lemma exited_ok k p x y v' L : kinv L k -> can_exit k p x y ->
  vinv (VfsThm.refs_of p_cwd (delete p (procs k))) L (VfsThm.refs_of console (delete p (procs k)) ⊎ opened (entries (k_files k))) v' ->
  kinv L (exited k p y v').
Proof.
  intros [Hv Hps Hm Hvm Hipl Hcount Hmx] [Ht Hpr Hx Honly Hk Ha Hcnt] Hv'. split; unfold exited; kfields; try done.
  - by eapply pinv_delete.
  - destruct Hm as [H1 H2]. assert (forall q a, has_as (delete p (procs k)) q a -> has_as (procs k) q a) as Hsub
      by (intros q a (z & [_ E]%lookup_delete_Some & ?); by exists z).
    split; [intros q a Hq; apply (H1 q a); by apply Hsub|intros q r a b va vb pa Hq Hr; by apply H2; apply Hsub].
  - rewrite map_size_delete_Some by (by eexists). assert (size (procs k) <> 0%nat) by (intros E; apply map_size_empty_inv in E; by rewrite E in Hx). lia.
Qed.

Lemma kinv_switch L k t : kinv L k -> kinv L (put_curthread t k).
Proof. intros [? ? ? ? ? ? ?]. by split. Qed.

(** ** The theorems *)

Lemma copied_others (v v' : vm) old new P q b va : copied v old new v' -> minv P (firstpaddr (vm_ram v)) -> has_as P q b -> user_byte v' b va = user_byte v b va.
Proof.
  intros Hco Hm Hb. destruct (mi_ok _ _ Hm q b Hb) as [Hok Hbelow]. unfold user_byte. destruct (as_pa b va) as [pa|] eqn:E; [|done]. simpl.
  f_equal. apply Hco. by eapply below_pa.
Qed.

(** C6. A fork makes a process that is a copy of the current one: a number no other
    process has, the same byte at every address, in frames that no process
    has, the same directory and the console, the parent's table of files, and one
    thread, which starts with the trapframe.  No process's memory changes,
    the interrupt level is restored, and the state is well formed. *)
Theorem fork_exact L k (p : Z) (x : proc) (y : thread) (a : addrspace) (n : Z) (l : list (option Z)) (tf : trapframe)
    (Hk : kinv L k) (Hf : can_fork k p x y a n l) :
  returns (sys_fork tf k) (fun pid k' => kinv L k' /\ vm_ipl (k_vm k') = vm_ipl (k_vm k) /\
    (forall q z, procs k !! q = Some z -> p_pid z <> pid) /\
    exists c t m new w, procs k !! c = None /\ procs k' = <[c := mkProc [t] (Some new) pid (p_cwd x) (Some w)]> (procs k) /\
      threads k !! t = None /\ threads k' = <[t := mkThread (Some c) None (Some (tf, m))]> (threads k) /\
      zlookup (tables (k_files k')) m = Some l /\ entries (k_files k') = entries (k_files k) /\
      (forall va, user_byte (k_vm k') new va = user_byte (k_vm k) a va) /\
      (forall q b va, has_as (procs k) q b -> user_byte (k_vm k') b va = user_byte (k_vm k) b va) /\
      (forall q b va vb pa, has_as (procs k) q b -> as_pa new va = Some pa -> as_pa b vb <> Some pa)).
Proof.
  eapply sys_fork_spec; [done|done|]. intros w v' vm' new Hv' Hco. split; [by eapply forked_ok|]. destruct Hk as [_ Hps Hm _ _ _ _].
  split; [apply Hco|]. split; [intros q z E; apply (pi_pid _ _ _ _ _ _ Hps) in E; lia|].
  exists (next_proc k), (next_thread k), (zlen (tables (k_files k))), new, w. split_and!; try done.
  - by eapply pinv_new.
  - destruct (threads k !! next_thread k) as [z|] eqn:E; [apply (pi_tfresh _ _ _ _ _ _ Hps) in E; lia|done].
  - unfold forked. kfields. rewrite zlookup_app_r by lia. by rewrite Z.sub_diag.
  - apply Hco.
  - intros q b va Hb. by eapply copied_others.
  - intros q b va vb pa Hb E E'. destruct (mi_ok _ _ Hm q b Hb) as [Hok Hbelow]. pose proof (below_pa _ _ _ _ Hok Hbelow E'). apply (co_fresh _ _ _ _ Hco) in E. lia.
Qed.


(** ** Any sequence of process calls *)

(** What happens on the processor: a system call of the current process, a
    switch to another thread, and the first thing a forked thread does. *)
Inductive kcall := KFork (tf : trapframe) | KExit (code : Z) | KGetpid | KSwitch (t : Z) | KEnter (tf : trapframe) (ft : Z).

Definition kexec (c : kcall) : M kernel Z :=
  match c with
  | KFork tf => sys_fork tf
  | KExit code => sys__exit code ;; ret 0
  | KGetpid => sys_getpid
  | KSwitch t => modify (put_curthread t) ;; ret 0
  | KEnter tf ft => enter_forked_process tf ft ;; ret 0
  end.

Definition kallowed (c : kcall) k : Prop :=
  match c with
  | KFork _ => exists p x y a n l, can_fork k p x y a n l
  | KExit _ => exists p x y, can_exit k p x y
  | KGetpid => is_Some (cur k)
  | KSwitch t => exists y, threads k !! t = Some y /\ t_proc y <> None
  | KEnter tf ft => exists y, threads k !! curthread k = Some y /\ t_proc y <> None /\ t_entry y = Some (tf, ft) /\ is_Some (zlookup (tables (k_files k)) ft)
  end.

Inductive kstep : kernel -> kernel -> Prop :=
| kstep_ret c k r k' : kallowed c k -> kexec c k = Ret r k' -> kstep k k'.

Lemma cur_proc L k p : kinv L k -> cur k = Some p -> exists x, procs k !! p = Some x.
Proof.
  intros Hk Hc. unfold cur in Hc. destruct (threads k !! curthread k) as [y|] eqn:E; [|done].
  destruct (proj1 (pi_member _ _ _ _ _ _ (ki_procs _ _ Hk) (curthread k) p)) as (x & Hx & _); [by exists y|]. by exists x.
Qed.

Lemma enter_spec k y tf ft l L (Q : trapframe -> kernel -> Prop) E : kinv L k -> threads k !! curthread k = Some y -> t_proc y <> None ->
  zlookup (tables (k_files k)) ft = Some l ->
  (forall b, Q (mkTf 0 (tf_a0 tf) (tf_a1 tf) (tf_a2 tf) 0 (tf_sp tf) (u32 (tf_epc tf + 4)) (tf_others tf))
     (put_threads (<[curthread k := with_filetable (Some (zlen (tables (k_files k)))) y]> (threads k)) (next_thread k)
       (put_files (put_tables (tables (k_files k) ++ [l]) (put_vfs (put_mem [] b (kv k)) (k_files k))) k))) ->
  runs (enter_forked_process tf ft k) Q E.
Proof.
  intros Hk Hy Hpr Hl HQ. destruct (t_proc y) as [p|] eqn:Ep; [|done]. assert (cur k = Some p) as Hc by (unfold cur; by rewrite Hy).
  destruct (cur_proc _ _ _ Hk Hc) as [x Hx]. destruct Hk as [(_ & Hn & Ho) _ _ _ Hipl _ _].
  unfold enter_forked_process, on_vm, splhigh, splx, on_files, get_table. runs_steps.
  eapply runs_mono; [by apply (Spl.splx_spec 0 0); [|right]| |done]. intros old i (-> & Hi & Hcur). runs_steps.
  rewrite (load_cwd_eq _ p x) by done. kfields. eapply runs_of_option; [exact Hl|]. runs_steps. rewrite (store_cwd_eq _ p x) by done. kfields.
  eapply runs_with_thread; [exact Hy|]. runs_steps. apply proc_free_spec; [exact Ho|]. intros b. runs_steps.
  eapply runs_mono; [apply (Spl.splx_spec 0 0); [exact Hi|apply Hipl]| |done]. intros old i' (_ & Hi' & Hcur'). runs_steps. rewrite (ipl_restored _ _ _ Hipl Hi' Hcur').
  refine (eq_ind _ (Q _) (HQ b) _ _). apply kernel_ext; try reflexivity; unfold touch, put_v, kv in *; kfields.
  - unfold put_vfs, put_tables. kfields. f_equal. destruct (fvfs (k_files k)). simpl in *. by subst.
  - by destruct (k_vm k).
Qed.

Lemma kcall_ok L c k : kinv L k -> kallowed c k -> runs (kexec c k) (fun _ k' => kinv L k') (fun _ _ => False).
Proof.
  intros Hk Hc. destruct c as [tf|code| |t|tf ft]; simpl in *.
  - destruct Hc as (p & x & y & a & n & l & Hf). eapply sys_fork_spec; [done|done|]. intros w v' vm' new Hv' Hco. by eapply forked_ok.
  - destruct Hc as (p & x & y & Hc). runs_steps. eapply sys_exit_spec; [done|apply Hk|apply Hk|]. intros v' Hv'. runs_steps. by eapply exited_ok.
  - destruct Hc as [p Hc]. destruct (cur_proc _ _ _ Hk Hc) as [x Hx]. unfold sys_getpid. runs_steps. eapply runs_curproc; [done|]. runs_steps.
    eapply runs_get_proc; [done|]. by runs_steps.
  - runs_steps. by apply kinv_switch.
  - destruct Hc as (y & Hy & Hpr & _ & [l Hl]). runs_steps. eapply enter_spec; [done|done|done|done|]. intros b. runs_steps.
    destruct Hk as [Hv Hps Hm Hvm Hipl Hcount Hmx]. split; kfields; try done; [by apply vinv_touch|].
    destruct Hps as [H1 H2 H3 H4 H5 H6 H7]. split; try done.
    + intros t z [[<- _]|[_ E]]%lookup_insert_Some; by eapply H3.
    + intros t p. rewrite <- H7. split; intros (z & E & Ez).
      * apply lookup_insert_Some in E as [[<- <-]|[_ E]]; [by exists y|by exists z].
      * destruct (decide (t = curthread k)) as [->|Hne]; [|exists z; by rewrite lookup_insert_ne].
        eexists. rewrite lookup_insert_eq. split; [done|]. rewrite Hy in E. injection E as <-. done.
Qed.

Lemma kreachable_ok L k0 k : kinv L k0 -> rtc kstep k0 k -> kinv L k.
Proof.
  intros Hk Hr. induction Hr as [|k1 k2 k3 Hs _ IH]; [done|]. apply IH. destruct Hs as [c k r k' Hc E].
  pose proof (kcall_ok L c k Hk Hc) as H. by rewrite E in H.
Qed.


(** C39. A defect: when there is no memory for the copy of the trapframe,
    [sys_fork] returns without restoring the interrupt level, and the
    check at the end of [syscall] panics the kernel. *)
Theorem fork_nomem_panics k (p : Z) (now : Z * Z) (tf : trapframe)
    (Hc : cur k = Some p) (Hi : Spl.ipl_ok 0 (vm_ipl (k_vm k))) (Hlow : Spl.t_curspl (vm_ipl (k_vm k)) = 0)
    (Hcall : tf_v0 tf = SYS_fork) (Hmem : head (oracle (kv k)) = Some false) :
  syscall now tf k = Crash Panicked.
Proof.
  assert (exists i, Dumbvm.splhigh (k_vm k) = Ret 0 (put_ipl i (k_vm k)) /\ Spl.t_curspl i = 1) as (i & Ei & Hcur).
  { unfold Dumbvm.splhigh, zoom, Spl.splhigh. pose proof (Spl.splx_spec 0 0 (vm_ipl (k_vm k)) Spl.IPL_HIGH Hi (or_intror eq_refl)) as H.
    unfold mycpu. destruct (Spl.splx (Some 0) Spl.IPL_HIGH (vm_ipl (k_vm k))) as [old i|e i|]; [|done|done]. destruct H as (-> & _ & Hcur). rewrite Hlow. by exists i. }
  assert (do_call now tf k = Err ENOMEM (put_v (put_mem (tail (oracle (kv k))) (blocks (kv k)) (kv k)) (put_vm (put_ipl i (k_vm k)) k))) as Ecall.
  { unfold do_call. rewrite Hcall. simpl. unfold sys_fork, on_vm, bind, zoom. rewrite Ei. unfold curproc, bind, get, of_option.
    change (cur (put_vm _ k)) with (cur k). rewrite Hc. unfold kmalloc, on_vfs, FileTable.on_vfs, Vfs.kmalloc, zoom, bind, get, modify, ret, err. kfields. fold (kv k).
    destruct (oracle (kv k)) as [|b o]; [done|]. simpl in Hmem. injection Hmem as ->. done. }
  destruct Hi as (_ & _ & Hcnt & _). unfold syscall, check_spl, bind, get, KASSERT, ret, try. rewrite Hcnt, Hlow. change (0 + 0 =? 0) with true. change (0 =? 0) with true. cbv iota beta. rewrite Ecall.
  unfold put_v. kfields. cbn [vm_ipl put_ipl]. rewrite Hcur. done.
Qed.
End Thm.

Lemma kstep_after {F} `{!FileSystems F} `{!FileIO F} c (k : kernel (F := F)) : kallowed c k -> is_ret (kexec c k) = true -> kstep k (after (kexec c) k).
Proof. intros Hc Hr. unfold after. destruct (kexec c k) as [r k'|e k'|] eqn:E; [|done|done]. by apply (kstep_ret c k r). Qed.

(** ** Examples *)

#[local] Existing Instance DevVnode.dev_file_systems.

(** A system with the console; the kernel's process is 0, and process 1 is a
    program with 15 pages of memory. *)
Definition ex_con : vfs (F := DevVnode.devs) := after (VfsThm.vfs_call (VfsThm.CAdddev [99; 111; 110] 7 false)) (VfsThm.start VfsThm.ex_devs []).
Definition ex_tf : trapframe := mkTf SYS_fork 0 0 0 0 0x7ffffff0 0x400000 [].
Definition ex_table : list (option Z) := zrep OPEN_MAX None.
Definition ex_user : proc := mkProc [1] (Some as0) 2 None None.
Definition ex_thread : thread := mkThread (Some 1) (Some 0) None.
Definition ex_procs : gmap Z proc := {[ 0 := mkProc [0] None 1 None None; 1 := ex_user ]}.
Definition ex_threads : gmap Z thread := {[ 0 := mkThread (Some 0) None None; 1 := ex_thread ]}.
Definition ex_kernel : kernel := mkKernel (mkFiles ex_con [ex_table] ∅ 0) vm0 ex_procs 2 0 3 1 1 0 ex_threads 2 1.

Lemma ex_con_ok : vinv ∅ ∅ ∅ ex_con.
Proof.
  assert (rtc VfsThm.step (VfsThm.start VfsThm.ex_devs [], ∅, false) (ex_con, ∅ ⊎ VfsThm.opt_ref None, false)) as Hr.
  { apply rtc_once. apply (VfsThm.step_ret (VfsThm.CAdddev [99; 111; 110] 7 false) _ _ _ None); [done|by vm_compute]. }
  destruct (VfsThm.reachable_vok VfsThm.ex_devs [] _ VfsThm.ex_devs_ok Hr) as (L & HL & Hok). simpl in HL, Hok. rewrite HL in Hok by done.
  rewrite gmultiset_disj_union_right_id in Hok. split_and!; [exact Hok|by vm_compute|by vm_compute].
Qed.

Lemma ex_procs_inv p x : ex_procs !! p = Some x -> p = 0 /\ x = mkProc [0] None 1 None None \/ p = 1 /\ x = ex_user.
Proof. unfold ex_procs. intros [[<- <-]|[_ [<- <-]%lookup_singleton_Some]]%lookup_insert_Some; auto. Qed.
Lemma ex_threads_inv t y : ex_threads !! t = Some y -> t = 0 /\ y = mkThread (Some 0) None None \/ t = 1 /\ y = ex_thread.
Proof. unfold ex_threads. intros [[<- <-]|[_ [<- <-]%lookup_singleton_Some]]%lookup_insert_Some; auto. Qed.

Lemma ex_kinv : kinv ∅ ex_kernel.
Proof.
  split; [| | | |split_and!; [done|by left|done|done]|done|done].
  - exact ex_con_ok.
  - split; simpl.
    + by eexists.
    + intros p x [[-> _]|[-> _]]%ex_procs_inv; done.
    + intros t y [[-> _]|[-> _]]%ex_threads_inv; done.
    + intros p x [[_ ->]|[_ ->]]%ex_procs_inv; done.
    + by intros p q x y [[-> ->]|[-> ->]]%ex_procs_inv [[-> ->]|[-> ->]]%ex_procs_inv.
    + intros p x [[_ ->]|[_ ->]]%ex_procs_inv; by apply NoDup_singleton.
    + intros t p. split.
      * intros (y & [[-> ->]|[-> ->]]%ex_threads_inv & [= <-]); eexists; (split; [done|by left]).
      * intros (x & [[-> ->]|[-> ->]]%ex_procs_inv & ->%list_elem_of_singleton); by eexists.
  - assert (forall p a, has_as ex_procs p a -> p = 1 /\ a = as0) as Has
      by (intros p a (x & [[-> ->]|[-> ->]]%ex_procs_inv & Ea & _); [done|by injection Ea as <-]).
    split; [intros p a [-> ->]%Has; exact as0_ok|by intros p q a b va vb pa [-> _]%Has [-> _]%Has].
  - exact vm0_ok.
Qed.

Lemma ex_can_fork : can_fork ex_kernel 1 ex_user ex_thread as0 0 ex_table.
Proof. by split. Qed.

Lemma fork_exact_witness :
  returns (sys_fork ex_tf ex_kernel) (fun pid k' => kinv ∅ k' /\ vm_ipl (k_vm k') = vm_ipl (k_vm ex_kernel) /\
    (forall q z, procs ex_kernel !! q = Some z -> p_pid z <> pid) /\
    exists c t m new w, procs ex_kernel !! c = None /\ procs k' = <[c := mkProc [t] (Some new) pid (p_cwd ex_user) (Some w)]> (procs ex_kernel) /\
      threads ex_kernel !! t = None /\ threads k' = <[t := mkThread (Some c) None (Some (ex_tf, m))]> (threads ex_kernel) /\
      zlookup (tables (k_files k')) m = Some ex_table /\ entries (k_files k') = entries (k_files ex_kernel) /\
      (forall va, user_byte (k_vm k') new va = user_byte (k_vm ex_kernel) as0 va) /\
      (forall q b va, has_as (procs ex_kernel) q b -> user_byte (k_vm k') b va = user_byte (k_vm ex_kernel) b va) /\
      (forall q b va vb pa, has_as (procs ex_kernel) q b -> as_pa new va = Some pa -> as_pa b vb <> Some pa)).
Proof. exact (fork_exact ∅ ex_kernel 1 ex_user ex_thread as0 0 ex_table ex_tf ex_kinv ex_can_fork). Defined.


(** The program has forked, and the child runs. *)
Definition ex_forked : kernel := after (kexec (KFork ex_tf)) ex_kernel.
Definition ex_switched : kernel := after (kexec (KSwitch 2)) ex_forked.
Definition ex_child : kernel := after (kexec (KEnter ex_tf 1)) ex_switched.

Lemma ex_child_reachable : rtc kstep ex_kernel ex_child.
Proof.
  apply (rtc_l _ _ ex_forked); [|apply (rtc_l _ _ ex_switched); [|apply rtc_once]].
  - refine (kstep_after (KFork ex_tf) ex_kernel _ _); [|by vm_compute]. exists 1, ex_user, ex_thread, as0, 0, ex_table. exact ex_can_fork.
  - refine (kstep_after (KSwitch 2) ex_forked _ _); [|by vm_compute]. exists (mkThread (Some 2) None (Some (ex_tf, 1))). split; [by vm_compute|done].
  - refine (kstep_after (KEnter ex_tf 1) ex_switched _ _); [|by vm_compute]. exists (mkThread (Some 2) None (Some (ex_tf, 1))).
    split_and!; [by vm_compute|done|done|]. exists ex_table. by vm_compute.
Qed.


Lemma fork_nomem_panics_witness : syscall (0, 0) ex_tf (put_v (put_mem [false] 0 ex_con) ex_kernel) = Crash Panicked.
Proof. refine (fork_nomem_panics (put_v (put_mem [false] 0 ex_con) ex_kernel) 1 (0, 0) ex_tf _ (ki_ipl _ _ ex_kinv) _ _ _); done. Defined.
End ProcThm.
