(* ===== verification/ProcIso.v ===== *)
(** * System calls and the memory of other processes

    Whatever system call a process makes, and however it ends, the bytes that
    other processes see do not change.  [framed] is closed under the
    constructs the calls are made of; what remains are the places that write
    to user memory, [with_user] and [as_copy]. *)

From stdpp Require Import gmultiset.
From S2P Require Import Prelude Spl Kmalloc Dumbvm DumbvmThm Copyinout Uio Vfs DevVnode VfsThm FileTable Runprogram LoadElf Proc ProcThm.
Import Ram Dumbvm DumbvmThm Uio Vfs FileTable Proc ProcThm.

Module ProcIso.
Section Iso.
Context {F : Type} `{!FileSystems F} `{!FileIO F}.
Implicit Types (k : kernel (F := F)).

Section Frame.
(** The current process and its address space, the first process and the first
    thread that are new, and memory at the start. *)
Context (p N NT : Z) (a : addrspace) (v0 : vm).
Hypothesis (Ha : as_ok a) (Hbelow : frames_below a (firstpaddr (vm_ram v0))).

Record within k : Prop := {
  wi_vm : vm_ok (k_vm k);
  wi_first : firstpaddr (vm_ram v0) <= firstpaddr (vm_ram (k_vm k));
  wi_phys : forall pa, pa < firstpaddr (vm_ram v0) -> (forall va, as_pa a va <> Some pa) -> phys (k_vm k) pa = phys v0 pa;
  wi_next : p < N <= next_proc k;
  wi_thread : curthread k < NT <= next_thread k;
  wi_cur : cur k = Some p;
  wi_as : exists x, procs k !! p = Some x /\ p_addrspace x = Some a }.

Definition framed {A} (m : M kernel A) (Q : A -> Prop) : Prop := forall k, within k ->
  match m k with Ret r k' => within k' /\ Q r | Err _ k' => within k' | Crash _ => True end.
Definition any {A} (_ : A) : Prop := True.

Lemma framed_ret {A} (r : A) (Q : A -> Prop) : Q r -> framed (ret r) Q.
Proof. by intros HQ k Hk. Qed.
Lemma framed_err {A} e (Q : A -> Prop) : framed (err e) Q.
Proof. by intros k Hk. Qed.
Lemma framed_crashed {A} c (Q : A -> Prop) : framed (crashed c) Q.
Proof. by intros k Hk. Qed.
Lemma framed_bind {A B} (m : M kernel A) (f : A -> M kernel B) Q Q' : framed m Q -> (forall r, Q r -> framed (f r) Q') -> framed (bind m f) Q'.
Proof. intros Hm Hf k Hk. unfold bind. specialize (Hm k Hk). destruct (m k) as [r k'|e k'|]; [|done|done]. destruct Hm as [Hk' Hr]. exact (Hf r Hr k' Hk'). Qed.
Lemma framed_mono {A} (m : M kernel A) (Q Q' : A -> Prop) : framed m Q -> (forall r, Q r -> Q' r) -> framed m Q'.
Proof. intros Hm HQ k Hk. specialize (Hm k Hk). destruct (m k); naive_solver. Qed.
Lemma framed_get_modify {A} g (f : kernel -> M kernel A) Q :
  (forall k, within k -> within (g k k) /\ framed (f k) Q) -> framed (let* k := get in modify (g k) ;; f k) Q.
Proof. intros Hf k Hk. destruct (Hf k Hk) as [Hg Hr]. exact (Hr _ Hg). Qed.
Lemma framed_gets {A} (f : kernel -> M kernel A) Q : (forall k, within k -> framed (f k) Q) -> framed (bind get f) Q.
Proof. intros Hf k Hk. exact (Hf k Hk k Hk). Qed.
Lemma framed_try {A} (m : M kernel A) Q : framed m Q -> framed (try m) (fun r => match r with inl x => Q x | inr _ => True end).
Proof. intros Hm k Hk. unfold try. specialize (Hm k Hk). by destruct (m k). Qed.
Lemma framed_of_option {A} c (o : option A) (Q : A -> Prop) : (forall r, o = Some r -> Q r) -> framed (of_option c o) Q.
Proof. intros Ho k Hk. destruct o as [r|]; [by split; [|apply Ho]|done]. Qed.
Lemma framed_KASSERT b : framed (KASSERT b) any.
Proof. intros k Hk. by destruct b. Qed.
Lemma framed_modify g : (forall k, within k -> within (g k)) -> framed (modify g) any.
Proof. intros Hg k Hk. split; [by apply Hg|done]. Qed.

(** Parts of the state that do not matter. *)
Lemma within_files f k : within k -> within (put_files f k).
Proof. intros [? ? ? ? ? ? ?]. by split. Qed.
Lemma within_count c m n k : within k -> within (put_count c m n k).
Proof. intros [? ? ? ? ? ? ?]. by split. Qed.
Lemma within_pid n k : within k -> within (put_next_pid n k).
Proof. intros [? ? ? ? ? ? ?]. by split. Qed.
Lemma within_ipl i k : within k -> within (put_vm (put_ipl i (k_vm k)) k).
Proof. intros [? ? ? ? ? ? ?]. by split. Qed.

Lemma within_procs P n k : within k -> N <= n -> (forall x, procs k !! p = Some x -> exists x', P !! p = Some x' /\ p_addrspace x' = p_addrspace x) -> within (put_procs P n k).
Proof. intros [? ? ? Hn ? ? (x & Hx & Ex)] Hle HP. split; try done; [simpl; lia|]. destruct (HP x Hx) as (x' & Hx' & Ex'). exists x'. split; [done|congruence]. Qed.

Lemma within_threads T n k : within k -> NT <= n -> (forall y, threads k !! curthread k = Some y -> exists y', T !! curthread k = Some y' /\ t_proc y' = t_proc y) -> within (put_threads T n k).
Proof.
  intros [? ? ? ? Ht Hc ?] Hle HT. split; try done; [simpl; lia|]. unfold cur in *. simpl. destruct (threads k !! curthread k) as [y|]; [|done].
  destruct (HT y eq_refl) as (y' & -> & ->). done.
Qed.

Lemma framed_on_vfs {A} (m : M vfs A) : framed (Proc.on_vfs m) any.
Proof. intros k Hk. unfold Proc.on_vfs, FileTable.on_vfs, zoom. destruct (m (fvfs (k_files k))); try done; [split; [|done]|]; by apply within_files. Qed.

Lemma framed_on_files {A} (m : M files A) : framed (on_files m) any.
Proof.
  assert (forall f k, within k -> within (store_cwd f k)) as Hst.
  { intros f k Hk. unfold store_cwd. rewrite (wi_cur _ Hk). apply (within_procs _ _ (put_files _ k)); [by apply within_files|apply Hk|].
    intros x Hx. exists (with_cwd (Vfs.p_cwd (fvfs f)) x). split; [|done]. simpl in Hx. by rewrite lookup_alter_eq, Hx. }
  intros k Hk. unfold on_files, zoom. destruct (m (load_cwd k)); try done; [split; [|done]|]; by apply Hst.
Qed.

Lemma framed_kmalloc : framed Proc.kmalloc any.
Proof. apply framed_on_vfs. Qed.
Lemma framed_kfree : framed Proc.kfree any.
Proof. apply framed_on_vfs. Qed.

Lemma framed_curproc : framed curproc (fun q => q = p).
Proof. intros k Hk. unfold curproc, bind, get, of_option. by rewrite (wi_cur _ Hk). Qed.
Lemma framed_get_proc q : framed (get_proc q) (fun x => q = p -> p_addrspace x = Some a).
Proof.
  intros k Hk. unfold get_proc, bind, get, of_option. destruct (procs k !! q) as [x|] eqn:E; [|done]. split; [done|]. intros ->.
  destruct (wi_as _ Hk) as (x' & Hx' & Ex). congruence.
Qed.
Lemma framed_get_thread t : framed (get_thread t) any.
Proof. intros k Hk. unfold get_thread, bind, get, of_option. by destruct (threads k !! t). Qed.

Lemma framed_upd_proc q g : N <= q \/ (forall x, p_addrspace (g x) = p_addrspace x) -> framed (upd_proc q g) any.
Proof.
  intros Hq k Hk. unfold upd_proc, get_proc, bind, get, of_option. destruct (procs k !! q) as [x|] eqn:E; [|done]. split; [|done].
  apply within_procs; [done|apply Hk|]. intros x' Hx'. destruct (decide (q = p)) as [->|Hne]; [|exists x'; by rewrite lookup_insert_ne].
  rewrite E in Hx'. injection Hx' as <-. exists (g x). rewrite lookup_insert_eq. split; [done|]. destruct Hq as [Hq|Hg]; [pose proof (wi_next _ Hk); lia|done].
Qed.
Lemma framed_upd_thread t g : NT <= t \/ (forall y, t_proc (g y) = t_proc y) -> framed (upd_thread t g) any.
Proof.
  intros Hq k Hk. unfold upd_thread, get_thread, bind, get, of_option. destruct (threads k !! t) as [x|] eqn:E; [|done]. split; [|done].
  apply within_threads; [done|apply Hk|]. intros y Hy. destruct (decide (t = curthread k)) as [->|Hne]; [|exists y; by rewrite lookup_insert_ne].
  rewrite E in Hy. injection Hy as <-. exists (g x). rewrite lookup_insert_eq. split; [done|]. destruct Hq as [Hq|Hg]; [pose proof (wi_thread _ Hk); lia|done].
Qed.

(** What is written for the process goes to its own frames. *)
Lemma framed_with_user {A} (m : M (files * Copyinout.uspace) A) : framed (with_user m) any.
Proof.
  intros k Hk. assert (cur_as k = Some a) as Ecur by (unfold cur_as; rewrite (wi_cur _ Hk); by destruct (wi_as _ Hk) as (x & -> & ->)).
  assert (forall f u, within (put_vm (put_phys (LoadElf.store_view u a (phys (k_vm k))) (k_vm k)) (store_cwd f k))) as Hback.
  { intros f u. pose proof (framed_on_files (fun _ => Ret tt f) k Hk) as [[_ _ _ H4 H5 H6 H7] _]. simpl in *. split; try done; try apply Hk. simpl. intros pa Hpa Hout.
    rewrite <- (wi_phys _ Hk pa Hpa Hout). unfold LoadElf.store_view. destruct (LoadElf.find_va (regions a) pa) as [va|]; [|done].
    by rewrite bool_decide_false. }
  unfold with_user. rewrite Ecur. destruct (m _) as [r [f u]|e [f u]|]; [split; [apply Hback|done]| |done]. destruct (_ && _); [done|apply Hback].
Qed.

Lemma framed_as_copy ok : framed (Proc.on_vm (as_copy ok a)) any.
Proof.
  intros k Hk. unfold Proc.on_vm, zoom. destruct ok; [|by destruct Hk].
  assert (frames_below a (firstpaddr (vm_ram (k_vm k)))) as Hb by (eapply Forall_impl; [exact Hbelow|]; intros [[vb pb] n]; pose proof (wi_first _ Hk); lia).
  pose proof (as_copy_result a (k_vm k) (wi_vm _ Hk) Ha Hb) as H. destruct Hk as [H1 H2 H3 H4 H5 H6 H7].
  destruct (as_copy true a (k_vm k)) as [new v'|e v'|]; [split; [|done]| |done].
  - destruct H as [(Hv & _ & _ & Hkeep & _) (_ & _ & Hf & _)]. split; try done; simpl.
    + assert (0 <= total a); [|lia]. unfold as_ok, regions in Ha. apply Forall_cons in Ha as [(_ & _ & N1 & _) [(_ & _ & N2 & _) _]%Forall_cons].
      unfold total, DUMBVM_STACKPAGES, PAGE_SIZE. lia.
    + intros pa Hpa Hout. rewrite Hkeep by lia. by apply H3.
  - destruct H as (-> & _ & Hle & Hv & Hp). split; try done; simpl; [lia|]. intros pa Hpa Hno. rewrite Hp. by apply H3.
Qed.

(** The next call is framed by [L]. *)
Tactic Notation "frame" uconstr(L) := eapply framed_bind; [apply L|intros ? _].

Lemma framed_proc_create : framed proc_create (fun r => forall c, r = Some c -> N <= c).
Proof.
  unfold proc_create. eapply framed_bind; [apply framed_kmalloc|intros [] _; cbn [negb]; [|by apply framed_ret]].
  eapply framed_bind; [apply framed_kmalloc|intros [] _; cbn [negb]].
  2: { frame framed_kfree. by apply framed_ret. }
  unfold get_next_pid. eapply (framed_bind _ _ any).
  { apply framed_gets. intros k _. eapply framed_bind; [apply framed_modify, within_pid|intros ? _]. by apply framed_ret. }
  intros pid _. apply framed_get_modify. intros k Hk. pose proof (wi_next _ Hk) as Hn. split; [|by apply framed_ret; intros c [= <-]; lia].
  apply within_procs; [done|lia|]. intros x Hx. exists x. by rewrite lookup_insert_ne by lia.
Qed.

Lemma framed_counts g : (forall k, exists c m n, g k = put_count c m n k) -> framed (modify g) any.
Proof. intros Hg. apply framed_modify. intros k Hk. destruct (Hg k) as (c & m & n & ->). by apply within_count. Qed.

Lemma framed_P_count : framed P_count any.
Proof. unfold P_count. apply framed_gets. intros k _. case_match; [apply framed_crashed|]. apply framed_counts. intros ?; by eexists _, _, _. Qed.
Lemma framed_V_count : framed V_count any.
Proof. unfold V_count. apply framed_counts. intros ?; by eexists _, _, _. Qed.

Lemma framed_create : framed proc_create_runprogram (fun r => forall c, r = Some c -> N <= c).
Proof.
  unfold proc_create_runprogram. eapply framed_bind; [apply framed_proc_create|intros [c|] Hc; [|by apply framed_ret]]. specialize (Hc c eq_refl).
  eapply framed_bind; [apply framed_kmalloc|intros [] _; cbn [negb]; [|apply framed_crashed]].
  eapply framed_bind; [apply framed_try, framed_on_files|intros [v|e] _; [|apply framed_crashed]].
  eapply framed_bind; [apply framed_upd_proc; by left|intros ? _]. frame framed_kfree.
  eapply framed_bind; [apply framed_upd_proc; by left|intros ? _]. frame framed_curproc. eapply framed_bind; [apply framed_get_proc|intros x _].
  eapply (framed_bind _ _ any). { case_match; [|by apply framed_ret]. frame framed_on_vfs. apply framed_upd_proc. by left. }
  intros ? _. frame framed_P_count. eapply framed_bind; [apply framed_counts; intros ?; by eexists _, _, _|intros ? _].
  frame framed_V_count. apply framed_ret. by intros ? [= <-].
Qed.

Lemma framed_thread_fork c entry : N <= c -> framed (Proc.thread_fork c entry) any.
Proof.
  intros Hc. unfold Proc.thread_fork. eapply framed_bind; [apply framed_kmalloc|intros [] _; cbn [negb]; [|apply framed_err]].
  eapply framed_bind; [apply framed_kmalloc|intros [] _; cbn [negb]; [|frame framed_kfree; apply framed_err]].
  apply framed_get_modify. intros k0 Hk0. set (t := next_thread k0). pose proof (wi_thread _ Hk0) as Ht. split.
  { apply within_threads; [done|lia|]. intros y Hy. exists y. by rewrite lookup_insert_ne by lia. }
  assert (forall e, framed (modify (fun k => put_threads (delete t (threads k)) (next_thread k) k) ;; Proc.kfree ;; Proc.kfree ;; err e) (any (A := unit))) as Hdestroy.
  { intros e. eapply framed_bind; [apply framed_modify|intros ? _; frame framed_kfree; frame framed_kfree; apply framed_err].
    intros k Hk. pose proof (wi_thread _ Hk) as Ht'. apply within_threads; [done|lia|]. intros y Hy. exists y. by rewrite lookup_delete_ne by lia. }
  eapply framed_bind; [apply framed_kmalloc|intros [] _; cbn [negb]; [|apply Hdestroy]].
  eapply framed_bind; [apply framed_try|intros [?|e] _; [apply framed_upd_thread; by right|frame framed_kfree; apply Hdestroy]].
  unfold proc_addthread. frame framed_get_thread. frame framed_KASSERT. eapply framed_bind; [apply framed_kmalloc|intros [] _; cbn [negb]; [|apply framed_err]].
  eapply framed_bind; [apply framed_upd_proc; by left|intros ? _]. apply framed_upd_thread. left. lia.
Qed.

Lemma framed_spl s : framed (Proc.on_vm (Dumbvm.splx s)) any.
Proof.
  intros k Hk. unfold Proc.on_vm, Dumbvm.splx, zoom. destruct (Spl.splx mycpu s (vm_ipl (k_vm k))); [split; [|done]| |done]; by apply within_ipl.
Qed.

Lemma framed_sys_fork tf : framed (sys_fork tf) any.
Proof.
  unfold sys_fork. frame framed_spl. eapply framed_bind; [apply framed_curproc|intros q ->]. eapply framed_bind; [apply framed_kmalloc|intros [] _; cbn [negb]; [|apply framed_err]].
  eapply framed_bind; [apply framed_create|intros [c|] Hc; [|apply framed_err]]. specialize (Hc c eq_refl).
  eapply framed_bind; [apply framed_get_proc|intros x Hx]. specialize (Hx eq_refl). rewrite Hx.
  eapply framed_bind; [apply framed_of_option; intros b Hb; exact Hb|intros b [= <-]]. eapply framed_bind; [apply framed_kmalloc|intros ok _].
  eapply framed_bind; [apply framed_try, framed_as_copy|intros [new|e] _; [|apply framed_crashed]].
  eapply framed_bind; [apply framed_upd_proc; by left|intros ? _]. apply framed_gets. intros k _. eapply framed_bind; [apply framed_get_thread|intros t _].
  eapply (framed_bind _ _ any); [by apply framed_of_option|intros table _]. frame framed_on_files.
  eapply framed_bind; [by apply framed_try, framed_thread_fork|intros res _]. frame framed_spl.
  destruct res; [|apply framed_err]. frame framed_get_proc. by apply framed_ret.
Qed.

Lemma framed_on_user {A} (m : M Copyinout.uspace A) : framed (on_user m) any.
Proof. apply framed_with_user. Qed.

Lemma framed_cur_table : framed cur_table any.
Proof. unfold cur_table. apply framed_gets. intros k _. frame framed_get_thread. by apply framed_of_option. Qed.

Lemma framed_reboot code : framed (sys_reboot code) any.
Proof.
  unfold sys_reboot, shutdown. case_match; [apply framed_err|]. eapply (framed_bind _ _ any); [|intros; apply framed_crashed].
  frame framed_on_vfs. frame framed_on_files. frame framed_on_vfs. frame framed_spl. by apply framed_ret.
Qed.

(** Every call but exit, which gives up its memory. *)
Lemma framed_do_call now tf : tf_v0 tf <> SYS__exit -> framed (do_call now tf) any.
Proof.
  intros Hne. unfold do_call. destruct (tf_v0 tf =? SYS_reboot); [frame framed_reboot; by apply framed_ret|].
  destruct (tf_v0 tf =? SYS___time). { unfold sys___time. eapply (framed_bind _ _ any); [frame framed_on_user; apply framed_on_user|intros ? _]. by apply framed_ret. }
  destruct (tf_v0 tf =? SYS_write); [frame framed_cur_table; apply framed_with_user|].
  destruct (tf_v0 tf =? SYS__exit) eqn:E; [by apply Z.eqb_eq in E|].
  destruct (tf_v0 tf =? SYS_getpid). { unfold sys_getpid. frame framed_curproc. frame framed_get_proc. by apply framed_ret. }
  destruct (tf_v0 tf =? SYS_waitpid). { unfold sys_waitpid. case_match; [apply framed_err|]. frame framed_on_user. by apply framed_ret. }
  destruct (tf_v0 tf =? SYS_fork); [apply framed_sys_fork|]. destruct (tf_v0 tf =? SYS_open); [frame framed_cur_table; apply framed_with_user|].
  destruct (tf_v0 tf =? SYS_close); [frame framed_cur_table; frame framed_on_files; by apply framed_ret|].
  destruct (tf_v0 tf =? SYS_read); [frame framed_cur_table; apply framed_with_user|]. apply framed_err.
Qed.
End Frame.

(** ** Exit does not write to memory *)

Definition still {A} (m : M kernel A) : Prop := forall k, match m k with Ret _ k' | Err _ k' => k_vm k' = k_vm k | Crash _ => True end.

Lemma still_bind {A B} (m : M kernel A) (f : A -> M kernel B) : still m -> (forall r, still (f r)) -> still (bind m f).
Proof.
  intros Hm Hf k. unfold bind. specialize (Hm k). destruct (m k) as [r k'|e k'|]; [|done|done]. specialize (Hf r k'). destruct (f r k'); [congruence|congruence|done].
Qed.
Lemma still_get {A} (f : kernel -> M kernel A) : (forall k, still (f k)) -> still (bind get f).
Proof. intros Hf k. apply Hf. Qed.
Lemma still_modify g : (forall k, k_vm (g k) = k_vm k) -> still (modify g).
Proof. intros Hg k. apply Hg. Qed.
Lemma still_of_option {A} c (o : option A) : still (of_option c o).
Proof. intros k. by destruct o. Qed.
Lemma still_KASSERT b : still (KASSERT b).
Proof. intros k. by destruct b. Qed.
Lemma still_on_vfs {A} (m : M vfs A) : still (Proc.on_vfs m).
Proof. intros k. unfold Proc.on_vfs, FileTable.on_vfs, zoom. by destruct (m (fvfs (k_files k))). Qed.
Lemma still_ret {A} (r : A) : still (ret r).
Proof. done. Qed.
Lemma still_crashed {A} c : still (crashed c (A := A)).
Proof. done. Qed.
Lemma still_deactivate : still (Proc.on_vm as_deactivate).
Proof. done. Qed.

Ltac still_solve := repeat match goal with
  | |- still (bind get _) => apply still_get; intros ?
  | |- still (bind _ _) => apply still_bind; [|intros ?]
  | |- still (Proc.on_vfs _) => apply still_on_vfs
  | |- still Proc.kfree => apply still_on_vfs
  | |- still (Proc.on_vm as_deactivate) => apply still_deactivate
  | |- still (of_option _ _) => apply still_of_option
  | |- still (KASSERT _) => apply still_KASSERT
  | |- still (ret _) => apply still_ret
  | |- still (crashed _) => apply still_crashed
  | |- still panic => apply still_crashed
  | |- still (modify _) => apply still_modify; intros ?; reflexivity
  | |- still (match ?x with _ => _ end) => destruct x
  end.

Lemma still_exit code : still (sys__exit code).
Proof.
  unfold sys__exit, curproc_setas, curproc, get_proc, as_destroy, Proc.kfree, proc_remthread, get_thread, proc_destroy, upd_proc, get_proc, upd_thread, get_thread, P_count, V_count.
  still_solve.
Qed.

Lemma check_spl_cases k : check_spl k = Ret tt k \/ check_spl k = Crash Panicked.
Proof. unfold check_spl, bind, get, KASSERT. destruct (_ =? 0); [|by right]. destruct (_ =? 0); [by left|by right]. Qed.

(** The outcome leaves the memory of every process but [p] as it was in [k]. *)
Definition keeps_others {A} k (p : Z) (o : outcome (kernel (F := F)) A) : Prop :=
  match o with
  | Ret _ k' | Err _ k' => forall q b va, q <> p -> has_as (procs k) q b -> user_byte (k_vm k') b va = user_byte (k_vm k) b va
  | Crash _ => True
  end.

End Iso.

(** ** Example *)

#[local] Existing Instance DevVnode.dev_file_systems.

(** The child of [ex_child] waits for nothing: the status is stored at the
    start of its data, which its parent has at the same address. *)
Definition wait_tf : trapframe := mkTf SYS_waitpid 1 0x10000004 0 0 0x7ffffff0 0x400004 [].

Lemma ex_child_as : has_as (procs ex_child) 2 (laid_out as0 0x100000) /\ has_as (procs ex_child) 1 as0.
Proof.
  split.
  - exists (mkProc [2] (Some (laid_out as0 0x100000)) 3 None (Some 0)). by vm_compute.
  - exists ex_user. by vm_compute.
Qed.

End ProcIso.
