(* ===== verification/Lamebus.v ===== *)
(** * The system bus: src/dev/lamebus/lamebus.c and
      src/arch/sys161/dev/lamebus_machdep.c

    [Lamebus] models the bus driver: slots in use and their interrupt handlers,
    the search for a device, masking, the interrupt dispatcher, and finding
    and starting processors.  The controller's registers and the handlers of
    the device drivers are the class [LbMachine]. *)

From S2P Require Import Prelude.

Module Lamebus.

Definition LB_CONTROLLER_SLOT : Z := 31.
Definition LB_NSLOTS : Z := 32.
Definition LB_CONFIG_SIZE : Z := 1024.
Definition LB_CTLCPU_SIZE : Z := 1024.
Definition LB_CTLCPU_OFFSET : Z := 32768.
Definition LB_SLOT_SIZE : Z := 65536.
Definition LB_BASEADDR : Z := 0xa0000000 + 0x1fe00000.

Definition CFGREG_VID : Z := 0.
Definition CFGREG_DID : Z := 4.
Definition CFGREG_DRL : Z := 8.
Definition CTLREG_RAMSZ : Z := 0x200.
Definition CTLREG_IRQS : Z := 0x204.
Definition CTLREG_PWR : Z := 0x208.
Definition CTLREG_IRQE : Z := 0x20c.
Definition CTLREG_CPUS : Z := 0x210.
Definition CTLREG_CPUE : Z := 0x214.
Definition CTLREG_SELF : Z := 0x218.
Definition CTLCPU_CIRQE : Z := 0x000.
Definition CTLCPU_CIPI : Z := 0x004.
Definition CTLCPU_CRAM : Z := 0x300.

(** The words on the bus, by address, and what a driver's handler does when it
    is called with its data. *)
Class LbMachine (W : Type) := {
  bus_word : Z -> W -> Z;
  bus_store : Z -> Z -> W -> W;
  irq_handler : Z -> option Z -> M W unit;
  bus_word_u32 a w : is_u32 (bus_word a w) }.

Section Bus.
Context {W : Type} `{!LbMachine W}.

(** [struct lamebus_softc] with the machine, the static [duds], and the hardware
    numbers of the processors; the boot processor is 0. *)
Record lamebus_softc := mkLb {
  lb_world : W; ls_lock : bool; ls_slotsinuse : Z; ls_devdata : list (option Z); ls_irqfuncs : list (option Z);
  duds : Z; cpus : list Z }.

Definition put_world (x : W) (s : lamebus_softc) := mkLb x (ls_lock s) (ls_slotsinuse s) (ls_devdata s) (ls_irqfuncs s) (duds s) (cpus s).
Definition put_ls_lock (x : bool) (s : lamebus_softc) := mkLb (lb_world s) x (ls_slotsinuse s) (ls_devdata s) (ls_irqfuncs s) (duds s) (cpus s).
Definition put_inuse (x : Z) (s : lamebus_softc) := mkLb (lb_world s) (ls_lock s) x (ls_devdata s) (ls_irqfuncs s) (duds s) (cpus s).
Definition put_handler (slot : Z) (d f : option Z) (s : lamebus_softc) :=
  mkLb (lb_world s) (ls_lock s) (ls_slotsinuse s) (zinsert (ls_devdata s) slot d) (zinsert (ls_irqfuncs s) slot f) (duds s) (cpus s).
Definition put_duds (x : Z) (s : lamebus_softc) := mkLb (lb_world s) (ls_lock s) (ls_slotsinuse s) (ls_devdata s) (ls_irqfuncs s) x (cpus s).
Definition put_cpus (x : list Z) (s : lamebus_softc) := mkLb (lb_world s) (ls_lock s) (ls_slotsinuse s) (ls_devdata s) (ls_irqfuncs s) (duds s) x.

Definition spinlock_acquire : M lamebus_softc unit :=
  let* s := get in
  if ls_lock s then panic else modify (put_ls_lock true).
Definition spinlock_release : M lamebus_softc unit :=
  let* s := get in
  KASSERT (ls_lock s) ;; modify (put_ls_lock false).

(** ** Registers *)

Definition lamebus_map_area (slot offset : Z) : M lamebus_softc Z :=
  KASSERT ((0 <=? slot) && (slot <? LB_NSLOTS)) ;;
  ret (u32 (LB_BASEADDR + slot * LB_SLOT_SIZE + offset)).

Definition lamebus_read_register (slot offset : Z) : M lamebus_softc Z :=
  let* ptr := lamebus_map_area slot offset in
  let* s := get in
  ret (bus_word ptr (lb_world s)).

Definition lamebus_write_register (slot offset val : Z) : M lamebus_softc unit :=
  let* ptr := lamebus_map_area slot offset in
  modify (fun s => put_world (bus_store ptr val (lb_world s)) s).

Definition read_cfg_register (slot offset : Z) : M lamebus_softc Z :=
  lamebus_read_register LB_CONTROLLER_SLOT (u32 (offset + LB_CONFIG_SIZE * slot)).
Definition write_cfg_register (slot offset val : Z) : M lamebus_softc unit :=
  lamebus_write_register LB_CONTROLLER_SLOT (u32 (offset + LB_CONFIG_SIZE * slot)) val.
Definition read_ctl_register (offset : Z) : M lamebus_softc Z := read_cfg_register LB_CONTROLLER_SLOT offset.
Definition write_ctl_register (offset val : Z) : M lamebus_softc unit := write_cfg_register LB_CONTROLLER_SLOT offset val.
Definition write_ctlcpu_register (hw_cpunum offset val : Z) : M lamebus_softc unit :=
  lamebus_write_register LB_CONTROLLER_SLOT (u32 (offset + LB_CTLCPU_OFFSET + hw_cpunum * LB_CTLCPU_SIZE)) val.

(** ** Processors *)

Definition set_hardware_number (n i : Z) : M lamebus_softc unit := modify (fun s => put_cpus (zinsert (cpus s) n i) s).
(** [cpu_create] puts the processor into [allcpus]; the rest is the thread system's. *)
Definition cpu_create (hw : Z) : M lamebus_softc unit := modify (fun s => put_cpus (cpus s ++ [hw]) s).

(** The processors in the mask, and which of them is the boot processor. *)
Fixpoint count_cpus (n : nat) (i cpumask self bootcpu : Z) (hwnum : list Z) : M lamebus_softc (Z * list Z) :=
  match n with
  | O => ret (bootcpu, hwnum)
  | S n' =>
      let bit := bit_mask i in
      if negb (Z.land cpumask bit =? 0) then
        if negb (Z.land self bit =? 0) then
          set_hardware_number 0 i ;;
          count_cpus n' (i + 1) cpumask self (zlen hwnum) (hwnum ++ [i])
        else count_cpus n' (i + 1) cpumask self bootcpu (hwnum ++ [i])
      else count_cpus n' (i + 1) cpumask self bootcpu hwnum
  end.

Fixpoint create_cpus (i bootcpu : Z) (hwnum : list Z) : M lamebus_softc unit :=
  match hwnum with
  | [] => ret tt
  | hw :: hwnum' => (if* negb (i =? bootcpu) then cpu_create hw) ;; create_cpus (i + 1) bootcpu hwnum'
  end.

Fixpoint route_irqs (i bootcpu : Z) (hwnum : list Z) : M lamebus_softc unit :=
  match hwnum with
  | [] => ret tt
  | hw :: hwnum' =>
      let val := if negb (i =? bootcpu) then 0 else 0xffffffff in
      write_ctlcpu_register hw CTLCPU_CIRQE val ;;
      route_irqs (i + 1) bootcpu hwnum'
  end.

Definition lamebus_find_cpus : M lamebus_softc unit :=
  let* cpumask := read_ctl_register CTLREG_CPUS in
  let* self := read_ctl_register CTLREG_SELF in
  let* r := count_cpus 32 0 cpumask self 0 [] in
  create_cpus 0 (fst r) (snd r) ;;
  route_irqs 0 (fst r) (snd r).

(** [entry] is the address of [cpu_start_secondary]. *)
Fixpoint poke_cpus (n : nat) (i cpumask self cpunum entry : Z) : M lamebus_softc unit :=
  match n with
  | O => ret tt
  | S n' =>
      let bit := bit_mask i in
      if negb (Z.land cpumask bit =? 0) then
        if negb (Z.land self bit =? 0) then poke_cpus n' (i + 1) cpumask self cpunum entry
        else
          let ctlcpuoffset := u32 (LB_CTLCPU_OFFSET + i * LB_CTLCPU_SIZE) in
          let* cram := lamebus_map_area LB_CONTROLLER_SLOT (u32 (ctlcpuoffset + CTLCPU_CRAM)) in
          modify (fun s => put_world (bus_store cram entry (lb_world s)) s) ;;
          modify (fun s => put_world (bus_store (u32 (cram + 4)) cpunum (lb_world s)) s) ;;
          poke_cpus n' (i + 1) cpumask self (u32 (cpunum + 1)) entry
      else poke_cpus n' (i + 1) cpumask self cpunum entry
  end.

Definition lamebus_start_cpus (entry : Z) : M lamebus_softc unit :=
  let* cpumask := read_ctl_register CTLREG_CPUS in
  let* self := read_ctl_register CTLREG_SELF in
  poke_cpus 32 0 cpumask self 1 entry ;;
  write_ctl_register CTLREG_CPUE cpumask.

(** ** Slots *)

Fixpoint probe_loop (n : nat) (slot vendorid deviceid lowver highver : Z) : M lamebus_softc Z :=
  match n with
  | O => spinlock_release ;; ret (-1)
  | S n' =>
      let next := probe_loop n' (slot + 1) vendorid deviceid lowver highver in
      let* s := get in
      if negb (Z.land (ls_slotsinuse s) (bit_mask slot) =? 0) then next
      else
        let* val := read_cfg_register slot CFGREG_VID in
        if negb (val =? vendorid) then next
        else
          let* val := read_cfg_register slot CFGREG_DID in
          if negb (val =? deviceid) then next
          else
            let* val := read_cfg_register slot CFGREG_DRL in
            if (val <? lowver) || (highver <? val) then next
            else spinlock_release ;; ret slot
  end.

Definition lamebus_probe (vendorid deviceid lowver highver : Z) : M lamebus_softc Z :=
  spinlock_acquire ;;
  probe_loop (Z.to_nat LB_NSLOTS) 0 vendorid deviceid lowver highver.

Definition slot_range (slot : Z) : bool := (0 <=? slot) && (slot <? LB_NSLOTS).

Definition lamebus_mark (slot : Z) : M lamebus_softc unit :=
  KASSERT (slot_range slot) ;;
  spinlock_acquire ;;
  let* s := get in
  if negb (Z.land (ls_slotsinuse s) (bit_mask slot) =? 0) then panic
  else modify (put_inuse (Z.lor (ls_slotsinuse s) (bit_mask slot))) ;; spinlock_release.

Definition lamebus_unmark (slot : Z) : M lamebus_softc unit :=
  KASSERT (slot_range slot) ;;
  spinlock_acquire ;;
  let* s := get in
  if Z.land (ls_slotsinuse s) (bit_mask slot) =? 0 then panic
  else modify (put_inuse (Z.land (ls_slotsinuse s) (Z.lnot (bit_mask slot)))) ;; spinlock_release.

(** NULL is [None]. *)
Definition is_null (o : option Z) : bool := match o with None => true | Some _ => false end.

Definition lamebus_attach_interrupt (slot : Z) (devdata irqfunc : option Z) : M lamebus_softc unit :=
  KASSERT (slot_range slot) ;;
  spinlock_acquire ;;
  let* s := get in
  if Z.land (ls_slotsinuse s) (bit_mask slot) =? 0 then panic
  else
    let* d := of_option Wild (zlookup (ls_devdata s) slot) in
    KASSERT (is_null d) ;;
    let* f := of_option Wild (zlookup (ls_irqfuncs s) slot) in
    KASSERT (is_null f) ;;
    modify (put_handler slot devdata irqfunc) ;;
    spinlock_release.

Definition lamebus_detach_interrupt (slot : Z) : M lamebus_softc unit :=
  KASSERT (slot_range slot) ;;
  spinlock_acquire ;;
  let* s := get in
  if Z.land (ls_slotsinuse s) (bit_mask slot) =? 0 then panic
  else
    let* f := of_option Wild (zlookup (ls_irqfuncs s) slot) in
    KASSERT (negb (is_null f)) ;;
    modify (put_handler slot None None) ;;
    spinlock_release.

Definition lamebus_mask_interrupt (slot : Z) : M lamebus_softc unit :=
  KASSERT (slot_range slot) ;;
  spinlock_acquire ;;
  let* bits := read_ctl_register CTLREG_IRQE in
  write_ctl_register CTLREG_IRQE (Z.land bits (Z.lnot (bit_mask slot))) ;;
  spinlock_release.

Definition lamebus_unmask_interrupt (slot : Z) : M lamebus_softc unit :=
  KASSERT (slot_range slot) ;;
  spinlock_acquire ;;
  let* bits := read_ctl_register CTLREG_IRQE in
  write_ctl_register CTLREG_IRQE (Z.lor bits (bit_mask slot)) ;;
  spinlock_release.

(** ** Interrupts *)

Definition call_handler (f : Z) (d : option Z) : M lamebus_softc unit := zoom lb_world put_world (irq_handler f d).
Definition count_dud : M lamebus_softc unit := modify (fun s => put_duds (s32 (duds s + 1)) s).

(** The loop over the slots; the result is [duds_this_time]. *)
Fixpoint irq_loop (n : nat) (slot irqs duds_this_time : Z) : M lamebus_softc Z :=
  match n with
  | O => ret duds_this_time
  | S n' =>
      if Z.land irqs (bit_mask slot) =? 0 then irq_loop n' (slot + 1) irqs duds_this_time
      else
        let* s := get in
        if Z.land (ls_slotsinuse s) (bit_mask slot) =? 0 then
          count_dud ;; irq_loop n' (slot + 1) irqs (duds_this_time + 1)
        else
          let* f := of_option Wild (zlookup (ls_irqfuncs s) slot) in
          match f with
          | None => count_dud ;; irq_loop n' (slot + 1) irqs (duds_this_time + 1)
          | Some handler =>
              let* data := of_option Wild (zlookup (ls_devdata s) slot) in
              spinlock_release ;;
              call_handler handler data ;;
              spinlock_acquire ;;
              let* irqs := read_ctl_register CTLREG_IRQS in
              irq_loop n' (slot + 1) irqs duds_this_time
          end
  end.

Definition lamebus_interrupt : M lamebus_softc unit :=
  spinlock_acquire ;;
  let* irqs := read_ctl_register CTLREG_IRQS in
  (if* irqs =? 0 then count_dud) ;;
  let* duds_this_time := irq_loop (Z.to_nat LB_NSLOTS) 0 irqs (if irqs =? 0 then 1 else 0) in
  let* s := get in
  (if* (duds_this_time =? 0) && (0 <? duds s) then modify (put_duds 0)) ;;
  let* s := get in
  if 10000 <? duds s then panic
  else spinlock_release.

(** ** The rest *)

(** The processor halts. *)
Definition lamebus_poweroff : M lamebus_softc unit := write_ctl_register CTLREG_PWR 0 ;; crashed Hung.
Definition lamebus_ramsize : M lamebus_softc Z := read_ctl_register CTLREG_RAMSZ.
Definition lamebus_assert_ipi (target : Z) : M lamebus_softc unit :=
  let* s := get in
  let* hw := of_option Wild (zlookup (cpus s) target) in
  write_ctlcpu_register hw CTLCPU_CIPI 1.
Definition lamebus_clear_ipi (target : Z) : M lamebus_softc unit :=
  let* s := get in
  let* hw := of_option Wild (zlookup (cpus s) target) in
  write_ctlcpu_register hw CTLCPU_CIPI 0.

(** The boot processor has been created, its hardware number is not known. *)
Definition lamebus_init (w : W) : lamebus_softc :=
  mkLb w false (bit_mask LB_CONTROLLER_SLOT) (zrep LB_NSLOTS None) (zrep LB_NSLOTS None) 0 [0].

(** ** Facts about single calls *)

Definition ctl_addr (offset : Z) : Z := u32 (LB_BASEADDR + LB_CONTROLLER_SLOT * LB_SLOT_SIZE + u32 (offset + LB_CONFIG_SIZE * LB_CONTROLLER_SLOT)).
Definition cfg_addr (slot offset : Z) : Z := u32 (LB_BASEADDR + LB_CONTROLLER_SLOT * LB_SLOT_SIZE + u32 (offset + LB_CONFIG_SIZE * slot)).

(** The slots that signal an interrupt. *)
Definition irqs_of (w : W) : Z := bus_word (ctl_addr CTLREG_IRQS) w.

Lemma read_cfg_eq slot offset s : read_cfg_register slot offset s = Ret (bus_word (cfg_addr slot offset) (lb_world s)) s.
Proof. done. Qed.
Lemma read_ctl_eq offset s : read_ctl_register offset s = Ret (bus_word (ctl_addr offset) (lb_world s)) s.
Proof. done. Qed.

(** The state with the lock held, another machine and another count. *)
Definition during (w : W) (d : Z) (s : lamebus_softc) : lamebus_softc := mkLb w true (ls_slotsinuse s) (ls_devdata s) (ls_irqfuncs s) d (cpus s).

(** A slot with a driver that has a handler, and what the handler does. *)
Definition driven (s : lamebus_softc) (slot : Z) : bool :=
  Z.testbit (ls_slotsinuse s) slot && match zlookup (ls_irqfuncs s) slot with Some (Some _) => true | _ => false end.
Definition serve (s : lamebus_softc) (w : W) (slot : Z) : W :=
  match zlookup (ls_irqfuncs s) slot, zlookup (ls_devdata s) slot with
  | Some (Some f), Some d => after (irq_handler f d) w
  | _, _ => w
  end.

Definition pending (irqs : Z) (s : lamebus_softc) (l : list Z) : list Z := List.filter (fun slot => Z.testbit irqs slot && driven s slot) l.
Definition strays (irqs : Z) (s : lamebus_softc) (l : list Z) : Z := zlen (List.filter (fun slot => Z.testbit irqs slot && negb (driven s slot)) l).

(** The structure is as its type says, and the lock is free. *)
Record lb_wf (s : lamebus_softc) : Prop := {
  wf_lock : ls_lock s = false;
  wf_inuse : is_u32 (ls_slotsinuse s);
  wf_devdata : zlen (ls_devdata s) = LB_NSLOTS;
  wf_irqfuncs : zlen (ls_irqfuncs s) = LB_NSLOTS;
  wf_duds : 0 <= duds s <= 10000 }.

(** Every handler ends the interrupt of its slot and no other. *)
Definition well_served (s : lamebus_softc) : Prop := forall slot f d w, 0 <= slot < LB_NSLOTS ->
  zlookup (ls_irqfuncs s) slot = Some (Some f) -> zlookup (ls_devdata s) slot = Some d ->
  exists w', irq_handler f d w = Ret tt w' /\ irqs_of w' = Z.land (irqs_of w) (Z.lnot (bit_mask slot)).

Lemma strays_nonneg irqs s l : 0 <= strays irqs s l.
Proof. apply zlen_nonneg. Qed.

Lemma pending_later irqs irqs' s l : (forall slot, slot ∈ l -> Z.testbit irqs' slot = Z.testbit irqs slot) ->
  pending irqs' s l = pending irqs s l /\ strays irqs' s l = strays irqs s l.
Proof.
  intros Hb. unfold pending, strays. split; [|f_equal]; apply filter_ext_in; intros x Hx; by rewrite Hb by (by apply list_elem_of_In).
Qed.

Lemma irq_loop_spec s n : well_served s -> zlen (ls_devdata s) = LB_NSLOTS -> zlen (ls_irqfuncs s) = LB_NSLOTS ->
  forall slot w d dt, 0 <= slot -> slot + Z.of_nat n = LB_NSLOTS -> 0 <= d -> d + Z.of_nat n < 2 ^ 31 ->
  let l := seqZ slot (Z.of_nat n) in let nd := strays (irqs_of w) s l in
  irq_loop n slot (irqs_of w) dt (during w d s) = Ret (dt + nd) (during (foldl (serve s) w (pending (irqs_of w) s l)) (d + nd) s) /\ nd <= Z.of_nat n.
Proof.
  intros Hserve Hdev Hirq. induction n as [|n IH]; intros slot w d dt Hslot Hsum Hd Hsmall; cbn zeta.
  { simpl. unfold strays, pending, seqZ. simpl. rewrite !Z.add_0_r. done. }
  rewrite (seqZ_cons slot) by lia. replace (Z.pred (Z.of_nat (S n))) with (Z.of_nat n) by lia. replace (Z.succ slot) with (slot + 1) by lia.
  cbn [irq_loop]. rewrite land_mask_zero by done. set (l := seqZ (slot + 1) (Z.of_nat n)).
  assert (forall b c, Z.testbit (irqs_of w) slot = b -> driven s slot = c ->
    pending (irqs_of w) s (slot :: l) = (if b && c then [slot] else []) ++ pending (irqs_of w) s l /\
    strays (irqs_of w) s (slot :: l) = (if b && negb c then 1 else 0) + strays (irqs_of w) s l) as Hcons.
  { intros b c <- <-. unfold pending, strays. simpl. destruct (Z.testbit _ slot), (driven s slot); simpl; rewrite ?zlen_cons; split; done || lia. }
  assert (driven s slot = false -> Z.testbit (irqs_of w) slot = true ->
    (count_dud ;; irq_loop n (slot + 1) (irqs_of w) (dt + 1)) (during w d s) =
      Ret (dt + strays (irqs_of w) s (slot :: l)) (during (foldl (serve s) w (pending (irqs_of w) s (slot :: l))) (d + strays (irqs_of w) s (slot :: l)) s) /\
    strays (irqs_of w) s (slot :: l) <= Z.of_nat (S n)) as Hdud.
  { intros Hdr Hb. destruct (Hcons _ _ Hb Hdr) as [-> ->]. cbn [andb negb app]. destruct (IH (slot + 1) w (d + 1) (dt + 1)) as [E Hle]; try lia.
    fold l in E, Hle. replace (dt + (1 + strays (irqs_of w) s l)) with (dt + 1 + strays (irqs_of w) s l) by lia.
    replace (d + (1 + strays (irqs_of w) s l)) with (d + 1 + strays (irqs_of w) s l) by lia. split; [|lia]. rewrite <- E.
    unfold count_dud, bind, modify. simpl. by rewrite s32_small by lia. }
  destruct (Z.testbit (irqs_of w) slot) eqn:Hb; cbn [negb].
  2: { destruct (Hcons _ _ eq_refl eq_refl) as [-> ->]. cbn [andb app]. rewrite Z.add_0_l. destruct (IH (slot + 1) w d dt) as [E Hle]; try lia. split; [exact E|fold l in Hle; lia]. }
  unfold bind at 1, get. change (ls_slotsinuse (during w d s)) with (ls_slotsinuse s). rewrite land_mask_zero by done.
  destruct (zlookup_is_Some (ls_irqfuncs s) slot) as [fo Hf]; [lia|]. destruct (zlookup_is_Some (ls_devdata s) slot) as [dd Hdd]; [lia|].
  destruct (Z.testbit (ls_slotsinuse s) slot) eqn:Hin; cbn [negb].
  2: { apply Hdud; [|done]. unfold driven. by rewrite Hin. }
  cbn [ls_irqfuncs during]. rewrite Hf. unfold bind at 1, of_option. destruct fo as [f|].
  2: { apply Hdud; [|done]. unfold driven. by rewrite Hin, Hf. }
  assert (driven s slot = true) as Hdr by (unfold driven; by rewrite Hin, Hf). destruct (Hcons _ _ eq_refl Hdr) as [-> ->]. cbn [andb negb app].
  cbn [ls_devdata during]. rewrite Hdd. destruct (Hserve slot f dd w) as (w' & Ew & Ei); [lia|done|done|].
  unfold bind at 1. unfold bind at 1. unfold spinlock_release, bind, get, KASSERT, ret, modify, call_handler, zoom, spinlock_acquire. cbn [ls_lock during put_ls_lock lb_world].
  rewrite Ew.
  destruct (IH (slot + 1) w' d dt) as [E Hle]; try lia. fold l in E, Hle. destruct (pending_later (irqs_of w) (irqs_of w') s l) as [Ep Es].
  { intros x Hx. apply elem_of_seqZ in Hx. rewrite Ei, testbit_clear by lia. by rewrite bool_decide_false by lia. }
  rewrite Ep, Es in E. rewrite Es in Hle. rewrite Z.add_0_l. split; [|lia].
  assert (serve s w slot = w') as Esv by (unfold serve; rewrite Hf, Hdd; unfold after; by rewrite Ew). cbn [foldl]. rewrite Esv, <- E. done.
Qed.

Lemma served_irqs s (l : list Z) : well_served s -> zlen (ls_devdata s) = LB_NSLOTS ->
  Forall (fun slot => 0 <= slot < LB_NSLOTS /\ driven s slot = true) l ->
  forall w x, 0 <= x -> Z.testbit (irqs_of (foldl (serve s) w l)) x = Z.testbit (irqs_of w) x && negb (bool_decide (x ∈ l)).
Proof.
  intros Hserve Hdev Hl. induction Hl as [|slot l [Hr Hdr] Hl IH]; intros w x Hx; cbn [foldl].
  { rewrite bool_decide_false by set_solver. by rewrite andb_true_r. }
  rewrite IH by done. unfold driven in Hdr. apply andb_true_iff in Hdr as [_ Hdr]. destruct (zlookup (ls_irqfuncs s) slot) as [[f|]|] eqn:Hf; [|done|done].
  destruct (zlookup_is_Some (ls_devdata s) slot) as [d Hd]; [lia|]. destruct (Hserve slot f d w Hr Hf Hd) as (w' & Ew & Ei).
  unfold serve at 1. rewrite Hf, Hd. unfold after. rewrite Ew, Ei, testbit_clear by lia. destruct (decide (x = slot)) as [->|Hne].
  - rewrite bool_decide_true by done. rewrite (bool_decide_true (slot ∈ slot :: l)) by left. simpl. by rewrite andb_false_r.
  - rewrite bool_decide_false by done. simpl. f_equal. f_equal. apply bool_decide_ext. set_solver.
Qed.

Lemma pending_elem irqs s l x : x ∈ pending irqs s l <-> x ∈ l /\ Z.testbit irqs x = true /\ driven s x = true.
Proof. unfold pending. rewrite !list_elem_of_In, filter_In, andb_true_iff. done. Qed.

Lemma served_bits s w l slot : well_served s -> zlen (ls_devdata s) = LB_NSLOTS -> Forall (fun x => 0 <= x < LB_NSLOTS) l -> slot ∈ l ->
  Z.testbit (irqs_of (foldl (serve s) w (pending (irqs_of w) s l))) slot = Z.testbit (irqs_of w) slot && negb (driven s slot).
Proof.
  intros Hserve Hdev Hl Hslot. rewrite Forall_forall in Hl. rewrite served_irqs; [|done|done| |by apply Hl in Hslot; lia].
  - destruct (Z.testbit (irqs_of w) slot) eqn:Hb; [|done]. cbn [andb]. f_equal. destruct (driven s slot) eqn:Hdr; [apply bool_decide_true|apply bool_decide_false];
      rewrite pending_elem, Hdr; [done|by intros (_ & _ & ?)].
  - apply Forall_forall. intros x (Hx & _ & Hdr)%pending_elem. split; [by apply Hl|done].
Qed.

Lemma acquire_free s : ls_lock s = false -> spinlock_acquire s = Ret tt (during (lb_world s) (duds s) s).
Proof. intros Hlk. unfold spinlock_acquire, bind, get. by rewrite Hlk. Qed.
Lemma release_during w d s : ls_lock s = false -> spinlock_release (during w d s) = Ret tt (put_duds d (put_world w s)).
Proof. intros Hlk. unfold spinlock_release, bind, get, KASSERT, ret, modify, put_ls_lock, put_duds, put_world. cbn. by rewrite Hlk. Qed.

Definition new_duds (s : lamebus_softc) : Z :=
  (if irqs_of (lb_world s) =? 0 then 1 else 0) + strays (irqs_of (lb_world s)) s (seqZ 0 LB_NSLOTS).
Definition served (s : lamebus_softc) : W := foldl (serve s) (lb_world s) (pending (irqs_of (lb_world s)) s (seqZ 0 LB_NSLOTS)).

Lemma interrupt_result s : lb_wf s -> well_served s ->
  lamebus_interrupt s =
    let total := if new_duds s =? 0 then 0 else duds s + new_duds s in
    if 10000 <? total then Crash Panicked else Ret tt (put_duds total (put_world (served s) s)).
Proof.
  intros [Hlk _ Hdev Hirq Hduds] Hserve. unfold new_duds. remember (if irqs_of (lb_world s) =? 0 then 1 else 0) as z eqn:Ez.
  assert (0 <= z <= 1) as Hz by (subst z; destruct (_ =? 0); lia).
  destruct (irq_loop_spec s (Z.to_nat LB_NSLOTS) Hserve Hdev Hirq 0 (lb_world s) (duds s + z) z) as [E Hle]; [lia|done|lia|unfold LB_NSLOTS; lia|].
  rewrite Z2Nat.id in E, Hle by done. pose proof (strays_nonneg (irqs_of (lb_world s)) s (seqZ 0 LB_NSLOTS)) as Hnd.
  unfold served. generalize dependent (foldl (serve s) (lb_world s) (pending (irqs_of (lb_world s)) s (seqZ 0 LB_NSLOTS))). intros w'.
  generalize dependent (strays (irqs_of (lb_world s)) s (seqZ 0 LB_NSLOTS)). intros nd Hle Hnd E.
  unfold lamebus_interrupt. rewrite (bind_Ret _ _ _ tt (during (lb_world s) (duds s) s)) by (by apply acquire_free).
  rewrite (bind_Ret _ _ _ _ _ (read_ctl_eq CTLREG_IRQS (during (lb_world s) (duds s) s))). cbn [lb_world during]. fold (irqs_of (lb_world s)). rewrite <- Ez.
  rewrite (bind_Ret _ _ _ tt (during (lb_world s) (duds s + z) s)).
  2: { rewrite Ez. destruct (irqs_of (lb_world s) =? 0); [|by rewrite Z.add_0_r]. unfold count_dud, modify. cbn [duds during]. by rewrite s32_small by lia. }
  rewrite (bind_Ret _ _ _ _ _ E). clear E. unfold bind, get. replace (duds s + z + nd) with (duds s + (z + nd)) by lia. cbn [duds during].
  destruct (z + nd =? 0) eqn:E1; cbn [andb].
  - apply Z.eqb_eq in E1. rewrite E1, Z.add_0_r. destruct (0 <? duds s) eqn:E2; unfold modify, ret; cbn [duds put_duds during].
    + change (put_duds 0 (during w' (duds s) s)) with (during w' 0 s). by rewrite release_during.
    + apply Z.ltb_ge in E2. replace (duds s) with 0 by lia. by rewrite release_during.
  - unfold ret. cbn [duds during]. destruct (10000 <? duds s + (z + nd)); [done|]. by rewrite release_during.
Qed.

(** C16. An interrupt on the bus, when every handler ends the interrupt of its slot
    and no other: the handlers of the slots that signal one are called, once
    each and in the order of the slots, and afterwards only slots without a
    handler still signal.  Those are counted, as is an interrupt of no slot;
    the count starts over when there are none, and the kernel panics when it
    exceeds 10000. *)
Theorem lamebus_interrupt_exact (s : lamebus_softc) (Hwf : lb_wf s) (Hserve : well_served s) :
  lamebus_interrupt s =
    (let total := if new_duds s =? 0 then 0 else duds s + new_duds s in
     if 10000 <? total then Crash Panicked else Ret tt (put_duds total (put_world (served s) s))) /\
  forall slot, 0 <= slot < LB_NSLOTS -> Z.testbit (irqs_of (served s)) slot = Z.testbit (irqs_of (lb_world s)) slot && negb (driven s slot).
Proof.
  split; [by apply interrupt_result|]. intros slot Hslot. apply served_bits; [done|apply Hwf| |apply elem_of_seqZ; lia].
  apply Forall_forall. intros x Hx. apply elem_of_seqZ in Hx. lia.
Qed.

(** ** Looking for a device *)

Definition suits (s : lamebus_softc) (vendorid deviceid lowver highver slot : Z) : bool :=
  negb (Z.testbit (ls_slotsinuse s) slot) && (bus_word (cfg_addr slot CFGREG_VID) (lb_world s) =? vendorid) &&
  (bus_word (cfg_addr slot CFGREG_DID) (lb_world s) =? deviceid) &&
  (lowver <=? bus_word (cfg_addr slot CFGREG_DRL) (lb_world s)) && (bus_word (cfg_addr slot CFGREG_DRL) (lb_world s) <=? highver).

Lemma probe_loop_spec s vid did lo hi n : ls_lock s = true -> forall slot, 0 <= slot ->
  probe_loop n slot vid did lo hi s = Ret (default (-1) (List.find (suits s vid did lo hi) (seqZ slot (Z.of_nat n)))) (put_ls_lock false s).
Proof.
  intros Hlk. assert (forall r : Z, (spinlock_release ;; ret r) s = Ret r (put_ls_lock false s)) as Hrel
    by (intros r; unfold spinlock_release, bind, get, KASSERT, ret, modify; by rewrite Hlk).
  induction n as [|n IH]; intros slot Hslot; [apply Hrel|]. rewrite seqZ_cons by lia. replace (Z.pred (Z.of_nat (S n))) with (Z.of_nat n) by lia.
  replace (Z.succ slot) with (slot + 1) by lia. specialize (IH (slot + 1) ltac:(lia)). cbn [probe_loop List.find]. unfold suits at 1. unfold bind at 1, get.
  rewrite land_mask_zero, negb_involutive by done. destruct (Z.testbit (ls_slotsinuse s) slot); cbn [negb andb]; [exact IH|].
  rewrite (bind_Ret _ _ _ _ _ (read_cfg_eq slot CFGREG_VID s)). destruct (_ =? vid); cbn [negb andb]; [|exact IH].
  rewrite (bind_Ret _ _ _ _ _ (read_cfg_eq slot CFGREG_DID s)). destruct (_ =? did); cbn [negb andb]; [|exact IH].
  rewrite (bind_Ret _ _ _ _ _ (read_cfg_eq slot CFGREG_DRL s)). rewrite !Z.ltb_antisym. destruct (lo <=? _); cbn [negb andb orb]; [|exact IH].
  destruct (_ <=? hi); cbn [negb]; [|exact IH]. apply Hrel.
Qed.

Lemma probe_spec s vid did lo hi : ls_lock s = false ->
  lamebus_probe vid did lo hi s = Ret (default (-1) (List.find (suits s vid did lo hi) (seqZ 0 LB_NSLOTS))) s.
Proof.
  intros Hlk. unfold lamebus_probe. rewrite (bind_Ret _ _ _ _ _ (acquire_free s Hlk)). rewrite probe_loop_spec by done. rewrite Z2Nat.id by done.
  assert (put_ls_lock false (during (lb_world s) (duds s) s) = s) as -> by (destruct s; simpl in *; by subst).
  assert (suits (during (lb_world s) (duds s) s) = suits s) as -> by done. done.
Qed.

(** ** Every call *)

Inductive lb_call :=
| LProbe (vendorid deviceid lowver highver : Z) | LMark (slot : Z) | LUnmark (slot : Z) | LAttach (slot : Z) (devdata irqfunc : option Z)
| LDetach (slot : Z) | LMask (slot : Z) | LUnmask (slot : Z) | LInterrupt.

Definition lb_exec (c : lb_call) : M lamebus_softc Z :=
  match c with
  | LProbe v d lo hi => lamebus_probe v d lo hi
  | LMark slot => lamebus_mark slot ;; ret 0
  | LUnmark slot => lamebus_unmark slot ;; ret 0
  | LAttach slot d f => lamebus_attach_interrupt slot d f ;; ret 0
  | LDetach slot => lamebus_detach_interrupt slot ;; ret 0
  | LMask slot => lamebus_mask_interrupt slot ;; ret 0
  | LUnmask slot => lamebus_unmask_interrupt slot ;; ret 0
  | LInterrupt => lamebus_interrupt ;; ret 0
  end.

(** The call returned with [Q], or panicked; it did nothing undefined. *)
Definition typed {A} (o : outcome lamebus_softc A) (Q : A -> lamebus_softc -> Prop) : Prop :=
  match o with Ret r s' => Q r s' | Err _ _ => False | Crash c => c = Panicked end.

Lemma typed_bind {A B} (m : M lamebus_softc A) (f : A -> M lamebus_softc B) s Q : typed (m s) (fun r s' => typed (f r s') Q) -> typed (bind m f s) Q.
Proof. unfold bind. by destruct (m s). Qed.
Lemma typed_KASSERT b s (Q : unit -> lamebus_softc -> Prop) : (b = true -> Q tt s) -> typed (KASSERT b s) Q.
Proof. destruct b; simpl; [by auto|done]. Qed.
Lemma typed_of_option {A} (o : option A) s (Q : A -> lamebus_softc -> Prop) : is_Some o -> (forall x, o = Some x -> Q x s) -> typed (of_option Wild o s) Q.
Proof. intros [x ->] HQ. by apply HQ. Qed.

(** Under the lock. *)
Lemma typed_locked {A} slot (m : M lamebus_softc A) s Q : ls_lock s = false -> (0 <= slot < LB_NSLOTS -> typed (m (put_ls_lock true s)) Q) ->
  typed ((KASSERT (slot_range slot) ;; spinlock_acquire ;; m) s) Q.
Proof.
  intros Hlk HQ. apply typed_bind, typed_KASSERT. intros [H1%Z.leb_le H2%Z.ltb_lt]%andb_true_iff. apply typed_bind. unfold spinlock_acquire, bind, get. rewrite Hlk. apply HQ. lia.
Qed.
Lemma typed_release s (Q : unit -> lamebus_softc -> Prop) : ls_lock s = true -> Q tt (put_ls_lock false s) -> typed (spinlock_release s) Q.
Proof. intros Hlk HQ. unfold spinlock_release, bind, get, KASSERT. by rewrite Hlk. Qed.

Lemma inuse_set m slot : is_u32 m -> 0 <= slot < LB_NSLOTS -> is_u32 (Z.lor m (bit_mask slot)) /\ is_u32 (Z.land m (Z.lnot (bit_mask slot))).
Proof.
  unfold is_u32, LB_NSLOTS. intros Hm Hs. split; apply range_by_bits; try lia.
  - apply Z.lor_nonneg. split; [lia|]. unfold bit_mask. rewrite Z.shiftl_1_l. lia.
  - intros i Hi. rewrite testbit_set by lia. rewrite (testbit_high 32 m) by lia. by rewrite bool_decide_false by lia.
  - apply Z.land_nonneg. lia.
  - intros i Hi. rewrite testbit_clear by lia. rewrite (testbit_high 32 m) by lia. apply andb_false_r.
Qed.

Definition handlers_return : Prop := forall f d w, exists w', irq_handler f d w = Ret tt w'.

Lemma irq_loop_typed s n : handlers_return -> zlen (ls_devdata s) = LB_NSLOTS -> zlen (ls_irqfuncs s) = LB_NSLOTS ->
  forall slot irqs w d dt, 0 <= slot -> slot + Z.of_nat n = LB_NSLOTS -> 0 <= d -> d + Z.of_nat n < 2 ^ 31 ->
  exists r w', irq_loop n slot irqs dt (during w d s) = Ret r (during w' (d + (r - dt)) s) /\ dt <= r <= dt + Z.of_nat n.
Proof.
  intros Hret Hdev Hirq. induction n as [|n IH]; intros slot irqs w d dt Hslot Hsum Hd Hsmall.
  { exists dt, w. simpl. rewrite Z.sub_diag, Z.add_0_r. split; [done|lia]. }
  assert (exists r w', (count_dud ;; irq_loop n (slot + 1) irqs (dt + 1)) (during w d s) = Ret r (during w' (d + (r - dt)) s) /\ dt <= r <= dt + Z.of_nat (S n)) as Hdud.
  { destruct (IH (slot + 1) irqs w (d + 1) (dt + 1)) as (r & w' & E & Hr); try lia. exists r, w'. split; [|lia].
    replace (d + (r - dt)) with (d + 1 + (r - (dt + 1))) by lia. rewrite <- E. unfold count_dud, bind, modify. cbn [duds during]. by rewrite s32_small by lia. }
  cbn [irq_loop]. destruct (Z.land irqs (bit_mask slot) =? 0). { destruct (IH (slot + 1) irqs w d dt) as (r & w' & E & Hr); try lia. exists r, w'. split; [done|lia]. }
  unfold bind at 1, get. cbn [ls_slotsinuse during]. destruct (Z.land (ls_slotsinuse s) (bit_mask slot) =? 0); [exact Hdud|].
  destruct (zlookup_is_Some (ls_irqfuncs s) slot) as [fo Hf]; [lia|]. destruct (zlookup_is_Some (ls_devdata s) slot) as [dd Hdd]; [lia|].
  cbn [ls_irqfuncs ls_devdata during]. rewrite Hf, Hdd. unfold bind at 1, of_option. destruct fo as [f|]; [|exact Hdud]. destruct (Hret f dd w) as [w1 E1].
  destruct (IH (slot + 1) (irqs_of w1) w1 d dt) as (r & w' & E & Hr); try lia. exists r, w'. split; [|lia]. rewrite <- E.
  unfold bind at 1 2, spinlock_release, bind, get, KASSERT, ret, modify, call_handler, zoom. cbn [ls_lock during put_ls_lock lb_world]. rewrite E1. done.
Qed.

Lemma interrupt_typed s : lb_wf s -> handlers_return -> typed (lamebus_interrupt s) (fun _ s' => lb_wf s').
Proof.
  intros [Hlk Hin Hdev Hirq Hduds] Hret. unfold lamebus_interrupt. rewrite (bind_Ret _ _ _ _ _ (acquire_free s Hlk)).
  rewrite (bind_Ret _ _ _ _ _ (read_ctl_eq CTLREG_IRQS (during (lb_world s) (duds s) s))). set (I := bus_word _ _). remember (if I =? 0 then 1 else 0) as z eqn:Ez.
  assert (0 <= z <= 1) as Hz by (subst z; destruct (_ =? 0); lia). clearbody I.
  rewrite (bind_Ret _ _ _ tt (during (lb_world s) (duds s + z) s)).
  2: { rewrite Ez. destruct (I =? 0); [|by rewrite Z.add_0_r]. unfold count_dud, modify. cbn [duds during]. by rewrite s32_small by lia. }
  destruct (irq_loop_typed s (Z.to_nat LB_NSLOTS) Hret Hdev Hirq 0 I (lb_world s) (duds s + z) z) as (r & w' & E & Hr); [lia|done|lia|unfold LB_NSLOTS; lia|].
  rewrite (bind_Ret _ _ _ _ _ E). clear E. replace (duds s + z + (r - z)) with (duds s + r) by lia. unfold bind, get. cbn [duds during].
  assert (forall d, 0 <= d <= 10000 -> typed (spinlock_release (during w' d s)) (fun _ s' => lb_wf s')) as Hend.
  { intros d Hd. rewrite release_during by done. by split. }
  destruct ((r =? 0) && (0 <? duds s + r)); unfold modify, ret; cbn [duds put_duds during]; [apply (Hend 0); lia|].
  destruct (Z.ltb_spec 10000 (duds s + r)); [done|]. apply Hend. lia.
Qed.

(** C17. Every call on the bus, with any arguments, in any order: it panics, or it
    returns and the structure is as its type says: a 32-bit mask, two arrays of
    32 entries of which none is read or written out of range, and a free
    lock. *)
Theorem lamebus_types (c : lb_call) (s : lamebus_softc) (Hwf : lb_wf s) (Hret : handlers_return) :
  typed (lb_exec c s) (fun _ s' => lb_wf s').
Proof.
  pose proof Hwf as [Hlk Hin Hdev Hirq Hduds]. destruct c as [v d lo hi|slot|slot|slot d f|slot|slot|slot|]; cbn [lb_exec]; [by rewrite probe_spec by done|..]; apply typed_bind.
  - apply typed_locked; [done|]. intros Hs. destruct (inuse_set _ slot Hin Hs) as [Hi _]. unfold bind, get. destruct (negb _); [done|]. apply typed_release; [done|]. by split.
  - apply typed_locked; [done|]. intros Hs. destruct (inuse_set _ slot Hin Hs) as [_ Hi]. unfold bind, get. destruct (_ =? 0); [done|]. apply typed_release; [done|]. by split.
  - apply typed_locked; [done|]. intros Hs. unfold bind at 1, get. destruct (_ =? 0); [done|]. apply typed_bind, typed_of_option; [apply zlookup_is_Some; simpl; lia|]. intros d' _.
    apply typed_bind, typed_KASSERT. intros _. apply typed_bind, typed_of_option; [apply zlookup_is_Some; simpl; lia|]. intros f' _. apply typed_bind, typed_KASSERT. intros _.
    apply typed_release; [done|]. split; simpl; rewrite ?zlen_zinsert; done.
  - apply typed_locked; [done|]. intros Hs. unfold bind at 1, get. destruct (_ =? 0); [done|]. apply typed_bind, typed_of_option; [apply zlookup_is_Some; simpl; lia|]. intros f' _.
    apply typed_bind, typed_KASSERT. intros _. apply typed_release; [done|]. split; simpl; rewrite ?zlen_zinsert; done.
  - apply typed_locked; [done|]. intros Hs. by split.
  - apply typed_locked; [done|]. intros Hs. by split.
  - pose proof (interrupt_typed s Hwf Hret) as H. by destruct (lamebus_interrupt s).
Qed.

(** ** Finding and starting processors *)

Definition set_bits (m i : Z) (n : nat) : list Z := List.filter (fun x => Z.testbit m x) (seqZ i (Z.of_nat n)).

Lemma set_bits_S m i n : set_bits m i (S n) = (if Z.testbit m i then [i] else []) ++ set_bits m (i + 1) n.
Proof.
  unfold set_bits. rewrite seqZ_cons by lia. replace (Z.pred (Z.of_nat (S n))) with (Z.of_nat n) by lia. replace (Z.succ i) with (i + 1) by lia.
  simpl. by destruct (Z.testbit m i).
Qed.
Lemma set_bits_elem m i n x : x ∈ set_bits m i n <-> i <= x < i + Z.of_nat n /\ Z.testbit m x = true.
Proof. unfold set_bits. rewrite list_elem_of_In, filter_In, <- list_elem_of_In, elem_of_seqZ. done. Qed.

Lemma set_bits_nodup m i n : NoDup (set_bits m i n).
Proof. unfold set_bits. apply NoDup_ListNoDup, List.NoDup_filter, NoDup_ListNoDup, NoDup_seqZ. Qed.

#[local] Opaque set_bits.

(** The boot processor is the only one in [self]. *)
Lemma count_cpus_spec cpumask b n : 0 <= b -> forall i boot acc s, 0 <= i ->
  let l := set_bits cpumask i n in
  exists j, count_cpus n i cpumask (bit_mask b) boot acc s = Ret (j, acc ++ l) (if bool_decide (b ∈ l) then put_cpus (zinsert (cpus s) 0 b) s else s) /\
    (b ∈ l -> zlookup (acc ++ l) j = Some b) /\ (b ∉ l -> j = boot).
Proof.
  intros Hb. induction n as [|n IH]; intros i boot acc s Hi; cbn zeta.
  { exists boot. change (set_bits cpumask i 0) with (@nil Z). simpl. rewrite app_nil_r. split; [done|]. split; [by intros ?%not_elem_of_nil|done]. }
  rewrite set_bits_S. cbn [count_cpus]. rewrite !land_mask_zero, bit_mask_spec, !negb_involutive by lia. destruct (Z.testbit cpumask i) eqn:Ht; [|by apply IH; lia].
  destruct (decide (i = b)) as [->|Hne].
  - rewrite bool_decide_true by done. unfold bind, set_hardware_number, modify. destruct (IH (b + 1) (zlen acc) (acc ++ [b]) (put_cpus (zinsert (cpus s) 0 b) s)) as (j & E & _ & Hj); [lia|].
    assert (b ∉ set_bits cpumask (b + 1) n) as Hno by (rewrite set_bits_elem; lia). rewrite (Hj Hno) in E. rewrite bool_decide_false in E by done.
    exists (zlen acc). rewrite E, <- app_assoc. rewrite bool_decide_true by set_solver. split; [done|]. split; [intros _|set_solver].
    rewrite zlookup_app_r by lia. by rewrite Z.sub_diag.
  - rewrite bool_decide_false by done. destruct (IH (i + 1) boot (acc ++ [i]) s) as (j & E & H1 & H2); [lia|]. rewrite <- app_assoc in E, H1. exists j. rewrite E.
    assert (b ∈ [i] ++ set_bits cpumask (i + 1) n <-> b ∈ set_bits cpumask (i + 1) n) as Hiff by set_solver. rewrite (bool_decide_ext _ _ Hiff).
    split; [done|]. split; [intros Hin; apply H1; by apply Hiff|intros Hno; apply H2; by rewrite <- Hiff].
Qed.

Lemma create_cpus_spec boot hws : forall i s,
  create_cpus i boot hws s = Ret tt (put_cpus (cpus s ++ omap (fun p => if fst p =? boot then None else Some (snd p)) (zip (seqZ i (zlen hws)) hws)) s).
Proof.
  induction hws as [|hw hws IH]; intros i s; cbn [create_cpus].
  { simpl. rewrite app_nil_r. by destruct s. }
  rewrite zlen_cons. rewrite seqZ_cons by (pose proof (zlen_nonneg hws); lia). replace (Z.pred (zlen hws + 1)) with (zlen hws) by lia. replace (Z.succ i) with (i + 1) by lia.
  cbn [zip zip_with omap list_omap fst snd]. unfold bind. destruct (i =? boot); cbn [negb]; unfold ret, cpu_create, modify; rewrite IH; [done|]. simpl. by rewrite <- app_assoc.
Qed.

Definition but (b : Z) (l : list Z) : list Z := List.filter (fun x => negb (x =? b)) l.

Lemma omap_but boot b hws : forall i, (forall j hw, zlookup hws j = Some hw -> (i + j =? boot) = (hw =? b)) ->
  omap (fun p => if fst p =? boot then None else Some (snd p)) (zip (seqZ i (zlen hws)) hws) = but b hws.
Proof.
  induction hws as [|hw hws IH]; intros i Hb; [done|]. rewrite zlen_cons. rewrite seqZ_cons by (pose proof (zlen_nonneg hws); lia).
  replace (Z.pred (zlen hws + 1)) with (zlen hws) by lia. replace (Z.succ i) with (i + 1) by lia. cbn [zip zip_with omap list_omap fst snd but List.filter].
  pose proof (Hb 0 hw eq_refl) as H0. rewrite Z.add_0_r in H0. rewrite H0. fold (but b hws). rewrite <- (IH (i + 1)).
  - by destruct (hw =? b).
  - intros j x Hx. pose proof (zlookup_Some_range _ _ _ Hx). rewrite <- (Hb (j + 1)); [f_equal; lia|]. change (hw :: hws) with ([hw] ++ hws).
    rewrite zlookup_app_r by (change (zlen [hw]) with 1; lia). change (zlen [hw]) with 1. by replace (j + 1 - 1) with j by lia.
Qed.

(** Memory in the controller for the processor [hw]. *)
Definition cram (hw : Z) : Z := u32 (LB_BASEADDR + LB_CONTROLLER_SLOT * LB_SLOT_SIZE + u32 (u32 (LB_CTLCPU_OFFSET + hw * LB_CTLCPU_SIZE) + CTLCPU_CRAM)).

(** That memory keeps what is stored, and the two registers are constant. *)
Record cpu_hardware : Prop := {
  cram_store hw o a v w : 0 <= hw < 32 -> o = 0 \/ o = 4 -> is_u32 v ->
    bus_word (u32 (cram hw + o)) (bus_store a v w) = if a =? u32 (cram hw + o) then v else bus_word (u32 (cram hw + o)) w;
  cpus_const a v w : bus_word (ctl_addr CTLREG_CPUS) (bus_store a v w) = bus_word (ctl_addr CTLREG_CPUS) w;
  self_const a v w : bus_word (ctl_addr CTLREG_SELF) (bus_store a v w) = bus_word (ctl_addr CTLREG_SELF) w }.

Lemma cram_value hw o : 0 <= hw < 32 -> o = 0 \/ o = 4 -> u32 (cram hw + o) = LB_BASEADDR + LB_CONTROLLER_SLOT * LB_SLOT_SIZE + LB_CTLCPU_OFFSET + hw * LB_CTLCPU_SIZE + CTLCPU_CRAM + o.
Proof.
  intros Hhw Ho. unfold cram, LB_BASEADDR, LB_CONTROLLER_SLOT, LB_SLOT_SIZE, LB_CTLCPU_OFFSET, LB_CTLCPU_SIZE, CTLCPU_CRAM.
  rewrite (u32_small (32768 + hw * 1024)) by (unfold is_u32; lia). rewrite (u32_small (_ + 0x300)) by (unfold is_u32; lia).
  rewrite (u32_small (0xa0000000 + _ + _ + _)) by (unfold is_u32; lia). rewrite u32_small by (unfold is_u32; lia). lia.
Qed.

Lemma cram_apart hw hw' o o' : 0 <= hw < 32 -> 0 <= hw' < 32 -> o = 0 \/ o = 4 -> o' = 0 \/ o' = 4 ->
  u32 (cram hw + o) = u32 (cram hw' + o') -> hw = hw' /\ o = o'.
Proof. intros. rewrite !cram_value in * by done. unfold LB_CTLCPU_SIZE in *. lia. Qed.

Lemma poke_cpus_spec (Hhw : cpu_hardware) cpumask b entry n : 0 <= b -> is_u32 entry -> forall i num s, 0 <= i -> i + Z.of_nat n <= 32 -> 0 <= num -> num + Z.of_nat n < 2 ^ 32 ->
  exists w', poke_cpus n i cpumask (bit_mask b) num entry s = Ret tt (put_world w' s) /\
    (forall k hw, zlookup (but b (set_bits cpumask i n)) k = Some hw -> bus_word (u32 (cram hw + 0)) w' = entry /\ bus_word (u32 (cram hw + 4)) w' = num + k) /\
    (forall hw o, 0 <= hw < i -> o = 0 \/ o = 4 -> bus_word (u32 (cram hw + o)) w' = bus_word (u32 (cram hw + o)) (lb_world s)).
Proof.
  intros Hb Hentry. induction n as [|n IH]; intros i num s Hi Hn Hnum Hsmall.
  { exists (lb_world s). split; [by destruct s|]. split; [|done]. intros k hw Hk. change (but b (set_bits cpumask i 0)) with (@nil Z) in Hk. apply zlookup_Some_range in Hk. change (zlen (@nil Z)) with 0 in Hk. lia. }
  rewrite set_bits_S. cbn [poke_cpus]. rewrite !land_mask_zero, bit_mask_spec, !negb_involutive by lia. specialize (IH (i + 1)).
  assert (forall num' s', (exists w', poke_cpus n (i + 1) cpumask (bit_mask b) num' entry s' = Ret tt (put_world w' s') /\
      (forall k hw, zlookup (but b (set_bits cpumask (i + 1) n)) k = Some hw -> bus_word (u32 (cram hw + 0)) w' = entry /\ bus_word (u32 (cram hw + 4)) w' = num' + k) /\
      (forall hw o, 0 <= hw < i -> o = 0 \/ o = 4 -> bus_word (u32 (cram hw + o)) w' = bus_word (u32 (cram hw + o)) (lb_world s')) /\
      (forall o, o = 0 \/ o = 4 -> bus_word (u32 (cram i + o)) w' = bus_word (u32 (cram i + o)) (lb_world s'))) \/ ~ (0 <= num' /\ num' + Z.of_nat n < 2 ^ 32)) as Hnext.
  { intros num' s'. destruct (decide (0 <= num' /\ num' + Z.of_nat n < 2 ^ 32)) as [Hr|]; [left|by right]. destruct (IH num' s') as (w' & E & H1 & H2); try lia.
    exists w'. split_and!; [done|done|intros hw o Hh; apply H2; lia|intros o; apply H2; lia]. }
  assert (but b ((if Z.testbit cpumask i then [i] else []) ++ set_bits cpumask (i + 1) n) =
    (if Z.testbit cpumask i && negb (i =? b) then [i] else []) ++ but b (set_bits cpumask (i + 1) n)) as ->.
  { unfold but. rewrite List.filter_app. destruct (Z.testbit cpumask i); simpl; [by destruct (i =? b)|done]. }
  destruct (Z.testbit cpumask i); cbn [andb app].
  2: { destruct (Hnext num s) as [(w' & E & H1 & H2 & _)|]; [|lia]. by exists w'. }
  destruct (decide (i = b)) as [->|Hne].
  { rewrite bool_decide_true, Z.eqb_refl by done. cbn [negb app]. destruct (Hnext num s) as [(w' & E & H1 & H2 & _)|]; [|lia]. by exists w'. }
  rewrite bool_decide_false by done. rewrite (proj2 (Z.eqb_neq i b)) by done. cbn [negb app]. unfold lamebus_map_area, bind at 1 2, KASSERT, ret.
  set (w1 := bus_store (u32 (cram i + 4)) num (bus_store (cram i) entry (lb_world s))).
  assert (forall hw o, 0 <= hw < 32 -> o = 0 \/ o = 4 -> bus_word (u32 (cram hw + o)) w1 =
    if hw =? i then if o =? 4 then num else entry else bus_word (u32 (cram hw + o)) (lb_world s)) as Hw1.
  { intros hw o Hhw' Ho. unfold w1. replace (cram i) with (u32 (cram i + 0)) at 2 by (rewrite Z.add_0_r; apply u32_small, u32_range).
    rewrite !(cram_store Hhw) by (done || unfold is_u32; lia).
    destruct (Z.eqb_spec (u32 (cram i + 4)) (u32 (cram hw + o))) as [Ea|Ea]; [apply cram_apart in Ea as [-> <-]; try lia; by rewrite Z.eqb_refl|].
    destruct (Z.eqb_spec (u32 (cram i + 0)) (u32 (cram hw + o))) as [Ea'|Ea']; [apply cram_apart in Ea' as [-> <-]; try lia; by rewrite Z.eqb_refl|].
    destruct (Z.eqb_spec hw i) as [->|]; [|done]. destruct Ho as [-> | ->]; [by destruct Ea'|by destruct Ea]. }
  destruct (Hnext (num + 1) (put_world w1 s)) as [(w' & E & H1 & H2 & H3)|]; [|lia]. exists w'. split_and!.
  - replace (num + 1) with (u32 (num + 1)) in E by (apply u32_small; unfold is_u32; lia). exact E.
  - intros k hw Hk. destruct (decide (k = 0)) as [->|Hk0].
    + injection Hk as <-. rewrite (Z.add_0_r num), !H3 by auto. cbn [lb_world put_world]. rewrite !Hw1 by (auto || lia). by rewrite Z.eqb_refl.
    + pose proof (zlookup_Some_range _ _ _ Hk) as Hr. change (i :: but b (set_bits cpumask (i + 1) n)) with ([i] ++ but b (set_bits cpumask (i + 1) n)) in Hk.
      rewrite zlookup_app_r in Hk by (change (zlen [i]) with 1; lia). change (zlen [i]) with 1 in Hk. destruct (H1 _ _ Hk) as [-> ->]. split; [done|lia].
  - intros hw o Hhw' Ho. rewrite H2 by done. cbn [lb_world put_world]. rewrite Hw1 by (done || lia). by rewrite (proj2 (Z.eqb_neq hw i)) by lia.
Qed.

Lemma zlookup_nodup (l : list Z) i j x : NoDup l -> zlookup l i = Some x -> zlookup l j = Some x -> i = j.
Proof.
  intros Hnd Hi Hj. pose proof (zlookup_Some_range _ _ _ Hi). pose proof (zlookup_Some_range _ _ _ Hj). unfold zlookup in *.
  rewrite bool_decide_true in Hi, Hj by lia. pose proof (proj1 (NoDup_alt l) Hnd _ _ _ Hi Hj). lia.
Qed.

Lemma zlookup_in (l : list Z) i x : zlookup l i = Some x -> x ∈ l.
Proof. unfold zlookup. case_bool_decide; [|done]. apply list_elem_of_lookup_2. Qed.

Lemma but_elem b l x : x ∈ but b l <-> x ∈ l /\ x <> b.
Proof. unfold but. rewrite !list_elem_of_In, filter_In, negb_true_iff, Z.eqb_neq. done. Qed.
Lemma but_nodup b l : NoDup l -> NoDup (but b l).
Proof. intros H. unfold but. by apply NoDup_ListNoDup, List.NoDup_filter, NoDup_ListNoDup. Qed.

Lemma route_spec boot hws : forall i s, exists w', route_irqs i boot hws s = Ret tt (put_world w' s) /\
  ((forall a v w, bus_word (ctl_addr CTLREG_CPUS) (bus_store a v w) = bus_word (ctl_addr CTLREG_CPUS) w) ->
   (forall a v w, bus_word (ctl_addr CTLREG_SELF) (bus_store a v w) = bus_word (ctl_addr CTLREG_SELF) w) ->
   bus_word (ctl_addr CTLREG_CPUS) w' = bus_word (ctl_addr CTLREG_CPUS) (lb_world s) /\ bus_word (ctl_addr CTLREG_SELF) w' = bus_word (ctl_addr CTLREG_SELF) (lb_world s)).
Proof.
  induction hws as [|hw hws IH]; intros i s; cbn [route_irqs]; [exists (lb_world s); split; [by destruct s|done]|].
  set (val := if negb (i =? boot) then 0 else 0xffffffff). set (a := u32 (LB_BASEADDR + LB_CONTROLLER_SLOT * LB_SLOT_SIZE + u32 (CTLCPU_CIRQE + LB_CTLCPU_OFFSET + hw * LB_CTLCPU_SIZE))).
  destruct (IH (i + 1) (put_world (bus_store a val (lb_world s)) s)) as (w' & E & Hc). exists w'. split.
  - rewrite (bind_Ret _ _ _ tt (put_world (bus_store a val (lb_world s)) s)) by done. exact E.
  - intros H1 H2. destruct (Hc H1 H2) as [-> ->]. cbn [lb_world put_world]. by rewrite H1, H2.
Qed.

Lemma find_cpus_spec s b h (Hhw : cpu_hardware) : 0 <= b -> cpus s = [h] -> bus_word (ctl_addr CTLREG_SELF) (lb_world s) = bit_mask b ->
  let l := set_bits (bus_word (ctl_addr CTLREG_CPUS) (lb_world s)) 0 32 in b ∈ l ->
  exists w, lamebus_find_cpus s = Ret tt (put_world w (put_cpus (b :: but b l) s)) /\
    bus_word (ctl_addr CTLREG_CPUS) w = bus_word (ctl_addr CTLREG_CPUS) (lb_world s) /\ bus_word (ctl_addr CTLREG_SELF) w = bus_word (ctl_addr CTLREG_SELF) (lb_world s).
Proof.
  intros Hb Hs Hself l Hbl. destruct (count_cpus_spec (bus_word (ctl_addr CTLREG_CPUS) (lb_world s)) b 32 Hb 0 0 [] s ltac:(lia)) as (j & E & Hj & _). specialize (Hj Hbl).
  pose proof (set_bits_nodup (bus_word (ctl_addr CTLREG_CPUS) (lb_world s)) 0 32) as Hnd. rewrite bool_decide_true in E by done.
  unfold lamebus_find_cpus. rewrite (bind_Ret _ _ _ _ _ (read_ctl_eq CTLREG_CPUS s)), (bind_Ret _ _ _ _ _ (read_ctl_eq CTLREG_SELF s)), Hself, (bind_Ret _ _ _ _ _ E).
  clear E. fold l in Hj, Hnd |- *. clearbody l. cbn [fst snd app] in *.
  assert (omap (fun p => if fst p =? j then None else Some (snd p)) (zip (seqZ 0 (zlen l)) l) = but b l) as Homap.
  { apply omap_but. intros j' hw Hhw'. rewrite Z.add_0_l. apply eq_true_iff_eq. rewrite !Z.eqb_eq. split; [intros ->; congruence|intros ->]. by eapply zlookup_nodup. }
  destruct (route_spec j l 0 (put_cpus (b :: but b l) s)) as (w2 & E2 & Hc2). destruct (Hc2 (cpus_const Hhw) (self_const Hhw)) as [Hc Hs2].
  exists w2. rewrite (bind_Ret _ _ _ tt (put_cpus (b :: but b l) s)); [split_and!; [exact E2|exact Hc|by rewrite <- Hself]|]. rewrite create_cpus_spec, Homap. cbn [cpus put_cpus]. by rewrite Hs.
Qed.

Lemma start_cpus_spec s b entry (Hhw : cpu_hardware) : 0 <= b -> is_u32 entry -> bus_word (ctl_addr CTLREG_SELF) (lb_world s) = bit_mask b ->
  let m := bus_word (ctl_addr CTLREG_CPUS) (lb_world s) in
  exists w, lamebus_start_cpus entry s = Ret tt (put_world w s) /\
    forall k hw, zlookup (but b (set_bits m 0 32)) k = Some hw -> 0 <= hw < 32 -> bus_word (cram hw) w = entry /\ bus_word (u32 (cram hw + 4)) w = 1 + k.
Proof.
  intros Hb Hentry Hself m. destruct (poke_cpus_spec Hhw m b entry 32 Hb Hentry 0 1 s) as (w3 & E3 & H3 & _); [lia|lia|lia|lia|].
  exists (bus_store (ctl_addr CTLREG_CPUE) m w3). split.
  - unfold lamebus_start_cpus. rewrite (bind_Ret _ _ _ _ _ (read_ctl_eq CTLREG_CPUS s)), (bind_Ret _ _ _ _ _ (read_ctl_eq CTLREG_SELF s)), Hself. unfold m in E3. rewrite (bind_Ret _ _ _ _ _ E3). done.
  - intros k hw Hk Hr. destruct (H3 _ _ Hk) as [A1 A2]. clear H3 E3 Hk.
    assert (forall o, o = 0 \/ o = 4 -> (ctl_addr CTLREG_CPUE =? u32 (cram hw + o)) = false) as Hne.
    { intros o Ho. apply Z.eqb_neq. rewrite cram_value by done. unfold LB_BASEADDR, LB_CONTROLLER_SLOT, LB_SLOT_SIZE, LB_CTLCPU_OFFSET, LB_CTLCPU_SIZE, CTLCPU_CRAM.
      change (ctl_addr CTLREG_CPUE) with 0xbfff7e14. lia. }
    assert (cram hw = u32 (cram hw + 0)) as E0 by (rewrite Z.add_0_r; symmetry; apply u32_small, u32_range).
    rewrite E0 at 1. rewrite !(cram_store Hhw) by (done || auto || apply bus_word_u32). by rewrite !Hne by auto.
Qed.

(** The processors are found and started: the boot processor is number 0 and
    knows its hardware number, every processor of the machine is listed once,
    and the one with number [n] is started with that number, at [entry]. *)
Theorem cpus_agree (s : lamebus_softc) (b h entry : Z) (Hhw : cpu_hardware) (Hb : 0 <= b < 32) (Hentry : is_u32 entry) (Hs : cpus s = [h])
    (Hself : bus_word (ctl_addr CTLREG_SELF) (lb_world s) = bit_mask b) (Hin : Z.testbit (bus_word (ctl_addr CTLREG_CPUS) (lb_world s)) b = true) :
  returns ((lamebus_find_cpus ;; lamebus_start_cpus entry) s) (fun _ s' =>
    zlookup (cpus s') 0 = Some b /\ NoDup (cpus s') /\
    (forall hw, hw ∈ cpus s' <-> 0 <= hw < 32 /\ Z.testbit (bus_word (ctl_addr CTLREG_CPUS) (lb_world s)) hw = true) /\
    forall n hw, 0 < n -> zlookup (cpus s') n = Some hw ->
      bus_word (cram hw) (lb_world s') = entry /\ bus_word (u32 (cram hw + 4)) (lb_world s') = n).
Proof.
  pose proof (find_cpus_spec s b h Hhw (proj1 Hb) Hs Hself) as Hfind. pose proof (set_bits_nodup (bus_word (ctl_addr CTLREG_CPUS) (lb_world s)) 0 32) as Hnd.
  assert (forall x, x ∈ set_bits (bus_word (ctl_addr CTLREG_CPUS) (lb_world s)) 0 32 <-> 0 <= x < 32 /\ Z.testbit (bus_word (ctl_addr CTLREG_CPUS) (lb_world s)) x = true) as Hl
    by (intros x; rewrite set_bits_elem; done).
  destruct Hfind as (w & E & Ec & Es); [by apply Hl|]. unfold bind. rewrite E. clear E.
  destruct (start_cpus_spec (put_world w (put_cpus (b :: but b (set_bits (bus_word (ctl_addr CTLREG_CPUS) (lb_world s)) 0 32)) s)) b entry Hhw (proj1 Hb) Hentry) as (w' & E & Hw);
    [cbn [lb_world put_world]; by rewrite Es|]. rewrite E. clear E. cbn [returns runs cpus put_world put_cpus lb_world] in *. rewrite Ec in Hw.
  generalize dependent (set_bits (bus_word (ctl_addr CTLREG_CPUS) (lb_world s)) 0 32). intros l Hnd Hl Hw. split_and!.
  - done.
  - apply NoDup_cons. split; [rewrite but_elem; naive_solver|by apply but_nodup].
  - intros hw. rewrite <- Hl, elem_of_cons, but_elem. assert (b ∈ l) by (by apply Hl). split; [by intros [-> |[? _]]|]. destruct (decide (hw = b)); by auto.
  - intros n hw Hn Hk. change (b :: but b l) with ([b] ++ but b l) in Hk. pose proof (zlookup_Some_range _ _ _ Hk). rewrite zlookup_app_r in Hk by (change (zlen [b]) with 1; lia).
    change (zlen [b]) with 1 in Hk. assert (hw ∈ l) as Hhl by (apply (but_elem b); by eapply zlookup_in). apply Hl in Hhl as [Hr _]. destruct (Hw _ _ Hk Hr) as [-> ->]. split; [done|lia].
Qed.
End Bus.

(** ** Example *)

(** A machine that is memory but for the two registers; the handler [f] ends the interrupt of slot
    [f].  Processors 1 and 3 are there, and 3 is the boot processor; a disk is in
    slot 2, and slots 2 and 5 signal interrupts. *)
#[local] Abbreviation words := (gmap Z Z).
#[local, refine] Instance words_machine : LbMachine words := {
  bus_word a w := u32 (default 0 (w !! a));
  bus_store a v w := if (a =? ctl_addr CTLREG_CPUS) || (a =? ctl_addr CTLREG_SELF) then w else <[a := v]> w;
  irq_handler f d := modify (fun w => <[ctl_addr CTLREG_IRQS := Z.land (u32 (default 0 (w !! ctl_addr CTLREG_IRQS))) (Z.lnot (bit_mask f))]> w) }.
Proof. intros a w. apply u32_range. Defined.

Definition ex_words : words :=
  {[ ctl_addr CTLREG_CPUS := 10; ctl_addr CTLREG_SELF := 8; ctl_addr CTLREG_IRQS := 36; cfg_addr 2 CFGREG_VID := 1; cfg_addr 2 CFGREG_DID := 3 ]}.
Definition ex_bus : lamebus_softc := after (lamebus_attach_interrupt 2 (Some 7) (Some 2)) (after (lamebus_mark 2) (lamebus_init ex_words)).

Lemma ex_bus_wf : lb_wf ex_bus.
Proof. by split; vm_compute. Qed.

Lemma ex_handlers : handlers_return (W := words).
Proof. intros f d w. by eexists. Qed.

Lemma ex_served : well_served ex_bus.
Proof.
  intros slot f d w Hs Hf Hd. assert (ls_irqfuncs ex_bus = zinsert (zrep LB_NSLOTS None) 2 (Some 2)) as E by (by vm_compute). rewrite E in Hf.
  destruct (decide (slot = 2)) as [->|Hne].
  - rewrite zlookup_zinsert_eq in Hf by done. injection Hf as <-.
    exists (<[ctl_addr CTLREG_IRQS := Z.land (u32 (default 0 (w !! ctl_addr CTLREG_IRQS))) (Z.lnot (bit_mask 2))]> w). split; [done|].
    unfold irqs_of. cbn [bus_word words_machine]. rewrite lookup_insert_eq.
    apply u32_small. destruct (inuse_set (u32 (default 0 (w !! ctl_addr CTLREG_IRQS))) 2 (u32_range _)) as [_ H]; [done|exact H].
  - rewrite zlookup_zinsert_ne in Hf by done. rewrite zlookup_zrep in Hf by (unfold LB_NSLOTS in *; lia). done.
Qed.

Lemma ex_hardware : cpu_hardware (W := words).
Proof.
  split.
  - intros hw o a v w Hhw Ho Hv. cbn [bus_word bus_store words_machine].
    assert (forall x, x = ctl_addr CTLREG_CPUS \/ x = ctl_addr CTLREG_SELF -> x <> u32 (cram hw + o)) as Hne.
    { intros x Hx. rewrite cram_value by done. unfold LB_BASEADDR, LB_CONTROLLER_SLOT, LB_SLOT_SIZE, LB_CTLCPU_OFFSET, LB_CTLCPU_SIZE, CTLCPU_CRAM.
      change (ctl_addr CTLREG_CPUS) with 0xbfff7e10 in Hx. change (ctl_addr CTLREG_SELF) with 0xbfff7e18 in Hx. lia. }
    destruct (_ || _) eqn:E.
    + assert (a <> u32 (cram hw + o)) as Ha by (apply Hne; apply orb_true_iff in E as [?%Z.eqb_eq|?%Z.eqb_eq]; auto). by rewrite (proj2 (Z.eqb_neq _ _) Ha).
    + destruct (Z.eqb_spec a (u32 (cram hw + o))) as [->|Ha]; [rewrite lookup_insert_eq; by apply u32_small|by rewrite lookup_insert_ne].
  - intros a v w. cbn [bus_word bus_store words_machine]. destruct (_ || _) eqn:E; [done|]. apply orb_false_iff in E as [E _]. apply Z.eqb_neq in E. by rewrite lookup_insert_ne.
  - intros a v w. cbn [bus_word bus_store words_machine]. destruct (_ || _) eqn:E; [done|]. apply orb_false_iff in E as [_ E]. apply Z.eqb_neq in E. by rewrite lookup_insert_ne.
Qed.

Lemma lamebus_interrupt_exact_witness :
  lamebus_interrupt ex_bus = Ret tt (put_duds 1 (put_world (served ex_bus) ex_bus)) /\
  forall slot, 0 <= slot < LB_NSLOTS -> Z.testbit (irqs_of (served ex_bus)) slot = Z.testbit (irqs_of (lb_world ex_bus)) slot && negb (driven ex_bus slot).
Proof.
  destruct (lamebus_interrupt_exact ex_bus ex_bus_wf ex_served) as [E H]. split; [|exact H]. rewrite E.
  assert (new_duds ex_bus = 1) as -> by (by vm_compute). assert (duds ex_bus = 0) as -> by (by vm_compute). done.
Defined.

Lemma lamebus_types_witness : typed (lb_exec (LDetach 2) ex_bus) (fun _ s' => lb_wf s').
Proof. exact (lamebus_types (LDetach 2) ex_bus ex_bus_wf ex_handlers). Defined.

Lemma cpus_agree_witness :
  returns ((lamebus_find_cpus ;; lamebus_start_cpus 0x80001000) (lamebus_init ex_words)) (fun _ s' =>
    zlookup (cpus s') 0 = Some 3 /\ NoDup (cpus s') /\
    (forall hw, hw ∈ cpus s' <-> 0 <= hw < 32 /\ Z.testbit (bus_word (ctl_addr CTLREG_CPUS) (lb_world (lamebus_init ex_words))) hw = true) /\
    forall n hw, 0 < n -> zlookup (cpus s') n = Some hw ->
      bus_word (cram hw) (lb_world s') = 0x80001000 /\ bus_word (u32 (cram hw + 4)) (lb_world s') = n).
Proof.
  refine (cpus_agree (lamebus_init ex_words) 3 0 0x80001000 ex_hardware _ _ eq_refl _ _); by vm_compute.
Defined.
End Lamebus.
