(* ===== verification/Trap.v ===== *)
(** * Traps: src/arch/mips/locore/trap.c, and [mainbus_interrupt] of
      src/arch/sys161/dev/lamebus_machdep.c

    [Trap] models what the kernel does with an exception: interrupts go to the
    bus, the clock or the other processors, system calls to [syscall], TLB
    misses to [vm_fault], and what is left kills the process, or resumes a
    user copy at its error exit.  The assembly code that saves and restores
    registers is not modelled: a trap begins with a trap frame and interrupts
    off, and ends with the frame that is restored. *)

From stdpp Require Import gmultiset.
From S2P Require Import Prelude Spl Kmalloc Dumbvm DumbvmThm Copyinout Uio Vfs DevVnode VfsThm FileTable Runprogram LoadElf Proc ProcThm Lamebus.
Import Ram Dumbvm DumbvmThm Vfs FileTable Proc ProcThm Lamebus.

Module Trap.

Definition EX_IRQ : Z := 0.
Definition EX_MOD : Z := 1.
Definition EX_TLBL : Z := 2.
Definition EX_TLBS : Z := 3.
Definition EX_IBE : Z := 6.
Definition EX_DBE : Z := 7.
Definition EX_SYS : Z := 8.
Definition NTRAPCODES : Z := 13.
Definition CCA_CODE : Z := 0x3c.
Definition CCA_CODESHIFT : Z := 2.
Definition CST_IEp : Z := 4.
Definition CST_KUp : Z := 8.
Definition CST_IRQMASK : Z := 0xff00.
Definition STACK_SIZE : Z := 4096.
Definition STACK_MASK : Z := 0xfffff000.
Definition SAME_STACK (p1 p2 : Z) : bool := Z.land p1 STACK_MASK =? Z.land p2 STACK_MASK.
Definition LAMEBUS_IRQ_BIT : Z := 0x400.
Definition LAMEBUS_IPI_BIT : Z := 0x800.
Definition CPU_FREQUENCY : Z := 25000000.
Definition HZ : Z := 100.
Definition MIPS_TIMER_BIT : Z := 0x8000.

(** The rest of [struct trapframe]. *)
Record frame := mkFrame { fr_vaddr : Z; fr_status : Z; fr_cause : Z; fr_tf : trapframe }.
Definition put_tf (x : trapframe) (f : frame) := mkFrame (fr_vaddr f) (fr_status f) (fr_cause f) x.
Definition set_epc (x : Z) (f : frame) : frame :=
  let t := fr_tf f in put_tf (mkTf (tf_v0 t) (tf_a0 t) (tf_a1 t) (tf_a2 t) (tf_a3 t) (tf_sp t) x (tf_others t)) f.

Section Trap.
Context {F : Type} `{!FileSystems F} `{!FileIO F} {W : Type} `{!LbMachine W}.

(** The kernel, the bus, and of the current thread: whether it handles an
    interrupt and the error exit of its user copy; the kernel stacks, and the
    processor's entries of [cputhreads] and [cpustacks]. *)
Record machine := mkMachine {
  m_kernel : kernel (F := F); m_bus : lamebus_softc (W := W);
  t_in_interrupt : bool; tm_badfaultfunc : option Z; t_stacks : gmap Z Z; cputhread : Z; cpustack : Z }.

Definition put_kernel (x : kernel) (m : machine) := mkMachine x (m_bus m) (t_in_interrupt m) (tm_badfaultfunc m) (t_stacks m) (cputhread m) (cpustack m).
Definition put_bus (x : lamebus_softc) (m : machine) := mkMachine (m_kernel m) x (t_in_interrupt m) (tm_badfaultfunc m) (t_stacks m) (cputhread m) (cpustack m).
Definition put_in_interrupt (x : bool) (m : machine) := mkMachine (m_kernel m) (m_bus m) x (tm_badfaultfunc m) (t_stacks m) (cputhread m) (cpustack m).
Definition put_cpu (t s : Z) (m : machine) := mkMachine (m_kernel m) (m_bus m) (t_in_interrupt m) (tm_badfaultfunc m) (t_stacks m) t s.

(** The scheduler's two handlers ([Sched.hardclock] and
    [Sched.interprocessor_interrupt], which are about the scheduler's state). *)
Context (hardclock interprocessor_interrupt : M machine unit).
(** The instruction that sets the on-chip timer. *)
Context (mips_timer_set : Z -> M machine unit).

Definition on_kernel {A} (x : M kernel A) : M machine A := zoom m_kernel put_kernel x.
Definition on_bus {A} (x : M lamebus_softc A) : M machine A := zoom m_bus put_bus x.

(** The recorded level and the processor's. *)
Definition level (m : machine) : Spl.ipl := vm_ipl (k_vm (m_kernel m)).
Definition put_level (i : Spl.ipl) (m : machine) : machine := put_kernel (put_vm (put_ipl i (k_vm (m_kernel m))) (m_kernel m)) m.
Definition cpu_irqoff : M machine unit := modify (fun m => put_level (Spl.set_irq false (level m)) m).

(** [cpu] is the number of the processor. *)
Definition mainbus_interrupt (cpu cause : Z) : M machine unit :=
  let* m := get in
  KASSERT (0 <? Spl.t_curspl (level m)) ;;
  if negb (Z.land cause LAMEBUS_IRQ_BIT =? 0) then on_bus lamebus_interrupt
  else if negb (Z.land cause LAMEBUS_IPI_BIT =? 0) then
    interprocessor_interrupt ;; on_bus (lamebus_clear_ipi cpu)
  else if negb (Z.land cause MIPS_TIMER_BIT =? 0) then
    mips_timer_set (CPU_FREQUENCY / HZ) ;; hardclock
  else panic.

(** It panics in every case; the signal is only printed. *)
Definition kill_curthread (code : Z) : M machine unit := KASSERT (code <? NTRAPCODES) ;; panic.

Definition irq_trap (cpu cause : Z) : M machine unit :=
  let* m := get in
  let old_in := t_in_interrupt m in
  modify (put_in_interrupt true) ;;
  let* doadjust :=
    (if Spl.t_curspl (level m) =? 0 then
       KASSERT (Spl.t_curspl (level m) =? 0) ;;
       KASSERT (Spl.t_iplhigh_count (level m) =? 0) ;;
       modify (fun m => put_level (Spl.set_iplhigh_count (Spl.t_iplhigh_count (level m) + 1) (Spl.set_curspl Spl.IPL_HIGH (level m))) m) ;;
       ret true
     else ret false) in
  mainbus_interrupt cpu cause ;;
  (if* doadjust then
     let* m := get in
     KASSERT (Spl.t_curspl (level m) =? Spl.IPL_HIGH) ;;
     KASSERT (Spl.t_iplhigh_count (level m) =? 1) ;;
     modify (fun m => put_level (Spl.set_curspl 0 (Spl.set_iplhigh_count (Spl.t_iplhigh_count (level m) - 1) (level m))) m)) ;;
  modify (put_in_interrupt old_in).

(** [curproc]'s address space, for [vm_fault]. *)
Definition cur_space (k : kernel (F := F)) : option (option addrspace) :=
  match cur k with
  | None => None
  | Some p => Some (match procs k !! p with Some x => p_addrspace x | None => None end)
  end.

(** [true]: the fault was served. *)
Definition fault (ft : fault_type) (vaddr : Z) : M machine bool :=
  let* m := get in
  let* r := try (on_kernel (on_vm (vm_fault (cur_space (m_kernel m)) ft vaddr))) in
  ret (match r with inl _ => true | inr _ => false end).

(** The stack pointers for the next trap ("done2"); [tf] is the frame's address. *)
Definition return_stacks (tf : Z) : M machine unit :=
  let* m := get in
  match t_stacks m !! curthread (m_kernel m) with
  | None => ret tt
  | Some stack =>
      modify (put_cpu (curthread (m_kernel m)) (stack + STACK_SIZE)) ;;
      let* m := get in
      KASSERT (SAME_STACK (cpustack m - 1) tf)
  end.

Definition mips_trap (cpu : Z) (now : Z * Z) (tf : Z) (f : frame) : M machine frame :=
  let code := Z.shiftr (Z.land (fr_cause f) CCA_CODE) CCA_CODESHIFT in
  let iskern := Z.land (fr_status f) CST_KUp =? 0 in
  KASSERT (code <? NTRAPCODES) ;;
  let* m := get in
  match t_stacks m !! curthread (m_kernel m) with
  | None => ret tt
  | Some stack => KASSERT (stack <? tf) ;; KASSERT (tf <? stack + STACK_SIZE)
  end ;;
  if code =? EX_IRQ then irq_trap cpu (fr_cause f) ;; return_stacks tf ;; ret f
  else
    let* spl := on_kernel (on_vm Dumbvm.splhigh) in
    let* _ := on_kernel (on_vm (Dumbvm.splx spl)) in
    let* m := get in
    let done (f : frame) := cpu_irqoff ;; return_stacks tf ;; ret f in
    if code =? EX_SYS then
      KASSERT (Spl.t_curspl (level m) =? 0) ;;
      KASSERT (Spl.t_iplhigh_count (level m) =? 0) ;;
      let* t := on_kernel (syscall now (fr_tf f)) in
      done (put_tf t f)
    else
      let* served :=
        (if code =? EX_MOD then fault VM_FAULT_READONLY (fr_vaddr f)
         else if code =? EX_TLBL then fault VM_FAULT_READ (fr_vaddr f)
         else if code =? EX_TLBS then fault VM_FAULT_WRITE (fr_vaddr f)
         else if (code =? EX_IBE) || (code =? EX_DBE) then panic
         else ret false) in
      if served then done f
      else if negb iskern then kill_curthread code ;; done f
      else
        let* m := get in
        match tm_badfaultfunc m with
        | Some g => done (set_epc g f)
        | None => panic
        end.

(** What is restored when the thread enters user mode. *)
Definition mips_usermode (tf : Z) (f : frame) : M machine frame :=
  let* _ := on_kernel (on_vm (zoom vm_ipl put_ipl (Spl.spl0 mycpu))) in
  cpu_irqoff ;;
  let* m := get in
  let stack := default 0 (t_stacks m !! curthread (m_kernel m)) in
  modify (put_cpu (curthread (m_kernel m)) (stack + STACK_SIZE)) ;;
  let* m := get in
  KASSERT (SAME_STACK (cpustack m - 1) tf) ;;
  ret f.

Definition enter_new_process (tf argc argv stack entry : Z) : M machine frame :=
  mips_usermode tf (mkFrame 0 (Z.lor (Z.lor CST_IRQMASK CST_IEp) CST_KUp) 0 (mkTf 0 argc argv 0 0 stack entry [])).

(** ** TLB misses *)

Definition put_tlb_of (t : list (Z * Z)) (m : machine) : machine := put_kernel (put_vm (put_tlb t (k_vm (m_kernel m))) (m_kernel m)) m.

(** A trap of a thread on its kernel stack, taken with interrupts on. *)
Record trapped (m : machine) (tf stack : Z) : Prop := {
  tr_level : level m = Spl.mkIpl 0 0 false;
  tr_stack : t_stacks m !! curthread (m_kernel m) = Some stack;
  tr_aligned : 0 < stack /\ stack + STACK_SIZE <= 2 ^ 32 /\ stack mod STACK_SIZE = 0;
  tr_frame : stack < tf < stack + STACK_SIZE }.

Lemma same_stack stack tf : 0 < stack /\ stack + STACK_SIZE <= 2 ^ 32 /\ stack mod STACK_SIZE = 0 -> stack < tf < stack + STACK_SIZE -> SAME_STACK (stack + STACK_SIZE - 1) tf = true.
Proof.
  intros (H0 & H1 & H2) H3. unfold SAME_STACK. apply Z.eqb_eq. change STACK_MASK with PAGE_FRAME. unfold STACK_SIZE in *. rewrite !land_frame by (unfold is_u32; lia). unfold PAGE_SIZE. dlia.
Qed.

(** The end of a trap. *)
Lemma done_spec m tf stack i (f : frame) : t_stacks m !! curthread (m_kernel m) = Some stack ->
  0 < stack /\ stack + STACK_SIZE <= 2 ^ 32 /\ stack mod STACK_SIZE = 0 -> stack < tf < stack + STACK_SIZE -> Spl.set_irq false (level m) = i ->
  (cpu_irqoff ;; return_stacks tf ;; ret f) m = Ret f (put_cpu (curthread (m_kernel m)) (stack + STACK_SIZE) (put_level i m)).
Proof.
  intros Hst Hal Htf <-. rewrite (bind_Ret _ _ _ tt (put_level (Spl.set_irq false (level m)) m)) by done. set (m1 := put_level _ m).
  rewrite (bind_Ret _ _ _ tt (put_cpu (curthread (m_kernel m)) (stack + STACK_SIZE) m1)); [done|].
  unfold return_stacks. rewrite (bind_Ret _ _ _ m1 m1) by done. change (t_stacks m1 !! curthread (m_kernel m1)) with (t_stacks m !! curthread (m_kernel m)). rewrite Hst.
  unfold bind, modify, get. cbn [cpustack put_cpu]. by rewrite same_stack.
Qed.

Lemma relevel m : level m = Spl.mkIpl 0 0 false ->
  exists s1, on_kernel (on_vm Dumbvm.splhigh) m = Ret 0 s1 /\ on_kernel (on_vm (Dumbvm.splx 0)) s1 = Ret 1 (put_level (Spl.mkIpl 0 0 true) m).
Proof.
  unfold level. intros Hl. exists (put_level (Spl.mkIpl 1 1 false) m). unfold on_kernel, on_vm, Dumbvm.splhigh, Dumbvm.splx, zoom. rewrite Hl. split; done.
Qed.

Lemma releveled m : level m = Spl.mkIpl 0 0 false -> put_level (Spl.mkIpl 0 0 false) (put_level (Spl.mkIpl 0 0 true) m) = m.
Proof. unfold level, put_level. intros Hl. destruct m as [[? [] ? ? ? ? ? ? ? ? ? ?] ? ? ? ? ? ?]. simpl in *. by subst. Qed.

Lemma leveled m (v' : vm) : level m = Spl.mkIpl 0 0 false -> v' = put_tlb (tlb v') (put_ipl (Spl.mkIpl 0 0 true) (k_vm (m_kernel m))) ->
  let m1 := put_level (Spl.mkIpl 0 0 true) m in put_level (Spl.mkIpl 0 0 false) (put_kernel (put_vm v' (m_kernel m1)) m1) = put_tlb_of (tlb v') m.
Proof. unfold level, put_level. intros Hl Ev. destruct m as [[? [] ? ? ? ? ? ? ? ? ? ?] ? ? ? ? ? ?], v'. simpl in *. injection Ev as -> -> -> ->. by subst. Qed.

Lemma releveled_bus m b : level m = Spl.mkIpl 0 0 false ->
  put_in_interrupt (t_in_interrupt m) (put_level (Spl.mkIpl 0 0 false) (put_bus b (put_level (Spl.mkIpl 1 1 false) (put_in_interrupt true m)))) = put_bus b m.
Proof. unfold level, put_level. intros Hl. destruct m as [[? [] ? ? ? ? ? ? ? ? ? ?] ? ? ? ? ? ?]. simpl in *. by subst. Qed.

(** C15. A TLB miss, from user mode or in a copy of the kernel's.  If the address is
    mapped and the TLB has a free entry, the access will go through when it is
    tried again: the TLB now has every byte of the page where the address
    space has it, and nothing else has changed.  If not, a fault in user mode
    panics the kernel; in the kernel, a user copy continues at its error exit
    with everything else unchanged, and any other code panics. *)
Theorem tlb_miss_exact (cpu : Z) (now : Z * Z) (tf stack : Z) (f : frame) (m : machine) (a : addrspace) (code : Z)
    (Hm : trapped m tf stack) (Hspace : cur_space (m_kernel m) = Some (Some a)) (Ha : as_ok a) (Ht : tlb_sound a (tlb (k_vm (m_kernel m))))
    (Hcode : Z.shiftr (Z.land (fr_cause f) CCA_CODE) CCA_CODESHIFT = code) (Hmiss : code = EX_TLBL \/ code = EX_TLBS)
    (Hva : is_u32 (fr_vaddr f)) (Hnone : user_ref (tlb (k_vm (m_kernel m))) (fr_vaddr f) = None) :
  let iskern := Z.land (fr_status f) CST_KUp =? 0 in
  let unserved := as_pa a (fr_vaddr f) = None \/ forall e, e ∈ tlb (k_vm (m_kernel m)) -> valid e in
  let returned := put_cpu (curthread (m_kernel m)) (stack + STACK_SIZE) in
  match mips_trap cpu now tf f m with
  | Ret f' m' =>
      (exists t, m' = returned (put_tlb_of t m) /\ f' = f /\ is_Some (as_pa a (fr_vaddr f)) /\ tlb_sound a t /\
         forall va, user_ref t va = if page_of va =? page_of (fr_vaddr f) then as_pa a va else user_ref (tlb (k_vm (m_kernel m))) va) \/
      (exists g, iskern = true /\ tm_badfaultfunc m = Some g /\ unserved /\ f' = set_epc g f /\ m' = returned m)
  | Err _ _ => False
  | Crash c => c = Panicked /\ unserved /\ (iskern = false \/ tm_badfaultfunc m = None)
  end.
Proof.
  destruct Hm as [Hlev Hst Hal Htf]. cbn zeta. unfold mips_trap. rewrite Hcode. destruct (relevel m Hlev) as (s1 & E1 & E2).
  rewrite (bind_Ret _ _ _ tt m) by (by destruct Hmiss as [-> | ->]). rewrite (bind_Ret _ _ _ m m) by done.
  rewrite (bind_Ret _ _ _ tt m). 2: { rewrite Hst. unfold bind, KASSERT. by rewrite (proj2 (Z.ltb_lt _ _)), (proj2 (Z.ltb_lt _ _)) by lia. }
  rewrite (proj2 (Z.eqb_neq code EX_IRQ)) by (by destruct Hmiss as [-> | ->]). rewrite (bind_Ret _ _ _ _ _ E1), (bind_Ret _ _ _ _ _ E2). clear E1 E2 s1.
  set (m1 := put_level (Spl.mkIpl 0 0 true) m). rewrite (bind_Ret _ _ _ m1 m1) by done. rewrite (proj2 (Z.eqb_neq code EX_SYS)) by (by destruct Hmiss as [-> | ->]).
  assert (exists ft, (ft = VM_FAULT_READ \/ ft = VM_FAULT_WRITE) /\ (if code =? EX_MOD then fault VM_FAULT_READONLY (fr_vaddr f)
         else if code =? EX_TLBL then fault VM_FAULT_READ (fr_vaddr f)
         else if code =? EX_TLBS then fault VM_FAULT_WRITE (fr_vaddr f)
         else if (code =? EX_IBE) || (code =? EX_DBE) then panic
         else ret false) = fault ft (fr_vaddr f)) as (ft & Hft & ->) by (destruct Hmiss as [-> | ->]; eexists; (split; [|done]); auto).
  pose proof (vm_fault_result a (k_vm (m_kernel m1)) ft (fr_vaddr f) 0 Ha Ht) as Hrun. cbn [k_vm m_kernel m1 put_level put_kernel put_vm vm_ipl put_ipl] in Hrun.
  specialize (Hrun ltac:(by apply Spl.ipl_ok_intro; auto) Hva Hft Hnone).
  unfold fault. unfold bind at 1. unfold bind at 1, get. unfold bind at 1, try, on_kernel, on_vm, zoom. change (cur_space (m_kernel m1)) with (cur_space (m_kernel m)). rewrite Hspace.
  change (k_vm (m_kernel m1)) with (put_ipl (Spl.mkIpl 0 0 true) (k_vm (m_kernel m))).
  destruct (vm_fault (Some (Some a)) ft (fr_vaddr f) (put_ipl (Spl.mkIpl 0 0 true) (k_vm (m_kernel m)))) as [[] v'|e v'|]; [| |done]; cbn [runs] in Hrun; unfold ret.
  - destruct Hrun as (Hsome & Ev & Hsound & Hall & _).
    pose proof (done_spec (put_kernel (put_vm v' (m_kernel m1)) m1) tf stack (Spl.mkIpl 0 0 false) f Hst Hal Htf) as Hd. unfold ret in Hd. rewrite Hd by (unfold level; cbn; by rewrite Ev).
    left. exists (tlb v'). split_and!; try done. cbn [m_kernel put_kernel curthread put_vm m1 put_level]. f_equal. by apply leveled.
  - destruct Hrun as (-> & -> & Hun).
    assert (forall f' : frame, (cpu_irqoff ;; return_stacks tf ;; ret f') m1 = Ret f' (put_cpu (curthread (m_kernel m)) (stack + STACK_SIZE) m)) as Hd.
    { intros f'. rewrite (done_spec m1 tf stack (Spl.mkIpl 0 0 false) f' Hst Hal Htf eq_refl). f_equal. f_equal. by apply releveled. }
    change (put_kernel (put_vm (put_ipl (Spl.mkIpl 0 0 true) (k_vm (m_kernel m))) (m_kernel m1)) m1) with m1. unfold ret in Hd.
    destruct (Z.land (fr_status f) CST_KUp =? 0) eqn:Ek; cbn [negb].
    + unfold bind at 1, get. change (tm_badfaultfunc m1) with (tm_badfaultfunc m). destruct (tm_badfaultfunc m) as [g|] eqn:Eg; [|exact (conj eq_refl (conj Hun (or_intror eq_refl)))]. rewrite Hd. right. by exists g.
    + unfold bind at 1, kill_curthread, bind at 1, KASSERT. destruct Hmiss as [-> | ->]; exact (conj eq_refl (conj Hun (or_introl eq_refl))).
Qed.

(** ** Interrupts *)

(** An interrupt of the bus, taken with interrupts on: the handlers run with
    the level raised, and afterwards everything but the bus and its devices is
    as it was, the level and the interrupted registers included; or the bus
    driver has panicked. *)
Theorem bus_interrupt_transparent (cpu : Z) (now : Z * Z) (tf stack : Z) (f : frame) (m : machine)
    (Hm : trapped m tf stack) (Hwf : lb_wf (m_bus m)) (Hret : handlers_return (W := W))
    (Hcode : Z.shiftr (Z.land (fr_cause f) CCA_CODE) CCA_CODESHIFT = EX_IRQ) (Hirq : Z.land (fr_cause f) LAMEBUS_IRQ_BIT <> 0) :
  mips_trap cpu now tf f m = Crash Panicked \/
  exists b, lamebus_interrupt (m_bus m) = Ret tt b /\ lb_wf b /\
    mips_trap cpu now tf f m = Ret f (put_cpu (curthread (m_kernel m)) (stack + STACK_SIZE) (put_bus b m)).
Proof.
  destruct Hm as [Hlev Hst Hal Htf]. pose proof (interrupt_typed _ Hwf Hret) as Hty. unfold mips_trap. rewrite Hcode.
  rewrite (bind_Ret _ _ _ tt m) by done. rewrite (bind_Ret _ _ _ m m) by done.
  rewrite (bind_Ret _ _ _ tt m). 2: { rewrite Hst. unfold bind, KASSERT. by rewrite (proj2 (Z.ltb_lt _ _)), (proj2 (Z.ltb_lt _ _)) by lia. }
  change (EX_IRQ =? EX_IRQ) with true. cbv iota. set (m1 := put_level (Spl.mkIpl 1 1 false) (put_in_interrupt true m)).
  assert (irq_trap cpu (fr_cause f) m = (mainbus_interrupt cpu (fr_cause f) ;; (let* m := get in
     KASSERT (Spl.t_curspl (level m) =? Spl.IPL_HIGH) ;;
     KASSERT (Spl.t_iplhigh_count (level m) =? 1) ;;
     modify (fun m => put_level (Spl.set_curspl 0 (Spl.set_iplhigh_count (Spl.t_iplhigh_count (level m) - 1) (level m))) m)) ;;
     modify (put_in_interrupt (t_in_interrupt m))) m1) as Eirq.
  { unfold irq_trap. rewrite (bind_Ret _ _ _ m m) by done. rewrite (bind_Ret _ _ _ tt (put_in_interrupt true m)) by done. rewrite Hlev. simpl Spl.t_curspl. simpl Spl.t_iplhigh_count.
    rewrite (bind_Ret _ _ _ true m1); [done|]. unfold m1, bind, KASSERT, ret, modify. simpl. change (level (put_in_interrupt true m)) with (level m). by rewrite Hlev. }
  assert (mainbus_interrupt cpu (fr_cause f) m1 = on_bus lamebus_interrupt m1) as Emain.
  { unfold mainbus_interrupt. rewrite (bind_Ret _ _ _ m1 m1) by done. rewrite (bind_Ret _ _ _ tt m1) by done. by rewrite (proj2 (Z.eqb_neq _ _) Hirq). }
  destruct (lamebus_interrupt (m_bus m)) as [[] b|e b|c] eqn:Eb; [right; exists b; split; [done|]; split; [exact Hty|]|done|left].
  2: { unfold bind at 1. rewrite Eirq. unfold bind at 1. rewrite Emain. unfold on_bus, zoom. change (m_bus m1) with (m_bus m). rewrite Eb. by rewrite Hty. }
  rewrite (bind_Ret _ _ _ tt (put_bus b m)).
  2: { rewrite Eirq. rewrite (bind_Ret _ _ _ tt (put_bus b m1)) by (rewrite Emain; unfold on_bus, zoom; change (m_bus m1) with (m_bus m); by rewrite Eb).
    rewrite <- (releveled_bus m b Hlev). done. }
  rewrite (bind_Ret _ _ _ tt (put_cpu (curthread (m_kernel m)) (stack + STACK_SIZE) (put_bus b m))); [done|].
  unfold return_stacks. rewrite (bind_Ret _ _ _ (put_bus b m) (put_bus b m)) by done. change (t_stacks (put_bus b m) !! _) with (t_stacks m !! curthread (m_kernel m)). rewrite Hst.
  unfold bind, modify, get. cbn [cpustack put_cpu]. by rewrite same_stack.
Qed.
End Trap.

(** ** Examples *)

#[local] Existing Instance DevVnode.dev_file_systems.
#[local] Existing Instance words_machine.

(** The program of [ex_kernel] has an empty TLB and a kernel stack; it reads an
    address of its first region. *)
Definition ex_trap_vm : vm := put_ipl (Spl.mkIpl 0 0 false) (put_tlb (zrep NUM_TLB (0, 0)) vm0).
Definition ex_machine : machine := mkMachine (put_vm ex_trap_vm ex_kernel) ex_bus false None {[ 1 := 0x80010000 ]} 0 0.
Definition ex_load : frame := mkFrame 0x400004 CST_KUp 8 ex_tf.
Definition ex_irq : frame := mkFrame 0 CST_KUp LAMEBUS_IRQ_BIT ex_tf.

Lemma ex_trapped : trapped ex_machine 0x80010f00 0x80010000.
Proof. by split; vm_compute. Qed.

Lemma ex_tlb_sound : tlb_sound as0 (tlb (k_vm (m_kernel ex_machine))).
Proof. split; [done|]. intros e He Hv. exfalso. apply Hv. clear Hv. revert e He. apply Forall_forall. vm_compute. repeat constructor. Qed.

Lemma tlb_miss_exact_witness :
  let iskern := Z.land (fr_status ex_load) CST_KUp =? 0 in
  let unserved := as_pa as0 (fr_vaddr ex_load) = None \/ forall e, e ∈ tlb (k_vm (m_kernel ex_machine)) -> valid e in
  let returned := put_cpu (curthread (m_kernel ex_machine)) (0x80010000 + STACK_SIZE) in
  match mips_trap (ret tt) (ret tt) (fun _ => ret tt) 0 (0, 0) 0x80010f00 ex_load ex_machine with
  | Ret f' m' =>
      (exists t, m' = returned (put_tlb_of t ex_machine) /\ f' = ex_load /\ is_Some (as_pa as0 (fr_vaddr ex_load)) /\ tlb_sound as0 t /\
         forall va, user_ref t va = if page_of va =? page_of (fr_vaddr ex_load) then as_pa as0 va else user_ref (tlb (k_vm (m_kernel ex_machine))) va) \/
      (exists g, iskern = true /\ tm_badfaultfunc ex_machine = Some g /\ unserved /\ f' = set_epc g ex_load /\ m' = returned ex_machine)
  | Err _ _ => False
  | Crash c => c = Panicked /\ unserved /\ (iskern = false \/ tm_badfaultfunc ex_machine = None)
  end.
Proof.
  refine (tlb_miss_exact (ret tt) (ret tt) (fun _ => ret tt) 0 (0, 0) 0x80010f00 0x80010000 ex_load ex_machine as0 EX_TLBL ex_trapped _ (proj1 as0_ok) ex_tlb_sound _ (or_introl eq_refl) _ _); by vm_compute.
Defined.

Lemma bus_interrupt_transparent_witness :
  mips_trap (ret tt) (ret tt) (fun _ => ret tt) 0 (0, 0) 0x80010f00 ex_irq ex_machine = Crash Panicked \/
  exists b, lamebus_interrupt (m_bus ex_machine) = Ret tt b /\ lb_wf b /\
    mips_trap (ret tt) (ret tt) (fun _ => ret tt) 0 (0, 0) 0x80010f00 ex_irq ex_machine = Ret ex_irq (put_cpu (curthread (m_kernel ex_machine)) (0x80010000 + STACK_SIZE) (put_bus b ex_machine)).
Proof.
  refine (bus_interrupt_transparent (ret tt) (ret tt) (fun _ => ret tt) 0 (0, 0) 0x80010f00 0x80010000 ex_irq ex_machine ex_trapped ex_bus_wf ex_handlers _ _); by vm_compute.
Defined.
End Trap.
