(* ===== verification/Console.v ===== *)
(** * The console: src/dev/generic/console.c, src/dev/lamebus/lser.c and
      src/dev/lamebus/con_lser.c

    [Console] models the console driver on top of the serial port driver: the
    ring of input characters, the two semaphores, output by interrupts and by
    polling, and the device operation [con_io].  The serial card is the class
    [SerialCard].  A function that is interrupted, or runs along with others,
    between its atomic parts is written as the sequence of these parts, and
    [ConsoleThm] runs the parts in every order. *)

From S2P Require Import Prelude Copyinout Uio Synch Vfs.
Import Copyinout Uio Synch.

Module Console.

Definition LSER_REG_CHAR : Z := 0.
Definition LSER_REG_WIRQ : Z := 4.
Definition LSER_REG_RIRQ : Z := 8.
Definition LSER_IRQ_ENABLE : Z := 1.
Definition LSER_IRQ_ACTIVE : Z := 2.
Definition CONSOLE_INPUT_BUFFER_SIZE : Z := 32.
Definition DELAYBUFSIZE : Z := 1024.
Definition CR : Z := 13.
Definition LF : Z := 10.

(** A byte as a [char], which is signed. *)
Definition s8 (z : Z) : Z := (z + 2 ^ 7) mod 2 ^ 8 - 2 ^ 7.

Definition irq_active (x : Z) : bool := negb (Z.land x LSER_IRQ_ACTIVE =? 0).

(** The registers, what time does, the bytes that went out on the line so far
    and how long the transmission in progress still takes.  A byte written to
    an idle card is transmitted, and the end of the transmission raises the
    write interrupt; nothing else does. *)
Class SerialCard (C : Type) := {
  ser_read : Z -> C -> Z;
  ser_write : Z -> Z -> C -> C;
  ser_tick : C -> C;
  sent : C -> list Z;
  sending : C -> option nat;
  wready (c : C) : bool := irq_active (ser_read LSER_REG_WIRQ c);
  send_law v c : sending c = None ->
    let c' := ser_write LSER_REG_CHAR v c in
    sent c' = sent c ++ [u8 v] /\ wready c' = wready c /\ is_Some (sending c');
  wclear_law c :
    let c' := ser_write LSER_REG_WIRQ LSER_IRQ_ENABLE c in
    sent c' = sent c /\ wready c' = false /\ sending c' = sending c;
  rclear_law c :
    let c' := ser_write LSER_REG_RIRQ LSER_IRQ_ENABLE c in
    sent c' = sent c /\ wready c' = wready c /\ sending c' = sending c;
  tick_law c :
    sent (ser_tick c) = sent c /\
    match sending c with
    | None => wready (ser_tick c) = wready c /\ sending (ser_tick c) = None
    | Some O => wready (ser_tick c) = true /\ sending (ser_tick c) = None
    | Some (S n) => wready (ser_tick c) = wready c /\ sending (ser_tick c) = Some n
    end }.

Section Console.
Context {C B : Type} `{!SerialCard C}.
(** The bus functions the attach routine hands over. *)
Context (ls_maskinterrupt ls_unmaskinterrupt : M B unit).

(** ** The serial port *)

(** [struct lser_softc]; a part that runs under [ls_lock] is atomic. *)
Record lser_softc := mkLser { ls_card : C; ls_wbusy : bool }.

Definition put_card (c : C) (s : lser_softc) := mkLser c (ls_wbusy s).
Definition put_wbusy (b : bool) (s : lser_softc) := mkLser (ls_card s) b.

Definition bus_read_register (reg : Z) : M lser_softc Z := gets (fun s => ser_read reg (ls_card s)).
Definition bus_write_register (reg val : Z) : M lser_softc unit := modify (fun s => put_card (ser_write reg val (ls_card s)) s).
Definition tick : M lser_softc unit := modify (fun s => put_card (ser_tick (ls_card s)) s).

(** What [lser_irq] does under the lock: [clear_to_write], and the character
    when [got_a_read]. *)
Definition irq_locked : M lser_softc (bool * option Z) :=
  let* x := bus_read_register LSER_REG_WIRQ in
  let* clear_to_write :=
    (if irq_active x then
       modify (put_wbusy false) ;;
       bus_write_register LSER_REG_WIRQ LSER_IRQ_ENABLE ;;
       ret true
     else ret false) in
  let* x := bus_read_register LSER_REG_RIRQ in
  let* got :=
    (if irq_active x then
       let* ch := bus_read_register LSER_REG_CHAR in
       bus_write_register LSER_REG_RIRQ LSER_IRQ_ENABLE ;;
       ret (Some ch)
     else ret None) in
  ret (clear_to_write, got).

Definition lser_write (ch : Z) : M lser_softc unit :=
  let* s := get in
  (if* ls_wbusy s then panic) ;;
  modify (put_wbusy true) ;;
  bus_write_register LSER_REG_CHAR (u32 ch).

Fixpoint poll_loop (fuel : nat) : M lser_softc unit :=
  let* val := bus_read_register LSER_REG_WIRQ in
  if Z.land val LSER_IRQ_ACTIVE =? 0 then
    match fuel with O => crashed Hung | S fuel' => tick ;; poll_loop fuel' end
  else ret tt.

(** When the card is transmitting the loop ends with the transmission. *)
Definition lser_poll_until_write : M lser_softc unit :=
  let* s := get in
  poll_loop (match sending (ls_card s) with Some n => S n | None => 0 end).

Definition lser_writepolled (ch : Z) : M lser_softc unit :=
  let* s := get in
  let irqpending := ls_wbusy s in
  (if* irqpending then
     (lser_poll_until_write ;;
      bus_write_register LSER_REG_WIRQ LSER_IRQ_ENABLE)) ;;
  bus_write_register LSER_REG_CHAR (u32 ch) ;;
  lser_poll_until_write ;;
  if* negb irqpending then bus_write_register LSER_REG_WIRQ LSER_IRQ_ENABLE.

Definition config_lser : M lser_softc unit :=
  modify (put_wbusy false) ;;
  bus_write_register LSER_REG_RIRQ LSER_IRQ_ENABLE ;;
  bus_write_register LSER_REG_WIRQ LSER_IRQ_ENABLE.

(** ** The console softc *)

(** [struct con_softc]; the function pointers are those [attach_con_to_lser]
    stores, and the semaphores are their counts. *)
Record con_softc := mkCs {
  cs_devdata : lser_softc; cs_rsem : Z; cs_wsem : Z;
  cs_gotchars : list Z; cs_gotchars_head : Z; cs_gotchars_tail : Z }.

Definition put_dev (d : lser_softc) (s : con_softc) := mkCs d (cs_rsem s) (cs_wsem s) (cs_gotchars s) (cs_gotchars_head s) (cs_gotchars_tail s).
Definition put_rsem (n : Z) (s : con_softc) := mkCs (cs_devdata s) n (cs_wsem s) (cs_gotchars s) (cs_gotchars_head s) (cs_gotchars_tail s).
Definition put_wsem (n : Z) (s : con_softc) := mkCs (cs_devdata s) (cs_rsem s) n (cs_gotchars s) (cs_gotchars_head s) (cs_gotchars_tail s).
Definition put_gotchars (l : list Z) (s : con_softc) := mkCs (cs_devdata s) (cs_rsem s) (cs_wsem s) l (cs_gotchars_head s) (cs_gotchars_tail s).
Definition put_head (n : Z) (s : con_softc) := mkCs (cs_devdata s) (cs_rsem s) (cs_wsem s) (cs_gotchars s) n (cs_gotchars_tail s).
Definition put_tail (n : Z) (s : con_softc) := mkCs (cs_devdata s) (cs_rsem s) (cs_wsem s) (cs_gotchars s) (cs_gotchars_head s) n.

Definition on_dev {A} (m : M lser_softc A) : M con_softc A := zoom cs_devdata put_dev m.

(** [V] on a count. *)
Definition V_count (n : Z) (put : Z -> con_softc -> con_softc) : M con_softc unit :=
  match sem_give 0 n with Given n' => modify (put n') | _ => panic end.

(** The parts of [con_input]: the test for room, with [nexthead]; the
    character; the head; [V(cs_rsem)]. *)
Definition input_check : M con_softc (option Z) :=
  gets (fun s =>
    let nexthead := u32 (cs_gotchars_head s + 1) mod CONSOLE_INPUT_BUFFER_SIZE in
    if nexthead =? cs_gotchars_tail s then None else Some nexthead).
Definition input_store (ch : Z) : M con_softc unit :=
  let* s := get in
  let* _ := of_option Wild (zlookup (cs_gotchars s) (cs_gotchars_head s)) in
  modify (put_gotchars (zinsert (cs_gotchars s) (cs_gotchars_head s) (u8 ch))).
Definition input_head (nexthead : Z) : M con_softc unit := modify (put_head nexthead).
Definition input_post : M con_softc unit := let* s := get in V_count (cs_rsem s) put_rsem.

Definition con_input (ch : Z) : M con_softc unit :=
  let* room := input_check in
  match room with
  | None => ret tt
  | Some nexthead => input_store ch ;; input_head nexthead ;; input_post
  end.

Definition con_start : M con_softc unit := let* s := get in V_count (cs_wsem s) put_wsem.

Definition lser_irq : M con_softc unit :=
  let* r := on_dev irq_locked in
  (if* fst r then con_start) ;;
  match snd r with Some ch => con_input ch | None => ret tt end.

(** [P] as one thread sees it: while it sleeps time passes and the interrupts
    of the card are served.  [patience] bounds the sleep. *)
Fixpoint P_sleep (patience : nat) (count : con_softc -> Z) (put : Z -> con_softc -> con_softc) : M con_softc unit :=
  let* s := get in
  match sem_take 0 (count s) with
  | Some n => modify (put n)
  | None =>
      match patience with
      | O => crashed Hung
      | S patience' => on_dev tick ;; lser_irq ;; P_sleep patience' count put
      end
  end.

(** For the write semaphore the transmission in progress is the bound. *)
Definition P_wsem : M con_softc unit :=
  let* s := get in
  P_sleep (match sending (ls_card (cs_devdata s)) with Some n => S n | None => 1 end) cs_wsem put_wsem.

Definition putch_intr (ch : Z) : M con_softc unit := P_wsem ;; on_dev (lser_write ch).
Definition putch_polled (ch : Z) : M con_softc unit := on_dev (lser_writepolled ch).

(** The two parts of [getch_intr] after [P(cs_rsem)]. *)
Definition take_char : M con_softc Z :=
  let* s := get in of_option Wild (zlookup (cs_gotchars s) (cs_gotchars_tail s)).
Definition advance_tail : M con_softc unit :=
  modify (fun s => put_tail (u32 (cs_gotchars_tail s + 1) mod CONSOLE_INPUT_BUFFER_SIZE) s).

Definition getch_intr (patience : nat) : M con_softc Z :=
  P_sleep patience cs_rsem put_rsem ;;
  let* ch := take_char in
  advance_tail ;;
  ret ch.

(** ** The exported interface *)

(** The static variables of console.c, the flags of [curthread] that [putch]
    looks at, and the bus.  A user lock is NULL or has a holder. *)
Record console := mkConsole {
  con : con_softc; the_console : bool;
  con_userlock_read : option (option Z); con_userlock_write : option (option Z);
  delayed_outbuf : list Z;
  t_in_interrupt : bool; t_iplhigh_count : Z; con_bus : B }.

Definition put_con (c : con_softc) (s : console) :=
  mkConsole c (the_console s) (con_userlock_read s) (con_userlock_write s) (delayed_outbuf s) (t_in_interrupt s) (t_iplhigh_count s) (con_bus s).
Definition put_the_console (b : bool) (s : console) :=
  mkConsole (con s) b (con_userlock_read s) (con_userlock_write s) (delayed_outbuf s) (t_in_interrupt s) (t_iplhigh_count s) (con_bus s).
Definition put_locks (r w : option (option Z)) (s : console) :=
  mkConsole (con s) (the_console s) r w (delayed_outbuf s) (t_in_interrupt s) (t_iplhigh_count s) (con_bus s).
Definition put_delayed (l : list Z) (s : console) :=
  mkConsole (con s) (the_console s) (con_userlock_read s) (con_userlock_write s) l (t_in_interrupt s) (t_iplhigh_count s) (con_bus s).
Definition put_bus (b : B) (s : console) :=
  mkConsole (con s) (the_console s) (con_userlock_read s) (con_userlock_write s) (delayed_outbuf s) (t_in_interrupt s) (t_iplhigh_count s) b.

Definition on_con {A} (m : M con_softc A) : M console A := zoom con put_con m.
Definition on_bus {A} (m : M B A) : M console A := zoom con_bus put_bus m.

Definition putch_delayed (ch : Z) : M console unit :=
  let* s := get in
  KASSERT (zlen (delayed_outbuf s) <? DELAYBUFSIZE) ;;
  modify (put_delayed (delayed_outbuf s ++ [s8 ch])).

(** [curthread] may not sleep. *)
Definition must_poll (s : console) : bool := t_in_interrupt s || (0 <? t_iplhigh_count s).

Definition putch (ch : Z) : M console unit :=
  let* s := get in
  if negb (the_console s) then putch_delayed ch
  else if must_poll s then on_con (putch_polled ch)
  else on_con (putch_intr ch).

Definition lser_startpolling : M console unit := on_bus ls_maskinterrupt.
Definition lser_endpolling : M console unit := on_bus ls_unmaskinterrupt.

Definition putch_prepare : M console unit :=
  let* s := get in
  if negb (the_console s) then ret tt else if must_poll s then lser_startpolling else ret tt.
Definition putch_complete : M console unit :=
  let* s := get in
  if negb (the_console s) then ret tt else if must_poll s then lser_endpolling else ret tt.

Definition getch (patience : nat) : M console Z :=
  let* s := get in
  KASSERT (the_console s) ;;
  KASSERT (negb (t_in_interrupt s) && (t_iplhigh_count s =? 0)) ;;
  on_con (getch_intr patience).

Fixpoint flush_loop (chars : list Z) : M console unit :=
  match chars with [] => ret tt | ch :: chars' => putch ch ;; flush_loop chars' end.
Definition flush_delay_buf : M console unit :=
  let* s := get in
  flush_loop (delayed_outbuf s) ;;
  modify (put_delayed []).

(** ** The device *)

Definition con_open (openflags : Z) : Z := 0.
Definition con_close : Z := 0.
Definition con_ioctl (op data : Z) : Z := EINVAL.

Definition put_lock (rw : uio_rw) (l : option Z) (s : console) : console :=
  match rw with
  | UIO_READ => put_locks (Some l) (con_userlock_write s) s
  | UIO_WRITE => put_locks (con_userlock_read s) (Some l) s
  end.
Definition userlock (rw : uio_rw) (s : console) : option (option Z) :=
  match rw with UIO_READ => con_userlock_read s | UIO_WRITE => con_userlock_write s end.

(** The lock calls of thread [t]; one that would sleep is stuck here. *)
Definition lock_acquire (t : Z) (rw : uio_rw) : M console unit :=
  let* s := get in
  match userlock rw s with
  | None => panic
  | Some l => match lock_take t l with Some l' => modify (put_lock rw l') | None => crashed Hung end
  end.
Definition lock_release (t : Z) (rw : uio_rw) : M console unit :=
  let* s := get in
  match userlock rw s with
  | None => panic
  | Some l => match lock_give t l with Given l' => modify (put_lock rw l') | Ignored => ret tt | Died => panic end
  end.

Definition io := (console * xfer)%type.
Definition on_console {A} (m : M console A) : M io A := zoom fst (fun c s => (c, snd s)) m.
Definition on_uio {A} (m : M xfer A) : M io A := zoom snd (fun x s => (fst s, x)) m.

(** [uiomove(&ch, 1, uio)], with what it leaves in [ch]. *)
Definition move_char (ch : Z) : M io Z :=
  let* bs := on_uio (uiomove [u8 ch]) in
  of_option Wild (s8 <$> zlookup bs 0).

(** One turn of the loop; the result says whether it goes on. *)
Definition read_char (patience : nat) : M io bool :=
  let* c := on_console (getch patience) in
  let ch := if s8 c =? CR then LF else s8 c in
  let* _ := move_char ch in
  ret (negb (ch =? LF)).
Definition write_char : M io bool :=
  let* ch := move_char 0 in
  (if* ch =? LF then on_console (putch CR)) ;;
  on_console (putch ch) ;;
  ret true.

Fixpoint con_loop (fuel patience : nat) : M io unit :=
  let* s := get in
  if 0 <? uio_resid (xu (snd s)) then
    match fuel with
    | O => crashed Hung
    | S fuel' =>
        let* go :=
          match uio_dir (xu (snd s)) with UIO_READ => read_char patience | UIO_WRITE => write_char end in
        if* go then con_loop fuel' patience
    end
  else ret tt.

(** Every turn moves a byte; [patience] is how long a reader waits for a key. *)
Definition con_io (t : Z) (patience : nat) : M io unit :=
  let* s := get in
  let rw := uio_dir (xu (snd s)) in
  KASSERT (bool_decide (is_Some (userlock rw (fst s)))) ;;
  on_console (lock_acquire t rw) ;;
  let* r := try (con_loop (Z.to_nat (uio_resid (xu (snd s)))) patience) in
  on_console (lock_release t rw) ;;
  match r with inl _ => ret tt | inr e => err e end.

(** [attach_con_to_lser]: the softc that [kmalloc] returned holds anything in
    the fields [config_con] fills. *)
Definition attach_con_to_lser (ls : lser_softc) (block : option con_softc) : option con_softc :=
  put_dev ls <$> block.

(** [config_con] up to [attach_console_to_vfs]; the arguments say whether the
    calls of [sem_create] and [lock_create] succeed. *)
Definition config_con (cs : con_softc) (unitno : Z) (rsem wsem rlk wlk : bool) : M console unit :=
  let* s := get in
  if 0 <? unitno then KASSERT (the_console s) ;; err ENODEV
  else
    KASSERT (negb (the_console s)) ;;
    if negb rsem then err ENOMEM
    else if negb wsem then err ENOMEM
    else if negb rlk then err ENOMEM
    else if negb wlk then err ENOMEM
    else
      modify (put_con (put_tail 0 (put_head 0 (put_wsem 1 (put_rsem 0 cs))))) ;;
      modify (put_the_console true) ;;
      modify (put_locks (Some None) (Some None)) ;;
      flush_delay_buf.

End Console.

(** [attach_console_to_vfs], with the number the device gets. *)
Definition CON_NAME : Vfs.name := [99; 111; 110].
Definition attach_console_to_vfs {F} `{!Vfs.FileSystems F} (dev : Z) : M (Vfs.vfs (F := F)) unit :=
  let* ok := Vfs.kmalloc in
  if negb ok then err ENOMEM else Vfs.vfs_adddev CON_NAME dev false.

End Console.
