(* ===== verification/ConsoleThm.v ===== *)
(** * The console under interleaving

    The parts of the console and serial port drivers run in any order: any
    number of threads print, by interrupts or by polling, one reads (the
    readers exclude each other with [con_userlock_read]), one interrupt
    handler runs (the bus sends the card's interrupts to one processor), and
    the card goes on by itself.  The drivers then never fail, no character is
    lost or sent twice, and the input is a queue. *)

From S2P Require Import Prelude Copyinout Uio Synch Console.
Import Copyinout Uio Synch Console.

Module ConsoleThm.

Section Thm.
Context {C : Type} `{!SerialCard C}.
Implicit Types (d : lser_softc (C := C)) (s : con_softc (C := C)).

(** ** The serial port *)

(** A write in progress is on the card or waits for its interrupt. *)
Definition on_line (c : C) : Prop := (is_Some (sending c) /\ wready c = false) \/ (sending c = None /\ wready c = true).
Definition dev_ok d : Prop :=
  if ls_wbusy d then on_line (ls_card d) else sending (ls_card d) = None /\ wready (ls_card d) = false.

Definition wire d : list Z := sent (ls_card d).

Lemma u8_u32 z : u8 (u32 z) = u8 z.
Proof. unfold u8, u32. rewrite (Z.mod_mod_divide z (2 ^ 32) (2 ^ 8)); [done|]. by exists (2 ^ 24). Qed.

Lemma tick_ok d : dev_ok d ->
  let d' := put_card (ser_tick (ls_card d)) d in dev_ok d' /\ wire d' = wire d /\ ls_wbusy d' = ls_wbusy d.
Proof.
  unfold dev_ok, wire. simpl. destruct (tick_law (ls_card d)) as [Hs H]. intros Hok. split; [|done].
  destruct (ls_wbusy d).
  - destruct Hok as [[[n Hn] Hr]|[Hn Hr]]; rewrite Hn in H.
    + destruct n as [|n]; destruct H as [H1 H2]; [by right|left]. by rewrite H1, H2.
    + right. destruct H as [-> ->]. done.
  - destruct Hok as [Hn Hr]. rewrite Hn in H. destruct H as [-> ->]. done.
Qed.

Lemma irq_locked_spec d :
  dev_ok d ->
  returns (irq_locked d) (fun r d' =>
    dev_ok d' /\ wire d' = wire d /\ fst r = wready (ls_card d) /\
    if fst r then ls_wbusy d = true /\ ls_wbusy d' = false
    else ls_wbusy d' = ls_wbusy d /\ sending (ls_card d') = sending (ls_card d)).
Proof.
  intros Hok. unfold irq_locked, bus_read_register, bus_write_register. runs_steps.
  change (irq_active (ser_read LSER_REG_WIRQ (ls_card d))) with (wready (ls_card d)).
  destruct (wready (ls_card d)) eqn:Hw; runs_steps.
  - assert (ls_wbusy d = true /\ sending (ls_card d) = None) as [Hb Hn].
    { unfold dev_ok in Hok. destruct (ls_wbusy d); [|naive_solver congruence].
      destruct Hok as [[_ ?]|[? _]]; [congruence|done]. }
    pose proof (wclear_law (ls_card d)) as (H1 & H2 & H3).
    destruct (irq_active _); runs_steps; unfold dev_ok, wire; simpl.
    + pose proof (rclear_law (ser_write LSER_REG_WIRQ LSER_IRQ_ENABLE (ls_card d))) as (H4 & H5 & H6).
      rewrite H4, H5, H6, H1, H2, H3. done.
    + rewrite H1, H2, H3. done.
  - destruct (irq_active _); runs_steps; [|done].
    pose proof (rclear_law (ls_card d)) as (H4 & H5 & H6).
    unfold dev_ok, on_line, wire in *. simpl. rewrite H4, H5, H6. done.
Qed.

Lemma lser_write_spec d ch :
  dev_ok d -> ls_wbusy d = false ->
  returns (lser_write ch d) (fun _ d' => dev_ok d' /\ ls_wbusy d' = true /\ wire d' = wire d ++ [u8 ch]).
Proof.
  unfold dev_ok. intros Hok Hb. rewrite Hb in Hok. destruct Hok as [Hn Hr].
  unfold lser_write, bus_write_register. runs_steps. rewrite Hb. runs_steps.
  destruct (send_law (u32 ch) (ls_card d) Hn) as (H1 & H2 & H3). unfold wire, on_line. simpl.
  rewrite u8_u32 in H1. rewrite H2, Hr. split_and!; [by left|done|done].
Qed.

Lemma poll_loop_spec n d :
  (exists k, sending (ls_card d) = Some k /\ wready (ls_card d) = false /\ (k < n)%nat) \/
  (sending (ls_card d) = None /\ wready (ls_card d) = true) ->
  returns (poll_loop n d) (fun _ d' =>
    sending (ls_card d') = None /\ wready (ls_card d') = true /\ wire d' = wire d /\ ls_wbusy d' = ls_wbusy d).
Proof.
  revert d. induction n as [|n IH]; intros d H; cbn [poll_loop]; unfold bus_read_register; runs_steps;
    (assert ((Z.land (ser_read LSER_REG_WIRQ (ls_card d)) LSER_IRQ_ACTIVE =? 0) = negb (wready (ls_card d))) as ->
      by (unfold wready, irq_active; by rewrite negb_involutive));
    destruct H as [(k & Hk & Hw & Hlt)|[Hn Hw]]; rewrite Hw; simpl; try lia; runs_steps; try done.
  unfold tick. runs_steps. destruct (tick_law (ls_card d)) as [Hs Ht]. rewrite Hk in Ht.
  eapply runs_mono; [apply IH; simpl| |done].
  - destruct k as [|k]; destruct Ht as [H1 H2]; [by right|left]. exists k. rewrite H1. split_and!; [done|done|lia].
  - simpl. intros _ d' (H1 & H2 & H3 & H4). unfold wire in *. simpl in *. by rewrite H3.
Qed.

Lemma poll_spec d :
  on_line (ls_card d) ->
  returns (lser_poll_until_write d) (fun _ d' =>
    sending (ls_card d') = None /\ wready (ls_card d') = true /\ wire d' = wire d /\ ls_wbusy d' = ls_wbusy d).
Proof.
  intros H. unfold lser_poll_until_write. runs_steps. apply poll_loop_spec.
  destruct H as [[[k Hk] Hw]|[Hn Hw]]; [left|by right]. exists k. rewrite Hk. split_and!; [done|done|lia].
Qed.

Lemma send_polled_spec d ch :
  sending (ls_card d) = None -> wready (ls_card d) = false ->
  returns (lser_poll_until_write (put_card (ser_write LSER_REG_CHAR (u32 ch) (ls_card d)) d)) (fun _ d' =>
    sending (ls_card d') = None /\ wready (ls_card d') = true /\ wire d' = wire d ++ [u8 ch] /\ ls_wbusy d' = ls_wbusy d).
Proof.
  intros Hn Hw. destruct (send_law (u32 ch) (ls_card d) Hn) as (H1 & H2 & H3).
  eapply runs_mono; [apply poll_spec; left; simpl; by rewrite H2| |done].
  simpl. intros _ d' (E1 & E2 & E3 & E4). unfold wire in *. simpl in *. rewrite E3, H1, u8_u32. done.
Qed.

(** Polled output does not disturb a write in progress: its interrupt comes. *)
Lemma lser_writepolled_spec d ch :
  dev_ok d ->
  returns (lser_writepolled ch d) (fun _ d' => dev_ok d' /\ ls_wbusy d' = ls_wbusy d /\ wire d' = wire d ++ [u8 ch]).
Proof.
  unfold dev_ok. intros Hok. unfold lser_writepolled, bus_write_register. apply runs_bind, runs_get.
  destruct (ls_wbusy d) eqn:Hb; cbn [negb].
  - apply runs_bind, runs_bind. eapply runs_mono; [by apply poll_spec| |done].
    intros _ d1 (H1 & H2 & H3 & H4). pose proof (wclear_law (ls_card d1)) as (W1 & W2 & W3). runs_steps.
    eapply runs_mono; [apply send_polled_spec; simpl; by rewrite ?W2, ?W3| |done].
    intros _ d2 (E1 & E2 & E3 & E4). runs_steps. rewrite E4. simpl. rewrite H4, Hb.
    split_and!; [by right|done|]. unfold wire in *. rewrite E3. simpl. by rewrite W1, H3.
  - destruct Hok as [Hn Hw]. runs_steps. eapply runs_mono; [by apply send_polled_spec| |done].
    intros _ d2 (E1 & E2 & E3 & E4). runs_steps. pose proof (wclear_law (ls_card d2)) as (W1 & W2 & W3). simpl.
    rewrite E4, Hb. unfold wire in *. simpl. rewrite W1, W2, W3. done.
Qed.

(** ** The ring of input characters *)

Abbreviation SIZE := CONSOLE_INPUT_BUFFER_SIZE.

(** [n] slots of the ring from [i] on. *)
Fixpoint slots (l : list Z) (i : Z) (n : nat) : list Z :=
  match n with O => [] | S n' => default 0 (zlookup l i) :: slots l ((i + 1) mod SIZE) n' end.

Definition ring_ok s : Prop :=
  zlen (cs_gotchars s) = SIZE /\ 0 <= cs_gotchars_head s < SIZE /\ 0 <= cs_gotchars_tail s < SIZE.

Definition fill s : Z := (cs_gotchars_head s - cs_gotchars_tail s) mod SIZE.
(** The characters that were not read yet. *)
Definition buffer s : list Z := slots (cs_gotchars s) (cs_gotchars_tail s) (Z.to_nat (fill s)).

Lemma length_slots l i n : length (slots l i n) = n.
Proof. revert i. induction n as [|n IH]; intros i; simpl; [done|]. by rewrite IH. Qed.

Lemma fill_range s : 0 <= fill s < SIZE.
Proof. unfold fill, SIZE. dlia. Qed.

Lemma zlen_buffer s : zlen (buffer s) = fill s.
Proof. unfold buffer, zlen. rewrite length_slots. pose proof (fill_range s). lia. Qed.

Lemma slots_snoc l i n : 0 <= i < SIZE -> slots l i (S n) = slots l i n ++ [default 0 (zlookup l ((i + Z.of_nat n) mod SIZE))].
Proof.
  revert i. induction n as [|n IH]; intros i Hi.
  - simpl. rewrite Z.add_0_r, Z.mod_small by done. done.
  - change (slots l i (S (S n))) with (default 0 (zlookup l i) :: slots l ((i + 1) mod SIZE) (S n)).
    rewrite IH by (unfold SIZE in *; dlia).
    replace (((i + 1) mod SIZE + Z.of_nat n) mod SIZE) with ((i + Z.of_nat (S n)) mod SIZE) by (unfold SIZE in *; dlia). done.
Qed.

Lemma slots_insert l j x i n :
  0 <= i < SIZE -> 0 <= j < SIZE -> Z.of_nat n <= (j - i) mod SIZE -> slots (zinsert l j x) i n = slots l i n.
Proof.
  revert i. induction n as [|n IH]; intros i Hi Hj Hn; [done|]. cbn [slots]. f_equal.
  - rewrite zlookup_zinsert_ne; [done|]. intros ->. rewrite Z.sub_diag in Hn. unfold SIZE in Hn. dlia.
  - apply IH; [unfold SIZE in *; dlia|done|unfold SIZE in *; dlia].
Qed.

Lemma next_slot i : 0 <= i < SIZE -> u32 (i + 1) mod SIZE = (i + 1) mod SIZE.
Proof. intros H. unfold u32, SIZE in *. rewrite (Z.mod_small (i + 1) (2 ^ 32)) by lia. done. Qed.

(** There is room for 31 characters. *)
Lemma input_check_spec s (Q : option Z -> con_softc -> Prop) :
  ring_ok s ->
  (fill s = SIZE - 1 -> Q None s) ->
  (fill s < SIZE - 1 -> Q (Some ((cs_gotchars_head s + 1) mod SIZE)) s) ->
  returns (input_check s) Q.
Proof.
  intros (Hl & Hh & Ht) HN HS. unfold input_check. runs_steps. rewrite next_slot by done.
  pose proof (fill_range s). destruct (Z.eqb_spec ((cs_gotchars_head s + 1) mod SIZE) (cs_gotchars_tail s)) as [E|E].
  - apply HN. unfold fill, SIZE in *. dlia.
  - apply HS. unfold fill, SIZE in *. dlia.
Qed.

Lemma buffer_store s x : ring_ok s -> buffer (put_gotchars (zinsert (cs_gotchars s) (cs_gotchars_head s) x) s) = buffer s.
Proof. intros (Hl & Hh & Ht). unfold buffer. simpl. apply slots_insert; [done|done|]. unfold fill, SIZE in *. simpl. dlia. Qed.

Lemma buffer_head s :
  ring_ok s -> fill s < SIZE - 1 ->
  buffer (put_head ((cs_gotchars_head s + 1) mod SIZE) s) = buffer s ++ [default 0 (zlookup (cs_gotchars s) (cs_gotchars_head s))].
Proof.
  intros (Hl & Hh & Ht) Hf. pose proof (fill_range s). unfold buffer at 1.
  replace (Z.to_nat (fill (put_head ((cs_gotchars_head s + 1) mod SIZE) s))) with (S (Z.to_nat (fill s)))
    by (unfold fill, SIZE in *; simpl; dlia).
  simpl cs_gotchars. simpl cs_gotchars_tail. rewrite slots_snoc by done.
  replace ((cs_gotchars_tail s + Z.of_nat (Z.to_nat (fill s))) mod SIZE) with (cs_gotchars_head s) by (unfold fill, SIZE in *; dlia). done.
Qed.

Lemma buffer_tail s :
  ring_ok s -> 0 < fill s ->
  buffer s = default 0 (zlookup (cs_gotchars s) (cs_gotchars_tail s)) ::
    buffer (put_tail ((cs_gotchars_tail s + 1) mod SIZE) s).
Proof.
  intros (Hl & Hh & Ht) Hf. pose proof (fill_range s). unfold buffer.
  replace (Z.to_nat (fill s)) with (S (Z.to_nat (fill (put_tail ((cs_gotchars_tail s + 1) mod SIZE) s))))
    by (unfold fill, SIZE in *; simpl; dlia). done.
Qed.

Lemma V_count_spec n put s (Q : unit -> con_softc -> Prop) : 0 <= n < 2 ^ 31 - 1 -> Q tt (put (n + 1) s) -> returns (V_count n put s) Q.
Proof.
  intros Hn HQ. unfold V_count, sem_give. assert (s32 (n + 1) = n + 1) as -> by (unfold s32; rewrite Z.mod_small; lia).
  destruct (0 <? n + 1) eqn:E; [done|]. lia.
Qed.

(** ** Who is where *)

(** A call of [putch]: before [P(cs_wsem)]; before [cs_send]; by polling; over. *)
Inductive writer := Printing (ch : Z) | Sending (ch : Z) | Polling (ch : Z) | Printed.

#[local] Abbreviation softc := (con_softc (C := C)).

Definition writer_step (w : writer) : M softc writer :=
  match w with
  | Printing ch =>
      let* s := get in
      match sem_take 0 (cs_wsem s) with
      | Some n => modify (put_wsem n) ;; ret (Sending ch)
      | None => ret (Printing ch)
      end
  | Sending ch => on_dev (lser_write ch) ;; ret Printed
  | Polling ch => putch_polled ch ;; ret Printed
  | Printed => ret Printed
  end.

(** The call of [getch]: none; before [P(cs_rsem)]; before the character is
    taken from its slot; before the tail moves. *)
Inductive reader := RIdle | RWait | RTake | RAdvance (ch : Z).

Definition reader_step (r : reader) : M softc (reader * list Z) :=
  match r with
  | RIdle => ret (RWait, [])
  | RWait =>
      let* s := get in
      match sem_take 0 (cs_rsem s) with
      | Some n => modify (put_rsem n) ;; ret (RTake, [])
      | None => ret (RWait, [])
      end
  | RTake => let* ch := take_char in ret (RAdvance ch, [])
  | RAdvance ch => advance_tail ;; ret (RIdle, [ch])
  end.

(** [lser_irq]: none; before the locked part; before [ls_start]; then at the
    parts of [con_input]. *)
Inductive handler :=
  HIdle | HIrq | HStart (got : option Z) | HInput (ch : Z) | HStore (ch nexthead : Z) | HHead (ch nexthead : Z) | HPost.

Definition started (got : option Z) : handler := match got with Some ch => HInput ch | None => HIdle end.

(** The second result is what goes into the queue. *)
Definition handler_step (h : handler) : M softc (handler * list Z) :=
  match h with
  | HIdle => ret (HIrq, [])
  | HIrq => let* r := on_dev irq_locked in ret (if fst r then HStart (snd r) else started (snd r), [])
  | HStart got => con_start ;; ret (started got, [])
  | HInput ch =>
      let* room := input_check in
      ret (match room with Some nexthead => HStore ch nexthead | None => HIdle end, [])
  | HStore ch nexthead => input_store ch ;; ret (HHead ch nexthead, [])
  | HHead ch nexthead => input_head nexthead ;; ret (HPost, [u8 ch])
  | HPost => input_post ;; ret (HIdle, [])
  end.

(** The drivers, the calls in progress, and what happened: the bytes given to
    [putch], those put into the queue, and those [getch] returned. *)
Record system := mkSys {
  sc : con_softc (C := C); writers : list writer; rd : reader; hd : handler;
  printed : list Z; accepted : list Z; received : list Z }.

Inductive sstep : system -> system -> Prop :=
  | step_card s ws r h p a v :
      sstep (mkSys s ws r h p a v) (mkSys (put_dev (put_card (ser_tick (ls_card (cs_devdata s))) (cs_devdata s)) s) ws r h p a v)
  | step_putch s ws r h p a v ch w :
      w = Printing ch \/ w = Polling ch ->
      sstep (mkSys s ws r h p a v) (mkSys s (ws ++ [w]) r h (p ++ [u8 ch]) a v)
  | step_writer s s' ws i w w' r h p a v :
      ws !! i = Some w -> writer_step w s = Ret w' s' ->
      sstep (mkSys s ws r h p a v) (mkSys s' (<[i := w']> ws) r h p a v)
  | step_reader s s' ws r r' out h p a v :
      reader_step r s = Ret (r', out) s' ->
      sstep (mkSys s ws r h p a v) (mkSys s' ws r' h p a (v ++ out))
  | step_handler s s' ws r h h' into p a v :
      handler_step h s = Ret (h', into) s' ->
      sstep (mkSys s ws r h p a v) (mkSys s' ws r h' p (a ++ into) v).

Inductive sreach (S0 : system) : system -> Prop :=
  | sreach_0 : sreach S0 S0
  | sreach_step S S' : sreach S0 S -> sstep S S' -> sreach S0 S'.

(** ** The invariants *)

Definition holds_token (w : writer) : Z := match w with Sending _ => 1 | _ => 0 end.
Definition holders (ws : list writer) : Z := foldr (fun w n => holds_token w + n) 0 ws.
Definition unsent (w : writer) : list Z := match w with Printing ch | Sending ch | Polling ch => [u8 ch] | Printed => [] end.
Definition pending (ws : list writer) : list Z := ws ≫= unsent.
Definition starting (h : handler) : Z := match h with HStart _ => 1 | _ => 0 end.
Definition posting (h : handler) : Z := match h with HPost => 1 | _ => 0 end.
Definition taking (r : reader) : Z := match r with RTake | RAdvance _ => 1 | _ => 0 end.

(** The write token is the semaphore's, a thread's, the card's or the
    handler's; every byte printed is on the line or with its thread. *)
Record out_inv s (ws : list writer) (h : handler) (p : list Z) : Prop := {
  oi_dev : dev_ok (cs_devdata s);
  oi_wsem : 0 <= cs_wsem s;
  oi_token : cs_wsem s + holders ws + Z.b2z (ls_wbusy (cs_devdata s)) + starting h = 1;
  oi_sent : wire (cs_devdata s) ++ pending ws ≡ₚ p }.

(** The read semaphore counts the characters of the queue that are posted and
    that no one is taking. *)
Record in_inv s (r : reader) (h : handler) (a v : list Z) : Prop := {
  ii_ring : ring_ok s;
  ii_rsem : 0 <= cs_rsem s;
  ii_count : cs_rsem s + taking r + posting h = fill s;
  ii_reader : match r with RAdvance ch => zlookup (cs_gotchars s) (cs_gotchars_tail s) = Some ch | _ => True end;
  ii_handler :
    match h with
    | HStore _ n => n = (cs_gotchars_head s + 1) mod SIZE /\ fill s < SIZE - 1
    | HHead ch n => n = (cs_gotchars_head s + 1) mod SIZE /\ fill s < SIZE - 1 /\
                    zlookup (cs_gotchars s) (cs_gotchars_head s) = Some (u8 ch)
    | _ => True
    end;
  ii_queue : v ++ buffer s = a }.

Definition sys_inv (S : system) : Prop :=
  out_inv (sc S) (writers S) (hd S) (printed S) /\ in_inv (sc S) (rd S) (hd S) (accepted S) (received S).

Lemma holders_insert ws i w w' : ws !! i = Some w -> holders (<[i := w']> ws) = holders ws - holds_token w + holds_token w'.
Proof.
  revert i. induction ws as [|x ws IH]; intros [|i] H; simplify_eq/=; [lia|]. rewrite (IH i H). lia.
Qed.

Lemma holders_nonneg ws : 0 <= holders ws.
Proof. induction ws as [|[] ws IH]; simpl; lia. Qed.

Lemma holders_mem ws i w : ws !! i = Some w -> holds_token w <= holders ws.
Proof.
  revert i. induction ws as [|x ws IH]; intros [|i] H; simplify_eq/=.
  - pose proof (holders_nonneg ws). lia.
  - specialize (IH i H). destruct x; simpl; lia.
Qed.

Lemma pending_insert ws i w w' :
  ws !! i = Some w -> pending (<[i := w']> ws) ++ unsent w ≡ₚ pending ws ++ unsent w'.
Proof.
  revert i. induction ws as [|x ws IH]; intros [|i] H; simplify_eq/=; unfold pending in *; simpl.
  - rewrite <- !(assoc (++)). rewrite (Permutation_app_comm (ws ≫= unsent) (unsent w)), (Permutation_app_comm (ws ≫= unsent) (unsent w')), !(assoc (++)).
    by rewrite (Permutation_app_comm (unsent w') (unsent w)).
  - rewrite <- !(assoc (++)). f_equiv. by apply IH.
Qed.

(** ** Every part keeps them *)

(** Output does not touch the input side. *)
Definition out_only s s' : Prop := exists d n, s' = put_wsem n (put_dev d s).

Lemma in_inv_out s s' r h a v : out_only s s' -> in_inv s r h a v -> in_inv s' r h a v.
Proof. intros (d & n & ->) []. by split. Qed.

Lemma writer_keeps s ws h p i w :
  out_inv s ws h p -> ws !! i = Some w ->
  returns (writer_step w s) (fun w' s' => out_only s s' /\ out_inv s' (<[i := w']> ws) h p).
Proof.
  intros [Hd Hw Ht Hs] Hi. pose proof (holders_mem ws i w Hi) as Hm.
  assert (0 <= starting h /\ 0 <= Z.b2z (ls_wbusy (cs_devdata s))) as [Hh Hb] by (destruct h, (ls_wbusy _); simpl; lia).
  destruct w as [ch|ch|ch|]; cbn [writer_step holds_token] in *; unfold putch_polled, on_dev; runs_steps.
  - unfold sem_take. destruct (Z.eqb_spec (cs_wsem s) 0) as [E|E]; runs_steps.
    + split; [by exists (cs_devdata s), (cs_wsem s); destruct s|]. rewrite list_insert_id by done. by split.
    + split; [by exists (cs_devdata s), (cs_wsem s - 1); destruct s|]. split; simpl; [done|lia| |].
      * rewrite (holders_insert ws i (Printing ch)) by done. simpl. lia.
      * rewrite <- Hs. f_equiv. apply (Permutation_app_inv_r [u8 ch]). by apply (pending_insert ws i (Printing ch)).
  - assert (ls_wbusy (cs_devdata s) = false) as Hb0 by (destruct (ls_wbusy _); simpl in *; [lia|done]).
    eapply runs_mono; [by apply lser_write_spec| |done]. intros _ d' (Hd' & Hb' & Hs'). runs_steps.
    split; [by exists d', (cs_wsem s)|]. split; simpl; [done|done| |].
    + rewrite (holders_insert ws i (Sending ch)), Hb' by done. rewrite Hb0 in Ht. simpl in *. lia.
    + pose proof (pending_insert ws i (Sending ch) Printed Hi) as Hp. simpl in Hp. rewrite app_nil_r in Hp.
      rewrite Hs', <- (assoc (++)), <- Hs, <- Hp. f_equiv. by rewrite (Permutation_app_comm [_]).
  - eapply runs_mono; [by apply lser_writepolled_spec| |done]. intros _ d' (Hd' & Hb' & Hs'). runs_steps.
    split; [by exists d', (cs_wsem s)|]. split; simpl; [done|done| |].
    + rewrite (holders_insert ws i (Polling ch)), Hb' by done. simpl in *. lia.
    + pose proof (pending_insert ws i (Polling ch) Printed Hi) as Hp. simpl in Hp. rewrite app_nil_r in Hp.
      rewrite Hs', <- (assoc (++)), <- Hs, <- Hp. f_equiv. by rewrite (Permutation_app_comm [_]).
  - split; [by exists (cs_devdata s), (cs_wsem s); destruct s|]. rewrite list_insert_id by done. by split.
Qed.

(** Input does not touch the output side. *)
Definition in_only s s' : Prop := cs_devdata s' = cs_devdata s /\ cs_wsem s' = cs_wsem s.

Lemma out_inv_in s s' ws h h' p : in_only s s' -> starting h' = starting h -> out_inv s ws h p -> out_inv s' ws h' p.
Proof. intros [E1 E2] E3 []. split; by rewrite ?E1, ?E2, ?E3. Qed.

Lemma reader_keeps s r h a v :
  in_inv s r h a v ->
  returns (reader_step r s) (fun x s' => in_only s s' /\ in_inv s' (fst x) h a (v ++ snd x)).
Proof.
  intros H. pose proof H as [Hr Hn Hc Hrd Hh Hq]. pose proof Hr as (Hl & Hhd & Htl).
  assert (0 <= posting h) as Hp by (destruct h; simpl; lia).
  destruct r as [| | |ch]; cbn [reader_step taking] in *; runs_steps.
  - split; [done|]. simpl. rewrite app_nil_r. by split.
  - unfold sem_take. destruct (Z.eqb_spec (cs_rsem s) 0) as [E|E]; runs_steps; (split; [done|]); simpl; rewrite app_nil_r; [done|].
    split; simpl; try done; unfold fill in *; simpl in *; lia.
  - destruct (zlookup_is_Some (cs_gotchars s) (cs_gotchars_tail s) ltac:(lia)) as [ch Hch].
    unfold take_char. runs_steps. apply (runs_of_option _ _ ch); [done|]. runs_steps. split; [done|]. simpl. rewrite app_nil_r. by split.
  - unfold advance_tail. runs_steps. split; [done|]. cbn [fst snd]. rewrite next_slot by done.
    assert (0 < fill s) as Hf by lia. pose proof (buffer_tail s Hr Hf) as Hb. rewrite Hrd in Hb. simpl in Hb.
    assert (fill (put_tail ((cs_gotchars_tail s + 1) mod SIZE) s) = fill s - 1) as Hf' by (unfold fill, SIZE in *; simpl; dlia).
    split; simpl; rewrite ?Hf'; try done.
    + split_and!; simpl; try done; unfold SIZE in *; dlia.
    + lia.
    + destruct h; try done; naive_solver lia.
    + by rewrite <- (assoc (++)), <- Hq, Hb.
Qed.

Lemma started_plain got : starting (started got) = 0 /\ posting (started got) = 0 /\
  match started got with HStore _ _ | HHead _ _ => False | _ => True end.
Proof. by destruct got. Qed.

Lemma in_inv_started s r h got a v : in_inv s r h a v -> posting h = 0 -> in_inv s r (started got) a v.
Proof. intros [] Hp. split; try done; [by destruct got; simpl; rewrite <- Hp|by destruct got]. Qed.

(** Posting a character the head was moved over. *)
Lemma input_head_keeps s r ch n a v :
  in_inv s r (HHead ch n) a v -> in_inv (put_head n s) r HPost (a ++ [u8 ch]) v.
Proof.
  intros [Hr Hn Hc Hrd (-> & Hf & Hch) Hq]. pose proof Hr as (Hl & Hh & Ht).
  assert (fill (put_head ((cs_gotchars_head s + 1) mod SIZE) s) = fill s + 1) as Hf' by (unfold fill, SIZE in *; simpl; dlia).
  split; simpl in *; rewrite ?Hf'; try done.
  - split_and!; simpl; try done; unfold SIZE in *; dlia.
  - lia.
  - by rewrite buffer_head, Hch, (assoc (++)), Hq by done.
Qed.

Lemma input_store_keeps s r ch n a v :
  in_inv s r (HStore ch n) a v ->
  returns (input_store ch s) (fun _ s' => in_only s s' /\ in_inv s' r (HHead ch n) a v).
Proof.
  intros [Hr Hn Hc Hrd (-> & Hf) Hq]. pose proof Hr as (Hl & Hh & Ht).
  destruct (zlookup_is_Some (cs_gotchars s) (cs_gotchars_head s) ltac:(lia)) as [y Hy].
  unfold input_store. runs_steps. apply (runs_of_option _ _ y); [done|]. runs_steps. split; [done|].
  split; simpl; try done.
  - by split_and!; simpl; rewrite ?zlen_zinsert; try lia.
  - destruct r; try done. simpl in Hc. rewrite zlookup_zinsert_ne; [done|]. intros E. unfold fill in Hc. rewrite E, Z.sub_diag in Hc.
    unfold SIZE in Hc. change (0 mod 32) with 0 in Hc. lia.
  - split_and!; [done|done|]. apply zlookup_zinsert_eq. lia.
  - by rewrite buffer_store.
Qed.

Lemma handler_keeps s ws r h p a v :
  out_inv s ws h p -> in_inv s r h a v ->
  returns (handler_step h s) (fun x s' => out_inv s' ws (fst x) p /\ in_inv s' r (fst x) (a ++ snd x) v).
Proof.
  intros Ho Hi. pose proof Ho as [Hd Hw Ht Hs]. pose proof Hi as [Hr Hn Hc Hrd Hh Hq]. pose proof (fill_range s) as Hfr.
  pose proof (holders_nonneg ws) as Hho.
  assert (0 <= taking r) as Htk by (destruct r; simpl; lia).
  assert (0 <= Z.b2z (ls_wbusy (cs_devdata s))) as Hb by (destruct (ls_wbusy _); simpl; lia).
  destruct h as [| |got|ch|ch n|ch n|]; cbn [handler_step] in *; unfold on_dev; runs_steps.
  - cbn [fst snd]. rewrite app_nil_r. by split.
  - eapply runs_mono; [by apply irq_locked_spec| |done]. intros [clear got] d' (Hd' & Hs' & _ & H). runs_steps. cbn [fst snd] in *.
    rewrite app_nil_r. split; [|apply (in_inv_out s); [by exists d', (cs_wsem s)|]; destruct clear; [by split|by apply (in_inv_started s r HIrq)]].
    destruct clear; destruct H as [H1 H2]; split; simpl in *; rewrite ?Hs', ?H1, ?H2 in *; simpl in *; try done; try lia.
    by rewrite (proj1 (started_plain got)).
  - unfold con_start. runs_steps. apply V_count_spec; [simpl in Ht; lia|]. runs_steps. cbn [fst snd]. rewrite app_nil_r.
    split; [|apply (in_inv_out s); [by exists (cs_devdata s), (cs_wsem s + 1)|by apply (in_inv_started s r (HStart got))]].
    split; simpl in *; try done; [lia|]. rewrite (proj1 (started_plain got)). lia.
  - apply input_check_spec; [done| |]; intros Hf; runs_steps; cbn [fst snd]; rewrite app_nil_r; by split.
  - eapply runs_mono; [by apply (input_store_keeps s r ch n a v)| |done]. intros _ s' [Hio Hi']. runs_steps. cbn [fst snd].
    rewrite app_nil_r. split; [by apply (out_inv_in s s' ws (HStore ch n))|done].
  - unfold input_head. runs_steps. cbn [fst snd]. split; [by split|]. by apply input_head_keeps.
  - unfold input_post. runs_steps. apply V_count_spec; [simpl in Hc; unfold SIZE in *; lia|]. runs_steps. cbn [fst snd]. rewrite app_nil_r.
    split; [by split|]. split; simpl in *; try done; unfold fill in *; simpl in *; lia.
Qed.

Lemma sys_inv_step S S' : sys_inv S -> sstep S S' -> sys_inv S'.
Proof.
  intros [Ho Hi] H. destruct H as [s ws r h p a v|s ws r h p a v ch w Hw|s s' ws i w w' r h p a v Hi' E|s s' ws r r' out h p a v E|s s' ws r h h' into p a v E];
    cbn [sc writers rd hd printed accepted received] in *; split; cbn [sc writers rd hd printed accepted received] in *.
  - destruct Ho as [Hd Hw Ht Hs]. pose proof (tick_ok _ Hd) as (H1 & H2 & H3). split; cbn [put_dev cs_devdata cs_wsem]; rewrite ?H2, ?H3; done.
  - apply (in_inv_out s); [|done]. by eexists _, (cs_wsem s).
  - destruct Ho as [Hd Hws Ht Hs]. split; try done.
    + assert (holders (ws ++ [w]) = holders ws) as ->; [|done].
      clear -Hw. induction ws as [|x ws IH]; simpl; [by destruct Hw as [-> | ->]|by rewrite IH].
    + unfold pending. rewrite bind_app, (assoc (++)), Hs. f_equiv. by destruct Hw as [-> | ->].
  - done.
  - pose proof (writer_keeps s ws h p i w Ho Hi') as H. rewrite E in H. apply H.
  - pose proof (writer_keeps s ws h p i w Ho Hi') as H. rewrite E in H. destruct H as [H _]. by apply (in_inv_out s).
  - pose proof (reader_keeps s r h a v Hi) as H. rewrite E in H. destruct H as [H _]. by apply (out_inv_in s s' ws h).
  - pose proof (reader_keeps s r h a v Hi) as H. rewrite E in H. apply H.
  - pose proof (handler_keeps s ws r h p a v Ho Hi) as H. rewrite E in H. apply H.
  - pose proof (handler_keeps s ws r h p a v Ho Hi) as H. rewrite E in H. apply H.
Qed.

Lemma sys_inv_reach S0 S : sys_inv S0 -> sreach S0 S -> sys_inv S.
Proof. induction 2; [done|]. by eapply sys_inv_step. Qed.

(** ** What follows *)

(** The console as [config_lser] and [config_con] leave it. *)
Definition configured s : Prop :=
  ls_wbusy (cs_devdata s) = false /\ sending (ls_card (cs_devdata s)) = None /\ wready (ls_card (cs_devdata s)) = false /\
  cs_rsem s = 0 /\ cs_wsem s = 1 /\ zlen (cs_gotchars s) = SIZE /\ cs_gotchars_head s = 0 /\ cs_gotchars_tail s = 0.

Definition boot s : system := mkSys s [] RIdle HIdle (wire (cs_devdata s)) [] [].

Lemma boot_inv s : configured s -> sys_inv (boot s).
Proof.
  intros (Hb & Hn & Hw & Hr & Hws & Hl & Hh & Ht).
  assert (fill s = 0) as Hf by (unfold fill; by rewrite Hh, Ht).
  split; split; simpl; unfold dev_ok; rewrite ?Hb, ?Hr, ?Hws, ?Hf; try done.
  - by rewrite app_nil_r.
  - unfold ring_ok. by rewrite Hl, Hh, Ht.
  - unfold buffer. by rewrite Hf.
Qed.

Lemma holders_pos ws : 0 < holders ws -> exists ch, Sending ch ∈ ws.
Proof.
  induction ws as [|[] ws IH]; simpl; intros H; try lia.
  1, 3, 4: destruct IH as [c Hc]; [lia|]; exists c; by apply elem_of_cons; right.
  exists ch. apply elem_of_cons. by left.
Qed.

(** The next part of every call in progress returns. *)
Definition no_failure (S : system) : Prop :=
  (forall w, w ∈ writers S -> returns (writer_step w (sc S)) (fun _ _ => True)) /\
  returns (reader_step (rd S) (sc S)) (fun _ _ => True) /\
  returns (handler_step (hd S) (sc S)) (fun _ _ => True).

(** C11. However the calls of [putch], by interrupts or by polling, [getch] and the
    interrupt handler interleave: none of them fails, so [lser_write] never
    finds the port busy and no polling loop hangs; the bytes on the line are
    the bytes printed, each of them once, less those of the calls that did not
    send theirs yet; and when no write may start, then a thread is about to
    send, or the handler about to post the semaphore, or the card is busy or
    raises its interrupt: no wakeup is lost. *)
Theorem console_output s S :
  configured s -> sreach (boot s) S ->
  no_failure S /\
  wire (cs_devdata (sc S)) ++ pending (writers S) ≡ₚ printed S /\
  (cs_wsem (sc S) = 0 ->
   (exists ch, Sending ch ∈ writers S) \/ (exists got, hd S = HStart got) \/ on_line (ls_card (cs_devdata (sc S)))).
Proof.
  intros Hs HS. destruct (sys_inv_reach _ _ (boot_inv s Hs) HS) as [Ho Hi]. split_and!.
  - split_and!.
    + intros w [i Hw]%list_elem_of_lookup. by eapply runs_mono; [by eapply writer_keeps|..].
    + by eapply runs_mono; [by eapply reader_keeps|..].
    + by eapply runs_mono; [by eapply handler_keeps|..].
  - apply Ho.
  - intros Hz. destruct Ho as [Hd Hw Ht Hp]. destruct (ls_wbusy (cs_devdata (sc S))) eqn:Hb.
    + right; right. unfold dev_ok in Hd. by rewrite Hb in Hd.
    + destruct (hd S) eqn:Hh; try (left; apply holders_pos; simpl in Ht; lia). right; left. by eexists.
Qed.

(** C12. The input is a queue of at most 31 characters: what [getch] returned,
    followed by what is in the ring, is what the handler put in, in order; the
    handler drops a character only when 31 are unread; and the read semaphore
    never promises a character that is not there. *)
Theorem console_input s S :
  configured s -> sreach (boot s) S ->
  received S ++ buffer (sc S) = accepted S /\
  zlen (buffer (sc S)) < SIZE /\
  returns (input_check (sc S)) (fun room _ => room = None <-> zlen (buffer (sc S)) = SIZE - 1) /\
  0 <= cs_rsem (sc S) <= zlen (buffer (sc S)) /\
  (rd S = RIdle -> hd S = HIdle -> cs_rsem (sc S) = zlen (buffer (sc S))).
Proof.
  intros Hs HS. destruct (sys_inv_reach _ _ (boot_inv s Hs) HS) as [_ [Hr Hn Hc _ _ Hq]].
  pose proof (fill_range (sc S)). rewrite zlen_buffer.
  assert (0 <= taking (rd S) /\ 0 <= posting (hd S)) by (destruct (rd S), (hd S); simpl; lia).
  split_and!; [done|lia| |lia|lia|].
  - apply input_check_spec; [done|done|]. intros Hf. split; [done|lia].
  - intros Hrd Hhd. rewrite Hrd, Hhd in Hc. simpl in Hc. lia.
Qed.

End Thm.

(** ** A card *)

(** It takes three ticks to send a byte, and the keys are typed as fast as the
    driver takes them. *)
Record excard := mkEx { ex_left : option nat; ex_out : list Z; ex_w : bool; ex_r : bool; ex_key : Z; ex_keys : list Z }.

Definition ex_bits (b : bool) : Z := if b then 3 else 1.

Definition ex_read (reg : Z) (c : excard) : Z :=
  if reg =? LSER_REG_WIRQ then ex_bits (ex_w c) else if reg =? LSER_REG_RIRQ then ex_bits (ex_r c) else ex_key c.

Definition ex_write (reg v : Z) (c : excard) : excard :=
  if reg =? LSER_REG_CHAR then mkEx (Some 2%nat) (ex_out c ++ [u8 v]) (ex_w c) (ex_r c) (ex_key c) (ex_keys c)
  else if reg =? LSER_REG_WIRQ then mkEx (ex_left c) (ex_out c) (irq_active v) (ex_r c) (ex_key c) (ex_keys c)
  else mkEx (ex_left c) (ex_out c) (ex_w c) (irq_active v) (ex_key c) (ex_keys c).

Definition ex_type (c : excard) : excard :=
  match ex_r c, ex_keys c with
  | false, k :: ks => mkEx (ex_left c) (ex_out c) (ex_w c) true k ks
  | _, _ => c
  end.
Definition ex_tick (c : excard) : excard :=
  let c := ex_type c in
  match ex_left c with
  | None => c
  | Some O => mkEx None (ex_out c) true (ex_r c) (ex_key c) (ex_keys c)
  | Some (S n) => mkEx (Some n) (ex_out c) (ex_w c) (ex_r c) (ex_key c) (ex_keys c)
  end.

#[export] Program Instance excard_serial : SerialCard excard :=
  {| ser_read := ex_read; ser_write := ex_write; ser_tick := ex_tick; sent := ex_out; sending := ex_left |}.
Next Obligation. intros v c _. done. Qed.
Next Obligation. done. Qed.
Next Obligation. done. Qed.
Next Obligation. intros [[[|n]|] o [] [] k [|y ks]]; done. Qed.

Definition ex_con : con_softc :=
  mkCs (mkLser (mkEx None [] false false 0 [104; 105]) false) 0 1 (zrep CONSOLE_INPUT_BUFFER_SIZE 0) 0 0.

(** A schedule that is played. *)
Inductive turn := TCard | TPrint (ch : Z) | TPoll (ch : Z) | TWriter (i : nat) | TReader | THandler.

Definition turn_of (t : turn) (S : system (C := excard)) : option system :=
  let '(mkSys s ws r h p a v) := S in
  match t with
  | TCard => Some (mkSys (put_dev (put_card (ser_tick (ls_card (cs_devdata s))) (cs_devdata s)) s) ws r h p a v)
  | TPrint ch => Some (mkSys s (ws ++ [Printing ch]) r h (p ++ [u8 ch]) a v)
  | TPoll ch => Some (mkSys s (ws ++ [Polling ch]) r h (p ++ [u8 ch]) a v)
  | TWriter i =>
      w ← ws !! i;
      match writer_step w s with Ret w' s' => Some (mkSys s' (<[i := w']> ws) r h p a v) | _ => None end
  | TReader => match reader_step r s with Ret (r', out) s' => Some (mkSys s' ws r' h p a (v ++ out)) | _ => None end
  | THandler => match handler_step h s with Ret (h', into) s' => Some (mkSys s' ws r h' p (a ++ into) v) | _ => None end
  end.

Lemma turn_sstep t S S' : turn_of t S = Some S' -> sstep S S'.
Proof.
  destruct S as [s ws r h p a v], t as [|ch|ch|i| |]; cbn [turn_of].
  - intros [= <-]. constructor.
  - intros [= <-]. constructor. by left.
  - intros [= <-]. constructor. by right.
  - destruct (ws !! i) as [w|] eqn:Hw; [|done]. simpl. destruct (writer_step w s) as [w' s'| |] eqn:E; [|done..].
    intros [= <-]. by econstructor.
  - destruct (reader_step r s) as [[r' out] s'| |] eqn:E; [|done..]. intros [= <-]. by constructor.
  - destruct (handler_step h s) as [[h' into] s'| |] eqn:E; [|done..]. intros [= <-]. by constructor.
Qed.

Fixpoint play (ts : list turn) (S : system) : option system :=
  match ts with [] => Some S | t :: ts' => turn_of t S ≫= play ts' end.

Lemma play_reach S0 ts S S' : sreach S0 S -> play ts S = Some S' -> sreach S0 S'.
Proof.
  revert S. induction ts as [|t ts IH]; intros S HS H; simpl in H; [by simplify_eq|].
  destruct (turn_of t S) as [S1|] eqn:E; [|done]. apply (IH S1); [|done]. eapply sreach_step; [done|]. by apply (turn_sstep t).
Qed.

(** A thread sends [A]; before it is out another one prints [B] by polling and
    a third one asks for [C]; the handler takes the end of the write and a key;
    the reader waits, then takes the key. *)
Definition ex_turns : list turn :=
  [TPrint 65; TWriter 0; TWriter 0; TReader; TReader; TPoll 66; TPrint 67; TWriter 2; TWriter 1] ++
  replicate 7 THandler ++ [TReader; TReader; TWriter 2; TReader; TWriter 2].

Definition ex_end : system := default (boot ex_con) (play ex_turns (boot ex_con)).

Lemma ex_end_reach : sreach (boot ex_con) ex_end.
Proof. apply (play_reach _ ex_turns (boot ex_con)); [constructor|]. vm_compute. done. Qed.

Lemma ex_configured : configured ex_con.
Proof. by vm_compute. Qed.

Lemma console_output_witness :
  wire (cs_devdata (sc ex_end)) = [65; 66; 67] /\ printed ex_end = [65; 66; 67] /\ no_failure ex_end.
Proof.
  split; [by vm_compute|]. split; [by vm_compute|]. exact (proj1 (console_output ex_con ex_end ex_configured ex_end_reach)).
Defined.

Lemma console_input_witness :
  received ex_end = [104] /\ received ex_end ++ buffer (sc ex_end) = accepted ex_end.
Proof.
  split; [by vm_compute|]. exact (proj1 (console_input ex_con ex_end ex_configured ex_end_reach)).
Defined.

End ConsoleThm.
