(* ===== verification/ConsoleIo.v ===== *)
(** * Calls of the console

    What [putch], [getch] and [con_io] do for the thread that calls them, when
    time passes and interrupts come only while it waits. *)

From S2P Require Import Prelude Copyinout Uio Synch Console ConsoleThm.
Import Copyinout Uio Synch Console ConsoleThm.

Module ConsoleIo.

Section Io.
Context {C B : Type} `{!SerialCard C}.
Implicit Types (s : con_softc (C := C)).

Abbreviation SIZE := CONSOLE_INPUT_BUFFER_SIZE.

(** ** Between calls *)

(** The token is the semaphore's or the card's, and the ring is sound. *)
Definition ring_idle s : Prop := in_inv s RIdle HIdle (buffer s) [].
Record idle s : Prop := {
  id_dev : dev_ok (cs_devdata s);
  id_wsem : 0 <= cs_wsem s;
  id_token : cs_wsem s + Z.b2z (ls_wbusy (cs_devdata s)) = 1;
  id_ring : ring_idle s }.

Definition line s : list Z := wire (cs_devdata s).

Lemma in_inv_ring s a v : in_inv s RIdle HIdle a v -> ring_idle s.
Proof. intros []. by split. Qed.

(** Keys may have been typed in the meantime. *)
Definition more_keys s s' : Prop := exists keys, buffer s' = buffer s ++ keys.

Lemma more_keys_refl s s' : buffer s' = buffer s -> more_keys s s'.
Proof. intros E. exists []. by rewrite E, app_nil_r. Qed.
Lemma more_keys_trans s1 s2 s3 : more_keys s1 s2 -> more_keys s2 s3 -> more_keys s1 s3.
Proof. intros [k1 E1] [k2 E2]. exists (k1 ++ k2). by rewrite E2, E1, (assoc (++)). Qed.

Lemma con_input_spec ch s :
  ring_idle s -> returns (con_input ch s) (fun _ s' => in_only s s' /\ ring_idle s' /\ more_keys s s').
Proof.
  intros H. pose proof H as [Hr Hn Hc _ _ _]. pose proof (fill_range s) as Hf0. simpl in Hc.
  unfold con_input. apply runs_bind, input_check_spec; [done| |]; intros Hf; runs_steps.
  { split_and!; [done|done|by apply more_keys_refl]. }
  eapply runs_mono; [apply (input_store_keeps s RIdle ch ((cs_gotchars_head s + 1) mod SIZE) (buffer s) []); by split| |done].
  intros _ s1 [[E1 E2] H1]. unfold input_head, input_post. runs_steps.
  pose proof (input_head_keeps s1 RIdle ch _ _ _ H1) as [Hr2 Hn2 Hc2 _ _ Hq2]. simpl in Hn2, Hc2, Hq2.
  apply V_count_spec; [simpl; pose proof (fill_range (put_head ((cs_gotchars_head s + 1) mod SIZE) s1)); unfold SIZE in *; lia|].
  split; [done|]. split; [|exists [u8 ch]; by rewrite <- Hq2].
  split; try done; unfold fill in *; simpl in *; lia.
Qed.

Lemma idle_in s s' : idle s -> in_only s s' -> ring_idle s' -> idle s'.
Proof. intros [Hd Hw Ht Hr] [E1 E2] Hr'. split; by rewrite ?E1, ?E2. Qed.

Lemma ring_idle_out s s' : out_only s s' -> ring_idle s -> ring_idle s'.
Proof. intros H Hr. apply (in_inv_ring _ (buffer s) []). by apply (in_inv_out s). Qed.

Lemma more_keys_out s s' : out_only s s' -> more_keys s s'.
Proof. intros (d & n & ->). by apply more_keys_refl. Qed.

(** What is left of the handler when the semaphore was posted. *)
Lemma got_spec s got :
  idle s ->
  returns ((match got with Some ch => con_input ch | None => ret tt end) s) (fun _ s' =>
    idle s' /\ in_only s s' /\ more_keys s s').
Proof.
  intros H. destruct got as [ch|].
  - eapply runs_mono; [apply con_input_spec, H| |done]. intros _ s' (Hio & Hr & Hk). split_and!; [by eapply idle_in|done|done].
  - runs_steps. split_and!; [done|done|by apply more_keys_refl].
Qed.

(** The interrupt handler, called when the card may have something. *)
Lemma lser_irq_spec s :
  idle s ->
  returns (lser_irq s) (fun _ s' =>
    idle s' /\ line s' = line s /\ more_keys s s' /\
    if wready (ls_card (cs_devdata s)) then cs_wsem s' = 1
    else cs_wsem s' = cs_wsem s /\ sending (ls_card (cs_devdata s')) = sending (ls_card (cs_devdata s))).
Proof.
  intros [Hd Hw Ht Hr]. unfold lser_irq, on_dev. runs_steps.
  eapply runs_mono; [by apply irq_locked_spec| |done]. intros [clear got] d' (Hd' & Hs' & H). runs_steps. cbn [fst snd] in *.
  destruct H as [-> H]. destruct (wready (ls_card (cs_devdata s))); destruct H as [H1 H2].
  - rewrite H1 in Ht. simpl in Ht. unfold con_start. runs_steps. apply V_count_spec; [simpl; lia|].
    set (s1 := put_wsem (cs_wsem (put_dev d' s) + 1) (put_dev d' s)).
    assert (out_only s s1) as Ho by by eexists _, _.
    assert (idle s1) as Hid by (split; simpl; rewrite ?H2; simpl; [done|lia|lia|by apply (ring_idle_out s)]).
    eapply runs_mono; [by apply got_spec| |done]. intros _ s' (Hi' & [E1 E2] & Hk).
    split_and!; [done|by unfold line; rewrite E1|eapply more_keys_trans; [by apply more_keys_out|done]|rewrite E2; simpl; lia].
  - runs_steps. assert (out_only s (put_dev d' s)) as Ho by (exists d', (cs_wsem s); by destruct s).
    assert (idle (put_dev d' s)) as Hid by (split; simpl; rewrite ?H1; [done|done|done|by apply (ring_idle_out s)]).
    eapply runs_mono; [by apply got_spec| |done]. intros _ s' (Hi' & [E1 E2] & Hk).
    split_and!; [done|by unfold line; rewrite E1|eapply more_keys_trans; [by apply more_keys_out|done]|by rewrite E2|by rewrite E1].
Qed.

(** While a thread waits for the semaphores: a tick and the handler. *)
Lemma tick_irq_spec s :
  idle s ->
  returns ((on_dev tick ;; lser_irq) s) (fun _ s' =>
    idle s' /\ line s' = line s /\ more_keys s s' /\
    let c := ser_tick (ls_card (cs_devdata s)) in
    if wready c then cs_wsem s' = 1 else cs_wsem s' = cs_wsem s /\ sending (ls_card (cs_devdata s')) = sending c).
Proof.
  intros [Hd Hw Ht Hr]. unfold on_dev, tick. runs_steps. pose proof (tick_ok _ Hd) as (H1 & H2 & H3).
  set (s1 := put_dev _ s). assert (out_only s s1) as Ho by by eexists _, (cs_wsem s).
  assert (idle s1) as Hid by (split; subst s1; cbn [put_dev cs_devdata cs_wsem]; rewrite ?H3; [done|done|done|by apply (ring_idle_out s)]).
  eapply runs_mono; [by apply lser_irq_spec| |done]. intros _ s' (Hi' & Hl & Hk & Hn).
  split_and!; [done|by rewrite Hl|eapply more_keys_trans; [by apply more_keys_out|done]|done].
Qed.

(** ** Output *)

Lemma P_wsem_loop n s :
  idle s ->
  (cs_wsem s = 0 -> match sending (ls_card (cs_devdata s)) with Some k => (k < n)%nat | None => n <> 0%nat end) ->
  returns (P_sleep n cs_wsem put_wsem s) (fun _ s' => exists s1, idle s1 /\ cs_wsem s1 = 1 /\ s' = put_wsem 0 s1 /\ line s1 = line s /\ more_keys s s1).
Proof.
  revert s. induction n as [|n IH]; intros s Hs Hn; cbn [P_sleep]; runs_steps; unfold sem_take;
    pose proof (id_token _ Hs) as Ht; pose proof (id_wsem _ Hs) as Hw;
    (assert (0 <= Z.b2z (ls_wbusy (cs_devdata s))) as Hb by (destruct (ls_wbusy _); simpl; lia));
    destruct (Z.eqb_spec (cs_wsem s) 0) as [E|E]; runs_steps.
  1: { specialize (Hn E). destruct (sending _); lia. }
  1, 3: exists s; assert (cs_wsem s = 1) as -> by lia; split_and!; [done|done|done|done|by apply more_keys_refl].
  pose proof (tick_irq_spec s Hs) as H. apply runs_bind_inv in H.
  eapply runs_mono; [exact H| |done]. intros [] s1 H1. cbv beta in H1.
  eapply runs_bind, runs_mono; [exact H1| |done]. cbv beta. intros _ s2 (Hs2 & Hl & Hk & Hr).
  eapply runs_mono; [apply IH; [done|]| |done].
  - intros E2. cbv zeta in Hr. destruct (wready (ser_tick _)) eqn:Hwr; [lia|]. destruct Hr as [_ Hr]. rewrite Hr.
    specialize (Hn E). destruct (tick_law (ls_card (cs_devdata s))) as [_ Htk].
    pose proof (id_dev _ Hs) as Hd. unfold dev_ok in Hd. destruct (ls_wbusy (cs_devdata s)); simpl in Ht; [|lia].
    destruct Hd as [[[k Hsk] Hw1]|[Hsn Hw1]].
    + rewrite Hsk in Htk, Hn. destruct k as [|k]; destruct Htk as [H2 H3]; [congruence|]. rewrite H3. lia.
    + rewrite Hsn in Htk. destruct Htk as [H2 _]. congruence.
  - cbv beta. intros _ s' (s3 & H3 & Hw3 & -> & Hl3 & Hk3). exists s3.
    split_and!; [done|done|done|by rewrite Hl3|by eapply more_keys_trans].
Qed.

Lemma P_wsem_spec s :
  idle s ->
  returns (P_wsem s) (fun _ s' => exists s1, idle s1 /\ cs_wsem s1 = 1 /\ s' = put_wsem 0 s1 /\ line s1 = line s /\ more_keys s s1).
Proof.
  intros Hs. unfold P_wsem. runs_steps. apply P_wsem_loop; [done|]. intros _. destruct (sending _); lia.
Qed.

Lemma putch_intr_spec s ch :
  idle s -> returns (putch_intr ch s) (fun _ s' => idle s' /\ line s' = line s ++ [u8 ch] /\ more_keys s s').
Proof.
  intros Hs. unfold putch_intr. apply runs_bind. eapply runs_mono; [by apply P_wsem_spec| |done].
  intros _ s' (s1 & [Hd Hw Ht Hr] & Hw1 & -> & Hl & Hk). unfold on_dev. runs_steps.
  assert (ls_wbusy (cs_devdata s1) = false) as Hb by (destruct (ls_wbusy _); simpl in Ht; [lia|done]).
  eapply runs_mono; [by apply (lser_write_spec (cs_devdata s1))| |done]. intros _ d' (Hd' & Hb' & Hs'). cbv beta.
  set (s2 := put_dev d' (put_wsem 0 s1)). assert (out_only s1 s2) as Ho by by eexists _, _.
  split_and!; [|unfold line in *; simpl; by rewrite Hs', <- Hl|eapply more_keys_trans; [done|by apply more_keys_out]].
  split; simpl; rewrite ?Hb'; [done|done|done|by apply (ring_idle_out s1)].
Qed.

Lemma putch_polled_spec s ch :
  idle s -> returns (putch_polled ch s) (fun _ s' => idle s' /\ line s' = line s ++ [u8 ch] /\ more_keys s s').
Proof.
  intros [Hd Hw Ht Hr]. unfold putch_polled, on_dev. runs_steps.
  eapply runs_mono; [by apply lser_writepolled_spec| |done]. intros _ d' (Hd' & Hb' & Hs'). cbv beta.
  assert (out_only s (put_dev d' s)) as Ho by by eexists _, (cs_wsem s).
  split_and!; [|done|by apply more_keys_out]. split; simpl; rewrite ?Hb'; [done|done|done|by apply (ring_idle_out s)].
Qed.

(** ** Input *)

(** A character that is there is taken at once. *)
Lemma getch_intr_spec s n ch rest :
  idle s -> buffer s = ch :: rest ->
  returns (getch_intr n s) (fun r s' => r = ch /\ idle s' /\ line s' = line s /\ buffer s' = rest).
Proof.
  intros [Hd Hw Ht Hr] Hbuf. pose proof Hr as [Hring Hn Hc _ _ _]. simpl in Hc. pose proof (zlen_buffer s) as Hz.
  rewrite Hbuf, zlen_cons in Hz. pose proof (zlen_nonneg rest) as Hz0.
  assert (P_sleep n cs_rsem put_rsem s = Ret tt (put_rsem (cs_rsem s - 1) s)) as HP.
  { destruct n; cbn [P_sleep]; unfold bind, get, sem_take; (destruct (Z.eqb_spec (cs_rsem s) 0); [lia|]); done. }
  unfold getch_intr. rewrite (bind_Ret _ _ _ _ _ HP).
  assert (in_inv (put_rsem (cs_rsem s - 1) s) RTake HIdle (buffer s) []) as H1
    by (split; try done; unfold fill in *; simpl in *; lia).
  pose proof (reader_keeps _ _ _ _ _ H1) as H2. unfold reader_step in H2. apply runs_bind_inv in H2.
  apply runs_bind. eapply runs_mono; [exact H2| |done]. intros r s1 H3.
  cbn in H3. destruct H3 as [[E1 E2] H3].
  pose proof (reader_keeps _ _ _ _ _ H3) as H4. apply runs_bind_inv in H4. apply runs_bind.
  eapply runs_mono; [exact H4| |done]. intros [] s2 H5. runs_steps. cbn in H5. destruct H5 as [[E3 E4] H5].
  pose proof (ii_queue _ _ _ _ _ H5) as Hq. rewrite Hbuf in Hq. simpl in Hq. injection Hq as <- <-.
  split_and!; [done| |unfold line; by rewrite E3, E1|done].
  split; rewrite ?E3, ?E4, ?E1, ?E2; [done|done|done|by eapply in_inv_ring].
Qed.

(** ** The exported calls *)

Implicit Types (c : console (C := C) (B := B)) (x : xfer).

Definition live c : Prop := the_console c = true /\ idle (con c).
(** What a call leaves: only the softc changes, and [out] was sent. *)
Definition after_output c c' (out : list Z) : Prop :=
  exists s', c' = put_con s' c /\ idle s' /\ line s' = line (con c) ++ out /\ more_keys (con c) s'.

Lemma after_output_live c c' out : live c -> after_output c c' out -> live c'.
Proof. intros [H _] (s' & -> & Hs & _). done. Qed.

Lemma after_output_app c c1 c2 o1 o2 : after_output c c1 o1 -> after_output c1 c2 o2 -> after_output c c2 (o1 ++ o2).
Proof.
  intros (s1 & -> & _ & Hl1 & Hk1) (s2 & -> & Hs & Hl2 & Hk2). exists s2. simpl in *.
  split_and!; [done|done|by rewrite Hl2, Hl1, (assoc (++))|by eapply more_keys_trans].
Qed.

Lemma after_output_nil c : live c -> after_output c c [].
Proof.
  intros [_ H]. exists (con c). split_and!; [by destruct c|done|by rewrite app_nil_r|by apply more_keys_refl].
Qed.

(** Once the console is attached [putch] sends its byte, whether it may sleep
    or not. *)
Lemma putch_spec c ch : live c -> returns (putch ch c) (fun _ c' => after_output c c' [u8 ch]).
Proof.
  intros [Ha Hs]. unfold putch. runs_steps. rewrite Ha. simpl. unfold on_con.
  destruct (must_poll c); runs_steps; (eapply runs_mono; [by apply putch_polled_spec || by apply putch_intr_spec| |done]);
    intros _ s' (Hs' & Hl & Hk); by exists s'.
Qed.

Lemma putch_early c ch :
  the_console c = false -> zlen (delayed_outbuf c) < DELAYBUFSIZE ->
  putch ch c = Ret tt (put_delayed (delayed_outbuf c ++ [s8 ch]) c).
Proof.
  intros Ha Hz. unfold putch, putch_delayed, bind, get, KASSERT. rewrite Ha. simpl.
  destruct (zlen (delayed_outbuf c) <? DELAYBUFSIZE) eqn:E; [done|]. lia.
Qed.

Lemma u8_s8 z : u8 (s8 z) = u8 z.
Proof. unfold u8, s8. dlia. Qed.

Lemma s8_is z k : 0 <= k < 128 -> (s8 z =? k) = (u8 z =? k).
Proof. intros Hk. apply eq_iff_eq_true. rewrite !Z.eqb_eq. unfold s8, u8. dlia. Qed.

Lemma flush_loop_spec chars c :
  live c -> returns (flush_loop chars c) (fun _ c' => after_output c c' (u8 <$> chars)).
Proof.
  revert c. induction chars as [|ch chars IH]; intros c Hc; cbn [flush_loop]; runs_steps; [by apply after_output_nil|].
  eapply runs_mono; [by apply (putch_spec c ch)| |done]. intros [] c1 H1.
  eapply runs_mono; [apply IH; by eapply after_output_live| |done]. intros [] c2 H2. by apply (after_output_app c c1 c2 [u8 ch]).
Qed.

(** ** Writing *)

Definition crlf (b : Z) : list Z := if u8 b =? LF then [CR; LF] else [u8 b].

Lemma crlf_line ch c :
  live c ->
  returns (((if* ch =? LF then putch CR) ;; putch ch) c) (fun _ c' => after_output c c' (if ch =? LF then [CR; LF] else [u8 ch])).
Proof.
  intros Hc. apply runs_bind. destruct (Z.eqb_spec ch LF) as [->|Hne].
  - eapply runs_mono; [by apply (putch_spec c CR)| |done]. intros [] c1 H1.
    eapply runs_mono; [apply (putch_spec c1 LF); by eapply after_output_live| |done]. intros [] c2 H2.
    by apply (after_output_app c c1 c2 [CR] [LF]).
  - runs_steps. by apply putch_spec.
Qed.

Lemma reach_join x b n : 0 < n -> reach x b 1 -> reach x (b + 1) (n - 1) -> reach x b n.
Proof.
  intros Hn [?|[?|[[_ Hu] Hm]]] H2; [by left|lia|]. destruct H2 as [?|[?|[[_ Hu2] Hm2]]]; [by left| |].
  - right; right. replace n with 1 by lia. split; [split; [lia|done]|done].
  - right; right. split; [split; lia|]. intros i Hi. destruct (decide (i = 0)) as [->|]; [apply Hm; lia|].
    replace (b + i) with (b + 1 + (i - 1)) by lia. apply Hm2. lia.
Qed.

Lemma get_bytes_one x b l :
  xok x b l -> 1 <= l -> exists v, get_bytes x b 1 = [v].
Proof.
  intros Hx Hl. pose proof (zlen_get_bytes x b l 1 Hx ltac:(lia)) as H. destruct (get_bytes x b 1) as [|v [|w r]]; [done|by exists v|].
  rewrite !zlen_cons in H. pose proof (zlen_nonneg r). lia.
Qed.

Lemma write_char_spec c x b l :
  live c -> xok x b l -> uio_dir (xu x) = UIO_WRITE -> 0 < uio_resid (xu x) ->
  runs (write_char (c, x))
    (fun go st => go = true /\ reach x b 1 /\ snd st = advance 1 x /\ after_output c (fst st) (get_bytes x b 1 ≫= crlf))
    (fun e st => e = EFAULT /\ ~ reach x b 1 /\ fst st = c /\ faulted x (snd st) b 1).
Proof.
  intros Hc Hx Hd Hr. pose proof (xo_resid _ _ _ Hx) as Hres. unfold write_char, move_char, on_uio. runs_steps.
  eapply runs_mono; [apply (uiomove_spec x b l [u8 0] Hx); change (zlen [u8 0]) with 1; lia| |].
  - change (zlen [u8 0]) with 1. rewrite Hd. unfold moved. rewrite Hd. intros bs x' (Hre & -> & ->). cbn [snd fst].
    destruct (get_bytes_one x b l Hx ltac:(lia)) as [v Hv]. rewrite Hv.
    apply (runs_of_option _ _ (s8 v)); [done|].
    assert (forall Q : bool -> io -> Prop, (forall c', after_output c c' (crlf v) -> Q true (c', advance 1 x)) ->
      runs (((if* s8 v =? LF then on_console (putch CR)) ;; on_console (putch (s8 v)) ;; ret true) (c, advance 1 x)) Q
        (fun e st => e = EFAULT /\ ~ reach x b 1 /\ fst st = c /\ faulted x (snd st) b 1)) as H.
    { intros Q HQ. pose proof (crlf_line (s8 v) c Hc) as H. apply runs_bind_inv in H. unfold on_console.
      apply runs_bind. rewrite s8_is in * by done. unfold crlf in HQ. rewrite u8_s8 in H.
      destruct (u8 v =? LF); runs_steps; cbn [fst snd] in *.
      - eapply returns_runs, runs_mono; [exact H| |done]. intros [] c1 H1. runs_steps. cbn [fst snd].
        eapply runs_mono; [exact H1| |done]. intros [] c2 H2. runs_steps. cbn. by apply HQ.
      - eapply returns_runs, runs_mono; [exact H| |done]. intros [] c1 H1. runs_steps. by apply HQ. }
    apply H. intros c' Hc'. cbn. by rewrite app_nil_r.
  - change (zlen [u8 0]) with 1. intros e x' (-> & Hre & Hf). done.
Qed.

(** Where a write stopped that ran into memory that is not there. *)
Definition write_stopped c x b (st : io) : Prop :=
  ~ reach x b (uio_resid (xu x)) /\
  exists k, 0 <= k < uio_resid (xu x) /\ reach x b k /\ xu (snd st) = xu (advance k x) /\
    after_output c (fst st) (get_bytes x b k ≫= crlf).

Lemma con_loop_write fuel patience c x b l :
  live c -> xok x b l -> uio_dir (xu x) = UIO_WRITE -> uio_resid (xu x) <= Z.of_nat fuel ->
  runs (con_loop fuel patience (c, x))
    (fun _ st => reach x b (uio_resid (xu x)) /\ snd st = advance (uio_resid (xu x)) x /\
       after_output c (fst st) (get_bytes x b (uio_resid (xu x)) ≫= crlf))
    (fun e st => e = EFAULT /\ write_stopped c x b st).
Proof.
  revert c x b l. induction fuel as [|fuel IH]; intros c x b l Hc Hx Hd Hf; pose proof (xo_resid _ _ _ Hx) as Hres;
    cbn [con_loop]; runs_steps; cbn [fst snd];
    destruct (Z.ltb_spec 0 (uio_resid (xu x))) as [Hpos|Hz]; try lia; runs_steps.
  1, 3: replace (uio_resid (xu x)) with 0 in * by lia; rewrite (advance_0 _ _ _ Hx), get_bytes_0;
    (split_and!; [by right; left|done|by apply after_output_nil]).
  rewrite Hd. eapply runs_mono; [by apply (write_char_spec c x b l)| |].
  - intros go [c1 x1] (-> & Hre & E & Ho). cbn [fst snd] in *. subst x1.
    assert (xok (advance 1 x) (b + 1) (l - 1)) as Hx1 by (apply xok_advance; [done|lia]).
    eapply runs_mono; [apply (IH c1 (advance 1 x) (b + 1) (l - 1)); [by eapply after_output_live|done|done|simpl; lia]| |];
      cbn [advance xu uio_resid]; cbv beta.
    + intros _ st (Hr2 & E2 & Ho2). split; [by apply reach_join|]. split.
      * rewrite E2. apply xfer_eq; simpl; try done. rewrite (xo_iov _ _ _ Hx). f_equal; [f_equal; f_equal; lia|lia|lia].
      * replace (uio_resid (xu x)) with (1 + (uio_resid (xu x) - 1)) by lia. rewrite get_bytes_app, bind_app; [|apply Hx|lia|lia].
        by eapply after_output_app.
    + intros e st (-> & Hn & k & Hk & Hrk & Ek & Hok). split; [done|]. cbn [advance xu uio_resid] in *. split.
      { intros Hr. apply Hn. apply (reach_part x (advance 1 x) b (uio_resid (xu x)) 1); [done|lia..|done]. }
      exists (k + 1). split_and!; [lia|lia| | |].
      * destruct (decide (k = 0)) as [->|]; [done|]. apply reach_join; [lia|done|]. by replace (k + 1 - 1) with k by lia.
      * rewrite Ek. simpl. rewrite (xo_iov _ _ _ Hx). f_equal; [f_equal; f_equal; lia|lia|lia].
      * replace (k + 1) with (1 + k) by lia. rewrite get_bytes_app, bind_app; [|apply Hx|lia|lia]. by eapply after_output_app.
  - intros e [c1 x1] (-> & Hre & E & Hfl). cbn [fst snd] in *. subst c1. split; [done|]. split.
    { intros Hr. apply Hre. by apply (reach_le _ _ (uio_resid (xu x))); [lia|]. }
    exists 0. rewrite (advance_0 _ _ _ Hx), get_bytes_0. split_and!; [lia|lia|by right; left|apply Hfl|by apply after_output_nil].
Qed.

(** ** Reading *)

(** What [con_io] makes of a key, and the line it hands out when the keys are
    there: up to a newline or [n] characters. *)
Definition key (ch : Z) : Z := if u8 ch =? CR then LF else u8 ch.
Fixpoint typed_line (n : nat) (keys : list Z) : option (list Z) :=
  match n, keys with
  | O, _ => Some []
  | S _, [] => None
  | S n', ch :: keys' => if key ch =? LF then Some [LF] else (key ch ::.) <$> typed_line n' keys'
  end.

Definition may_sleep c : Prop := t_in_interrupt c = false /\ t_iplhigh_count c = 0.
Definition after_input c c' (rest : list Z) : Prop :=
  exists s', c' = put_con s' c /\ idle s' /\ line s' = line (con c) /\ buffer s' = rest.

Lemma getch_spec c n ch rest :
  live c -> may_sleep c -> buffer (con c) = ch :: rest ->
  returns (getch n c) (fun r c' => r = ch /\ after_input c c' rest).
Proof.
  intros [Ha Hs] [H1 H2] Hb. unfold getch. runs_steps. apply runs_KASSERT; [done|]. runs_steps.
  apply runs_KASSERT; [by rewrite H1, H2|]. unfold on_con. runs_steps.
  eapply runs_mono; [by eapply getch_intr_spec| |done]. intros r s' (-> & Hs' & Hl & Hb'). cbv beta. split; [done|]. by exists s'.
Qed.

Lemma read_char_spec c x b l n ch rest :
  live c -> may_sleep c -> buffer (con c) = ch :: rest -> xok x b l -> uio_dir (xu x) = UIO_READ -> 0 < uio_resid (xu x) ->
  runs (read_char n (c, x))
    (fun go st => go = negb (key ch =? LF) /\ reach x b 1 /\ snd st = advance 1 (moved b [key ch] x) /\ after_input c (fst st) rest)
    (fun e st => e = EFAULT /\ ~ reach x b 1 /\ after_input c (fst st) rest /\ faulted x (snd st) b 1).
Proof.
  intros Hc Hm Hb Hx Hd Hr. pose proof (xo_resid _ _ _ Hx) as Hres. unfold read_char, move_char, on_uio, on_console. runs_steps.
  eapply returns_runs, runs_mono; [by eapply getch_spec| |done]. cbn [fst snd]. intros r c1 [-> Hin].
  assert (u8 (if s8 ch =? CR then LF else s8 ch) = key ch) as Hkey.
  { unfold key. rewrite s8_is by done. destruct (u8 ch =? CR); [done|]. apply u8_s8. }
  assert (((if s8 ch =? CR then LF else s8 ch) =? LF) = (key ch =? LF)) as Hlf.
  { unfold key. rewrite (s8_is ch CR) by done. destruct (u8 ch =? CR); [done|]. by apply s8_is. }
  runs_steps. rewrite Hkey, Hlf. cbn [fst snd].
  eapply runs_mono; [apply (uiomove_spec x b l [key ch] Hx); change (zlen [key ch]) with 1; lia| |];
    change (zlen [key ch]) with 1; cbv beta.
  - rewrite Hd. intros bs x' (Hre & -> & ->). apply (runs_of_option _ _ (s8 (key ch))); [done|]. runs_steps. done.
  - intros e x' (-> & Hre & Hfl). done.
Qed.

Lemma typed_line_length n keys bs : typed_line n keys = Some bs -> (length bs <= n)%nat.
Proof.
  revert keys bs. induction n as [|n IH]; intros [|ch keys] bs H; simplify_eq/=; try lia.
  destruct (key ch =? LF); simplify_eq/=; [lia|]. destruct (typed_line n keys) as [bs'|] eqn:E; simplify_eq/=.
  specialize (IH _ _ E). lia.
Qed.

Lemma con_loop_read fuel patience c x b l bs :
  live c -> may_sleep c -> xok x b l -> uio_dir (xu x) = UIO_READ -> uio_resid (xu x) <= Z.of_nat fuel ->
  typed_line (Z.to_nat (uio_resid (xu x))) (buffer (con c)) = Some bs ->
  runs (con_loop fuel patience (c, x))
    (fun _ st => snd st = advance (zlen bs) (moved b bs x) /\ after_input c (fst st) (drop (length bs) (buffer (con c))))
    (fun e st => e = EFAULT /\ ~ reach x b (zlen bs) /\ exists k, (0 < k <= length bs)%nat /\ after_input c (fst st) (drop k (buffer (con c)))).
Proof.
  revert c x b l bs. induction fuel as [|fuel IH]; intros c x b l bs Hc Hm Hx Hd Hf Hl; pose proof (xo_resid _ _ _ Hx) as Hres;
    cbn [con_loop]; runs_steps; cbn [fst snd];
    destruct (Z.ltb_spec 0 (uio_resid (xu x))) as [Hpos|Hz]; try lia; runs_steps.
  1, 3: assert (bs = []) as -> by (replace (uio_resid (xu x)) with 0 in Hl by lia; by simplify_eq/=);
    change (zlen []) with 0; rewrite (moved_nil x b l), (advance_0 x b l) by done;
    (split; [done|]; exists (con c); split_and!; [by destruct c|apply Hc|done|done]).
  rewrite Hd. destruct (Z.to_nat (uio_resid (xu x))) as [|n] eqn:En; [lia|].
  destruct (buffer (con c)) as [|ch rest] eqn:Hb; [done|]. cbn [typed_line] in Hl.
  eapply runs_mono; [by eapply (read_char_spec c x b l)| |].
  - intros go [c1 x1] (-> & Hre & E & s1 & E1 & Hs1 & Hl1 & Hb1). cbn [fst snd] in *. subst x1 c1.
    destruct (Z.eqb_spec (key ch) LF) as [Hk|Hk]; simpl negb; cbv iota.
    { simplify_eq. runs_steps. change (zlen [LF]) with 1. rewrite Hk. split; [done|]. by exists s1. }
    destruct (typed_line n rest) as [bs'|] eqn:Hl'; [|done]. simpl in Hl. injection Hl as <-.
    assert (xok (advance 1 (moved b [key ch] x)) (b + 1) (l - 1)) as Hx1.
    { apply xok_advance; [apply xok_moved; [done|change (zlen [key ch]) with 1; lia]|]. rewrite xu_moved. lia. }
    eapply runs_mono; [apply (IH (put_con s1 c) _ (b + 1) (l - 1) bs'); try done|..];
      cbn [advance xu uio_resid uio_dir con put_con]; rewrite ?xu_moved; try done; try lia; rewrite ?Hb1.
    + split; [apply Hc|done].
    + by replace (Z.to_nat (uio_resid (xu x) - 1)) with n by lia.
    + cbv beta. intros _ st (E2 & s2 & E3 & Hs2 & Hl2 & Hb2). split; [|exists s2; by rewrite E3, Hl2].
      assert (zlen [key ch] + zlen bs' <= l) as Hlen
        by (pose proof (typed_line_length _ _ _ Hl'); unfold zlen; simpl; lia).
      rewrite E2. exact (moved_app x b l [key ch] bs' Hx Hlen).
    + cbv beta. intros e st (-> & Hnr & k & Hk0 & s2 & E3 & Hs2 & Hl2 & Hb2). split; [done|]. split.
      { intros Hr. apply Hnr. rewrite zlen_cons in Hr. pose proof (zlen_nonneg bs').
        apply (reach_part x (advance 1 (moved b [key ch] x)) b (zlen bs' + 1) 1); [apply still_mapped_moved|lia..|done]. }
      exists (S k). split; [simpl; lia|]. exists s2. by rewrite E3, Hl2.
  - intros e [c1 x1] (-> & Hre & (s1 & E1 & Hs1 & Hl1 & Hb1) & Hfl). cbn [fst snd] in *. subst c1. split; [done|].
    assert (bs <> []) as Hne. { intros ->. destruct (key ch =? LF); [done|]. by destruct (typed_line n rest). }
    split; [|exists 1%nat; split; [destruct bs; simpl; [done|lia]|by exists s1]].
    intros Hr. apply Hre. apply (reach_le _ _ (zlen bs)); [|done]. destruct bs; [done|]. rewrite zlen_cons. pose proof (zlen_nonneg bs). lia.
Qed.

(** ** The device operation *)

Lemma locked_back t rw c s' :
  userlock rw c = Some None -> put_lock rw None (put_con s' (put_lock rw (Some t) c)) = put_con s' c.
Proof. destruct c, rw; simpl; by intros ->. Qed.

(** [con_io] takes the lock of its direction, runs the loop and gives it back. *)
Lemma con_io_locked t patience c x (P : con_softc -> xfer -> Prop) (R : Z -> con_softc -> xfer -> Prop) :
  let rw := uio_dir (xu x) in
  let c1 := put_lock rw (Some t) c in
  userlock rw c = Some None ->
  runs (con_loop (Z.to_nat (uio_resid (xu x))) patience (c1, x))
    (fun _ st => exists s', fst st = put_con s' c1 /\ P s' (snd st))
    (fun e st => exists s', fst st = put_con s' c1 /\ R e s' (snd st)) ->
  runs (con_io t patience (c, x))
    (fun _ st => exists s', fst st = put_con s' c /\ P s' (snd st))
    (fun e st => exists s', fst st = put_con s' c /\ R e s' (snd st)).
Proof.
  intros rw c1 Hu H. unfold con_io. runs_steps. cbn [fst snd]. fold rw. rewrite Hu.
  apply runs_KASSERT; [by apply bool_decide_eq_true; eexists|]. unfold on_console, lock_acquire. runs_steps. cbn [fst snd]. rewrite Hu.
  cbn [lock_take]. runs_steps.
  assert (forall s', lock_release t rw (put_con s' c1) = Ret tt (put_con s' c)) as Hrel.
  { intros s'. unfold lock_release, bind, get.
    assert (userlock rw (put_con s' c1) = Some (Some t)) as -> by (subst c1; by destruct rw).
    unfold lock_give, lock_do_i_hold. rewrite bool_decide_eq_true_2 by done. unfold modify. f_equal. by apply locked_back. }
  eapply runs_mono; [exact H|..]; cbv beta.
  - intros [] [c2 x2] (s' & E & HP). cbn [fst snd] in *. subst c2. runs_steps. cbn [fst snd]. rewrite Hrel. runs_steps. by exists s'.
  - intros e [c2 x2] (s' & E & HR). cbn [fst snd] in *. subst c2. runs_steps. cbn [fst snd]. rewrite Hrel. runs_steps. by exists s'.
Qed.

(** C13. [con_io] to write: the bytes of the request go out on the line, in their
    order, each newline after a carriage return.  If the memory of the request
    is not all there, exactly the bytes before the fault went out, and the
    error is [EFAULT].  The lock is free again, keys typed meanwhile are kept,
    and nothing else of the console changes. *)
Theorem con_write_exact t patience c x b l :
  live c -> con_userlock_write c = Some None -> xok x b l -> uio_dir (xu x) = UIO_WRITE ->
  runs (con_io t patience (c, x))
    (fun _ st => reach x b (uio_resid (xu x)) /\ snd st = advance (uio_resid (xu x)) x /\
       after_output c (fst st) (get_bytes x b (uio_resid (xu x)) ≫= crlf))
    (fun e st => e = EFAULT /\ write_stopped c x b st).
Proof.
  intros [Ha Hs] Hu Hx Hd. set (c1 := put_lock UIO_WRITE (Some t) c).
  set (n := uio_resid (xu x)). set (out k s' := idle s' /\ line s' = line (con c) ++ (get_bytes x b k ≫= crlf) /\ more_keys (con c) s').
  pose proof (con_io_locked t patience c x
    (fun s' x' => reach x b n /\ x' = advance n x /\ out n s')
    (fun e s' x' => e = EFAULT /\ ~ reach x b n /\ exists k, 0 <= k < n /\ reach x b k /\ xu x' = xu (advance k x) /\ out k s')) as H.
  rewrite Hd in H. fold c1 in H. specialize (H Hu). eapply runs_mono; [apply H|..].
  - pose proof (xo_resid _ _ _ Hx). eapply runs_mono; [eapply (con_loop_write _ patience c1 x b l); [by split|done|done|lia]|..].
    + intros [] st (H1 & H2 & s' & E & Ho). exists s'. done.
    + intros e st (-> & H1 & k & Hk & H2 & H3 & s' & E & Ho). exists s'. split; [done|]. split_and!; [done|done|by exists k].
  - intros [] st (s' & E & H1 & H2 & Ho). split_and!; [done|done|by exists s'].
  - intros e st (s' & E & -> & H1 & k & Hk & H2 & H3 & Ho). split; [done|]. split; [done|]. exists k. split_and!; [lia|lia|done|done|by exists s'].
Qed.

(** C14. [con_io] to read, when the keys of a line (or enough of them to fill the
    request) were typed: the request gets the line up to its newline, a
    carriage return being one too, or as many characters as it asked for;
    these are taken from the queue, and nothing else of the console changes.
    The error is [EFAULT], when the memory for them is not all there; the
    characters moved and the one that could not be moved are gone. *)
Theorem con_read_exact t patience c x b l bs :
  live c -> may_sleep c -> con_userlock_read c = Some None -> xok x b l -> uio_dir (xu x) = UIO_READ ->
  typed_line (Z.to_nat (uio_resid (xu x))) (buffer (con c)) = Some bs ->
  runs (con_io t patience (c, x))
    (fun _ st => snd st = advance (zlen bs) (moved b bs x) /\ after_input c (fst st) (drop (length bs) (buffer (con c))))
    (fun e st => e = EFAULT /\ ~ reach x b (zlen bs) /\
       exists k, (0 < k <= length bs)%nat /\ after_input c (fst st) (drop k (buffer (con c)))).
Proof.
  intros [Ha Hs] Hm Hu Hx Hd Hl. set (c1 := put_lock UIO_READ (Some t) c).
  set (inp k s' := idle s' /\ line s' = line (con c) /\ buffer s' = drop k (buffer (con c))).
  pose proof (con_io_locked t patience c x
    (fun s' x' => x' = advance (zlen bs) (moved b bs x) /\ inp (length bs) s')
    (fun e s' x' => e = EFAULT /\ ~ reach x b (zlen bs) /\ exists k, (0 < k <= length bs)%nat /\ inp k s')) as H.
  rewrite Hd in H. fold c1 in H. specialize (H Hu). eapply runs_mono; [apply H|..].
  - pose proof (xo_resid _ _ _ Hx). eapply runs_mono; [eapply (con_loop_read _ patience c1 x b l bs); [by split|done|done|done|lia|done]|..].
    + intros [] st (H1 & s' & E & Ho). by exists s'.
    + intros e st (-> & H1 & k & Hk & s' & E & Ho). exists s'. split; [done|]. split_and!; [done|done|by exists k].
  - intros [] st (s' & E & H1 & Ho). split; [done|by exists s'].
  - intros e st (s' & E & -> & H1 & k & Hk & Ho). split; [done|]. split; [done|]. exists k. split; [done|by exists s'].
Qed.

(** ** Before the console is there *)

Fixpoint print_all (chars : list Z) : M (console (C := C) (B := B)) unit :=
  match chars with [] => ret tt | ch :: chars' => putch ch ;; print_all chars' end.

Lemma print_all_early chars c :
  the_console c = false -> zlen (delayed_outbuf c) + zlen chars <= DELAYBUFSIZE ->
  print_all chars c = Ret tt (put_delayed (delayed_outbuf c ++ (s8 <$> chars)) c).
Proof.
  revert c. induction chars as [|ch chars IH]; intros c Ha Hz; cbn [print_all].
  - rewrite app_nil_r. by destruct c.
  - rewrite zlen_cons in Hz. pose proof (zlen_nonneg chars). rewrite (bind_Ret _ _ _ _ _ (putch_early c ch Ha ltac:(lia))).
    rewrite IH; [|done|simpl; rewrite zlen_app, zlen_cons; change (zlen []) with 0; lia]. simpl. by rewrite <- (assoc (++)).
Qed.

Lemma config_idle s :
  dev_ok (cs_devdata s) -> ls_wbusy (cs_devdata s) = false -> zlen (cs_gotchars s) = SIZE ->
  idle (put_tail 0 (put_head 0 (put_wsem 1 (put_rsem 0 s)))).
Proof.
  intros Hd Hb Hl. split; [done|done|simpl; by rewrite Hb|]. split; simpl; try done.
Qed.

(** What the kernel prints before the console is configured, up to 1024
    characters, is kept, and goes out in its order when it is; the console is
    then ready.  A failed allocation is [ENOMEM], and the text stays kept. *)
Theorem early_output c cs chars rsem wsem rlk wlk :
  the_console c = false -> delayed_outbuf c = [] -> zlen chars <= DELAYBUFSIZE ->
  dev_ok (cs_devdata cs) -> ls_wbusy (cs_devdata cs) = false -> zlen (cs_gotchars cs) = SIZE ->
  runs ((print_all chars ;; config_con cs 0 rsem wsem rlk wlk) c)
    (fun _ c' => live c' /\ delayed_outbuf c' = [] /\ userlock UIO_READ c' = Some None /\ userlock UIO_WRITE c' = Some None /\
       line (con c') = line cs ++ (u8 <$> chars))
    (fun e c' => e = ENOMEM /\ (rsem && wsem && rlk && wlk) = false /\ c' = put_delayed (s8 <$> chars) c).
Proof.
  intros Ha He Hz Hd Hb Hl. rewrite (bind_Ret _ _ _ _ _ (print_all_early chars c Ha ltac:(rewrite He; done))).
  rewrite He. simpl app. unfold config_con. runs_steps. change (0 <? 0) with false. cbv iota. runs_steps.
  apply runs_KASSERT; [simpl; by rewrite Ha|].
  destruct rsem, wsem, rlk, wlk; simpl; runs_steps; try done.
  unfold flush_delay_buf. runs_steps. cbn [delayed_outbuf put_locks put_the_console put_con put_delayed].
  eapply returns_runs, runs_mono; [apply flush_loop_spec; split; [done|by apply config_idle]| |done].
  intros [] c' (s' & -> & Hs & Hline & _). runs_steps. simpl. split_and!; try done. rewrite Hline. f_equal.
  rewrite <- list_fmap_compose. apply list_fmap_ext. intros ? z _. apply u8_s8.
Qed.

End Io.

(** ** Instances *)

Definition ex_keyed : con_softc (C := excard) :=
  mkCs (mkLser (mkEx None [] false false 0 []) false) 3 1 ([104; 105; 13] ++ zrep 29 0) 3 0.
Definition ex_console : console (C := excard) (B := unit) := mkConsole ex_keyed true (Some None) (Some None) [] false 0 tt.

Lemma ex_live : live ex_console.
Proof.
  split; [done|]. split; [by vm_compute|by vm_compute|by vm_compute|]. split; try done; by vm_compute.
Qed.

Definition ex_write_uio : xfer := kxfer [97; 10; 98] 0 UIO_WRITE (clear_fault ∅) None.
Definition ex_read_uio : xfer := kxfer [0; 0; 0; 0; 0] 0 UIO_READ (clear_fault ∅) None.

Lemma ex_write_ok : xok ex_write_uio 0 3.
Proof. split; simpl; try done; try lia. Qed.
Lemma ex_read_ok : xok ex_read_uio 0 5.
Proof. split; simpl; try done; try lia. Qed.

Lemma con_write_exact_witness :
  runs (con_io 1 0 (ex_console, ex_write_uio))
    (fun _ st => after_output ex_console (fst st) [97; 13; 10; 98]) (fun e st => ~ reach ex_write_uio 0 3).
Proof.
  eapply runs_mono; [exact (con_write_exact 1 0 ex_console ex_write_uio 0 3 ex_live eq_refl ex_write_ok eq_refl)|..].
  - intros _ st (_ & _ & H). exact H.
  - intros e st (_ & H & _). exact H.
Defined.

Lemma con_read_exact_witness :
  runs (con_io 1 0 (ex_console, ex_read_uio))
    (fun _ st => kmem (snd st) = [104; 105; 10; 0; 0]) (fun e st => ~ reach ex_read_uio 0 3).
Proof.
  eapply runs_mono;
    [exact (con_read_exact 1 0 ex_console ex_read_uio 0 5 [104; 105; 10] ex_live (conj eq_refl eq_refl) eq_refl ex_read_ok eq_refl ltac:(by vm_compute))|..].
  - intros _ st (-> & _). vm_compute. reflexivity.
  - intros e st (_ & H & _). exact H.
Defined.

Definition ex_early : console (C := excard) (B := unit) := mkConsole ex_keyed false None None [] false 0 tt.

Lemma early_output_witness :
  runs ((print_all [79; 83] ;; config_con ex_keyed 0 true true true true) ex_early)
    (fun _ c' => line (con c') = [79; 83]) (fun e _ => false = true).
Proof.
  eapply runs_mono; [apply (early_output ex_early ex_keyed [79; 83] true true true true); vm_compute; done|..].
  - intros _ c' (_ & _ & _ & _ & H). exact H.
  - intros e c' (_ & H & _). symmetry. exact H.
Defined.
End ConsoleIo.
