(* ===== verification/Autoconf.v ===== *)
(** * Device attachment: src/compile/ASST2/autoconf.c and the attachment
      files of src/dev/lamebus

    [Autoconf] models the search for devices on the bus: for each driver, the
    slots it finds, the softc it allocates, the slot marked and the interrupt
    hooked, and the devices that sit on top of it.  The configuration functions
    of the drivers are modelled with them, over their own state; here they are
    a parameter that works on the machine behind the bus. *)

From S2P Require Import Prelude Lamebus.
Import Lamebus.

Module Autoconf.

(** The devices, in the order of the bus loop, then those on other devices. *)
Inductive kind := emu | ltrace | ltimer | lrandom | lhd | lser | beep | rtclock | random | con.
#[global] Instance kind_eq_dec : EqDecision kind.
Proof. solve_decision. Defined.

Definition LB_VENDOR_CS161 : Z := 1.
Definition LBCS161_TIMER : Z := 2.
Definition LBCS161_DISK : Z := 3.
Definition LBCS161_SERIAL : Z := 4.
Definition LBCS161_EMUFS : Z := 7.
Definition LBCS161_TRACE : Z := 8.
Definition LBCS161_RANDOM : Z := 9.

Section Autoconf.
Context {W : Type} `{!LbMachine W}.

(** The addresses of the interrupt handlers, and the configuration functions:
    what [config_emu(dev, unit)] and the others do to the machine, and their
    result. *)
Context (emu_irq ltimer_irq lhd_irq lser_irq : Z).
Context (config : kind -> Z -> Z -> M W Z).

(** A softc: its device, its number, and the slot or softc it is on. *)
Record softc := mkSoftc { sc_kind : kind; sc_unit : Z; sc_on : Z }.

(** [softcs] are those allocated, by address; [oracle] says which allocations
    succeed (an exhausted one: all). *)
Record conf := mkConf { cf_bus : lamebus_softc (W := W); nextunit : kind -> Z; softcs : list softc; oracle : list bool }.

Definition put_bus (b : lamebus_softc) (s : conf) := mkConf b (nextunit s) (softcs s) (oracle s).
Definition put_unit (k : kind) (n : Z) (s : conf) :=
  mkConf (cf_bus s) (fun k' => if decide (k' = k) then n else nextunit s k') (softcs s) (oracle s).
Definition put_softcs (l : list softc) (s : conf) := mkConf (cf_bus s) (nextunit s) l (oracle s).

Definition on_bus {A} (m : M lamebus_softc A) : M conf A := zoom cf_bus put_bus m.
Definition on_world {A} (m : M W A) : M conf A := on_bus (zoom lb_world put_world m).

(** The address of a new softc. *)
Definition kmalloc (d : softc) : M conf (option Z) :=
  let* s := get in
  match oracle s with
  | false :: o => modify (fun s => mkConf (cf_bus s) (nextunit s) (softcs s) o) ;; ret None
  | o => modify (fun s => mkConf (cf_bus s) (nextunit s) (softcs s ++ [d]) (tail o)) ;; ret (Some (zlen (softcs s)))
  end.

(** ** Attachment to the bus *)

Definition attach_on_bus (k : kind) (deviceid low high : Z) (irq : option Z) (unitno : Z) : M conf (option Z) :=
  let* slot := on_bus (lamebus_probe LB_VENDOR_CS161 deviceid low high) in
  if slot <? 0 then ret None
  else
    let* dev := kmalloc (mkSoftc k unitno slot) in
    match dev with
    | None => ret None
    | Some d =>
        on_bus (lamebus_mark slot) ;;
        match irq with Some f => on_bus (lamebus_attach_interrupt slot (Some d) (Some f)) | None => ret tt end ;;
        ret (Some d)
    end.

Definition attach_emu_to_lamebus := attach_on_bus emu LBCS161_EMUFS 1 1 (Some emu_irq).
Definition attach_ltrace_to_lamebus := attach_on_bus ltrace LBCS161_TRACE 1 1 None.
Definition attach_ltimer_to_lamebus := attach_on_bus ltimer LBCS161_TIMER 1 1 (Some ltimer_irq).
Definition attach_lrandom_to_lamebus := attach_on_bus lrandom LBCS161_RANDOM 1 1 None.
Definition attach_lhd_to_lamebus := attach_on_bus lhd LBCS161_DISK 2 2 (Some lhd_irq).
Definition attach_lser_to_lamebus := attach_on_bus lser LBCS161_SERIAL 1 1 (Some lser_irq).

(** ** Attachment to other devices *)

Definition attach_beep_to_ltimer (unitno ls : Z) := kmalloc (mkSoftc beep unitno ls).
Definition attach_rtclock_to_ltimer (unitno ls : Z) := kmalloc (mkSoftc rtclock unitno ls).
Definition attach_random_to_lrandom (unitno ls : Z) := kmalloc (mkSoftc random unitno ls).
Definition attach_con_to_lser (unitno ls : Z) := kmalloc (mkSoftc con unitno ls).

(** The body every [tryattach] function has; [children] is [autoconf_...]. *)
Definition tryattach (k : kind) (attach : M conf (option Z)) (children : Z -> M conf unit) (devunit : Z) : M conf Z :=
  let* dev := attach in
  match dev with
  | None => ret (-1)
  | Some d =>
      let* result := on_world (config k d devunit) in
      if negb (result =? 0) then ret result
      else modify (put_unit k (devunit + 1)) ;; children d ;; ret 0
  end.

Definition no_children (bus : Z) : M conf unit := ret tt.

Definition tryattach_beep_to_ltimer (devunit bus : Z) := tryattach beep (attach_beep_to_ltimer devunit bus) no_children devunit.
Definition tryattach_rtclock_to_ltimer (devunit bus : Z) := tryattach rtclock (attach_rtclock_to_ltimer devunit bus) no_children devunit.
Definition tryattach_random_to_lrandom (devunit bus : Z) := tryattach random (attach_random_to_lrandom devunit bus) no_children devunit.
Definition tryattach_con_to_lser (devunit bus : Z) := tryattach con (attach_con_to_lser devunit bus) no_children devunit.

(** [if (nextunit <= 0)]: one of the kind is enough. *)
Definition first_only (k : kind) (m : M conf Z) : M conf unit :=
  let* s := get in
  if* nextunit s k <=? 0 then let* _ := m in ret tt.

Definition autoconf_ltimer (bus : Z) : M conf unit :=
  first_only beep (tryattach_beep_to_ltimer 0 bus) ;;
  first_only rtclock (tryattach_rtclock_to_ltimer 0 bus).
Definition autoconf_lrandom (bus : Z) : M conf unit := first_only random (tryattach_random_to_lrandom 0 bus).
Definition autoconf_lser (bus : Z) : M conf unit := first_only con (tryattach_con_to_lser 0 bus).

Definition tryattach_emu_to_lamebus (u : Z) := tryattach emu (attach_emu_to_lamebus u) no_children u.
Definition tryattach_ltrace_to_lamebus (u : Z) := tryattach ltrace (attach_ltrace_to_lamebus u) no_children u.
Definition tryattach_ltimer_to_lamebus (u : Z) := tryattach ltimer (attach_ltimer_to_lamebus u) autoconf_ltimer u.
Definition tryattach_lrandom_to_lamebus (u : Z) := tryattach lrandom (attach_lrandom_to_lamebus u) autoconf_lrandom u.
Definition tryattach_lhd_to_lamebus (u : Z) := tryattach lhd (attach_lhd_to_lamebus u) no_children u.
Definition tryattach_lser_to_lamebus (u : Z) := tryattach lser (attach_lser_to_lamebus u) autoconf_lser u.

(** [do result = try(devunit++); while (result == 0)]. *)
Fixpoint attach_loop (fuel : nat) (try : Z -> M conf Z) (devunit : Z) : M conf unit :=
  match fuel with
  | O => crashed Hung
  | S fuel' =>
      let* result := try devunit in
      if* result =? 0 then attach_loop fuel' try (devunit + 1)
  end.

(** A device that is found takes one of the 32 slots. *)
Definition attach_all (k : kind) (try : Z -> M conf Z) : M conf unit :=
  let* s := get in
  attach_loop (S (Z.to_nat LB_NSLOTS)) try (nextunit s k).

Definition autoconf_lamebus : M conf unit :=
  attach_all emu tryattach_emu_to_lamebus ;;
  attach_all ltrace tryattach_ltrace_to_lamebus ;;
  attach_all ltimer tryattach_ltimer_to_lamebus ;;
  attach_all lrandom tryattach_lrandom_to_lamebus ;;
  attach_all lhd tryattach_lhd_to_lamebus ;;
  attach_all lser tryattach_lser_to_lamebus.

(** [mainbus_bootstrap] of lamebus_machdep.c, with interrupts off; turning
    them on and starting the timer are the processor's. *)
Definition mainbus_bootstrap (w : W) (o : list bool) : outcome conf unit :=
  (on_bus lamebus_find_cpus ;; autoconf_lamebus) (mkConf (lamebus_init w) (fun _ => 0) [] o).

(** ** What the search finds *)

(** The card a driver is for, and its interrupt handler. *)
Definition drv (k : kind) : option (Z * Z * option Z) :=
  match k with
  | emu => Some (LBCS161_EMUFS, 1, Some emu_irq)
  | ltrace => Some (LBCS161_TRACE, 1, None)
  | ltimer => Some (LBCS161_TIMER, 1, Some ltimer_irq)
  | lrandom => Some (LBCS161_RANDOM, 1, None)
  | lhd => Some (LBCS161_DISK, 2, Some lhd_irq)
  | lser => Some (LBCS161_SERIAL, 1, Some lser_irq)
  | _ => None
  end.
Definition irq_of (k : kind) : option Z := drv k ≫= snd.

(** The card in [slot] is one for the driver of [k]. *)
Definition is_dev (w : W) (k : kind) (slot : Z) : bool :=
  match drv k with
  | Some (id, v, _) =>
      (bus_word (cfg_addr slot CFGREG_VID) w =? LB_VENDOR_CS161) && (bus_word (cfg_addr slot CFGREG_DID) w =? id) &&
      (bus_word (cfg_addr slot CFGREG_DRL) w =? v)
  | None => false
  end.

Definition inuse (c : conf) (slot : Z) : bool := Z.testbit (ls_slotsinuse (cf_bus c)) slot.
Definition hooks (c : conf) (slot : Z) := (zlookup (ls_irqfuncs (cf_bus c)) slot, zlookup (ls_devdata (cf_bus c)) slot).

Definition same_cards (w w' : W) : Prop :=
  forall slot off, 0 <= slot < LB_NSLOTS -> off = CFGREG_VID \/ off = CFGREG_DID \/ off = CFGREG_DRL ->
    bus_word (cfg_addr slot off) w' = bus_word (cfg_addr slot off) w.

(** What the configuration functions are relied on for: they return, and do
    not write to the controller's description of the cards. *)
Definition config_returns : Prop := forall k d u w, exists r w', config k d u w = Ret r w' /\ same_cards w w'.

(** [slot] has been attached to a driver for its card. *)
Definition attached (w : W) (c : conf) (slot : Z) : Prop :=
  inuse c slot = true /\
  exists k u d, is_dev w k slot = true /\ zlookup (softcs c) d = Some (mkSoftc k u slot) /\
    hooks c slot = (Some (irq_of k), Some (match irq_of k with Some _ => Some d | None => None end)).

(** Since the start, at [c0]: a slot is as it was, or was free and is attached. *)
Record progress (c0 c : conf) : Prop := {
  pr_wf : lb_wf (cf_bus c);
  pr_cards : same_cards (lb_world (cf_bus c0)) (lb_world (cf_bus c));
  pr_slots slot : 0 <= slot < LB_NSLOTS ->
    (inuse c slot = inuse c0 slot /\ hooks c slot = hooks c0 slot) \/
    (inuse c0 slot = false /\ attached (lb_world (cf_bus c0)) c slot);
  pr_oracle : oracle c0 = [] -> oracle c = [] }.

(** Slots that are free have no handler. *)
Definition clean (c : conf) : Prop :=
  forall slot, 0 <= slot < LB_NSLOTS -> inuse c slot = false -> hooks c slot = (Some None, Some None).

Lemma same_cards_trans w1 w2 w3 : same_cards w1 w2 -> same_cards w2 w3 -> same_cards w1 w3.
Proof. intros H1 H2 slot off Hs Ho. by rewrite H2, H1. Qed.

Lemma is_dev_same w w' k slot : same_cards w w' -> 0 <= slot < LB_NSLOTS -> is_dev w' k slot = is_dev w k slot.
Proof. intros H Hs. unfold is_dev. destruct (drv k) as [[[id v] f]|]; [|done]. by rewrite !H by auto. Qed.

Lemma suits_dev c k id v f slot :
  drv k = Some (id, v, f) -> suits (cf_bus c) LB_VENDOR_CS161 id v v slot = negb (inuse c slot) && is_dev (lb_world (cf_bus c)) k slot.
Proof.
  intros Hk. unfold suits, is_dev, inuse. rewrite Hk. rewrite <- !andb_assoc. do 4 f_equal.
  apply eq_iff_eq_true. rewrite andb_true_iff, !Z.leb_le, Z.eqb_eq. lia.
Qed.

(** How many slots are in use. *)
Definition used (c : conf) : nat := length (List.filter (inuse c) (seqZ 0 LB_NSLOTS)).

Lemma filter_le {A} (f : A -> bool) l : (length (List.filter f l) <= length l)%nat.
Proof. induction l as [|x l IH]; simpl; [done|]. destruct (f x); simpl; lia. Qed.

Lemma filter_more {A} (f g : A -> bool) x l :
  NoDup l -> x ∈ l -> f x = false -> g x = true -> (forall y, y <> x -> g y = f y) ->
  length (List.filter g l) = S (length (List.filter f l)).
Proof.
  intros Hnd. induction Hnd as [|y l Hy Hnd IH]; intros Hx Hf Hg Hfg; [by apply elem_of_nil in Hx|].
  apply elem_of_cons in Hx as [<-|Hx].
  - simpl. rewrite Hf, Hg. simpl. f_equal. f_equal. apply filter_ext_in. intros z Hz. apply Hfg. intros ->. apply Hy. by apply list_elem_of_In.
  - simpl. rewrite (Hfg y) by (intros ->; done). destruct (f y); simpl; rewrite IH; done.
Qed.

Lemma used_le c : (used c <= Z.to_nat LB_NSLOTS)%nat.
Proof. unfold used. etransitivity; [apply filter_le|]. by rewrite length_seqZ. Qed.

Lemma used_same c c' : (forall slot, inuse c' slot = inuse c slot) -> used c' = used c.
Proof. intros H. unfold used. f_equal. apply filter_ext. done. Qed.

Lemma used_more c c' slot :
  0 <= slot < LB_NSLOTS -> inuse c slot = false -> inuse c' slot = true -> (forall y, y <> slot -> inuse c' y = inuse c y) -> used c' = S (used c).
Proof.
  intros Hs. apply filter_more; [apply NoDup_seqZ|]. apply elem_of_seqZ. lia.
Qed.

(** ** One device *)

Lemma slot_mark_spec (s : lamebus_softc (W := W)) slot :
  lb_wf s -> 0 <= slot < LB_NSLOTS -> Z.testbit (ls_slotsinuse s) slot = false ->
  lamebus_mark slot s = Ret tt (put_inuse (Z.lor (ls_slotsinuse s) (bit_mask slot)) s).
Proof.
  intros [Hlk _ _ _ _] Hs Hb. unfold lamebus_mark, slot_range.
  assert ((0 <=? slot) && (slot <? LB_NSLOTS) = true) as -> by lia.
  unfold spinlock_acquire, spinlock_release, bind, KASSERT, ret, get, modify. rewrite Hlk. cbn [ls_slotsinuse put_ls_lock].
  rewrite land_mask_zero, Hb by lia. simpl. destruct s; simpl in *; by subst.
Qed.

Lemma attach_spec (s : lamebus_softc (W := W)) slot d f :
  lb_wf s -> 0 <= slot < LB_NSLOTS -> Z.testbit (ls_slotsinuse s) slot = true ->
  zlookup (ls_irqfuncs s) slot = Some None -> zlookup (ls_devdata s) slot = Some None ->
  lamebus_attach_interrupt slot d f s = Ret tt (put_handler slot d f s).
Proof.
  intros [Hlk _ _ _ _] Hs Hb Hf Hd. unfold lamebus_attach_interrupt, slot_range.
  assert ((0 <=? slot) && (slot <? LB_NSLOTS) = true) as -> by lia.
  unfold spinlock_acquire, spinlock_release, bind, KASSERT, ret, get, modify, of_option. rewrite Hlk. cbn [ls_slotsinuse ls_devdata ls_irqfuncs put_ls_lock].
  rewrite land_mask_zero, Hb, Hd, Hf by lia. simpl. destruct s; simpl in *; by subst.
Qed.

(** The bus after a slot is taken. *)
Definition taken (slot : Z) (d : Z) (f : option Z) (s : lamebus_softc (W := W)) : lamebus_softc :=
  let s1 := put_inuse (Z.lor (ls_slotsinuse s) (bit_mask slot)) s in
  match f with Some _ => put_handler slot (Some d) f s1 | None => s1 end.

Lemma taken_wf slot d f s : lb_wf s -> 0 <= slot < LB_NSLOTS -> lb_wf (taken slot d f s).
Proof.
  intros [H1 H2 H3 H4 H5] Hs. destruct (inuse_set _ slot H2 Hs) as [Hi _].
  unfold taken. destruct f; split; simpl; rewrite ?zlen_zinsert; done.
Qed.

Lemma taken_hooks slot d f s x :
  lb_wf s -> 0 <= slot < LB_NSLOTS -> 0 <= x < LB_NSLOTS ->
  zlookup (ls_irqfuncs s) slot = Some None -> zlookup (ls_devdata s) slot = Some None ->
  (zlookup (ls_irqfuncs (taken slot d f s)) x, zlookup (ls_devdata (taken slot d f s)) x) =
  if bool_decide (x = slot) then (Some f, Some (match f with Some _ => Some d | None => None end))
  else (zlookup (ls_irqfuncs s) x, zlookup (ls_devdata s) x).
Proof.
  intros [_ _ H3 H4 _] Hs Hx Hf Hd. case_bool_decide as E; [subst x|]; unfold taken; destruct f; simpl.
  - rewrite !zlookup_zinsert_eq by lia. done.
  - by rewrite Hf, Hd.
  - rewrite !zlookup_zinsert_ne by done. done.
  - done.
Qed.

Lemma taken_inuse slot d f s x :
  0 <= slot -> Z.testbit (ls_slotsinuse (taken slot d f s)) x = bool_decide (x = slot) || Z.testbit (ls_slotsinuse s) x.
Proof.
  intros Hs. assert (ls_slotsinuse (taken slot d f s) = Z.lor (ls_slotsinuse s) (bit_mask slot)) as -> by by destruct f.
  destruct (decide (0 <= x)).
  - rewrite testbit_set by lia. done.
  - rewrite !Z.testbit_neg_r by lia. rewrite bool_decide_false by lia. done.
Qed.

Lemma find_some_in {A} (f : A -> bool) l x : List.find f l = Some x -> x ∈ l /\ f x = true.
Proof. intros H%List.find_some. by rewrite list_elem_of_In. Qed.

(** Every device of kind [k] is attached. *)
Definition complete (c0 : conf) (k : kind) (c : conf) : Prop :=
  forall slot, 0 <= slot < LB_NSLOTS -> is_dev (lb_world (cf_bus c0)) k slot = true -> inuse c slot = true.

Definition grows (c c' : conf) : Prop := forall slot, inuse c slot = true -> inuse c' slot = true.

(** The rest of the attachment, when a slot was found and memory is there. *)
Lemma attach_found c0 c k id v f u slot o :
  drv k = Some (id, v, f) -> clean c0 -> progress c0 c ->
  0 <= slot < LB_NSLOTS -> inuse c slot = false -> is_dev (lb_world (cf_bus c0)) k slot = true -> (oracle c0 = [] -> o = []) ->
  returns ((on_bus (lamebus_mark slot) ;;
            match f with Some g => on_bus (lamebus_attach_interrupt slot (Some (zlen (softcs c))) (Some g)) | None => ret tt end ;;
            ret (Some (zlen (softcs c))))
           (mkConf (cf_bus c) (nextunit c) (softcs c ++ [mkSoftc k u slot]) o)) (fun r c' =>
    progress c0 c' /\ grows c c' /\ match r with Some _ => used c' = S (used c) | None => oracle c0 = [] -> complete c0 k c' end).
Proof.
  intros Hk Hcl [Hwf Hcards Hslots Hor] Hs Hfree Hdev Ho.
  assert (inuse c0 slot = false /\ hooks c slot = (Some None, Some None)) as [Hfree0 Hh].
  { destruct (Hslots slot Hs) as [[E1 E2]|[E1 [E2 _]]]; [|congruence]. rewrite Hfree in E1. split; [done|]. rewrite E2. by apply Hcl. }
  unfold hooks in Hh. injection Hh as Hf Hd. set (d := zlen (softcs c)).
  set (c' := mkConf (taken slot d f (cf_bus c)) (nextunit c) (softcs c ++ [mkSoftc k u slot]) o).
  assert (forall Q : option Z -> conf -> Prop, Q (Some d) c' ->
    returns ((on_bus (lamebus_mark slot) ;;
              match f with Some g => on_bus (lamebus_attach_interrupt slot (Some d) (Some g)) | None => ret tt end ;;
              ret (Some d)) (mkConf (cf_bus c) (nextunit c) (softcs c ++ [mkSoftc k u slot]) o)) Q) as Hrun.
  { intros Q HQ. unfold on_bus. runs_steps. cbn [cf_bus]. rewrite slot_mark_spec by done. runs_steps. subst c'. unfold taken in HQ.
    destruct f as [g|]; runs_steps; cbn [cf_bus put_bus]; [|done].
    rewrite attach_spec; [by runs_steps|by apply (taken_wf slot d None)|done| |done|done].
    pose proof (taken_inuse slot d None (cf_bus c) slot ltac:(lia)) as E. rewrite bool_decide_true in E by done. exact E. }
  apply Hrun. assert (forall x, inuse c' x = bool_decide (x = slot) || inuse c x) as Hin by (intros x; apply taken_inuse; lia).
  split; [|split].
  - split; [by apply taken_wf|by subst c'; destruct f| |done].
    intros x Hx. destruct (decide (x = slot)) as [->|Hne].
    + right. split; [done|]. split; [by rewrite Hin, bool_decide_true|]. exists k, u, d. split; [done|]. split.
      * simpl. rewrite zlookup_app_r by (subst d; lia). subst d. by rewrite Z.sub_diag.
      * unfold hooks. subst c'. cbn [cf_bus]. rewrite taken_hooks by done. rewrite bool_decide_true by done. unfold irq_of. by rewrite Hk.
    + assert (inuse c' x = inuse c x) as E by (by rewrite Hin, bool_decide_false).
      assert (hooks c' x = hooks c x) as E' by (unfold hooks; subst c'; cbn [cf_bus]; rewrite taken_hooks by done; by rewrite bool_decide_false).
      rewrite E, E'. destruct (Hslots x Hx) as [?|[E1 (E2 & k' & u' & d' & H1 & H2 & H3)]]; [by left|right].
      split; [done|]. split; [by rewrite E|]. exists k', u', d'. rewrite E'. split_and!; [done| |done].
      simpl. apply zlookup_Some_range in H2 as Hr. rewrite zlookup_app_l; [done|lia].
  - intros x Hx. rewrite Hin, Hx. apply orb_true_r.
  - apply (used_more c c' slot); [done|done|by rewrite Hin, bool_decide_true|]. intros y Hy. by rewrite Hin, bool_decide_false.
Qed.

Lemma attach_on_bus_spec c0 c k id v f u :
  drv k = Some (id, v, f) -> clean c0 -> progress c0 c ->
  returns (attach_on_bus k id v v f u c) (fun r c' =>
    progress c0 c' /\ grows c c' /\
    match r with
    | Some _ => used c' = S (used c)
    | None => oracle c0 = [] -> complete c0 k c'
    end).
Proof.
  intros Hk Hcl Hp. pose proof Hp as [Hwf Hcards Hslots Hor]. unfold attach_on_bus, on_bus. apply runs_bind, runs_zoom.
  rewrite probe_spec by apply Hwf. apply runs_Ret.
  assert (put_bus (cf_bus c) c = c) as -> by by destruct c.
  destruct (List.find _ _) as [slot|] eqn:Hfind; simpl default.
  2: { simpl. runs_steps. split; [done|]. split; [by intros ?|]. intros _ slot Hs Hd.
    assert (slot ∈ seqZ 0 LB_NSLOTS) as Hin by (apply elem_of_seqZ; lia).
    pose proof (List.find_none _ _ Hfind slot ltac:(by apply list_elem_of_In)) as Hno. cbv beta in Hno.
    rewrite (suits_dev c k id v f slot Hk), (is_dev_same _ _ _ _ Hcards Hs), Hd in Hno. by destruct (inuse c slot). }
  apply find_some_in in Hfind as [Hin%elem_of_seqZ Hsuit]. assert (0 <= slot < LB_NSLOTS) as Hs by lia.
  rewrite (suits_dev c k id v f slot Hk), (is_dev_same _ _ _ _ Hcards Hs) in Hsuit.
  apply andb_true_iff in Hsuit as [Hfree%negb_true_iff Hdev].
  change (default (-1) (Some slot)) with slot. assert ((slot <? 0) = false) as -> by lia.
  unfold kmalloc. apply runs_bind, runs_bind, runs_get. cbv beta.
  destruct (oracle c) as [|[] o] eqn:Ho; apply runs_bind, runs_modify, runs_ret; cbv beta iota.
  3: { runs_steps. split; [|split; [by intros ?|intros H0; by specialize (Hor H0)]].
    split; try done. intros H0. by specialize (Hor H0). }
  1: change (tail []) with (@nil bool).
  all: apply (attach_found c0 c k id v f u slot); try done. intros H0. by specialize (Hor H0).
Qed.

(** ** What a driver configures and attaches to itself *)

(** Only the machine, the softcs and the unit numbers change. *)
Definition same_slots (c c' : conf) : Prop := (forall slot, inuse c' slot = inuse c slot) /\ (forall slot, hooks c' slot = hooks c slot).

Lemma progress_same c0 c c' :
  progress c0 c -> same_slots c c' -> lb_wf (cf_bus c') -> same_cards (lb_world (cf_bus c)) (lb_world (cf_bus c')) ->
  (exists l, softcs c' = softcs c ++ l) -> (oracle c = [] -> oracle c' = []) -> progress c0 c'.
Proof.
  intros [Hwf Hcards Hslots Hor] [Hi Hh] Hwf' Hcards' [l Hl] Hor'.
  split; [done|by eapply same_cards_trans| |auto]. intros x Hx. rewrite Hi, Hh.
  destruct (Hslots x Hx) as [?|[E1 (E2 & k & u & d & H1 & H2 & H3)]]; [by left|right].
  split; [done|]. split; [by rewrite Hi|]. exists k, u, d. rewrite Hh, Hl. split_and!; [done| |done].
  apply zlookup_Some_range in H2 as Hr. rewrite zlookup_app_l; [done|lia].
Qed.

(** A step that attaches nothing to the bus. *)
Definition quiet {A} (c0 : conf) (m : M conf A) : Prop :=
  forall c, progress c0 c -> returns (m c) (fun _ c' => progress c0 c' /\ same_slots c c').

Lemma quiet_bind {A B} c0 (m : M conf A) (k : A -> M conf B) : quiet c0 m -> (forall a, quiet c0 (k a)) -> quiet c0 (let* x := m in k x).
Proof.
  intros Hm Hk c Hc. apply runs_bind. eapply runs_mono; [by apply Hm| |done]. intros a c1 [H1 [S1 S1']].
  eapply runs_mono; [by apply Hk| |done]. intros b c2 [H2 [S2 S2']]. split; [done|]. split; intros x; by rewrite ?S2, ?S2', ?S1, ?S1'.
Qed.
Lemma quiet_ret {A} c0 (a : A) : quiet c0 (ret a).
Proof. intros c Hc. runs_steps. done. Qed.

Lemma quiet_config c0 k d u : config_returns -> quiet c0 (on_world (config k d u)).
Proof.
  intros Hcfg c Hc. unfold on_world, on_bus. runs_steps. destruct (Hcfg k d u (lb_world (cf_bus c))) as (r & w' & -> & Hw). runs_steps.
  split; [|done]. apply (progress_same c0 c); try done.
  - destruct (pr_wf _ _ Hc). by split.
  - exists []. by rewrite app_nil_r.
Qed.

Lemma quiet_unit c0 k n : quiet c0 (modify (put_unit k n)).
Proof.
  intros c Hc. runs_steps. split; [|done]. apply (progress_same c0 c); try done; [apply Hc|]. exists []. by rewrite app_nil_r.
Qed.

Lemma quiet_kmalloc c0 s : quiet c0 (kmalloc s).
Proof.
  intros c Hc. unfold kmalloc. runs_steps. destruct (oracle c) as [|[] o] eqn:Ho; runs_steps; (split; [|done]);
    apply (progress_same c0 c); try done; try apply Hc; try (by rewrite Ho); [by eexists|by eexists|exists []; by rewrite app_nil_r].
Qed.

Lemma quiet_child c0 k unitno bus : config_returns -> quiet c0 (first_only k (tryattach k (kmalloc (mkSoftc k unitno bus)) no_children unitno)).
Proof.
  intros Hcfg c Hc. unfold first_only. apply runs_bind, runs_get. destruct (_ <=? 0); [|by apply quiet_ret].
  apply (quiet_bind c0 (tryattach k (kmalloc (mkSoftc k unitno bus)) no_children unitno) (fun _ => ret tt)); [|intros; apply quiet_ret|done].
  apply quiet_bind; [apply quiet_kmalloc|]. intros [d|]; [|apply quiet_ret].
  apply quiet_bind; [by apply quiet_config|]. intros r. destruct (negb _); [apply quiet_ret|].
  apply quiet_bind; [apply quiet_unit|]. intros _. apply quiet_bind; [apply quiet_ret|]. intros _. apply quiet_ret.
Qed.

(** ** All devices of a kind *)

(** Nothing goes wrong in the configuration of the devices on the bus. *)
Definition config_works : Prop := forall k d u w, is_Some (drv k) -> exists w', config k d u w = Ret 0 w'.

(** [children] is any step that attaches nothing to the bus. *)
Lemma tryattach_spec c0 c k id v f children u :
  config_returns -> drv k = Some (id, v, f) -> clean c0 -> progress c0 c -> (forall d, quiet c0 (children d)) ->
  returns (tryattach k (attach_on_bus k id v v f u) children u c) (fun r c' =>
    progress c0 c' /\ grows c c' /\ (r = 0 -> used c' = S (used c)) /\
    (r <> 0 -> oracle c0 = [] -> config_works -> complete c0 k c')).
Proof.
  intros Hcfg Hk Hcl Hc Hch. unfold tryattach. apply runs_bind.
  eapply runs_mono; [by apply (attach_on_bus_spec c0)| |done]. intros [d|] c1 (H1 & G1 & U1); [|runs_steps; split_and!; [done|done|done|auto]].
  apply runs_bind. destruct (Hcfg k d u (lb_world (cf_bus c1))) as (r & w' & Er & _).
  pose proof (quiet_config c0 k d u Hcfg c1 H1) as Hq. unfold on_world, on_bus, zoom in Hq |- *. rewrite Er in Hq |- *. destruct Hq as [H2 [S2 S2']].
  apply runs_Ret. set (c2 := put_bus _ c1) in *.
  assert (grows c c2) as G2 by (intros x Hx; rewrite S2; by apply G1).
  destruct (Z.eqb_spec r 0) as [->|Hr]; simpl.
  - pose proof (quiet_bind c0 (modify (put_unit k (u + 1))) (fun _ => children d ;; ret 0) (quiet_unit _ _ _)) as Hq.
    assert (quiet c0 (modify (put_unit k (u + 1)) ;; children d ;; ret 0)) as Hq'
      by (apply Hq; intros _; apply quiet_bind; [apply Hch|intros _; apply quiet_ret]).
    specialize (Hq' c2 H2). apply runs_bind, runs_modify. apply runs_bind_inv in Hq'. cbn in Hq'.
    apply runs_bind. apply runs_bind_inv in Hq'. eapply runs_mono; [exact Hq'| |done]. intros [] c3 H3. runs_steps. cbn in H3. destruct H3 as [H3 [S3 S3']].
    split; [done|]. split; [intros x Hx; rewrite S3; by apply G2|]. split; [|done]. intros _. rewrite (used_same c2 c3), (used_same c1 c2); done.
  - runs_steps. split; [exact H2|]. split; [exact G2|]. split; [intros E; by destruct (Hr E)|]. intros _ _ Hw. exfalso. apply Hr.
    destruct (Hw k d u (lb_world (cf_bus c1))) as [w2 E2]; [by rewrite Hk|]. rewrite Er in E2. by injection E2.
Qed.

Lemma grows_trans c1 c2 c3 : grows c1 c2 -> grows c2 c3 -> grows c1 c3.
Proof. intros H1 H2 x Hx. auto. Qed.

(** The loop ends: a device that is found takes a slot. *)
Lemma attach_loop_spec c0 k id v f children fuel : forall c u,
  config_returns -> drv k = Some (id, v, f) -> clean c0 -> progress c0 c -> (forall d, quiet c0 (children d)) ->
  (Z.to_nat LB_NSLOTS - used c < fuel)%nat ->
  returns (attach_loop fuel (fun u => tryattach k (attach_on_bus k id v v f u) children u) u c) (fun _ c' =>
    progress c0 c' /\ grows c c' /\ (oracle c0 = [] -> config_works -> complete c0 k c')).
Proof.
  induction fuel as [|fuel IH]; intros c u Hcfg Hk Hcl Hc Hch Hf; [lia|]. cbn [attach_loop]. apply runs_bind.
  eapply runs_mono; [by apply (tryattach_spec c0)| |done]. intros r c1 (H1 & G1 & U1 & C1). destruct (Z.eqb_spec r 0) as [->|Hr].
  - specialize (U1 eq_refl). pose proof (used_le c1) as Hle.
    eapply runs_mono; [apply IH; try done; lia| |done]. intros _ c2 (H2 & G2 & C2). split_and!; [done|by eapply grows_trans|done].
  - runs_steps. split_and!; [done|done|by apply C1].
Qed.

Lemma attach_all_spec c0 c k id v f children :
  config_returns -> drv k = Some (id, v, f) -> clean c0 -> progress c0 c -> (forall d, quiet c0 (children d)) ->
  returns (attach_all k (fun u => tryattach k (attach_on_bus k id v v f u) children u) c) (fun _ c' =>
    progress c0 c' /\ grows c c' /\ (oracle c0 = [] -> config_works -> complete c0 k c')).
Proof.
  intros Hcfg Hk Hcl Hc Hch. unfold attach_all. apply runs_bind, runs_get. apply attach_loop_spec; try done. lia.
Qed.

Lemma progress_refl c : lb_wf (cf_bus c) -> progress c c.
Proof. intros H. split; [done|by intros ? ?|by left|done]. Qed.

Lemma complete_grows c0 k c c' : complete c0 k c -> grows c c' -> complete c0 k c'.
Proof. intros H G x Hx Hd. apply G. by apply H. Qed.


End Autoconf.

(** ** Example *)

(** A disk in slot 2, a serial port in slot 5, and an unknown card in slot 7. *)
#[local] Existing Instance words_machine.
Definition ex_cards : gmap Z Z :=
  {[ cfg_addr 2 CFGREG_VID := 1; cfg_addr 2 CFGREG_DID := 3; cfg_addr 2 CFGREG_DRL := 2;
     cfg_addr 5 CFGREG_VID := 1; cfg_addr 5 CFGREG_DID := 4; cfg_addr 5 CFGREG_DRL := 1;
     cfg_addr 7 CFGREG_VID := 1; cfg_addr 7 CFGREG_DID := 42 ]}.
Definition ex_config (k : kind) (d u : Z) : M (gmap Z Z) Z := ret 0.
Definition ex_conf : conf := mkConf (lamebus_init ex_cards) (fun _ => 0) [] [].

Lemma ex_config_returns : config_returns ex_config.
Proof. intros k d u w. by eexists _, _. Qed.

Lemma ex_clean : clean ex_conf.
Proof. intros slot Hs _. unfold hooks. simpl. by rewrite !zlookup_zrep by done. Qed.

End Autoconf.
