(* ===== verification/Devices.v ===== *)
(** * Timer, clock, speaker, random and trace devices: src/dev/lamebus/ltimer.c,
      lrandom.c and ltrace.c, and src/dev/generic/rtclock.c, beep.c and random.c

    Each driver is a few register accesses; the cards are the classes
    [TimerCard] and [RandomCard].  The theorems: the time of day read in three
    accesses is the time at one moment, and a read of the random device fills
    the request with the bytes the card gave. *)

From S2P Require Import Prelude Copyinout Uio SfsDisk Vfs.
Import Copyinout Uio.

Module Devices.

(** ** The timer card *)

Definition LT_REG_SEC : Z := 0.
Definition LT_REG_NSEC : Z := 4.
Definition LT_REG_ROE : Z := 8.
Definition LT_REG_IRQ : Z := 12.
Definition LT_REG_COUNT : Z := 16.
Definition LT_REG_SPKR : Z := 20.
Definition LT_GRANULARITY : Z := 1000000.
Definition SECOND : Z := 1000000000.

(** The registers; an access takes time.  [now] is the time of day in
    nanoseconds, which does not go back, and the two clock registers show it. *)
Class TimerCard (T : Type) := {
  lt_read : Z -> T -> Z;
  lt_write : Z -> Z -> T -> T;
  lt_access : T -> T;
  now : T -> Z;
  now_pos t : 0 <= now t < 2 ^ 32 * SECOND;
  now_later t : now t <= now (lt_access t);
  now_sec t : lt_read LT_REG_SEC t = now t / SECOND;
  now_nsec t : lt_read LT_REG_NSEC t = now t mod SECOND }.

Section Timer.
Context {T : Type} `{!TimerCard T}.

(** [struct ltimer_softc] and the statics of ltimer.c, rtclock.c and beep.c;
    the clock and the speaker are this timer's or none. *)
Record timer := mkTimer {
  lt_card : T; lt_hardclock : Z; lt_timerclock : Z; havetimerclock : bool; the_clock : bool; the_beep : bool }.

Definition put_card (c : T) (s : timer) := mkTimer c (lt_hardclock s) (lt_timerclock s) (havetimerclock s) (the_clock s) (the_beep s).

Definition bus_read_register (reg : Z) : M timer Z :=
  let* s := get in
  modify (put_card (lt_access (lt_card s))) ;;
  ret (lt_read reg (lt_card s)).
Definition bus_write_register (reg val : Z) : M timer unit :=
  modify (fun s => put_card (lt_access (lt_write reg val (lt_card s))) s).

(** The softc is what [kmalloc] returned: [lt_timerclock] is only written for
    the first timer. *)
Definition config_ltimer : M timer unit :=
  modify (fun s => mkTimer (lt_card s) 0 (lt_timerclock s) (havetimerclock s) (the_clock s) (the_beep s)) ;;
  let* s := get in
  if* negb (havetimerclock s) then
    (modify (fun s => mkTimer (lt_card s) (lt_hardclock s) 1 true (the_clock s) (the_beep s)) ;;
     bus_write_register LT_REG_ROE 1 ;;
     bus_write_register LT_REG_COUNT LT_GRANULARITY).

(** Interrupt handler; the two clock functions are the scheduler's. *)
Definition ltimer_irq (hardclock timerclock : M timer unit) : M timer unit :=
  let* val := bus_read_register LT_REG_IRQ in
  if* negb (val =? 0) then
    (let* s := get in
     (if* negb (lt_hardclock s =? 0) then hardclock) ;;
     let* s := get in
     if* negb (lt_timerclock s =? 0) then timerclock).

Definition ltimer_beep : M timer unit := bus_write_register LT_REG_SPKR 440.

(** Interrupts are off between the accesses. *)
Definition ltimer_gettime : M timer (Z * Z) :=
  let* secs1 := bus_read_register LT_REG_SEC in
  let* nsecs := bus_read_register LT_REG_NSEC in
  let* secs2 := bus_read_register LT_REG_SEC in
  ret (if nsecs <? 5000000 then secs2 else secs1, nsecs).

Definition config_rtclock (unitno : Z) : M timer unit :=
  if negb (unitno =? 0) then err ENODEV
  else
    let* s := get in
    KASSERT (negb (the_clock s)) ;;
    modify (fun s => mkTimer (lt_card s) (lt_hardclock s) (lt_timerclock s) (havetimerclock s) true (the_beep s)).
Definition gettime : M timer (Z * Z) :=
  let* s := get in
  KASSERT (the_clock s) ;; ltimer_gettime.

Definition config_beep (unitno : Z) : M timer unit :=
  if negb (unitno =? 0) then err ENODEV
  else
    let* s := get in
    KASSERT (negb (the_beep s)) ;;
    modify (fun s => mkTimer (lt_card s) (lt_hardclock s) (lt_timerclock s) (havetimerclock s) (the_clock s) true).
Definition beep : M timer unit :=
  let* s := get in
  if* the_beep s then ltimer_beep.

(** [getinterval] of src/startup/menu.c, on seconds and nanoseconds. *)
Definition getinterval (t1 t2 : Z * Z) : Z * Z :=
  let '(s1, ns1) := t1 in
  let '(s2, ns2) := t2 in
  let '(s2, ns2) := if ns2 <? ns1 then (s64 (s2 - 1), u32 (ns2 + 1000000000)) else (s2, ns2) in
  (s64 (s2 - s1), u32 (ns2 - ns1)).

(** C25. The time of day is the time at the second of the three accesses, seconds
    and nanoseconds together, although the seconds are read before and after
    it: it is enough that the first access is at most 5 ms before it and the
    third less than 995 ms after it.  The time returned is not before the call
    and not after its end. *)
Theorem gettime_exact (s : timer) :
  the_clock s = true ->
  now (lt_access (lt_card s)) - now (lt_card s) <= 5000000 ->
  now (lt_access (lt_access (lt_card s))) - now (lt_access (lt_card s)) < 995000000 ->
  returns (gettime s) (fun r s' =>
    fst r * SECOND + snd r = now (lt_access (lt_card s)) /\ 0 <= snd r < SECOND /\
    now (lt_card s) <= fst r * SECOND + snd r <= now (lt_card s') /\
    s' = put_card (lt_access (lt_access (lt_access (lt_card s)))) s).
Proof.
  intros Hc H1 H2. unfold gettime. runs_steps. rewrite Hc. apply runs_KASSERT; [done|].
  unfold ltimer_gettime, bus_read_register. runs_steps. cbn [lt_card put_card fst snd]. rewrite !now_sec, now_nsec.
  set (t0 := lt_card s) in *. pose proof (now_later t0). pose proof (now_later (lt_access t0)). pose proof (now_later (lt_access (lt_access t0))).
  pose proof (now_pos t0).
  set (n0 := now t0) in *. set (n1 := now (lt_access t0)) in *. set (n2 := now (lt_access (lt_access t0))) in *.
  assert ((if n1 mod SECOND <? 5000000 then n2 / SECOND else n0 / SECOND) = n1 / SECOND) as ->.
  { unfold SECOND. destruct (Z.ltb_spec (n1 mod 1000000000) 5000000); dlia. }
  split; [unfold SECOND; dlia|]. split; [unfold SECOND; dlia|]. split; [unfold SECOND; dlia|done].
Qed.

End Timer.

(** ** The random card *)

Definition LR_REG_RAND : Z := 0.
Definition LR_RANDMAX : Z := 0xffffffff.

(** Each read of the register gives the next number. *)
Class RandomCard (R : Type) := {
  rand : R -> Z;
  rand_next : R -> R;
  rand_u32 r : is_u32 (rand r) }.

Section Random.
Context {R : Type} `{!RandomCard R}.

(** The card, and whether there is a random device. *)
Record source := mkSource { lr_card : R; the_random : bool }.

Definition config_lrandom : M R unit := ret tt.
Definition lrandom_random : M R Z := let* r := get in modify rand_next ;; ret (rand r).
Definition lrandom_randmax : Z := LR_RANDMAX.

Definition lift_r {A} (m : M R A) : M (R * xfer) A := zoom fst (fun r s => (r, snd s)) m.
Definition lift_x {A} (m : M xfer A) : M (R * xfer) A := zoom snd (fun x s => (fst s, x)) m.

Fixpoint read_loop (fuel : nat) : M (R * xfer) unit :=
  let* s := get in
  if 0 <? uio_resid (xu (snd s)) then
    match fuel with
    | O => crashed Hung
    | S fuel' =>
        let* val := lift_r lrandom_random in
        let* _ := lift_x (uiomove (SfsDisk.be 4 val)) in
        read_loop fuel'
    end
  else ret tt.

(** Every turn moves a byte. *)
Definition lrandom_read : M (R * xfer) unit :=
  let* s := get in
  read_loop (Z.to_nat (uio_resid (xu (snd s)))).

Definition random : M source Z :=
  let* s := get in
  if negb (the_random s) then panic
  else modify (fun s => mkSource (rand_next (lr_card s)) (the_random s)) ;; ret (rand (lr_card s)).
Definition randmax : M source Z :=
  let* s := get in
  if negb (the_random s) then panic else ret lrandom_randmax.

Definition randopen (openflags : Z) : M (R * xfer) unit := if negb (openflags =? Vfs.O_RDONLY) then err EIO else ret tt.
Definition randclose : M (R * xfer) unit := ret tt.
Definition randio : M (R * xfer) unit :=
  let* s := get in
  match uio_dir (xu (snd s)) with UIO_READ => lrandom_read | UIO_WRITE => err EIO end.
Definition randioctl (op data : Z) : M (R * xfer) unit := err EIOCTL.

(** The bytes the card gives in [n] reads. *)
Fixpoint stream (n : nat) (r : R) : list Z :=
  match n with O => [] | S n' => SfsDisk.be 4 (rand r) ++ stream n' (rand_next r) end.

(** [uiomove] with more bytes than the request takes. *)
Lemma uiomove_fill x b l buf :
  xok x b l -> uio_resid (xu x) = l -> uio_dir (xu x) = UIO_READ -> 0 < l < zlen buf ->
  runs (uiomove buf x)
    (fun _ x' => reach x b l /\ x' = advance l (moved b (ztake l buf) x))
    (fun e x' => e = EFAULT /\ ~ reach x b l /\ faulted x x' b l).
Proof.
  intros Hx Hl Hd Hn. pose proof Hx as [Hiov Hb Hres Hoff Hsp Hk Hu]. unfold uiomove. runs_steps. apply runs_KASSERT.
  { unfold is_sys in Hsp. destruct (uio_segflg (xu x)); rewrite Hsp; by apply bool_decide_eq_true. }
  rewrite Hiov. assert (zlen (ztake l buf) = l) as Hz by (apply zlen_ztake; lia).
  replace (length buf + length [(b, l)])%nat with (S (length buf)) by (simpl; lia). cbn [uiomove_loop]. runs_steps.
  rewrite (proj2 (Z.ltb_lt 0 (zlen buf))), (proj2 (Z.ltb_lt 0 (uio_resid (xu x)))) by lia. simpl. rewrite Hiov.
  assert ((if zlen buf <? l then zlen buf else l) = l) as -> by (destruct (Z.ltb_spec (zlen buf) l); lia).
  rewrite (proj2 (Z.eqb_neq l 0)) by lia. runs_steps.
  pose proof (move_spec x b l (ztake l buf) Hx) as Hm. rewrite Hz in Hm.
  eapply runs_mono; [apply Hm; lia|..]; cbv beta; [|done].
  intros r x' (Hre & -> & ->). unfold upd_uio. runs_steps. simpl. rewrite xu_moved.
  destruct (length buf) as [|n] eqn:Elen; [unfold zlen in Hn; lia|]. cbn [uiomove_loop]. runs_steps. simpl. rewrite Hl, Z.sub_diag.
  change (0 <? u32 0) with false. rewrite andb_false_r. runs_steps. split; [done|].
  apply xfer_eq; simpl; try done. rewrite xu_moved, Hiov, Hl, Z.sub_diag.
  rewrite !u32_small by (unfold is_u32; lia). by rewrite s64_small by lia.
Qed.

(** How many numbers [l] bytes take. *)
Definition draws (l : Z) : nat := Z.to_nat ((l + 3) / 4).

Lemma zlen_be v : zlen (SfsDisk.be 4 v) = 4.
Proof. unfold zlen. by rewrite SfsDisk.length_be. Qed.

Lemma zlen_stream l r : 0 <= l -> zlen (ztake l (stream (draws l) r)) = l.
Proof.
  intros Hl. apply zlen_ztake. assert (forall n r, zlen (stream n r) = 4 * Z.of_nat n) as ->.
  { intros n. induction n as [|n IH]; intros r'; cbn [stream]; [done|]. rewrite zlen_app, zlen_be, IH. lia. }
  unfold draws. dlia.
Qed.

Lemma ztake_stream l r :
  4 <= l -> ztake l (stream (draws l) r) = SfsDisk.be 4 (rand r) ++ ztake (l - 4) (stream (draws (l - 4)) (rand_next r)).
Proof.
  intros Hl. assert (draws l = S (draws (l - 4))) as -> by (unfold draws; rewrite <- Z2Nat.inj_succ by dlia; f_equal; dlia).
  cbn [stream]. pose proof (zlen_be (rand r)) as Hz. unfold ztake, zlen in *.
  rewrite take_app_ge by lia. f_equal. f_equal. lia.
Qed.

Lemma draws_S l : 4 <= l -> draws l = S (draws (l - 4)).
Proof. intros Hl. unfold draws. rewrite <- Z2Nat.inj_succ by dlia. f_equal. dlia. Qed.

Lemma read_loop_spec fuel r x b l :
  xok x b l -> uio_resid (xu x) = l -> uio_dir (xu x) = UIO_READ -> l <= Z.of_nat fuel ->
  runs (read_loop fuel (r, x))
    (fun _ s => s = (Nat.iter (draws l) rand_next r, advance l (moved b (ztake l (stream (draws l) r)) x)))
    (fun e s => e = EFAULT /\ ~ reach x b l).
Proof.
  revert r x b l. induction fuel as [|fuel IH]; intros r x b l Hx Hl Hd Hf; pose proof (xo_resid _ _ _ Hx) as Hres;
    cbn [read_loop]; runs_steps; cbn [snd]; rewrite Hl; destruct (Z.ltb_spec 0 l) as [Hpos|Hz]; try lia; runs_steps.
  1, 3: assert (l = 0) as -> by lia; change (ztake 0 (stream (draws 0) r)) with (@nil Z); by rewrite (moved_nil x b 0), (advance_0 x b 0).
  unfold lift_r, lrandom_random, lift_x. runs_steps. cbn [fst snd].
  destruct (Z.leb_spec 4 l) as [H4|H4].
  - pose proof (uiomove_spec x b l (SfsDisk.be 4 (rand r)) Hx) as Hm. rewrite zlen_be in Hm.
    eapply runs_mono; [apply Hm; lia|..]; cbv beta.
    + intros bs x1 (Hre & -> & _). cbn [fst snd]. set (x1 := advance 4 (moved b (SfsDisk.be 4 (rand r)) x)).
      assert (xok x1 (b + 4) (l - 4)) as Hx1.
      { apply xok_advance; [apply xok_moved; [done|rewrite zlen_be; lia]|]. rewrite xu_moved. lia. }
      assert (uio_resid (xu x1) = l - 4 /\ uio_dir (xu x1) = UIO_READ) as [Hl1 Hd1] by (simpl; rewrite xu_moved; split; [lia|done]).
      eapply runs_mono; [eapply (IH (rand_next r) x1 (b + 4) (l - 4) Hx1 Hl1 Hd1); lia|..].
      * intros _ st ->. f_equal; [rewrite (draws_S l) by done; by rewrite Nat.iter_succ_r|].
        rewrite (ztake_stream l) by done. set (ys := ztake (l - 4) (stream (draws (l - 4)) (rand_next r))).
        assert (zlen ys = l - 4) as Hy by (subst ys; apply zlen_stream; lia).
        pose proof (moved_app x b l (SfsDisk.be 4 (rand r)) ys Hx) as Ha. rewrite zlen_app, zlen_be, Hy in Ha.
        replace (4 + (l - 4)) with l in Ha by lia. apply Ha. lia.
      * intros e st [-> Hn]. split; [done|]. intros Hr. apply Hn. apply (reach_part x x1 b l 4); [apply still_mapped_moved|lia..|done].
    + intros e x1 (-> & Hn & _). split; [done|]. intros Hr. apply Hn. by apply (reach_le _ _ l); [lia|].
  - assert (draws l = 1%nat) as Hd1 by (unfold draws; replace ((l + 3) / 4) with 1 by dlia; done).
    eapply runs_mono; [apply (uiomove_fill x b l (SfsDisk.be 4 (rand r)) Hx Hl Hd); rewrite zlen_be; lia|..]; cbv beta.
    + intros _ x1 [_ ->]. rewrite Hd1. cbn [fst snd stream Nat.iter nat_rect]. rewrite app_nil_r.
      destruct fuel; cbn [read_loop]; runs_steps; simpl; rewrite xu_moved, Hl, Z.sub_diag; by runs_steps.
    + intros e x1 (-> & Hn & _). done.
Qed.

(** A read of the random device fills the request with the bytes of the
    numbers the card gives, in their order, the last number cut off, and draws
    no number more than that takes; when the memory is not there the error is
    [EFAULT].  A write is refused with [EIO] and nothing changes. *)
Theorem randio_exact (r : R) (x : xfer) (b l : Z) :
  xok x b l -> uio_resid (xu x) = l ->
  runs (randio (r, x))
    (fun _ s => uio_dir (xu x) = UIO_READ /\
       s = (Nat.iter (draws l) rand_next r, advance l (moved b (ztake l (stream (draws l) r)) x)))
    (fun e s => match uio_dir (xu x) with
                | UIO_READ => e = EFAULT /\ ~ reach x b l
                | UIO_WRITE => e = EIO /\ s = (r, x)
                end).
Proof.
  intros Hx Hl. pose proof (xo_resid _ _ _ Hx). unfold randio. runs_steps. cbn [snd]. destruct (uio_dir (xu x)) eqn:Hd; [|by runs_steps].
  unfold lrandom_read. runs_steps. cbn [snd]. rewrite Hl.
  eapply runs_mono; [apply (read_loop_spec _ r x b l); try done; lia|by intros|done].
Qed.

End Random.

(** ** The trace card *)

Definition LTRACE_REG_TRON : Z := 0.
Definition LTRACE_REG_TROFF : Z := 4.
Definition LTRACE_REG_DEBUG : Z := 8.
Definition LTRACE_REG_DUMP : Z := 12.

Section Trace.
Context {C : Type} (card_write : Z -> Z -> C -> C).

(** Whether there is a trace card, and the card. *)
Record tracer := mkTracer { lt_busdata : C; the_trace : bool }.

Definition trace_write (reg code : Z) : M tracer unit :=
  modify (fun s => if the_trace s then mkTracer (card_write reg code (lt_busdata s)) true else s).
Definition ltrace_on (code : Z) : M tracer unit := trace_write LTRACE_REG_TRON code.
Definition ltrace_off (code : Z) : M tracer unit := trace_write LTRACE_REG_TROFF code.
Definition ltrace_debug (code : Z) : M tracer unit := trace_write LTRACE_REG_DEBUG code.
Definition ltrace_dump (code : Z) : M tracer unit := trace_write LTRACE_REG_DUMP code.
Definition config_ltrace (sc : C) : M tracer unit := modify (fun _ => mkTracer sc true).
End Trace.

(** ** Instances *)

(** A clock that an access takes 40 ns of, and a counter for a random card. *)
#[local, refine] Instance ex_timer : TimerCard Z := {
  lt_read reg t := if reg =? LT_REG_SEC then t mod (2 ^ 32 * SECOND) / SECOND else t mod (2 ^ 32 * SECOND) mod SECOND;
  lt_write reg v t := t; lt_access t := if t mod (2 ^ 32 * SECOND) + 40 <? 2 ^ 32 * SECOND then t + 40 else t;
  now t := t mod (2 ^ 32 * SECOND) }.
Proof.
  - intros t. apply Z.mod_pos_bound. done.
  - intros t. unfold SECOND. destruct (_ <? _) eqn:E; [|lia]. dlia.
  - done.
  - done.
Defined.

(** A call just before a second is over. *)
Lemma gettime_exact_witness :
  returns (gettime (mkTimer 6999999980 0 1 true true true)) (fun r _ => r = (7, 20)).
Proof.
  eapply runs_mono; [apply (gettime_exact (mkTimer 6999999980 0 1 true true true)); [done|by vm_compute|by vm_compute]| |auto].
  cbn [lt_card]. change (now (lt_access 6999999980)) with 7000000020. intros [a c] s' (H1 & H2 & _). cbn [fst snd] in *. unfold SECOND in *. f_equal; lia.
Defined.

#[local, refine] Instance ex_random : RandomCard Z := { rand r := u32 r; rand_next r := r + 1 }.
Proof. intros r. apply u32_range. Defined.

Lemma randio_exact_witness :
  runs (randio (0x01020304, kxfer [0; 0; 0; 0; 0; 0] 0 UIO_READ (clear_fault ∅) None))
    (fun _ s => fst s = 0x01020306 /\ kmem (snd s) = [1; 2; 3; 4; 1; 2]) (fun e _ => e = EFAULT).
Proof.
  eapply runs_mono; [apply (randio_exact 0x01020304 (kxfer [0; 0; 0; 0; 0; 0] 0 UIO_READ (clear_fault ∅) None) 0 6); [split; simpl; try done; lia|done]|..].
  - intros _ s [_ ->]. by vm_compute.
  - intros e s [He _]. exact He.
Defined.
End Devices.
