(* ===== verification/Kgets.v ===== *)
(** * Line input: src/lib/kgets.c

    [kgets] reads a line from the console with a few editing keys.  It is
    written against the class [Terminal], what it needs of [getch] and [putch],
    which the console discharges.  The last lemma: the buffer ends up with the
    line that a list editor makes of the keys, and a terminal that shows the
    output of [kgets] always has that line before its cursor. *)

From S2P Require Import Prelude Copyinout Uio Synch Console ConsoleThm ConsoleIo Devices.
Import Console ConsoleThm ConsoleIo.

Module Kgets.

Definition BS : Z := 8.
Definition SPACE : Z := 32.
Definition DEL : Z := 127.
Definition CTRL_C : Z := 3.
Definition CTRL_R : Z := 18.
Definition CTRL_U : Z := 21.
Definition CTRL_W : Z := 23.

(** The keys that are there to be read, and the bytes that were printed; more
    keys may come while something is printed. *)
Class Terminal (T : Type) := {
  getch : M T Z;
  putch : Z -> M T unit;
  beep : M T unit;
  t_ok : T -> Prop;
  keys : T -> list Z;
  shown : T -> list Z;
  getch_law t k ks : t_ok t -> keys t = k :: ks ->
    returns (getch t) (fun r t' => r = k /\ t_ok t' /\ keys t' = ks /\ shown t' = shown t);
  putch_law t ch : t_ok t ->
    returns (putch ch t) (fun _ t' => t_ok t' /\ shown t' = shown t ++ [u8 ch] /\ exists more, keys t' = keys t ++ more);
  beep_law t : t_ok t ->
    returns (beep t) (fun _ t' => t_ok t' /\ shown t' = shown t /\ exists more, keys t' = keys t ++ more) }.

Section Kgets.
Context {T : Type} `{!Terminal T}.

(** The terminal and the caller's buffer. *)
Definition st := (T * list Z)%type.
Definition on_term {A} (m : M T A) : M st A := zoom fst (fun t s => (t, snd s)) m.
Definition store (i v : Z) : M st unit :=
  let* s := get in
  let* _ := of_option Wild (zlookup (snd s) i) in
  modify (fun s => (fst s, zinsert (snd s) i v)).
Definition load (i : Z) : M st Z :=
  let* s := get in of_option Wild (zlookup (snd s) i).

Definition backsp : M st unit :=
  on_term (putch BS) ;; on_term (putch SPACE) ;; on_term (putch BS).

Fixpoint print (text : list Z) : M st unit :=
  match text with [] => ret tt | ch :: text' => on_term (putch ch) ;; print text' end.

(** [while (pos > 0) { backsp(); pos--; }]. *)
Fixpoint erase_line (pos : nat) : M st unit :=
  match pos with O => ret tt | S pos' => backsp ;; erase_line pos' end.
(** [while (pos > 0 && stop(buf[pos-1])) ...], with the new [pos]. *)
Fixpoint erase_while (f : Z -> bool) (pos : nat) : M st nat :=
  match pos with
  | O => ret O
  | S pos' =>
      let* ch := load (Z.of_nat pos') in
      if f ch then backsp ;; erase_while f pos' else ret pos
  end.

(** What [%s] prints of a buffer. *)
Fixpoint cstr (l : list Z) : list Z :=
  match l with [] => [] | x :: l' => if x =? 0 then [] else x :: cstr l' end.

(** One turn of the loop at [pos]: the next [pos], and whether the loop is left. *)
Definition turn (maxlen : Z) (pos : nat) : M st (nat * bool) :=
  let* ch := on_term getch in
  if (ch =? LF) || (ch =? CR) then
    on_term (putch LF) ;; ret (pos, true)
  else if (32 <=? ch) && (ch <? 127) && (Z.of_nat pos <? u32 (maxlen - 1)) then
    on_term (putch ch) ;; store (Z.of_nat pos) ch ;; ret (S pos, false)
  else if ((ch =? BS) || (ch =? DEL)) && negb (Nat.eqb pos 0) then
    backsp ;; ret (pred pos, false)
  else if ch =? CTRL_C then
    print [94; 67; LF] ;; ret (O, true)
  else if ch =? CTRL_R then
    store (Z.of_nat pos) 0 ;;
    let* s := get in
    print ([94; 82; LF] ++ cstr (snd s)) ;; ret (pos, false)
  else if ch =? CTRL_U then
    erase_line pos ;; ret (O, false)
  else if ch =? CTRL_W then
    let* pos := erase_while (fun c => c =? SPACE) pos in
    let* pos := erase_while (fun c => negb (c =? SPACE)) pos in
    ret (pos, false)
  else on_term beep ;; ret (pos, false).

(** [fuel] is the number of keys it reads. *)
Fixpoint kgets_loop (fuel : nat) (maxlen : Z) (pos : nat) : M st nat :=
  match fuel with
  | O => crashed Hung
  | S fuel' =>
      let* r := turn maxlen pos in
      if snd r then ret (fst r) else kgets_loop fuel' maxlen (fst r)
  end.

Definition kgets (fuel : nat) (maxlen : Z) : M st unit :=
  let* pos := kgets_loop fuel maxlen O in
  store (Z.of_nat pos) 0.

(** ** What it computes *)

(** The line that the keys make, at most [max] characters long. *)
Definition printable (k : Z) : bool := (32 <=? k) && (k <? 127).
Fixpoint skip (f : Z -> bool) (l : list Z) : list Z :=
  match l with [] => [] | x :: l' => if f x then skip f l' else l end.
Definition erase_end (f : Z -> bool) (l : list Z) : list Z := rev (skip f (rev l)).

Definition edit (max : nat) (line : list Z) (k : Z) : list Z :=
  if printable k && (length line <? max)%nat then line ++ [k]
  else if (k =? BS) || (k =? DEL) then removelast line
  else if k =? CTRL_U then []
  else if k =? CTRL_W then erase_end (fun c => negb (c =? SPACE)) (erase_end (fun c => c =? SPACE) line)
  else line.

Definition ends (k : Z) : bool := (k =? LF) || (k =? CR) || (k =? CTRL_C).

(** A terminal's current line, before the cursor and from it on. *)
Definition display := (list Z * list Z)%type.
Definition show (d : display) (ch : Z) : display :=
  if ch =? BS then match rev (fst d) with [] => d | x :: r => (rev r, x :: snd d) end
  else if ch =? LF then ([], [])
  else (fst d ++ [ch], tail (snd d)).
Definition shows (d : display) (text : list Z) : display := foldl show d text.

(** [e] takes a terminal with [l] before its cursor to one with [l']. *)
Definition repaints (e l l' : list Z) : Prop :=
  forall p a, exists p' a', shows (p ++ l, a) e = (p' ++ l', a').

Lemma repaints_app e1 e2 l1 l2 l3 : repaints e1 l1 l2 -> repaints e2 l2 l3 -> repaints (e1 ++ e2) l1 l3.
Proof.
  intros H1 H2 p a. destruct (H1 p a) as (p1 & a1 & E1). destruct (H2 p1 a1) as (p2 & a2 & E2).
  exists p2, a2. unfold shows in *. by rewrite foldl_app, E1, E2.
Qed.
Lemma repaints_nil l : repaints [] l l.
Proof. intros p a. by exists p, a. Qed.

Lemma show_key d k : printable k = true -> show d k = (fst d ++ [k], tail (snd d)).
Proof.
  unfold printable, show, BS, LF. intros H. by rewrite (proj2 (Z.eqb_neq k 8)), (proj2 (Z.eqb_neq k 10)) by lia.
Qed.
Lemma repaints_key l k : printable k = true -> repaints [k] l (l ++ [k]).
Proof. intros Hk p a. exists p, (tail a). unfold shows. simpl. rewrite show_key by done. simpl. by rewrite (assoc (++)). Qed.

Lemma show_back b x a : show (b ++ [x], a) BS = (b, x :: a).
Proof. unfold show. change (BS =? BS) with true. cbn [fst snd]. rewrite rev_unit. by rewrite rev_involutive. Qed.

Lemma repaints_back l x : repaints [BS; SPACE; BS] (l ++ [x]) l.
Proof.
  intros p a. exists p, (SPACE :: a). unfold shows. rewrite (assoc (++)). cbn [foldl]. rewrite show_back, (show_key _ SPACE) by done. cbn [fst snd tail].
  by rewrite show_back.
Qed.

Lemma repaints_text l : Forall (fun k => printable k = true) l -> repaints l [] l.
Proof.
  intros H. assert (forall l1, repaints l l1 (l1 ++ l)) as Hr; [|apply (Hr [])].
  induction H as [|k l Hk Hl IH]; intros l1; [rewrite app_nil_r; apply repaints_nil|].
  apply (repaints_app [k] l l1 (l1 ++ [k])); [by apply repaints_key|]. replace (l1 ++ k :: l) with ((l1 ++ [k]) ++ l) by (by rewrite <- (assoc (++))). apply IH.
Qed.

Lemma repaints_newline l e : repaints (e ++ [LF]) l [].
Proof. intros p a. exists [], []. unfold shows. rewrite foldl_app. done. Qed.

Lemma skip_erase f l x : erase_end f (l ++ [x]) = if f x then erase_end f l else l ++ [x].
Proof. unfold erase_end. rewrite rev_app_distr. simpl. destruct (f x); [done|]. simpl. by rewrite rev_involutive. Qed.

(** ** The pieces *)

(** Printing [e] without touching the buffer. *)
Definition prints {A} (m : M st A) (t : T) (buf : list Z) (a : A) (e : list Z) : Prop :=
  returns (m (t, buf)) (fun r s' => r = a /\ exists t' more, s' = (t', buf) /\ t_ok t' /\ shown t' = shown t ++ e /\ keys t' = keys t ++ more).

Lemma prints_bind {A C} (m : M st A) (k : A -> M st C) t buf a c e1 e2 :
  prints m t buf a e1 -> (forall t', t_ok t' -> prints (k a) t' buf c e2) -> prints (bind m k) t buf c (e1 ++ e2).
Proof.
  unfold prints. intros Hm Hk. apply runs_bind. eapply runs_mono; [exact Hm| |done].
  intros r s' (-> & t1 & k1 & -> & Hok & Hs & Hks). eapply runs_mono; [by apply Hk| |done].
  intros r s' (-> & t2 & k2 & -> & Hok2 & Hs2 & Hks2). split; [done|]. exists t2, (k1 ++ k2).
  split_and!; [done|done|by rewrite Hs2, Hs, (assoc (++))|by rewrite Hks2, Hks, (assoc (++))].
Qed.
Lemma prints_ret {A} t buf (a : A) : t_ok t -> prints (ret a) t buf a [].
Proof. intros H. unfold prints. runs_steps. split; [done|]. exists t, []. by rewrite !app_nil_r. Qed.
Lemma prints_putch t buf ch : t_ok t -> prints (on_term (putch ch)) t buf tt [u8 ch].
Proof.
  intros H. unfold prints, on_term. runs_steps. eapply runs_mono; [by apply putch_law| |done].
  intros [] t' (Hok & Hs & more & Hk). split; [done|]. by exists t', more.
Qed.

Lemma prints_backsp t buf : t_ok t -> prints backsp t buf tt [BS; SPACE; BS].
Proof.
  intros H. apply (prints_bind _ _ _ _ tt tt [BS] [SPACE; BS]); [by apply (prints_putch t buf BS)|]. intros t1 H1.
  apply (prints_bind _ _ _ _ tt tt [SPACE] [BS]); [by apply (prints_putch t1 buf SPACE)|]. intros t2 H2. by apply (prints_putch t2 buf BS).
Qed.

Lemma prints_print t buf text : t_ok t -> prints (print text) t buf tt (u8 <$> text).
Proof.
  revert t. induction text as [|ch text IH]; intros t H; cbn [print]; [by apply prints_ret|].
  apply (prints_bind _ _ _ _ tt tt [u8 ch]); [by apply prints_putch|]. intros t1 H1. by apply IH.
Qed.

(** What is sent to erase a line of [n] characters. *)
Definition blanks (n : nat) : list Z := concat (replicate n [BS; SPACE; BS]).

Lemma prints_erase_line t buf pos : t_ok t -> prints (erase_line pos) t buf tt (blanks pos).
Proof.
  revert t. induction pos as [|pos IH]; intros t H; cbn [erase_line]; [by apply prints_ret|].
  apply (prints_bind _ _ _ _ tt tt [BS; SPACE; BS] (blanks pos)); [by apply prints_backsp|done].
Qed.

Lemma repaints_blanks l n : (n <= length l)%nat -> repaints (blanks n) l (take (length l - n) l).
Proof.
  revert l. induction n as [|n IH]; intros l Hn; [rewrite Nat.sub_0_r, firstn_all; apply repaints_nil|].
  destruct (exists_last (l := l)) as (l' & x & ->); [by intros ->; simpl in Hn; lia|]. rewrite length_app in *. simpl in Hn.
  change (blanks (S n)) with ([BS; SPACE; BS] ++ blanks n). eapply repaints_app; [apply repaints_back|].
  replace (take (length l' + length [x] - S n) (l' ++ [x])) with (take (length l' - n) l'); [apply IH; lia|].
  simpl. rewrite take_app_le by lia. f_equal. lia.
Qed.

Lemma erase_end_prefix f l : erase_end f l = take (length (erase_end f l)) l.
Proof.
  induction l as [|x l IH] using rev_ind; [done|]. rewrite skip_erase. destruct (f x); [|by rewrite firstn_all].
  rewrite take_app_le; [done|]. rewrite IH, length_take. lia.
Qed.
Lemma erase_end_length f l : (length (erase_end f l) <= length l)%nat.
Proof. rewrite erase_end_prefix, length_take. lia. Qed.

Lemma prints_erase_while f t buf l :
  t_ok t -> take (length l) buf = l ->
  prints (erase_while f (length l)) t buf (length (erase_end f l)) (blanks (length l - length (erase_end f l))).
Proof.
  revert t. induction l as [|x l IH] using rev_ind; intros t H Hl; [by apply prints_ret|].
  rewrite length_app, Nat.add_1_r in *. cbn [erase_while]. rewrite skip_erase.
  assert (zlookup buf (Z.of_nat (length l)) = Some x) as Hx.
  { unfold zlookup. rewrite bool_decide_true by lia. rewrite Nat2Z.id. rewrite <- (lookup_take_lt buf (S (length l)) (length l)) by lia.
    rewrite Hl. by apply list_lookup_middle. }
  unfold prints. apply runs_bind. unfold load. runs_steps. cbn [snd]. rewrite Hx. apply runs_Ret.
  assert (take (length l) buf = l) as Hl'.
  { rewrite <- (firstn_all l) at 2. rewrite <- (take_app_le l [x]) by done. rewrite <- Hl, take_take. f_equal. lia. }
  destruct (f x).
  - pose proof (erase_end_length f l). replace (S (length l) - length (erase_end f l))%nat with (S (length l - length (erase_end f l))) by lia.
    change (blanks (S ?n)) with ([BS; SPACE; BS] ++ blanks n).
    apply (prints_bind _ _ _ _ tt _ [BS; SPACE; BS]); [by apply prints_backsp|]. intros t1 H1. by apply IH.
  - rewrite length_app, Nat.add_1_r, Nat.sub_diag. by apply prints_ret.
Qed.

(** ** A turn of the loop *)

(** The first characters of [buf], with room for the NUL, are the line. *)
Record holds (maxlen : Z) (line buf : list Z) : Prop := {
  h_len : zlen buf = maxlen;
  h_max : 1 <= maxlen < 2 ^ 32;
  h_room : Z.of_nat (length line) < maxlen;
  h_line : take (length line) buf = line;
  h_print : Forall (fun k => printable k = true) line }.

Definition room (maxlen : Z) : nat := Z.to_nat (maxlen - 1).

(** A shorter line. *)
Lemma holds_prefix maxlen line buf n : holds maxlen line buf -> (n <= length line)%nat -> holds maxlen (take n line) buf.
Proof.
  intros [H1 H2 H3 H4 H5] Hn. split; [done|done|rewrite length_take; lia| |by apply Forall_take].
  rewrite length_take, Nat.min_l by lia. rewrite <- H4, take_take. f_equal. lia.
Qed.

Lemma take_zinsert (l : list Z) n x : (n < length l)%nat -> take (S n) (zinsert l (Z.of_nat n) x) = take n l ++ [x].
Proof.
  intros Hn. unfold zinsert. rewrite bool_decide_true, Nat2Z.id by lia.
  rewrite (take_S_r _ _ x); [by rewrite take_insert_ge by lia|]. by apply list_lookup_insert_eq.
Qed.

Lemma holds_add maxlen line buf k :
  holds maxlen line buf -> Z.of_nat (length line) < maxlen - 1 -> printable k = true -> holds maxlen (line ++ [k]) (zinsert buf (Z.of_nat (length line)) k).
Proof.
  intros [H1 H2 H3 H4 H5] Hr Hk. split; [by rewrite zlen_zinsert|done|rewrite length_app; simpl; lia| |].
  - rewrite length_app, Nat.add_1_r, take_zinsert by (unfold zlen in H1; lia). by rewrite H4.
  - apply Forall_app. by split; [|constructor].
Qed.

Lemma cstr_line line rest : Forall (fun k => printable k = true) line -> cstr (line ++ 0 :: rest) = line.
Proof.
  induction 1 as [|k line Hk _ IH]; simpl; [done|]. destruct (Z.eqb_spec k 0) as [->|]; [done|]. by rewrite IH.
Qed.

Lemma holds_nul maxlen line buf :
  holds maxlen line buf -> let buf' := zinsert buf (Z.of_nat (length line)) 0 in holds maxlen line buf' /\ cstr buf' = line.
Proof.
  intros [H1 H2 H3 H4 H5] buf'. assert (take (S (length line)) buf' = line ++ [0]) as Ht
    by (subst buf'; rewrite take_zinsert by (unfold zlen in H1; lia); by rewrite H4).
  split.
  - split; [by subst buf'; rewrite zlen_zinsert|done|done| |done].
    replace (length line) with (length line `min` S (length line))%nat at 1 by lia. rewrite <- take_take, Ht. by apply take_app_length.
  - rewrite <- (take_drop (S (length line)) buf'), Ht, <- (assoc (++)). by apply cstr_line.
Qed.

Lemma store_spec t buf i v (Q : unit -> st -> Prop) :
  0 <= i < zlen buf -> Q tt (t, zinsert buf i v) -> returns (store i v (t, buf)) Q.
Proof.
  intros Hi HQ. unfold store. runs_steps. cbn [snd]. destruct (zlookup_is_Some buf i Hi) as [x Hx].
  apply (runs_of_option _ _ x); [done|]. by runs_steps.
Qed.

(** What a turn leaves that goes on. *)
Definition next_state (maxlen : Z) (t : T) (ks line line' : list Z) (s' : st) : Prop :=
  exists t' buf' more e, s' = (t', buf') /\ t_ok t' /\ keys t' = ks ++ more /\ shown t' = shown t ++ e /\
    repaints e line line' /\ holds maxlen line' buf'.

(** A turn that prints [e] and leaves the buffer. *)
Lemma turn_prints {A} (m : M st A) (a : A) t buf maxlen ks line line' e (Q : A -> st -> Prop) t0 :
  prints m t buf a e -> keys t = ks -> shown t = shown t0 -> repaints e line line' -> holds maxlen line' buf ->
  (forall s', next_state maxlen t0 ks line line' s' -> Q a s') -> returns (m (t, buf)) Q.
Proof.
  intros Hp Hks Hsh Hr Hh HQ. eapply runs_mono; [exact Hp| |done]. intros r s' (-> & t' & more & -> & Hok & Hs & Hk).
  apply HQ. exists t', buf, more, e. rewrite Hk, Hks, Hs, Hsh. done.
Qed.

Lemma removelast_take (l : list Z) : removelast l = take (pred (length l)) l.
Proof.
  destruct l as [|x l] using rev_ind; [done|]. rewrite removelast_last, length_app, Nat.add_1_r. simpl. by rewrite take_app_length.
Qed.

Lemma prints_beep t buf : t_ok t -> prints (on_term beep) t buf tt [].
Proof.
  intros H. unfold prints, on_term. runs_steps. eapply runs_mono; [by apply beep_law| |done].
  intros [] t' (Hok & Hs & more & Hk). split; [done|]. exists t', more. by rewrite app_nil_r.
Qed.

Lemma prints_then {A B} (m : M st A) (b : B) t buf a e : prints m t buf a e -> prints (m ;; ret b) t buf b e.
Proof. intros H. rewrite <- (app_nil_r e). apply (prints_bind _ _ _ _ a); [done|]. intros t' Ht. by apply prints_ret. Qed.

Lemma u8_printable k : printable k = true -> u8 k = k.
Proof. unfold printable, u8. intros H. apply Z.mod_small. lia. Qed.

Lemma u8_line line : Forall (fun k => printable k = true) line -> u8 <$> line = line.
Proof. induction 1 as [|k line Hk _ IH]; [done|]. cbn. by rewrite u8_printable, IH. Qed.

(** The two loops of [^W]. *)
Lemma prints_word t buf line :
  let line1 := erase_end (fun c => c =? SPACE) line in
  let line2 := erase_end (fun c => negb (c =? SPACE)) line1 in
  t_ok t -> take (length line) buf = line ->
  exists e, prints (let* pos := erase_while (fun c => c =? SPACE) (length line) in
                    let* pos := erase_while (fun c => negb (c =? SPACE)) pos in ret (pos, false)) t buf (length line2, false) e /\ repaints e line line2.
Proof.
  intros line1 line2 Ht Hb. pose proof (erase_end_prefix (fun c => c =? SPACE) line) as E1. fold line1 in E1.
  pose proof (erase_end_prefix (fun c => negb (c =? SPACE)) line1) as E2. fold line2 in E2.
  pose proof (erase_end_length (fun c => c =? SPACE) line) as L1. fold line1 in L1.
  pose proof (erase_end_length (fun c => negb (c =? SPACE)) line1) as L2. fold line2 in L2.
  assert (take (length line1) buf = line1) as Hb1.
  { transitivity (take (length line1) (take (length line) buf)); [rewrite take_take; f_equal; lia|by rewrite Hb]. }
  exists (blanks (length line - length line1) ++ blanks (length line1 - length line2)). split.
  - apply (prints_bind _ _ _ _ (length line1)); [by apply prints_erase_while|]. intros t1 H1. rewrite <- (app_nil_r (blanks (length line1 - _))).
    apply (prints_bind _ _ _ _ (length line2)); [by apply prints_erase_while|]. intros t2 H2. by apply prints_ret.
  - apply (repaints_app _ _ _ line1).
    + pose proof (repaints_blanks line (length line - length line1) ltac:(lia)) as H.
      replace (length line - (length line - length line1))%nat with (length line1) in H by lia. by rewrite <- E1 in H.
    + pose proof (repaints_blanks line1 (length line1 - length line2) ltac:(lia)) as H.
      replace (length line1 - (length line1 - length line2))%nat with (length line2) in H by lia. by rewrite <- E2 in H.
Qed.

(** The keys that leave the line as it is and ring the bell. *)
Lemma turn_beeps maxlen t t1 buf line ks :
  t_ok t1 -> keys t1 = ks -> shown t1 = shown t -> holds maxlen line buf ->
  returns ((on_term beep ;; ret (length line, false)) (t1, buf))
    (fun r s' => r = (length line, false) /\ next_state maxlen t ks line line s').
Proof.
  intros Hok Hk Hs Hh. eapply (turn_prints _ _ t1 buf maxlen ks line line []); [by eapply prints_then, prints_beep|done|done|apply repaints_nil|done|done].
Qed.

(** Backspace on a line that is not empty. *)
Lemma turn_back maxlen t t1 buf line ks :
  t_ok t1 -> keys t1 = ks -> shown t1 = shown t -> holds maxlen line buf -> line <> [] ->
  returns ((backsp ;; ret (pred (length line), false)) (t1, buf))
    (fun r s' => r = (length (removelast line), false) /\ next_state maxlen t ks line (removelast line) s').
Proof.
  intros Hok Hk Hs Hh Hne. assert (0 < length line)%nat by (destruct line; simpl; [done|lia]).
  assert (length (removelast line) = pred (length line)) as El by (rewrite removelast_take, length_take; lia).
  rewrite El. eapply (turn_prints _ _ t1 buf maxlen ks line _ [BS; SPACE; BS]); [by eapply prints_then, prints_backsp|done|done| | |done].
  - pose proof (repaints_blanks line 1 ltac:(lia)) as Hb. rewrite removelast_take, <- Nat.sub_1_r. exact Hb.
  - rewrite removelast_take. apply holds_prefix; [done|lia].
Qed.

(** [^R] types the line again. *)
Lemma turn_retype maxlen t t1 buf line ks :
  t_ok t1 -> keys t1 = ks -> shown t1 = shown t -> holds maxlen line buf ->
  returns ((store (Z.of_nat (length line)) 0 ;;
            let* s := get in print ([94; 82; LF] ++ cstr (snd s)) ;; ret (length line, false)) (t1, buf))
    (fun r s' => r = (length line, false) /\ next_state maxlen t ks line line s').
Proof.
  intros Hok Hk Hs Hh. pose proof Hh as [H1 H2 H3 H4 H5]. apply runs_bind, store_spec; [lia|]. apply runs_bind, runs_Ret. cbn [snd].
  destruct (holds_nul _ _ _ Hh) as [Hh' Hstr]. rewrite Hstr.
  eapply (turn_prints _ (length line, false) t1 _ maxlen ks line line (u8 <$> ([94; 82; LF] ++ line)));
    [by eapply prints_then, prints_print|done|done| |done|done].
  rewrite fmap_app, (u8_line line H5). apply (repaints_app _ _ _ []); [|by apply repaints_text].
  apply (repaints_newline line [94; 82]).
Qed.

(** A key that goes into the line. *)
Lemma turn_key maxlen t t1 buf line k ks :
  t_ok t1 -> keys t1 = ks -> shown t1 = shown t -> holds maxlen line buf -> printable k = true -> (length line < room maxlen)%nat ->
  returns ((on_term (putch k) ;; store (Z.of_nat (length line)) k ;; ret (S (length line), false)) (t1, buf))
    (fun r s' => r = (length (line ++ [k]), false) /\ next_state maxlen t ks line (line ++ [k]) s').
Proof.
  intros Hok Hk Hs Hh Hp Hroom. pose proof Hh as [H1 H2 H3 H4 H5]. unfold room in Hroom. apply runs_bind.
  eapply runs_mono; [by apply (prints_putch t1 buf k)| |done]. intros [] s' (_ & t2 & more & -> & Hok2 & Hs2 & Hk2).
  apply runs_bind, store_spec; [lia|]. apply runs_Ret. split; [by rewrite length_app, Nat.add_1_r|].
  exists t2, (zinsert buf (Z.of_nat (length line)) k), more, [k].
  rewrite Hk2, Hk, Hs2, Hs, u8_printable by done. split_and!; [done|done|done|done|by apply repaints_key|].
  apply holds_add; [done|lia|done].
Qed.

(** [^U] and [^W]. *)
Lemma turn_kill maxlen t t1 buf line ks :
  t_ok t1 -> keys t1 = ks -> shown t1 = shown t -> holds maxlen line buf ->
  returns ((erase_line (length line) ;; ret (O, false)) (t1, buf))
    (fun r s' => r = (O, false) /\ next_state maxlen t ks line [] s').
Proof.
  intros Hok Hk Hs Hh. eapply (turn_prints _ (O, false) t1 buf maxlen ks line [] (blanks (length line)));
    [by eapply prints_then, prints_erase_line|done|done| |apply (holds_prefix _ line _ 0); [done|lia]|done].
  pose proof (repaints_blanks line (length line) ltac:(lia)) as Hb. by rewrite Nat.sub_diag in Hb.
Qed.

Lemma turn_word maxlen t t1 buf line ks :
  let line' := erase_end (fun c => negb (c =? SPACE)) (erase_end (fun c => c =? SPACE) line) in
  t_ok t1 -> keys t1 = ks -> shown t1 = shown t -> holds maxlen line buf ->
  returns ((let* pos := erase_while (fun c => c =? SPACE) (length line) in
            let* pos := erase_while (fun c => negb (c =? SPACE)) pos in ret (pos, false)) (t1, buf))
    (fun r s' => r = (length line', false) /\ next_state maxlen t ks line line' s').
Proof.
  intros line' Hok Hk Hs Hh. destruct (prints_word t1 buf line Hok (h_line _ _ _ Hh)) as (e & Hp & Hr).
  eapply (turn_prints _ _ t1 buf maxlen ks line line' e); [exact Hp|done|done|exact Hr| |done].
  subst line'. rewrite erase_end_prefix. set (n2 := length (erase_end _ (erase_end _ line))). rewrite erase_end_prefix, take_take.
  apply holds_prefix; [done|]. pose proof (erase_end_length (fun c => c =? SPACE) line). lia.
Qed.

(** A turn on a key that does not end the line. *)
Lemma turn_spec maxlen t buf line k ks :
  t_ok t -> keys t = k :: ks -> ends k = false -> holds maxlen line buf ->
  returns (turn maxlen (length line) (t, buf)) (fun r s' =>
    r = (length (edit (room maxlen) line k), false) /\ next_state maxlen t ks line (edit (room maxlen) line k) s').
Proof.
  intros Hok Hks He Hh. pose proof Hh as [H1 H2 H3 H4 H5]. unfold turn. apply runs_bind. unfold on_term at 1. apply runs_zoom.
  eapply runs_mono; [by apply getch_law| |done]. cbn [fst snd]. intros r t1 (-> & Hok1 & Hk1 & Hs1).
  unfold ends in He. apply orb_false_iff in He as [He Hc]. rewrite He, Hc. cbn [orb].
  rewrite u32_small by (unfold is_u32; lia).
  assert ((Z.of_nat (length line) <? maxlen - 1) = (length line <? room maxlen)%nat) as ->.
  { unfold room. apply eq_iff_eq_true. rewrite Z.ltb_lt, Nat.ltb_lt. lia. }
  fold (printable k). unfold edit. destruct (printable k && (length line <? room maxlen)%nat) eqn:Epr.
  { apply andb_true_iff in Epr as [Hp Hroom%Nat.ltb_lt]. by apply turn_key. }
  destruct ((k =? BS) || (k =? DEL)) eqn:Eb; cbn [andb].
  { destruct line as [|x line0] eqn:El; rewrite <- ?El in *.
    - replace (k =? CTRL_R) with false by (unfold BS, DEL, CTRL_R in *; lia). replace (k =? CTRL_U) with false by (unfold BS, DEL, CTRL_U in *; lia).
      replace (k =? CTRL_W) with false by (unfold BS, DEL, CTRL_W in *; lia). rewrite El in *. by apply (turn_beeps _ t t1 buf []).
    - replace (length line =? 0)%nat with false by (by rewrite El). apply turn_back; by rewrite ?El in *. }
  destruct (k =? CTRL_R) eqn:Er.
  { apply Z.eqb_eq in Er as ->. by apply turn_retype. }
  destruct (k =? CTRL_U); [by apply turn_kill|]. destruct (k =? CTRL_W); [by apply turn_word|by apply turn_beeps].
Qed.

(** The turn that ends the line: what it shows, and what is left of the line. *)
Definition last_shown (e : Z) : list Z := if e =? CTRL_C then [94; 67; LF] else [LF].
Definition last_line (e : Z) (line : list Z) : list Z := if e =? CTRL_C then [] else line.

Lemma turn_ends maxlen t buf line e ks :
  t_ok t -> keys t = e :: ks -> ends e = true ->
  returns (turn maxlen (length line) (t, buf)) (fun r s' => r = (length (last_line e line), true) /\
    exists t' more, s' = (t', buf) /\ t_ok t' /\ keys t' = ks ++ more /\ shown t' = shown t ++ last_shown e).
Proof.
  intros Hok Hks He. unfold turn. apply runs_bind. unfold on_term at 1. apply runs_zoom.
  eapply runs_mono; [by apply getch_law| |done]. cbn [fst snd]. intros r t1 (-> & Hok1 & Hk1 & Hs1).
  assert (e = LF \/ e = CR \/ e = CTRL_C) as Hcase by (unfold ends in He; lia).
  assert (forall (m : M st unit) out (p : nat), prints m t1 buf tt out -> returns ((m ;; ret (p, true)) (t1, buf)) (fun r s' => r = (p, true) /\
    exists t' more, s' = (t', buf) /\ t_ok t' /\ keys t' = ks ++ more /\ shown t' = shown t ++ out)) as Hout.
  { intros m out p Hm. eapply runs_mono; [by eapply prints_then| |done]. intros r s' (-> & t' & more & -> & Hok' & Hs' & Hk').
    split; [done|]. exists t', more. by rewrite Hk', Hk1, Hs', Hs1. }
  destruct Hcase as [->|[->| ->]].
  1, 2: by apply (Hout _ [LF]), (prints_putch t1 buf LF).
  by apply (Hout _ [94; 67; LF]), (prints_print t1 buf [94; 67; LF]).
Qed.

(** What the loop leaves when the keys are [pre] and then the key [e] that ends
    the line. *)
Lemma kgets_loop_spec maxlen pre e : forall fuel t buf line ks,
  t_ok t -> keys t = pre ++ e :: ks -> forallb (fun k => negb (ends k)) pre = true -> ends e = true ->
  holds maxlen line buf -> (length pre < fuel)%nat ->
  returns (kgets_loop fuel maxlen (length line) (t, buf)) (fun pos s' =>
    let line' := foldl (edit (room maxlen)) line pre in
    pos = length (last_line e line') /\
    exists t' buf' more echo, s' = (t', buf') /\ t_ok t' /\ keys t' = ks ++ more /\
      shown t' = shown t ++ echo ++ last_shown e /\ repaints echo line line' /\ holds maxlen line' buf').
Proof.
  induction pre as [|k pre IH]; intros [|fuel] t buf line ks Hok Hks Hpre He Hh Hf; simpl in Hf; try lia; cbn [kgets_loop]; apply runs_bind.
  - eapply runs_mono; [by eapply turn_ends| |done]. intros r s' (-> & t' & more & -> & Hok' & Hk' & Hs'). apply runs_Ret.
    split; [done|]. exists t', buf, more, []. split_and!; try done. apply repaints_nil.
  - cbn [forallb] in Hpre. apply andb_true_iff in Hpre as [Hk Hpre]. apply negb_true_iff in Hk.
    eapply runs_mono; [by apply (turn_spec maxlen t buf line k (pre ++ e :: ks))| |done].
    intros r s' (-> & t1 & buf1 & more & e1 & -> & Hok1 & Hk1 & Hs1 & Hr1 & Hh1). cbn [fst snd].
    eapply runs_mono; [apply (IH fuel t1 buf1 _ (ks ++ more)); [done| |done|done|done|lia]| |done].
    { by rewrite Hk1, <- (assoc (++)). }
    intros pos s' (-> & t2 & buf2 & more2 & e2 & -> & Hok2 & Hk2 & Hs2 & Hr2 & Hh2). split; [done|].
    exists t2, buf2, (more ++ more2), (e1 ++ e2). split_and!; try done.
    + by rewrite Hk2, (assoc (++)).
    + by rewrite Hs2, Hs1, <- !(assoc (++)).
    + by eapply repaints_app.
Qed.

(** [kgets] with the keys [pre] and an ending key waiting returns after those
    keys, for every buffer of at least one byte: nothing outside it is written;
    what a C string reader finds in it is the line the editing keys make of
    [pre], at most [maxlen - 1] printable characters, or the empty string after
    [^C]; and what was echoed before the ending key leaves a terminal with just
    that line before its cursor. *)
Lemma kgets_spec (t : T) (buf pre : list Z) (e : Z) (ks : list Z) :
  t_ok t -> keys t = pre ++ e :: ks -> forallb (fun k => negb (ends k)) pre = true -> ends e = true ->
  1 <= zlen buf < 2 ^ 32 ->
  let line := foldl (edit (room (zlen buf))) [] pre in
  returns (kgets (S (length pre)) (zlen buf) (t, buf)) (fun _ s' => exists t' buf' more echo,
    s' = (t', buf') /\ zlen buf' = zlen buf /\ cstr buf' = last_line e line /\
    zlen line < zlen buf /\ forallb printable line = true /\
    shown t' = shown t ++ echo ++ last_shown e /\ repaints echo [] line /\
    keys t' = ks ++ more /\ t_ok t').
Proof.
  intros Hok Hks Hpre He Hb line. unfold kgets. apply runs_bind.
  eapply runs_mono; [apply (kgets_loop_spec (zlen buf) pre e _ t buf [] ks); [done|done|done|done| |lia]| |done].
  { split; [done|done|simpl; lia|done|done]. }
  fold line. intros pos s' (-> & t' & buf' & more & echo & -> & Hok' & Hk' & Hs' & Hr' & Hh').
  assert (holds (zlen buf) (last_line e line) buf') as Hl.
  { unfold last_line. destruct (e =? CTRL_C); [|done]. apply (holds_prefix _ line _ 0); [done|lia]. }
  pose proof Hh' as [H1 H2 H3 H4 H5]. apply store_spec; [pose proof (h_room _ _ _ Hl); lia|].
  exists t', (zinsert buf' (Z.of_nat (length (last_line e line))) 0), more, echo.
  split_and!; [done|by rewrite zlen_zinsert|apply (holds_nul _ _ _ Hl)|done| |done|done|done|done].
  apply forallb_forall. intros x Hx%list_elem_of_In. by apply (proj1 (Forall_forall _ _) H5).
Qed.

End Kgets.

(** ** The console as a terminal *)

Section OnConsole.
Context {C B U : Type} `{!SerialCard C, !Devices.TimerCard U}.

(** The console and the timer that has the speaker. *)
Definition terminal := (console (C := C) (B := B) * Devices.timer (T := U))%type.

#[export, refine] Instance console_terminal : Terminal terminal := {
  getch := zoom fst (fun c s => (c, snd s)) (Console.getch 0);
  putch ch := zoom fst (fun c s => (c, snd s)) (Console.putch ch);
  beep := zoom snd (fun d s => (fst s, d)) Devices.beep;
  t_ok s := live (fst s) /\ may_sleep (fst s);
  keys s := buffer (con (fst s));
  shown s := line (con (fst s)) }.
Proof.
  - intros [c d] k ks [Hl Hm] Hk. apply runs_zoom. eapply runs_mono; [by apply (getch_spec c 0 k ks)| |done].
    cbn [fst snd] in *. intros r c' (-> & s' & -> & Hi & Hl' & Hb). destruct Hl as [Ha Hs]. done.
  - intros [c d] ch [Hl Hm]. apply runs_zoom. eapply runs_mono; [by apply putch_spec| |done].
    cbn [fst snd] in *. intros [] c' (s' & -> & Hi & Hl' & more & Hk). destruct Hl as [Ha Hs]. split; [done|]. split; [done|]. by exists more.
  - intros [c d] [Hl Hm]. apply runs_zoom. unfold Devices.beep, Devices.ltimer_beep, Devices.bus_write_register. runs_steps.
    cbn [fst snd]. destruct (Devices.the_beep d); runs_steps; (split; [done|]; split; [done|]; exists []; by rewrite app_nil_r).
Defined.

End OnConsole.
(** ** A console with keys typed *)

(** A timer whose clock stands still. *)
#[export, refine] Instance ex_timer : Devices.TimerCard unit := {
  Devices.lt_read reg t := 0; Devices.lt_write reg v t := t; Devices.lt_access t := t; Devices.now t := 0 }.
Proof. all: done. Defined.

Definition ex_terminal : terminal (C := excard) (B := unit) (U := unit) := (ex_console, Devices.mkTimer tt 0 0 false true true).

Lemma ex_keys : keys ex_terminal = [104; 105] ++ CR :: [].
Proof. by vm_compute. Qed.

Lemma ex_ready : t_ok ex_terminal.
Proof. split; [exact ex_live|]. by split. Qed.

End Kgets.
