(* ===== verification/Menu.v ===== *)
(** * The menu: src/startup/menu.c

    A command line is one buffer that [menu_execute] cuts into commands and
    [cmd_dispatch] into words, both with [strtok_r], which stores NUL characters
    in it; a word is its offset.  What the commands call is the class [Kernel].
    The theorem: a line runs the same commands with the same words, in the same
    order, as the list of words that splitting it gives. *)

From stdpp Require Import strings.
From S2P Require Import Prelude Console ConsoleThm Devices Kgets.
Import Console ConsoleThm Kgets.

Module Menu.

Definition MAXMENUARGS : nat := 16.
Definition E2BIG : Z := 14.

(** What is printed, by its format string. *)
Inductive message :=
  | TooManyWords                    (** Command line has too many words *)
  | NotFound (cmd : list Z)         (** %s: Command not found *)
  | OperationTook (secs nsecs : Z)  (** Operation took %lu.%09lu seconds *)
  | Executing (cmd : list Z)        (** OS/161 kernel: %s *)
  | CommandFailed (e : Z)           (** Menu command failed: %s *)
  | Usage (cmd : list Z)
  | UnknownFs (fstype : list Z)     (** Unknown filesystem type %s *)
  | ForkFailed (e : Z)              (** thread_fork failed: %s *)
  | Prompt.                         (** OS/161 kernel [? for menu]: *)

(** What the menu calls; a result is 0 or an error number.  [other] are the
    remaining commands by name: menus, statistics and tests. *)
Class Kernel (S : Type) := {
  kprintf : message -> M S unit;
  gettime : M S (Z * Z);
  vfs_chdir : list Z -> M S Z;
  vfs_unmount : list Z -> M S Z;
  vfs_setbootfs : list Z -> M S Z;
  vfs_sync : M S unit;
  sfs_mount : list Z -> M S Z;
  sys_reboot : M S unit;
  thread_exit : M S unit;
  proc_create_runprogram : list Z -> M S (option Z);
  thread_fork : Z -> list (list Z) -> M S Z;
  proc_destroy : Z -> M S unit;
  wait_no_proc : M S unit;
  other : list Z -> list (list Z) -> M S Z }.

(** Characters of the names. *)
Definition ch_of (s : string) : list Z := (fun c => Z.of_nat (Ascii.nat_of_ascii c)) <$> String.list_ascii_of_string s.

Section Menu.
Context {S : Type} `{!Kernel S}.

(** ** Commands *)

(** [args[i]]: the array has the [nargs] words. *)
Definition arg (args : list (list Z)) (i : nat) : M S (list Z) := of_option Wild (args !! i).

Definition common_prog (args : list (list Z)) : M S Z :=
  let* name := arg args 0 in
  let* proc := proc_create_runprogram name in
  match proc with
  | None => ret ENOMEM
  | Some proc =>
      let* result := thread_fork proc args in
      if negb (result =? 0) then
        kprintf (ForkFailed result) ;; proc_destroy proc ;; ret result
      else wait_no_proc ;; ret 0
  end.

Definition cmd_prog (args : list (list Z)) : M S Z :=
  if (length args <? 2)%nat then kprintf (Usage (ch_of "p")) ;; ret EINVAL
  else common_prog (drop 1 args).

Definition cmd_shell (args : list (list Z)) : M S Z :=
  if negb (length args =? 1)%nat then kprintf (Usage (ch_of "s")) ;; ret EINVAL
  else common_prog [ch_of "/bin/sh"].

Definition cmd_chdir (args : list (list Z)) : M S Z :=
  if negb (length args =? 2)%nat then kprintf (Usage (ch_of "cd")) ;; ret EINVAL
  else let* dir := arg args 1 in vfs_chdir dir.

(** A colon at the end of a device name is cut off. *)
Definition COLON : Z := 58.
Definition strip_colon (device : list Z) : M S (list Z) :=
  let* ch := of_option Wild (last device) in
  ret (if ch =? COLON then removelast device else device).

Definition cmd_mount (args : list (list Z)) : M S Z :=
  if negb (length args =? 3)%nat then kprintf (Usage (ch_of "mount")) ;; ret EINVAL
  else
    let* fstype := arg args 1 in
    let* device := arg args 2 in
    let* device := strip_colon device in
    if bool_decide (fstype = ch_of "sfs") then sfs_mount device
    else kprintf (UnknownFs fstype) ;; ret EINVAL.

Definition cmd_unmount (args : list (list Z)) : M S Z :=
  if negb (length args =? 2)%nat then kprintf (Usage (ch_of "unmount")) ;; ret EINVAL
  else let* device := arg args 1 in let* device := strip_colon device in vfs_unmount device.

Definition cmd_bootfs (args : list (list Z)) : M S Z :=
  if negb (length args =? 2)%nat then kprintf (Usage (ch_of "bootfs")) ;; ret EINVAL
  else let* device := arg args 1 in let* device := strip_colon device in vfs_setbootfs device.

Definition cmd_sync (args : list (list Z)) : M S Z := vfs_sync ;; ret 0.
Definition cmd_panic (args : list (list Z)) : M S Z := panic.
Definition cmd_quit (args : list (list Z)) : M S Z := vfs_sync ;; sys_reboot ;; thread_exit ;; ret 0.

Definition cmdtable : list (list Z * (list (list Z) -> M S Z)) :=
  [ (ch_of "?", other (ch_of "?")); (ch_of "h", other (ch_of "h")); (ch_of "help", other (ch_of "help"));
    (ch_of "?o", other (ch_of "?o")); (ch_of "?t", other (ch_of "?t"));
    (ch_of "s", cmd_shell); (ch_of "p", cmd_prog); (ch_of "mount", cmd_mount); (ch_of "unmount", cmd_unmount);
    (ch_of "bootfs", cmd_bootfs); (ch_of "pf", other (ch_of "pf")); (ch_of "cd", cmd_chdir); (ch_of "pwd", other (ch_of "pwd"));
    (ch_of "sync", cmd_sync); (ch_of "panic", cmd_panic); (ch_of "q", cmd_quit); (ch_of "exit", cmd_quit); (ch_of "halt", cmd_quit);
    (ch_of "dth", other (ch_of "dth")); (ch_of "kh", other (ch_of "kh"));
    (ch_of "at", other (ch_of "at")); (ch_of "bt", other (ch_of "bt")); (ch_of "km1", other (ch_of "km1")); (ch_of "km2", other (ch_of "km2"));
    (ch_of "tt1", other (ch_of "tt1")); (ch_of "tt2", other (ch_of "tt2")); (ch_of "tt3", other (ch_of "tt3")); (ch_of "sy1", other (ch_of "sy1"));
    (ch_of "sy2", other (ch_of "sy2")); (ch_of "sy3", other (ch_of "sy3")); (ch_of "uw1", other (ch_of "uw1")); (ch_of "uw2", other (ch_of "uw2"));
    (ch_of "fs1", other (ch_of "fs1")); (ch_of "fs2", other (ch_of "fs2")); (ch_of "fs3", other (ch_of "fs3")); (ch_of "fs4", other (ch_of "fs4"));
    (ch_of "fs5", other (ch_of "fs5")) ].

(** ** Cutting the line *)

(** The line's buffer, and the kernel. *)
Definition st := (list Z * S)%type.
Definition on_buf {A} (m : M (list Z) A) : M st A := zoom fst (fun b s => (b, snd s)) m.
Definition on_kernel {A} (m : M S A) : M st A := zoom snd (fun k s => (fst s, k)) m.

(** How many characters from here on satisfy [f]; a NUL ends the text. *)
Fixpoint scan (f : Z -> bool) (l : list Z) : option nat :=
  match l with
  | [] => None
  | ch :: l' => if (ch =? 0) || negb (f ch) then Some O else Datatypes.S <$> scan f l'
  end.

(** [strtok_r(..)]: the offset of the word, if there is one, and the context. *)
Definition strtok_r (sep : Z -> bool) (context : option nat) : M (list Z) (option nat * option nat) :=
  match context with
  | None => ret (None, None)
  | Some head =>
      let* buf := get in
      let* k := of_option Wild (scan sep (drop head buf)) in
      let head := (head + k)%nat in
      let* ch := of_option Wild (buf !! head) in
      if ch =? 0 then ret (None, None)
      else
        let* k := of_option Wild (scan (fun c => negb (sep c)) (drop head buf)) in
        let tail := (head + k)%nat in
        let* ch := of_option Wild (buf !! tail) in
        if ch =? 0 then ret (Some head, None)
        else modify (fun buf => <[tail := 0]> buf) ;; ret (Some head, Some (Datatypes.S tail))
  end.

Definition blank (ch : Z) : bool := (ch =? 32) || (ch =? 9).
Definition semicolon (ch : Z) : bool := ch =? 59.

(** The loop over the words: [args], or the error. *)
Fixpoint words_loop (fuel : nat) (word context : option nat) (args : list nat) : M st (Z + list nat) :=
  match word, fuel with
  | None, _ => ret (inr args)
  | Some _, O => crashed Hung
  | Some word, Datatypes.S fuel' =>
      if (MAXMENUARGS <=? length args)%nat then on_kernel (kprintf TooManyWords) ;; ret (inl E2BIG)
      else
        let* r := on_buf (strtok_r blank context) in
        words_loop fuel' (fst r) (snd r) (args ++ [word])
  end.

(** A command is run with its words, and timed. *)
Fixpoint dispatch_loop (table : list (list Z * (list (list Z) -> M S Z))) (args : list (list Z)) (name : list Z) : M S Z :=
  match table with
  | [] => kprintf (NotFound name) ;; ret EINVAL
  | (cmd, func) :: table' =>
      if negb (bool_decide (cmd = [])) && bool_decide (name = cmd) then
        let* before := gettime in
        let* result := func args in
        let* after := gettime in
        let t := Devices.getinterval before after in
        kprintf (OperationTook (fst t) (snd t)) ;;
        ret result
      else dispatch_loop table' args name
  end.

Definition cmd_dispatch (fuel : nat) (cmd : nat) : M st Z :=
  let* r := on_buf (strtok_r blank (Some cmd)) in
  let* args := words_loop fuel (fst r) (snd r) [] in
  match args with
  | inl e => ret e
  | inr [] => ret 0
  | inr (a0 :: args) =>
      let* s := get in
      let words := (fun a => cstr (drop a (fst s))) <$> a0 :: args in
      on_kernel (dispatch_loop cmdtable words (cstr (drop a0 (fst s))))
  end.

Fixpoint commands_loop (fuel : nat) (isargs : bool) (command context : option nat) : M st unit :=
  match command, fuel with
  | None, _ => ret tt
  | Some _, O => crashed Hung
  | Some command, Datatypes.S fuel' =>
      let* s := get in
      (if* isargs then on_kernel (kprintf (Executing (cstr (drop command (fst s)))))) ;;
      let* result := cmd_dispatch (length (fst s)) command in
      (if* negb (result =? 0) then (on_kernel (kprintf (CommandFailed result)) ;; if* isargs then panic)) ;;
      let* r := on_buf (strtok_r semicolon context) in
      commands_loop fuel' isargs (fst r) (snd r)
  end.

Definition menu_execute (isargs : bool) : M st unit :=
  let* s := get in
  let* r := on_buf (strtok_r semicolon (Some O)) in
  commands_loop (length (fst s)) isargs (fst r) (snd r).

(** [menu]: the arguments of the kernel, then [turns] lines that [kgets] gives,
    each in its buffer. *)
Section Loop.
Variable kgets : M S (list Z).

Definition execute_line (isargs : bool) (buf : list Z) : M S unit :=
  fun k => match menu_execute isargs (buf, k) with Ret _ s => Ret tt (snd s) | Err e s => Err e (snd s) | Crash c => Crash c end.

Fixpoint menu_loop (turns : nat) : M S unit :=
  match turns with
  | O => crashed Hung
  | Datatypes.S turns' =>
      kprintf Prompt ;;
      let* buf := kgets in
      execute_line false buf ;; menu_loop turns'
  end.

Definition menu (turns : nat) (args : list Z) : M S unit := execute_line true args ;; menu_loop turns.
End Loop.

(** ** What a line means *)

Fixpoint split_on (sep : Z -> bool) (l : list Z) : list (list Z) :=
  match l with
  | [] => [[]]
  | ch :: l' => if sep ch then [] :: split_on sep l' else match split_on sep l' with [] => [[ch]] | w :: ws => (ch :: w) :: ws end
  end.
(** The words between the separators, without the empty ones. *)
Definition tokens (sep : Z -> bool) (l : list Z) : list (list Z) := filter (fun w => w <> []) (split_on sep l).

Definition run_words (words : list (list Z)) : M S Z :=
  if (MAXMENUARGS <? length words)%nat then kprintf TooManyWords ;; ret E2BIG
  else match words with [] => ret 0 | name :: _ => dispatch_loop cmdtable words name end.

Fixpoint run_commands (isargs : bool) (commands : list (list Z)) : M S unit :=
  match commands with
  | [] => ret tt
  | command :: commands' =>
      (if* isargs then kprintf (Executing command)) ;;
      let* result := run_words (tokens blank command) in
      (if* negb (result =? 0) then (kprintf (CommandFailed result) ;; if* isargs then panic)) ;;
      run_commands isargs commands'
  end.

Lemma split_on_app sep w d l : Forall (fun c => sep c = false) w -> sep d = true -> split_on sep (w ++ d :: l) = w :: split_on sep l.
Proof. intros Hw Hd. induction Hw as [|c w Hc _ IH]; cbn; [by rewrite Hd|]. by rewrite Hc, IH. Qed.
Lemma split_on_word sep w : Forall (fun c => sep c = false) w -> split_on sep w = [w].
Proof. induction 1 as [|c w Hc _ IH]; cbn; [done|]. by rewrite Hc, IH. Qed.

Lemma tokens_skip sep s l : Forall (fun c => sep c = true) s -> tokens sep (s ++ l) = tokens sep l.
Proof. unfold tokens. induction 1 as [|c s Hc _ IH]; cbn; [done|]. rewrite Hc, filter_cons_False by (intros H; by apply H). done. Qed.
Lemma tokens_app sep w d l : w <> [] -> Forall (fun c => sep c = false) w -> sep d = true -> tokens sep (w ++ d :: l) = w :: tokens sep l.
Proof. intros Hn Hw Hd. unfold tokens. by rewrite split_on_app, filter_cons_True. Qed.
Lemma tokens_word sep w : w <> [] -> Forall (fun c => sep c = false) w -> tokens sep w = [w].
Proof. intros Hn Hw. unfold tokens. by rewrite split_on_word, filter_cons_True. Qed.

Lemma split_on_chars sep l : (sum_list (length <$> split_on sep l) <= length l)%nat.
Proof.
  induction l as [|c l IH]; [done|]. cbn [split_on]. destruct (sep c); [simpl; unfold fmap in IH; lia|].
  destruct (split_on sep l) as [|w ws]; simpl in *; lia.
Qed.
Lemma tokens_length sep l : (length (tokens sep l) <= length l)%nat.
Proof.
  etrans; [|apply (split_on_chars sep)]. unfold tokens. induction (split_on sep l) as [|w ws IH]; [done|].
  destruct w as [|c w]; [rewrite filter_cons_False by (intros H; by apply H); exact IH|]. rewrite filter_cons_True by done. simpl. simpl in IH. unfold fmap in IH. lia.
Qed.

(** ** Words in the buffer *)

(** The C string [w] is at [p]. *)
Definition word_at (buf : list Z) (p : nat) (w : list Z) : Prop :=
  Forall (fun c => c <> 0) w /\ forall i, (i <= length w)%nat -> buf !! (p + i)%nat = (w ++ [0]) !! i.

Lemma word_at_cstr buf p w : word_at buf p w -> cstr (drop p buf) = w.
Proof.
  intros [Hw Hb]. assert (forall i, (i <= length w)%nat -> drop p buf !! i = (w ++ [0]) !! i) as Hd by (intros i Hi; rewrite lookup_drop; auto).
  clear Hb. revert Hd. generalize (drop p buf). induction Hw as [|c w Hc Hw IH]; intros l Hl.
  - specialize (Hl O ltac:(simpl; lia)). destruct l as [|x l]; [done|]. cbn in Hl. injection Hl as ->. done.
  - pose proof (Hl O ltac:(lia)) as H0. destruct l as [|x l]; [done|]. cbn in H0. injection H0 as ->. cbn.
    destruct (Z.eqb_spec c 0); [done|]. f_equal. apply IH. intros i Hi. apply (Hl (Datatypes.S i)). simpl. lia.
Qed.

Lemma word_at_drop buf p w rest : Forall (fun c => c <> 0) w -> drop p buf = w ++ 0 :: rest -> word_at buf p w.
Proof.
  intros Hw Hd. split; [done|]. intros i Hi. rewrite <- lookup_drop, Hd. replace (w ++ 0 :: rest) with ((w ++ [0]) ++ rest) by (by rewrite <- (assoc (++))).
  apply lookup_app_l. rewrite length_app. simpl. lia.
Qed.

(** [buf'] is [buf] outside [lo, hi). *)
Definition only_in (lo hi : nat) (buf buf' : list Z) : Prop :=
  length buf' = length buf /\ forall i, (i < lo)%nat \/ (hi <= i)%nat -> buf' !! i = buf !! i.

Lemma only_in_refl lo hi buf : only_in lo hi buf buf.
Proof. done. Qed.
Lemma only_in_trans lo hi b1 b2 b3 : only_in lo hi b1 b2 -> only_in lo hi b2 b3 -> only_in lo hi b1 b3.
Proof. intros [L1 H1] [L2 H2]. split; [congruence|]. intros i Hi. by rewrite H2, H1. Qed.
Lemma only_in_le lo hi lo' hi' b1 b2 : (lo' <= lo)%nat -> (hi <= hi')%nat -> only_in lo hi b1 b2 -> only_in lo' hi' b1 b2.
Proof. intros Hl Hh [L H]. split; [done|]. intros i Hi. apply H. lia. Qed.

Lemma word_at_frame lo hi b1 b2 p w : only_in lo hi b1 b2 -> (p + length w < lo)%nat -> word_at b1 p w -> word_at b2 p w.
Proof. intros [_ H] Hp [Hw Hb]. split; [done|]. intros i Hi. rewrite H by lia. by apply Hb. Qed.

Lemma drop_frame lo hi b1 b2 : only_in lo hi b1 b2 -> drop hi b2 = drop hi b1.
Proof. intros [_ H]. apply list_eq. intros i. rewrite !lookup_drop. apply H. lia. Qed.

(** What is left to be cut: [l], which ends at [e]. *)
Definition rest_at (buf : list Z) (context : option nat) (l : list Z) (e : nat) : Prop :=
  Forall (fun c => c <> 0) l /\
  match context with
  | None => l = []
  | Some h => (h + length l = e)%nat /\ exists rest, drop h buf = l ++ 0 :: rest
  end.

(** A prefix of characters that satisfy [f]. *)
Lemma scan_spec f l rest : Forall (fun c => c <> 0) l ->
  exists a b, l = a ++ b /\ Forall (fun c => f c = true) a /\ match b with [] => True | c :: _ => f c = false end /\ scan f (l ++ 0 :: rest) = Some (length a).
Proof.
  induction 1 as [|c l Hc _ IH]; [by exists [], []|]. cbn [scan app]. rewrite (proj2 (Z.eqb_neq c 0) Hc). cbn [orb]. destruct (f c) eqn:Ef; cbn [negb].
  - destruct IH as (a & b & -> & Ha & Hb & ->). exists (c :: a), b. split_and!; [done|by constructor|done|done].
  - exists [], (c :: l). split_and!; [done|constructor|done|done].
Qed.

Lemma rest_word buf p w e : rest_at buf (Some p) w e -> word_at buf p w.
Proof. intros (Hw & _ & rest & Hd). by eapply word_at_drop. Qed.

(** The three ways through [strtok_r]. *)
Lemma strtok_none sep buf h k :
  scan sep (drop h buf) = Some k -> buf !! (h + k)%nat = Some 0 -> strtok_r sep (Some h) buf = Ret (None, None) buf.
Proof. intros H1 H2. unfold strtok_r, bind, get, of_option, ret. rewrite H1. cbv beta iota zeta. by rewrite H2. Qed.

Lemma strtok_word sep buf h k c m d :
  scan sep (drop h buf) = Some k -> buf !! (h + k)%nat = Some c -> c <> 0 ->
  scan (fun c => negb (sep c)) (drop (h + k) buf) = Some m -> buf !! (h + k + m)%nat = Some d ->
  strtok_r sep (Some h) buf =
    if d =? 0 then Ret (Some (h + k)%nat, None) buf
    else Ret (Some (h + k)%nat, Some (Datatypes.S (h + k + m))) (<[(h + k + m)%nat := 0]> buf).
Proof.
  intros H1 H2 Hc H3 H4. unfold strtok_r, bind, get, of_option, ret, modify. rewrite H1. cbv beta iota zeta.
  rewrite H2. cbv beta iota zeta. rewrite (proj2 (Z.eqb_neq c 0) Hc), H3. cbv beta iota zeta. rewrite H4. by destruct (d =? 0).
Qed.

Lemma drop_after (l1 l2 buf : list Z) h : drop h buf = l1 ++ l2 -> drop (h + length l1) buf = l2.
Proof. intros H. rewrite <- drop_drop, H. apply drop_app_length. Qed.
Lemma lookup_behind (l1 l2 buf : list Z) h c : drop h buf = l1 ++ c :: l2 -> buf !! (h + length l1)%nat = Some c.
Proof. intros H. rewrite <- lookup_drop, H. by apply list_lookup_middle. Qed.

(** The buffer after a separator [d] was overwritten. *)
Lemma cut_word (s w b rest buf : list Z) h d :
  drop h buf = s ++ w ++ d :: b ++ 0 :: rest ->
  let buf' := <[(h + length s + length w)%nat := 0]> buf in
  drop (h + length s) buf' = w ++ 0 :: b ++ 0 :: rest /\ drop (Datatypes.S (h + length s + length w)) buf' = b ++ 0 :: rest.
Proof.
  intros Hd buf'. apply drop_after in Hd. assert (drop (h + length s) buf' = w ++ 0 :: b ++ 0 :: rest) as H.
  { subst buf'. rewrite drop_insert_ge by lia. replace (h + length s + length w - (h + length s))%nat with (length w) by lia. rewrite Hd.
    by rewrite insert_app_r_alt, Nat.sub_diag by lia. }
  split; [done|]. apply drop_after in H. rewrite <- Nat.add_1_r, <- drop_drop, H. done.
Qed.

Lemma strtok_spec sep buf context l e :
  rest_at buf context l e ->
  exists r buf', strtok_r sep context buf = Ret r buf' /\
    match fst r with
    | None => tokens sep l = [] /\ buf' = buf
    | Some p => exists h w l2, context = Some h /\ tokens sep l = w :: tokens sep l2 /\ (h <= p)%nat /\ (p + length w <= e)%nat /\
        rest_at buf' (Some p) w (p + length w) /\ rest_at buf' (snd r) l2 e /\ only_in h e buf buf' /\
        (forall h2, snd r = Some h2 -> (p + length w < h2)%nat)
    end.
Proof.
  intros [Hnz Hc]. destruct context as [h|]; [|subst l; exists (None, None), buf; done]. destruct Hc as [He [rest Hd]].
  destruct (scan_spec sep l rest Hnz) as (s & b & -> & Hs & Hb & Hscan). apply Forall_app in Hnz as [_ Hnzb].
  rewrite tokens_skip by done. rewrite <- Hd in Hscan. rewrite <- (assoc (++)) in Hd. pose proof (drop_after _ _ _ _ Hd) as Hd2. rewrite length_app in He.
  destruct b as [|c b].
  { rewrite (strtok_none sep buf h (length s) Hscan (lookup_behind _ _ _ _ _ Hd)). by exists (None, None), buf. }
  destruct (scan_spec (fun x => negb (sep x)) (c :: b) rest Hnzb) as (w & b2 & Eb & Hw & Hb2 & Hscan2). rewrite <- Hd2 in Hscan2.
  assert (w <> []) as Hwn by (intros ->; cbn in Eb; subst b2; cbn in Hb, Hb2; by destruct (sep c)).
  assert (Forall (fun x => sep x = false) w) as Hw' by (eapply Forall_impl; [exact Hw|]; cbv beta; intros x Hx; by apply negb_true_iff).
  pose proof (lookup_behind _ _ _ _ _ Hd) as Hlc. pose proof (proj1 (proj1 (Forall_cons _ _ _) Hnzb)) as Hc0.
  rewrite Eb in *. apply Forall_app in Hnzb as [Hnzw Hnz2]. rewrite length_app in He. rewrite <- (assoc (++)) in Hd, Hd2.
  destruct b2 as [|d b2].
  - rewrite (strtok_word sep buf h _ c _ 0 Hscan Hlc Hc0 Hscan2 (lookup_behind _ _ _ _ _ Hd2)). eexists (Some _, None), buf. split; [done|].
    exists h, w, []. rewrite app_nil_r, tokens_word by done. cbn [fst snd length] in *.
    split_and!; [done|done|lia|lia|split; [done|split; [done|by exists rest]]|done|apply only_in_refl|done].
  - apply Forall_cons in Hnz2 as [Hd0 Hnz2]. rewrite (strtok_word sep buf h _ c _ d Hscan Hlc Hc0 Hscan2 (lookup_behind _ _ _ _ _ Hd2)).
    rewrite (proj2 (Z.eqb_neq d 0) Hd0). eexists (Some _, Some _), _. split; [done|]. exists h, w, b2.
    apply negb_false_iff in Hb2. rewrite tokens_app by done. destruct (cut_word s w b2 rest buf h d Hd) as [Hcut1 Hcut2]. cbn [fst snd length] in *.
    split_and!; [done|done|lia|lia|split; [done|split; [done|by exists (b2 ++ 0 :: rest)]]|split; [done|split; [lia|by exists rest]]| |intros h2 [= <-]; lia].
    split; [apply length_insert|]. intros i Hi. apply list_lookup_insert_ne. lia.
Qed.

(** ** The loops *)

(** The same kernel, and values and a buffer related by [R]. *)
Definition sim {A B} (R : A -> B -> list Z -> Prop) (o : outcome st A) (o' : outcome S B) : Prop :=
  match o, o' with
  | Ret a s, Ret b k => snd s = k /\ R a b (fst s)
  | Err e s, Err e' k => snd s = k /\ e = e'
  | Crash c, Crash c' => c = c'
  | _, _ => False
  end.

Lemma sim_bind {A B A' B'} (R : A -> B -> list Z -> Prop) (Q : A' -> B' -> list Z -> Prop) m m' f g s k :
  sim R (m s) (m' k) -> (forall a b buf k', R a b buf -> sim Q (f a (buf, k')) (g b k')) -> sim Q (bind m f s) (bind m' g k).
Proof.
  unfold sim, bind. intros Hm Hf. destruct (m s) as [a [buf k1]|e [buf k1]|c], (m' k) as [b k2|e' k2|c']; try done.
  destruct Hm as [<- Hr]. by apply Hf.
Qed.
Lemma sim_mono {A B} (R Q : A -> B -> list Z -> Prop) o o' : sim R o o' -> (forall a b buf, R a b buf -> Q a b buf) -> sim Q o o'.
Proof. unfold sim. intros H HQ. destruct o, o'; try done. destruct H. by auto. Qed.
Lemma sim_kernel {A} (m : M S A) buf k : sim (fun a b buf' => a = b /\ buf' = buf) (on_kernel m (buf, k)) (m k).
Proof. unfold on_kernel, zoom, sim. cbn. by destruct (m k). Qed.
Lemma on_buf_Ret {A} (m : M (list Z) A) buf k a buf' : m buf = Ret a buf' -> on_buf m (buf, k) = Ret a (buf', k).
Proof. intros H. unfold on_buf, zoom. cbn. by rewrite H. Qed.
Lemma bind_step {A B} (m : M st A) (f : A -> M st B) s a s' : m s = Ret a s' -> bind m f s = f a s'.
Proof. intros H. unfold bind. by rewrite H. Qed.

(** The first half of [run_words]. *)
Definition get_words (words : list (list Z)) : M S (Z + list (list Z)) :=
  if (MAXMENUARGS <? length words)%nat then kprintf TooManyWords ;; ret (inl E2BIG) else ret (inr words).

Lemma run_words_get words k :
  run_words words k = (let* r := get_words words in
    match r with inl e => ret e | inr words => match words with [] => ret 0 | name :: _ => dispatch_loop cmdtable words name end end) k.
Proof.
  unfold run_words, get_words, bind, ret. destruct (MAXMENUARGS <? length words)%nat; [|destruct words; reflexivity].
  destruct (kprintf TooManyWords k); reflexivity.
Qed.

(** The arguments found so far are before [word]. *)
Definition args_at (buf : list Z) (limit : nat) : list nat -> list (list Z) -> Prop :=
  Forall2 (fun p w => word_at buf p w /\ (p + length w < limit)%nat).

Lemma args_at_frame lo hi b1 b2 limit limit' args ws :
  only_in lo hi b1 b2 -> (limit <= lo)%nat -> (limit <= limit')%nat -> args_at b1 limit args ws -> args_at b2 limit' args ws.
Proof.
  intros Ho Hl Hl' H. eapply Forall2_impl; [exact H|]. intros p w [Hw Hp]. split; [|lia]. eapply word_at_frame; [exact Ho|lia|done].
Qed.

Definition words_found (lo hi : nat) (buf : list Z) (r : Z + list nat) (r' : Z + list (list Z)) (buf' : list Z) : Prop :=
  only_in lo hi buf buf' /\
  match r, r' with inl e, inl e' => e = e' | inr ps, inr ws => Forall2 (word_at buf') ps ws | _, _ => False end.

Lemma words_spec fuel : forall word w context l e lo buf k args ws,
  word_at buf word w -> (lo <= word)%nat -> (forall h, context = Some h -> (word + length w < h)%nat) ->
  args_at buf word args ws -> rest_at buf context l e -> (length (tokens blank l) < fuel)%nat ->
  sim (words_found lo e buf) (words_loop fuel (Some word) context args (buf, k)) (get_words (ws ++ w :: tokens blank l) k).
Proof.
  induction fuel as [|fuel IH]; intros word w context l e lo buf k args ws Hw Hlo Hctx Hargs Hrest Hf; [lia|]. cbn [words_loop].
  pose proof (Forall2_length _ _ _ Hargs) as Hlen.
  destruct (Nat.leb_spec MAXMENUARGS (length args)) as [Hbig|Hsmall].
  { unfold get_words. rewrite length_app, (proj2 (Nat.ltb_lt _ _)) by (simpl; lia). eapply sim_bind; [apply sim_kernel|]. by intros a b buf' k' [_ ->]. }
  destruct (strtok_spec blank buf context l e Hrest) as ([[p|] context'] & buf' & Hs & Hr); cbn [fst snd] in Hr;
    rewrite (bind_step _ _ _ _ _ (on_buf_Ret _ _ k _ _ Hs)); cbn [fst snd].
  - destruct Hr as (h & w' & l2 & -> & Htok & Hhp & Hpe & Hw' & Hrest' & Ho & Hctx'). specialize (Hctx h eq_refl).
    rewrite Htok. replace (ws ++ w :: w' :: tokens blank l2) with ((ws ++ [w]) ++ w' :: tokens blank l2) by (by rewrite <- app_assoc).
    eapply sim_mono; [apply (IH p w' context' l2 e lo); [by eapply rest_word|lia|done| |done|]|].
    + apply Forall2_app; [apply (args_at_frame h e buf buf' word p); [exact Ho|lia|lia|done]|].
      constructor; [|constructor]. split; [apply (word_at_frame h e buf); [exact Ho|lia|done]|lia].
    + rewrite Htok in Hf. cbn in Hf. lia.
    + intros r r' b [Ho' Hr]. split; [|done]. eapply only_in_trans; [|done]. eapply only_in_le; [| |exact Ho]; lia.
  - destruct Hr as [Htok ->]. rewrite Htok. unfold get_words. rewrite length_app, (proj2 (Nat.ltb_ge _ _)) by (simpl; lia). destruct fuel; cbn;
      (split; [done|]; split; [done|]; apply Forall2_app; [eapply Forall2_impl; [exact Hargs|]; by intros ? ? []|by constructor]).
Qed.

(** A command whose text is [c], up to [e]. *)
Lemma dispatch_spec fuel buf cmd c e k :
  rest_at buf (Some cmd) c e -> (length c <= fuel)%nat ->
  sim (fun r r' buf' => r = r' /\ only_in cmd e buf buf') (cmd_dispatch fuel cmd (buf, k)) (run_words (tokens blank c) k).
Proof.
  intros Hrest Hf. pose proof (tokens_length blank c) as Hl. rewrite run_words_get. unfold cmd_dispatch.
  destruct (strtok_spec blank buf (Some cmd) c e Hrest) as ([[p|] context] & buf' & Hs & Hr); cbn [fst snd] in Hr;
    rewrite (bind_step _ _ _ _ _ (on_buf_Ret _ _ k _ _ Hs)); cbn [fst snd].
  - destruct Hr as (h & w & l2 & [= <-] & Htok & Hhp & Hpe & Hw & Hrest' & Ho & Hctx). rewrite Htok in *. cbn [length] in Hl.
    eapply sim_bind; [apply (words_spec fuel p w context l2 e cmd buf' k [] []); [by eapply rest_word|done|done|constructor|done|lia]|].
    intros r r' b k' [Ho' Hr]. assert (only_in cmd e buf b) as Hob by by eapply only_in_trans.
    destruct r as [x|ps], r' as [x'|ws]; try done. destruct Hr as [|p0 w0 ps ws Hw0 Hr]; [done|].
    erewrite bind_step by reflexivity. cbn [fst].
    assert ((fun a => cstr (drop a b)) <$> p0 :: ps = w0 :: ws) as ->.
    { cbn. f_equal; [by apply word_at_cstr|]. clear -Hr. induction Hr as [|p w ps ws Hw _ IH]; cbn; [done|]. f_equal; [by apply word_at_cstr|done]. }
    rewrite (word_at_cstr _ _ _ Hw0). eapply sim_mono; [apply sim_kernel|]. by intros a a' b' [-> ->].
  - destruct Hr as [-> ->]. destruct fuel; cbn; done.
Qed.

Lemma commands_spec fuel isargs : forall command c context l e buf k,
  rest_at buf (Some command) c (command + length c) -> (forall h, context = Some h -> (command + length c < h)%nat) ->
  rest_at buf context l e -> (length (tokens semicolon l) < fuel)%nat -> 
  sim (fun _ _ _ => True) (commands_loop fuel isargs (Some command) context (buf, k)) (run_commands isargs (c :: tokens semicolon l) k).
Proof.
  induction fuel as [|fuel IH]; intros command c context l e buf k Hc Hctx Hrest Hf; [lia|]. cbn [commands_loop run_commands].
  erewrite bind_step by reflexivity. cbn [fst]. rewrite (word_at_cstr buf command c) by by eapply rest_word.
  eapply (sim_bind (fun _ _ buf' => buf' = buf)).
  { destruct isargs; [|done]. eapply sim_mono; [apply sim_kernel|]. by intros ? ? ? [_ ->]. }
  intros [] [] b k1 ->. eapply sim_bind.
  { apply (dispatch_spec (length buf) buf command c _ k1 Hc). destruct Hc as (_ & _ & rest & Hd).
    apply (f_equal length) in Hd. rewrite length_drop, length_app in Hd. lia. }
  intros r r' buf1 k2 [<- Ho]. eapply (sim_bind (fun _ _ buf' => buf' = buf1)).
  { destruct (negb (r =? 0)); [|done]. eapply sim_bind; [apply sim_kernel|]. intros [] [] b k3 [_ ->]. by destruct isargs. }
  intros [] [] b k3 ->. assert (rest_at buf1 context l e) as Hrest1.
  { destruct Hrest as [Hnz Hr]. split; [done|]. destruct context as [h|]; [|done]. destruct Hr as [He [rest Hd]]. split; [done|]. exists rest.
    specialize (Hctx h eq_refl). rewrite <- Hd. eapply drop_frame, only_in_le; [| |exact Ho]; [done|lia]. }
  destruct (strtok_spec semicolon buf1 context l e Hrest1) as ([[p|] context'] & buf' & Hs & Hr); cbn [fst snd] in Hr;
    rewrite (bind_step _ _ _ _ _ (on_buf_Ret _ _ k3 _ _ Hs)); cbn [fst snd].
  - destruct Hr as (h & w' & l2 & -> & Htok & Hhp & Hpe & Hw' & Hrest' & Ho' & Hctx'). rewrite Htok.
    eapply IH; [done|done|done|]. rewrite Htok in Hf. cbn in Hf. lia.
  - destruct Hr as [-> ->]. by destruct fuel.
Qed.

Lemma execute_line_eq (isargs : bool) (line rest : list Z) (k : S) :
  Forall (fun c => c <> 0) line ->
  execute_line isargs (line ++ 0 :: rest) k = run_commands isargs (tokens semicolon line) k.
Proof.
  intros Hnz. set (buf := line ++ 0 :: rest).
  assert (sim (fun _ _ _ => True) (menu_execute isargs (buf, k)) (run_commands isargs (tokens semicolon line) k)) as H.
  { assert (rest_at buf (Some O) line (length line)) as Hrest by (split; [done|]; split; [done|]; by exists rest).
    unfold menu_execute. erewrite bind_step by reflexivity. cbn [fst].
    destruct (strtok_spec semicolon buf (Some O) line _ Hrest) as ([[p|] context] & buf' & Hs & Hr); cbn [fst snd] in Hr;
      rewrite (bind_step _ _ _ _ _ (on_buf_Ret _ _ k _ _ Hs)); cbn [fst snd].
    - destruct Hr as (h & w & l2 & [= <-] & Htok & _ & _ & Hw & Hrest' & Ho & Hctx). rewrite Htok. eapply commands_spec; [done|done|done|].
      pose proof (tokens_length semicolon line) as Hl. rewrite Htok in Hl. cbn in Hl. subst buf. rewrite length_app. lia.
    - destruct Hr as [-> ->]. by destruct (length buf). }
  unfold execute_line, sim in *. destruct (menu_execute _ _) as [[] s|e s|c], (run_commands _ _ _) as [[] k'|e' k'|c']; try done.
  - by destruct H as [-> _].
  - by destruct H as [-> ->].
  - by rewrite H.
Qed.

(** C20. The arguments of the kernel, a line of any text, run its commands, the words
    between semicolons, from left to right, each with the words between its
    blanks, whatever the commands do to the kernel: more than 16 words, no word,
    an unknown name and a failure included; every character that is read or
    written on the way is in the buffer.  When all of them succeed each is run,
    and the first that fails panics. *)
Theorem menu_execute_exact (line rest : list Z) (k : S) :
  Forall (fun c => c <> 0) line ->
  execute_line true (line ++ 0 :: rest) k = run_commands true (tokens semicolon line) k /\
  (forall e k', execute_line true (line ++ 0 :: rest) k = Ret e k' ->
     Forall (fun c => exists k1 k2, run_words (tokens blank c) k1 = Ret 0 k2) (tokens semicolon line)).
Proof.
  intros Hnz. rewrite execute_line_eq by done. split; [done|]. intros e k' H. revert k H.
  induction (tokens semicolon line) as [|c cs IH]; intros k H; [done|]. cbn [run_commands] in H. unfold bind in H.
  destruct (kprintf _ k) as [[] k1| |]; cbn in H; try done. destruct (run_words _ k1) as [r k2| |] eqn:Er; try done.
  destruct (Z.eqb_spec r 0) as [->|]; cbn in H.
  - constructor; [by exists k1, k2|by eapply IH].
  - by destruct (kprintf _ k2) as [[] k3| |].
Qed.

Lemma cstr_nul buf : (length (cstr buf) < length buf)%nat -> Forall (fun c => c <> 0) (cstr buf) /\ exists rest, buf = cstr buf ++ 0 :: rest.
Proof.
  induction buf as [|c buf IH]; cbn; [lia|]. destruct (Z.eqb_spec c 0) as [->|Hc]; [intros _; split; [done|by exists buf]|].
  cbn. intros H. destruct IH as (H1 & rest & H2); [lia|]. split; [by constructor|]. exists rest. by rewrite <- H2.
Qed.

(** C21. One turn of the menu's loop, on any terminal and any kernel: the keys
    [pre] and a return are read into the 64 bytes of the buffer, none outside
    them; the terminal shows the line that the editing keys make of [pre], and
    what is run are the commands of that line. *)
Theorem typed_line_exact {T} `{!Terminal T} (t : T) (buf pre : list Z) (e : Z) (ks : list Z) :
  t_ok t -> keys t = pre ++ e :: ks -> forallb (fun k => negb (ends k)) pre = true -> e = LF \/ e = CR -> zlen buf = 64 ->
  let line := foldl (edit 63) [] pre in
  returns (kgets (Datatypes.S (length pre)) 64 (t, buf)) (fun _ s' => exists t' buf' echo,
    s' = (t', buf') /\ zlen buf' = 64 /\ zlen line < 64 /\ t_ok t' /\
    shown t' = shown t ++ echo ++ [LF] /\ repaints echo [] line /\
    forall k, execute_line false buf' k = run_commands false (tokens semicolon line) k).
Proof.
  intros Hok Hks Hpre He Hb line. pose proof (kgets_spec t buf pre e ks Hok Hks Hpre) as H. rewrite Hb in H.
  specialize (H ltac:(by destruct He as [-> | ->]) ltac:(lia)). cbv zeta in H.
  eapply runs_mono; [exact H| |intros ? ? []]. clear H.
  intros [] s' (t' & buf' & more & echo & -> & Hlen & Hc & Hl & _ & Hs & Hr & _ & Hok'). change (room 64) with 63%nat in *. fold line in Hc, Hl, Hr.
  assert (last_line e line = line /\ last_shown e = [LF]) as [El Es] by (by destruct He as [-> | ->]). rewrite El in Hc. rewrite Es in Hs.
  exists t', buf', echo. split_and!; try done. intros k. destruct (cstr_nul buf') as [Hnz [rest E]]; [rewrite Hc; unfold zlen in *; lia|].
  rewrite Hc in Hnz, E. rewrite E. by apply execute_line_eq.
Qed.

End Menu.
(** ** Witnesses *)

(** A kernel that records what was asked of it. *)
Inductive call := Chdir (d : list Z) | Mount (d : list Z) | Unmount (d : list Z) | Bootfs (d : list Z) | Program (args : list (list Z)) | Unknown (cmd : list Z).
Definition did {A} (c : call) (a : A) : M (list call) A := fun log => Ret a (log ++ [c]).

#[local] Instance ex_kernel : Kernel (list call) := {
  kprintf m := match m with NotFound cmd => did (Unknown cmd) tt | _ => ret tt end;
  gettime := ret (0, 0);
  vfs_chdir d := did (Chdir d) 0; vfs_unmount d := did (Unmount d) 0; vfs_setbootfs d := did (Bootfs d) 0; sfs_mount d := did (Mount d) 0;
  vfs_sync := ret tt; sys_reboot := ret tt; thread_exit := ret tt;
  proc_create_runprogram name := ret (Some 1); thread_fork proc args := did (Program args) 0; proc_destroy proc := ret tt; wait_no_proc := ret tt;
  other cmd args := ret 0 }.

(** The example in the comment of [menu]. *)
Lemma menu_execute_exact_witness :
  execute_line true (ch_of "mount sfs lhd0:; bootfs lhd0; s" ++ [0]) [] =
    Ret tt [Mount (ch_of "lhd0"); Bootfs (ch_of "lhd0"); Program [ch_of "/bin/sh"]].
Proof.
  rewrite (proj1 (menu_execute_exact (ch_of "mount sfs lhd0:; bootfs lhd0; s") [] [] ltac:(by apply (bool_decide_unpack _); vm_compute))).
  vm_compute. reflexivity.
Defined.

(** At a console where [hi] and return were typed. *)
Lemma typed_line_exact_witness :
  returns (kgets (Datatypes.S (length [104; 105])) 64 (ex_terminal, zrep 64 7)) (fun _ s' => exists t' buf', s' = (t', buf') /\
    execute_line false buf' [] = Ret tt [Unknown (ch_of "hi")]).
Proof.
  pose proof (typed_line_exact (S := list call) ex_terminal (zrep 64 7) [104; 105] CR [] ex_ready ex_keys eq_refl (or_intror eq_refl) eq_refl) as H.
  cbv zeta in H. eapply runs_mono; [exact H| |intros ? ? []]. clear H.
  intros _ s' (t' & buf' & echo & -> & _ & _ & _ & _ & _ & H). exists t', buf'. split; [reflexivity|]. rewrite H. vm_compute. reflexivity.
Defined.

End Menu.
