(* ===== verification/Kprintf.v ===== *)
(** * Kernel output: src/lib/kprintf.c

    [kprintf] with its two locks, the interrupt level of the caller and the
    console below it; formatting is not part of the sources, so that the text is
    an argument.  [panic] is in the section [Panic], over any behaviour of what
    it calls, further panics included. *)

From S2P Require Import Prelude Spl Synch Lamebus Console ConsoleThm ConsoleIo.
Import Console ConsoleThm ConsoleIo.

Module Kprintf.

(** The bus as the serial port uses it: masking its interrupt. *)
Class BusMask (B : Type) := {
  mask : M B unit;
  unmask : M B unit;
  bus_ok : B -> Prop;
  mask_law b : bus_ok b -> returns (mask b) (fun _ b' => bus_ok b');
  unmask_law b : bus_ok b -> returns (unmask b) (fun _ b' => bus_ok b') }.

Section Kprintf.
Context {C B : Type} `{!SerialCard C, !BusMask B}.

(** The locks of kprintf.c, the first NULL until [kprintf_bootstrap]; the
    interrupt level of the thread; the console. *)
Record kout := mkKout {
  kprintf_lock : option (option Z); kprintf_spinlock : Spl.spinlock; level : Spl.ipl; out : console (C := C) (B := B) }.

Definition put_klock l k := mkKout l (kprintf_spinlock k) (level k) (out k).

(** The console sees the level that the thread has now. *)
Definition at_level (n : Z) (c : console (C := C) (B := B)) : console (C := C) (B := B) :=
  mkConsole (con c) (the_console c) (con_userlock_read c) (con_userlock_write c) (delayed_outbuf c) (t_in_interrupt c) n (con_bus c).
Definition on_out {A} (m : M (console (C := C) (B := B)) A) : M kout A :=
  zoom (fun k => at_level (Spl.t_iplhigh_count (level k)) (out k)) (fun c k => mkKout (kprintf_lock k) (kprintf_spinlock k) (level k) c) m.
Definition on_spin {A} (m : M (Spl.ipl * Spl.spinlock) A) : M kout A :=
  zoom (fun k => (level k, kprintf_spinlock k)) (fun s k => mkKout (kprintf_lock k) (snd s) (fst s) (out k)) m.

(** [lock_create] may fail. *)
Definition kprintf_bootstrap (created : bool) : M kout unit :=
  let* k := get in
  KASSERT (bool_decide (kprintf_lock k = None)) ;;
  (if negb created then panic else modify (put_klock (Some None))) ;;
  modify (fun k => mkKout (kprintf_lock k) Spl.spinlock_init (level k) (out k)).

Fixpoint console_send (data : list Z) : M (console (C := C) (B := B)) unit :=
  match data with [] => ret tt | ch :: data' => putch ch ;; console_send data' end.

(** A lock that another thread holds is waited for without end as far as the
    caller alone is concerned. *)
Definition acquire_klock (t : Z) : M kout unit :=
  let* k := get in
  match kprintf_lock k with
  | None => crashed Wild
  | Some h => match Synch.lock_take t h with Some h' => modify (put_klock (Some h')) | None => crashed Hung end
  end.
Definition release_klock (t : Z) : M kout unit :=
  let* k := get in
  match kprintf_lock k with
  | None => crashed Wild
  | Some h => match Synch.lock_give t h with Synch.Given h' => modify (put_klock (Some h')) | _ => ret tt end
  end.

Definition kprintf (t cpu : Z) (text : list Z) : M kout unit :=
  let* k := get in
  let dolock := negb (bool_decide (kprintf_lock k = None)) && negb (t_in_interrupt (out k)) && (Spl.t_iplhigh_count (level k) =? 0) in
  (if dolock then acquire_klock t else on_spin (Spl.spinlock_acquire (Some cpu))) ;;
  on_out (putch_prepare mask ;; console_send text ;; putch_complete unmask) ;;
  (if dolock then release_klock t else on_spin (Spl.spinlock_release (Some cpu))).

(** ** What it prints *)

(** Between two calls, with [n] spinlocks held by the thread. *)
Record kout_ok (n : Z) (k : kout) : Prop := {
  ko_lock : kprintf_lock k = None \/ kprintf_lock k = Some None;
  ko_spin : kprintf_spinlock k = Spl.free;
  ko_level : Spl.ipl_ok n (level k);
  ko_bus : bus_ok (con_bus (out k)) }.

(** What [text] does to a console: it is sent, or kept before there is one. *)
Definition printed (c c' : console (C := C) (B := B)) (text : list Z) : Prop :=
  the_console c' = the_console c /\ t_in_interrupt c' = t_in_interrupt c /\
  if the_console c then idle (con c') /\ line (con c') = line (con c) ++ (u8 <$> text) /\ delayed_outbuf c' = delayed_outbuf c
  else con c' = con c /\ delayed_outbuf c' = delayed_outbuf c ++ (s8 <$> text).

Definition can_print (c : console (C := C) (B := B)) (text : list Z) : Prop :=
  if the_console c then idle (con c) else zlen (delayed_outbuf c) + zlen text <= DELAYBUFSIZE.

Lemma send_spec text : forall c, can_print c text ->
  returns (console_send text c) (fun _ c' => printed c c' text /\ con_bus c' = con_bus c /\ t_iplhigh_count c' = t_iplhigh_count c).
Proof.
  induction text as [|ch text IH]; intros c Hc; cbn [console_send].
  - runs_steps. unfold printed, can_print in *. rewrite !app_nil_r. by destruct (the_console c).
  - apply runs_bind. unfold can_print in Hc. destruct (the_console c) eqn:Ha.
    + eapply runs_mono; [apply (putch_spec c ch); by split| |done]. intros [] c1 (s' & -> & Hi & Hl & _).
      eapply runs_mono; [apply IH; unfold can_print; cbn; by rewrite Ha| |done]. unfold printed. cbn. rewrite Ha.
      intros _ c2 ((E1 & E2 & Hi2 & Hl2 & Hd2) & Hb & Hn). split_and!; try done. by rewrite Hl2, Hl, <- (assoc (++)).
    + assert (zlen (ch :: text) = 1 + zlen text) as Hz by (unfold zlen; simpl; lia). pose proof (zlen_nonneg text). rewrite putch_early by (done || lia).
      cbn. eapply runs_mono; [apply IH; unfold can_print; cbn; rewrite Ha, zlen_app; change (zlen [s8 ch]) with 1; lia| |done].
      unfold printed. cbn. rewrite Ha. intros _ c2 ((E1 & E2 & Ec & Hd2) & Hb & Hn). split_and!; try done. by rewrite Hd2, <- (assoc (++)).
Qed.

(** Masking and unmasking around it. *)
Lemma prepared_send_spec text c : can_print c text -> bus_ok (con_bus c) ->
  returns ((putch_prepare mask ;; console_send text ;; putch_complete unmask) c) (fun _ c' => printed c c' text /\ bus_ok (con_bus c')).
Proof.
  intros Hc Hb. apply runs_bind.
  assert (returns (putch_prepare mask c) (fun _ c1 => exists b, c1 = put_bus b c /\ bus_ok b)) as H1.
  { unfold putch_prepare, lser_startpolling, on_bus. runs_steps. destruct (the_console c); [destruct (must_poll c)|]; runs_steps.
    - apply runs_zoom. eapply runs_mono; [by apply mask_law| |done]. intros [] b Hb1. by exists b.
    - exists (con_bus c). by destruct c.
    - exists (con_bus c). by destruct c. }
  eapply runs_mono; [exact H1| |done]. intros [] c1 (b & -> & Hb1). apply runs_bind.
  eapply runs_mono; [by apply (send_spec text (put_bus b c))| |done]. intros [] c2 (Hp & Eb & _). cbn in Eb. change (printed c c2 text) in Hp.
  unfold putch_complete, lser_endpolling, on_bus. runs_steps. destruct (the_console c2); [destruct (must_poll c2)|]; runs_steps; try (split; [done|congruence]).
  apply runs_zoom. rewrite Eb. eapply runs_mono; [by apply unmask_law| |done]. intros [] b' Hb'. split; [|done]. exact Hp.
Qed.

Lemma klock_acquired t k : kprintf_lock k = Some None -> acquire_klock t k = Ret tt (put_klock (Some (Some t)) k).
Proof. intros E. unfold acquire_klock, bind, get. by rewrite E. Qed.
Lemma release_held t l k : kprintf_lock k = Some (Some t) -> l = Some None -> release_klock t k = Ret tt (put_klock l k).
Proof.
  intros E ->. unfold release_klock, bind, get. rewrite E. unfold Synch.lock_give, Synch.lock_do_i_hold. by rewrite bool_decide_true.
Qed.

(** C22. For a thread that may sleep and for one that may not, with the console
    attached and before that, before [kprintf_bootstrap] and after it: the whole
    text is printed, in one piece as far as this thread is concerned, and the
    locks and the interrupt level are left as they were found. *)
Theorem kprintf_exact (t cpu n : Z) (text : list Z) (k : kout) :
  kout_ok n k -> can_print (out k) text ->
  returns (kprintf t cpu text k) (fun _ k' =>
    printed (out k) (out k') text /\ kout_ok n k' /\ kprintf_lock k' = kprintf_lock k /\
    Spl.t_curspl (level k') = Spl.t_curspl (level k)).
Proof.
  intros [Hl Hs Hv Hb] Hc. destruct k as [lock spin lev c]. cbn in *. subst spin. pose proof Hv as (Hn & _ & _ & _).
  assert (forall lock' spin' lev' (Q : unit -> kout -> Prop) (m : M kout unit),
    (forall c', printed c c' text -> bus_ok (con_bus c') -> returns (m (mkKout lock' spin' lev' c')) Q) ->
    returns ((on_out (putch_prepare mask ;; console_send text ;; putch_complete unmask) ;; m) (mkKout lock' spin' lev' c)) Q) as Hpr.
  { intros lock' spin' lev' Q m Hm. apply runs_bind. unfold on_out. apply runs_zoom. cbn [level out].
    eapply runs_mono; [apply (prepared_send_spec text (at_level (Spl.t_iplhigh_count lev') c) Hc Hb)| |done]. intros [] c' [Hp Hb']. by apply Hm. }
  unfold kprintf.
  destruct (negb (bool_decide (lock = None)) && negb (t_in_interrupt c) && (Spl.t_iplhigh_count lev =? 0)) eqn:Ed.
  - assert (lock = Some None) as -> by (destruct Hl as [->| ->]; [done|done]).
    apply runs_bind. rewrite klock_acquired by done. apply Hpr. intros c' Hp Hb'. rewrite (release_held t (Some None)) by done.
    split_and!; try done.
  - apply runs_bind. unfold on_spin at 1. apply runs_zoom. cbn [level kprintf_spinlock].
    eapply runs_mono; [by apply Spl.acquire_spec| |done]. intros [] [lev1 sp1] (Hv1 & Hcs1 & Hsp1). cbn in *. subst sp1.
    apply Hpr. intros c' Hp Hb'. unfold on_spin. apply runs_zoom. cbn [level kprintf_spinlock].
    eapply runs_mono; [by apply Spl.release_spec| |done]. intros [] [lev2 sp2] (Hv2 & Hcs2 & Hsp2). cbn in *.
    split_and!; [done|split; cbn; done|done|congruence].
Qed.

End Kprintf.
(** ** Panic *)

(** What happens in something that [panic] calls: it returns, panics itself, or
    stops the machine or never comes back. *)
Inductive ended := Returns | Panics | Stops.

(** The five things it tries. *)
Inductive attempt := SplHigh | ThreadPanic | Message | Sync | PowerOff.

Section Panic.
Context {S : Type}.
Variable act : attempt -> S -> S * ended.

(** The static [evil], what was tried, the latest last, and the rest. *)
Record pstate := mkP { evil : Z; tried : list attempt; kernel : S }.

(** [if (evil == e) { evil = e + 1; a }] in a call of [panic] at depth [depth],
    where [again] is [panic] called by [a] and [k] what follows.  The result is
    the state in which nothing more is done, [None] when the stack of calls is
    deeper than [depth]. *)
Definition stage (again : pstate -> option pstate) (e : Z) (a : attempt) (k : pstate -> option pstate) (s : pstate) : option pstate :=
  if evil s =? e then
    let r := act a (kernel s) in
    let s' := mkP (e + 1) (tried s ++ [a]) (fst r) in
    match snd r with Returns => k s' | Panics => again s' | Stops => Some s' end
  else k s.

(** At the end is [for (;;)]. *)
Fixpoint panic (depth : nat) (s : pstate) : option pstate :=
  match depth with
  | O => None
  | Datatypes.S depth' =>
      stage (panic depth') 0 SplHigh
        (stage (panic depth') 1 ThreadPanic
           (stage (panic depth') 2 Message
              (stage (panic depth') 3 Sync
                 (stage (panic depth') 4 PowerOff Some)))) s
  end.

(** The attempts from some point on, one after the other, up to one that stops;
    a panic in one of them makes no difference. *)
Fixpoint attempts (l : list attempt) (k : S) : list attempt * S :=
  match l with
  | [] => ([], k)
  | a :: l' =>
      let r := act a k in
      match snd r with
      | Stops => ([a], fst r)
      | _ => let q := attempts l' (fst r) in (a :: fst q, snd q)
      end
  end.

Definition stages : list attempt := [SplHigh; ThreadPanic; Message; Sync; PowerOff].

(** What is left to try after [done]. *)
Definition finished (l : list attempt) (s : pstate) (r : option pstate) : Prop :=
  let q := attempts l (kernel s) in
  exists e, r = Some (mkP e (tried s ++ fst q) (snd q)).

Lemma stage_skip again e a k s l : evil s <> e -> finished l s (k s) -> finished l s (stage again e a k s).
Proof. intros He Hk. unfold stage. by rewrite (proj2 (Z.eqb_neq _ _) He). Qed.

Lemma stage_finished again e a k l s :
  evil s = e -> (forall s', evil s' = e + 1 -> finished l s' (k s')) -> (forall s', evil s' = e + 1 -> finished l s' (again s')) ->
  finished (a :: l) s (stage again e a k s).
Proof.
  intros He Hk Hag. unfold stage, finished. rewrite (proj2 (Z.eqb_eq _ _) He). cbn [attempts]. destruct (act a (kernel s)) as [k1 r]. cbn [fst snd].
  destruct r.
  - destruct (Hk (mkP (e + 1) (tried s ++ [a]) k1) eq_refl) as [e' ->]. exists e'. cbn. by rewrite <- (assoc (++)).
  - destruct (Hag (mkP (e + 1) (tried s ++ [a]) k1) eq_refl) as [e' ->]. exists e'. cbn. by rewrite <- (assoc (++)).
  - by eexists.
Qed.

(** From any stage on; each nested call is at a later stage. *)
Lemma panic_from depth : forall s, 0 <= evil s <= 5 -> 6 - evil s <= Z.of_nat depth -> finished (drop (Z.to_nat (evil s)) stages) s (panic depth s).
Proof.
  induction depth as [|depth IH]; intros s He Hd; [lia|]. cbn [panic].
  assert (forall e s', evil s' = e -> e = evil s + 1 \/ evil s < e -> e <= 5 -> finished (drop (Z.to_nat e) stages) s' (panic depth s')) as Hag.
  { intros e s' <- Hlt Hle. apply IH; lia. }
  assert (forall s', evil s' = 5 -> finished [] s' (Some s')) as Hend.
  { intros s' _. exists (evil s'). destruct s'. cbn. by rewrite app_nil_r. }
  assert (evil s = 0 \/ evil s = 1 \/ evil s = 2 \/ evil s = 3 \/ evil s = 4 \/ evil s = 5) as Hcase by lia.
  assert (forall e a l k, evil s < e + 1 -> 0 <= e < 5 -> drop (Z.to_nat e) stages = a :: l -> drop (Z.to_nat (e + 1)) stages = l ->
    (forall s', evil s' = e + 1 -> finished l s' (k s')) -> forall s', evil s' = e -> finished (a :: l) s' (stage (panic depth) e a k s')) as Hst.
  { intros e a l k Hlt Hle E1 E2 Hk s' Hs'. apply stage_finished; [done|done|]. intros s2 H2. rewrite <- E2. apply (Hag (e + 1)); lia. }
  destruct Hcase as [E|[E|[E|[E|[E|E]]]]]; rewrite E; cbn [Z.to_nat Pos.to_nat Pos.iter_op stages drop Nat.add];
    repeat (apply stage_skip; [lia|]); repeat (first [exact (Hend s E)|exact Hend|apply Hst; [lia|lia|done|done| |assumption]|intros ? ?; apply Hst; [lia|lia|done|done| |assumption]]).
Qed.

(** C23. Whatever the things that [panic] calls do, and whichever of them panic in
    turn, [panic] tries each of the five once and in this order, until one of
    them stops; it never calls itself more than six deep. *)
Theorem panic_tries_all (k : S) :
  exists e, panic 6 (mkP 0 [] k) = Some (mkP e (fst (attempts stages k)) (snd (attempts stages k))).
Proof. destruct (panic_from 6 (mkP 0 [] k)) as [e H]; [cbn; lia|cbn; lia|]. by exists e. Qed.

End Panic.

(** ** The bus of lamebus.c *)

Section OnLamebus.
Context {W : Type} `{!Lamebus.LbMachine W}.
Variable slot : Z.
Hypothesis Hslot : Lamebus.slot_range slot = true.

#[refine] Instance lamebus_mask : BusMask (Lamebus.lamebus_softc (W := W)) := {
  mask := Lamebus.lamebus_mask_interrupt slot;
  unmask := Lamebus.lamebus_unmask_interrupt slot;
  bus_ok s := Lamebus.ls_lock s = false }.
Proof.
  - intros s Hs. unfold Lamebus.lamebus_mask_interrupt. runs_steps. apply runs_KASSERT; [done|].
    unfold Lamebus.spinlock_acquire. runs_steps. rewrite Hs. runs_steps. unfold Lamebus.read_ctl_register. runs_steps.
    unfold Lamebus.write_ctl_register. runs_steps. unfold Lamebus.spinlock_release. runs_steps. done.
  - intros s Hs. unfold Lamebus.lamebus_unmask_interrupt. runs_steps. apply runs_KASSERT; [done|].
    unfold Lamebus.spinlock_acquire. runs_steps. rewrite Hs. runs_steps. unfold Lamebus.read_ctl_register. runs_steps.
    unfold Lamebus.write_ctl_register. runs_steps. unfold Lamebus.spinlock_release. runs_steps. done.
Defined.

End OnLamebus.

(** ** Witness *)

#[local, refine] Instance ex_mask : BusMask unit := { mask := ret tt; unmask := ret tt; bus_ok b := True }.
Proof. all: done. Defined.

Definition ex_kout : kout (C := excard) (B := unit) := mkKout (Some None) Spl.free (Spl.mkIpl 0 0 true) ex_console.

Lemma ex_kout_ok : kout_ok 0 ex_kout.
Proof. split; cbn; [by right|done| |done]. split; [done|]. split; [by left|]. split; [done|]. by rewrite bool_decide_true. Qed.

(** [OK] on a console that is attached, by a thread that may sleep. *)
Lemma kprintf_exact_witness :
  returns (kprintf 1 0 [79; 75] ex_kout) (fun _ k' => line (con (out k')) = line (con ex_console) ++ [79; 75] /\ kprintf_lock k' = Some None).
Proof.
  pose proof (kprintf_exact 1 0 0 [79; 75] ex_kout ex_kout_ok (proj2 ex_live)) as H. eapply runs_mono; [exact H| |intros ? ? []]. clear H.
  intros [] k' ((_ & _ & Hp) & _ & Hl & _). destruct Hp as (_ & Hp & _). split; [exact Hp|exact Hl].
Defined.

End Kprintf.
