(* ===== verification/Catmouse.v ===== *)
(** * Cats and mice: src/synchprobs/catmouse.c and catmouse_synch.c

    The simulation that the ASST1 kernel runs, as threads that interleave
    between any two operations on a semaphore, a lock or a condition variable;
    these are atomic here ([Synch] and [Cv] are about their inside).  What
    catmouse_synch.c promises, that the creatures at a bowl take turns and that
    the simulation ends, holds; that cats and mice do not eat at the same time
    holds with one bowl and fails with two, and cats wait for a mouse to finish
    even when there is none. *)

From S2P Require Import Prelude Synch Kmalloc Devices.
Import Synch.

Module Catmouse.

Inductive creature_kind := Cat | Mouse.
#[export] Instance creature_kind_eq : EqDecision creature_kind.
Proof. solve_decision. Defined.

(** Where a creature is in [cat_before_eating] or [mouse_before_eating]; [again]
    tells the first test of the loop from the one after a [cv_wait]. *)
Inductive before_pc :=
  | BTest (again : bool)     (** [while (!lock_do_i_hold(..))] *)
  | BRelease                 (** in [cv_wait], before [lock_release] *)
  | BSleep                   (** before [wchan_lock] and [wchan_sleep] *)
  | BAsleep                  (** in [wchan_sleep] *)
  | BAcquire                 (** before [lock_acquire] *)
  | BSem.                    (** before [P(globalCatMouseSem)] *)

(** In [cat_eat] or [mouse_eat]. *)
Inductive eat_pc :=
  | EMutex                   (** before the first [P(mutex)] *)
  | EStart                   (** in the first critical section *)
  | EStarted                 (** before its [V(mutex)] *)
  | EEating                  (** in [clocksleep] and before the second [P(mutex)] *)
  | EStop
  | EStopped.

(** In [cat_after_eating] or [mouse_after_eating]. *)
Inductive after_pc := AWake | ARelease | APost.

Inductive pc :=
  | Loop                     (** before the test of the [for] *)
  | Before (p : before_pc)
  | Eat (p : eat_pc)
  | After (p : after_pc)
  | StatP | StatUpdate | StatV
  | Finish                   (** before [V(CatMouseWait)] *)
  | Done.

Record creature := mkCreature { c_kind : creature_kind; loops_left : nat; bowl : Z; c_pc : pc }.

(** [cat_total_wait_secs] and the like. *)
Record stats := mkStats { total_wait_secs : Z; total_wait_nsecs : Z; wait_count : Z }.

Record shared := mkShared {
  globalCatMouseSem : Z; bowl_locks : list (option Z); cv_cats : list Z; cv_mice : list Z;
  bowls : list Z; eating_cats_count : Z; eating_mice_count : Z; mutex : Z; perf_mutex : Z;
  cat_stats : stats; mouse_stats : stats; CatMouseWait : Z }.

Definition put_sem x s := mkShared x (bowl_locks s) (cv_cats s) (cv_mice s) (bowls s) (eating_cats_count s) (eating_mice_count s) (mutex s) (perf_mutex s) (cat_stats s) (mouse_stats s) (CatMouseWait s).
Definition put_locks x s := mkShared (globalCatMouseSem s) x (cv_cats s) (cv_mice s) (bowls s) (eating_cats_count s) (eating_mice_count s) (mutex s) (perf_mutex s) (cat_stats s) (mouse_stats s) (CatMouseWait s).
Definition put_cats x s := mkShared (globalCatMouseSem s) (bowl_locks s) x (cv_mice s) (bowls s) (eating_cats_count s) (eating_mice_count s) (mutex s) (perf_mutex s) (cat_stats s) (mouse_stats s) (CatMouseWait s).
Definition put_mice x s := mkShared (globalCatMouseSem s) (bowl_locks s) (cv_cats s) x (bowls s) (eating_cats_count s) (eating_mice_count s) (mutex s) (perf_mutex s) (cat_stats s) (mouse_stats s) (CatMouseWait s).
Definition put_sim b c m s := mkShared (globalCatMouseSem s) (bowl_locks s) (cv_cats s) (cv_mice s) b c m (mutex s) (perf_mutex s) (cat_stats s) (mouse_stats s) (CatMouseWait s).
Definition put_mutex x s := mkShared (globalCatMouseSem s) (bowl_locks s) (cv_cats s) (cv_mice s) (bowls s) (eating_cats_count s) (eating_mice_count s) x (perf_mutex s) (cat_stats s) (mouse_stats s) (CatMouseWait s).
Definition put_perf x s := mkShared (globalCatMouseSem s) (bowl_locks s) (cv_cats s) (cv_mice s) (bowls s) (eating_cats_count s) (eating_mice_count s) (mutex s) x (cat_stats s) (mouse_stats s) (CatMouseWait s).
Definition put_stats c m s := mkShared (globalCatMouseSem s) (bowl_locks s) (cv_cats s) (cv_mice s) (bowls s) (eating_cats_count s) (eating_mice_count s) (mutex s) (perf_mutex s) c m (CatMouseWait s).
Definition put_waited x s := mkShared (globalCatMouseSem s) (bowl_locks s) (cv_cats s) (cv_mice s) (bowls s) (eating_cats_count s) (eating_mice_count s) (mutex s) (perf_mutex s) (cat_stats s) (mouse_stats s) x.

(** The four panics of the simulation, and a failed assertion or an access
    outside an array. *)
Inductive failure := TwoCats | CatWithMice | TwoMice | MouseWithCats | Broken.

(** One step of a thread: it waits, goes on, or takes the kernel down. *)
Inductive result (A : Type) := Blocked | Next (a : A) | Failed (f : failure).
Arguments Blocked {A}.
Arguments Next {A} a.
Arguments Failed {A} f.

(** [P], [V], [lock_acquire] and [lock_release] as one step. *)
Definition sem_P {A} (t count : Z) (k : Z -> A) : result A :=
  match sem_take t count with None => Blocked | Some c => Next (k c) end.
Definition sem_V {A} (t count : Z) (k : Z -> A) : result A :=
  match sem_give t count with Given c => Next (k c) | Ignored => Next (k count) | Died => Failed Broken end.

Section OneThread.
Variable t : Z.

Definition at_lock {A} (b : Z) (s : shared) (k : option Z -> result A) : result A :=
  match zlookup (bowl_locks s) b with None => Failed Broken | Some h => k h end.

Definition acquire_bowl {A} (b : Z) (s : shared) (next : A) : result (shared * A) :=
  at_lock b s (fun h => match lock_take t h with None => Blocked | Some h' => Next (put_locks (zinsert (bowl_locks s) b h') s, next) end).

Definition release_bowl {A} (b : Z) (s : shared) (next : A) : result (shared * A) :=
  at_lock b s (fun h => match lock_give t h with Given h' => Next (put_locks (zinsert (bowl_locks s) b h') s, next) | _ => Next (s, next) end).

(** [None] is the return of the function. *)
Definition cat_before_eating (b : Z) (p : before_pc) (s : shared) : result (shared * option before_pc) :=
  match p with
  | BTest _ => at_lock b s (fun h => Next (s, Some (if lock_do_i_hold t h then BSem else BRelease)))
  | BRelease => release_bowl b s (Some BSleep)
  | BSleep => Next (put_cats (cv_cats s ++ [t]) s, Some BAsleep)
  | BAsleep => if bool_decide (t ∈ cv_cats s) then Blocked else Next (s, Some BAcquire)
  | BAcquire => acquire_bowl b s (Some (BTest true))
  | BSem => sem_P t (globalCatMouseSem s) (fun c => (put_sem c s, None))
  end.

Definition cat_after_eating (b : Z) (p : after_pc) (s : shared) : result (shared * option after_pc) :=
  match p with
  | AWake => Next (put_mice [] s, Some ARelease)
  | ARelease => release_bowl b s (Some APost)
  | APost => sem_V t (globalCatMouseSem s) (fun c => (put_sem c s, None))
  end.

Definition mouse_before_eating (b : Z) (p : before_pc) (s : shared) : result (shared * option before_pc) :=
  match p with
  | BAcquire => acquire_bowl b s (Some BSem)
  | BSem => sem_P t (globalCatMouseSem s) (fun c => (put_sem c s, None))
  | _ => Blocked
  end.

Definition mouse_after_eating (b : Z) (p : after_pc) (s : shared) : result (shared * option after_pc) :=
  match p with
  | APost => sem_V t (globalCatMouseSem s) (fun c => (put_sem c s, Some ARelease))
  | ARelease => release_bowl b s (Some AWake)
  | AWake => Next (put_cats [] s, None)
  end.

(** ['-'], ['c'] and ['m']. *)
Definition EMPTY : Z := 45.
Definition letter (k : creature_kind) : Z := match k with Cat => 99 | Mouse => 109 end.

Definition cat_eat (b : Z) (p : eat_pc) (s : shared) : result (shared * option eat_pc) :=
  match p with
  | EMutex => sem_P t (mutex s) (fun c => (put_mutex c s, Some EStart))
  | EStart =>
      match zlookup (bowls s) (b - 1) with
      | None => Failed Broken
      | Some ch =>
          if ch =? letter Cat then Failed TwoCats
          else if 0 <? eating_mice_count s then Failed CatWithMice
          else if negb (ch =? EMPTY) || negb (eating_mice_count s =? 0) then Failed Broken
          else Next (put_sim (zinsert (bowls s) (b - 1) (letter Cat)) (eating_cats_count s + 1) (eating_mice_count s) s, Some EStarted)
      end
  | EStarted => sem_V t (mutex s) (fun c => (put_mutex c s, Some EEating))
  | EEating => sem_P t (mutex s) (fun c => (put_mutex c s, Some EStop))
  | EStop =>
      match zlookup (bowls s) (b - 1) with
      | None => Failed Broken
      | Some ch =>
          if negb (0 <? eating_cats_count s) || negb (ch =? letter Cat) then Failed Broken
          else Next (put_sim (zinsert (bowls s) (b - 1) EMPTY) (eating_cats_count s - 1) (eating_mice_count s) s, Some EStopped)
      end
  | EStopped => sem_V t (mutex s) (fun c => (put_mutex c s, None))
  end.

Definition mouse_eat (b : Z) (p : eat_pc) (s : shared) : result (shared * option eat_pc) :=
  match p with
  | EMutex => sem_P t (mutex s) (fun c => (put_mutex c s, Some EStart))
  | EStart =>
      match zlookup (bowls s) (b - 1) with
      | None => Failed Broken
      | Some ch =>
          if ch =? letter Mouse then Failed TwoMice
          else if 0 <? eating_cats_count s then Failed MouseWithCats
          else if negb (ch =? EMPTY) || negb (eating_cats_count s =? 0) then Failed Broken
          else Next (put_sim (zinsert (bowls s) (b - 1) (letter Mouse)) (eating_cats_count s) (eating_mice_count s + 1) s, Some EStarted)
      end
  | EStarted => sem_V t (mutex s) (fun c => (put_mutex c s, Some EEating))
  | EEating => sem_P t (mutex s) (fun c => (put_mutex c s, Some EStop))
  | EStop =>
      match zlookup (bowls s) (b - 1) with
      | None => Failed Broken
      | Some ch =>
          if negb (0 <? eating_mice_count s) || negb (ch =? letter Mouse) then Failed Broken
          else Next (put_sim (zinsert (bowls s) (b - 1) EMPTY) (eating_cats_count s) (eating_mice_count s - 1) s, Some EStopped)
      end
  | EStopped => sem_V t (mutex s) (fun c => (put_mutex c s, None))
  end.

End OneThread.
(** ** The threads *)

(** What is not in the program: [random()] and the two calls of [gettime]. *)
Record input := mkInput { i_random : Z; i_before : Z * Z; i_after : Z * Z }.

Definition account (i : input) (st : stats) : stats :=
  let wait := Devices.getinterval (i_before i) (i_after i) in
  let secs := s64 (total_wait_secs st + fst wait) in
  let nsecs := u32 (total_wait_nsecs st + snd wait) in
  if 1000000000 <? nsecs then mkStats (s64 (secs + 1)) (u32 (nsecs - 1000000000)) (s32 (wait_count st + 1))
  else mkStats secs nsecs (s32 (wait_count st + 1)).

(** A call of one of the three functions: it goes on inside, or returns to [ret]. *)
Definition inside {P} (wrap : P -> pc) (ret : pc) (c : creature) (r : result (shared * option P)) : result (shared * creature) :=
  match r with
  | Blocked => Blocked
  | Failed f => Failed f
  | Next (s, p) => Next (s, mkCreature (c_kind c) (loops_left c) (bowl c) (match p with Some p => wrap p | None => ret end))
  end.

Section Simulation.
Variables (NumBowls t : Z).

Definition choose_bowl (i : input) : Z := u32 (i_random i) mod NumBowls + 1.

Definition cat_simulation (i : input) (c : creature) (s : shared) : result (shared * creature) :=
  let at_pc := mkCreature (c_kind c) (loops_left c) (bowl c) in
  match c_pc c with
  | Loop => Next (s, match loops_left c with O => at_pc Finish | S _ => mkCreature (c_kind c) (loops_left c) (choose_bowl i) (Before (BTest false)) end)
  | Before p => inside Before (Eat EMutex) c (cat_before_eating t (bowl c) p s)
  | Eat p => inside Eat (After AWake) c (cat_eat t (bowl c) p s)
  | After p => inside After StatP c (cat_after_eating t (bowl c) p s)
  | StatP => sem_P t (perf_mutex s) (fun x => (put_perf x s, at_pc StatUpdate))
  | StatUpdate => Next (put_stats (account i (cat_stats s)) (mouse_stats s) s, at_pc StatV)
  | StatV => sem_V t (perf_mutex s) (fun x => (put_perf x s, mkCreature (c_kind c) (pred (loops_left c)) (bowl c) Loop))
  | Finish => sem_V t (CatMouseWait s) (fun x => (put_waited x s, at_pc Done))
  | Done => Blocked
  end.

Definition mouse_simulation (i : input) (c : creature) (s : shared) : result (shared * creature) :=
  let at_pc := mkCreature (c_kind c) (loops_left c) (bowl c) in
  match c_pc c with
  | Loop => Next (s, match loops_left c with O => at_pc Finish | S _ => mkCreature (c_kind c) (loops_left c) (choose_bowl i) (Before BAcquire) end)
  | Before p => inside Before (Eat EMutex) c (mouse_before_eating t (bowl c) p s)
  | Eat p => inside Eat (After APost) c (mouse_eat t (bowl c) p s)
  | After p => inside After StatP c (mouse_after_eating t (bowl c) p s)
  | StatP => sem_P t (perf_mutex s) (fun x => (put_perf x s, at_pc StatUpdate))
  | StatUpdate => Next (put_stats (cat_stats s) (account i (mouse_stats s)) s, at_pc StatV)
  | StatV => sem_V t (perf_mutex s) (fun x => (put_perf x s, mkCreature (c_kind c) (pred (loops_left c)) (bowl c) Loop))
  | Finish => sem_V t (CatMouseWait s) (fun x => (put_waited x s, at_pc Done))
  | Done => Blocked
  end.

Definition exec (i : input) (c : creature) (s : shared) : result (shared * creature) :=
  match c_kind c with Cat => cat_simulation i c s | Mouse => mouse_simulation i c s end.

End Simulation.

Record world := mkWorld { w_shared : shared; w_creatures : list creature }.

Inductive step (NumBowls : Z) : world -> world -> Prop :=
  | step_run s cs t c i s' c' :
      zlookup cs t = Some c -> exec NumBowls t i c s = Next (s', c') ->
      step NumBowls (mkWorld s cs) (mkWorld s' (zinsert cs t c')).

(** A thread takes the kernel down. *)
Definition fails (NumBowls : Z) (w : world) (f : failure) : Prop :=
  exists t c i, zlookup (w_creatures w) t = Some c /\ exec NumBowls t i c (w_shared w) = Failed f.

(** ** The driver *)

(** The parameters are static variables: a bad one is stored before it is
    refused, and the four times stay as a command left them. *)
Record params := mkParams {
  NumBowls : Z; NumCats : Z; NumMice : Z; NumLoops : Z; CatEatTime : Z; CatSleepTime : Z; MouseEatTime : Z; MouseSleepTime : Z }.

Definition initial_params : params := mkParams 0 0 0 0 1 2 1 2.

Section Arguments.
Variable atoi : list Z -> Z.

(** Store argument [i]; [refused] tells whether the command returns 1. *)
Definition set_param (args : list (list Z)) (i : Z) (put : Z -> params -> params) (refused : Z -> bool) (k : M params Z) : M params Z :=
  let* arg := of_option Wild (zlookup args i) in
  modify (put (atoi arg)) ;;
  if refused (atoi arg) then ret 1 else k.

Definition catmouse_args (nargs : Z) (args : list (list Z)) : M params Z :=
  if negb (nargs =? 9) && negb (nargs =? 5) then ret 1
  else
    set_param args 1 (fun x p => mkParams x (NumCats p) (NumMice p) (NumLoops p) (CatEatTime p) (CatSleepTime p) (MouseEatTime p) (MouseSleepTime p)) (fun x => x <=? 0) (
    set_param args 2 (fun x p => mkParams (NumBowls p) x (NumMice p) (NumLoops p) (CatEatTime p) (CatSleepTime p) (MouseEatTime p) (MouseSleepTime p)) (fun x => x <? 0) (
    set_param args 3 (fun x p => mkParams (NumBowls p) (NumCats p) x (NumLoops p) (CatEatTime p) (CatSleepTime p) (MouseEatTime p) (MouseSleepTime p)) (fun x => x <? 0) (
    set_param args 4 (fun x p => mkParams (NumBowls p) (NumCats p) (NumMice p) x (CatEatTime p) (CatSleepTime p) (MouseEatTime p) (MouseSleepTime p)) (fun x => x <=? 0) (
    if nargs =? 9 then
      set_param args 5 (fun x p => mkParams (NumBowls p) (NumCats p) (NumMice p) (NumLoops p) x (CatSleepTime p) (MouseEatTime p) (MouseSleepTime p)) (fun x => x <? 0) (
      set_param args 6 (fun x p => mkParams (NumBowls p) (NumCats p) (NumMice p) (NumLoops p) (CatEatTime p) x (MouseEatTime p) (MouseSleepTime p)) (fun x => x <? 0) (
      set_param args 7 (fun x p => mkParams (NumBowls p) (NumCats p) (NumMice p) (NumLoops p) (CatEatTime p) (CatSleepTime p) x (MouseSleepTime p)) (fun x => x <? 0) (
      set_param args 8 (fun x p => mkParams (NumBowls p) (NumCats p) (NumMice p) (NumLoops p) (CatEatTime p) (CatSleepTime p) (MouseEatTime p) x) (fun x => x <? 0) (ret 0))))
    else ret 0)))).

End Arguments.

(** The creatures in the order in which they are created. *)
Fixpoint launch (cats mice : nat) : list creature_kind :=
  match cats with
  | O => replicate mice Mouse
  | S cats' => match mice with O => Cat :: launch cats' O | S mice' => Cat :: Mouse :: launch cats' mice' end
  end.

Definition initialize_bowls (NumBowls : Z) : shared :=
  mkShared 0 [] [] [] (zrep NumBowls EMPTY) 0 0 1 1 (mkStats 0 0 0) (mkStats 0 0 0) 0.

(** The objects that [catmouse_sync_init] makes; where it puts them is below. *)
Definition sync_objects (NumBowls : Z) (s : shared) : shared := put_sem NumBowls (put_locks (zrep (NumBowls + 1) None) s).

Definition start (NumBowls : Z) (NumLoops : nat) (kinds : list creature_kind) : world :=
  mkWorld (sync_objects NumBowls (initialize_bowls NumBowls)) ((fun k => mkCreature k NumLoops 0 Loop) <$> kinds).

(** [catmouse_sync_cleanup]; [lock_destroy] also frees the holder. *)
Definition catmouse_sync_cleanup (s : shared) : result unit :=
  if forallb (fun h => bool_decide (h = None)) (bowl_locks s) && bool_decide (cv_cats s = []) && bool_decide (cv_mice s = []) then Next tt
  else Failed Broken.

(** ** The invariant *)

(** How many creatures are at some point of their program. *)
Fixpoint count (f : creature -> bool) (cs : list creature) : Z :=
  match cs with [] => 0 | c :: cs' => Z.b2z (f c) + count f cs' end.

Lemma count_pos f cs : 0 <= count f cs.
Proof. induction cs as [|c cs IH]; simpl; [lia|]. destruct (f c); simpl; lia. Qed.
Lemma count_max f cs : count f cs <= zlen cs.
Proof. unfold zlen. induction cs as [|c cs IH]; simpl; [lia|]. destruct (f c); simpl; lia. Qed.

Lemma count_insert f cs t c c' : zlookup cs t = Some c -> count f (zinsert cs t c') = count f cs - Z.b2z (f c) + Z.b2z (f c').
Proof.
  intros Ht. pose proof (zlookup_Some_range _ _ _ Ht). revert Ht. unfold zlookup, zinsert. rewrite !bool_decide_true by lia.
  generalize (Z.to_nat t). clear. induction cs as [|x cs IH]; intros [|n] Hn; simpl in *; [done|done|injection Hn as ->; lia|]. rewrite (IH n Hn). lia.
Qed.

Lemma count_some f cs : 0 < count f cs -> exists t c, zlookup cs t = Some c /\ f c = true.
Proof.
  intros H. assert (exists c, c ∈ cs /\ f c = true) as (c & Hc & Hf).
  { induction cs as [|c cs IH]; simpl in H; [lia|]. destruct (f c) eqn:E; [exists c; split; [by left|done]|].
    destruct IH as (x & Hx & Hfx); [simpl in H; lia|]. exists x. split; [by right|done]. }
  destruct (zlookup_elem cs c Hc) as [t Ht]. by exists t, c.
Qed.

Lemma count_lookup f cs t c : zlookup cs t = Some c -> f c = true -> 0 < count f cs.
Proof.
  intros Ht Hf. pose proof (zlookup_Some_range _ _ _ Ht). revert Ht. unfold zlookup. rewrite bool_decide_true by lia.
  generalize (Z.to_nat t). clear H. induction cs as [|x cs IH]; intros [|n] Hn; simpl in *; [done|done|injection Hn as ->|].
  - rewrite Hf. simpl. pose proof (count_pos f cs). lia.
  - specialize (IH n Hn). destruct (f x); simpl; lia.
Qed.

(** From the acquisition of the bowl's lock to its release. *)
Definition holds (c : creature) : bool :=
  match c_pc c with
  | Before (BTest true) | Before BSem | Eat _ | After ARelease => true
  | After AWake => bool_decide (c_kind c = Cat)
  | After APost => bool_decide (c_kind c = Mouse)
  | _ => false
  end.
(** Between [P] and [V] of the three semaphores. *)
Definition owes (c : creature) : bool :=
  match c_pc c with
  | Eat _ | After APost => true
  | After _ => bool_decide (c_kind c = Cat)
  | _ => false
  end.
Definition in_mutex (c : creature) : bool :=
  match c_pc c with Eat EStart | Eat EStarted | Eat EStop | Eat EStopped => true | _ => false end.
Definition in_perf (c : creature) : bool := match c_pc c with StatUpdate | StatV => true | _ => false end.
Definition done_ (c : creature) : bool := match c_pc c with Done => true | _ => false end.
(** Marked in its bowl. *)
Definition feeding (c : creature) : bool :=
  match c_pc c with Eat EStarted | Eat EEating | Eat EStop => true | _ => false end.
Definition feeding_as (k : creature_kind) (c : creature) : bool := feeding c && bool_decide (c_kind c = k).
Definition asleep (c : creature) : bool := match c_pc c with Before BAsleep => bool_decide (c_kind c = Cat) | _ => false end.

Lemma feeding_holds c : feeding c = true -> holds c = true.
Proof. unfold feeding, holds. by destruct (c_pc c) as [|[]|[]|[]| | | | |]. Qed.

(** A creature by itself. *)
Definition creature_ok (n : Z) (c : creature) : Prop :=
  match c_pc c with
  | Before p => 1 <= bowl c <= n /\ loops_left c <> O /\ (c_kind c = Mouse -> p = BAcquire \/ p = BSem)
  | Eat _ | After _ => 1 <= bowl c <= n /\ loops_left c <> O
  | StatP | StatUpdate | StatV => loops_left c <> O
  | _ => True
  end.

Record locks_ok (n : Z) (locks : list (option Z)) (cs : list creature) : Prop := {
  lo_len : zlen locks = n + 1;
  lo_holds : forall t c, zlookup cs t = Some c -> holds c = true -> zlookup locks (bowl c) = Some (Some t);
  lo_held : forall b t, zlookup locks b = Some (Some t) -> exists c, zlookup cs t = Some c /\ holds c = true /\ bowl c = b }.

Record marks_ok (n : Z) (marks : list Z) (cs : list creature) : Prop := {
  mo_len : zlen marks = n;
  mo_fed : forall t c, zlookup cs t = Some c -> feeding c = true -> zlookup marks (bowl c - 1) = Some (letter (c_kind c));
  mo_mark : forall b ch, zlookup marks (b - 1) = Some ch -> ch <> EMPTY ->
    exists t c, zlookup cs t = Some c /\ feeding c = true /\ bowl c = b /\ ch = letter (c_kind c) }.

Record ok (n : Z) (w : world) : Prop := {
  ok_n : 1 <= n < 2 ^ 31;
  ok_size : zlen (w_creatures w) < 2 ^ 31;
  ok_creature : forall t c, zlookup (w_creatures w) t = Some c -> creature_ok n c;
  ok_locks : locks_ok n (bowl_locks (w_shared w)) (w_creatures w);
  ok_marks : marks_ok n (bowls (w_shared w)) (w_creatures w);
  ok_sem : 0 <= globalCatMouseSem (w_shared w) /\ globalCatMouseSem (w_shared w) + count owes (w_creatures w) = n;
  ok_mutex : 0 <= mutex (w_shared w) /\ mutex (w_shared w) + count in_mutex (w_creatures w) = 1;
  ok_perf : 0 <= perf_mutex (w_shared w) /\ perf_mutex (w_shared w) + count in_perf (w_creatures w) = 1;
  ok_waited : CatMouseWait (w_shared w) = count done_ (w_creatures w);
  ok_eating_cats : eating_cats_count (w_shared w) = count (feeding_as Cat) (w_creatures w);
  ok_eating_mice : eating_mice_count (w_shared w) = count (feeding_as Mouse) (w_creatures w);
  ok_cv_mice : cv_mice (w_shared w) = [];
  ok_cv_cats : forall t, t ∈ cv_cats (w_shared w) -> exists c, zlookup (w_creatures w) t = Some c /\ asleep c = true }.

(** Two creatures that hold the lock of one bowl are one creature. *)
Lemma holds_unique n locks cs t1 c1 t2 c2 :
  locks_ok n locks cs -> zlookup cs t1 = Some c1 -> zlookup cs t2 = Some c2 -> holds c1 = true -> holds c2 = true -> bowl c1 = bowl c2 -> t1 = t2.
Proof.
  intros [_ H _] L1 L2 H1 H2 Hb. pose proof (H _ _ L1 H1) as E1. pose proof (H _ _ L2 H2) as E2. rewrite Hb in E1. congruence.
Qed.

(** ** A step and the locks *)

Section Moves.
Context (n : Z) (cs : list creature) (t : Z) (c c' : creature).
Hypothesis Hc : zlookup cs t = Some c.

Lemma lookup_move k : zlookup (zinsert cs t c') k = if bool_decide (k = t) then Some c' else zlookup cs k.
Proof.
  pose proof (zlookup_Some_range _ _ _ Hc). rewrite zlookup_zinsert by done. destruct (decide (t = k)) as [->|]; [by rewrite !bool_decide_true|by rewrite !bool_decide_false].
Qed.

Lemma locks_same locks :
  locks_ok n locks cs -> holds c' = holds c -> (holds c = true -> bowl c' = bowl c) -> locks_ok n locks (zinsert cs t c').
Proof.
  intros [H1 H2 H3] Hh Hb. split; [done| |].
  - intros k x. rewrite lookup_move. bool_case; [intros [= <-]|apply H2]. intros Hx. rewrite Hh in Hx. subst k. rewrite Hb by done. by apply H2.
  - intros b k Hk. destruct (H3 b k Hk) as (x & Hx & Hhx & Hbx). rewrite lookup_move. bool_case; [|by exists x].
    subst k. rewrite Hc in Hx. injection Hx as <-. exists c'. rewrite Hh, Hb by done. done.
Qed.

Lemma locks_acquire locks :
  locks_ok n locks cs -> holds c = false -> holds c' = true -> zlookup locks (bowl c') = Some None ->
  locks_ok n (zinsert locks (bowl c') (Some t)) (zinsert cs t c').
Proof.
  intros [H1 H2 H3] Hf Ht Hl. pose proof (zlookup_Some_range _ _ _ Hl) as Hr. split; [by rewrite zlen_zinsert| |].
  - intros k x. rewrite lookup_move. bool_case; [intros [= <-] _; subst k; by rewrite zlookup_zinsert_eq|].
    intros Hx Hhx. pose proof (H2 k x Hx Hhx) as E. rewrite zlookup_zinsert_ne; [done|]. intros Eb. rewrite <- Eb in E. congruence.
  - intros b k. rewrite zlookup_zinsert by done. destruct (decide (bowl c' = b)) as [<-|Hne].
    + rewrite bool_decide_true by done. intros [= <-]. exists c'. rewrite lookup_move, bool_decide_true by done. done.
    + rewrite bool_decide_false by done. intros Hk. destruct (H3 b k Hk) as (x & Hx & Hhx & Hbx). exists x.
      rewrite lookup_move, bool_decide_false; [done|]. intros ->. rewrite Hc in Hx. congruence.
Qed.

Lemma locks_release locks :
  locks_ok n locks cs -> holds c = true -> holds c' = false -> locks_ok n (zinsert locks (bowl c) None) (zinsert cs t c').
Proof.
  intros Hok Ht Hf. pose proof Hok as [H1 H2 H3]. pose proof (zlookup_Some_range _ _ _ (H2 t c Hc Ht)) as Hr. split; [by rewrite zlen_zinsert| |].
  - intros k x. rewrite lookup_move. bool_case; [intros [= <-]; congruence|]. intros Hx Hhx. rewrite zlookup_zinsert_ne; [by apply H2|].
    intros Eb. pose proof (holds_unique n locks cs t c k x Hok Hc Hx Ht Hhx Eb). congruence.
  - intros b k. rewrite zlookup_zinsert by done. destruct (decide (bowl c = b)) as [<-|Hne]; [by rewrite bool_decide_true|].
    rewrite bool_decide_false by done. intros Hk. destruct (H3 b k Hk) as (x & Hx & Hhx & Hbx). exists x.
    rewrite lookup_move, bool_decide_false; [done|]. intros ->. rewrite Hc in Hx. congruence.
Qed.

(** ** A step and the marks *)

Lemma marks_same marks :
  marks_ok n marks cs -> feeding c' = feeding c -> (feeding c = true -> bowl c' = bowl c /\ c_kind c' = c_kind c) -> marks_ok n marks (zinsert cs t c').
Proof.
  intros [H1 H2 H3] Hf Hb. split; [done| |].
  - intros k x. rewrite lookup_move. bool_case; [intros [= <-]|apply H2]. intros Hx. rewrite Hf in Hx. destruct (Hb Hx) as [-> ->]. by eapply H2.
  - intros b ch Hch Hne. destruct (H3 b ch Hch Hne) as (k & x & Hx & Hfx & Hbx & Hk). exists k.
    destruct (decide (k = t)) as [->|]; [exists c'|exists x]; rewrite lookup_move; [rewrite bool_decide_true by done|by rewrite bool_decide_false by done].
    rewrite Hc in Hx. injection Hx as <-. destruct (Hb Hfx) as [-> ->]. by rewrite Hf.
Qed.

Lemma marks_start marks :
  marks_ok n marks cs -> feeding c = false -> feeding c' = true -> zlookup marks (bowl c' - 1) = Some EMPTY ->
  marks_ok n (zinsert marks (bowl c' - 1) (letter (c_kind c'))) (zinsert cs t c').
Proof.
  intros [H1 H2 H3] Hf Ht Hl. pose proof (zlookup_Some_range _ _ _ Hl) as Hr. split; [by rewrite zlen_zinsert| |].
  - intros k x. rewrite lookup_move. bool_case; [intros [= <-] _; by rewrite zlookup_zinsert_eq|].
    intros Hx Hfx. pose proof (H2 k x Hx Hfx) as E. rewrite zlookup_zinsert_ne; [done|]. intros Eb. rewrite <- Eb, Hl in E. by destruct (c_kind x).
  - intros b ch. rewrite zlookup_zinsert by done. destruct (decide (bowl c' - 1 = b - 1)) as [Eb|Hne].
    + rewrite bool_decide_true by done. intros [= <-] _. exists t, c'. rewrite lookup_move, bool_decide_true by done.
      split_and!; [done|done|lia|done].
    + rewrite bool_decide_false by done. intros Hch Hch'. destruct (H3 b ch Hch Hch') as (k & x & Hx & Hfx & Hbx & Hk). exists k, x.
      rewrite lookup_move, bool_decide_false; [done|]. intros ->. rewrite Hc in Hx. congruence.
Qed.

Lemma marks_stop marks locks :
  marks_ok n marks cs -> locks_ok n locks cs -> feeding c = true -> feeding c' = false ->
  marks_ok n (zinsert marks (bowl c - 1) EMPTY) (zinsert cs t c').
Proof.
  intros [H1 H2 H3] Hok Ht Hf. pose proof (zlookup_Some_range _ _ _ (H2 t c Hc Ht)) as Hr. split; [by rewrite zlen_zinsert| |].
  - intros k x. rewrite lookup_move. bool_case; [intros [= <-]; congruence|]. intros Hx Hfx. rewrite zlookup_zinsert_ne; [by eapply H2|].
    intros Eb. assert (t = k); [|congruence]. apply (holds_unique n locks cs t c k x); [done|done|done|by apply feeding_holds|by apply feeding_holds|lia].
  - intros b ch. rewrite zlookup_zinsert by done. destruct (decide (bowl c - 1 = b - 1)) as [Eb|Hne]; [by rewrite bool_decide_true; [intros [= <-]|]|].
    rewrite bool_decide_false by done. intros Hch Hch'. destruct (H3 b ch Hch Hch') as (k & x & Hx & Hfx & Hbx & Hk). exists k, x.
    rewrite lookup_move, bool_decide_false; [done|]. intros ->. rewrite Hc in Hx. injection Hx as <-. lia.
Qed.

End Moves.

(** ** What a step does *)

(** How many steps a creature has left at most. *)
Definition pc_rank (k : creature_kind) (p : pc) : nat :=
  match p with
  | Loop => 25
  | Before (BTest false) => 24 | Before BRelease => 23 | Before BSleep => 22 | Before BAsleep => 21
  | Before BAcquire => 20 | Before (BTest true) => 19 | Before BSem => 18
  | Eat EMutex => 17 | Eat EStart => 16 | Eat EStarted => 15 | Eat EEating => 14 | Eat EStop => 13 | Eat EStopped => 12
  | After AWake => match k with Cat => 11 | Mouse => 9 end
  | After ARelease => 10
  | After APost => match k with Cat => 9 | Mouse => 11 end
  | StatP => 8 | StatUpdate => 7 | StatV => 6 | Finish => 1 | Done => 0
  end.
Definition rank (c : creature) : nat := loops_left c * 30 + pc_rank (c_kind c) (c_pc c).

(** Why a creature cannot go on. *)
Definition waits (s : shared) (t : Z) (c : creature) : Prop :=
  match c_pc c with
  | Done => True
  | Before BAsleep => c_kind c = Cat /\ t ∈ cv_cats s
  | Before BAcquire => exists k, zlookup (bowl_locks s) (bowl c) = Some (Some k)
  | Before BSem => globalCatMouseSem s = 0
  | Eat EMutex | Eat EEating => mutex s = 0
  | StatP => perf_mutex s = 0
  | _ => False
  end.

(** The panics that are left: a creature starts to eat while the other kind eats. *)
Definition clash (s : shared) (c : creature) (f : failure) : Prop :=
  c_pc c = Eat EStart /\
  match c_kind c with
  | Cat => f = CatWithMice /\ 0 < eating_mice_count s
  | Mouse => f = MouseWithCats /\ 0 < eating_cats_count s
  end.

Definition good (n : Z) (s : shared) (cs : list creature) (t : Z) (c : creature) (r : result (shared * creature)) : Prop :=
  match r with
  | Next (s', c') => ok n (mkWorld s' (zinsert cs t c')) /\ (rank c' < rank c)%nat /\ c_kind c' = c_kind c
  | Blocked => waits s t c
  | Failed f => clash s c f
  end.

Lemma sem_P_cases {A} t x (k : Z -> A) : sem_P t x k = if x =? 0 then Blocked else Next (k (x - 1)).
Proof. unfold sem_P, sem_take. by destruct (x =? 0). Qed.
Lemma sem_V_next {A} t x (k : Z -> A) : 0 <= x < 2 ^ 31 - 1 -> sem_V t x k = Next (k (x + 1)).
Proof. intros H. unfold sem_V, sem_give. rewrite s32_small by lia. by rewrite (proj2 (Z.ltb_lt 0 (x + 1))) by lia. Qed.

Section Steps.
Context (n : Z) (s : shared) (cs : list creature) (t : Z) (c : creature).
Hypothesis Hok : ok n (mkWorld s cs).
Hypothesis Hc : zlookup cs t = Some c.

(** A step in terms of what it changes. *)
Lemma move_ok s' c' :
  creature_ok n c' ->
  locks_ok n (bowl_locks s') (zinsert cs t c') -> marks_ok n (bowls s') (zinsert cs t c') ->
  0 <= globalCatMouseSem s' -> globalCatMouseSem s' + Z.b2z (owes c') = globalCatMouseSem s + Z.b2z (owes c) ->
  0 <= mutex s' -> mutex s' + Z.b2z (in_mutex c') = mutex s + Z.b2z (in_mutex c) ->
  0 <= perf_mutex s' -> perf_mutex s' + Z.b2z (in_perf c') = perf_mutex s + Z.b2z (in_perf c) ->
  CatMouseWait s' - Z.b2z (done_ c') = CatMouseWait s - Z.b2z (done_ c) ->
  eating_cats_count s' - Z.b2z (feeding_as Cat c') = eating_cats_count s - Z.b2z (feeding_as Cat c) ->
  eating_mice_count s' - Z.b2z (feeding_as Mouse c') = eating_mice_count s - Z.b2z (feeding_as Mouse c) ->
  cv_mice s' = [] -> (forall x, x ∈ cv_cats s' -> x ∈ cv_cats s /\ x <> t \/ x = t /\ asleep c' = true) ->
  ok n (mkWorld s' (zinsert cs t c')).
Proof.
  intros. destruct Hok as [K1 K2 K3 K4 K5 K6 K7 K8 K9 K10 K11 K12 K13]. cbn [w_shared w_creatures] in *.
  split; cbn [w_shared w_creatures]; rewrite ?zlen_zinsert, ?(count_insert _ _ _ _ c' Hc); try done; try lia.
  - intros k x. rewrite (lookup_move cs t c c' Hc). bool_case; [by intros [= <-]|apply K3].
  - intros x Hx. rewrite (lookup_move cs t c c' Hc). destruct (H12 x Hx) as [[Hx' Hne]|[-> Ha]].
    + rewrite bool_decide_false by done. by apply K13.
    + rewrite bool_decide_true by done. by exists c'.
Qed.

(** Only [c] is in the way of a list that does not have [t]. *)
Lemma cv_without x : asleep c = false \/ t ∉ cv_cats s -> x ∈ cv_cats s -> x ∈ cv_cats s /\ x <> t.
Proof.
  intros Ht Hx. split; [done|]. intros ->. destruct (ok_cv_cats _ _ Hok t Hx) as (c0 & H0 & Ha). cbn in H0. rewrite Hc in H0. injection H0 as <-.
  destruct Ht as [Ht|Ht]; [congruence|done].
Qed.

Lemma sem_bound : owes c = true -> 0 <= globalCatMouseSem s < 2 ^ 31 - 1.
Proof. intros H. pose proof (count_lookup owes cs t c Hc H). destruct Hok. cbn in *. lia. Qed.
Lemma mutex_bound : in_mutex c = true -> mutex s = 0.
Proof. intros H. pose proof (count_lookup in_mutex cs t c Hc H). destruct Hok. cbn in *. lia. Qed.
Lemma perf_bound : in_perf c = true -> perf_mutex s = 0.
Proof. intros H. pose proof (count_lookup in_perf cs t c Hc H). destruct Hok. cbn in *. lia. Qed.

Lemma lock_here : 1 <= bowl c <= n -> exists h, zlookup (bowl_locks s) (bowl c) = Some h.
Proof. intros H. apply zlookup_is_Some. pose proof (lo_len _ _ _ (ok_locks _ _ Hok)). cbn in *. lia. Qed.
Lemma mark_here : 1 <= bowl c <= n -> exists ch, zlookup (bowls s) (bowl c - 1) = Some ch.
Proof. intros H. apply zlookup_is_Some. pose proof (mo_len _ _ _ (ok_marks _ _ Hok)). cbn in *. lia. Qed.
Lemma my_lock : holds c = true -> zlookup (bowl_locks s) (bowl c) = Some (Some t).
Proof. apply (ok_locks _ _ Hok). done. Qed.
Lemma not_my_lock b h : holds c = false -> zlookup (bowl_locks s) b = Some h -> h <> Some t.
Proof.
  intros Hf Hl ->. destruct (lo_held _ _ _ (ok_locks _ _ Hok) b t Hl) as (x & Hx & Hh & _). cbn in Hx. congruence.
Qed.

(** The steps that leave the locks, the marks and the condition variables. *)
Lemma move_simple s' c' :
  creature_ok n c' -> holds c' = holds c -> feeding c' = feeding c -> bowl c' = bowl c \/ holds c = false -> c_kind c' = c_kind c ->
  bowl_locks s' = bowl_locks s -> bowls s' = bowls s -> eating_cats_count s' = eating_cats_count s -> eating_mice_count s' = eating_mice_count s ->
  cv_cats s' = cv_cats s -> cv_mice s' = cv_mice s -> asleep c = false \/ t ∉ cv_cats s ->
  0 <= globalCatMouseSem s' -> globalCatMouseSem s' + Z.b2z (owes c') = globalCatMouseSem s + Z.b2z (owes c) ->
  0 <= mutex s' -> mutex s' + Z.b2z (in_mutex c') = mutex s + Z.b2z (in_mutex c) ->
  0 <= perf_mutex s' -> perf_mutex s' + Z.b2z (in_perf c') = perf_mutex s + Z.b2z (in_perf c) ->
  CatMouseWait s' - Z.b2z (done_ c') = CatMouseWait s - Z.b2z (done_ c) ->
  ok n (mkWorld s' (zinsert cs t c')).
Proof.
  intros H1 Hh Hf Hb Hk E1 E2 E3 E4 E5 E6 Ha. intros. apply move_ok; try done.
  - rewrite E1. eapply locks_same; [done|apply Hok|done|]. intros ?. destruct Hb; congruence.
  - rewrite E2. eapply marks_same; [done|apply Hok|done|]. intros ?%feeding_holds. destruct Hb; [done|congruence].
  - unfold feeding_as. rewrite Hf, Hk, E3. lia.
  - unfold feeding_as. rewrite Hf, Hk, E4. lia.
  - rewrite E6. apply Hok.
  - rewrite E5. intros x Hx. left. by apply cv_without.
Qed.

End Steps.

(** [good] for a step that is known. *)
Ltac steps_simple Hok Hc :=
  pose proof (ok_sem _ _ Hok); pose proof (ok_mutex _ _ Hok); pose proof (ok_perf _ _ Hok); cbn [w_shared w_creatures] in *;
  split; [eapply (move_simple _ _ _ _ _ Hok Hc); cbn in *; try done; try lia; try (rewrite bool_decide_false by done; cbn; lia); auto|split; [unfold rank; cbn; lia|done]].

Lemma before_good n s cs t k l b p :
  let c := mkCreature k l b (Before p) in
  ok n (mkWorld s cs) -> zlookup cs t = Some c ->
  good n s cs t c (inside Before (Eat EMutex) c (match k with Cat => cat_before_eating t b p s | Mouse => mouse_before_eating t b p s end)).
Proof.
  intros c Hok Hc. pose proof (ok_creature _ _ Hok t c Hc) as (Hb & Hl & Hm). cbn in Hb, Hl, Hm.
  destruct (lock_here n s cs c Hok Hb) as [h Hh]. cbn in Hh.
  assert (forall next, k = Cat /\ next = BTest true \/ k = Mouse /\ next = BSem -> p = BAcquire ->
    good n s cs t c (inside Before (Eat EMutex) c (acquire_bowl t b s (Some next)))) as Hacq.
  { intros next Hn ->. unfold acquire_bowl, at_lock. rewrite Hh. destruct h as [x|]; cbn; [by exists x|].
    split; [|split; [unfold rank; cbn; destruct Hn as [[-> ->]|[-> ->]]; cbn; lia|done]].
    eapply (move_ok _ _ _ _ _ Hok Hc); cbn; try (destruct Hn as [[-> ->]|[-> ->]]; cbn; done || apply Hok).
    - destruct Hn as [[-> ->]|[-> ->]]; cbn; (split_and!; [lia|lia|done|intros; auto; congruence]).
    - apply (locks_acquire n cs t c (mkCreature k l b (Before next)) Hc); [apply Hok|done|by destruct Hn as [[-> ->]|[-> ->]]|done].
    - apply (marks_same n cs t c _ Hc); [apply Hok|by destruct Hn as [[-> ->]|[-> ->]]|done].
    - intros x Hx. left. eapply cv_without; eauto. }
  assert (p = BSem -> good n s cs t c (inside Before (Eat EMutex) c (sem_P t (globalCatMouseSem s) (fun x => (put_sem x s, None))))) as Hsem.
  { intros ->. rewrite sem_P_cases. destruct (Z.eqb_spec (globalCatMouseSem s) 0); [done|]. cbn. steps_simple Hok Hc. }
  destruct k; cbn in Hm.
  2: { destruct (Hm eq_refl) as [-> | ->]; [apply Hacq; auto|by apply Hsem]. }
  destruct p as [again| | | | |]; cbn [cat_before_eating]; [| | | |by apply Hacq; auto|by apply Hsem].
  - unfold at_lock. rewrite Hh. unfold lock_do_i_hold. cbn. destruct again.
    + assert (h = Some t) as -> by (pose proof (my_lock n s cs t c Hok Hc eq_refl) as E; cbn in E; congruence).
      rewrite bool_decide_true by done. steps_simple Hok Hc.
    + pose proof (not_my_lock n s cs t c Hok Hc b h eq_refl Hh). rewrite bool_decide_false by done. steps_simple Hok Hc.
  - pose proof (not_my_lock n s cs t c Hok Hc b h eq_refl Hh).
    unfold release_bowl, at_lock, lock_give, lock_do_i_hold. rewrite Hh, bool_decide_false by done. cbn. steps_simple Hok Hc.
  - cbn. split; [|split; [unfold rank; cbn; lia|done]].
    eapply (move_ok _ _ _ _ _ Hok Hc); cbn; try done; try apply Hok.
    + apply (locks_same n cs t c _ Hc); [apply Hok|done|done].
    + apply (marks_same n cs t c _ Hc); [apply Hok|done|done].
    + intros x [Hx|Hx%list_elem_of_singleton]%elem_of_app; [left; eapply cv_without; eauto|by right].
  - case_bool_decide as Hin; cbn; [done|]. steps_simple Hok Hc.
Qed.

(** The bowl of a creature that is about to eat is empty. *)
Lemma mark_empty n s cs t c :
  ok n (mkWorld s cs) -> zlookup cs t = Some c -> holds c = true -> feeding c = false -> 1 <= bowl c <= n -> zlookup (bowls s) (bowl c - 1) = Some EMPTY.
Proof.
  intros Hok Hc Hh Hf Hb. destruct (mark_here n s cs c Hok Hb) as [ch Hch]. rewrite Hch. f_equal.
  destruct (decide (ch = EMPTY)) as [|Hne]; [done|]. destruct (mo_mark _ _ _ (ok_marks _ _ Hok) (bowl c) ch Hch Hne) as (k & x & Hx & Hfx & Hbx & _).
  cbn in Hx. assert (t = k); [|congruence].
  apply (holds_unique n (bowl_locks s) cs t c k x); [apply Hok|done|done|done|by apply feeding_holds|done].
Qed.

(** The two critical sections of [cat_eat] and [mouse_eat]. *)
Lemma eat_start n s cs t k l b :
  let c := mkCreature k l b (Eat EStart) in
  let c' := mkCreature k l b (Eat EStarted) in
  ok n (mkWorld s cs) -> zlookup cs t = Some c ->
  ok n (mkWorld (put_sim (zinsert (bowls s) (b - 1) (letter k)) (eating_cats_count s + Z.b2z (bool_decide (k = Cat)))
                   (eating_mice_count s + Z.b2z (bool_decide (k = Mouse))) s) (zinsert cs t c')).
Proof.
  intros c c' Hok Hc. pose proof (ok_creature _ _ Hok t c Hc) as [Hb Hl]. cbn in Hb, Hl.
  eapply (move_ok _ _ _ _ _ Hok Hc); cbn; try done; try lia; try apply Hok.
  - apply (locks_same n cs t c c' Hc); [apply Hok|done|done].
  - apply (marks_start n cs t c c' Hc); [apply Hok|done|done|by apply (mark_empty n s cs t c)].
  - intros x Hx. left. eapply cv_without; eauto.
Qed.

Lemma eat_stop n s cs t k l b :
  let c := mkCreature k l b (Eat EStop) in
  let c' := mkCreature k l b (Eat EStopped) in
  ok n (mkWorld s cs) -> zlookup cs t = Some c ->
  ok n (mkWorld (put_sim (zinsert (bowls s) (b - 1) EMPTY) (eating_cats_count s - Z.b2z (bool_decide (k = Cat)))
                   (eating_mice_count s - Z.b2z (bool_decide (k = Mouse))) s) (zinsert cs t c')).
Proof.
  intros c c' Hok Hc. pose proof (ok_creature _ _ Hok t c Hc) as [Hb Hl]. cbn in Hb, Hl.
  eapply (move_ok _ _ _ _ _ Hok Hc); cbn; try done; try lia; try apply Hok.
  - apply (locks_same n cs t c c' Hc); [apply Hok|done|done].
  - apply (marks_stop n cs t c c' Hc _ (bowl_locks s)); [apply Hok|apply Hok|done|done].
  - intros x Hx. left. eapply cv_without; eauto.
Qed.

(** What the counters say of a creature that eats. *)
Lemma eating_now n s cs t c k :
  ok n (mkWorld s cs) -> zlookup cs t = Some c -> feeding_as k c = true -> 0 < match k with Cat => eating_cats_count s | Mouse => eating_mice_count s end.
Proof.
  intros Hok Hc Hf. pose proof (count_lookup _ _ _ _ Hc Hf). destruct Hok. cbn in *. destruct k; lia.
Qed.

Lemma eat_good n s cs t k l b p ret :
  let c := mkCreature k l b (Eat p) in
  ret = (match k with Cat => After AWake | Mouse => After APost end) ->
  ok n (mkWorld s cs) -> zlookup cs t = Some c ->
  good n s cs t c (inside Eat ret c (match k with Cat => cat_eat t b p s | Mouse => mouse_eat t b p s end)).
Proof.
  intros c -> Hok Hc. pose proof (ok_creature _ _ Hok t c Hc) as [Hb Hl]. cbn in Hb, Hl.
  pose proof (ok_eating_cats _ _ Hok) as Hec. pose proof (ok_eating_mice _ _ Hok) as Hem. cbn in Hec, Hem.
  pose proof (count_pos (feeding_as Cat) cs). pose proof (count_pos (feeding_as Mouse) cs).
  destruct p.
  - assert (forall r, r = sem_P t (mutex s) (fun x => (put_mutex x s, Some EStart)) -> forall ret, good n s cs t c (inside Eat ret c r)) as H1.
    { intros r -> ret. rewrite sem_P_cases. destruct (Z.eqb_spec (mutex s) 0); [done|]. cbn. steps_simple Hok Hc. }
    by destruct k; apply H1.
  - pose proof (mark_empty n s cs t c Hok Hc eq_refl eq_refl Hb) as Hm. cbn in Hm. pose proof (eat_start n s cs t k l b Hok Hc) as Hs.
    destruct k; cbn in Hs; rewrite Z.add_0_r in Hs; cbn; rewrite Hm; cbn.
    + destruct (Z.ltb_spec 0 (eating_mice_count s)); cbn; [done|]. replace (eating_mice_count s) with 0 in * by lia. cbn.
      split; [done|]. split; [unfold rank; cbn; lia|done].
    + destruct (Z.ltb_spec 0 (eating_cats_count s)); cbn; [done|]. replace (eating_cats_count s) with 0 in * by lia. cbn.
      split; [done|]. split; [unfold rank; cbn; lia|done].
  - pose proof (mutex_bound n s cs t c Hok Hc eq_refl) as Hm.
    destruct k; cbn; rewrite sem_V_next by lia; cbn; steps_simple Hok Hc.
  - assert (forall r, r = sem_P t (mutex s) (fun x => (put_mutex x s, Some EStop)) -> forall ret, good n s cs t c (inside Eat ret c r)) as H1.
    { intros r -> ret. rewrite sem_P_cases. destruct (Z.eqb_spec (mutex s) 0); [done|]. cbn. steps_simple Hok Hc. }
    by destruct k; apply H1.
  - pose proof (mo_fed _ _ _ (ok_marks _ _ Hok) t c Hc eq_refl) as Hm. cbn in Hm. pose proof (eat_stop n s cs t k l b Hok Hc) as Hs.
    pose proof (eating_now n s cs t c k Hok Hc) as He.
    destruct k; cbn in Hs; rewrite Z.sub_0_r in Hs; cbn; rewrite Hm; specialize (He eq_refl); rewrite (proj2 (Z.ltb_lt _ _) He); cbn;
      (split; [done|]; split; [unfold rank; cbn; lia|done]).
  - pose proof (mutex_bound n s cs t c Hok Hc eq_refl) as Hm.
    destruct k; cbn; rewrite sem_V_next by lia; cbn; steps_simple Hok Hc.
Qed.

Lemma after_good n s cs t k l b p :
  let c := mkCreature k l b (After p) in
  ok n (mkWorld s cs) -> zlookup cs t = Some c ->
  good n s cs t c (inside After StatP c (match k with Cat => cat_after_eating t b p s | Mouse => mouse_after_eating t b p s end)).
Proof.
  intros c Hok Hc. pose proof (ok_creature _ _ Hok t c Hc) as [Hb Hl]. cbn in Hb, Hl.
  destruct p.
  - pose proof (ok_cv_mice _ _ Hok) as Hcv. cbn in Hcv. destruct k; cbn; [steps_simple Hok Hc|].
    split; [|split; [unfold rank; cbn; lia|done]]. eapply (move_ok _ _ _ _ _ Hok Hc); cbn; try done; try apply Hok.
    + apply (locks_same n cs t c _ Hc); [apply Hok|done|done].
    + apply (marks_same n cs t c _ Hc); [apply Hok|done|done].
    + intros x Hx. by apply elem_of_nil in Hx.
  - assert (forall next, next = (match k with Cat => APost | Mouse => AWake end) ->
      good n s cs t c (inside After StatP c (release_bowl t b s (Some next)))) as Hrel; [|by destruct k; apply Hrel].
    intros next ->. unfold release_bowl, at_lock. pose proof (my_lock n s cs t c Hok Hc eq_refl) as Hm. cbn in Hm. rewrite Hm.
    unfold lock_give, lock_do_i_hold. rewrite bool_decide_true by done. cbn. split; [|split; [unfold rank; destruct k; cbn; lia|done]].
    eapply (move_ok _ _ _ _ _ Hok Hc); cbn; try (destruct k; cbn; done || apply Hok).
    + apply (locks_release n cs t c _ Hc); [apply Hok|done|by destruct k].
    + apply (marks_same n cs t c _ Hc); [apply Hok|done|done].
    + intros x Hx. left. eapply cv_without; eauto.
  - pose proof (sem_bound n s cs t c Hok Hc eq_refl) as Hs.
    destruct k; cbn; rewrite sem_V_next by lia; cbn; steps_simple Hok Hc.
Qed.

(** What a step of any creature does. *)
Lemma exec_good n s cs t c i : ok n (mkWorld s cs) -> zlookup cs t = Some c -> good n s cs t c (exec n t i c s).
Proof.
  intros Hok Hc. destruct c as [k l b p]. pose proof (ok_creature _ _ Hok t _ Hc) as Hcr. pose proof (ok_n _ _ Hok) as Hn.
  destruct p as [|p|p|p| | | | |].
  2: { pose proof (before_good n s cs t k l b p Hok Hc). by destruct k. }
  2: { pose proof (eat_good n s cs t k l b p _ eq_refl Hok Hc). by destruct k. }
  2: { pose proof (after_good n s cs t k l b p Hok Hc). by destruct k. }
  - assert (1 <= choose_bowl n i <= n) by (unfold choose_bowl; pose proof (Z.mod_pos_bound (u32 (i_random i)) n); lia).
    destruct k, l; cbn; steps_simple Hok Hc.
  - assert (forall r, r = sem_P t (perf_mutex s) (fun x => (put_perf x s, mkCreature k l b StatUpdate)) -> good n s cs t (mkCreature k l b StatP) r) as H1.
    { intros r ->. rewrite sem_P_cases. destruct (Z.eqb_spec (perf_mutex s) 0); [done|]. cbn. steps_simple Hok Hc. }
    by destruct k; apply H1.
  - destruct k; cbn; steps_simple Hok Hc.
  - pose proof (perf_bound n s cs t _ Hok Hc eq_refl) as Hp. cbn in Hcr. destruct l as [|l]; [done|].
    destruct k; cbn; rewrite sem_V_next by lia; cbn; steps_simple Hok Hc.
  - pose proof (ok_waited _ _ Hok) as Hw. pose proof (ok_size _ _ Hok). cbn in Hw, H.
    pose proof (count_insert done_ cs t _ (mkCreature k l b Done) Hc) as Hi. cbn in Hi.
    pose proof (count_max done_ (zinsert cs t (mkCreature k l b Done))) as Hm. rewrite zlen_zinsert in Hm. pose proof (count_pos done_ cs).
    destruct k; cbn; rewrite sem_V_next by lia; cbn; steps_simple Hok Hc.
  - by destruct k.
Qed.

(** ** Reachable worlds *)

Lemma zlookup_fmap {A B} (f : A -> B) l i : zlookup (f <$> l) i = f <$> zlookup l i.
Proof. unfold zlookup. bool_case; [apply list_lookup_fmap|done]. Qed.

Lemma count_none f (cs : list creature) : (forall t c, zlookup cs t = Some c -> f c = false) -> count f cs = 0.
Proof.
  intros H. pose proof (count_pos f cs). destruct (decide (0 < count f cs)) as [Hp|]; [|lia].
  destruct (count_some f cs Hp) as (t & c & Hc & Hf). rewrite (H t c Hc) in Hf. done.
Qed.

Lemma simulation_start n L kinds : 1 <= n < 2 ^ 31 -> zlen kinds < 2 ^ 31 -> ok n (start n L kinds).
Proof.
  intros Hn Hk. assert (forall t c, zlookup (w_creatures (start n L kinds)) t = Some c -> exists k, c = mkCreature k L 0 Loop) as Hat.
  { intros t c. cbn. rewrite zlookup_fmap. destruct (zlookup kinds t) as [k|]; [|done]. intros [= <-]. by exists k. }
  assert (forall f, (forall k, f (mkCreature k L 0 Loop) = false) -> count f (w_creatures (start n L kinds)) = 0) as H0.
  { intros f Hf. apply count_none. intros t c Hc. destruct (Hat t c Hc) as [k ->]. done. }
  split; rewrite ?H0 by done; cbn; try done; try lia.
  - unfold zlen in *. by rewrite length_fmap.
  - intros t c Hc. destruct (Hat t c Hc) as [k ->]. done.
  - split; [apply zlen_zrep; lia| |].
    + intros t c Hc. by destruct (Hat t c Hc) as [k ->].
    + intros b t Hb. pose proof (zlookup_Some_range _ _ _ Hb) as Hr. rewrite zlen_zrep in Hr by lia. by rewrite zlookup_zrep in Hb by lia.
  - split; [apply zlen_zrep; lia| |].
    + intros t c Hc. by destruct (Hat t c Hc) as [k ->].
    + intros b ch Hb. pose proof (zlookup_Some_range _ _ _ Hb) as Hr. rewrite zlen_zrep in Hr by lia. rewrite zlookup_zrep in Hb by lia. congruence.
  - intros t Ht. by apply elem_of_nil in Ht.
Qed.

Definition ranks (cs : list creature) : nat := sum_list (rank <$> cs).

Lemma ranks_insert cs t c c' : zlookup cs t = Some c -> (rank c' < rank c)%nat -> (ranks (zinsert cs t c') < ranks cs)%nat.
Proof.
  intros Ht Hr. pose proof (zlookup_Some_range _ _ _ Ht). revert Ht. unfold ranks, zlookup, zinsert. rewrite !bool_decide_true by lia.
  generalize (Z.to_nat t). clear H. induction cs as [|x cs IH]; intros [|m] Hm; [done|done|injection Hm as ->; simpl; lia|]. specialize (IH m Hm). apply Nat.add_lt_mono_l, IH.
Qed.

Lemma kinds_insert cs t c c' : zlookup cs t = Some c -> c_kind c' = c_kind c -> c_kind <$> zinsert cs t c' = c_kind <$> cs.
Proof.
  intros Ht Hr. pose proof (zlookup_Some_range _ _ _ Ht). revert Ht. unfold zlookup, zinsert. rewrite !bool_decide_true by lia.
  intros Ht. rewrite list_fmap_insert, Hr. apply list_insert_id. by rewrite list_lookup_fmap, Ht.
Qed.

Lemma step_good n w w' : ok n w -> step n w w' ->
  ok n w' /\ (ranks (w_creatures w') < ranks (w_creatures w))%nat /\ c_kind <$> w_creatures w' = c_kind <$> w_creatures w.
Proof.
  intros Hok Hs. destruct Hs as [s cs t c i s' c' Hc He]. pose proof (exec_good n s cs t c i Hok Hc) as Hg. rewrite He in Hg.
  destruct Hg as (H1 & H2 & H3). split; [done|]. split; [by eapply ranks_insert|by eapply kinds_insert].
Qed.

Lemma steps_good n k w w' : ok n w -> nsteps (step n) k w w' ->
  ok n w' /\ (ranks (w_creatures w') + k <= ranks (w_creatures w))%nat /\ c_kind <$> w_creatures w' = c_kind <$> w_creatures w.
Proof.
  intros Hok Hs. revert Hok. induction Hs as [w|k w1 w2 w3 H1 _ IH]; intros Hok; [split_and!; [done|lia|done]|].
  destruct (step_good n w1 w2 Hok H1) as (Hok2 & Hr & Hk). destruct (IH Hok2) as (Hok3 & Hr3 & Hk3). split_and!; [done|lia|congruence].
Qed.

Lemma ranks_start n L kinds : ranks (w_creatures (start n L kinds)) = (length kinds * (30 * L + 25))%nat.
Proof. unfold ranks. cbn. induction kinds as [|k kinds IH]; cbn; [done|]. rewrite IH. unfold rank. cbn. lia. Qed.
Lemma kinds_start n L kinds : c_kind <$> w_creatures (start n L kinds) = kinds.
Proof. cbn. rewrite <- list_fmap_compose. apply list_fmap_id. Qed.

(** ** What the synchronisation gives *)

Definition eats (c : creature) : bool := match c_pc c with Eat _ => true | _ => false end.

Lemma eats_holds c : eats c = true -> holds c = true.
Proof. unfold eats, holds. by destruct (c_pc c). Qed.
Lemma feeding_eats c : feeding c = true -> eats c = true.
Proof. unfold feeding, eats. by destruct (c_pc c). Qed.

(** A panic has a cat and a mouse at two bowls. *)
Lemma fails_clash n w f : ok n w -> fails n w f ->
  (f = CatWithMice \/ f = MouseWithCats) /\
  exists t1 c1 t2 c2, zlookup (w_creatures w) t1 = Some c1 /\ zlookup (w_creatures w) t2 = Some c2 /\
    c_kind c1 = Cat /\ c_kind c2 = Mouse /\ eats c1 = true /\ eats c2 = true /\ bowl c1 <> bowl c2.
Proof.
  intros Hok (t & c & i & Hc & He). destruct w as [s cs]. pose proof (exec_good n s cs t c i Hok Hc) as Hg. cbn in He. rewrite He in Hg.
  destruct Hg as [Hp Hg]. assert (eats c = true) as Hce by (unfold eats; by rewrite Hp).
  assert (forall t1 c1 t2 c2, zlookup cs t1 = Some c1 -> zlookup cs t2 = Some c2 -> eats c1 = true -> eats c2 = true -> c_kind c1 <> c_kind c2 ->
    bowl c1 <> bowl c2) as Hne.
  { intros t1 c1 t2 c2 H1 H2 E1%eats_holds E2%eats_holds Hk Hb. apply Hk.
    assert (t1 = t2) as ->; [by apply (holds_unique n (bowl_locks s) cs t1 c1 t2 c2); [apply Hok|..]|]. congruence. }
  pose proof (ok_eating_cats _ _ Hok) as Hec. pose proof (ok_eating_mice _ _ Hok) as Hem. cbn in Hec, Hem.
  destruct (c_kind c) eqn:Hk; destruct Hg as [-> Hg]; (split; [auto|]); rewrite ?Hec, ?Hem in Hg;
    destruct (count_some _ _ Hg) as (t2 & c2 & Hc2 & [Hf Hk2%bool_decide_eq_true]%andb_true_iff);
    apply feeding_eats in Hf; [exists t, c, t2, c2|exists t2, c2, t, c]; (split_and!; try done; by eapply Hne; eauto; congruence).
Qed.


(** ** How it ends *)

Definition stuck (n : Z) (w : world) : Prop := (forall w', ~ step n w w') /\ (forall f, ~ fails n w f).

Lemma stuck_waits n w t c : ok n w -> stuck n w -> zlookup (w_creatures w) t = Some c -> waits (w_shared w) t c.
Proof.
  intros Hok [Hs Hf] Hc. destruct w as [s cs]. pose proof (exec_good n s cs t c (mkInput 0 (0, 0) (0, 0)) Hok Hc) as Hg. cbn in *.
  destruct (exec n t _ c s) as [|[s' c']|f] eqn:E; [done| |].
  - exfalso. eapply Hs. by econstructor.
  - exfalso. apply (Hf f). by eexists _, _, _.
Qed.

(** When no creature can go on, no semaphore is at zero and no lock is held. *)
Lemma stuck_mutex n w : ok n w -> stuck n w -> mutex (w_shared w) <> 0.
Proof.
  intros Hok Hst E. pose proof (ok_mutex _ _ Hok) as [_ Hm]. destruct (count_some in_mutex (w_creatures w)) as (t & c & Hc & Hi); [lia|].
  pose proof (stuck_waits n w t c Hok Hst Hc) as Hw. unfold in_mutex in Hi. unfold waits in Hw. by destruct (c_pc c) as [|[]|[]|[]| | | | |].
Qed.
Lemma stuck_perf n w : ok n w -> stuck n w -> perf_mutex (w_shared w) <> 0.
Proof.
  intros Hok Hst E. pose proof (ok_perf _ _ Hok) as [_ Hm]. destruct (count_some in_perf (w_creatures w)) as (t & c & Hc & Hi); [lia|].
  pose proof (stuck_waits n w t c Hok Hst Hc) as Hw. unfold in_perf in Hi. unfold waits in Hw. by destruct (c_pc c) as [|[]|[]|[]| | | | |].
Qed.
Lemma stuck_sem n w : ok n w -> stuck n w -> globalCatMouseSem (w_shared w) <> 0.
Proof.
  intros Hok Hst E. pose proof (ok_n _ _ Hok). pose proof (ok_sem _ _ Hok) as [_ Hm]. destruct (count_some owes (w_creatures w)) as (t & c & Hc & Hi); [lia|].
  pose proof (stuck_waits n w t c Hok Hst Hc) as Hw. pose proof (stuck_mutex n w Hok Hst). unfold owes in Hi. unfold waits in Hw.
  by destruct (c_pc c) as [|[]|[]|[]| | | | |].
Qed.
Lemma stuck_lock n w b k : ok n w -> stuck n w -> zlookup (bowl_locks (w_shared w)) b <> Some (Some k).
Proof.
  intros Hok Hst E. destruct (lo_held _ _ _ (ok_locks _ _ Hok) b k E) as (c & Hc & Hh & _).
  pose proof (stuck_waits n w k c Hok Hst Hc) as Hw. pose proof (stuck_mutex n w Hok Hst). pose proof (stuck_sem n w Hok Hst).
  unfold holds in Hh. unfold waits in Hw. by destruct (c_pc c) as [|[[]| | | | |]|[]|[]| | | | |].
Qed.

(** Only cats that wait on their condition variable are left. *)
Lemma stuck_all n w t c : ok n w -> stuck n w -> zlookup (w_creatures w) t = Some c ->
  c_pc c = Done \/ c_kind c = Cat /\ c_pc c = Before BAsleep /\ t ∈ cv_cats (w_shared w).
Proof.
  intros Hok Hst Hc. pose proof (stuck_waits n w t c Hok Hst Hc) as Hw.
  pose proof (stuck_mutex n w Hok Hst). pose proof (stuck_sem n w Hok Hst). pose proof (stuck_perf n w Hok Hst). unfold waits in Hw.
  destruct (c_pc c) as [|[]|[]|[]| | | | |] eqn:Ep; try done; [right; by destruct Hw|destruct Hw as [k Hk]; by apply (stuck_lock n) in Hk|by left].
Qed.

(** C19. Every execution ends, after at most [30 * L + 25] steps of each creature
    when each is to eat [L] times: no creature goes on for ever and there is no
    deadlock over bowls and semaphores.  When it ends and there was no panic,
    each creature has finished, or is a cat that waits in [cv_wait] for a mouse
    to finish eating. *)
Theorem simulation_ends (n : Z) (L k : nat) (kinds : list creature_kind) (w : world) :
  1 <= n < 2 ^ 31 -> zlen kinds < 2 ^ 31 -> nsteps (step n) k (start n L kinds) w ->
  (k <= length kinds * (30 * L + 25))%nat /\
  (stuck n w -> forall t c, zlookup (w_creatures w) t = Some c ->
     c_pc c = Done \/ c_kind c = Cat /\ c_pc c = Before BAsleep /\ t ∈ cv_cats (w_shared w)).
Proof.
  intros Hn Hk Hr. destruct (steps_good n k _ w (simulation_start n L kinds Hn Hk) Hr) as (Hok & Hb & _). rewrite ranks_start in Hb.
  split; [lia|]. intros Hst t c. by apply (stuck_all n).
Qed.

Lemma count_all f (cs : list creature) : (forall t c, zlookup cs t = Some c -> f c = true) -> count f cs = zlen cs.
Proof.
  intros H. assert (Forall (fun c => f c = true) cs) as Hf.
  { apply Forall_forall. intros c Hc. destruct (zlookup_elem cs c Hc) as [t Ht]. by eapply H. }
  unfold zlen. clear H. induction Hf as [|c cs Hc _ IH]; cbn [count length]; [done|]. rewrite Hc, IH. simpl. lia.
Qed.

Lemma cleanup_stuck n w : ok n w -> stuck n w -> (forall t c, zlookup (w_creatures w) t = Some c -> c_pc c = Done) ->
  catmouse_sync_cleanup (w_shared w) = Next tt.
Proof.
  intros Hok Hst Hd. unfold catmouse_sync_cleanup. rewrite (ok_cv_mice _ _ Hok), (bool_decide_true ([] = [])) by done.
  assert (cv_cats (w_shared w) = []) as ->.
  { destruct (cv_cats (w_shared w)) as [|t l] eqn:E; [done|]. destruct (ok_cv_cats _ _ Hok t) as (c & Hc & Ha); [rewrite E; by left|].
    unfold asleep in Ha. by rewrite (Hd t c Hc) in Ha. }
  assert (forallb (fun h => bool_decide (h = None)) (bowl_locks (w_shared w)) = true) as ->; [|done].
  apply forallb_forall. intros [k|] Hh%list_elem_of_In; [|done]. exfalso. apply zlookup_elem in Hh as [b Hb]. by apply (stuck_lock n) in Hb.
Qed.

(** With mice only: none of them panics, and when no one can go on all have
    finished, [catmouse] is told so by each of them, and the locks and the
    condition variables can be destroyed. *)
Theorem mice_finish (n : Z) (L : nat) (mice : nat) (w : world) :
  1 <= n < 2 ^ 31 -> Z.of_nat mice < 2 ^ 31 -> rtc (step n) (start n L (launch 0 mice)) w ->
  (forall f, ~ fails n w f) /\
  (stuck n w -> (forall t c, zlookup (w_creatures w) t = Some c -> c_pc c = Done) /\
     CatMouseWait (w_shared w) = Z.of_nat mice /\ catmouse_sync_cleanup (w_shared w) = Next tt).
Proof.
  intros Hn Hm Hr. apply rtc_nsteps in Hr as [k Hr]. assert (zlen (launch 0 mice) = Z.of_nat mice) as Hlen by (unfold zlen; cbn; by rewrite length_replicate).
  destruct (steps_good n k _ w (simulation_start n L (launch 0 mice) Hn ltac:(lia)) Hr) as (Hok & _ & Hk). rewrite kinds_start in Hk.
  assert (forall t c, zlookup (w_creatures w) t = Some c -> c_kind c = Mouse) as Hmouse.
  { intros t c Hc. assert (zlookup (c_kind <$> w_creatures w) t = Some (c_kind c)) as E by (by rewrite zlookup_fmap, Hc).
    rewrite Hk in E. unfold zlookup in E. destruct (bool_decide _); [|done]. cbn in E. by apply lookup_replicate in E as [-> _]. }
  assert (zlen (w_creatures w) = Z.of_nat mice) as Hwl by (rewrite <- Hlen, <- Hk; unfold zlen; by rewrite length_fmap).
  split.
  - intros f Hf. destruct (fails_clash n w f Hok Hf) as (_ & t1 & c1 & _ & _ & H1 & _ & E & _). rewrite (Hmouse t1 c1 H1) in E. done.
  - intros Hst. assert (forall t c, zlookup (w_creatures w) t = Some c -> c_pc c = Done) as Hd.
    { intros t c Hc. destruct (stuck_all n w t c Hok Hst Hc) as [|[E _]]; [done|]. rewrite (Hmouse t c Hc) in E. done. }
    split; [done|]. split; [|by apply (cleanup_stuck n)].
    rewrite (ok_waited _ _ Hok), <- Hwl. apply count_all. intros t c Hc. unfold done_. by rewrite (Hd t c Hc).
Qed.

(** ** What it does not give *)

(** A cat that has not passed [cv_wait]. *)
Definition early (L : nat) (s : shared) (t : Z) (c : creature) : Prop :=
  c_kind c = Cat /\ loops_left c = S L /\
  match c_pc c with
  | Loop | Before (BTest false) | Before BRelease | Before BSleep => True
  | Before BAsleep => t ∈ cv_cats s
  | _ => False
  end.

Lemma early_step n L w w' :
  ok n w -> (forall t c, zlookup (w_creatures w) t = Some c -> early L (w_shared w) t c) -> step n w w' ->
  forall t c, zlookup (w_creatures w') t = Some c -> early L (w_shared w') t c.
Proof.
  intros Hok He Hs. destruct Hs as [s cs t c i s' c' Hc Hx]. cbn in *. pose proof (He t c Hc) as (Hk & Hl & Hp).
  assert (early L s' t c' /\ forall x, x ∈ cv_cats s -> x ∈ cv_cats s') as [Hc' Hcv].
  { unfold exec, cat_simulation in Hx. rewrite Hk, Hl in Hx. unfold early.
    destruct (c_pc c) as [|[[]| | | | |]|[]|[]| | | | |] eqn:Ep; try done; cbn in Hx.
    - injection Hx as <- <-. done.
    - unfold at_lock in Hx. destruct (zlookup (bowl_locks s) (bowl c)) as [h|] eqn:Eh; [|done]. cbn in Hx. injection Hx as <- <-. cbn.
      assert (holds c = false) as Hh by (unfold holds; by rewrite Ep). pose proof (not_my_lock n s cs t c Hok Hc _ _ Hh Eh).
      unfold lock_do_i_hold. rewrite bool_decide_false by done. rewrite Hk, Hl. done.
    - unfold release_bowl, at_lock in Hx. destruct (zlookup (bowl_locks s) (bowl c)) as [h|]; [|done].
      destruct (lock_give t h); cbn in Hx; injection Hx as <- <-; cbn; rewrite Hk, Hl; done.
    - injection Hx as <- <-. cbn. rewrite Hk, Hl. split; [split_and!; [done|done|]|intros x Hxx]; apply elem_of_app; [right; by apply list_elem_of_singleton|by left].
    - rewrite bool_decide_true in Hx by done. done. }
  intros k x. rewrite (lookup_move cs t c c' Hc). bool_case; [intros [= <-]; by subst k|]. intros Hkx.
  destruct (He k x Hkx) as (H1 & H2 & H3). split_and!; [done|done|]. destruct (c_pc x) as [|[[]| | | | |]|[]|[]| | | | |]; auto.
Qed.

(** C36. With cats only, each of which is to eat at least once: no cat ever eats, and
    when no one can go on, which is after a bounded number of steps, every cat
    waits on [cv_cats], which nobody broadcasts: [catmouse] never returns. *)
Theorem lone_cats_starve (n : Z) (L cats : nat) (w : world) :
  1 <= n < 2 ^ 31 -> Z.of_nat cats < 2 ^ 31 -> rtc (step n) (start n (S L) (launch cats 0)) w ->
  (forall t c, zlookup (w_creatures w) t = Some c -> eats c = false) /\ CatMouseWait (w_shared w) = 0 /\
  (stuck n w -> forall t c, zlookup (w_creatures w) t = Some c -> c_pc c = Before BAsleep /\ t ∈ cv_cats (w_shared w)).
Proof.
  intros Hn Hm Hr. assert (launch cats 0 = replicate cats Cat) as El by (clear; induction cats as [|x IH]; cbn; [done|by rewrite IH]).
  rewrite El in Hr.
  assert (ok n w /\ forall t c, zlookup (w_creatures w) t = Some c -> early L (w_shared w) t c) as [Hok He].
  { assert (zlen (replicate cats Cat) < 2 ^ 31) as Hz by (unfold zlen; by rewrite length_replicate).
    revert w Hr. apply (rtc_ind_r (fun w => ok n w /\ forall t c, zlookup (w_creatures w) t = Some c -> early L (w_shared w) t c)).
    - split; [by apply simulation_start|]. intros t c. cbn. rewrite zlookup_fmap. unfold zlookup. destruct (bool_decide _); [|done].
      destruct (replicate cats Cat !! Z.to_nat t) as [k|] eqn:E; [|done]. apply lookup_replicate in E as [-> _]. intros [= <-]. done.
    - intros w1 w2 _ H2 [H3 H4]. split; [by apply (step_good n w1 w2)|by eapply early_step]. }
  split; [|split].
  - intros t c Hc. destruct (He t c Hc) as (_ & _ & Hp). unfold eats. by destruct (c_pc c).
  - rewrite (ok_waited _ _ Hok). apply count_none. intros t c Hc. destruct (He t c Hc) as (_ & _ & Hp). unfold done_. by destruct (c_pc c).
  - intros Hst t c Hc. destruct (stuck_all n w t c Hok Hst Hc) as [E|(_ & E)]; [|done]. destruct (He t c Hc) as (_ & _ & Hp). by rewrite E in Hp.
Qed.

(** A schedule: which creature moves, with what input. *)
Fixpoint play (n : Z) (l : list (Z * input)) (w : world) : option world :=
  match l with
  | [] => Some w
  | (t, i) :: l' =>
      match zlookup (w_creatures w) t with
      | None => None
      | Some c => match exec n t i c (w_shared w) with Next (s', c') => play n l' (mkWorld s' (zinsert (w_creatures w) t c')) | _ => None end
      end
  end.

Lemma play_steps n l w w' : play n l w = Some w' -> nsteps (step n) (length l) w w'.
Proof.
  revert w. induction l as [|[t i] l IH]; intros [s cs]; cbn; [intros [= <-]; constructor|].
  destruct (zlookup cs t) as [c|] eqn:Hc; [|done]. destruct (exec n t i c s) as [|[s' c']|f] eqn:He; try done. intros H. econstructor; [by econstructor|by apply IH].
Qed.

(** [k] moves of creature [t], which chooses bowl [b]. *)
Definition moves (t : Z) (k : nat) (b : Z) : list (Z * input) := replicate k (t, mkInput (b - 1) (0, 0) (0, 5)).

(** The cat waits at bowl 1, the first mouse eats there and wakes it, the second
    mouse starts at bowl 2, and the cat goes on. *)
Definition clash_schedule : list (Z * input) :=
  moves 0 4 1 ++ moves 1 16 1 ++ moves 2 6 2 ++ moves 0 5 1.


(** ** Setting up *)

(** The bytes of the block that [kmalloc] gives for [sz] bytes. *)
Definition block_size (sz : Z) : Z :=
  if Kmalloc.LARGEST_SUBPAGE_SIZE <=? sz then u32 (u32 (sz + PAGE_SIZE) - 1) / PAGE_SIZE * PAGE_SIZE
  else default 0 (Kmalloc.blocktype_loop Kmalloc.sizes 0 sz ≫= zlookup Kmalloc.sizes).

(** [for (i = 0; i <= bowls; i++) bowl_locks[i] = lock_create("bowl"+i)], on the
    words of the block. *)
Section Init.
Variable lock_create : Z -> Z.

Fixpoint init_loop (count : nat) (i : Z) : M (list Z) unit :=
  match count with
  | O => ret tt
  | S count' =>
      let* block := get in
      let* _ := of_option Wild (zlookup block i) in
      modify (fun block => zinsert block i (lock_create i)) ;;
      init_loop count' (i + 1)
  end.

Definition catmouse_sync_init (NumBowls : Z) : M (list Z) unit := init_loop (Z.to_nat (NumBowls + 1)) 0.

Lemma init_loop_spec count : forall i block, 0 <= i -> 
  match init_loop count i block with
  | Ret _ block' => i + Z.of_nat count <= zlen block \/ count = O
  | Err _ _ => False
  | Crash c => c = Wild /\ zlen block < i + Z.of_nat count
  end.
Proof.
  induction count as [|count IH]; intros i block Hi; cbn [init_loop]; [by right|].
  unfold bind, get, of_option. destruct (zlookup block i) as [x|] eqn:Ex.
  - pose proof (zlookup_Some_range _ _ _ Ex). cbn. specialize (IH (i + 1) (zinsert block i (lock_create i)) ltac:(lia)). rewrite zlen_zinsert in IH.
    destruct (init_loop count (i + 1) _); [destruct IH as [IH| ->]; left; lia|done|destruct IH; split; [done|lia]].
  - cbn. split; [done|]. destruct (decide (i < zlen block)); [|lia]. destruct (zlookup_is_Some block i) as [x Hx]; [lia|]. congruence.
Qed.

Lemma block_size_full NumBowls :
  1 <= NumBowls < 2 ^ 28 ->
  4 * NumBowls <= block_size (4 * NumBowls) /\
  (block_size (4 * NumBowls) / 4 < NumBowls + 1 <-> NumBowls ∈ [4; 8; 16; 32; 64; 128; 256] \/ NumBowls mod 1024 = 0).
Proof.
  intros Hn. rewrite !elem_of_cons, elem_of_nil. unfold block_size, Kmalloc.LARGEST_SUBPAGE_SIZE, PAGE_SIZE.
  destruct (Z.leb_spec 2048 (4 * NumBowls)).
  - rewrite !u32_small by (unfold is_u32, u32 in *; rewrite ?Z.mod_small by lia; lia). split; dlia.
  - unfold Kmalloc.blocktype_loop, Kmalloc.sizes. repeat (bool_case;
      [match goal with |- context [default ?d ?o] => let v := eval vm_compute in (default d o) in change (default d o) with v end; split; dlia|]). lia.
Qed.

(** C38. [catmouse_sync_init] stores one lock more than it asked [kmalloc] for.
    It writes outside the block it got exactly when what it asked for is the
    size of a block or a multiple of the page size: 4, 8, 16, .. 256 or a
    multiple of 1024 bowls. *)
Theorem sync_init_overrun (NumBowls : Z) :
  1 <= NumBowls < 2 ^ 28 ->
  (catmouse_sync_init NumBowls (zrep (block_size (4 * NumBowls) / 4) 0) = Crash Wild <->
   NumBowls ∈ [4; 8; 16; 32; 64; 128; 256] \/ NumBowls mod 1024 = 0).
Proof.
  intros Hn. pose proof (init_loop_spec (Z.to_nat (NumBowls + 1)) 0 (zrep (block_size (4 * NumBowls) / 4) 0) ltac:(lia)) as H.
  pose proof (block_size_full NumBowls Hn) as [Hb Hiff].
  rewrite zlen_zrep in H by dlia. unfold catmouse_sync_init. rewrite <- Hiff. destruct (init_loop _ _ _) as [| |cr]; [|done|].
  - split; [done|]. destruct H; lia.
  - destruct H as [-> H]. split; [lia|done].
Qed.

End Init.

(** ** The command *)

(** The arguments are all read inside [args], and when they are accepted the
    simulation has at least one bowl and one loop. *)
Lemma catmouse_args_spec atoi nargs args p :
  zlen args = nargs ->
  returns (catmouse_args atoi nargs args p) (fun r p' => r = 0 ->
    0 < NumBowls p' /\ 0 <= NumCats p' /\ 0 <= NumMice p' /\ 0 < NumLoops p' /\
    (nargs = 5 -> CatEatTime p' = CatEatTime p /\ MouseEatTime p' = MouseEatTime p)).
Proof.
  intros Hlen. unfold catmouse_args. destruct (negb (nargs =? 9) && negb (nargs =? 5)) eqn:En; [runs_steps; done|].
  assert (forall i put refused k p (Q : Z -> params -> Prop), 0 <= i < nargs -> (forall x, refused x = true -> Q 1 (put x p)) ->
    (forall x, refused x = false -> returns (k (put x p)) Q) -> returns (set_param atoi args i put refused k p) Q) as Hset.
  { intros i put refused k p0 Q Hi H1 H2. unfold set_param. destruct (zlookup_is_Some args i) as [a Ha]; [lia|]. apply runs_bind, (runs_of_option _ _ a); [done|]. runs_steps.
    destruct (refused (atoi a)) eqn:E; [runs_steps; by apply H1|by apply H2]. }
  destruct (Z.eqb_spec nargs 9) as [->|]; [|assert (nargs = 5) as -> by lia];
    repeat (apply Hset; [lia|done|intros ? ?; cbv beta; cbn [NumBowls NumCats NumMice NumLoops CatEatTime CatSleepTime MouseEatTime MouseSleepTime]]);
    runs_steps; cbn; lia.
Qed.

(** ** Witnesses *)


(** One mouse that eats once. *)
Lemma simulation_ends_witness : exists w, nsteps (step 1) 17 (start 1 1 (launch 0 1)) w /\ (17 <= 55)%nat.
Proof.
  destruct (play 1 (moves 0 17 1) (start 1 1 (launch 0 1))) as [w|] eqn:E; [|by vm_compute in E]. apply play_steps in E. exists w. split; [exact E|].
  exact (proj1 (simulation_ends 1 1 17 (launch 0 1) w ltac:(lia) ltac:(done) E)).
Defined.

(** With a single creature, a world that it cannot leave is stuck. *)
Lemma stuck_single n s c : (forall i, exec n 0 i c s = Blocked) -> stuck n (mkWorld s [c]).
Proof.
  intros H. assert (forall t x, zlookup [c] t = Some x -> t = 0 /\ x = c) as Hl.
  { intros t x Hx. pose proof (zlookup_Some_range _ _ _ Hx). assert (t = 0) as -> by (unfold zlen in *; simpl in *; lia). by injection Hx as <-. }
  split.
  - intros w' Hs. inversion Hs as [s0 cs t x i s' c' Hx He]; subst. destruct (Hl t x Hx) as [-> ->]. congruence.
  - intros f (t & x & i & Hx & He). cbn in *. destruct (Hl t x Hx) as [-> ->]. congruence.
Qed.

(** One mouse that has eaten. *)
Lemma mice_finish_witness : exists w, CatMouseWait (w_shared w) = 1 /\ catmouse_sync_cleanup (w_shared w) = Next tt.
Proof.
  destruct (play 1 (moves 0 17 1) (start 1 1 (launch 0 1))) as [w|] eqn:E; [|by vm_compute in E].
  assert (rtc (step 1) (start 1 1 (launch 0 1)) w) as Hr by (apply rtc_nsteps; eexists; by apply play_steps).
  exists w. apply (mice_finish 1 1 1 w ltac:(lia) ltac:(lia) Hr). vm_compute in E. injection E as <-. by apply stuck_single.
Defined.

(** One cat that waits. *)
Lemma lone_cats_starve_witness : exists w, rtc (step 1) (start 1 1 (launch 1 0)) w /\ CatMouseWait (w_shared w) = 0 /\ stuck 1 w /\ 0 ∈ cv_cats (w_shared w).
Proof.
  destruct (play 1 (moves 0 4 1) (start 1 1 (launch 1 0))) as [w|] eqn:E; [|by vm_compute in E].
  assert (rtc (step 1) (start 1 1 (launch 1 0)) w) as Hr by (apply rtc_nsteps; eexists; by apply play_steps).
  destruct (lone_cats_starve 1 0 1 w ltac:(lia) ltac:(lia) Hr) as (_ & Hz & Hst).
  assert (stuck 1 w) as Hs by (vm_compute in E; injection E as <-; by apply stuck_single).
  exists w. split_and!; [exact Hr|exact Hz|exact Hs|]. destruct (zlookup (w_creatures w) 0) as [c|] eqn:Hc; [exact (proj2 (Hst Hs 0 c Hc))|].
  vm_compute in E. injection E as <-. discriminate Hc.
Defined.

Lemma sync_init_overrun_witness : catmouse_sync_init (fun i => i) 4 (zrep (block_size 16 / 4) 0) = Crash Wild.
Proof. apply (proj2 (sync_init_overrun (fun i => i) 4 ltac:(lia))). left. by left. Defined.

End Catmouse.
